(* ===== verification/_CoqProject ===== *)
-Q . S2P
Prelude.v
Types.v
Blocks.v
Codec.v
Work.v
Store.v
RepWeights.v
Sets.v
Validation.v
Insertion.v
Effect.v
Chains.v
Money.v
LedgerInv.v
InsertSafe.v
Batch.v
Rollback.v
RollbackSafe.v
RollbackLoop.v
Startup.v
Sample.v
Links.v
Cementer.v
CementSafe.v
FinalVotes.v
System.v
Authorised.v
Undo.v
Scenario.v
LedgerTheorems.v
HistoryTheorems.v
Findings.v
ViewTheorems.v
Votes.v
Election.v
ElectionSafe.v
ElectionTheorems.v
Ordered.v
Collections.v
Floats.v
ActiveElections.v
AecSafe.v
AecOps.v
RoundRobin.v
AecTheorems.v
FairQueue.v
Messages.v
MessageCodec.v
MessageStream.v
FilterTheorems.v
StreamTheorems.v
MessageTypes.v
Handshake.v
HandshakeTheorems.v
Peers.v
PeersSafe.v
Channel.v
ChannelTheorems.v
Network.v
NetworkTheorems.v
Receiver.v
ReceiverTheorems.v
VoteCache.v
VoteCacheTheorems.v
Candidates.v
CandidatesTheorems.v
Text.v
TextTheorems.v
OnlineReps.v
OnlineRepsTheorems.v
VoteGeneration.v
VoteSpacingTheorems.v
VoteHistoryTheorems.v
VoteGenerationTheorems.v
VoteSafety.v
Bootstrap.v
BootstrapServer.v
BootstrapTheorems.v
BootstrapSafety.v
BootstrapServerTheorems.v
