(* ===== verification/Prelude.v ===== *)
(** * RsNano: a verification development of the Nano node in Rust

    ** The program

    RsNano is a node of the Nano network. Every account has its own chain of
    blocks; a send takes an amount out of an account and leaves a pending
    entry, a receive in the other account takes it in. The parts that decide
    about money are the subject of this development:

    - types/src: amounts, hashes, blocks, votes and their byte formats;
    - work/src/work_thresholds.rs: how much proof of work a block needs;
    - store_lmdb/src: the tables of the ledger in LMDB;
    - ledger/src: validation, insertion, rollback and cementing of blocks, the
      representative weights, startup, and which votes may be signed;
    - node/src/consensus/election and active_elections: elections between
      conflicting blocks, decided by the weight of the votes, and the container
      of the elections that run;
    - node/src/consensus/vote_cache.rs and vote_generation: votes that arrive
      before their election, and the votes of the node itself;
    - node/src/representatives: who is online, and the quorum;
    - node/src/bootstrap: fetching the blocks the node lacks from its peers, and
      serving them;
    - messages/src, network/src and network_protocol/src: what the node tells
      its peers and how: message formats, the handshake, channels, connection
      limits and the way of a message from the socket to its queue.

    The block processor hands batches of blocks to [process_batch]; a block
    that conflicts with another one, or is not confirmed yet, gets an election
    in the container; votes are applied to it until the final votes for the
    winner reach the quorum; the winner is then cemented with [confirm], and
    the loser rolled back with [roll_back]. A representative signs votes for
    blocks the vote verifier lets pass; bootstrapping asks peers for the blocks
    of accounts by priority and hands them to the block processor. Blocks and
    votes arrive in messages: the reading task of a channel hands packets to its
    receiver, which parses them, runs the handshake and puts the messages
    into a fair queue; what the node sends goes through a write queue per
    channel to the writing task.

    ** The files

    The language: Prelude (machine integers with their wrap-around, byte
    strings, decoders, results, runs of loops with fuel, sums over maps),
    Ordered (ordered sets), Collections ([BTreeMap], [HashSet] and containers
    with secondary indexes), Floats ([f64]).

    Types and formats: Types (types/src: amounts, 256-bit values, account,
    pending and confirmation records, the class [Crypto]), Blocks
    (types/src/blocks), Codec (their byte formats), Work (work_thresholds.rs),
    Votes (vote.rs, vote_timestamp.rs), Text and TextTheorems (the text forms of
    accounts, node ids, hashes and amounts).

    The ledger: Store (store_lmdb: one finite map per table, [LmdbStore]),
    RepWeights (rep_weights_updater.rs, rep_weight_cache.rs), Sets (ledger_sets,
    representative_block_finder.rs, dependent_blocks_finder.rs), Validation
    (block_insertion/validation), Insertion (block_inserter.rs, process_batch of
    ledger.rs), Rollback (block_rollback), Cementer (block_cementer.rs,
    confirm_batch of ledger.rs), FinalVotes (vote_verifier.rs), Startup
    (initialize of ledger.rs).

    Its proofs: Effect (what an accepted block does), Chains and Money (the
    invariants of the tables), LedgerInv ([ledger_inv]), InsertSafe, Batch,
    RollbackSafe, RollbackLoop, Undo, Links and CementSafe ([ledger_ok]: the
    tables, the graph of dependencies and the confirmed part of it), Authorised
    (soundness and completeness of validation), System (the ledger as a
    transition system, [ledger_step]).

    Consensus: Election (election.rs, block_tallies.rs, election_state.rs),
    ElectionSafe (its invariant [election_ok]), ElectionTheorems;
    ActiveElections (active_elections, bucketing.rs, filtered_vote.rs), AecSafe
    (its invariant [aec_inv]), AecOps (every operation keeps it), RoundRobin (the
    iterator), AecTheorems; VoteCache (vote_cache.rs) and VoteCacheTheorems;
    OnlineReps (node/src/representatives) and OnlineRepsTheorems; VoteGeneration
    (vote_generation), VoteSpacingTheorems, VoteHistoryTheorems,
    VoteGenerationTheorems, and VoteSafety: the ledger, the verifiers, the
    request aggregator and the generator as one transition system, [vote_step].

    Bootstrapping: Candidates (candidate_accounts) and CandidatesTheorems;
    Bootstrap (running queries, block queue, frontier scan, peer scores, answers,
    block inspector, cleanup: [BootstrapLogic]), BootstrapTheorems (its
    containers), BootstrapSafety (all operations under the lock,
    [bootstrap_step], and their invariant [logic_ok]); BootstrapServer
    (bootstrap_server.rs, database_crawler.rs, frontier_checker.rs) and
    BootstrapServerTheorems.

    The network: FairQueue (utils/src/fair_queue.rs: bounded queues per source,
    served in turn), Messages (messages/src: header, message types, serializer),
    MessageCodec (round trips of the formats), MessageStream (the deserializer
    and the duplicate filter), StreamTheorems, MessageTypes (what is read is well
    formed) and FilterTheorems; Handshake
    (syn_cookies.rs, handshake_process.rs) and HandshakeTheorems; Peers
    (utils.rs, attempt_container.rs, peer_exclusion.rs) and PeersSafe (their
    indexes, and the specification of the peer exclusion); Channel (channel.rs,
    write_queue.rs, token_bucket.rs, bandwidth_limiter.rs, the writing task of
    tcp_channel_adapter.rs, message_sender.rs) and ChannelTheorems; Network
    (network.rs) and NetworkTheorems; Receiver (nano_data_receiver.rs,
    inbound_message_queue.rs, latest_keepalives.rs, the reading task of
    tcp_network_adapter.rs) and ReceiverTheorems. Tasks are step machines whose
    events are what wakes them; an [async] function is one poll of its loop.

    The theorems: LedgerTheorems, HistoryTheorems, ViewTheorems, Findings, and
    the files of consensus named above. Sample and Scenario are a small concrete
    ledger, on which each theorem with hypotheses is applied.

    ** How the code is modelled

    A record of the source is a [Record], an enum an [Inductive], a method a
    function that takes the state and returns the new one. A [HashMap] or a
    table is a [gmap], a [BTreeSet] a sorted list, a [Vec] a list. Integers keep
    their width: [wrap w] where the code wraps (the release build), explicit
    checks where it checks. [None], or [Panicked], is a panic ([unwrap],
    [expect], [assert!], an index out of range); an error is a value of
    [result]. The model is of a release build: [debug_assert!] is not executed
    (two of them fail, see the end of this comment). The ledger's locks and write transactions make each operation atomic; where the
    code gives a transaction up in the middle (reading and writing in
    [process_batch], refreshing in [confirm] and [verify_votes]) other writers
    are let in, as a second state or a function [refresh].

    Parameters, with what is assumed of them: BLAKE2b and Ed25519 (class
    [Crypto], laws [CryptoLaws]: a signature made with a key verifies with it;
    [model_crypto] satisfies them), LMDB (class [LmdbEngine], both possible
    reactions to a missing key), the bits of the crate bitvec (class [BitVec]),
    the iteration order of hash maps (class [HashOrder]: every entry once), the
    order of the crate ordered_float ([OrderedFloat]: total, agrees with the
    floats), the wide integers of primitive_types ([U512], [U256Arith]: exact
    arithmetic in their range), the decoder of the crate hex ([Hex]), random
    values and choices (arguments), and the absence of hash collisions among the
    blocks a node sees ([block_ok], [no_collisions]).

    Fuel: a loop that is not structural has a fuel argument, and its theorem
    gives a number that is enough: [roll_back_total] and [confirm_correct] from
    the number of blocks, [confirm_root_terminates] from the number of
    unconfirmed blocks, [find_rep_block_correct] from the height,
    [iter_round_robin_complete] from the number of elections,
    [fair_queue_correct] from the number of sources, [parsing_total] and
    [receiver_in_order] from the number of bytes; the loops over the containers
    of the vote cache, of the generator and of bootstrapping have one more than
    the size of the container, and [candidates_correct], [votes_spaced] and
    [bootstrap_correct] (and their lemmas) say that they end.

    ** What is shown

    - Every reachable ledger satisfies [ledger_ok]; the supply is constant and
      weights are the delegated balances; nothing is received twice; a batch
      adds exactly its accepted blocks; accepted blocks are authorised, honest
      blocks are accepted; the effect of every block is stated exactly
      (LedgerTheorems). The batches are those of [admissible]: values in range,
      no hash collisions, chains shorter than 2^64 - 1, no accepted block that
      uses the defect of [epoch_link_creates_money] or receives an empty send,
      and validation against the state they are inserted into or an older one
      since which nothing was rolled back ([stale_receive_panics] shows what
      happens otherwise). The theorems on final votes and on confirmed blocks
      are about the same steps.
    - Confirmed blocks and final votes are never lost; rollback terminates,
      succeeds on unconfirmed blocks and undoes insertion exactly; cementing
      confirms exactly the dependencies, also while others write; startup
      restores the caches (HistoryTheorems).
    - Elections never panic, count exactly, confirm exactly at the quorum, and
      stay as they ended; two nodes confirm different blocks only if some
      representative voted finally for both (ElectionTheorems). A node does not
      do that: of all final votes its generator ever hands out, no two are for
      different blocks of one root, however its threads interleave (VoteSafety).
    - Votes for different blocks of one root are a voting delay apart; the quorum
      is 67% of the largest of the online, the trended and the minimal weight,
      and the containers of the online and peered representatives implement a
      functional specification (VoteGenerationTheorems, OnlineRepsTheorems); the
      vote cache keeps the newest vote of each voter within its bounds
      (VoteCacheTheorems).
    - Bootstrapping never panics, asks for nothing twice, keeps chains of blocks,
      covers all accounts and uses only answers it asked for (BootstrapSafety);
      a node with a consistent ledger gives answers that are accepted, and
      frontiers are compared exactly (BootstrapServerTheorems); candidates stay
      consistent, the best one comes first and decay unblocks exactly what is
      outdated and what depends on it (CandidatesTheorems).
    - The tables of the active elections container agree as long as it has not
      been stopped, and its operations do not panic ([force_confirm] does for an
      unknown hash); votes are never replaced by older ones; elections
      expire; iteration is complete; every balance has its bucket (AecTheorems).
    - Byte formats and texts are read back as written (Codec, Votes, MessageCodec,
      ViewTheorems, TextTheorems), and whatever is read is well formed
      (MessageTypes).
    - Parsing is total on any bytes and independent of packets (StreamTheorems);
      what a channel accepts arrives at the peer complete and in order, but for
      duplicates (ChannelTheorems), and what is parsed in realtime mode reaches
      the queue once and in order (ReceiverTheorems), both with other channels
      using the shared duplicate filter between packets; the filter drops only
      what it has seen (FilterTheorems).
    - A node id is accepted only with a signature over a cookie made for the
      endpoint, and honest nodes complete the handshake (HandshakeTheorems).
    - The network never panics and keeps its connection limits
      (NetworkTheorems); the peer exclusion refines a plain table of peers
      (PeersSafe).
    - Defects of the code: four of the ledger (Findings), four of the network
      (NetworkTheorems: the limit per address ignores IPv6, a node can connect
      twice from one address, fresh activity counts as a timeout, multicast
      addresses pass), one of the reading task (ReceiverTheorems), two of the vote
      cache (VoteCacheTheorems: the order of [top], equal weights), one of the
      text of node ids (TextTheorems) and one of bootstrapping (BootstrapSafety:
      an account gets stuck in the block queue). Debug assertions that fail:
      that no message is held when [queue_realtime] pauses (at the second pause
      of a channel), and that a block is new in [enqueued_for_processing] (in
      the situation of [account_stuck]).

    ** Not modelled

    Threads, timers and sockets themselves (a socket takes and gives bytes in
    any portions), the dispatch of received messages, the queues in front of the
    ledger, of the elections and of the bootstrap server, the waiting states of
    the bootstrap requesters with their rate limits (the models allow any order
    of the calls these make), rebroadcasting of votes and blocks, wallets, RPC
    and WebSocket servers, configuration and tools, statistics counters; in the
    network, the fanout (a logarithm of floats), the messages of the feature
    ledger_snapshots, assertions of debug builds; in the ledger, rolling back
    batches with their competitors, preconfigured bootstrap weights, and tables
    that nothing modelled reads. *)

From stdpp Require Export base tactics numbers list gmap sorting.
From coqutil Require Export Byte Word.LittleEndianList.

#[global] Open Scope Z_scope.

(** ** Notations, hint databases and tactics *)

Declare Scope nano_scope.
Delimit Scope nano_scope with nano.

Create HintDb nano.
Create HintDb codec.

(** Case analysis on the boolean integer tests of the code, leaving the
    corresponding propositions in the context. *)
Ltac case_test :=
  match goal with
  | |- context [?a =? ?b] => destruct (Z.eqb_spec a b)
  | |- context [?a <? ?b] => destruct (Z.ltb_spec a b)
  | |- context [?a <=? ?b] => destruct (Z.leb_spec a b)
  end.

Ltac case_test_in H :=
  match type of H with
  | context [?a =? ?b] => destruct (Z.eqb_spec a b)
  | context [?a <? ?b] => destruct (Z.ltb_spec a b)
  | context [?a <=? ?b] => destruct (Z.leb_spec a b)
  end.

(** Turns every boolean hypothesis into the proposition it decides. *)
Ltac prop_bools :=
  repeat match goal with
  | H : (_ && _)%bool = true |- _ => apply andb_true_iff in H as [? ?]
  | H : (_ || _)%bool = false |- _ => apply orb_false_iff in H as [? ?]
  | H : negb _ = true |- _ => apply negb_true_iff in H
  | H : negb _ = false |- _ => apply negb_false_iff in H
  | H : (_ =? _) = true |- _ => apply Z.eqb_eq in H
  | H : (_ =? _) = false |- _ => apply Z.eqb_neq in H
  | H : (_ <? _) = true |- _ => apply Z.ltb_lt in H
  | H : (_ <? _) = false |- _ => apply Z.ltb_ge in H
  | H : (_ <=? _) = true |- _ => apply Z.leb_le in H
  | H : (_ <=? _) = false |- _ => apply Z.leb_gt in H
  end.

(** ** Machine integers

    An unsigned integer of [w] bits is a [Z] in [0, 2^w). *)

Definition in_u (w : Z) (z : Z) : Prop := 0 <= z < 2 ^ w.
Definition wrap (w : Z) (z : Z) : Z := z mod 2 ^ w.

#[global] Instance in_u_dec w z : Decision (in_u w z).
Proof. unfold in_u. apply _. Defined.

Definition u64_max : Z := 2 ^ 64 - 1.
Definition u128_max : Z := 2 ^ 128 - 1.

Lemma land_le t m : 0 <= m -> Z.land t m <= m.
Proof.
  intros Hm. rewrite Z.land_comm. rewrite <- (Z.lor_ldiff_and m t) at 2. rewrite <- Z.add_nocarry_lor.
  - pose proof (proj2 (Z.ldiff_nonneg m t) (or_introl Hm)). lia.
  - apply Z.bits_inj'. intros n _. rewrite Z.land_spec, Z.ldiff_spec, Z.land_spec, Z.bits_0.
    by destruct (Z.testbit m n), (Z.testbit t n).
Qed.

Lemma wrap_small w z : in_u w z -> wrap w z = z.
Proof. apply Z.mod_small. Qed.

Lemma wrap_in_u w z : 0 <= w -> in_u w (wrap w z).
Proof. intros. apply Z.mod_pos_bound, Z.pow_pos_nonneg; lia. Qed.

#[export] Hint Resolve wrap_in_u : nano.

Lemma wrap_add_l w a b : 0 <= w -> wrap w (wrap w a + b) = wrap w (a + b).
Proof. intros. unfold wrap. apply Z.add_mod_idemp_l. lia. Qed.

Lemma wrap_add_r w a b : 0 <= w -> wrap w (a + wrap w b) = wrap w (a + b).
Proof. intros. unfold wrap. apply Z.add_mod_idemp_r. lia. Qed.

(** ** Results

    [result E A] is Rust's [Result<A, E>]. A Rust panic is a [None] of the
    option monad at the places where the model keeps it. *)

Inductive result (E A : Type) : Type :=
  | Ok (a : A)
  | Err (e : E).
Arguments Ok {E A} a.
Arguments Err {E A} e.

#[global] Instance result_ret E : MRet (result E) := fun _ a => Ok a.
#[global] Instance result_bind E : MBind (result E) :=
  fun _ _ k m => match m with Ok a => k a | Err e => Err e end.

#[global] Instance result_eq_dec E A `{EqDecision E, EqDecision A} : EqDecision (result E A).
Proof. solve_decision. Defined.

Definition is_ok {E A} (r : result E A) : bool :=
  match r with Ok _ => true | Err _ => false end.

Definition ok_or {E A} (o : option A) (e : E) : result E A :=
  match o with Some a => Ok a | None => Err e end.

Lemma result_bind_Ok {E A B} (k : A -> result E B) m y :
  (m ≫= k) = Ok y <-> exists x, m = Ok x /\ k x = Ok y.
Proof. destruct m; split; cbn; [eauto | intros (? & ? & ?); by simplify_eq | done | by intros (? & ? & ?)]. Qed.

(** Splits a successful sequence of checks into its parts. *)
Ltac inv_ok H :=
  repeat match type of H with
  | (_ ≫= _) = Ok _ => let x := fresh "x" in let Hx := fresh "Hok" in
      apply result_bind_Ok in H as (x & Hx & H); try destruct x
  end.

(** ** Runs of loops

    The result of a loop that is run with fuel and may panic. *)

Inductive run (A : Type) : Type :=
  | Finished (a : A)
  | Panicked
  | Running.
Arguments Finished {A} a.
Arguments Panicked {A}.
Arguments Running {A}.

#[global] Instance run_ret : MRet run := fun _ a => Finished a.
#[global] Instance run_bind : MBind run :=
  fun _ _ k m => match m with Finished a => k a | Panicked => Panicked | Running => Running end.

(** [unwrap] and [expect] *)
Definition unwrap {A} (o : option A) : run A :=
  match o with Some a => Finished a | None => Panicked end.

(** A loop of the model whose fuel is counted, [None] when it runs out. *)
Definition fueled {A} (o : option A) : run A :=
  match o with Some a => Finished a | None => Running end.

(** ** Bytes

    Rust's [to_be_bytes]/[from_be_bytes] and their little-endian versions on
    [n]-byte arrays, on top of coqutil's little-endian split and combine. *)

Abbreviation byte := Init.Byte.byte.

Definition to_le_bytes (n : nat) (z : Z) : list byte := le_split n z.
Definition from_le_bytes (bs : list byte) : Z := le_combine bs.
Definition to_be_bytes (n : nat) (z : Z) : list byte := rev (le_split n z).
Definition from_be_bytes (bs : list byte) : Z := le_combine (rev bs).

Lemma length_to_le_bytes n z : length (to_le_bytes n z) = n.
Proof. apply length_le_split. Qed.

Lemma length_to_be_bytes n z : length (to_be_bytes n z) = n.
Proof. unfold to_be_bytes. by rewrite length_rev, length_le_split. Qed.

Lemma from_to_le_bytes n z : in_u (8 * Z.of_nat n) z -> from_le_bytes (to_le_bytes n z) = z.
Proof.
  intros H. unfold from_le_bytes, to_le_bytes. rewrite le_combine_split.
  apply Z.mod_small. unfold in_u in H. by rewrite Z.mul_comm.
Qed.

Lemma from_to_be_bytes n z : in_u (8 * Z.of_nat n) z -> from_be_bytes (to_be_bytes n z) = z.
Proof. unfold from_be_bytes, to_be_bytes. rewrite rev_involutive. apply from_to_le_bytes. Qed.

Lemma from_le_bytes_in_u bs : in_u (8 * Z.of_nat (length bs)) (from_le_bytes bs).
Proof. apply le_combine_bound. Qed.

Lemma from_be_bytes_in_u bs : in_u (8 * Z.of_nat (length bs)) (from_be_bytes bs).
Proof. unfold from_be_bytes. rewrite <- (length_rev bs). apply le_combine_bound. Qed.

Lemma to_from_be_bytes bs : to_be_bytes (length bs) (from_be_bytes bs) = bs.
Proof.
  unfold to_be_bytes, from_be_bytes. rewrite <- (length_rev bs), split_le_combine.
  apply rev_involutive.
Qed.

Definition u8_of (b : byte) : Z := byte.unsigned b.
Definition byte_of (z : Z) : byte := byte.of_Z z.

Lemma u8_of_byte_of z : in_u 8 z -> u8_of (byte_of z) = z.
Proof.
  intros. unfold u8_of, byte_of. rewrite byte.unsigned_of_Z. by apply Z.mod_small.
Qed.

Lemma u8_of_in_u b : in_u 8 (u8_of b).
Proof. apply byte.unsigned_range. Qed.

(** ** Readers

    A deserializer reads from a slice; it returns the value and the rest of
    the slice or a [DeserializationError] (types/src/lib.rs). *)

Inductive DeserializationError := InvalidData | TooMuchData | IoError.

#[global] Instance DeserializationError_eq_dec : EqDecision DeserializationError.
Proof. solve_decision. Defined.

Definition decoder (A : Type) : Type := list byte -> result DeserializationError (A * list byte).

#[global] Instance decoder_ret : MRet decoder := fun _ a bs => Ok (a, bs).
#[global] Instance decoder_bind : MBind decoder :=
  fun _ _ k m bs => match m bs with Ok (a, bs') => k a bs' | Err e => Err e end.

Definition dec_fail {A} (e : DeserializationError) : decoder A := fun _ => Err e.
Definition dec_opt {A} (o : option A) (e : DeserializationError) : decoder A :=
  match o with Some a => mret a | None => dec_fail e end.

(** [Read::read_exact] on a slice. *)
Definition read_exact (n : nat) : decoder (list byte) :=
  fun bs => if decide (n <= length bs)%nat then Ok (take n bs, drop n bs) else Err IoError.

Definition read_u8 : decoder Z :=
  b ← read_exact 1; mret (match b with [x] => u8_of x | _ => 0 end).
Definition read_u64_le : decoder Z := b ← read_exact 8; mret (from_le_bytes b).
Definition read_u64_be : decoder Z := b ← read_exact 8; mret (from_be_bytes b).
Definition read_u32_be : decoder Z := b ← read_exact 4; mret (from_be_bytes b).

(** [decodes d bs x]: on a slice that starts with [bs], [d] reads exactly
    [bs] and returns [x]. *)
Definition decodes {A} (d : decoder A) (bs : list byte) (x : A) : Prop :=
  forall rest, d (bs ++ rest) = Ok (x, rest).

Lemma decodes_ret {A} (x : A) : decodes (mret x) [] x.
Proof. by intros rest. Qed.

Lemma decodes_bind {A B} (d : decoder A) (k : A -> decoder B) bs1 bs2 x y :
  decodes d bs1 x -> decodes (k x) bs2 y -> decodes (d ≫= k) (bs1 ++ bs2) y.
Proof.
  intros H1 H2 rest. unfold mbind, decoder_bind.
  rewrite <- (assoc_L (++)), H1. apply H2.
Qed.

(** The last reader of a sequence, followed by a pure construction. *)
Lemma decodes_last {A B} (d : decoder A) (f : A -> B) bs x y :
  decodes d bs x -> f x = y -> decodes (a ← d; mret (f a)) bs y.
Proof.
  intros H1 <-. rewrite <- (app_nil_r bs). eapply decodes_bind; [done | apply decodes_ret].
Qed.

Lemma decodes_opt {A} (o : option A) e x : o = Some x -> decodes (dec_opt o e) [] x.
Proof. intros ->. apply decodes_ret. Qed.

(** An optional field: absent on the wire, it reads as a default. *)
Lemma decodes_if {A} (c : bool) (d : decoder A) bs x y :
  decodes d bs x ->
  decodes (if c then d else mret y) (if c then bs else []) (if c then x else y).
Proof. destruct c; [done | intros; apply decodes_ret]. Qed.

Lemma decodes_inj {A} (d : decoder A) bs x y : decodes d bs x -> decodes d bs y -> x = y.
Proof. intros H1 H2. specialize (H1 []). specialize (H2 []). congruence. Qed.

Lemma decodes_read_exact n bs : length bs = n -> decodes (read_exact n) bs bs.
Proof.
  intros <- rest. unfold read_exact.
  rewrite decide_True by (rewrite length_app; lia).
  by rewrite take_app_length, drop_app_length.
Qed.

Lemma decodes_read_u8 z : in_u 8 z -> decodes read_u8 [byte_of z] z.
Proof.
  intros. eapply decodes_last; [by apply decodes_read_exact | by apply u8_of_byte_of].
Qed.

Lemma decodes_read_u64_le z : in_u 64 z -> decodes read_u64_le (to_le_bytes 8 z) z.
Proof.
  intros. eapply decodes_last.
  - apply decodes_read_exact, length_to_le_bytes.
  - by apply from_to_le_bytes.
Qed.

Lemma decodes_read_u64_be z : in_u 64 z -> decodes read_u64_be (to_be_bytes 8 z) z.
Proof.
  intros. eapply decodes_last.
  - apply decodes_read_exact, length_to_be_bytes.
  - by apply from_to_be_bytes.
Qed.

Lemma decodes_read_u32_be z : in_u 32 z -> decodes read_u32_be (to_be_bytes 4 z) z.
Proof.
  intros. eapply decodes_last.
  - apply decodes_read_exact, length_to_be_bytes.
  - by apply from_to_be_bytes.
Qed.

#[export] Hint Resolve length_to_le_bytes length_to_be_bytes : codec.
#[export] Hint Resolve decodes_ret decodes_if decodes_read_exact decodes_read_u8 decodes_read_u64_le
  decodes_read_u64_be decodes_read_u32_be : codec.

(** One step through a decoder whose input is a right-nested concatenation. *)
Ltac decode_step :=
  first [ apply decodes_ret
        | eapply decodes_last; [solve [eauto with codec] | try done]
        | eapply decodes_bind; [solve [eauto with codec] | cbv beta] ].
Ltac decode_all := repeat decode_step.

(** ** Sums over finite maps *)

Definition map_sum {K V} `{Countable K} (f : V -> Z) (m : gmap K V) : Z :=
  map_fold (fun _ v acc => f v + acc) 0 m.

Section map_sum.
Context {K V : Type} `{Countable K} (f : V -> Z).
Implicit Types m : gmap K V.

Lemma map_sum_empty : map_sum f (∅ : gmap K V) = 0.
Proof. apply map_fold_empty. Qed.

Lemma map_sum_insert_None m k v :
  m !! k = None -> map_sum f (<[k:=v]> m) = f v + map_sum f m.
Proof.
  intros. unfold map_sum.
  rewrite (map_fold_insert_L (fun _ v acc => f v + acc)); [done | intros; lia | done].
Qed.

Lemma map_sum_singleton k v : map_sum f ({[k := v]} : gmap K V) = f v.
Proof. rewrite <- insert_empty, map_sum_insert_None, map_sum_empty by done. lia. Qed.

Lemma map_sum_delete m k v :
  m !! k = Some v -> map_sum f (delete k m) = map_sum f m - f v.
Proof.
  intros. unfold map_sum.
  rewrite (map_fold_delete_L (fun _ v acc => f v + acc) 0 k v m); [lia | intros; lia | done].
Qed.

(** One equation for all updates: the old value, if any, leaves the sum. *)
Lemma map_sum_insert m k v :
  map_sum f (<[k:=v]> m) = map_sum f m - default 0 (f <$> m !! k) + f v.
Proof.
  destruct (m !! k) as [v'|] eqn:E; cbn.
  - rewrite <- insert_delete_eq, map_sum_insert_None by apply lookup_delete_eq.
    rewrite (map_sum_delete _ _ _ E). lia.
  - rewrite map_sum_insert_None by done. lia.
Qed.

Lemma map_sum_delete_default m k :
  map_sum f (delete k m) = map_sum f m - default 0 (f <$> m !! k).
Proof.
  destruct (m !! k) as [v|] eqn:E; cbn; [by apply map_sum_delete |].
  rewrite delete_id by done. lia.
Qed.

Lemma map_sum_nonneg m : (forall k v, m !! k = Some v -> 0 <= f v) -> 0 <= map_sum f m.
Proof.
  induction m as [|k v m Hm _ IH] using map_first_key_ind; intros Hpos.
  - by rewrite map_sum_empty.
  - rewrite map_sum_insert_None by done.
    assert (0 <= f v) by (apply (Hpos k); apply lookup_insert_eq).
    assert (0 <= map_sum f m); [|lia].
    apply IH. intros k' v' Hk'. apply (Hpos k'). rewrite lookup_insert_ne; [done|].
    intros ->. congruence.
Qed.

Lemma map_sum_le (f' : V -> Z) m :
  (forall k v, m !! k = Some v -> f v <= f' v) -> map_sum f m <= map_sum f' m.
Proof.
  induction m as [|k v m Hm _ IH] using map_first_key_ind; intros Hle; [done|].
  assert (f v <= f' v) by (apply (Hle k); apply lookup_insert_eq).
  assert (map_sum f m <= map_sum f' m).
  { apply IH. intros k' v' Hk'. apply (Hle k'). rewrite lookup_insert_ne; [done|]. congruence. }
  unfold map_sum in *.
  rewrite !(map_fold_insert_L (fun _ x acc => _ x + acc)); [lia | intros; lia | done | intros; lia | done].
Qed.

Lemma map_sum_lookup_le m k v :
  (forall k v, m !! k = Some v -> 0 <= f v) -> m !! k = Some v -> f v <= map_sum f m.
Proof.
  intros Hpos Hk. pose proof (map_sum_delete _ _ _ Hk).
  assert (0 <= map_sum f (delete k m)); [|lia].
  apply map_sum_nonneg. intros k' v' [_ ?]%lookup_delete_Some. eauto.
Qed.
End map_sum.

Fixpoint zsum (l : list Z) : Z :=
  match l with [] => 0 | z :: l => z + zsum l end.

Lemma zsum_app l k : zsum (l ++ k) = zsum l + zsum k.
Proof. induction l as [|z l IH]; cbn; [done|]. rewrite IH. lia. Qed.

Lemma zsum_perm l k : l ≡ₚ k -> zsum l = zsum k.
Proof. induction 1; cbn; lia. Qed.

Lemma map_sum_zsum {K V} `{Countable K} (f : V -> Z) (m : gmap K V) :
  map_sum f m = zsum (f <$> (map_to_list m).*2).
Proof.
  unfold map_sum. rewrite map_fold_foldr. induction (map_to_list m) as [|[k v] l IH]; cbn; [done|].
  by rewrite IH.
Qed.

Lemma length_filter_strict {A} (P Q : A -> Prop) `{!forall x, Decision (P x), !forall x, Decision (Q x)} l x :
  (forall y, y ∈ l -> P y -> Q y) -> x ∈ l -> Q x -> ~ P x ->
  (length (filter P l) < length (filter Q l))%nat.
Proof.
  intros Himp Hx Hq Hp.
  assert (forall k, (forall y, y ∈ k -> P y -> Q y) -> (length (filter P k) <= length (filter Q k))%nat) as Hle.
  { induction k as [|y k IH]; intros Hk; [done|]. rewrite !filter_cons.
    assert (forall z, z ∈ k -> P z -> Q z) as Hk' by (intros z Hz; apply Hk; by right).
    specialize (IH Hk'). destruct (decide (P y)) as [Hy|]; [rewrite decide_True by (apply Hk; [by left|done]); cbn; lia|].
    destruct (decide (Q y)); cbn; lia. }
  apply list_elem_of_split in Hx as (l1 & l2 & ->). rewrite !filter_app, !length_app, !filter_cons.
  rewrite decide_False, decide_True by done. cbn.
  pose proof (Hle l1 ltac:(set_solver)). pose proof (Hle l2 ltac:(set_solver)). lia.
Qed.

(** Distinct keys of a map are at most as many as its entries. *)
Lemma keys_length_le {K V} `{Countable K} (m : gmap K V) (l : list K) :
  NoDup l -> (forall k, k ∈ l -> is_Some (m !! k)) -> (length l <= size m)%nat.
Proof.
  intros Hnd Hin. rewrite <- size_dom, <- (size_list_to_set (C := gset K)) by done.
  apply subseteq_size. intros k Hk%elem_of_list_to_set. apply elem_of_dom. eauto.
Qed.

Lemma sorted_filter {A} (R : relation A) (P : A -> Prop) `{forall x, Decision (P x)} l :
  StronglySorted R l -> StronglySorted R (filter P l).
Proof.
  induction 1 as [|x l Hs IH Hall]; [constructor|]. rewrite filter_cons. destruct (decide (P x)); [|done].
  constructor; [done|]. rewrite Forall_forall in *. intros y [_ Hy]%list_elem_of_filter. eauto.
Qed.
