(* ===== verification/Types.v ===== *)
(** * Value types of the protocol (types/src)

    [BlockHash], [Account], [PublicKey], [Link] and [Root] are the 32-byte
    arrays of u256_struct.rs, kept as the big-endian number they hold: the
    [From] conversions between them copy the bytes, so they are the identity
    here, and the derived [Ord] on the arrays is the order on numbers.
    [Amount] is the [u128] of amount.rs, [Signature] a 64-byte array.
    BLAKE2b and ed25519 are crates outside the repository: they are the
    operations of the class [Crypto]. *)

From S2P Require Import Prelude.

(** ** 32-byte values (u256_struct.rs) *)

Abbreviation u256 := Z (only parsing).
Abbreviation BlockHash := Z (only parsing).
Abbreviation Account := Z (only parsing).
Abbreviation PublicKey := Z (only parsing).
Abbreviation Link := Z (only parsing).
Abbreviation Root := Z (only parsing).
Abbreviation Signature := Z (only parsing).
Abbreviation WorkNonce := Z (only parsing).
Abbreviation Amount := Z (only parsing).

Definition u256_ZERO : u256 := 0.
Definition u256_MAX : u256 := 2 ^ 256 - 1.

Definition u256_is_zero (x : u256) : bool := x =? 0.

Lemma u256_is_zero_spec x : reflect (x = 0) (u256_is_zero x).
Proof. apply Z.eqb_spec. Qed.


(** [inc]: the successor, [None] on overflow ([checked_add] of the crate
    [primitive_types]). *)
Definition u256_inc (x : u256) : option u256 :=
  if x + 1 <? 2 ^ 256 then Some (x + 1) else None.

Definition u256_inc_or_max (x : u256) : u256 := default u256_MAX (u256_inc x).

Definition u256_serialize (x : u256) : list byte := to_be_bytes 32 x.
Definition u256_deserialize : decoder u256 := b ← read_exact 32; mret (from_be_bytes b).

Definition signature_serialize (s : Signature) : list byte := to_be_bytes 64 s.
Definition signature_deserialize : decoder Signature := b ← read_exact 64; mret (from_be_bytes b).

(** ** Cryptography: parameters *)

Class Crypto := {
  (** BLAKE2b with the given output length (crate blake2) *)
  blake2b : nat -> list byte -> list byte;
  (** the verifier of a 32-byte key, if the key is a valid curve point, and its
      answer on a message and a signature (crate ed25519-dalek) *)
  ed25519_verifier : PublicKey -> option (list byte -> Signature -> bool);
  (** the public key of a signing key, and the signature of a message *)
  public_key : Z -> PublicKey;
  sign : Z -> list byte -> Signature;
}.

(** [PublicKey::verify]; [true] is [Ok(())], [false] is [Err(SignatureError)]. *)
Definition verify `{Crypto} (key : PublicKey) (message : list byte) (s : Signature) : bool :=
  match ed25519_verifier key with
  | None => false
  | Some public => public message s
  end.

(** What the code relies on: the documented behaviour of the two crates. *)
Class CryptoLaws (C : Crypto) := {
  blake2b_length : forall n m, length (blake2b n m) = n;
  verify_sign : forall k m, verify (public_key k) m (sign k m) = true;
}.

(** [Blake2HashBuilder]: the 32-byte digest of the concatenated updates. *)
Definition blake2_hash `{Crypto} (updates : list (list byte)) : BlockHash :=
  from_be_bytes (blake2b 32 (concat updates)).

(** A small instance of the parameters, on which the examples of the later
    files are evaluated: a polynomial checksum and a key-dependent offset. *)
#[local] Definition checksum (m : list byte) : Z :=
  fold_left (fun h b => wrap 24 (h * 257 + u8_of b + 1)) m 1.

Definition model_crypto : Crypto := {|
  blake2b n m := to_be_bytes n (checksum m);
  ed25519_verifier key := Some (fun m s => s =? wrap 512 (key + checksum m));
  public_key k := k;
  sign k m := wrap 512 (k + checksum m);
|}.

Lemma model_crypto_laws : CryptoLaws model_crypto.
Proof. split; intros; cbn; [apply length_to_be_bytes | apply Z.eqb_refl]. Qed.

(** ** Amounts (amount.rs)

    [+], [-] and [*] on [u128] wrap in a release build and panic in a debug
    build; they are the wrapping operations here, and the theorems that use
    them show that no overflow happens. *)

Definition amount_MAX : Amount := u128_max.
Definition amount_ZERO : Amount := 0.

Definition micronano (value : Z) : Amount := wrap 128 (value * 10 ^ 24).
Definition millinano (value : Z) : Amount := wrap 128 (value * 10 ^ 27).
Definition nano (value : Z) : Amount := wrap 128 (value * 10 ^ 30).

Definition amount_is_zero (a : Amount) : bool := a =? amount_ZERO.

Lemma amount_is_zero_spec a : reflect (a = 0) (amount_is_zero a).
Proof. apply Z.eqb_spec. Qed.


Definition wrapping_add (a b : Amount) : Amount := wrap 128 (a + b).
Definition wrapping_sub (a b : Amount) : Amount := wrap 128 (a - b).

Definition amount_add (a b : Amount) : Amount := wrap 128 (a + b).
Definition amount_sub (a b : Amount) : Amount := wrap 128 (a - b).
Definition amount_div (a : Amount) (n : Z) : Amount := a / n.
Definition amount_mul (a : Amount) (n : Z) : Amount := wrap 128 (a * n).

(** [impl Sum for Amount] *)
Definition amount_sum (l : list Amount) : Amount := fold_left amount_add l amount_ZERO.

Definition amount_serialize (a : Amount) : list byte := to_be_bytes 16 a.
Definition amount_deserialize : decoder Amount := b ← read_exact 16; mret (from_be_bytes b).

(** ** Epochs (epoch.rs) *)

Inductive Epoch := Invalid | Unspecified | Epoch0 | Epoch1 | Epoch2.

#[global] Instance Epoch_eq_dec : EqDecision Epoch.
Proof. solve_decision. Defined.

Definition epoch_default : Epoch := Unspecified.

(** The discriminants of the enum; the derived order compares them. *)
Definition epoch_u8 (e : Epoch) : Z :=
  match e with Invalid => 0 | Unspecified => 1 | Epoch0 => 2 | Epoch1 => 3 | Epoch2 => 4 end.

(** [FromPrimitive::from_u8] *)
Definition epoch_from_u8 (z : Z) : option Epoch :=
  if z =? 0 then Some Invalid
  else if z =? 1 then Some Unspecified
  else if z =? 2 then Some Epoch0
  else if z =? 3 then Some Epoch1
  else if z =? 4 then Some Epoch2
  else None.

Definition epoch_max (a b : Epoch) : Epoch := if epoch_u8 a <=? epoch_u8 b then b else a.

Definition epoch_number (e : Epoch) : Z :=
  match e with Epoch1 => 1 | Epoch2 => 2 | _ => 0 end.

Record EpochInfo := mkEpochInfo { ei_signer : PublicKey; ei_link : Link }.

(** The [HashMap<Epoch, EpochInfo>] as the list of its entries in iteration
    order, with at most one entry per epoch. *)
Abbreviation Epochs := (list (Epoch * EpochInfo)) (only parsing).

Definition epochs_add (es : Epochs) (e : Epoch) (signer : PublicKey) (link : Link) : Epochs :=
  (e, mkEpochInfo signer link) :: filter (fun p => p.1 ≠ e) es.

Definition is_epoch_link (es : Epochs) (link : Link) : bool :=
  existsb (fun p => ei_link p.2 =? link) es.

Definition epochs_get (es : Epochs) (e : Epoch) : option EpochInfo :=
  snd <$> find (fun p => bool_decide (p.1 = e)) es.

Definition epochs_link (es : Epochs) (e : Epoch) : option Link := ei_link <$> epochs_get es e.
Definition epochs_signer (es : Epochs) (e : Epoch) : option PublicKey := ei_signer <$> epochs_get es e.

Definition epochs_epoch (es : Epochs) (link : Link) : option Epoch :=
  fst <$> find (fun p => ei_link p.2 =? link) es.

Definition is_sequential (epoch new_epoch : Epoch) : bool :=
  (epoch_u8 Epoch0 <=? epoch_u8 epoch) && (epoch_u8 new_epoch =? epoch_u8 epoch + 1).

Definition epoch_signer (es : Epochs) (link : Link) : option Account :=
  e ← epochs_epoch es link; epochs_signer es e.

(** ** Account info (account_info.rs) *)

Record AccountInfo := mkAccountInfo {
  ai_head : BlockHash;
  ai_representative : PublicKey;
  ai_open_block : BlockHash;
  ai_balance : Amount;
  ai_modified : Z;
  ai_block_count : Z;
  ai_epoch : Epoch;
}.

#[global] Instance AccountInfo_eq_dec : EqDecision AccountInfo.
Proof. solve_decision. Defined.

(** [#[derive(Default)]] *)
Definition account_info_default : AccountInfo := mkAccountInfo 0 0 0 0 0 0 epoch_default.

Definition account_info_serialize (i : AccountInfo) : list byte :=
  u256_serialize (ai_head i) ++ u256_serialize (ai_representative i) ++
  u256_serialize (ai_open_block i) ++ amount_serialize (ai_balance i) ++
  to_le_bytes 8 (ai_modified i) ++ to_le_bytes 8 (ai_block_count i) ++
  [byte_of (epoch_u8 (ai_epoch i))].

(** [to_ne_bytes]/[read_u64_ne] on the little-endian targets the node is
    built for. *)
Definition account_info_deserialize : decoder AccountInfo :=
  head ← u256_deserialize;
  representative ← u256_deserialize;
  open_block ← u256_deserialize;
  balance ← amount_deserialize;
  modified ← read_u64_le;
  block_count ← read_u64_le;
  e ← read_u8;
  epoch ← dec_opt (epoch_from_u8 e) InvalidData;
  mret (mkAccountInfo head representative open_block balance modified block_count epoch).

Definition account_info_SERIALIZED_SIZE : nat := 32 + 32 + 32 + 16 + 8 + 8 + 1.

(** ** Pending entries (pending_info.rs, pending_key.rs) *)

Record PendingInfo := mkPendingInfo {
  pi_source : Account;
  pi_amount : Amount;
  pi_epoch : Epoch;
}.

#[global] Instance PendingInfo_eq_dec : EqDecision PendingInfo.
Proof. solve_decision. Defined.

Definition pending_info_serialize (i : PendingInfo) : list byte :=
  u256_serialize (pi_source i) ++ amount_serialize (pi_amount i) ++ [byte_of (epoch_u8 (pi_epoch i))].

Definition pending_info_deserialize : decoder PendingInfo :=
  source ← u256_deserialize;
  amount ← amount_deserialize;
  e ← read_u8;
  epoch ← dec_opt (epoch_from_u8 e) InvalidData;
  mret (mkPendingInfo source amount epoch).

Record PendingKey := mkPendingKey {
  pk_receiving_account : Account;
  pk_send_block_hash : BlockHash;
}.

#[global] Instance PendingKey_eq_dec : EqDecision PendingKey.
Proof. solve_decision. Defined.
#[global] Program Instance PendingKey_countable : Countable PendingKey :=
  inj_countable' (fun k => (pk_receiving_account k, pk_send_block_hash k))
                 (fun p => mkPendingKey p.1 p.2) _.
Next Obligation. by intros []. Qed.

Definition pending_key_serialize (k : PendingKey) : list byte :=
  u256_serialize (pk_receiving_account k) ++ u256_serialize (pk_send_block_hash k).

Definition pending_key_deserialize : decoder PendingKey :=
  receiving_account ← u256_deserialize;
  send_block_hash ← u256_deserialize;
  mret (mkPendingKey receiving_account send_block_hash).

(** The derived [Ord]: receiving account first, then the send hash. *)
Definition pending_key_ltb (a b : PendingKey) : bool :=
  (pk_receiving_account a <? pk_receiving_account b) ||
  ((pk_receiving_account a =? pk_receiving_account b) &&
   (pk_send_block_hash a <? pk_send_block_hash b)).

(** ** Confirmation height (confirmation_height_info.rs) *)

Record ConfirmationHeightInfo := mkConfirmationHeightInfo {
  ch_height : Z;
  ch_frontier : BlockHash;
}.

#[global] Instance ConfirmationHeightInfo_eq_dec : EqDecision ConfirmationHeightInfo.
Proof. solve_decision. Defined.

Definition conf_height_default : ConfirmationHeightInfo := mkConfirmationHeightInfo 0 0.

Definition conf_height_serialize (i : ConfirmationHeightInfo) : list byte :=
  to_le_bytes 8 (ch_height i) ++ u256_serialize (ch_frontier i).

Definition conf_height_deserialize : decoder ConfirmationHeightInfo :=
  height ← read_u64_le;
  frontier ← u256_deserialize;
  mret (mkConfirmationHeightInfo height frontier).

(** ** Priorities (priority.rs) *)

Abbreviation TimePriority := Z (only parsing).

(** Lower timestamps have a higher priority. *)
Definition time_priority_cmp (a b : TimePriority) : comparison := Z.compare b a.

Record BlockPriority := mkBlockPriority { bp_balance : Amount; bp_time : TimePriority }.

#[global] Instance BlockPriority_eq_dec : EqDecision BlockPriority.
Proof. solve_decision. Defined.

(** ** Qualified roots (qualified_root.rs) *)

Record QualifiedRoot := mkQualifiedRoot { qr_root : Root; qr_previous : BlockHash }.

#[global] Instance QualifiedRoot_eq_dec : EqDecision QualifiedRoot.
Proof. solve_decision. Defined.
#[global] Program Instance QualifiedRoot_countable : Countable QualifiedRoot :=
  inj_countable' (fun r => (qr_root r, qr_previous r)) (fun p => mkQualifiedRoot p.1 p.2) _.
Next Obligation. by intros []. Qed.

Definition qualified_root_serialize (r : QualifiedRoot) : list byte :=
  u256_serialize (qr_root r) ++ u256_serialize (qr_previous r).

Definition qualified_root_deserialize : decoder QualifiedRoot :=
  root ← u256_deserialize;
  previous ← u256_deserialize;
  mret (mkQualifiedRoot root previous).

(** ** Well-formed values: the ranges the Rust types enforce *)

Definition wf_u256 (x : u256) : Prop := in_u 256 x.
Definition wf_amount (a : Amount) : Prop := in_u 128 a.
Definition wf_u64 (x : Z) : Prop := in_u 64 x.
Definition wf_signature (s : Signature) : Prop := in_u 512 s.

Definition wf_account_info (i : AccountInfo) : Prop :=
  wf_u256 (ai_head i) /\ wf_u256 (ai_representative i) /\ wf_u256 (ai_open_block i) /\
  wf_amount (ai_balance i) /\ wf_u64 (ai_modified i) /\ wf_u64 (ai_block_count i).

Definition wf_pending_info (i : PendingInfo) : Prop :=
  wf_u256 (pi_source i) /\ wf_amount (pi_amount i).

Definition wf_pending_key (k : PendingKey) : Prop :=
  wf_u256 (pk_receiving_account k) /\ wf_u256 (pk_send_block_hash k).

Definition wf_conf_height (i : ConfirmationHeightInfo) : Prop :=
  wf_u64 (ch_height i) /\ wf_u256 (ch_frontier i).

Definition wf_qualified_root (r : QualifiedRoot) : Prop :=
  wf_u256 (qr_root r) /\ wf_u256 (qr_previous r).

(** ** Lemmas *)

Lemma decodes_u256 x : wf_u256 x -> decodes u256_deserialize (u256_serialize x) x.
Proof.
  intros. eapply decodes_last; [apply decodes_read_exact, length_to_be_bytes | by apply from_to_be_bytes].
Qed.

Lemma decodes_signature x : wf_signature x -> decodes signature_deserialize (signature_serialize x) x.
Proof.
  intros. eapply decodes_last; [apply decodes_read_exact, length_to_be_bytes | by apply from_to_be_bytes].
Qed.

Lemma decodes_amount x : wf_amount x -> decodes amount_deserialize (amount_serialize x) x.
Proof.
  intros. eapply decodes_last; [apply decodes_read_exact, length_to_be_bytes | by apply from_to_be_bytes].
Qed.

#[export] Hint Resolve decodes_u256 decodes_signature decodes_amount : codec.

Lemma epoch_from_to_u8 e : epoch_from_u8 (epoch_u8 e) = Some e.
Proof. by destruct e. Qed.

Lemma epoch_u8_in_u8 e : in_u 8 (epoch_u8 e).
Proof. by destruct e. Qed.

Lemma decodes_epoch e :
  decodes (b ← read_u8; dec_opt (epoch_from_u8 b) InvalidData) [byte_of (epoch_u8 e)] e.
Proof.
  change [byte_of (epoch_u8 e)] with ([byte_of (epoch_u8 e)] ++ []).
  eapply decodes_bind; [apply decodes_read_u8, epoch_u8_in_u8 | apply decodes_opt, epoch_from_to_u8].
Qed.

Lemma length_u256_serialize x : length (u256_serialize x) = 32%nat.
Proof. apply length_to_be_bytes. Qed.
Lemma length_signature_serialize x : length (signature_serialize x) = 64%nat.
Proof. apply length_to_be_bytes. Qed.
Lemma length_amount_serialize x : length (amount_serialize x) = 16%nat.
Proof. apply length_to_be_bytes. Qed.

(** The length of a serialized structure is the sum of its fields' lengths. *)
Ltac solve_length :=
  repeat rewrite length_app;
  repeat (rewrite ?length_u256_serialize, ?length_signature_serialize, ?length_amount_serialize,
          ?length_to_le_bytes, ?length_to_be_bytes);
  reflexivity.

#[export] Hint Unfold wf_u64 : codec.
#[export] Hint Resolve epoch_u8_in_u8 epoch_from_to_u8 decodes_opt : codec.

