(* ===== verification/Blocks.v ===== *)
(** * Blocks (types/src/blocks)

    The five block formats, the enum [Block] over them, the sideband a block
    gets when it is saved, and the queries the ledger makes on them. The
    [hash] field of each format is the cached hash of the source; the
    constructors and readers compute it from the hashables. *)

From S2P Require Import Prelude Types.

(** ** Block types (mod.rs) *)

Inductive BlockType := BtLegacySend | BtLegacyReceive | BtLegacyOpen | BtLegacyChange | BtState.

#[global] Instance BlockType_eq_dec : EqDecision BlockType.
Proof. solve_decision. Defined.

Inductive BlockTypeId :=
  | IdInvalid | IdNotABlock | IdLegacySend | IdLegacyReceive | IdLegacyOpen | IdLegacyChange | IdState.

Definition block_type_id_u8 (t : BlockTypeId) : Z :=
  match t with
  | IdInvalid => 0 | IdNotABlock => 1 | IdLegacySend => 2 | IdLegacyReceive => 3
  | IdLegacyOpen => 4 | IdLegacyChange => 5 | IdState => 6
  end.

Definition block_type_id_from_u8 (z : Z) : option BlockTypeId :=
  if z =? 0 then Some IdInvalid
  else if z =? 1 then Some IdNotABlock
  else if z =? 2 then Some IdLegacySend
  else if z =? 3 then Some IdLegacyReceive
  else if z =? 4 then Some IdLegacyOpen
  else if z =? 5 then Some IdLegacyChange
  else if z =? 6 then Some IdState
  else None.

Definition block_type_to_id (t : BlockType) : BlockTypeId :=
  match t with
  | BtLegacySend => IdLegacySend
  | BtLegacyReceive => IdLegacyReceive
  | BtLegacyOpen => IdLegacyOpen
  | BtLegacyChange => IdLegacyChange
  | BtState => IdState
  end.

Definition block_type_try_from (t : BlockTypeId) : option BlockType :=
  match t with
  | IdLegacySend => Some BtLegacySend
  | IdLegacyReceive => Some BtLegacyReceive
  | IdLegacyOpen => Some BtLegacyOpen
  | IdLegacyChange => Some BtLegacyChange
  | IdState => Some BtState
  | IdInvalid | IdNotABlock => None
  end.

Inductive BlockSubType := StSend | StReceive | StOpen | StChange | StEpoch.

#[global] Instance BlockSubType_eq_dec : EqDecision BlockSubType.
Proof. solve_decision. Defined.

(** ** The block formats *)

(** send_block.rs *)
Record SendHashables := mkSendHashables {
  sendh_previous : BlockHash;
  sendh_destination : Account;
  sendh_balance : Amount;
}.

Record SendBlock := mkSendBlock {
  send_hashables : SendHashables;
  send_signature : Signature;
  send_work : WorkNonce;
  send_hash : BlockHash;
}.

(** receive_block.rs *)
Record ReceiveHashables := mkReceiveHashables {
  recvh_previous : BlockHash;
  recvh_source : BlockHash;
}.

Record ReceiveBlock := mkReceiveBlock {
  recv_work : WorkNonce;
  recv_signature : Signature;
  recv_hashables : ReceiveHashables;
  recv_hash : BlockHash;
}.

(** open_block.rs *)
Record OpenHashables := mkOpenHashables {
  openh_source : BlockHash;
  openh_representative : PublicKey;
  openh_account : Account;
}.

Record OpenBlock := mkOpenBlock {
  open_work : WorkNonce;
  open_signature : Signature;
  open_hashables : OpenHashables;
  open_hash : BlockHash;
}.

(** change_block.rs *)
Record ChangeHashables := mkChangeHashables {
  changeh_previous : BlockHash;
  changeh_representative : PublicKey;
}.

Record ChangeBlock := mkChangeBlock {
  change_work : WorkNonce;
  change_signature : Signature;
  change_hashables : ChangeHashables;
  change_hash : BlockHash;
}.

(** state_block.rs *)
Record StateHashables := mkStateHashables {
  stateh_account : Account;
  stateh_previous : BlockHash;
  stateh_representative : PublicKey;
  stateh_balance : Amount;
  stateh_link : Link;
}.

Record StateBlock := mkStateBlock {
  state_hashables : StateHashables;
  state_signature : Signature;
  state_hash : BlockHash;
  state_work : WorkNonce;
}.

Inductive Block :=
  | LegacySend (b : SendBlock)
  | LegacyReceive (b : ReceiveBlock)
  | LegacyOpen (b : OpenBlock)
  | LegacyChange (b : ChangeBlock)
  | State (b : StateBlock).

#[global] Instance SendHashables_eq_dec : EqDecision SendHashables.
Proof. solve_decision. Defined.
#[global] Instance ReceiveHashables_eq_dec : EqDecision ReceiveHashables.
Proof. solve_decision. Defined.
#[global] Instance OpenHashables_eq_dec : EqDecision OpenHashables.
Proof. solve_decision. Defined.
#[global] Instance ChangeHashables_eq_dec : EqDecision ChangeHashables.
Proof. solve_decision. Defined.
#[global] Instance StateHashables_eq_dec : EqDecision StateHashables.
Proof. solve_decision. Defined.
#[global] Instance SendBlock_eq_dec : EqDecision SendBlock.
Proof. solve_decision. Defined.
#[global] Instance ReceiveBlock_eq_dec : EqDecision ReceiveBlock.
Proof. solve_decision. Defined.
#[global] Instance OpenBlock_eq_dec : EqDecision OpenBlock.
Proof. solve_decision. Defined.
#[global] Instance ChangeBlock_eq_dec : EqDecision ChangeBlock.
Proof. solve_decision. Defined.
#[global] Instance StateBlock_eq_dec : EqDecision StateBlock.
Proof. solve_decision. Defined.
#[global] Instance Block_eq_dec : EqDecision Block.
Proof. solve_decision. Defined.

(** *** Hashes of the hashables *)
Section hashes.
Context `{Crypto}.

Definition send_hashables_hash (h : SendHashables) : BlockHash :=
  blake2_hash [u256_serialize (sendh_previous h); u256_serialize (sendh_destination h);
               to_be_bytes 16 (sendh_balance h)].

Definition receive_hashables_hash (h : ReceiveHashables) : BlockHash :=
  blake2_hash [u256_serialize (recvh_previous h); u256_serialize (recvh_source h)].

Definition open_hashables_hash (h : OpenHashables) : BlockHash :=
  blake2_hash [u256_serialize (openh_source h); u256_serialize (openh_representative h);
               u256_serialize (openh_account h)].

Definition change_hashables_hash (h : ChangeHashables) : BlockHash :=
  blake2_hash [u256_serialize (changeh_previous h); u256_serialize (changeh_representative h)].

(** The preamble is 32 bytes with the block type in the last one. *)
Definition state_hashables_hash (h : StateHashables) : BlockHash :=
  blake2_hash [to_be_bytes 32 (block_type_id_u8 IdState); u256_serialize (stateh_account h);
               u256_serialize (stateh_previous h); u256_serialize (stateh_representative h);
               to_be_bytes 16 (stateh_balance h); u256_serialize (stateh_link h)].
End hashes.

(** *** Predecessor rules *)

Definition valid_send_block_predecessor (t : BlockType) : bool :=
  match t with
  | BtLegacySend | BtLegacyReceive | BtLegacyOpen | BtLegacyChange => true
  | BtState => false
  end.

Definition valid_receive_block_predecessor (t : BlockType) : bool :=
  match t with
  | BtLegacySend | BtLegacyReceive | BtLegacyOpen | BtLegacyChange => true
  | _ => false
  end.

Definition valid_change_block_predecessor (t : BlockType) : bool :=
  match t with
  | BtLegacySend | BtLegacyReceive | BtLegacyOpen | BtLegacyChange => true
  | _ => false
  end.

(** *** The trait [BlockBase] and its five implementations *)

Record BlockBase := mkBlockBase {
  bb_block_type : BlockType;
  bb_account_field : option Account;
  bb_hash : BlockHash;
  bb_link_field : option Link;
  bb_signature : Signature;
  bb_set_signature : Signature -> Block;
  bb_set_work : WorkNonce -> Block;
  bb_work : WorkNonce;
  bb_previous : BlockHash;
  bb_root : Root;
  bb_balance_field : option Amount;
  bb_source_field : option BlockHash;
  bb_representative_field : option PublicKey;
  bb_valid_predecessor : BlockType -> bool;
  bb_destination_field : option Account;
}.

Definition send_block_base (b : SendBlock) : BlockBase := {|
  bb_block_type := BtLegacySend;
  bb_account_field := None;
  bb_hash := send_hash b;
  bb_link_field := None;
  bb_signature := send_signature b;
  bb_set_signature := fun signature =>
    LegacySend (mkSendBlock (send_hashables b) signature (send_work b) (send_hash b));
  bb_set_work := fun work =>
    LegacySend (mkSendBlock (send_hashables b) (send_signature b) work (send_hash b));
  bb_work := send_work b;
  bb_previous := sendh_previous (send_hashables b);
  bb_root := sendh_previous (send_hashables b);
  bb_balance_field := Some (sendh_balance (send_hashables b));
  bb_source_field := None;
  bb_representative_field := None;
  bb_valid_predecessor := valid_send_block_predecessor;
  bb_destination_field := Some (sendh_destination (send_hashables b));
|}.

Definition receive_block_base (b : ReceiveBlock) : BlockBase := {|
  bb_block_type := BtLegacyReceive;
  bb_account_field := None;
  bb_hash := recv_hash b;
  bb_link_field := None;
  bb_signature := recv_signature b;
  bb_set_signature := fun signature =>
    LegacyReceive (mkReceiveBlock (recv_work b) signature (recv_hashables b) (recv_hash b));
  bb_set_work := fun work =>
    LegacyReceive (mkReceiveBlock work (recv_signature b) (recv_hashables b) (recv_hash b));
  bb_work := recv_work b;
  bb_previous := recvh_previous (recv_hashables b);
  bb_root := recvh_previous (recv_hashables b);
  bb_balance_field := None;
  bb_source_field := Some (recvh_source (recv_hashables b));
  bb_representative_field := None;
  bb_valid_predecessor := valid_receive_block_predecessor;
  bb_destination_field := None;
|}.

Definition open_block_base (b : OpenBlock) : BlockBase := {|
  bb_block_type := BtLegacyOpen;
  bb_account_field := Some (openh_account (open_hashables b));
  bb_hash := open_hash b;
  bb_link_field := None;
  bb_signature := open_signature b;
  bb_set_signature := fun signature =>
    LegacyOpen (mkOpenBlock (open_work b) signature (open_hashables b) (open_hash b));
  bb_set_work := fun work =>
    LegacyOpen (mkOpenBlock work (open_signature b) (open_hashables b) (open_hash b));
  bb_work := open_work b;
  bb_previous := u256_ZERO;
  bb_root := openh_account (open_hashables b);
  bb_balance_field := None;
  bb_source_field := Some (openh_source (open_hashables b));
  bb_representative_field := Some (openh_representative (open_hashables b));
  bb_valid_predecessor := fun _ => false;
  bb_destination_field := None;
|}.

Definition change_block_base (b : ChangeBlock) : BlockBase := {|
  bb_block_type := BtLegacyChange;
  bb_account_field := None;
  bb_hash := change_hash b;
  bb_link_field := None;
  bb_signature := change_signature b;
  bb_set_signature := fun signature =>
    LegacyChange (mkChangeBlock (change_work b) signature (change_hashables b) (change_hash b));
  bb_set_work := fun work =>
    LegacyChange (mkChangeBlock work (change_signature b) (change_hashables b) (change_hash b));
  bb_work := change_work b;
  bb_previous := changeh_previous (change_hashables b);
  bb_root := changeh_previous (change_hashables b);
  bb_balance_field := None;
  bb_source_field := None;
  bb_representative_field := Some (changeh_representative (change_hashables b));
  bb_valid_predecessor := valid_change_block_predecessor;
  bb_destination_field := None;
|}.

Definition state_block_base (b : StateBlock) : BlockBase := {|
  bb_block_type := BtState;
  bb_account_field := Some (stateh_account (state_hashables b));
  bb_hash := state_hash b;
  bb_link_field := Some (stateh_link (state_hashables b));
  bb_signature := state_signature b;
  bb_set_signature := fun signature =>
    State (mkStateBlock (state_hashables b) signature (state_hash b) (state_work b));
  bb_set_work := fun work =>
    State (mkStateBlock (state_hashables b) (state_signature b) (state_hash b) work);
  bb_work := state_work b;
  bb_previous := stateh_previous (state_hashables b);
  bb_root := if negb (u256_is_zero (stateh_previous (state_hashables b)))
             then stateh_previous (state_hashables b) else stateh_account (state_hashables b);
  bb_balance_field := Some (stateh_balance (state_hashables b));
  bb_source_field := None;
  bb_representative_field := Some (stateh_representative (state_hashables b));
  bb_valid_predecessor := fun _ => true;
  bb_destination_field := None;
|}.

(** [Block::as_block]: dynamic dispatch *)
Definition as_block (b : Block) : BlockBase :=
  match b with
  | LegacySend b => send_block_base b
  | LegacyReceive b => receive_block_base b
  | LegacyOpen b => open_block_base b
  | LegacyChange b => change_block_base b
  | State b => state_block_base b
  end.

Definition block_type (b : Block) : BlockType := bb_block_type (as_block b).
Definition account_field (b : Block) : option Account := bb_account_field (as_block b).
Definition block_hash (b : Block) : BlockHash := bb_hash (as_block b).
Definition link_field (b : Block) : option Link := bb_link_field (as_block b).
Definition block_signature (b : Block) : Signature := bb_signature (as_block b).
Definition block_work (b : Block) : WorkNonce := bb_work (as_block b).
Definition previous (b : Block) : BlockHash := bb_previous (as_block b).
Definition root (b : Block) : Root := bb_root (as_block b).
Definition balance_field (b : Block) : option Amount := bb_balance_field (as_block b).
Definition source_field (b : Block) : option BlockHash := bb_source_field (as_block b).
Definition representative_field (b : Block) : option PublicKey := bb_representative_field (as_block b).
Definition destination_field (b : Block) : option Account := bb_destination_field (as_block b).
Definition valid_predecessor (b : Block) (t : BlockType) : bool := bb_valid_predecessor (as_block b) t.

Definition qualified_root (b : Block) : QualifiedRoot := mkQualifiedRoot (root b) (previous b).

(** *** [impl Block] *)

Definition is_open (b : Block) : bool :=
  match b with
  | LegacyOpen _ => true
  | State s => u256_is_zero (stateh_previous (state_hashables s))
  | _ => false
  end.

Definition is_legacy (b : Block) : bool := match b with State _ => false | _ => true end.

Definition is_change (b : Block) : bool :=
  match b with
  | LegacyChange _ => true
  | State s => u256_is_zero (stateh_link (state_hashables s))
  | _ => false
  end.

Definition source_or_link (b : Block) : BlockHash :=
  match source_field b with
  | Some s => s
  | None => default u256_ZERO (link_field b)
  end.

Definition destination_or_link (b : Block) : Account :=
  match destination_field b with
  | Some d => d
  | None => default u256_ZERO (link_field b)
  end.

(** [PendingKey::for_send_block], [PendingKey::for_receive_block]; the second
    unwraps the account field. *)
Definition pending_key_for_send_block (b : Block) : PendingKey :=
  mkPendingKey (default u256_ZERO (link_field b)) (block_hash b).

Definition pending_key_for_receive_block (b : Block) : option PendingKey :=
  a ← account_field b; Some (mkPendingKey a (default u256_ZERO (link_field b))).

(** [StateBlock::verify_signature] *)
Definition state_verify_signature `{Crypto} (s : StateBlock) : bool :=
  verify (stateh_account (state_hashables s)) (u256_serialize (state_hash s)) (state_signature s).

(** [Epochs::validate_epoch_signature] *)
Definition validate_epoch_signature `{Crypto} (es : Epochs) (b : Block) : bool :=
  match epoch_signer es (default u256_ZERO (link_field b)) with
  | None => false
  | Some signer => verify signer (u256_serialize (block_hash b)) (block_signature b)
  end.

(** ** Block details (block_details.rs) *)

Record BlockDetails := mkBlockDetails {
  bd_epoch : Epoch;
  bd_is_send : bool;
  bd_is_receive : bool;
  bd_is_epoch : bool;
}.

#[global] Instance BlockDetails_eq_dec : EqDecision BlockDetails.
Proof. solve_decision. Defined.

Definition packed (d : BlockDetails) : Z :=
  let result := epoch_u8 (bd_epoch d) in
  let result := if bd_is_send d then Z.lor result 128 else result in
  let result := if bd_is_receive d then Z.lor result 64 else result in
  if bd_is_epoch d then Z.lor result 32 else result.

Definition unpack (value : Z) : option BlockDetails :=
  let epoch_mask := 31 in
  let epoch_value := Z.land value epoch_mask in
  epoch ← epoch_from_u8 epoch_value;
  Some (mkBlockDetails epoch (negb (Z.land 128 value =? 0)) (negb (Z.land 64 value =? 0))
          (negb (Z.land 32 value =? 0))).

Definition block_details_deserialize : decoder BlockDetails :=
  b ← read_u8; dec_opt (unpack b) InvalidData.

Definition details_subtype (d : BlockDetails) : BlockSubType :=
  if bd_is_send d then StSend
  else if bd_is_receive d then StReceive
  else if bd_is_epoch d then StEpoch
  else StChange.

(** ** Sideband (block_sideband.rs) *)

Record BlockSideband := mkBlockSideband {
  sd_height : Z;
  sd_timestamp : Z;
  sd_account : Account;
  sd_balance : Amount;
  sd_details : BlockDetails;
  sd_source_epoch : Epoch;
}.

#[global] Instance BlockSideband_eq_dec : EqDecision BlockSideband.
Proof. solve_decision. Defined.

(** ** Saved blocks (mod.rs) *)

Record SavedBlock := mkSavedBlock { sv_block : Block; sv_sideband : BlockSideband }.

#[global] Instance SavedBlock_eq_dec : EqDecision SavedBlock.
Proof. solve_decision. Defined.

(** [SavedBlock] derefs to its [Block]. *)
Coercion sv_block : SavedBlock >-> Block.

Definition sv_account (b : SavedBlock) : Account :=
  match account_field b with
  | Some a => a
  | None => sd_account (sv_sideband b)
  end.

Definition sv_height (b : SavedBlock) : Z := sd_height (sv_sideband b).
Definition sv_timestamp (b : SavedBlock) : Z := sd_timestamp (sv_sideband b).
Definition sv_subtype (b : SavedBlock) : BlockSubType := details_subtype (sd_details (sv_sideband b)).
Definition sv_epoch (b : SavedBlock) : Epoch := bd_epoch (sd_details (sv_sideband b)).
Definition sv_is_epoch (b : SavedBlock) : bool := bd_is_epoch (sd_details (sv_sideband b)).
Definition sv_is_receive (b : SavedBlock) : bool := bd_is_receive (sd_details (sv_sideband b)).

Definition sv_is_send (b : SavedBlock) : bool :=
  match sv_block b with
  | LegacySend _ => true
  | State _ => bd_is_send (sd_details (sv_sideband b))
  | _ => false
  end.

Definition sv_source (b : SavedBlock) : option BlockHash :=
  match sv_block b with
  | LegacyOpen i => Some (openh_source (open_hashables i))
  | LegacyReceive i => Some (recvh_source (recv_hashables i))
  | State i => if bd_is_receive (sd_details (sv_sideband b))
               then Some (stateh_link (state_hashables i)) else None
  | _ => None
  end.

Definition sv_source_epoch (b : SavedBlock) : Epoch := sd_source_epoch (sv_sideband b).

Definition sv_destination (b : SavedBlock) : option Account :=
  match sv_block b with
  | LegacySend i => Some (sendh_destination (send_hashables i))
  | State i => if bd_is_send (sd_details (sv_sideband b))
               then Some (stateh_link (state_hashables i)) else None
  | _ => None
  end.

Definition sv_balance (b : SavedBlock) : Amount :=
  match sv_block b with
  | LegacySend i => sendh_balance (send_hashables i)
  | State i => stateh_balance (state_hashables i)
  | _ => sd_balance (sv_sideband b)
  end.

(** *** Dependencies *)

Record DependentBlocks := mkDependentBlocks { dep_previous : BlockHash; dep_link : BlockHash }.

Definition dependents_none : DependentBlocks := mkDependentBlocks u256_ZERO u256_ZERO.

(** [DependentBlocks::iter] skips zero entries. *)
Definition dependents_iter (d : DependentBlocks) : list BlockHash :=
  filter (fun h => u256_is_zero h = false) [dep_previous d; dep_link d].

Definition send_dependent_blocks (b : SendBlock) : DependentBlocks :=
  mkDependentBlocks (sendh_previous (send_hashables b)) u256_ZERO.
Definition receive_dependent_blocks (b : ReceiveBlock) : DependentBlocks :=
  mkDependentBlocks (recvh_previous (recv_hashables b)) (recvh_source (recv_hashables b)).
Definition change_dependent_blocks (b : ChangeBlock) : DependentBlocks :=
  mkDependentBlocks (changeh_previous (change_hashables b)) u256_ZERO.
Definition open_dependent_blocks (b : OpenBlock) (genesis_account : Account) : DependentBlocks :=
  if openh_account (open_hashables b) =? genesis_account then dependents_none
  else mkDependentBlocks (openh_source (open_hashables b)) u256_ZERO.

Definition sv_dependent_blocks (b : SavedBlock) (es : Epochs) (genesis_account : Account)
    : DependentBlocks :=
  match sv_block b with
  | LegacySend s => send_dependent_blocks s
  | LegacyChange c => change_dependent_blocks c
  | LegacyReceive r => receive_dependent_blocks r
  | LegacyOpen o => open_dependent_blocks o genesis_account
  | State s =>
      let link := stateh_link (state_hashables s) in
      let link_refers_to_block := negb (sv_is_send b) && negb (is_epoch_link es link) in
      let linked_block := if link_refers_to_block then link else u256_ZERO in
      mkDependentBlocks (previous b) linked_block
  end.

(** Only legacy sends and state blocks name their balance. *)
Lemma balance_field_cases b x :
  balance_field b = Some x ->
  (exists sb, b = LegacySend sb /\ sendh_balance (send_hashables sb) = x) \/
  (exists sb, b = State sb /\ stateh_balance (state_hashables sb) = x).
Proof. destruct b; intros [= <-]; eauto. Qed.
