(* ===== verification/Codec.v ===== *)
(** * Binary formats of blocks and ledger records (types/src/blocks, types/src)

    Writers produce byte lists, readers are [decoder]s. The theorems are round
    trips: on any slice that starts with a serialized value the reader
    consumes exactly those bytes and returns the value. *)

From S2P Require Import Prelude Types Blocks.

(** ** Writers and readers of the block formats *)

Definition send_serialize (b : SendBlock) : list byte :=
  u256_serialize (sendh_previous (send_hashables b)) ++
  u256_serialize (sendh_destination (send_hashables b)) ++
  amount_serialize (sendh_balance (send_hashables b)) ++
  signature_serialize (send_signature b) ++ to_le_bytes 8 (send_work b).

Definition receive_serialize (b : ReceiveBlock) : list byte :=
  u256_serialize (recvh_previous (recv_hashables b)) ++
  u256_serialize (recvh_source (recv_hashables b)) ++
  signature_serialize (recv_signature b) ++ to_le_bytes 8 (recv_work b).

Definition open_serialize (b : OpenBlock) : list byte :=
  u256_serialize (openh_source (open_hashables b)) ++
  u256_serialize (openh_representative (open_hashables b)) ++
  u256_serialize (openh_account (open_hashables b)) ++
  signature_serialize (open_signature b) ++ to_le_bytes 8 (open_work b).

Definition change_serialize (b : ChangeBlock) : list byte :=
  u256_serialize (changeh_previous (change_hashables b)) ++
  u256_serialize (changeh_representative (change_hashables b)) ++
  signature_serialize (change_signature b) ++ to_le_bytes 8 (change_work b).

Definition state_serialize (b : StateBlock) : list byte :=
  u256_serialize (stateh_account (state_hashables b)) ++
  u256_serialize (stateh_previous (state_hashables b)) ++
  u256_serialize (stateh_representative (state_hashables b)) ++
  amount_serialize (stateh_balance (state_hashables b)) ++
  u256_serialize (stateh_link (state_hashables b)) ++
  signature_serialize (state_signature b) ++ to_be_bytes 8 (state_work b).

Definition serialize_without_block_type (b : Block) : list byte :=
  match b with
  | LegacySend b => send_serialize b
  | LegacyReceive b => receive_serialize b
  | LegacyOpen b => open_serialize b
  | LegacyChange b => change_serialize b
  | State b => state_serialize b
  end.

Definition block_serialize (b : Block) : list byte :=
  byte_of (block_type_id_u8 (block_type_to_id (block_type b))) :: serialize_without_block_type b.

Section readers.
Context `{Crypto}.

Definition send_deserialize : decoder SendBlock :=
  previous ← u256_deserialize;
  destination ← u256_deserialize;
  balance ← amount_deserialize;
  signature ← signature_deserialize;
  work ← read_u64_le;
  let hashables := mkSendHashables previous destination balance in
  mret (mkSendBlock hashables signature work (send_hashables_hash hashables)).

Definition receive_deserialize : decoder ReceiveBlock :=
  previous ← u256_deserialize;
  source ← u256_deserialize;
  signature ← signature_deserialize;
  work ← read_u64_le;
  let hashables := mkReceiveHashables previous source in
  mret (mkReceiveBlock work signature hashables (receive_hashables_hash hashables)).

Definition open_deserialize : decoder OpenBlock :=
  source ← u256_deserialize;
  representative ← u256_deserialize;
  account ← u256_deserialize;
  signature ← signature_deserialize;
  work ← read_u64_le;
  let hashables := mkOpenHashables source representative account in
  mret (mkOpenBlock work signature hashables (open_hashables_hash hashables)).

Definition change_deserialize : decoder ChangeBlock :=
  previous ← u256_deserialize;
  representative ← u256_deserialize;
  signature ← signature_deserialize;
  work ← read_u64_le;
  let hashables := mkChangeHashables previous representative in
  mret (mkChangeBlock work signature hashables (change_hashables_hash hashables)).

Definition state_deserialize : decoder StateBlock :=
  account ← u256_deserialize;
  previous ← u256_deserialize;
  representative ← u256_deserialize;
  balance ← amount_deserialize;
  link ← u256_deserialize;
  signature ← signature_deserialize;
  work ← read_u64_be;
  let hashables := mkStateHashables account previous representative balance link in
  mret (mkStateBlock hashables signature (state_hashables_hash hashables) work).

Definition deserialize_block_type (t : BlockType) : decoder Block :=
  match t with
  | BtLegacyReceive => b ← receive_deserialize; mret (LegacyReceive b)
  | BtLegacyOpen => b ← open_deserialize; mret (LegacyOpen b)
  | BtLegacyChange => b ← change_deserialize; mret (LegacyChange b)
  | BtState => b ← state_deserialize; mret (State b)
  | BtLegacySend => b ← send_deserialize; mret (LegacySend b)
  end.

Definition block_deserialize : decoder Block :=
  id ← read_u8;
  block_type_id ← dec_opt (block_type_id_from_u8 id) InvalidData;
  block_type ← dec_opt (block_type_try_from block_type_id) InvalidData;
  deserialize_block_type block_type.
End readers.

(** ** The sideband *)

Definition has_account (t : BlockType) : bool :=
  negb (bool_decide (t = BtState)) && negb (bool_decide (t = BtLegacyOpen)).
Definition has_height (t : BlockType) : bool := negb (bool_decide (t = BtLegacyOpen)).
Definition has_balance (t : BlockType) : bool :=
  bool_decide (t = BtLegacyReceive) || bool_decide (t = BtLegacyChange)
  || bool_decide (t = BtLegacyOpen).
Definition has_details (t : BlockType) : bool := bool_decide (t = BtState).

Definition sideband_serialized_size (t : BlockType) : nat :=
  ((if has_account t then 32 else 0) + (if has_height t then 8 else 0) +
   (if has_balance t then 16 else 0) + 8 + (if has_details t then 1 + 1 else 0))%nat.

Definition sideband_serialize (t : BlockType) (d : BlockSideband) : list byte :=
  (if has_account t then u256_serialize (sd_account d) else []) ++
  (if has_height t then to_be_bytes 8 (sd_height d) else []) ++
  (if has_balance t then amount_serialize (sd_balance d) else []) ++
  to_be_bytes 8 (sd_timestamp d) ++
  (if has_details t then [byte_of (packed (sd_details d)); byte_of (epoch_u8 (sd_source_epoch d))]
   else []).

Definition sideband_deserialize (t : BlockType) : decoder BlockSideband :=
  account ← (if has_account t then u256_deserialize else mret u256_ZERO);
  height ← (if has_height t then read_u64_be else mret 1);
  balance ← (if has_balance t then amount_deserialize else mret amount_ZERO);
  timestamp ← read_u64_be;
  de ← (if has_details t then
          details ← block_details_deserialize;
          b ← read_u8;
          source_epoch ← dec_opt (epoch_from_u8 b) InvalidData;
          mret (details, source_epoch)
        else mret (mkBlockDetails Epoch0 false false false, Epoch0));
  mret (mkBlockSideband height timestamp account balance de.1 de.2).

(** ** Saved blocks *)

Definition serialize_with_sideband (b : SavedBlock) : list byte :=
  block_serialize b ++ sideband_serialize (block_type b) (sv_sideband b).

(** The sideband fields that are not stored are filled in from the block. *)
Definition fill_sideband (b : Block) (d : BlockSideband) : BlockSideband :=
  match b with
  | LegacySend i =>
      mkBlockSideband (sd_height d) (sd_timestamp d) (sd_account d)
        (sendh_balance (send_hashables i)) (mkBlockDetails Epoch0 true false false)
        (sd_source_epoch d)
  | LegacyOpen i =>
      mkBlockSideband (sd_height d) (sd_timestamp d) (openh_account (open_hashables i))
        (sd_balance d) (mkBlockDetails Epoch0 false true false) (sd_source_epoch d)
  | LegacyReceive _ =>
      mkBlockSideband (sd_height d) (sd_timestamp d) (sd_account d) (sd_balance d)
        (mkBlockDetails Epoch0 false true false) (sd_source_epoch d)
  | LegacyChange _ =>
      mkBlockSideband (sd_height d) (sd_timestamp d) (sd_account d) (sd_balance d)
        (mkBlockDetails Epoch0 false false false) (sd_source_epoch d)
  | State i =>
      mkBlockSideband (sd_height d) (sd_timestamp d) (stateh_account (state_hashables i))
        (stateh_balance (state_hashables i)) (sd_details d) (sd_source_epoch d)
  end.

Definition saved_block_deserialize `{Crypto} : decoder SavedBlock :=
  block ← block_deserialize;
  sideband ← sideband_deserialize (block_type block);
  mret (mkSavedBlock block (fill_sideband block sideband)).

(** ** Round trips *)

Definition wf_block `{Crypto} (b : Block) : Prop :=
  wf_signature (block_signature b) /\ wf_u64 (block_work b) /\
  match b with
  | LegacySend b => let h := send_hashables b in
      wf_u256 (sendh_previous h) /\ wf_u256 (sendh_destination h) /\ wf_amount (sendh_balance h) /\
      send_hash b = send_hashables_hash h
  | LegacyReceive b => let h := recv_hashables b in
      wf_u256 (recvh_previous h) /\ wf_u256 (recvh_source h) /\
      recv_hash b = receive_hashables_hash h
  | LegacyOpen b => let h := open_hashables b in
      wf_u256 (openh_source h) /\ wf_u256 (openh_representative h) /\ wf_u256 (openh_account h) /\
      open_hash b = open_hashables_hash h
  | LegacyChange b => let h := change_hashables b in
      wf_u256 (changeh_previous h) /\ wf_u256 (changeh_representative h) /\
      change_hash b = change_hashables_hash h
  | State b => let h := state_hashables b in
      wf_u256 (stateh_account h) /\ wf_u256 (stateh_previous h) /\
      wf_u256 (stateh_representative h) /\ wf_amount (stateh_balance h) /\
      wf_u256 (stateh_link h) /\ state_hash b = state_hashables_hash h
  end.

Definition wf_sideband (d : BlockSideband) : Prop :=
  wf_u64 (sd_height d) /\ wf_u64 (sd_timestamp d) /\ wf_u256 (sd_account d) /\
  wf_amount (sd_balance d).

(** What a reader finds in the stored fields of a sideband. *)
Definition strip_sideband (t : BlockType) (d : BlockSideband) : BlockSideband :=
  mkBlockSideband (if has_height t then sd_height d else 1) (sd_timestamp d)
    (if has_account t then sd_account d else u256_ZERO)
    (if has_balance t then sd_balance d else amount_ZERO)
    (if has_details t then sd_details d else mkBlockDetails Epoch0 false false false)
    (if has_details t then sd_source_epoch d else Epoch0).

(** The saved block a reader gets back from the table. *)
Definition stored (b : SavedBlock) : SavedBlock :=
  mkSavedBlock b (fill_sideband b (strip_sideband (block_type b) (sv_sideband b))).

(** The sidebands that survive storage unchanged. *)
Definition canonical (b : SavedBlock) : Prop :=
  let d := sv_sideband b in
  match sv_block b with
  | LegacySend i => sd_balance d = sendh_balance (send_hashables i) /\
      sd_details d = mkBlockDetails Epoch0 true false false /\ sd_source_epoch d = Epoch0
  | LegacyOpen i => sd_height d = 1 /\ sd_account d = openh_account (open_hashables i) /\
      sd_details d = mkBlockDetails Epoch0 false true false /\ sd_source_epoch d = Epoch0
  | LegacyReceive _ =>
      sd_details d = mkBlockDetails Epoch0 false true false /\ sd_source_epoch d = Epoch0
  | LegacyChange _ =>
      sd_details d = mkBlockDetails Epoch0 false false false /\ sd_source_epoch d = Epoch0
  | State i => sd_account d = stateh_account (state_hashables i) /\
      sd_balance d = stateh_balance (state_hashables i)
  end.

Lemma stored_canonical b : canonical b -> stored b = b.
Proof.
  destruct b as [b d]; unfold stored, canonical; cbn. intros Hc. f_equal.
  destruct b; cbn in *; destruct d; cbn in *; destruct_and?; by subst.
Qed.

Lemma unpack_packed_eq d : unpack (packed d) = Some d.
Proof. destruct d as [[] [] [] []]; reflexivity. Qed.

Lemma packed_in_u8 d : in_u 8 (packed d).
Proof. by destruct d as [[] [] [] []]. Qed.

Lemma decodes_details d : decodes block_details_deserialize [byte_of (packed d)] d.
Proof.
  change [byte_of (packed d)] with ([byte_of (packed d)] ++ []).
  eapply decodes_bind; [apply decodes_read_u8, packed_in_u8 | apply decodes_opt, unpack_packed_eq].
Qed.

#[export] Hint Resolve decodes_details : codec.

Section round_trips.
Context `{Crypto}.

Lemma decodes_send b : wf_block (LegacySend b) -> decodes send_deserialize (send_serialize b) b.
Proof.
  intros (? & ? & ? & ? & ? & Hh). unfold send_deserialize, send_serialize. decode_all.
  destruct b as [[] ???]. cbn in *. by subst.
Qed.
Lemma decodes_receive b :
  wf_block (LegacyReceive b) -> decodes receive_deserialize (receive_serialize b) b.
Proof.
  intros (? & ? & ? & ? & Hh). unfold receive_deserialize, receive_serialize. decode_all.
  destruct b as [?? [] ?]. cbn in *. by subst.
Qed.
Lemma decodes_open b : wf_block (LegacyOpen b) -> decodes open_deserialize (open_serialize b) b.
Proof.
  intros (? & ? & ? & ? & ? & Hh). unfold open_deserialize, open_serialize. decode_all.
  destruct b as [?? [] ?]. cbn in *. by subst.
Qed.
Lemma decodes_change b :
  wf_block (LegacyChange b) -> decodes change_deserialize (change_serialize b) b.
Proof.
  intros (? & ? & ? & ? & Hh). unfold change_deserialize, change_serialize. decode_all.
  destruct b as [?? [] ?]. cbn in *. by subst.
Qed.
Lemma decodes_state b : wf_block (State b) -> decodes state_deserialize (state_serialize b) b.
Proof.
  intros (? & ? & ? & ? & ? & ? & ? & Hh). unfold state_deserialize, state_serialize. decode_all.
  destruct b as [[] ???]. cbn in *. by subst.
Qed.

Lemma decodes_block_type b :
  wf_block b -> decodes (deserialize_block_type (block_type b)) (serialize_without_block_type b) b.
Proof.
  destruct b; intros; (eapply decodes_last; [|reflexivity]);
    eauto using decodes_send, decodes_receive, decodes_open, decodes_change, decodes_state.
Qed.

Lemma decodes_block b : wf_block b -> decodes block_deserialize (block_serialize b) b.
Proof.
  intros Hb. unfold block_deserialize, block_serialize.
  eapply (decodes_bind _ _ [_]); [apply decodes_read_u8; by destruct b|].
  apply (decodes_bind _ _ []) with (x := block_type_to_id (block_type b));
    [apply decodes_opt; by destruct b|].
  apply (decodes_bind _ _ []) with (x := block_type b); [apply decodes_opt; by destruct b|].
  by apply decodes_block_type.
Qed.

Lemma decodes_sideband t d :
  wf_sideband d -> decodes (sideband_deserialize t) (sideband_serialize t d) (strip_sideband t d).
Proof.
  intros (Hh & Ht & Ha & Hb). unfold sideband_deserialize, sideband_serialize, strip_sideband.
  do 4 (eapply decodes_bind; [by eauto with codec | cbv beta]).
  eapply decodes_last with
    (x := if has_details t then (sd_details d, sd_source_epoch d)
          else (mkBlockDetails Epoch0 false false false, Epoch0)).
  - apply decodes_if.
    apply (decodes_bind _ _ [_] [_] (sd_details d)); [eauto with codec|].
    apply (decodes_bind _ _ [_] [] (epoch_u8 (sd_source_epoch d))); [eauto with codec|].
    eapply decodes_last; eauto with codec.
  - by destruct (has_details t).
Qed.

(** A saved block that is serialized with its sideband is read back from
    any slice that starts with these bytes: exactly the serialized bytes are
    consumed, the block itself is unchanged, and the sideband fields the
    format leaves out are filled in from the block ([stored]). *)
Theorem decodes_saved_block (b : SavedBlock) :
  wf_block b -> wf_sideband (sv_sideband b) ->
  decodes saved_block_deserialize (serialize_with_sideband b) (stored b).
Proof.
  intros Hb Hs. eapply decodes_bind; [by apply decodes_block|].
  eapply decodes_last; [by apply decodes_sideband | done].
Qed.
End round_trips.

(** ** Ledger records *)

Lemma decodes_account_info i :
  wf_account_info i -> decodes account_info_deserialize (account_info_serialize i) i.
Proof.
  intros (? & ? & ? & ? & ? & ?). unfold account_info_deserialize, account_info_serialize.
  do 6 (eapply decodes_bind; [by eauto with codec | cbv beta]).
  eapply (decodes_bind _ _ [_] []); [by eauto with codec | cbv beta].
  eapply decodes_last; [by eauto with codec | by destruct i].
Qed.

Lemma decodes_pending_info i :
  wf_pending_info i -> decodes pending_info_deserialize (pending_info_serialize i) i.
Proof.
  intros (? & ?). unfold pending_info_deserialize, pending_info_serialize.
  do 2 (eapply decodes_bind; [by eauto with codec | cbv beta]).
  eapply (decodes_bind _ _ [_] []); [by eauto with codec | cbv beta].
  eapply decodes_last; [by eauto with codec | by destruct i].
Qed.

Lemma decodes_pending_key k :
  wf_pending_key k -> decodes pending_key_deserialize (pending_key_serialize k) k.
Proof.
  intros (? & ?). unfold pending_key_deserialize, pending_key_serialize. decode_all. by destruct k.
Qed.

Lemma decodes_conf_height i :
  wf_conf_height i -> decodes conf_height_deserialize (conf_height_serialize i) i.
Proof.
  intros (? & ?). unfold conf_height_deserialize, conf_height_serialize. decode_all. by destruct i.
Qed.

Lemma decodes_qualified_root r :
  wf_qualified_root r -> decodes qualified_root_deserialize (qualified_root_serialize r) r.
Proof.
  intros (? & ?). unfold qualified_root_deserialize, qualified_root_serialize. decode_all.
  by destruct r.
Qed.

(** ** Examples *)

Definition sample_state : StateBlock :=
  let h := mkStateHashables 7 11 13 1000 17 in
  mkStateBlock h 5 (@state_hashables_hash model_crypto h) 3.

Definition sample_saved : SavedBlock :=
  mkSavedBlock (State sample_state)
    (mkBlockSideband 2 99 7 1000 (mkBlockDetails Epoch2 true false false) Epoch0).

Lemma decodes_saved_block_witness :
  @saved_block_deserialize model_crypto (serialize_with_sideband sample_saved ++ [byte_of 1])
  = Ok (sample_saved, [byte_of 1]).
Proof.
  apply (@decodes_saved_block model_crypto sample_saved);
    repeat split; vm_compute; done.
Defined.
