(* ===== verification/Work.v ===== *)
(** * Proof-of-work thresholds (work/src/work_thresholds.rs, types/src/difficulty.rs)

    [Box<dyn Difficulty>] is a function from a root and a nonce to the
    difficulty of the nonce; [DifficultyV1] and [StubDifficulty] are the two
    implementations of the trait. *)

From S2P Require Import Prelude Types Blocks.

Abbreviation Difficulty := (Root -> WorkNonce -> Z) (only parsing).

Definition difficulty_v1 `{Crypto} : Difficulty :=
  fun root work => from_le_bytes (blake2b 8 (to_le_bytes 8 work ++ u256_serialize root)).

Definition stub_difficulty (preset : gmap (Root * WorkNonce) Z) : Difficulty :=
  fun root work => default work (preset !! (root, work)).

Record WorkThresholds := mkWorkThresholds {
  wt_epoch_1 : Z;
  wt_epoch_2 : Z;
  wt_epoch_2_receive : Z;
  wt_base : Z;
  wt_entry : Z;
  wt_difficulty : Root -> WorkNonce -> Z;
}.

Definition with_difficulty (difficulty : Difficulty) (epoch_1 epoch_2 epoch_2_receive : Z)
    : WorkThresholds :=
  mkWorkThresholds epoch_1 epoch_2 epoch_2_receive
    (Z.max (Z.max epoch_1 epoch_2) epoch_2_receive)
    (Z.min (Z.min epoch_1 epoch_2) epoch_2_receive)
    difficulty.

Section presets.
Context `{Crypto}.
Definition work_thresholds_new (epoch_1 epoch_2 epoch_2_receive : Z) : WorkThresholds :=
  with_difficulty difficulty_v1 epoch_1 epoch_2 epoch_2_receive.
Definition publish_full : WorkThresholds :=
  work_thresholds_new 0xffffffc000000000 0xfffffff800000000 0xfffffe0000000000.
Definition publish_beta : WorkThresholds :=
  work_thresholds_new 0xfffff00000000000 0xfffff00000000000 0xffffe00000000000.
Definition publish_dev : WorkThresholds :=
  work_thresholds_new 0xfe00000000000000 0xffc0000000000000 0xf000000000000000.
Definition work_none : WorkThresholds := with_difficulty difficulty_v1 0 0 0.
Definition work_impossible : WorkThresholds :=
  with_difficulty difficulty_v1 u64_max u64_max u64_max.
End presets.

Definition work_stub : WorkThresholds :=
  with_difficulty (stub_difficulty ∅) 0xfe00000000000000 0xffc0000000000000 0xf000000000000000.

Definition threshold_entry (w : WorkThresholds) (t : BlockType) : Z :=
  match t with
  | BtState => wt_entry w
  | _ => wt_epoch_1 w
  end.

Definition threshold (w : WorkThresholds) (d : BlockDetails) : Z :=
  match bd_epoch d with
  | Epoch2 => if bd_is_receive d || bd_is_epoch d then wt_epoch_2_receive w else wt_epoch_2 w
  | Epoch1 | Epoch0 => wt_epoch_1 w
  | _ => u64_max
  end.

Definition threshold_base (w : WorkThresholds) : Z := wt_base w.

Definition difficulty_block (w : WorkThresholds) (b : Block) : Z :=
  wt_difficulty w (root b) (block_work b).

Definition validate_entry (w : WorkThresholds) (root : Root) (work : WorkNonce) : bool :=
  threshold_entry w BtState <=? wt_difficulty w root work.

Definition validate_entry_block (w : WorkThresholds) (b : Block) : bool :=
  threshold_entry w (block_type b) <=? difficulty_block w b.

Definition is_valid_pow (w : WorkThresholds) (b : Block) (d : BlockDetails) : bool :=
  threshold w d <=? difficulty_block w b.

(** ** Properties *)

Definition built (w : WorkThresholds) : Prop :=
  exists d e1 e2 e2r, w = with_difficulty d e1 e2 e2r.

(** The entry check is a pre-filter: the ledger's check never accepts work
    that the entry check refuses, for a block whose details have one of the
    released epochs. *)
Lemma valid_pow_passes_entry w b d :
  built w -> (bd_epoch d = Epoch0 \/ bd_epoch d = Epoch1 \/ bd_epoch d = Epoch2) ->
  (is_legacy b = true -> bd_epoch d = Epoch0) ->
  is_valid_pow w b d = true -> validate_entry_block w b = true.
Proof.
  intros (df & e1 & e2 & e2r & ->) Hd Hl.
  unfold is_valid_pow, validate_entry_block, threshold_entry, threshold.
  rewrite !Z.leb_le. destruct b; cbn in *; rewrite ?Hl by done; cbn; try lia.
  destruct Hd as [-> | [-> | ->]]; cbn; try lia. destruct (_ || _); lia.
Qed.
