(* ===== verification/Store.v ===== *)
(** * The ledger tables (store_lmdb/src)

    One finite map per LMDB table, from decoded keys to decoded values; the
    codec theorems of Codec.v show that what is written is what is read back.
    A block is kept in the form its reader returns, [stored b].
    LMDB itself is a crate outside the repository. Two of its reactions are
    parameters, the fields of [LmdbEngine]: whether deleting a missing key is
    an error (the crate returns [NotFound]; the nulled engine of
    nullables/lmdb does nothing) and whether a [NO_OVERWRITE] put of a present
    key is an error. The stores [unwrap] these errors, so an error is a panic,
    [None] here. *)

From S2P Require Import Prelude Types Blocks Codec.

Class LmdbEngine := {
  del_missing_is_error : bool;
  no_overwrite_is_error : bool;
}.

Section tables.
Context `{LmdbEngine} {K V : Type} `{Countable K}.

(** [txn.delete(..).unwrap()] *)
Definition table_del (m : gmap K V) (k : K) : option (gmap K V) :=
  match m !! k with
  | Some _ => Some (delete k m)
  | None => if del_missing_is_error then None else Some m
  end.

(** [txn.put(.., WriteFlags::NO_OVERWRITE).expect(..)] *)
Definition table_put_new (m : gmap K V) (k : K) (v : V) : option (gmap K V) :=
  match m !! k with
  | Some _ => if no_overwrite_is_error then None else Some (<[k:=v]> m)
  | None => Some (<[k:=v]> m)
  end.

Lemma table_del_present m k v : m !! k = Some v -> table_del m k = Some (delete k m).
Proof. intros E. unfold table_del. by rewrite E. Qed.

Lemma table_put_new_absent m k v : m !! k = None -> table_put_new m k v = Some (<[k:=v]> m).
Proof. intros E. unfold table_put_new. by rewrite E. Qed.
End tables.

(** [LedgerCache]: the atomic counters (store.rs) *)
Record LedgerCache := mkLedgerCache {
  lc_confirmed_count : Z;
  lc_block_count : Z;
  lc_account_count : Z;
}.

(** [LmdbStore] (store.rs); the rep-weight cache of the ledger is kept with it
    as [st_weights], the [RepWeights] shared by [RepWeightCache] and
    [RepWeightsUpdater]. *)
Record LmdbStore := mkLmdbStore {
  st_cache : LedgerCache;
  st_block : gmap BlockHash SavedBlock;
  st_account : gmap Account AccountInfo;
  st_pending : gmap PendingKey PendingInfo;
  st_rep_weight : gmap PublicKey Amount;
  st_confirmation_height : gmap Account ConfirmationHeightInfo;
  st_successors : gmap BlockHash BlockHash;
  st_final_vote : gmap QualifiedRoot BlockHash;
  st_weights : gmap PublicKey Amount;
}.

Definition store_empty : LmdbStore := mkLmdbStore (mkLedgerCache 0 0 0) ∅ ∅ ∅ ∅ ∅ ∅ ∅ ∅.

(** ** Field updates *)

Definition set_cache c (s : LmdbStore) : LmdbStore :=
  mkLmdbStore c (st_block s) (st_account s) (st_pending s) (st_rep_weight s)
    (st_confirmation_height s) (st_successors s) (st_final_vote s) (st_weights s).
Definition set_block t (s : LmdbStore) : LmdbStore :=
  mkLmdbStore (st_cache s) t (st_account s) (st_pending s) (st_rep_weight s)
    (st_confirmation_height s) (st_successors s) (st_final_vote s) (st_weights s).
Definition set_account t (s : LmdbStore) : LmdbStore :=
  mkLmdbStore (st_cache s) (st_block s) t (st_pending s) (st_rep_weight s)
    (st_confirmation_height s) (st_successors s) (st_final_vote s) (st_weights s).
Definition set_pending t (s : LmdbStore) : LmdbStore :=
  mkLmdbStore (st_cache s) (st_block s) (st_account s) t (st_rep_weight s)
    (st_confirmation_height s) (st_successors s) (st_final_vote s) (st_weights s).
Definition set_rep_weight t (s : LmdbStore) : LmdbStore :=
  mkLmdbStore (st_cache s) (st_block s) (st_account s) (st_pending s) t
    (st_confirmation_height s) (st_successors s) (st_final_vote s) (st_weights s).
Definition set_confirmation_height t (s : LmdbStore) : LmdbStore :=
  mkLmdbStore (st_cache s) (st_block s) (st_account s) (st_pending s) (st_rep_weight s)
    t (st_successors s) (st_final_vote s) (st_weights s).
Definition set_successors t (s : LmdbStore) : LmdbStore :=
  mkLmdbStore (st_cache s) (st_block s) (st_account s) (st_pending s) (st_rep_weight s)
    (st_confirmation_height s) t (st_final_vote s) (st_weights s).
Definition set_final_vote t (s : LmdbStore) : LmdbStore :=
  mkLmdbStore (st_cache s) (st_block s) (st_account s) (st_pending s) (st_rep_weight s)
    (st_confirmation_height s) (st_successors s) t (st_weights s).
Definition set_weights t (s : LmdbStore) : LmdbStore :=
  mkLmdbStore (st_cache s) (st_block s) (st_account s) (st_pending s) (st_rep_weight s)
    (st_confirmation_height s) (st_successors s) (st_final_vote s) t.

(** [fetch_add]/[fetch_sub] on the [AtomicU64] counters wrap. *)
Definition add_block_count (n : Z) (s : LmdbStore) : LmdbStore :=
  set_cache (mkLedgerCache (lc_confirmed_count (st_cache s))
    (wrap 64 (lc_block_count (st_cache s) + n)) (lc_account_count (st_cache s))) s.
Definition add_account_count (n : Z) (s : LmdbStore) : LmdbStore :=
  set_cache (mkLedgerCache (lc_confirmed_count (st_cache s))
    (lc_block_count (st_cache s)) (wrap 64 (lc_account_count (st_cache s) + n))) s.
Definition add_confirmed_count (n : Z) (s : LmdbStore) : LmdbStore :=
  set_cache (mkLedgerCache (wrap 64 (lc_confirmed_count (st_cache s) + n))
    (lc_block_count (st_cache s)) (lc_account_count (st_cache s))) s.

(** ** Store operations *)

Section stores.
Context `{LmdbEngine}.

(** block_store.rs: [put] uses [NO_OVERWRITE] and writes the serialized block,
    which reads back as [stored b]; [del] returns on a missing hash. *)
Definition block_put (s : LmdbStore) (b : SavedBlock) : option LmdbStore :=
  t ← table_put_new (st_block s) (block_hash b) (stored b); Some (set_block t s).
Definition block_get (s : LmdbStore) (hash : BlockHash) : option SavedBlock := st_block s !! hash.
Definition block_exists (s : LmdbStore) (hash : BlockHash) : bool :=
  bool_decide (is_Some (st_block s !! hash)).
Definition block_del (s : LmdbStore) (hash : BlockHash) : LmdbStore :=
  set_block (delete hash (st_block s)) s.

(** account_store.rs *)
Definition account_put (s : LmdbStore) (a : Account) (i : AccountInfo) : LmdbStore :=
  set_account (<[a:=i]> (st_account s)) s.
Definition account_get (s : LmdbStore) (a : Account) : option AccountInfo := st_account s !! a.
Definition account_del (s : LmdbStore) (a : Account) : option LmdbStore :=
  t ← table_del (st_account s) a; Some (set_account t s).

(** pending_store.rs *)
Definition pending_put (s : LmdbStore) (k : PendingKey) (i : PendingInfo) : LmdbStore :=
  set_pending (<[k:=i]> (st_pending s)) s.
Definition pending_get (s : LmdbStore) (k : PendingKey) : option PendingInfo := st_pending s !! k.
Definition pending_del (s : LmdbStore) (k : PendingKey) : option LmdbStore :=
  t ← table_del (st_pending s) k; Some (set_pending t s).

(** successor_store.rs *)
Definition successor_put (s : LmdbStore) (h succ : BlockHash) : LmdbStore :=
  set_successors (<[h:=succ]> (st_successors s)) s.
Definition successor_get (s : LmdbStore) (h : BlockHash) : option BlockHash := st_successors s !! h.
Definition successor_del (s : LmdbStore) (h : BlockHash) : option LmdbStore :=
  t ← table_del (st_successors s) h; Some (set_successors t s).

(** confirmation_height_store.rs *)
Definition conf_height_put (s : LmdbStore) (a : Account) (i : ConfirmationHeightInfo) : LmdbStore :=
  set_confirmation_height (<[a:=i]> (st_confirmation_height s)) s.
Definition conf_height_get (s : LmdbStore) (a : Account) : option ConfirmationHeightInfo :=
  st_confirmation_height s !! a.

(** rep_weight_store.rs *)
Definition rep_weight_put (s : LmdbStore) (rep : PublicKey) (w : Amount) : LmdbStore :=
  set_rep_weight (<[rep:=w]> (st_rep_weight s)) s.
Definition rep_weight_get (s : LmdbStore) (rep : PublicKey) : option Amount := st_rep_weight s !! rep.
Definition rep_weight_del (s : LmdbStore) (rep : PublicKey) : option LmdbStore :=
  t ← table_del (st_rep_weight s) rep; Some (set_rep_weight t s).

(** final_vote_store.rs: true when the pair was inserted or was already there. *)
Definition final_vote_put (s : LmdbStore) (root : QualifiedRoot) (hash : BlockHash)
    : bool * LmdbStore :=
  match st_final_vote s !! root with
  | None => (true, set_final_vote (<[root:=hash]> (st_final_vote s)) s)
  | Some existing => (existing =? hash, s)
  end.
Definition final_vote_get (s : LmdbStore) (root : QualifiedRoot) : option BlockHash :=
  st_final_vote s !! root.
End stores.
