(* ===== verification/RepWeights.v ===== *)
(** * Representative weights (ledger/src/rep_weight_cache.rs, rep_weights_updater.rs)

    [representation_add] and [representation_add_dual] keep the rep_weight
    table and the in-memory cache in step; the cache leaves out weights below
    [min_weight]. [rep_weights_ok] is the invariant both preserve, and
    [weight_of] is the weight the table stands for. *)

From S2P Require Import Prelude Types Blocks Store.

Abbreviation RepWeights := (gmap PublicKey Amount).

Definition weight_of (m : RepWeights) (rep : PublicKey) : Amount := default 0 (m !! rep).

Section updater.
Context `{LmdbEngine}.
Variable min_weight : Amount.

Definition put_cache (weights : RepWeights) (rep : PublicKey) (new_weight : Amount) : RepWeights :=
  if (new_weight <? min_weight) || amount_is_zero new_weight
  then delete rep weights
  else <[rep:=new_weight]> weights.

Definition put_store (s : LmdbStore) (rep : PublicKey) (previous_weight new_weight : Amount)
    : option LmdbStore :=
  if amount_is_zero new_weight then
    if negb (amount_is_zero previous_weight) then rep_weight_del s rep else Some s
  else Some (rep_weight_put s rep new_weight).

Definition representation_put (s : LmdbStore) (rep : PublicKey) (weight : Amount) : LmdbStore :=
  set_weights (put_cache (st_weights s) rep weight) s.

Definition representation_add (s : LmdbStore) (rep : PublicKey) (amount : Amount)
    : option LmdbStore :=
  let previous_weight := default 0 (rep_weight_get s rep) in
  let new_weight := wrapping_add previous_weight amount in
  s' ← put_store s rep previous_weight new_weight;
  Some (representation_put s' rep new_weight).

Definition representation_add_dual (s : LmdbStore) (rep_1 : PublicKey) (amount_1 : Amount)
    (rep_2 : PublicKey) (amount_2 : Amount) : option LmdbStore :=
  if negb (rep_1 =? rep_2) then
    let previous_weight_1 := default 0 (rep_weight_get s rep_1) in
    let previous_weight_2 := default 0 (rep_weight_get s rep_2) in
    let new_weight_1 := wrapping_add previous_weight_1 amount_1 in
    let new_weight_2 := wrapping_add previous_weight_2 amount_2 in
    s1 ← put_store s rep_1 previous_weight_1 new_weight_1;
    s2 ← put_store s1 rep_2 previous_weight_2 new_weight_2;
    Some (set_weights (put_cache (put_cache (st_weights s2) rep_1 new_weight_1)
                                 rep_2 new_weight_2) s2)
  else representation_add s rep_1 (wrapping_add amount_1 amount_2).

(** [copy_from] adds one map of partial sums, in the map's iteration order. *)
Definition copy_from (weights : RepWeights) (other : list (PublicKey * Amount)) : RepWeights :=
  fold_left (fun w '(account, amount) =>
    put_cache w account (wrapping_add (weight_of w account) amount)) other weights.
End updater.

(** ** The cache in front of the updater's weights *)

Record RepWeightCache := mkRepWeightCache {
  rwc_weights : RepWeights;
  rwc_bootstrap_weights : RepWeights;
  rwc_max_blocks : Z;
  rwc_block_count : Z;
  rwc_check_bootstrap_weights : bool;
}.

Definition use_bootstrap_weights (c : RepWeightCache) : bool * RepWeightCache :=
  if rwc_check_bootstrap_weights c then
    if rwc_block_count c <? rwc_max_blocks c then (true, c)
    else (false, mkRepWeightCache (rwc_weights c) (rwc_bootstrap_weights c)
                   (rwc_max_blocks c) (rwc_block_count c) false)
  else (false, c).

Definition cache_weight (c : RepWeightCache) (rep : PublicKey) : Amount * RepWeightCache :=
  let '(bootstrap, c') := use_bootstrap_weights c in
  (weight_of (if bootstrap then rwc_bootstrap_weights c' else rwc_weights c') rep, c').

(** ** Invariant *)

Definition cached (min_weight w : Amount) : option Amount :=
  if (w <? min_weight) || amount_is_zero w then None else Some w.

Record rep_weights_ok (min_weight : Amount) (s : LmdbStore) : Prop := {
  rw_nonzero : forall rep w, st_rep_weight s !! rep = Some w -> w <> 0;
  rw_cache : forall rep, st_weights s !! rep = cached min_weight (weight_of (st_rep_weight s) rep);
}.

Lemma put_cache_lookup mw m rep w r :
  put_cache mw m rep w !! r = if r =? rep then cached mw w else m !! r.
Proof.
  unfold put_cache, cached. destruct (Z.eqb_spec r rep) as [-> | Hne].
  - destruct (_ || _); simplify_map_eq; done.
  - destruct (_ || _); by simplify_map_eq.
Qed.

Lemma wrapping_add_assoc_l a b c : wrapping_add a (wrapping_add b c) = wrap 128 (a + b + c).
Proof. unfold wrapping_add. rewrite wrap_add_r by lia. f_equal. lia. Qed.

Section updater_spec.
Context `{LmdbEngine}.
Variable min_weight : Amount.

(** Setting one entry of the table: absence stands for zero. *)
Definition table_set (t : RepWeights) (rep : PublicKey) (w : Amount) : RepWeights :=
  if amount_is_zero w then delete rep t else <[rep:=w]> t.

Lemma weight_of_table_set t rep w r :
  weight_of (table_set t rep w) r = if r =? rep then w else weight_of t r.
Proof.
  unfold table_set, weight_of.
  destruct (amount_is_zero_spec w), (Z.eqb_spec r rep); subst;
    rewrite ?lookup_delete_eq, ?lookup_insert_eq, ?lookup_delete_ne, ?lookup_insert_ne by done; done.
Qed.

Lemma table_set_nonzero t rep w :
  (forall r x, t !! r = Some x -> x <> 0) ->
  forall r x, table_set t rep w !! r = Some x -> x <> 0.
Proof.
  unfold table_set. intros Ht r x.
  destruct (amount_is_zero_spec w); [rewrite lookup_delete_Some | rewrite lookup_insert_Some];
    naive_solver.
Qed.

Lemma put_store_table s rep w :
  (forall r x, st_rep_weight s !! r = Some x -> x <> 0) ->
  put_store s rep (weight_of (st_rep_weight s) rep) w
  = Some (set_rep_weight (table_set (st_rep_weight s) rep w) s).
Proof.
  intros Hnz. unfold put_store, table_set, rep_weight_put, rep_weight_del, table_del, weight_of.
  destruct (amount_is_zero w); [|done].
  destruct (st_rep_weight s !! rep) as [x|] eqn:E; cbn.
  - specialize (Hnz _ _ E). by destruct (amount_is_zero_spec x).
  - rewrite delete_id by done. by destruct s.
Qed.

(** The effect of [representation_add] on the whole store. *)
Lemma representation_add_eq s rep amount :
  rep_weights_ok min_weight s ->
  let w := wrapping_add (weight_of (st_rep_weight s) rep) amount in
  representation_add min_weight s rep amount
  = Some (set_weights (put_cache min_weight (st_weights s) rep w)
           (set_rep_weight (table_set (st_rep_weight s) rep w) s)).
Proof.
  intros [Hnz _]. unfold representation_add, rep_weight_get.
  fold (weight_of (st_rep_weight s) rep). by rewrite put_store_table.
Qed.

Lemma rep_weights_ok_set s rep w :
  rep_weights_ok min_weight s ->
  rep_weights_ok min_weight
    (set_weights (put_cache min_weight (st_weights s) rep w)
       (set_rep_weight (table_set (st_rep_weight s) rep w) s)).
Proof.
  intros [Hnz Hc]. split; cbn.
  - by apply table_set_nonzero.
  - intros r. rewrite put_cache_lookup, weight_of_table_set. by destruct (r =? rep).
Qed.

Lemma representation_add_dual_eq s r1 a1 r2 a2 :
  rep_weights_ok min_weight s ->
  exists t c, representation_add_dual min_weight s r1 a1 r2 a2
              = Some (set_weights c (set_rep_weight t s)) /\
    rep_weights_ok min_weight (set_weights c (set_rep_weight t s)) /\
    forall r, weight_of t r =
      if (r =? r1) || (r =? r2) then
        wrap 128 (weight_of (st_rep_weight s) r + (if r =? r1 then a1 else 0)
                                                + (if r =? r2 then a2 else 0))
      else weight_of (st_rep_weight s) r.
Proof.
  intros Hok. unfold representation_add_dual. destruct (Z.eqb_spec r1 r2) as [<- | Hne]; cbn [negb].
  - rewrite representation_add_eq by done. eexists _, _. split; [reflexivity|].
    split; [by apply rep_weights_ok_set|]. intros r. rewrite weight_of_table_set, orb_diag.
    destruct (Z.eqb_spec r r1) as [->|]; [apply wrapping_add_assoc_l | done].
  - unfold rep_weight_get. fold (weight_of (st_rep_weight s) r1) (weight_of (st_rep_weight s) r2).
    rewrite put_store_table by apply Hok. cbn.
    set (w1 := wrapping_add (weight_of (st_rep_weight s) r1) a1).
    set (w2 := wrapping_add (weight_of (st_rep_weight s) r2) a2).
    pose proof (rep_weights_ok_set s r1 w1 Hok) as H1.
    assert (weight_of (st_rep_weight s) r2
            = weight_of (table_set (st_rep_weight s) r1 w1) r2) as E.
    { rewrite weight_of_table_set. by case_test. }
    rewrite E. change (table_set (st_rep_weight s) r1 w1)
      with (st_rep_weight (set_rep_weight (table_set (st_rep_weight s) r1 w1) s)) at 1.
    rewrite put_store_table by apply H1. cbn.
    eexists _, _. split; [reflexivity|]. split.
    + apply (rep_weights_ok_set _ r2 w2 H1).
    + intros r. rewrite !weight_of_table_set. subst w1 w2. unfold wrapping_add.
      destruct (Z.eqb_spec r r2), (Z.eqb_spec r r1); subst; try done; cbn; f_equal; lia.
Qed.
End updater_spec.
