(* ===== verification/Sets.v ===== *)
(** * Views of the ledger (ledger/src/ledger_sets, ledger_constants.rs,
      representative_block_finder.rs, dependent_blocks_finder.rs)

    [BorrowingAnySet], [BorrowingConfirmedSet] and [BorrowingUnconfirmedSet]
    are read-only views of the store inside one transaction; a view of the
    state [s] is [s] itself. LMDB iterates a table in key order: the pending
    table is read as the sorted list of its entries. *)

From S2P Require Import Prelude Types Blocks Work Store.

Record LedgerConstants := mkLedgerConstants {
  lk_work : WorkThresholds;
  lk_genesis_block : SavedBlock;
  lk_genesis_account : Account;
  lk_genesis_amount : Amount;
  lk_burn_account : Account;
  lk_epochs : Epochs;
}.

Definition genesis_sideband (genesis_account : Account) : BlockSideband :=
  mkBlockSideband 1 0 genesis_account amount_MAX
    (mkBlockDetails Epoch0 false false false) Epoch0.

(** ** Pending entries in key order *)

Definition pending_entry_le (a b : PendingKey * PendingInfo) : Prop :=
  pending_key_ltb b.1 a.1 = false.

#[global] Instance pending_entry_le_dec : RelDecision pending_entry_le.
Proof. intros a b. unfold pending_entry_le. apply _. Defined.

Definition pending_sorted (s : LmdbStore) : list (PendingKey * PendingInfo) :=
  merge_sort pending_entry_le (map_to_list (st_pending s)).

(** [LmdbRangeIterator] with an included start bound and no end bound. *)
Definition pending_range (s : LmdbStore) (start : PendingKey) : list (PendingKey * PendingInfo) :=
  filter (fun e => pending_key_ltb e.1 start = false) (pending_sorted s).

Fixpoint take_account (a : Account) (l : list (PendingKey * PendingInfo))
    : list (PendingKey * PendingInfo) :=
  match l with
  | [] => []
  | e :: l' => if pk_receiving_account e.1 =? a then e :: take_account a l' else []
  end.

(** The items [AnyReceivableIterator] yields up to its first [None]. *)
Definition any_receivable_iterator (s : LmdbStore) (requested_account : Account)
    (returned_account : option Account) (next_hash : option BlockHash)
    : list (PendingKey * PendingInfo) :=
  let inner := match next_hash with
               | Some hash => pending_range s (mkPendingKey requested_account hash)
               | None => []
               end in
  match returned_account, inner with
  | Some a, _ => take_account a inner
  | None, [] => []
  | None, e :: _ => take_account (pk_receiving_account e.1) inner
  end.

Definition receivable_upper_bound (s : LmdbStore) (account : Account) :=
  match u256_inc account with
  | None => any_receivable_iterator s u256_ZERO None None
  | Some account => any_receivable_iterator s account None (Some u256_ZERO)
  end.
Definition receivable_lower_bound (s : LmdbStore) (account : Account) :=
  any_receivable_iterator s account None (Some u256_ZERO).
Definition account_receivable_upper_bound (s : LmdbStore) (account : Account) (hash : BlockHash) :=
  any_receivable_iterator s account (Some account) (u256_inc hash).

(** ** BorrowingConfirmedSet *)

Definition confirmed_get_block (s : LmdbStore) (hash : BlockHash) : option SavedBlock :=
  if u256_is_zero hash then None else
  block ← block_get s hash;
  conf_info ← conf_height_get s (sv_account block);
  if sv_height block <=? ch_height conf_info then Some block else None.

Definition confirmed_get_conf_info (s : LmdbStore) (account : Account) : option ConfirmationHeightInfo :=
  conf_height_get s account.

Definition confirmed_account_head (s : LmdbStore) (account : Account) : option BlockHash :=
  info ← conf_height_get s account; Some (ch_frontier info).



Definition confirmed_block_exists (s : LmdbStore) (hash : BlockHash) : bool :=
  bool_decide (is_Some (confirmed_get_block s hash)).

Definition confirmed_account_receivable (s : LmdbStore) (account : Account) : Amount :=
  fold_left (fun result '(key, info) =>
      if confirmed_block_exists s (pk_send_block_hash key)
      then amount_add result (pi_amount info) else result)
    (account_receivable_upper_bound s account u256_ZERO) amount_ZERO.

Definition confirmed_account_balance (s : LmdbStore) (account : Account) : Amount :=
  match confirmed_account_head s account with
  | None => amount_ZERO
  | Some head => default amount_ZERO (sv_balance <$> confirmed_get_block s head)
  end.

(** ** BorrowingUnconfirmedSet *)

Definition unconfirmed_block_exists (s : LmdbStore) (hash : BlockHash) : bool :=
  if u256_is_zero hash then false else
  match block_get s hash with
  | None => false
  | Some block =>
      let conf_info := default (mkConfirmationHeightInfo 0 u256_ZERO)
                         (conf_height_get s (sv_account block)) in
      ch_height conf_info <? sv_height block
  end.

(** ** BorrowingAnySet *)

Definition any_block_exists (s : LmdbStore) (hash : BlockHash) : bool :=
  if u256_is_zero hash then false else block_exists s hash.

Definition any_get_block (s : LmdbStore) (hash : BlockHash) : option SavedBlock :=
  if u256_is_zero hash then None else block_get s hash.

Definition any_get_account (s : LmdbStore) (a : Account) : option AccountInfo := account_get s a.
Definition any_get_pending (s : LmdbStore) (k : PendingKey) : option PendingInfo := pending_get s k.

Definition any_account_receivable (s : LmdbStore) (account : Account) : Amount :=
  fold_left (fun result '(_, info) => amount_add result (pi_amount info))
    (account_receivable_upper_bound s account u256_ZERO) amount_ZERO.

Definition any_account_head (s : LmdbStore) (account : Account) : option BlockHash :=
  ai_head <$> any_get_account s account.

Definition any_account_balance (s : LmdbStore) (account : Account) : Amount :=
  match any_account_head s account with
  | None => amount_ZERO
  | Some head => default amount_ZERO (sv_balance <$> any_get_block s head)
  end.

Definition receivable_exists (s : LmdbStore) (account : Account) : bool :=
  match account_receivable_upper_bound s account u256_ZERO with
  | [] => false
  | _ :: _ => true
  end.

Definition block_balance (s : LmdbStore) (hash : BlockHash) : option Amount :=
  if u256_is_zero hash then None else sv_balance <$> any_get_block s hash.

Definition previous_block (s : LmdbStore) (b : SavedBlock) : option SavedBlock :=
  if u256_is_zero (previous b) then None else any_get_block s (previous b).

Definition block_account (s : LmdbStore) (hash : BlockHash) : option Account :=
  sv_account <$> any_get_block s hash.

Definition block_successor_by_qualified_root (s : LmdbStore) (r : QualifiedRoot)
    : option BlockHash :=
  if negb (u256_is_zero (qr_previous r)) then successor_get s (qr_previous r)
  else ai_open_block <$> any_get_account s (qr_root r).

Definition block_successor (s : LmdbStore) (hash : BlockHash) : option BlockHash :=
  block_successor_by_qualified_root s (mkQualifiedRoot hash hash).

Definition block_amount_for (s : LmdbStore) (b : SavedBlock) : option Amount :=
  if u256_is_zero (previous b) then Some (sv_balance b) else
  previous_balance ← block_balance s (previous b);
  Some (if previous_balance <? sv_balance b
        then amount_sub (sv_balance b) previous_balance
        else amount_sub previous_balance (sv_balance b)).

Definition block_amount (s : LmdbStore) (hash : BlockHash) : option Amount :=
  b ← any_get_block s hash; block_amount_for s b.

Definition linked_account (s : LmdbStore) (b : SavedBlock) : option Account :=
  if sv_is_send b then Some (destination_or_link b)
  else if sv_is_receive b then block_account s (source_or_link b)
  else None.

Definition block_priority (b : SavedBlock) (previous_block : option SavedBlock) : BlockPriority :=
  let previous_balance := default amount_ZERO (sv_balance <$> previous_block) in
  mkBlockPriority
    (Z.max (sv_balance b) (if sv_is_send b then previous_balance else amount_ZERO))
    (default (sv_timestamp b) (sv_timestamp <$> previous_block)).

Definition any_block_priority (s : LmdbStore) (b : SavedBlock) : BlockPriority :=
  block_priority b (previous_block s b).

(** ** RepresentativeBlockFinder

    The loop's fuel is the height of the first block plus one; each turn
    goes to the previous block. [None] is a loop that is still running. *)
Fixpoint find_rep_loop (s : LmdbStore) (fuel : nat) (current : BlockHash) : option BlockHash :=
  match fuel with
  | O => None
  | S fuel =>
      match block_get s current with
      | None => Some u256_ZERO
      | Some block =>
          let '(current', result) :=
            match sv_block block with
            | LegacySend _ | LegacyReceive _ => (previous block, u256_ZERO)
            | LegacyOpen _ | LegacyChange _ | State _ => (u256_ZERO, block_hash block)
            end in
          if u256_is_zero result then find_rep_loop s fuel current' else Some result
      end
  end.

Definition walk_fuel (s : LmdbStore) (hash : BlockHash) : nat :=
  S (Z.to_nat (default 0 (sv_height <$> block_get s hash))).

Definition find_rep_block (s : LmdbStore) (hash : BlockHash) : option BlockHash :=
  find_rep_loop s (walk_fuel s hash) hash.

(** The walk of [find_receive_block_by_send_hash] down the confirmed chain. *)
Fixpoint find_receive_loop (s : LmdbStore) (fuel : nat) (send_block_hash : BlockHash)
    (possible : option SavedBlock) : option (option SavedBlock) :=
  match fuel with
  | O => None
  | S fuel =>
      match possible with
      | None => Some None
      | Some current =>
          if sv_is_receive current && bool_decide (Some send_block_hash = sv_source current)
          then Some (Some current)
          else find_receive_loop s fuel send_block_hash (any_get_block s (previous current))
      end
  end.

Definition find_receive_block_by_send_hash (s : LmdbStore) (destination : Account)
    (send_block_hash : BlockHash) : option (option SavedBlock) :=
  match confirmed_get_conf_info s destination with
  | None => Some None
  | Some info => find_receive_loop s (S (walk_fuel s (ch_frontier info))) send_block_hash
                   (any_get_block s (ch_frontier info))
  end.

(** ** DependentBlocksFinder *)

Definition finder_is_send (s : LmdbStore) (st : StateBlock) : bool :=
  if u256_is_zero (stateh_previous (state_hashables st)) then false else
  stateh_balance (state_hashables st)
    <? default amount_ZERO (block_balance s (stateh_previous (state_hashables st))).

Definition is_receive_or_change (es : Epochs) (s : LmdbStore) (st : StateBlock) : bool :=
  negb (is_epoch_link es (stateh_link (state_hashables st))) && negb (finder_is_send s st).

Definition find_dependent_blocks_for_unsaved_block (c : LedgerConstants) (s : LmdbStore)
    (b : Block) : DependentBlocks :=
  match b with
  | LegacySend b => send_dependent_blocks b
  | LegacyChange b => change_dependent_blocks b
  | LegacyReceive b => receive_dependent_blocks b
  | LegacyOpen b => open_dependent_blocks b (lk_genesis_account c)
  | State st =>
      mkDependentBlocks (previous b)
        (if is_receive_or_change (lk_epochs c) s st
         then stateh_link (state_hashables st) else u256_ZERO)
  end.

Definition find_dependent_blocks (c : LedgerConstants) (b : SavedBlock) : DependentBlocks :=
  sv_dependent_blocks b (lk_epochs c) (lk_genesis_account c).

Definition dependents_confirmed (c : LedgerConstants) (s : LmdbStore) (b : SavedBlock) : bool :=
  forallb (confirmed_block_exists s) (dependents_iter (find_dependent_blocks c b)).

Definition dependents_confirmed_for_unsaved_block (c : LedgerConstants) (s : LmdbStore)
    (b : Block) : bool :=
  forallb (confirmed_block_exists s)
    (dependents_iter (find_dependent_blocks_for_unsaved_block c s b)).
