(* ===== verification/Validation.v ===== *)
(** * Block validation (ledger/src/block_insertion/validation, validator_factory.rs)

    [BlockValidator] is the snapshot of the ledger a block is judged against,
    [validate] the fourteen checks in the order of the source, and
    [create_instructions] the update the inserter performs. [create_validator]
    fills the snapshot from a view of the ledger. *)

From S2P Require Import Prelude Types Blocks Codec Work Store Sets.

Inductive BlockError :=
  | BadSignature | Old | NegativeSpend | Fork | Unreceivable | GapPrevious | GapSource
  | GapEpochOpenPending | OpenedBurnAccount | BalanceMismatch | RepresentativeMismatch
  | BlockPosition | InsufficientWork | Conflict.

#[global] Instance BlockError_eq_dec : EqDecision BlockError.
Proof. solve_decision. Defined.

Record BlockInsertInstructions := mkBlockInsertInstructions {
  ins_account : Account;
  ins_old_account_info : AccountInfo;
  ins_set_account_info : AccountInfo;
  ins_delete_pending : option PendingKey;
  ins_insert_pending : option (PendingKey * PendingInfo);
  ins_set_sideband : BlockSideband;
  ins_is_epoch_block : bool;
}.

Record BlockValidator := mkBlockValidator {
  v_block : Block;
  v_epochs : Epochs;
  v_work : WorkThresholds;
  v_block_exists : bool;
  v_account : Account;
  v_previous_block : option SavedBlock;
  v_old_account_info : option AccountInfo;
  v_pending_receive_info : option PendingInfo;
  v_any_pending_exists : bool;
  v_source_block_exists : bool;
  v_now : Z;
}.

Abbreviation check := (result BlockError unit).

(** ** helpers.rs *)

Definition account_exists (v : BlockValidator) : bool := bool_decide (is_Some (v_old_account_info v)).
Definition is_new_account (v : BlockValidator) : bool := negb (account_exists v).

Definition previous_balance (v : BlockValidator) : Amount :=
  default amount_ZERO (sv_balance <$> v_previous_block v).

Definition is_send (v : BlockValidator) : bool :=
  match v_block v with
  | LegacySend _ => true
  | State state =>
      match v_old_account_info v with
      | Some info => stateh_balance (state_hashables state) <? ai_balance info
      | None => false
      end
  | _ => false
  end.

Definition has_epoch_link (v : BlockValidator) (state : StateBlock) : bool :=
  is_epoch_link (v_epochs v) (stateh_link (state_hashables state)).

Definition is_receive (v : BlockValidator) : bool :=
  match v_block v with
  | LegacyReceive _ | LegacyOpen _ => true
  | State state =>
      if has_epoch_link v state then false else
      match v_old_account_info v with
      | Some info => (ai_balance info <=? stateh_balance (state_hashables state))
                     && negb (u256_is_zero (stateh_link (state_hashables state)))
      | None => true
      end
  | _ => false
  end.

Definition source_epoch (v : BlockValidator) : Epoch :=
  default Epoch0 (pi_epoch <$> v_pending_receive_info v).

Definition pending_amount (v : BlockValidator) : Amount :=
  default amount_ZERO (pi_amount <$> v_pending_receive_info v).

Definition amount_received (v : BlockValidator) : Amount :=
  match v_block v with
  | LegacyReceive _ | LegacyOpen _ => pending_amount v
  | State state =>
      let previous := previous_balance v in
      if previous <? stateh_balance (state_hashables state)
      then amount_sub (stateh_balance (state_hashables state)) previous
      else amount_ZERO
  | _ => amount_ZERO
  end.

Definition amount_sent (v : BlockValidator) : Amount :=
  match v_old_account_info v with
  | Some info =>
      match (match v_block v with
             | LegacySend i => Some (sendh_balance (send_hashables i))
             | State i => Some (stateh_balance (state_hashables i))
             | _ => None
             end) with
      | Some balance => if balance <? ai_balance info then amount_sub (ai_balance info) balance
                        else amount_ZERO
      | None => amount_ZERO
      end
  | None => amount_ZERO
  end.

Definition old_balance (v : BlockValidator) : Amount :=
  default amount_ZERO (ai_balance <$> v_old_account_info v).

Definition new_balance (v : BlockValidator) : Amount :=
  amount_sub (amount_add (old_balance v) (amount_received v)) (amount_sent v).

Definition is_epoch_block (v : BlockValidator) : bool :=
  match v_block v with
  | State state => has_epoch_link v state
                   && (previous_balance v =? stateh_balance (state_hashables state))
  | _ => false
  end.

Definition block_epoch_version (v : BlockValidator) : Epoch :=
  match v_block v with
  | State state => default Invalid (epochs_epoch (v_epochs v) (stateh_link (state_hashables state)))
  | _ => Epoch0
  end.

Definition old_epoch_version (v : BlockValidator) : Epoch :=
  default Epoch0 (ai_epoch <$> v_old_account_info v).

Definition block_epoch (v : BlockValidator) : Epoch :=
  if is_epoch_block v then block_epoch_version v
  else epoch_max (old_epoch_version v) (source_epoch v).

Definition open_block (v : BlockValidator) : BlockHash :=
  match v_old_account_info v with
  | Some info => ai_open_block info
  | None => block_hash (v_block v)
  end.

Definition old_representative (v : BlockValidator) : PublicKey :=
  default u256_ZERO (ai_representative <$> v_old_account_info v).

Definition new_representative (v : BlockValidator) : PublicKey :=
  default (old_representative v) (representative_field (v_block v)).

Definition amount (v : BlockValidator) : Amount :=
  if new_balance v <? old_balance v then amount_sub (old_balance v) (new_balance v)
  else amount_sub (new_balance v) (old_balance v).

Definition delete_received_pending_info (v : BlockValidator) : option PendingKey :=
  if is_receive v then Some (mkPendingKey (v_account v) (source_or_link (v_block v))) else None.

Definition new_pending_info (v : BlockValidator) : option (PendingKey * PendingInfo) :=
  match v_block v with
  | State _ =>
      if is_send v then
        Some (pending_key_for_send_block (v_block v),
              mkPendingInfo (v_account v) (amount v) (block_epoch v))
      else None
  | LegacySend send =>
      Some (mkPendingKey (sendh_destination (send_hashables send)) (send_hash send),
            mkPendingInfo (v_account v) (amount_sent v) Epoch0)
  | _ => None
  end.

(** [u64] addition: wraps in a release build. *)
Definition new_block_count (v : BlockValidator) : Z :=
  wrap 64 (default 0 (ai_block_count <$> v_old_account_info v) + 1).

Definition block_details (v : BlockValidator) : BlockDetails :=
  mkBlockDetails (block_epoch v) (is_send v) (is_receive v) (is_epoch_block v).

Definition new_sideband (v : BlockValidator) : BlockSideband :=
  mkBlockSideband (new_block_count v) (v_now v) (v_account v) (new_balance v) (block_details v)
    (source_epoch v).

(** [UnixTimestamp::from(UnixMillisTimestamp)] divides by 1000. *)
Definition new_account_info (v : BlockValidator) : AccountInfo :=
  mkAccountInfo (block_hash (v_block v)) (new_representative v) (open_block v) (new_balance v)
    (v_now v / 1000) (new_block_count v) (block_epoch v).

Definition balance_changed (v : BlockValidator) : bool :=
  match v_old_account_info v with
  | Some info => negb (new_balance v =? ai_balance info)
  | None => false
  end.

(** ** common_rules.rs *)

Definition ensure_block_does_not_exist_yet (v : BlockValidator) : check :=
  if v_block_exists v then Err Old else Ok tt.

Definition ensure_account_exists_for_none_open_block (v : BlockValidator) : check :=
  if negb (is_open (v_block v)) && is_new_account v then Err GapPrevious else Ok tt.

Definition ensure_previous_block_exists (v : BlockValidator) : check :=
  if account_exists v && bool_decide (v_previous_block v = None) then Err GapPrevious
  else if is_new_account v && negb (u256_is_zero (previous (v_block v))) then Err GapPrevious
  else Ok tt.

Definition ensure_previous_block_is_account_head (v : BlockValidator) : check :=
  match v_old_account_info v with
  | Some info => if negb (previous (v_block v) =? ai_head info) then Err Fork else Ok tt
  | None => Ok tt
  end.

Definition ensure_previous_block_is_correct (v : BlockValidator) : check :=
  ensure_previous_block_exists v;; ensure_previous_block_is_account_head v.

Definition ensure_sufficient_work (v : BlockValidator) : check :=
  if negb (is_valid_pow (v_work v) (v_block v) (block_details v)) then Err InsufficientWork
  else Ok tt.

Definition ensure_valid_predecessor (v : BlockValidator) : check :=
  if u256_is_zero (previous (v_block v)) then Ok tt else
  match v_previous_block v with
  | None => Err GapPrevious
  | Some previous =>
      if negb (valid_predecessor (v_block v) (block_type previous)) then Err BlockPosition
      else Ok tt
  end.

(** ** open_block_rules.rs, send_block_rules.rs, receive_block_rules.rs *)

Definition ensure_block_is_not_for_burn_account (v : BlockValidator) : check :=
  if u256_is_zero (v_account v) then Err OpenedBurnAccount else Ok tt.

Definition ensure_no_double_account_open (v : BlockValidator) : check :=
  if account_exists v && is_open (v_block v) then Err Fork else Ok tt.

Definition ensure_open_block_has_link (v : BlockValidator) : check :=
  match v_block v with
  | State state =>
      if is_open (v_block v) && u256_is_zero (stateh_link (state_hashables state))
      then Err GapSource else Ok tt
  | _ => Ok tt
  end.

Definition ensure_no_reveive_balance_change_without_link (v : BlockValidator) : check :=
  match v_block v with
  | State state =>
      if u256_is_zero (stateh_link (state_hashables state))
         && negb (amount_is_zero (amount_received v))
      then Err BalanceMismatch else Ok tt
  | _ => Ok tt
  end.

Definition ensure_no_negative_amount_send (v : BlockValidator) : check :=
  match v_block v with
  | LegacySend send =>
      if previous_balance v <? sendh_balance (send_hashables send) then Err NegativeSpend else Ok tt
  | _ => Ok tt
  end.

Definition ensure_source_block_exists (v : BlockValidator) : check :=
  if is_receive v && negb (v_source_block_exists v) then Err GapSource else Ok tt.

Definition ensure_receive_block_receives_pending_amount (v : BlockValidator) : check :=
  if is_receive v then
    match v_pending_receive_info v with
    | Some pending =>
        if negb (amount_received v =? pi_amount pending) then Err BalanceMismatch else Ok tt
    | None => Err Unreceivable
    end
  else Ok tt.

Definition ensure_legacy_source_is_epoch_0 (v : BlockValidator) : check :=
  let is_legacy_receive :=
    match v_block v with LegacyReceive _ | LegacyOpen _ => true | _ => false end in
  if is_legacy_receive
     && negb (bool_decide (default epoch_default (pi_epoch <$> v_pending_receive_info v) = Epoch0))
  then Err Unreceivable else Ok tt.

Definition ensure_pending_receive_is_correct (v : BlockValidator) : check :=
  ensure_source_block_exists v;;
  ensure_receive_block_receives_pending_amount v;;
  ensure_legacy_source_is_epoch_0 v.

(** ** epoch_block_rules.rs *)

Definition ensure_epoch_block_does_not_change_representative (v : BlockValidator) : check :=
  match v_block v with
  | State state =>
      if is_epoch_block v then
        match v_old_account_info v with
        | Some info =>
            if negb (stateh_representative (state_hashables state) =? ai_representative info)
            then Err RepresentativeMismatch else Ok tt
        | None => Ok tt
        end
      else Ok tt
  | _ => Ok tt
  end.

Definition ensure_epoch_open_has_burn_account_as_rep (v : BlockValidator) : check :=
  match v_block v with
  | State state =>
      if is_epoch_block v && is_open (v_block v)
         && negb (u256_is_zero (stateh_representative (state_hashables state)))
      then Err RepresentativeMismatch else Ok tt
  | _ => Ok tt
  end.

Definition ensure_epoch_open_has_pending_entry (v : BlockValidator) : check :=
  if is_open (v_block v) && is_epoch_block v && negb (v_any_pending_exists v)
  then Err GapEpochOpenPending else Ok tt.

Definition ensure_valid_epoch_for_unopened_account (v : BlockValidator) : check :=
  if is_open (v_block v) && is_epoch_block v && bool_decide (block_epoch_version v = Invalid)
  then Err BlockPosition else Ok tt.

Definition ensure_epoch_upgrade_is_sequential_for_existing_account (v : BlockValidator) : check :=
  if is_epoch_block v then
    match v_old_account_info v with
    | Some info => if negb (is_sequential (ai_epoch info) (block_epoch_version v))
                   then Err BlockPosition else Ok tt
    | None => Ok tt
    end
  else Ok tt.

Definition ensure_epoch_block_does_not_change_balance (v : BlockValidator) : check :=
  if is_epoch_block v && balance_changed v then Err BalanceMismatch else Ok tt.

Definition ensure_valid_epoch_block (v : BlockValidator) : check :=
  ensure_epoch_block_does_not_change_representative v;;
  ensure_epoch_open_has_burn_account_as_rep v;;
  ensure_epoch_open_has_pending_entry v;;
  ensure_valid_epoch_for_unopened_account v;;
  ensure_epoch_upgrade_is_sequential_for_existing_account v;;
  ensure_epoch_block_does_not_change_balance v.

Definition ensure_previous_block_exists_for_epoch_block_candidate (v : BlockValidator) : check :=
  match v_block v with
  | State state =>
      if has_epoch_link v state && negb (u256_is_zero (previous (v_block v)))
         && bool_decide (v_previous_block v = None)
      then Err GapPrevious else Ok tt
  | _ => Ok tt
  end.

Section validate.
Context `{Crypto}.

Definition ensure_valid_signature (v : BlockValidator) : check :=
  let result :=
    if is_epoch_block v then validate_epoch_signature (v_epochs v) (v_block v)
    else verify (v_account v) (u256_serialize (block_hash (v_block v))) (block_signature (v_block v)) in
  if result then Ok tt else Err BadSignature.

Definition ensure_epoch_block_candidate_is_signed_by_owner_or_epoch_account (v : BlockValidator)
    : check :=
  match v_block v with
  | State state =>
      if has_epoch_link v state
         && (negb (state_verify_signature state)
             && negb (validate_epoch_signature (v_epochs v) (v_block v)))
      then Err BadSignature else Ok tt
  | _ => Ok tt
  end.

Definition epoch_block_pre_checks (v : BlockValidator) : check :=
  ensure_epoch_block_candidate_is_signed_by_owner_or_epoch_account v;;
  ensure_previous_block_exists_for_epoch_block_candidate v.

Definition create_instructions (v : BlockValidator) : BlockInsertInstructions :=
  mkBlockInsertInstructions (v_account v) (default account_info_default (v_old_account_info v))
    (new_account_info v) (delete_received_pending_info v) (new_pending_info v) (new_sideband v)
    (is_epoch_block v).

Definition validate (v : BlockValidator) : result BlockError BlockInsertInstructions :=
  epoch_block_pre_checks v;;
  ensure_block_does_not_exist_yet v;;
  ensure_valid_predecessor v;;
  ensure_valid_signature v;;
  ensure_block_is_not_for_burn_account v;;
  ensure_account_exists_for_none_open_block v;;
  ensure_no_double_account_open v;;
  ensure_previous_block_is_correct v;;
  ensure_open_block_has_link v;;
  ensure_no_reveive_balance_change_without_link v;;
  ensure_pending_receive_is_correct v;;
  ensure_sufficient_work v;;
  ensure_no_negative_amount_send v;;
  ensure_valid_epoch_block v;;
  Ok (create_instructions v).

End validate.

(** ** validator_factory.rs *)

Definition load_previous_block (s : LmdbStore) (b : Block) : option SavedBlock :=
  if negb (u256_is_zero (previous b)) then any_get_block s (previous b) else None.

Definition get_account (b : Block) (previous : option SavedBlock) : option Account :=
  match account_field b with
  | Some account => Some account
  | None => sv_account <$> previous
  end.

Definition create_validator (c : LedgerConstants) (s : LmdbStore) (now : Z) (b : Block)
    : BlockValidator :=
  let previous_block := load_previous_block s b in
  let account := default u256_ZERO (get_account b previous_block) in
  let source_block := source_or_link b in
  mkBlockValidator b (lk_epochs c) (lk_work c) (any_block_exists s (block_hash b)) account
    previous_block (any_get_account s account)
    (if u256_is_zero source_block then None
     else any_get_pending s (mkPendingKey account source_block))
    (receivable_exists s account)
    (negb (u256_is_zero source_block) && any_block_exists s source_block) now.
