(* ===== verification/Insertion.v ===== *)
(** * Block insertion (ledger/src/block_insertion/block_inserter.rs, ledger.rs)

    [insert] carries out the instructions of a validated block, [process_batch]
    validates a batch against a read transaction and inserts it in a write
    transaction. The two transactions may see different states: other writers
    can commit between them. [None] is a panic. *)

From S2P Require Import Prelude Types Blocks Codec Work Store RepWeights Sets Validation.

(** An entry of [BatchProcessResult]. *)
Abbreviation processed := (result BlockError unit * option SavedBlock)%type.

(** ** Ledger::update_account

    The [debug_assert!]s of the source are not part of a release build. *)

Section insertion.
Context `{LmdbEngine}.
Variable min_weight : Amount.

Definition update_account (s : LmdbStore) (account : Account) (old_info new_info : AccountInfo)
    : option LmdbStore :=
  if negb (u256_is_zero (ai_head new_info)) then
    let s1 := if u256_is_zero (ai_head old_info) && (ai_open_block new_info =? ai_head new_info)
              then add_account_count 1 s else s in
    s2 ← (if negb (u256_is_zero (ai_head old_info))
             && negb (bool_decide (ai_epoch old_info = ai_epoch new_info))
          then account_del s1 account else Some s1);
    Some (account_put s2 account new_info)
  else
    s1 ← account_del s account;
    Some (add_account_count (-1) s1).

(** ** BlockInserter *)

Definition get_current_account_info (s : LmdbStore) (i : BlockInsertInstructions) : AccountInfo :=
  default account_info_default (account_get s (ins_account i)).

Definition account_changed_since_validation (s : LmdbStore) (i : BlockInsertInstructions) : bool :=
  negb (ai_head (get_current_account_info s i) =? ai_head (ins_old_account_info i)).

Definition delete_old_pending_info (s : LmdbStore) (i : BlockInsertInstructions) : option LmdbStore :=
  match ins_delete_pending i with
  | Some key => pending_del s key
  | None => Some s
  end.

Definition insert_new_pending_info (s : LmdbStore) (i : BlockInsertInstructions) : LmdbStore :=
  match ins_insert_pending i with
  | Some (key, info) => pending_put s key info
  | None => s
  end.

Definition update_representative_cache (s : LmdbStore) (i : BlockInsertInstructions)
    : option LmdbStore :=
  if negb (u256_is_zero (ai_head (ins_old_account_info i))) then
    representation_add_dual min_weight s
      (ai_representative (ins_old_account_info i))
      (wrapping_sub amount_ZERO (ai_balance (ins_old_account_info i)))
      (ai_representative (ins_set_account_info i))
      (ai_balance (ins_set_account_info i))
  else
    representation_add min_weight s
      (ai_representative (ins_set_account_info i)) (ai_balance (ins_set_account_info i)).

Definition insert_successor (s : LmdbStore) (b : SavedBlock) : LmdbStore :=
  if negb (u256_is_zero (previous b)) then successor_put s (previous b) (block_hash b) else s.

Definition insert (s : LmdbStore) (b : Block) (i : BlockInsertInstructions)
    : option (option SavedBlock * LmdbStore) :=
  if account_changed_since_validation s i then Some (None, s) else
  let saved_block := mkSavedBlock b (ins_set_sideband i) in
  s1 ← block_put s saved_block;
  let s2 := insert_successor s1 saved_block in
  s3 ← update_account s2 (ins_account i) (ins_old_account_info i) (ins_set_account_info i);
  s4 ← delete_old_pending_info s3 i;
  let s5 := insert_new_pending_info s4 i in
  s6 ← update_representative_cache s5 i;
  Some (Some saved_block, add_block_count 1 s6).

(** ** Ledger::process_batch *)

Definition validate_batch `{Crypto} (c : LedgerConstants) (snapshot : LmdbStore)
    (batch : list (Z * Block)) : list (result BlockError BlockInsertInstructions * Block) :=
  map (fun '(now, b) => (validate (create_validator c snapshot now b), b)) batch.

Fixpoint insert_batch (s : LmdbStore)
    (results : list (result BlockError BlockInsertInstructions * Block))
    : option (list processed * LmdbStore) :=
  match results with
  | [] => Some ([], s)
  | (Ok instructions, block) :: results =>
      r ← insert s block instructions;
      let '(saved, s1) := r in
      r' ← insert_batch s1 results;
      Some ((match saved with Some b => (Ok tt, Some b) | None => (Err Conflict, None) end) :: r'.1,
            r'.2)
  | (Err err, _) :: results =>
      r' ← insert_batch s results;
      Some ((Err err, None) :: r'.1, r'.2)
  end.

(** [snapshot] is the state of the read transaction, [s] that of the write
    transaction; each block comes with the time it is validated at. *)
Definition process_batch `{Crypto} (c : LedgerConstants) (snapshot s : LmdbStore)
    (batch : list (Z * Block)) : option (list processed * LmdbStore) :=
  insert_batch s (validate_batch c snapshot batch).

Definition process_one `{Crypto} (c : LedgerConstants) (snapshot s : LmdbStore) (now : Z) (b : Block)
    : option (result BlockError SavedBlock * LmdbStore) :=
  r ← process_batch c snapshot s [(now, b)];
  match r with
  | ((Ok _, Some b) :: _, s') => Some (Ok b, s')
  | ((Err e, _) :: _, s') => Some (Err e, s')
  | _ => None
  end.

(** ** Ledger::add_genesis_block, Ledger::initialize *)

Definition add_genesis_block (c : LedgerConstants) (s : LmdbStore) : option LmdbStore :=
  let genesis_hash := block_hash (lk_genesis_block c) in
  let genesis_account := lk_genesis_account c in
  s1 ← block_put s (lk_genesis_block c);
  let s2 := conf_height_put s1 genesis_account (mkConfirmationHeightInfo 1 genesis_hash) in
  let s3 := account_put s2 genesis_account
              (mkAccountInfo genesis_hash genesis_account genesis_hash u128_max 0 1 Epoch0) in
  Some (rep_weight_put s3 genesis_account amount_MAX).

(** One chunk of accounts of the parallel scan: counts and partial weights. *)
Definition chunk_weights (chunk : list AccountInfo) : RepWeights :=
  fold_left (fun w i =>
    if negb (amount_is_zero (ai_balance i))
    then <[ai_representative i := amount_add (weight_of w (ai_representative i)) (ai_balance i)]> w
    else w) chunk ∅.

Definition scan_chunk (s : LmdbStore) (chunk : list AccountInfo) : LmdbStore :=
  let s1 := add_block_count (fold_left (fun n i => wrap 64 (n + ai_block_count i)) chunk 0) s in
  let s2 := add_account_count (Z.of_nat (length chunk)) s1 in
  set_weights (copy_from min_weight (st_weights s2) (map_to_list (chunk_weights chunk))) s2.

Definition scan_conf_chunk (s : LmdbStore) (chunk : list ConfirmationHeightInfo) : LmdbStore :=
  add_confirmed_count (fold_left (fun n i => wrap 64 (n + ch_height i)) chunk 0) s.

(** The chunks are the parts the threads scan, in the order they finish, with
    all cache flags set. *)
Definition initialize (c : LedgerConstants) (s : LmdbStore)
    (chunks : list (list AccountInfo)) (conf_chunks : list (list ConfirmationHeightInfo))
    : option LmdbStore :=
  s1 ← (if bool_decide (st_account s = ∅) then add_genesis_block c s else Some s);
  Some (fold_left scan_conf_chunk conf_chunks (fold_left scan_chunk chunks s1)).

End insertion.
