(* ===== verification/Effect.v ===== *)
(** * What a validated block does to balances and pending entries

    [validated_as] classifies the instructions of an accepted block as a send,
    a receive or neither, in terms of exact (unbounded) arithmetic: the theorem
    [validate_classifies] shows that the wrapping [u128] operations of the
    validator never wrap on a consistent snapshot. A state block with an epoch
    link that raises the balance is set apart by [mints]. *)

From S2P Require Import Prelude Types Blocks Codec Work Store Sets Validation.

(** A state block whose link is an epoch link and that raises the balance. *)
Definition mints (v : BlockValidator) : bool :=
  match v_block v with
  | State state => has_epoch_link v state
                   && (previous_balance v <? stateh_balance (state_hashables state))
  | _ => false
  end.

Record snapshot_ok (v : BlockValidator) : Prop := {
  so_head : forall i, v_old_account_info v = Some i -> previous (v_block v) = ai_head i ->
            previous_balance v = ai_balance i;
  so_open : previous (v_block v) = 0 -> v_previous_block v = None;
  so_balance : in_u 128 (old_balance v);
  so_field : in_u 128 (default 0 (balance_field (v_block v)));
  so_room : forall p, is_receive v = true -> v_pending_receive_info v = Some p ->
            0 <= pi_amount p /\ old_balance v + pi_amount p <= u128_max;
}.

Inductive validated_as (v : BlockValidator) (i : BlockInsertInstructions) : Prop :=
  | as_send e :
      is_send v = true -> is_receive v = false ->
      0 <= ai_balance (ins_set_account_info i) <= old_balance v ->
      ins_delete_pending i = None ->
      ins_insert_pending i =
        Some (mkPendingKey (destination_or_link (v_block v)) (block_hash (v_block v)),
              mkPendingInfo (v_account v) (old_balance v - ai_balance (ins_set_account_info i)) e) ->
      validated_as v i
  | as_receive p :
      is_send v = false -> is_receive v = true ->
      v_pending_receive_info v = Some p -> v_source_block_exists v = true ->
      ai_balance (ins_set_account_info i) = old_balance v + pi_amount p ->
      ins_delete_pending i = Some (mkPendingKey (v_account v) (source_or_link (v_block v))) ->
      ins_insert_pending i = None ->
      validated_as v i
  | as_neutral :
      is_send v = false -> is_receive v = false ->
      ai_balance (ins_set_account_info i) = old_balance v ->
      ins_delete_pending i = None -> ins_insert_pending i = None ->
      validated_as v i.

(** ** The checks as facts *)

(** Reduces a passed check to the negation of its error condition. *)
Ltac check_facts H :=
  match type of H with
  | (if ?c then _ else _) = Ok _ => let E := fresh "E" in destruct c eqn:E; [discriminate H|]
  end;
  try match type of H with Ok _ = Ok _ => clear H end.

Section facts.
Context `{Crypto}.

Lemma validate_instructions v i : validate v = Ok i -> i = create_instructions v.
Proof. unfold validate. intros Hv. inv_ok Hv. by inversion Hv. Qed.

(** The position of an accepted block in its account chain. *)
Lemma validate_position v i :
  validate v = Ok i ->
  v_account v <> 0 /\ v_block_exists v = false /\
  match v_old_account_info v with
  | Some info => previous (v_block v) = ai_head info /\ is_open (v_block v) = false /\
                 is_Some (v_previous_block v)
  | None => previous (v_block v) = 0 /\ is_open (v_block v) = true
  end /\
  (previous (v_block v) <> 0 -> exists p, v_previous_block v = Some p /\
     valid_predecessor (v_block v) (block_type p) = true).
Proof.
  unfold validate. intros Hv. inv_ok Hv.
  rename Hok0 into Hex, Hok1 into Hpred, Hok3 into Hburn, Hok4 into Hnew, Hok5 into Hopen,
    Hok6 into Hprev. clear - Hex Hpred Hburn Hnew Hopen Hprev.
  unfold ensure_block_does_not_exist_yet in Hex. check_facts Hex.
  unfold ensure_block_is_not_for_burn_account in Hburn. check_facts Hburn.
  unfold ensure_account_exists_for_none_open_block in Hnew. check_facts Hnew.
  unfold ensure_no_double_account_open in Hopen. check_facts Hopen.
  unfold ensure_previous_block_is_correct in Hprev. inv_ok Hprev.
  rename Hok into Hpe. unfold ensure_previous_block_exists in Hpe. check_facts Hpe. check_facts Hpe.
  unfold ensure_previous_block_is_account_head in Hprev.
  unfold ensure_valid_predecessor in Hpred.
  unfold is_new_account, account_exists in *.
  split; [by destruct (u256_is_zero_spec (v_account v))|]. split; [done|]. split.
  - destruct (v_old_account_info v) as [info|].
    + check_facts Hprev. prop_bools. split; [done|]. split; [by destruct (is_open _)|].
      destruct (v_previous_block v); [done|]. by rewrite bool_decide_true in E2.
    + split.
      * by destruct (u256_is_zero_spec (previous (v_block v))).
      * by destruct (is_open (v_block v)).
  - intros Hne. destruct (u256_is_zero_spec (previous (v_block v))); [done|].
    destruct (v_previous_block v) as [p|]; [|done]. exists p. split; [done|].
    destruct (valid_predecessor _ _); [done|discriminate].
Qed.

(** What the checks say about amounts. *)
Lemma validate_amounts v i :
  validate v = Ok i ->
  (is_receive v = true ->
     v_source_block_exists v = true /\
     exists p, v_pending_receive_info v = Some p /\ amount_received v = pi_amount p /\
       (is_legacy (v_block v) = true -> pi_epoch p = Epoch0)) /\
  match v_block v with
  | LegacySend b => sendh_balance (send_hashables b) <= previous_balance v
  | State b => stateh_link (state_hashables b) = 0 -> amount_received v = 0
  | _ => True
  end.
Proof.
  unfold validate. intros Hv. inv_ok Hv.
  rename Hok8 into Hlink, Hok9 into Hpend, Hok11 into Hneg. clear - Hlink Hpend Hneg.
  unfold ensure_pending_receive_is_correct in Hpend. inv_ok Hpend.
  unfold ensure_source_block_exists in Hok. check_facts Hok.
  unfold ensure_receive_block_receives_pending_amount in Hok0.
  unfold ensure_legacy_source_is_epoch_0 in Hpend. check_facts Hpend. split.
  - intros Hr. rewrite Hr in *. split; [by destruct (v_source_block_exists v)|].
    destruct (v_pending_receive_info v) as [p|]; [|done]. exists p. split; [done|].
    check_facts Hok0. prop_bools. split; [done|]. intros Hl. cbn in E0.
    unfold is_receive in Hr. destruct (v_block v); try done;
      (destruct (decide (pi_epoch p = Epoch0)); [done|]; by rewrite bool_decide_false in E0).
  - unfold ensure_no_reveive_balance_change_without_link in Hlink.
    unfold ensure_no_negative_amount_send in Hneg.
    destruct (v_block v) as [b|b|b|b|b]; try done.
    + check_facts Hneg. by prop_bools.
    + intros Hz. check_facts Hlink. rewrite Hz in E1. cbn in E1.
      by destruct (amount_is_zero_spec (amount_received v)).
Qed.

End facts.

(** ** Classification *)

Lemma amount_sub_exact a b : in_u 128 a -> 0 <= b <= a -> amount_sub a b = a - b.
Proof. unfold in_u. intros. apply wrap_small. unfold in_u. lia. Qed.

Lemma amount_add_exact a b : 0 <= a -> 0 <= b -> a + b <= u128_max -> amount_add a b = a + b.
Proof. unfold u128_max. intros. apply wrap_small. unfold in_u. lia. Qed.

(** Replaces the wrapping operations by the exact ones, innermost first. *)
Ltac exact_amounts :=
  repeat match goal with
  | |- context [amount_sub ?a ?b] =>
      rewrite (amount_sub_exact a b) by (unfold in_u, u128_max in *; lia)
  | |- context [amount_add ?a ?b] =>
      rewrite (amount_add_exact a b) by (unfold in_u, u128_max in *; lia)
  end.

Lemma new_balance_state v b :
  v_block v = State b -> snapshot_ok v ->
  match v_old_account_info v with
  | Some i => previous (v_block v) = ai_head i
  | None => previous (v_block v) = 0
  end ->
  previous_balance v = old_balance v /\ new_balance v = stateh_balance (state_hashables b).
Proof.
  intros Hb [Hh Ho Hbal Hf _] Hp.
  assert (previous_balance v = old_balance v) as E.
  { unfold old_balance. destruct (v_old_account_info v) as [i|]; [by apply Hh|].
    unfold previous_balance. by rewrite (Ho Hp). }
  split; [done|]. rewrite Hb in Hf. cbn in Hf.
  unfold new_balance, amount_received, amount_sent. rewrite Hb, E. clear Hh Ho Hp E.
  unfold old_balance in *. unfold amount_ZERO in *.
  destruct (v_old_account_info v) as [i|]; cbn in *; repeat case_test; exact_amounts;
    unfold in_u in *; lia.
Qed.

Section classify.
Context `{Crypto}.

Lemma validate_head v i :
  validate v = Ok i ->
  match v_old_account_info v with
  | Some info => previous (v_block v) = ai_head info
  | None => previous (v_block v) = 0
  end.
Proof.
  intros (_ & _ & Hp & _)%validate_position. by destruct (v_old_account_info v), Hp.
Qed.

Lemma new_balance_send v i b :
  v_block v = LegacySend b -> snapshot_ok v -> validate v = Ok i ->
  0 <= sendh_balance (send_hashables b) <= old_balance v /\
  is_Some (v_old_account_info v) /\ new_balance v = sendh_balance (send_hashables b).
Proof.
  intros Eb [Hh _ Hbal Hf _] Hv. pose proof (validate_amounts _ _ Hv) as [_ Hle].
  pose proof (validate_position _ _ Hv) as (_ & _ & Hpos & _). rewrite Eb in Hle, Hf. cbn in Hf.
  unfold new_balance, amount_received, amount_sent, old_balance in *.
  destruct (v_old_account_info v) as [info|] eqn:Ei; [|by rewrite Eb in Hpos; destruct Hpos].
  rewrite (Hh info eq_refl (proj1 Hpos)) in Hle. clear Hh Hpos. cbn in *.
  split; [unfold in_u in Hf; lia|]. split; [done|].
  rewrite Eb. unfold amount_ZERO. case_test; exact_amounts; lia.
Qed.

Lemma classify_legacy_send v i b :
  v_block v = LegacySend b -> snapshot_ok v -> validate v = Ok i -> validated_as v i.
Proof.
  intros Eb Hs Hv. destruct (new_balance_send v i b Eb Hs Hv) as (Hle & [info Ei] & Enb).
  pose proof (validate_instructions _ _ Hv) as ->. pose proof (so_balance _ Hs) as Hbal.
  unfold old_balance in *. rewrite Ei in *. cbn in Hle, Hbal.
  eapply as_send; unfold is_send, is_receive; rewrite ?Eb; try done; cbn -[amount_sub];
    rewrite ?Enb; unfold old_balance; rewrite ?Ei; cbn -[amount_sub].
  - lia.
  - unfold delete_received_pending_info, is_receive. by rewrite Eb.
  - unfold new_pending_info. rewrite Eb. do 3 f_equal. unfold amount_sent.
    rewrite Ei, Eb. unfold amount_ZERO. case_test; exact_amounts; lia.
Qed.

Lemma classify_legacy_receive v i :
  match v_block v with LegacyReceive _ | LegacyOpen _ => True | _ => False end ->
  snapshot_ok v -> validate v = Ok i -> validated_as v i.
Proof.
  intros Eb Hs Hv. pose proof (validate_amounts _ _ Hv) as [Hr _].
  pose proof (validate_instructions _ _ Hv) as ->.
  assert (is_receive v = true) as Er by (unfold is_receive; by destruct (v_block v)).
  destruct (Hr Er) as (Hsrc & p & Hpend & Hamt & _).
  destruct (so_room _ Hs _ Er Hpend). destruct (so_balance _ Hs).
  eapply as_receive; try done.
  - unfold is_send. by destruct (v_block v).
  - cbn. unfold new_balance, amount_sent. rewrite Hamt. unfold amount_ZERO.
    destruct (v_block v), (v_old_account_info v); try done; exact_amounts; lia.
  - cbn. unfold delete_received_pending_info. by rewrite Er.
  - cbn. unfold new_pending_info. by destruct (v_block v).
Qed.

Lemma classify_legacy_change v i b :
  v_block v = LegacyChange b -> snapshot_ok v -> validate v = Ok i -> validated_as v i.
Proof.
  intros Eb Hs Hv. pose proof (validate_instructions _ _ Hv) as ->. destruct (so_balance _ Hs).
  apply as_neutral; unfold is_send, is_receive; rewrite ?Eb; try done; cbn.
  - unfold new_balance, amount_sent, amount_received. rewrite Eb. unfold amount_ZERO.
    destruct (v_old_account_info v); exact_amounts; lia.
  - unfold delete_received_pending_info, is_receive. by rewrite Eb.
  - unfold new_pending_info. by rewrite Eb.
Qed.

Lemma classify_state v i b :
  v_block v = State b -> snapshot_ok v -> validate v = Ok i -> mints v = false -> validated_as v i.
Proof.
  intros Eb Hs Hv Hm. pose proof (validate_head _ _ Hv) as Hp.
  destruct (validate_amounts _ _ Hv) as [Hr Hl]. rewrite Eb in Hl.
  destruct (new_balance_state v b Eb Hs Hp) as [Epb Enb].
  pose proof (validate_instructions _ _ Hv) as ->. clear Hv Hp.
  destruct Hs as [_ _ Hbal Hf _]. rewrite Eb in Hf. cbn in Hf.
  unfold amount_received in Hr, Hl. unfold mints in Hm. rewrite Eb, Epb in Hr, Hl, Hm.
  unfold amount_ZERO in *.
  destruct (is_send v) eqn:Es; [|destruct (is_receive v) eqn:Er].
  - assert (stateh_balance (state_hashables b) < old_balance v) as Hlt.
    { unfold is_send, old_balance in *. rewrite Eb in Es.
      destruct (v_old_account_info v); [by prop_bools | done]. }
    assert (is_receive v = false) as Er.
    { unfold is_receive, old_balance in *. rewrite Eb. destruct (has_epoch_link v b); [done|].
      destruct (v_old_account_info v); cbn in *; [case_test; [lia|done]|].
      unfold in_u, amount_ZERO in *. lia. }
    eapply as_send; try done; cbn -[amount_sub]; rewrite ?Enb.
    + unfold in_u in *. lia.
    + unfold delete_received_pending_info. by rewrite Er.
    + unfold new_pending_info. rewrite Eb, Es. do 3 f_equal.
      unfold amount. rewrite Enb. case_test; exact_amounts; lia.
  - destruct (Hr eq_refl) as (Hsrc & p & Hpend & Hamt & _).
    assert (old_balance v <= stateh_balance (state_hashables b)) as Hge.
    { unfold is_send, old_balance in *. rewrite Eb in Es.
      destruct (v_old_account_info v); cbn; [by prop_bools|].
      unfold in_u, amount_ZERO in *. lia. }
    eapply as_receive; try done; cbn.
    + rewrite Enb, <- Hamt. case_test; exact_amounts; lia.
    + unfold delete_received_pending_info. by rewrite Er.
    + unfold new_pending_info. by rewrite Eb, Es.
  - apply as_neutral; try done; cbn.
    + rewrite Enb. unfold is_send, is_receive, old_balance in *. rewrite Eb in Es, Er.
      destruct (has_epoch_link v b); destruct (v_old_account_info v); cbn in *; prop_bools;
        try (unfold in_u, amount_ZERO in *; lia); try done.
      apply andb_false_iff in Er as [?|?]; prop_bools; [lia|].
      destruct (u256_is_zero_spec (stateh_link (state_hashables b))) as [E0|]; [|done].
      specialize (Hl E0). revert Hl. case_test; [exact_amounts|]; lia.
    + unfold delete_received_pending_info. by rewrite Er.
    + unfold new_pending_info. by rewrite Eb, Es.
Qed.

(** On a consistent snapshot, an accepted block that does not mint is a send,
    a receive of exactly the pending amount, or leaves the balance alone. *)
Lemma validate_classifies v i :
  snapshot_ok v -> validate v = Ok i -> mints v = false -> validated_as v i.
Proof.
  intros Hs Hv Hm. destruct (v_block v) eqn:Eb;
    eauto using classify_legacy_send, classify_legacy_change, classify_state.
  all: apply classify_legacy_receive; try done; by rewrite Eb.
Qed.
End classify.
