(* ===== verification/Chains.v ===== *)
(** * Account chains in the block and account tables

    The invariants that make the tables a set of account chains, and their
    preservation when a block is put on top of a chain ([appended]) or the
    head of a chain is taken away ([removed]). They speak about the tables
    only: block insertion and rollback both use them. *)

From S2P Require Import Prelude Types Blocks Codec Store.

Abbreviation block_table := (gmap BlockHash SavedBlock).
Abbreviation account_table := (gmap Account AccountInfo).

Definition prev_bal (tb : block_table) (b : SavedBlock) : Amount :=
  default 0 (sv_balance <$> tb !! previous b).

(** The representative of the newest block at or below a hash that names one. *)
Inductive rep_at (tb : block_table) : BlockHash -> PublicKey -> Prop :=
  | rep_here h (b : SavedBlock) r : tb !! h = Some b -> representative_field b = Some r -> rep_at tb h r
  | rep_below h (b : SavedBlock) r : tb !! h = Some b -> representative_field b = None ->
      rep_at tb (previous b) r -> rep_at tb h r.

Record blocks_ok (tb : block_table) : Prop := {
  bk_key : forall h (b : SavedBlock), tb !! h = Some b -> block_hash b = h /\ h <> 0;
  bk_stored : forall h (b : SavedBlock), tb !! h = Some b -> stored b = b;
  bk_amount : forall h (b : SavedBlock), tb !! h = Some b -> in_u 128 (sv_balance b);
  bk_account : forall h (b : SavedBlock), tb !! h = Some b -> sv_account b <> 0;
  bk_height : forall h (b : SavedBlock), tb !! h = Some b -> 1 <= sv_height b <= u64_max;
  bk_open : forall h (b : SavedBlock), tb !! h = Some b -> previous b = 0 ->
    sv_height b = 1 /\ is_open b = true;
  bk_prev : forall h (b : SavedBlock), tb !! h = Some b -> previous b <> 0 ->
    exists p, tb !! previous b = Some p /\ sv_account p = sv_account b /\
              sv_height b = sv_height p + 1;
  bk_unique : forall h1 (b1 : SavedBlock) h2 (b2 : SavedBlock), tb !! h1 = Some b1 -> tb !! h2 = Some b2 ->
    sv_account b1 = sv_account b2 -> sv_height b1 = sv_height b2 -> h1 = h2;
}.

Record accounts_ok (tb : block_table) (ta : account_table) : Prop := {
  ac_block : forall h (b : SavedBlock), tb !! h = Some b ->
    exists i, ta !! sv_account b = Some i /\ sv_height b <= ai_block_count i;
  ac_head : forall a i, ta !! a = Some i ->
    exists hb, tb !! ai_head i = Some hb /\ sv_account hb = a /\
      sv_height hb = ai_block_count i /\ sv_balance hb = ai_balance i /\ sv_epoch hb = ai_epoch i;
  ac_open : forall a i, ta !! a = Some i ->
    exists ob, tb !! ai_open_block i = Some ob /\ sv_account ob = a /\ sv_height ob = 1;
  ac_rep : forall a i, ta !! a = Some i -> rep_at tb (ai_head i) (ai_representative i);
}.

(** The successor table is the inverse of [previous]. *)
Definition succ_ok (tb : block_table) (ts : gmap BlockHash BlockHash) : Prop :=
  forall p h, ts !! p = Some h <-> p <> 0 /\ exists b : SavedBlock, tb !! h = Some b /\ previous b = p.

(** ** Appending a block *)

Record appended (tb : block_table) (ta : account_table) (b : SavedBlock) (i' : AccountInfo)
    : Prop := {
  ap_fresh : tb !! block_hash b = None;
  ap_hash : block_hash b <> 0;
  ap_stored : stored b = b;
  ap_amount : in_u 128 (sv_balance b);
  ap_account : sv_account b <> 0;
  ap_height : sv_height b <= u64_max;
  ap_position :
    match ta !! sv_account b with
    | None => previous b = 0 /\ sv_height b = 1 /\ ai_open_block i' = block_hash b /\
              representative_field b = Some (ai_representative i') /\ is_open b = true
    | Some i => previous b = ai_head i /\ sv_height b = ai_block_count i + 1 /\
                ai_open_block i' = ai_open_block i /\
                ai_representative i' = default (ai_representative i) (representative_field b)
    end;
  ap_head : ai_head i' = block_hash b;
  ap_count : ai_block_count i' = sv_height b;
  ap_balance : ai_balance i' = sv_balance b;
  ap_epoch : ai_epoch i' = sv_epoch b;
}.

Lemma rep_at_mono tb tb' h r : tb ⊆ tb' -> rep_at tb h r -> rep_at tb' h r.
Proof.
  intros Hsub. induction 1; [eapply rep_here | eapply rep_below]; eauto using lookup_weaken.
Qed.

(** A block's predecessor is the same in a larger table. *)
Lemma prev_bal_insert tb h x h' b :
  blocks_ok tb -> tb !! h = None -> h <> 0 -> tb !! h' = Some b ->
  prev_bal (<[h:=x]> tb) b = prev_bal tb b.
Proof.
  intros Hok Hf Hz Hb. unfold prev_bal. rewrite lookup_insert_ne; [done|]. intros ->.
  destruct (bk_prev _ Hok _ _ Hb Hz) as (? & ? & _). congruence.
Qed.

Lemma prev_bal_appended tb ta b i' :
  blocks_ok tb -> accounts_ok tb ta -> appended tb ta b i' ->
  prev_bal (<[block_hash b:=b]> tb) b = default 0 (ai_balance <$> ta !! sv_account b).
Proof.
  intros Hok Ha [Hf Hz _ _ _ _ Hp _ _ _ _]. unfold prev_bal.
  destruct (ta !! sv_account b) as [i|] eqn:Ei; destruct Hp as [Hp _]; rewrite Hp.
  - destruct (ac_head _ _ Ha _ _ Ei) as (hb & Hb & _ & _ & Hbal & _).
    rewrite lookup_insert_ne by congruence. rewrite Hb. cbn. by rewrite Hbal.
  - rewrite lookup_insert_ne by done. destruct (tb !! 0) eqn:E; [|done].
    by destruct (bk_key _ Hok _ _ E).
Qed.

Lemma blocks_ok_append tb ta b i' :
  blocks_ok tb -> accounts_ok tb ta -> appended tb ta b i' ->
  blocks_ok (<[block_hash b:=b]> tb).
Proof.
  intros Hok Ha [Hf Hz Hst Ham Hac Hmax Hp _ _ _ _].
  assert (1 <= sv_height b <= u64_max) as Hh.
  { split; [|done]. destruct (ta !! sv_account b) as [i|] eqn:Ei; [|lia]. destruct Hp as (_ & -> & _).
    destruct (ac_head _ _ Ha _ _ Ei) as (hb & Hb & _ & <- & _).
    pose proof (bk_height _ Hok _ _ Hb). lia. }
  assert (forall h1 b1, tb !! h1 = Some b1 -> sv_account b1 = sv_account b ->
            sv_height b1 < sv_height b) as Hlow.
  { intros h1 b1 Hb1 Ea. destruct (ac_block _ _ Ha _ _ Hb1) as (i & Ei & Hle).
    rewrite Ea in Ei. rewrite Ei in Hp. lia. }
  destruct Hok as [K S A AC H0 O P U].
  split; [intros ? ? [[<- <-]|[? Hin]]%lookup_insert_Some; eauto..|].
  - intros Hp0. destruct (ta !! sv_account b) as [i|] eqn:Ei; [|by destruct Hp as (_ & ? & _ & _ & ?)].
    destruct (ac_head _ _ Ha _ _ Ei) as (hb & Hb & _). destruct (K _ _ Hb).
    destruct Hp as [Hp _]. congruence.
  - intros Hp0. destruct (ta !! sv_account b) as [i|] eqn:Ei; [|by destruct Hp].
    destruct (ac_head _ _ Ha _ _ Ei) as (hb & Hb & Eacc & Eh & _).
    destruct Hp as (Hp & Hh' & _). exists hb. rewrite Hp.
    rewrite lookup_insert_ne by congruence. rewrite Eh. eauto.
  - intros Hp0. destruct (P _ _ Hin Hp0) as (p & Hpb & ? & ?). exists p.
    rewrite lookup_insert_ne by congruence. eauto.
  - intros h1 b1 h2 b2 [[<- <-]|[? Hb1]]%lookup_insert_Some
      [[<- <-]|[? Hb2]]%lookup_insert_Some Ea Eh; [done| | |eauto].
    + pose proof (Hlow _ _ Hb2 (eq_sym Ea)). lia.
    + pose proof (Hlow _ _ Hb1 Ea). lia.
Qed.

Lemma accounts_ok_append tb ta b i' :
  blocks_ok tb -> accounts_ok tb ta -> appended tb ta b i' ->
  accounts_ok (<[block_hash b:=b]> tb) (<[sv_account b:=i']> ta).
Proof.
  intros Hok Ha [Hf Hz _ _ _ _ Hp Eh Ec Eb Ee].
  assert (forall h x, tb !! h = Some x -> <[block_hash b:=b]> tb !! h = Some x) as Hold
    by (intros; rewrite lookup_insert_ne; congruence).
  assert (tb ⊆ <[block_hash b:=b]> tb) as Hsub by by apply insert_subseteq.
  split.
  - intros h x [[<- <-]|[? Hx]]%lookup_insert_Some.
    + exists i'. rewrite lookup_insert_eq. split; [done|lia].
    + destruct (ac_block _ _ Ha _ _ Hx) as (i & Ei & Hle).
      destruct (decide (sv_account b = sv_account x)) as [E|].
      * exists i'. rewrite E, lookup_insert_eq. rewrite E, Ei in Hp. split; [done|lia].
      * exists i. by rewrite lookup_insert_ne.
  - intros a i [[<- <-]|[? Hi]]%lookup_insert_Some.
    + exists b. rewrite Eh, lookup_insert_eq. by rewrite Ec, Eb, Ee.
    + destruct (ac_head _ _ Ha _ _ Hi) as (hb & Hb & ?). eauto.
  - intros a i [[<- <-]|[? Hi]]%lookup_insert_Some.
    + destruct (ta !! sv_account b) as [i|] eqn:Ei.
      * destruct Hp as (_ & _ & -> & _). destruct (ac_open _ _ Ha _ _ Ei) as (ob & Hb & ?). eauto.
      * destruct Hp as (_ & ? & -> & _). exists b. by rewrite lookup_insert_eq.
    + destruct (ac_open _ _ Ha _ _ Hi) as (ob & Hb & ?). eauto.
  - intros a i [[<- <-]|[? Hi]]%lookup_insert_Some; [|eauto using rep_at_mono, ac_rep].
    rewrite Eh. destruct (representative_field b) as [r|] eqn:Er.
    + eapply rep_here; [apply lookup_insert_eq|]. rewrite Er.
      destruct (ta !! sv_account b); [destruct Hp as (_ & _ & _ & ->)|destruct Hp as (_ & _ & _ & Hr & _)];
        cbn; congruence.
    + eapply rep_below; [apply lookup_insert_eq | done |].
      destruct (ta !! sv_account b) as [i|] eqn:Ei; [|by destruct Hp as (_ & _ & _ & ? & _)].
      destruct Hp as (-> & _ & _ & Hr). cbn in Hr. rewrite Hr.
      eauto using rep_at_mono, ac_rep.
Qed.

(** A head has no successor in the table. *)
Lemma head_no_successor tb ta a i h (x : SavedBlock) :
  blocks_ok tb -> accounts_ok tb ta -> ta !! a = Some i -> tb !! h = Some x ->
  previous x <> ai_head i.
Proof.
  intros Hok Ha Hi Hx E. destruct (ac_head _ _ Ha _ _ Hi) as (hb & Hb & Ea & Eh & _).
  destruct (bk_key _ Hok _ _ Hb) as [_ Hnz].
  destruct (bk_prev _ Hok _ _ Hx) as (p & Hp & Eap & Ehp); [congruence|].
  rewrite E, Hb in Hp. injection Hp as <-.
  destruct (ac_block _ _ Ha _ _ Hx) as (j & Hj & Hle). rewrite <- Eap, Ea in Hj.
  assert (i = j) as <- by congruence. lia.
Qed.

Lemma succ_ok_append tb ta ts b i' :
  blocks_ok tb -> accounts_ok tb ta -> appended tb ta b i' -> succ_ok tb ts ->
  succ_ok (<[block_hash b:=b]> tb)
    (if u256_is_zero (previous b) then ts else <[previous b:=block_hash b]> ts).
Proof.
  intros Hok Ha [Hf Hz _ _ _ _ Hp _ _ _ _] Hs p h.
  assert (forall h (x : SavedBlock), tb !! h = Some x -> previous b <> 0 -> previous x <> previous b) as Hno.
  { intros h' x Hx Hnz. destruct (ta !! sv_account b) as [i|] eqn:Ei; [|by destruct Hp].
    destruct Hp as [-> _]. by eapply head_no_successor. }
  destruct (u256_is_zero_spec (previous b)) as [E0|E0].
  - rewrite (Hs p h). split; intros (Hpz & x & Hx & Ex); (split; [done|]).
    + exists x. rewrite lookup_insert_ne by congruence. eauto.
    + apply lookup_insert_Some in Hx as [[<- <-]|[? ?]]; [congruence | eauto].
  - rewrite lookup_insert_Some, (Hs p h). split.
    + intros [[<- <-]|(Hne & Hpz & x & Hx & Ex)].
      * split; [done|]. exists b. by rewrite lookup_insert_eq.
      * split; [done|]. exists x. rewrite lookup_insert_ne by congruence. eauto.
    + intros (Hpz & x & Hx & Ex).
      apply lookup_insert_Some in Hx as [[<- <-]|[? Hx]]; [by left|].
      right. split; [|eauto]. intros E. apply (Hno h x Hx E0). congruence.
Qed.

(** ** Removing a head *)

Record removed (tb : block_table) (ta : account_table) (b : SavedBlock) (i : AccountInfo)
    : Prop := {
  rm_block : tb !! block_hash b = Some b;
  rm_info : ta !! sv_account b = Some i;
  rm_head : ai_head i = block_hash b;
}.

(** The account entry for the block below a removed head. *)
Record below (tb : block_table) (b : SavedBlock) (i i' : AccountInfo) : Prop := {
  bl_head : ai_head i' = previous b;
  bl_count : ai_block_count i' = ai_block_count i - 1;
  bl_open : ai_open_block i' = ai_open_block i;
  bl_prev : exists p, tb !! previous b = Some p /\ ai_balance i' = sv_balance p /\
                      ai_epoch i' = sv_epoch p;
  bl_rep : rep_at tb (previous b) (ai_representative i');
}.

Definition remove_account (ta : account_table) (b : SavedBlock) (i' : AccountInfo) : account_table :=
  if u256_is_zero (previous b) then delete (sv_account b) ta else <[sv_account b:=i']> ta.

Section remove.
Context (tb : block_table) (ta : account_table) (b : SavedBlock) (i : AccountInfo).
Hypothesis (Hok : blocks_ok tb) (Ha : accounts_ok tb ta) (Hr : removed tb ta b i).

#[local] Abbreviation tb' := (delete (block_hash b) tb).

Lemma removed_height : sv_height b = ai_block_count i.
Proof.
  destruct Hr as [Hb Hi Hh]. destruct (ac_head _ _ Ha _ _ Hi) as (hb & Hb' & _ & E & _).
  rewrite Hh, Hb in Hb'. by injection Hb' as <-.
Qed.

Lemma removed_balance : sv_balance b = ai_balance i.
Proof.
  destruct Hr as [Hb Hi Hh]. destruct (ac_head _ _ Ha _ _ Hi) as (hb & Hb' & _ & _ & E & _).
  rewrite Hh, Hb in Hb'. by injection Hb' as <-.
Qed.

Lemma removed_no_successor h (x : SavedBlock) : tb !! h = Some x -> previous x <> block_hash b.
Proof. destruct Hr as [Hb Hi <-]. by eapply head_no_successor. Qed.

(** Everything but the removed block keeps its predecessor. *)
Lemma removed_previous h (x : SavedBlock) : tb !! h = Some x -> tb' !! previous x = tb !! previous x.
Proof. intros Hx. apply lookup_delete_ne. by apply not_eq_sym, (removed_no_successor h). Qed.

Lemma prev_bal_remove h (x : SavedBlock) : tb !! h = Some x -> prev_bal tb' x = prev_bal tb x.
Proof. intros Hx. unfold prev_bal. by rewrite (removed_previous h). Qed.

Lemma blocks_ok_remove : blocks_ok tb'.
Proof.
  pose proof removed_previous as Hprev. destruct Hok as [K S A AC H0 O P U].
  split; [intros ? ? [_ Hin]%lookup_delete_Some; eauto..|].
  - intros Hp. destruct (P _ _ Hin Hp) as (p & ? & ? & ?). exists p.
    by rewrite (Hprev _ _ Hin).
  - intros h1 b1 h2 b2 [_ H1]%lookup_delete_Some [_ H2]%lookup_delete_Some. eauto.
Qed.

Lemma rep_at_remove h r : h <> block_hash b -> rep_at tb h r -> rep_at tb' h r.
Proof.
  intros Hne Hrep. revert Hne. induction Hrep as [h x r Hx Er|h x r Hx Er _ IH]; intros Hne.
  - eapply rep_here; [by rewrite lookup_delete_ne | done].
  - eapply rep_below; [by rewrite lookup_delete_ne | done |].
    apply IH. by apply (removed_no_successor h).
Qed.

(** Other blocks of the account are strictly below the removed head. *)
Lemma removed_above h x :
  tb !! h = Some x -> h <> block_hash b -> sv_account x = sv_account b -> sv_height x < sv_height b.
Proof.
  intros Hx Hne Ea. destruct (ac_block _ _ Ha _ _ Hx) as (j & Hj & Hle).
  rewrite Ea, (rm_info _ _ _ _ Hr) in Hj. injection Hj as <-. rewrite <- removed_height in Hle.
  destruct (decide (sv_height x = sv_height b)); [|lia]. exfalso. apply Hne.
  eapply bk_unique; eauto using rm_block.
Qed.

Lemma removed_not_other a j h x :
  ta !! a = Some j -> tb !! h = Some x -> sv_account x = a -> sv_account b <> a -> tb' !! h = Some x.
Proof.
  intros _ Hx <- Hne. rewrite lookup_delete_ne; [done|]. intros <-.
  rewrite (rm_block _ _ _ _ Hr) in Hx. congruence.
Qed.

Lemma other_account_ok a j :
  ta !! a = Some j -> sv_account b <> a ->
  (exists hb, tb' !! ai_head j = Some hb /\ sv_account hb = a /\ sv_height hb = ai_block_count j /\
     sv_balance hb = ai_balance j /\ sv_epoch hb = ai_epoch j) /\
  (exists ob, tb' !! ai_open_block j = Some ob /\ sv_account ob = a /\ sv_height ob = 1) /\
  rep_at tb' (ai_head j) (ai_representative j).
Proof.
  intros Hj Hne. destruct (ac_head _ _ Ha _ _ Hj) as (hb & Hb & Ea & ?).
  destruct (ac_open _ _ Ha _ _ Hj) as (ob & Ho & Eo & ?).
  split; [|split].
  - exists hb. erewrite removed_not_other; eauto.
  - exists ob. erewrite removed_not_other; eauto.
  - apply rep_at_remove; [|by eapply ac_rep]. intros E. rewrite E, (rm_block _ _ _ _ Hr) in Hb.
    congruence.
Qed.

Lemma accounts_ok_remove i' :
  (previous b <> 0 -> below tb b i i') -> accounts_ok tb' (remove_account ta b i').
Proof.
  intros Hbl. unfold remove_account. pose proof removed_height as Eh.
  destruct (u256_is_zero_spec (previous b)) as [E0|E0].
  - destruct (bk_open _ Hok _ _ (rm_block _ _ _ _ Hr) E0) as [Eh1 _].
    split; [|intros a j [? Hj]%lookup_delete_Some; by edestruct other_account_ok as (? & ? & ?)..].
    intros h x [Hne Hx]%lookup_delete_Some. destruct (ac_block _ _ Ha _ _ Hx) as (j & ? & ?).
    exists j. rewrite lookup_delete_ne; [done|]. intros E.
    pose proof (removed_above h x Hx (not_eq_sym Hne) (eq_sym E)).
    pose proof (bk_height _ Hok _ _ Hx). lia.
  - destruct (Hbl E0) as [Bh Bc Bo (p & Hp & Bb & Be) Br].
    destruct (bk_prev _ Hok _ _ (rm_block _ _ _ _ Hr) E0) as (p' & Hp' & Ea & Ehp).
    assert (p' = p) as -> by congruence.
    assert (previous b <> block_hash b) as Hne by eauto using removed_no_successor, rm_block.
    split.
    + intros h x [Hnh Hx]%lookup_delete_Some. destruct (ac_block _ _ Ha _ _ Hx) as (j & Hj & Hle).
      destruct (decide (sv_account b = sv_account x)) as [E|].
      * exists i'. rewrite E, lookup_insert_eq. split; [done|].
        pose proof (removed_above h x Hx (not_eq_sym Hnh) (eq_sym E)). lia.
      * exists j. by rewrite lookup_insert_ne.
    + intros a j [[<- <-]|[? Hj]]%lookup_insert_Some; [|by edestruct other_account_ok as (? & ? & ?)].
      exists p. rewrite Bh, lookup_delete_ne by done. repeat split; try congruence; lia.
    + intros a j [[<- <-]|[? Hj]]%lookup_insert_Some; [|by edestruct other_account_ok as (? & ? & ?)].
      destruct (ac_open _ _ Ha _ _ (rm_info _ _ _ _ Hr)) as (ob & Ho & Eo & Eoh).
      exists ob. rewrite Bo. rewrite lookup_delete_ne; [done|]. intros E.
      rewrite <- E, (rm_block _ _ _ _ Hr) in Ho. injection Ho as <-.
      pose proof (bk_height _ Hok _ _ Hp). lia.
    + intros a j [[<- <-]|[? Hj]]%lookup_insert_Some; [|by edestruct other_account_ok as (? & ? & ?)].
      rewrite Bh. by apply rep_at_remove.
Qed.

Lemma succ_ok_remove ts :
  succ_ok tb ts ->
  succ_ok tb' (if u256_is_zero (previous b) then ts else delete (previous b) ts).
Proof.
  intros Hs p h.
  assert (forall h (x : SavedBlock), tb !! h = Some x -> h <> block_hash b -> previous b <> 0 ->
            previous x <> previous b) as Hno.
  { intros h' x Hx Hne Hnz E. destruct (bk_prev _ Hok _ _ Hx) as (q & Hq & Eq & Ehq); [congruence|].
    destruct (bk_prev _ Hok _ _ (rm_block _ _ _ _ Hr) Hnz) as (q' & Hq' & Eq' & Ehq').
    rewrite E in Hq. assert (q' = q) as -> by congruence.
    apply Hne. eapply bk_unique; eauto using rm_block; [congruence | lia]. }
  destruct (u256_is_zero_spec (previous b)) as [E0|E0]; rewrite ?lookup_delete_Some, (Hs p h).
  - split; intros (Hpz & x & Hx & Ex); (split; [done|]).
    + exists x. rewrite lookup_delete_ne; [done|]. intros <-.
      rewrite (rm_block _ _ _ _ Hr) in Hx. congruence.
    + apply lookup_delete_Some in Hx as [? ?]. eauto.
  - split.
    + intros (Hne & Hpz & x & Hx & Ex). split; [done|]. exists x.
      rewrite lookup_delete_ne; [done|]. intros <-.
      rewrite (rm_block _ _ _ _ Hr) in Hx. congruence.
    + intros (Hpz & x & [Hnh Hx]%lookup_delete_Some & Ex). split; [|eauto].
      intros E. apply (Hno h x Hx (not_eq_sym Hnh) E0). congruence.
Qed.
End remove.
