(* ===== verification/Money.v ===== *)
(** * Pending entries, supply and delegated weight

    [pending_ok] ties the pending table to the sends and receives of the block
    table: every entry of a positive amount belongs to a send that nobody has
    received, and every send of a positive amount is pending or was received
    exactly once, in full, by the account it names. Entries of amount zero
    (from legacy sends that keep the balance) are not tied to blocks. *)

From S2P Require Import Prelude Types Blocks Codec Store Chains.

Abbreviation pending_table := (gmap PendingKey PendingInfo).

Definition pos_send (tb : block_table) (b : SavedBlock) : Prop := sv_balance b < prev_bal tb b.
Definition pos_recv (tb : block_table) (b : SavedBlock) : Prop := prev_bal tb b < sv_balance b.

Definition send_key (b : SavedBlock) : PendingKey :=
  mkPendingKey (destination_or_link b) (block_hash b).
Definition recv_key (b : SavedBlock) : PendingKey :=
  mkPendingKey (sv_account b) (source_or_link b).

(** [g] is the genesis hash: its balance comes from nowhere. *)
Record pending_ok (g : BlockHash) (tb : block_table) (tp : pending_table) : Prop := {
  pd_amount : forall k p, tp !! k = Some p -> in_u 128 (pi_amount p);
  pd_send : forall k p, tp !! k = Some p -> 0 < pi_amount p ->
    exists sb, tb !! pk_send_block_hash k = Some sb /\ pos_send tb sb /\ k = send_key sb /\
      pi_amount p = prev_bal tb sb - sv_balance sb /\ pi_source p = sv_account sb;
  pd_state : forall h sb, tb !! h = Some sb -> pos_send tb sb ->
    (exists p, tp !! send_key sb = Some p /\ pi_amount p = prev_bal tb sb - sv_balance sb) \/
    (tp !! send_key sb = None /\
     exists r rb, tb !! r = Some rb /\ r <> g /\ pos_recv tb rb /\ recv_key rb = send_key sb);
  pd_recv : forall r rb, tb !! r = Some rb -> r <> g -> pos_recv tb rb ->
    tp !! recv_key rb = None /\
    exists sb, tb !! source_or_link rb = Some sb /\ pos_send tb sb /\ recv_key rb = send_key sb /\
      prev_bal tb sb - sv_balance sb = sv_balance rb - prev_bal tb rb;
  pd_once : forall r1 rb1 r2 rb2, tb !! r1 = Some rb1 -> tb !! r2 = Some rb2 ->
    r1 <> g -> r2 <> g -> pos_recv tb rb1 -> pos_recv tb rb2 ->
    recv_key rb1 = recv_key rb2 -> r1 = r2;
}.

(** An order of the blocks in which every block comes after its predecessor
    and after the send it receives, with a bound above all of them. *)
Record ranked (g : BlockHash) (tb : block_table) (rk : BlockHash -> Z) (bound : Z) : Prop := {
  rk_bound : forall h b, tb !! h = Some b -> rk h < bound;
  rk_prev : forall h (b : SavedBlock), tb !! h = Some b -> previous b <> 0 -> rk (previous b) < rk h;
  rk_source : forall h b, tb !! h = Some b -> h <> g -> pos_recv tb b ->
    rk (source_or_link b) < rk h;
}.

Definition causal (g : BlockHash) (tb : block_table) : Prop := exists rk bound, ranked g tb rk bound.

(** ** A block is put on top of a chain *)

Section append.
Context (g : BlockHash) (tb : block_table) (ta : account_table) (tp : pending_table).
Context (b : SavedBlock) (i' : AccountInfo).
Hypothesis (Hok : blocks_ok tb) (Ha : accounts_ok tb ta) (Hap : appended tb ta b i').
Hypothesis (Hp : pending_ok g tb tp) (Hg : is_Some (tb !! g)).

#[local] Abbreviation h := (block_hash b).
#[local] Abbreviation tb' := (<[block_hash b:=b]> tb).

Lemma append_prev_bal x sb : tb !! x = Some sb -> prev_bal tb' sb = prev_bal tb sb.
Proof. intros. eapply prev_bal_insert; eauto using ap_fresh, ap_hash. Qed.

Lemma append_send x sb : tb !! x = Some sb -> pos_send tb' sb <-> pos_send tb sb.
Proof. intros Hx. unfold pos_send. by rewrite (append_prev_bal x). Qed.

Lemma append_recv x sb : tb !! x = Some sb -> pos_recv tb' sb <-> pos_recv tb sb.
Proof. intros Hx. unfold pos_recv. by rewrite (append_prev_bal x). Qed.

Lemma append_old x sb : tb !! x = Some sb -> tb' !! x = Some sb.
Proof. intros. rewrite lookup_insert_ne; [done|]. intros <-. rewrite (ap_fresh _ _ _ _ Hap) in *. done. Qed.

Lemma append_key x sb : tb !! x = Some sb -> send_key sb <> send_key b.
Proof.
  intros Hx E. destruct (bk_key _ Hok _ _ Hx) as [Hk _]. injection E as _ E.
  pose proof (ap_fresh _ _ _ _ Hap). congruence.
Qed.

Lemma append_not_genesis : h <> g.
Proof. intros E. destruct Hg as [? Hx]. rewrite <- E, (ap_fresh _ _ _ _ Hap) in Hx. done. Qed.

(** Old facts carry over to the larger table. *)
Lemma append_pd_send k p :
  tp !! k = Some p -> 0 < pi_amount p ->
  exists sb, tb' !! pk_send_block_hash k = Some sb /\ pos_send tb' sb /\ k = send_key sb /\
    pi_amount p = prev_bal tb' sb - sv_balance sb /\ pi_source p = sv_account sb.
Proof.
  intros Hk Hpos. destruct (pd_send _ _ _ Hp _ _ Hk Hpos) as (sb & Hsb & ? & ? & ? & ?).
  exists sb. rewrite (append_old _ _ Hsb), (append_send _ _ Hsb), (append_prev_bal _ _ Hsb). done.
Qed.

Lemma append_pd_recv r rb :
  tb !! r = Some rb -> r <> g -> pos_recv tb' rb ->
  tp !! recv_key rb = None /\
  exists sb, tb' !! source_or_link rb = Some sb /\ pos_send tb' sb /\ recv_key rb = send_key sb /\
    prev_bal tb' sb - sv_balance sb = sv_balance rb - prev_bal tb' rb.
Proof.
  intros Hr Hng Hpos%(append_recv _ _ Hr).
  destruct (pd_recv _ _ _ Hp _ _ Hr Hng Hpos) as (Hn & sb & Hsb & ? & ? & ?).
  split; [done|]. exists sb.
  rewrite (append_old _ _ Hsb), (append_send _ _ Hsb), (append_prev_bal _ _ Hsb),
    (append_prev_bal _ _ Hr). done.
Qed.

Lemma append_pd_once_old r1 rb1 r2 rb2 :
  tb !! r1 = Some rb1 -> tb !! r2 = Some rb2 -> r1 <> g -> r2 <> g ->
  pos_recv tb' rb1 -> pos_recv tb' rb2 -> recv_key rb1 = recv_key rb2 -> r1 = r2.
Proof.
  intros H1 H2 ?? P1%(append_recv _ _ H1) P2%(append_recv _ _ H2). by apply (pd_once _ _ _ Hp).
Qed.

Lemma pending_ok_send info :
  sv_balance b <= prev_bal tb' b -> pi_amount info = prev_bal tb' b - sv_balance b ->
  pi_source info = sv_account b -> in_u 128 (pi_amount info) ->
  pending_ok g tb' (<[send_key b:=info]> tp).
Proof.
  intros Hle Hamt Hsrc Hu. split.
  - intros k p [[<- <-]|[? Hk]]%lookup_insert_Some; eauto using pd_amount.
  - intros k p [[<- <-]|[? Hk]]%lookup_insert_Some Hpos; [|by apply append_pd_send].
    exists b. cbn. rewrite lookup_insert_eq. unfold pos_send. repeat split; try done. lia.
  - intros x sb [[<- <-]|[? Hx]]%lookup_insert_Some Hpos.
    + left. exists info. by rewrite lookup_insert_eq.
    + rewrite lookup_insert_ne by (apply not_eq_sym; by eapply append_key).
      rewrite (append_prev_bal _ _ Hx). apply (append_send _ _ Hx) in Hpos.
      destruct (pd_state _ _ _ Hp _ _ Hx Hpos) as [?|(? & r & rb & Hr & ? & ? & ?)]; [by left|].
      right. split; [done|]. exists r, rb. rewrite (append_old _ _ Hr), (append_recv _ _ Hr). done.
  - intros r rb [[<- <-]|[? Hr]]%lookup_insert_Some Hng Hpos.
    { unfold pos_recv in Hpos. lia. }
    destruct (append_pd_recv _ _ Hr Hng Hpos) as (Hn & sb & Hsb & ? & Hkey & ?).
    split; [|by exists sb]. rewrite lookup_insert_ne; [done|]. rewrite Hkey.
    apply (append_recv _ _ Hr) in Hpos.
    destruct (pd_recv _ _ _ Hp _ _ Hr Hng Hpos) as (_ & sb' & Hsb' & _ & Hkey' & _).
    rewrite <- Hkey, Hkey'. apply not_eq_sym. by eapply append_key.
  - intros r1 rb1 r2 rb2 [[<- <-]|[? H1]]%lookup_insert_Some [[<- <-]|[? H2]]%lookup_insert_Some
      ?? P1 P2 ?; try (unfold pos_recv in P1, P2; lia). by eapply append_pd_once_old.
Qed.

Lemma pending_ok_receive p :
  tp !! recv_key b = Some p -> sv_balance b = prev_bal tb' b + pi_amount p ->
  pending_ok g tb' (delete (recv_key b) tp).
Proof.
  intros Hkb Hbal. pose proof (pd_amount _ _ _ Hp _ _ Hkb) as Hu. unfold in_u in Hu. split.
  - intros k q [_ Hk]%lookup_delete_Some. eauto using pd_amount.
  - intros k q [_ Hk]%lookup_delete_Some Hpos. by apply append_pd_send.
  - intros x sb [[<- <-]|[? Hx]]%lookup_insert_Some Hpos; [unfold pos_send in Hpos; lia|].
    rewrite (append_prev_bal _ _ Hx). apply (append_send _ _ Hx) in Hpos.
    pose proof (pd_state _ _ _ Hp _ _ Hx Hpos) as Hst.
    destruct (decide (recv_key b = send_key sb)) as [E|Hne].
    + right. rewrite E, lookup_delete_eq. split; [done|]. exists h, b.
      rewrite lookup_insert_eq. split; [done|]. split; [apply append_not_genesis|].
      split; [|done]. rewrite <- E, Hkb in Hst. unfold pos_send, pos_recv in *.
      destruct Hst as [(q & [= <-] & Hq)|[? _]]; [lia|done].
    + rewrite lookup_delete_ne by done.
      destruct Hst as [?|(? & r & rb & Hr & ? & ? & ?)]; [by left|].
      right. split; [done|]. exists r, rb. rewrite (append_old _ _ Hr), (append_recv _ _ Hr). done.
  - intros r rb [[<- <-]|[? Hr]]%lookup_insert_Some Hng Hpos.
    + split; [apply lookup_delete_eq|]. unfold pos_recv in Hpos.
      destruct (append_pd_send _ _ Hkb) as (sb & Hsb & ? & ? & ? & ?); [lia|].
      exists sb. repeat split; try done. lia.
    + destruct (append_pd_recv _ _ Hr Hng Hpos) as (Hn & ?). split; [|done].
      rewrite lookup_delete_None. by right.
  - intros r1 rb1 r2 rb2 [[<- <-]|[? H1]]%lookup_insert_Some [[<- <-]|[? H2]]%lookup_insert_Some
      G1 G2 P1 P2 E; [done | | | by eapply append_pd_once_old].
    + destruct (append_pd_recv _ _ H2 G2 P2) as (Hn & _). congruence.
    + destruct (append_pd_recv _ _ H1 G1 P1) as (Hn & _). congruence.
Qed.

Lemma pending_ok_neutral :
  sv_balance b = prev_bal tb' b -> pending_ok g tb' tp.
Proof.
  intros Hbal. split.
  - apply Hp.
  - intros k p Hk Hpos. by apply append_pd_send.
  - intros x sb [[<- <-]|[? Hx]]%lookup_insert_Some Hpos; [unfold pos_send in Hpos; lia|].
    rewrite (append_prev_bal _ _ Hx). apply (append_send _ _ Hx) in Hpos.
    destruct (pd_state _ _ _ Hp _ _ Hx Hpos) as [?|(? & r & rb & Hr & ? & ? & ?)]; [by left|].
    right. split; [done|]. exists r, rb. rewrite (append_old _ _ Hr), (append_recv _ _ Hr). done.
  - intros r rb [[<- <-]|[? Hr]]%lookup_insert_Some Hng Hpos; [unfold pos_recv in Hpos; lia|].
    by apply append_pd_recv with r.
  - intros r1 rb1 r2 rb2 [[<- <-]|[? H1]]%lookup_insert_Some [[<- <-]|[? H2]]%lookup_insert_Some
      ?? P1 P2 ?; try (unfold pos_recv in P1, P2; lia). by eapply append_pd_once_old.
Qed.

Lemma causal_append tp' : pending_ok g tb' tp' -> causal g tb -> causal g tb'.
Proof.
  intros Hp' (rk & bd & [Hb Hpr Hs]).
  assert (forall x sb, tb !! x = Some sb -> x <> h) as Hne.
  { intros x sb Hx ->. pose proof (ap_fresh _ _ _ _ Hap). congruence. }
  exists (fun x => if x =? h then bd else rk x), (bd + 1).
  assert (forall x sb, tb !! x = Some sb -> (if x =? h then bd else rk x) = rk x) as Eold.
  { intros x sb Hx. apply Hne in Hx. by case_test. }
  split.
  - intros x sb [[<- <-]|[_ Hx]]%lookup_insert_Some; [rewrite Z.eqb_refl; lia|].
    rewrite (Eold _ _ Hx). specialize (Hb _ _ Hx). lia.
  - intros x sb [[<- <-]|[_ Hx]]%lookup_insert_Some Hnz.
    + rewrite Z.eqb_refl. pose proof (ap_position _ _ _ _ Hap) as Hpos.
      destruct (ta !! sv_account b) as [i|] eqn:Hi; [|by destruct Hpos].
      destruct (ac_head _ _ Ha _ _ Hi) as (hb & Hhb & _). destruct Hpos as [-> _].
      rewrite (Eold _ _ Hhb). eauto.
    + destruct (bk_prev _ Hok _ _ Hx Hnz) as (q & Hq & _). rewrite (Eold _ _ Hx), (Eold _ _ Hq). eauto.
  - intros x rb Hx Hng Hpos. destruct (pd_recv _ _ _ Hp' _ _ Hx Hng Hpos) as (_ & sb & Hsb & Hss & _).
    apply lookup_insert_Some in Hx as [[<- <-]|[_ Hx]].
    + apply lookup_insert_Some in Hsb as [[_ <-]|[_ Hsb]]; [unfold pos_send, pos_recv in *; lia|].
      rewrite Z.eqb_refl, (Eold _ _ Hsb). eauto.
    + apply (append_recv _ _ Hx) in Hpos.
      destruct (pd_recv _ _ _ Hp _ _ Hx Hng Hpos) as (_ & sb' & Hsb' & _).
      rewrite (Eold _ _ Hx), (Eold _ _ Hsb'). eauto.
Qed.
End append.

(** ** The head of a chain is taken away *)

Section remove.
Context (g : BlockHash) (tb : block_table) (ta : account_table) (tp : pending_table).
Context (b : SavedBlock) (i : AccountInfo).
Hypothesis (Hok : blocks_ok tb) (Ha : accounts_ok tb ta) (Hrm : removed tb ta b i).
Hypothesis (Hp : pending_ok g tb tp) (Hng : block_hash b <> g).

#[local] Abbreviation tb' := (delete (block_hash b) tb).

Lemma remove_prev_bal x sb : tb !! x = Some sb -> prev_bal tb' sb = prev_bal tb sb.
Proof. intros. eapply prev_bal_remove; eauto. Qed.

Lemma remove_send x sb : tb !! x = Some sb -> pos_send tb' sb <-> pos_send tb sb.
Proof. intros Hx. unfold pos_send. by rewrite (remove_prev_bal x). Qed.

Lemma remove_recv x sb : tb !! x = Some sb -> pos_recv tb' sb <-> pos_recv tb sb.
Proof. intros Hx. unfold pos_recv. by rewrite (remove_prev_bal x). Qed.

Lemma remove_block_eq x sb : tb !! x = Some sb -> x = block_hash b -> sb = b.
Proof. intros Hx ->. pose proof (rm_block _ _ _ _ Hrm). congruence. Qed.

(** A send that is not the removed block is still there. *)
Lemma remove_kept_send x sb : tb !! x = Some sb -> pos_send tb sb -> ~ pos_send tb b ->
  tb' !! x = Some sb.
Proof.
  intros Hx Hs Hns. rewrite lookup_delete_ne; [done|]. intros <-.
  rewrite (remove_block_eq _ _ Hx) in Hs; done.
Qed.

Lemma remove_kept_recv x rb : tb !! x = Some rb -> pos_recv tb rb -> ~ pos_recv tb b ->
  tb' !! x = Some rb.
Proof.
  intros Hx Hs Hns. rewrite lookup_delete_ne; [done|]. intros <-.
  rewrite (remove_block_eq _ _ Hx) in Hs; done.
Qed.

Lemma remove_pd_once r1 rb1 r2 rb2 :
  tb' !! r1 = Some rb1 -> tb' !! r2 = Some rb2 -> r1 <> g -> r2 <> g ->
  pos_recv tb' rb1 -> pos_recv tb' rb2 -> recv_key rb1 = recv_key rb2 -> r1 = r2.
Proof.
  intros [_ H1]%lookup_delete_Some [_ H2]%lookup_delete_Some ?? P1%(remove_recv _ _ H1)
    P2%(remove_recv _ _ H2) ?. by apply (pd_once _ _ _ Hp r1 rb1 r2 rb2).
Qed.

Lemma pending_ok_unsend p :
  pos_send tb b -> tp !! send_key b = Some p -> pending_ok g tb' (delete (send_key b) tp).
Proof.
  intros Hsb Hkb. assert (~ pos_recv tb b) as Hnr by (unfold pos_send, pos_recv in *; lia). split.
  - intros k q [_ Hk]%lookup_delete_Some. eauto using pd_amount.
  - intros k q [Hne Hk]%lookup_delete_Some Hpos.
    destruct (pd_send _ _ _ Hp _ _ Hk Hpos) as (sb & Hx & ? & E & ? & ?).
    exists sb. rewrite (remove_send _ _ Hx), (remove_prev_bal _ _ Hx).
    rewrite lookup_delete_ne; [done|]. intros E'. apply Hne.
    rewrite E. by rewrite (remove_block_eq _ _ Hx).
  - intros x sb [Hne Hx]%lookup_delete_Some Hpos%(remove_send _ _ Hx).
    rewrite (remove_prev_bal _ _ Hx), lookup_delete_ne.
    + destruct (pd_state _ _ _ Hp _ _ Hx Hpos) as [?|(? & r & rb & Hr & ? & Hrr & ?)]; [by left|].
      right. split; [done|]. exists r, rb.
      rewrite (remove_kept_recv _ _ Hr Hrr Hnr), (remove_recv _ _ Hr). done.
    + intros E. injection E as _ E. destruct (bk_key _ Hok _ _ Hx). congruence.
  - intros r rb [_ Hr]%lookup_delete_Some Hg Hpos%(remove_recv _ _ Hr).
    destruct (pd_recv _ _ _ Hp _ _ Hr Hg Hpos) as (Hn & sb & Hx & Hs & E & ?).
    split; [rewrite lookup_delete_None; by right|]. exists sb.
    rewrite (remove_send _ _ Hx), !(remove_prev_bal _ _ Hx), (remove_prev_bal _ _ Hr).
    rewrite lookup_delete_ne; [done|]. intros E'.
    rewrite E, (remove_block_eq _ _ Hx) in Hn by done. congruence.
  - intros. by eapply remove_pd_once.
Qed.

Lemma pending_ok_unreceive info :
  pos_recv tb b -> pi_amount info = sv_balance b - prev_bal tb b ->
  (forall sb, tb !! source_or_link b = Some sb -> pi_source info = sv_account sb) ->
  pending_ok g tb' (<[recv_key b:=info]> tp).
Proof.
  intros Hrb Hamt Hsrc. assert (~ pos_send tb b) as Hns by (unfold pos_send, pos_recv in *; lia).
  destruct (pd_recv _ _ _ Hp _ _ (rm_block _ _ _ _ Hrm) Hng Hrb) as (Hn & sb & Hsb & Hs & Ek & Ed).
  assert (pk_send_block_hash (recv_key b) = source_or_link b) as Eh by done.
  split.
  - intros k q [[<- <-]|[? Hk]]%lookup_insert_Some; [|eauto using pd_amount].
    pose proof (bk_amount _ Hok _ _ (rm_block _ _ _ _ Hrm)).
    assert (0 <= prev_bal tb b); [|unfold in_u, pos_recv in *; lia].
    unfold prev_bal. destruct (tb !! previous b) eqn:E; cbn; [|lia].
    destruct (bk_amount _ Hok _ _ E). lia.
  - intros k q [[<- <-]|[? Hk]]%lookup_insert_Some Hpos.
    + exists sb. rewrite Eh, (remove_kept_send _ _ Hsb Hs Hns), (remove_send _ _ Hsb),
        (remove_prev_bal _ _ Hsb). repeat split; eauto. lia.
    + destruct (pd_send _ _ _ Hp _ _ Hk Hpos) as (sb' & Hx & ? & E & ? & ?).
      exists sb'. rewrite (remove_send _ _ Hx), (remove_prev_bal _ _ Hx),
        (remove_kept_send _ _ Hx); done.
  - intros x sb' [Hne Hx]%lookup_delete_Some Hpos%(remove_send _ _ Hx).
    rewrite (remove_prev_bal _ _ Hx).
    destruct (decide (recv_key b = send_key sb')) as [E|Hke].
    + left. exists info. rewrite E, lookup_insert_eq. split; [done|].
      assert (source_or_link b = x) as Ex.
      { destruct (bk_key _ Hok _ _ Hx) as [<- _]. by injection E. }
      rewrite Ex in Hsb. assert (sb' = sb) as -> by congruence. lia.
    + rewrite lookup_insert_ne by done.
      destruct (pd_state _ _ _ Hp _ _ Hx Hpos) as [?|(? & r & rb & Hr & ? & Hrr & ?)]; [by left|].
      right. split; [done|]. exists r, rb. rewrite (remove_recv _ _ Hr).
      rewrite lookup_delete_ne; [done|]. intros E. rewrite (remove_block_eq _ _ Hr) in * by done.
      done.
  - intros r rb [Hne Hr]%lookup_delete_Some Hg Hpos%(remove_recv _ _ Hr).
    destruct (pd_recv _ _ _ Hp _ _ Hr Hg Hpos) as (Hn' & sb' & Hx & Hs' & E & ?). split.
    + rewrite lookup_insert_ne; [done|]. intros E'. apply Hne.
      eapply (pd_once _ _ _ Hp); eauto using rm_block.
    + exists sb'. rewrite (remove_kept_send _ _ Hx Hs' Hns), (remove_send _ _ Hx),
        !(remove_prev_bal _ _ Hx), (remove_prev_bal _ _ Hr). done.
  - intros. by eapply remove_pd_once.
Qed.

Lemma pending_ok_unneutral : sv_balance b = prev_bal tb b -> pending_ok g tb' tp.
Proof.
  intros Hbal. assert (~ pos_recv tb b /\ ~ pos_send tb b) as [Hnr Hns]
    by (unfold pos_send, pos_recv; lia).
  split.
  - apply Hp.
  - intros k q Hk Hpos. destruct (pd_send _ _ _ Hp _ _ Hk Hpos) as (sb & Hx & Hs & ?).
    exists sb. by rewrite (remove_send _ _ Hx), (remove_prev_bal _ _ Hx), (remove_kept_send _ _ Hx).
  - intros x sb [Hne Hx]%lookup_delete_Some Hpos%(remove_send _ _ Hx).
    rewrite (remove_prev_bal _ _ Hx).
    destruct (pd_state _ _ _ Hp _ _ Hx Hpos) as [?|(? & r & rb & Hr & ? & Hrr & ?)]; [by left|].
    right. split; [done|]. exists r, rb.
    rewrite (remove_kept_recv _ _ Hr Hrr Hnr), (remove_recv _ _ Hr). done.
  - intros r rb [_ Hr]%lookup_delete_Some Hg Hpos%(remove_recv _ _ Hr).
    destruct (pd_recv _ _ _ Hp _ _ Hr Hg Hpos) as (Hn & sb & Hx & Hs & ?).
    split; [done|]. exists sb. rewrite (remove_kept_send _ _ Hx Hs Hns), (remove_send _ _ Hx),
      !(remove_prev_bal _ _ Hx), (remove_prev_bal _ _ Hr). done.
  - intros. by eapply remove_pd_once.
Qed.

Lemma ranked_remove rk bd : ranked g tb rk bd -> ranked g tb' rk bd.
Proof.
  intros [Hb Hpr Hs]. split.
  - intros x sb [_ Hx]%lookup_delete_Some. eauto.
  - intros x sb [_ Hx]%lookup_delete_Some. eauto.
  - intros x sb [_ Hx]%lookup_delete_Some Hg Hpos%(remove_recv _ _ Hx). eauto.
Qed.
End remove.

(** ** Supply and delegation *)

Definition supply (ta : account_table) (tp : pending_table) : Z :=
  map_sum ai_balance ta + map_sum pi_amount tp.

Definition delegated (ta : account_table) (rep : PublicKey) : Z :=
  map_sum (fun i => if ai_representative i =? rep then ai_balance i else 0) ta.

Definition balances_ok (ta : account_table) (tp : pending_table) : Prop :=
  (forall a i, ta !! a = Some i -> 0 <= ai_balance i) /\
  (forall k p, tp !! k = Some p -> 0 <= pi_amount p).

Lemma delegated_bounds ta tp rep :
  balances_ok ta tp -> supply ta tp <= u128_max -> in_u 128 (delegated ta rep).
Proof.
  intros [Hb Hp] Hs. unfold supply, u128_max, delegated, in_u in *.
  assert (0 <= map_sum pi_amount tp) by (apply map_sum_nonneg; eauto).
  split; [apply map_sum_nonneg; intros a i Hi; specialize (Hb _ _ Hi); case_test; lia|].
  enough (delegated ta rep <= map_sum ai_balance ta) by (unfold delegated in *; lia).
  apply map_sum_le. intros a i Hi. specialize (Hb _ _ Hi). case_test; lia.
Qed.

Lemma balance_room ta tp a i k p :
  balances_ok ta tp -> supply ta tp <= u128_max -> ta !! a = Some i -> tp !! k = Some p ->
  ai_balance i + pi_amount p <= u128_max.
Proof.
  intros [Hb Hp] Hs Hi Hk. unfold supply in Hs.
  pose proof (map_sum_lookup_le ai_balance ta a i Hb Hi).
  pose proof (map_sum_lookup_le pi_amount tp k p Hp Hk). lia.
Qed.
