(* ===== verification/LedgerInv.v ===== *)
(** * The ledger invariant

    [ledger_inv] collects what holds of every state the ledger reaches: the
    tables form account chains, the pending table matches the sends, the
    supply is the genesis amount, the weight table and its cache agree with
    the balances, confirmation heights point into the chains, and the
    counters count. *)

From S2P Require Import Prelude Types Blocks Codec Work Store RepWeights Sets Chains Money.

Definition conf_ok (tb : block_table) (tc : gmap Account ConfirmationHeightInfo) : Prop :=
  forall a ci, tc !! a = Some ci ->
    exists fb, tb !! ch_frontier ci = Some fb /\ sv_account fb = a /\ sv_height fb = ch_height ci.

Definition genesis_hash (c : LedgerConstants) : BlockHash := block_hash (lk_genesis_block c).

Record genesis_ok (c : LedgerConstants) (tb : block_table)
    (tc : gmap Account ConfirmationHeightInfo) : Prop := {
  gn_block : exists gb, tb !! genesis_hash c = Some gb /\ sv_account gb = lk_genesis_account c /\
                        sv_height gb = 1;
  gn_confirmed : is_Some (tc !! lk_genesis_account c);
}.

Record counts_ok (s : LmdbStore) : Prop := {
  ct_block : lc_block_count (st_cache s) = wrap 64 (Z.of_nat (size (st_block s)));
  ct_account : lc_account_count (st_cache s) = wrap 64 (Z.of_nat (size (st_account s)));
  ct_confirmed : lc_confirmed_count (st_cache s)
                 = wrap 64 (map_sum ch_height (st_confirmation_height s));
}.

Record ledger_inv (c : LedgerConstants) (min_weight : Amount) (s : LmdbStore) : Prop := {
  li_blocks : blocks_ok (st_block s);
  li_accounts : accounts_ok (st_block s) (st_account s);
  li_succ : succ_ok (st_block s) (st_successors s);
  li_pending : pending_ok (genesis_hash c) (st_block s) (st_pending s);
  li_causal : causal (genesis_hash c) (st_block s);
  li_supply : supply (st_account s) (st_pending s) = u128_max;
  li_rep_weights : rep_weights_ok min_weight s;
  li_weights : forall r, weight_of (st_rep_weight s) r = delegated (st_account s) r;
  li_conf : conf_ok (st_block s) (st_confirmation_height s);
  li_genesis : genesis_ok c (st_block s) (st_confirmation_height s);
  li_counts : counts_ok s;
}.

Section consequences.
Context (c : LedgerConstants) (min_weight : Amount) (s : LmdbStore).
Hypothesis Hinv : ledger_inv c min_weight s.

Lemma inv_balance a i : st_account s !! a = Some i -> in_u 128 (ai_balance i).
Proof.
  intros Hi. destruct (ac_head _ _ (li_accounts _ _ _ Hinv) _ _ Hi) as (hb & Hb & _ & _ & <- & _).
  eauto using bk_amount, li_blocks.
Qed.

Lemma inv_balances_ok : balances_ok (st_account s) (st_pending s).
Proof.
  split; intros ? ? Hx; [apply inv_balance in Hx | apply (pd_amount _ _ _ (li_pending _ _ _ Hinv)) in Hx];
    unfold in_u in Hx; lia.
Qed.

Lemma inv_room a i k p :
  st_account s !! a = Some i -> st_pending s !! k = Some p ->
  ai_balance i + pi_amount p <= u128_max.
Proof.
  apply balance_room; [apply inv_balances_ok|]. rewrite (li_supply _ _ _ Hinv). lia.
Qed.

Lemma inv_zero_hash : st_block s !! 0 = None.
Proof.
  destruct (st_block s !! 0) eqn:E; [|done].
  by destruct (bk_key _ (li_blocks _ _ _ Hinv) _ _ E).
Qed.

Lemma any_get_block_eq h : any_get_block s h = st_block s !! h.
Proof.
  unfold any_get_block, block_get. destruct (u256_is_zero_spec h) as [->|]; [|done].
  by rewrite inv_zero_hash.
Qed.

Lemma any_block_exists_eq h : any_block_exists s h = bool_decide (is_Some (st_block s !! h)).
Proof.
  unfold any_block_exists, block_exists. destruct (u256_is_zero_spec h) as [->|]; [|done].
  rewrite inv_zero_hash. by rewrite bool_decide_false by (intros []; done).
Qed.

Lemma inv_delegated r : in_u 128 (delegated (st_account s) r).
Proof.
  eapply delegated_bounds; [apply inv_balances_ok|]. rewrite (li_supply _ _ _ Hinv). lia.
Qed.
End consequences.

(** ** Updating the weights along with an account entry *)

Section weights.
Context `{LmdbEngine} (min_weight : Amount).

Lemma wrap_delta x a b y :
  y = x - a + b -> in_u 128 y -> wrap 128 (x + wrap 128 (0 - a) + b) = y.
Proof.
  intros -> Hu. replace (x + wrap 128 (0 - a) + b) with (x + b + wrap 128 (0 - a)) by lia.
  rewrite wrap_add_r by lia. replace (x + b + (0 - a)) with (x - a + b) by lia. by apply wrap_small.
Qed.

(** Moving weight from the old to the new representative of an account. *)
Lemma weights_move s ta ta' r1 ob r2 nb :
  rep_weights_ok min_weight s ->
  (forall r, weight_of (st_rep_weight s) r = delegated ta r) ->
  (forall r, delegated ta' r = delegated ta r
     - (if r =? r1 then ob else 0) + (if r =? r2 then nb else 0)) ->
  (forall r, in_u 128 (delegated ta' r)) ->
  exists t w, representation_add_dual min_weight s r1 (wrapping_sub amount_ZERO ob) r2 nb
              = Some (set_weights w (set_rep_weight t s)) /\
    rep_weights_ok min_weight (set_weights w (set_rep_weight t s)) /\
    forall r, weight_of t r = delegated ta' r.
Proof.
  intros Hok Hw Hd Hu.
  destruct (representation_add_dual_eq min_weight s r1 (wrapping_sub amount_ZERO ob) r2 nb Hok)
    as (t & w & Heq & Hok' & Hwt). exists t, w. split; [done|]. split; [done|].
  intros r. rewrite Hwt, Hw. specialize (Hd r). specialize (Hu r). unfold wrapping_sub, amount_ZERO.
  destruct (Z.eqb_spec r r1), (Z.eqb_spec r r2); cbn; [by apply wrap_delta | | |lia].
  - apply (wrap_delta _ ob 0); [lia|done].
  - rewrite Z.add_0_r. rewrite <- (wrap_small 128 (delegated ta' r)) by done. f_equal. lia.
Qed.

(** Adding an amount to one representative, or taking it away. *)
Lemma weights_add s ta ta' rep x d :
  rep_weights_ok min_weight s ->
  (forall r, weight_of (st_rep_weight s) r = delegated ta r) ->
  (forall r, delegated ta' r = delegated ta r + (if r =? rep then d else 0)) ->
  (forall r, in_u 128 (delegated ta' r)) -> wrap 128 x = wrap 128 d ->
  exists t w, representation_add min_weight s rep x = Some (set_weights w (set_rep_weight t s)) /\
    rep_weights_ok min_weight (set_weights w (set_rep_weight t s)) /\
    forall r, weight_of t r = delegated ta' r.
Proof.
  intros Hok Hw Hd Hu Hx. rewrite representation_add_eq by done. eexists _, _. split; [done|].
  split; [by apply rep_weights_ok_set|]. intros r. rewrite weight_of_table_set, !Hw.
  specialize (Hd r). destruct (Z.eqb_spec r rep) as [E|]; [|lia]. rewrite E in *. unfold wrapping_add.
  rewrite <- wrap_add_r, Hx, wrap_add_r, <- Hd by lia. by apply wrap_small.
Qed.
End weights.
