(* ===== verification/InsertSafe.v ===== *)
(** * Insertion keeps the ledger invariant

    A block that is validated and inserted in one ledger state is inserted
    without a panic, whichever way the storage engine reacts to a missing or
    present key, and the state after it satisfies [ledger_inv] again. *)

From S2P Require Import Prelude Types Blocks Codec Work Store RepWeights Sets Validation Insertion.
From S2P Require Import Effect Chains Money LedgerInv.

(** What the Rust types and the hash function give for a received block. *)
Record block_ok (b : Block) : Prop := {
  bo_hash : block_hash b <> 0;
  bo_balance : in_u 128 (default 0 (balance_field b));
}.

Section updates.
Context `{LmdbEngine}.

Lemma update_account_put s a old new :
  ai_head new <> 0 -> (ai_head old <> 0 -> is_Some (st_account s !! a)) ->
  update_account s a old new =
    Some (set_account (<[a:=new]> (st_account s))
            (if u256_is_zero (ai_head old) && (ai_open_block new =? ai_head new)
             then add_account_count 1 s else s)).
Proof.
  intros Hn Ho. unfold update_account.
  destruct (u256_is_zero_spec (ai_head new)) as [|_]; [done|]. cbn [negb].
  destruct (u256_is_zero_spec (ai_head old)) as [E|E]; cbn [negb andb].
  - cbn. unfold account_put. by destruct (_ =? _).
  - destruct (bool_decide _); cbn [negb]; [done|]. destruct (Ho E) as [i Hi].
    unfold account_del. rewrite (table_del_present _ _ i Hi). cbn. unfold account_put. cbn.
    by rewrite insert_delete_eq.
Qed.

(** The pending table after the instructions. *)
Definition pending_after (tp : pending_table) (i : BlockInsertInstructions) : pending_table :=
  let tp1 := match ins_delete_pending i with Some k => delete k tp | None => tp end in
  match ins_insert_pending i with Some (k, p) => <[k:=p]> tp1 | None => tp1 end.

Lemma pending_updates s i :
  (forall k, ins_delete_pending i = Some k -> is_Some (st_pending s !! k)) ->
  exists s1, delete_old_pending_info s i = Some s1 /\
    insert_new_pending_info s1 i = set_pending (pending_after (st_pending s) i) s.
Proof.
  intros Hk. unfold delete_old_pending_info, insert_new_pending_info, pending_after.
  destruct (ins_delete_pending i) as [k|].
  - destruct (Hk k eq_refl) as [p Hp]. unfold pending_del. rewrite (table_del_present _ _ p Hp).
    cbn. eexists. split; [done|]. by destruct (ins_insert_pending i) as [[]|].
  - eexists. split; [done|]. destruct (ins_insert_pending i) as [[]|]; by destruct s.
Qed.
End updates.

(** ** What a validator knows about a state

    [agrees s v]: the facts in [v] that the instructions rest on hold in [s].
    They hold in the state the validator was created from, and they survive
    the insertion of other blocks (Batch.v). *)

Record agrees (s : LmdbStore) (v : BlockValidator) : Prop := {
  ag_account : forall x, account_field (v_block v) = Some x -> v_account v = x;
  ag_old : v_old_account_info v = st_account s !! v_account v;
  ag_previous : v_previous_block v = st_block s !! previous (v_block v);
  ag_fresh : st_block s !! block_hash (v_block v) = None;
  ag_pending : forall p, is_receive v = true -> v_pending_receive_info v = Some p ->
    st_pending s !! mkPendingKey (v_account v) (source_or_link (v_block v)) = Some p;
  ag_no_link : source_or_link (v_block v) = 0 -> v_pending_receive_info v = None;
  ag_source : v_source_block_exists v = true -> is_Some (st_block s !! source_or_link (v_block v));
}.

Lemma validator_agrees `{Crypto} c min_weight s now b ins :
  ledger_inv c min_weight s -> validate (create_validator c s now b) = Ok ins ->
  agrees s (create_validator c s now b).
Proof.
  intros Hinv Hval. destruct (validate_position _ _ Hval) as (_ & Hex & _).
  split; cbn [create_validator v_block v_account v_old_account_info v_previous_block
              v_pending_receive_info v_block_exists v_source_block_exists] in *.
  - intros x Hx. unfold get_account. by rewrite Hx.
  - done.
  - unfold load_previous_block. rewrite (any_get_block_eq c min_weight s Hinv).
    destruct (u256_is_zero_spec (previous b)) as [->|]; [|done].
    by rewrite (inv_zero_hash c min_weight s Hinv).
  - rewrite (any_block_exists_eq c min_weight s Hinv) in Hex.
    apply bool_decide_eq_false in Hex. by apply eq_None_not_Some.
  - intros p _. by destruct (u256_is_zero (source_or_link b)).
  - by intros ->.
  - intros [_ Hs]%andb_true_iff. rewrite (any_block_exists_eq c min_weight s Hinv) in Hs.
    by apply bool_decide_eq_true in Hs.
Qed.

Section validated.
Context `{Crypto} (c : LedgerConstants) (min_weight : Amount) (s : LmdbStore) (v : BlockValidator).
Context (ins : BlockInsertInstructions).
Hypothesis Hinv : ledger_inv c min_weight s.
Hypothesis Hag : agrees s v.
Hypothesis Hb : block_ok (v_block v).

#[local] Abbreviation b := (v_block v).

Lemma snapshot_consistent : snapshot_ok v.
Proof.
  split.
  - intros i Hi Hp. unfold previous_balance. rewrite (ag_previous _ _ Hag), Hp.
    rewrite (ag_old _ _ Hag) in Hi.
    destruct (ac_head _ _ (li_accounts _ _ _ Hinv) _ _ Hi) as (hb & Hhb & _ & _ & Hbal & _).
    by rewrite Hhb.
  - intros Hp. rewrite (ag_previous _ _ Hag), Hp. by apply (inv_zero_hash c min_weight).
  - unfold old_balance. rewrite (ag_old _ _ Hag).
    destruct (st_account s !! v_account v) as [i|] eqn:Hi; [|done].
    exact (inv_balance c min_weight s Hinv _ i Hi).
  - apply Hb.
  - intros p Hr Hp%(ag_pending _ _ Hag); [|done].
    destruct (pd_amount _ _ _ (li_pending _ _ _ Hinv) _ _ Hp). split; [done|].
    unfold old_balance. rewrite (ag_old _ _ Hag).
    destruct (st_account s !! v_account v) as [i|] eqn:Hi.
    + exact (inv_room c min_weight s Hinv _ i _ p Hi Hp).
    + unfold u128_max, amount_ZERO. cbn. lia.
Qed.

Hypothesis Hval : validate v = Ok ins.

#[local] Abbreviation saved := (mkSavedBlock b (new_sideband v)).

Lemma saved_account : sv_account saved = v_account v.
Proof.
  unfold sv_account. cbn [sv_block sv_sideband sd_account new_sideband].
  destruct (account_field b) eqn:E; [|done]. by rewrite (ag_account _ _ Hag _ E).
Qed.

(** A legacy block only ever follows a chain and a source of epoch 0. *)
Lemma validated_legacy_epoch :
  is_legacy b = true -> source_epoch v = Epoch0 /\ block_epoch v = Epoch0.
Proof.
  intros Hl. destruct (validate_amounts _ _ Hval) as [Hr _].
  destruct (validate_position _ _ Hval) as (_ & _ & Hpos & Hpred).
  assert (source_epoch v = Epoch0) as Es.
  { unfold source_epoch. destruct (is_receive v) eqn:Er.
    - destruct (Hr eq_refl) as (_ & p & -> & _ & He). cbn. by apply He.
    - rewrite (ag_no_link _ _ Hag); [done|]. unfold is_receive in Er. by destruct b. }
  split; [done|]. unfold block_epoch, is_epoch_block. rewrite Es.
  replace (match v_block v with State _ => _ | _ => false end) with false by (by destruct b).
  unfold old_epoch_version. rewrite (ag_old _ _ Hag) in *.
  destruct (st_account s !! v_account v) as [i|] eqn:Hi; [|done]. destruct Hpos as (Hh & _ & _).
  destruct (ac_head _ _ (li_accounts _ _ _ Hinv) _ _ Hi) as (hb & Hhb & _ & _ & _ & He).
  assert (previous b <> 0) as Hnz by (rewrite Hh; by destruct (bk_key _ (li_blocks _ _ _ Hinv) _ _ Hhb)).
  destruct (Hpred Hnz) as (p & Hp & Hvp). rewrite (ag_previous _ _ Hag), Hh, Hhb in Hp.
  injection Hp as <-. cbn in Hvp |- *. rewrite <- He.
  pose proof (bk_stored _ (li_blocks _ _ _ Hinv) _ _ Hhb) as Hst.
  unfold sv_epoch. rewrite <- Hst. unfold stored. cbn.
  destruct hb as [[x|x|x|x|x] d]; try done. by destruct (v_block v).
Qed.

Lemma new_balance_field x : balance_field b = Some x -> new_balance v = x.
Proof.
  intros Hx. pose proof snapshot_consistent as Hs. destruct (balance_field_cases b x Hx) as [(sb & E & <-)|(sb & E & <-)].
  - by eapply new_balance_send.
  - by eapply new_balance_state; [done|done|eapply validate_head].
Qed.

Lemma saved_canonical : canonical saved.
Proof.
  pose proof validated_legacy_epoch as Hl. pose proof new_balance_field as Hbf.
  destruct (validate_position _ _ Hval) as (_ & _ & Hpos & _).
  unfold canonical, new_sideband, block_details, is_send, is_receive, is_epoch_block.
  cbn [sv_block sv_sideband sd_height sd_account sd_details sd_source_epoch sd_balance].
  assert (forall x, account_field b = Some x -> v_account v = x) as Hacc.
  { apply Hag. }
  assert (is_open b = true -> new_block_count v = 1) as Hopen.
  { intros Ho. unfold new_block_count.
    destruct (v_old_account_info v); [|done]. destruct Hpos as (_ & Hf & _). congruence. }
  clear Hpos. destruct b as [x|x|x|x|x]; try (destruct (Hl eq_refl) as [-> ->]).
  - rewrite (Hbf _ eq_refl). done.
  - done.
  - rewrite (Hacc _ eq_refl), (Hopen eq_refl). done.
  - done.
  - rewrite (Hacc _ eq_refl), (Hbf _ eq_refl). done.
Qed.

Lemma saved_balance : sv_balance saved = new_balance v.
Proof.
  pose proof new_balance_field as Hbf. unfold sv_balance. cbn.
  destruct b; try done; by rewrite (Hbf _ eq_refl).
Qed.

(** Heights are [u64]; a chain would need 2^64 - 1 blocks to overflow them. *)
Hypothesis Hroom :
  forall i, st_account s !! v_account v = Some i -> ai_block_count i < u64_max.

Lemma new_height i :
  st_account s !! v_account v = Some i -> new_block_count v = ai_block_count i + 1.
Proof.
  intros Hi. unfold new_block_count. rewrite (ag_old _ _ Hag), Hi.
  specialize (Hroom i Hi). destruct (ac_head _ _ (li_accounts _ _ _ Hinv) _ _ Hi) as (hb & Hhb & _ & Eh & _).
  pose proof (bk_height _ (li_blocks _ _ _ Hinv) _ _ Hhb).
  apply wrap_small. unfold u64_max, in_u in *. cbn. lia.
Qed.

Lemma validated_appended :
  mints v = false -> appended (st_block s) (st_account s) saved (ins_set_account_info ins).
Proof.
  intros Hm. destruct (validate_position _ _ Hval) as (Hacc & _ & Hpos & _).
  pose proof (validate_classifies _ _ snapshot_consistent Hval Hm) as Hcl.
  pose proof (so_balance _ snapshot_consistent) as Hob. pose proof (so_room _ snapshot_consistent) as Hrm.
  pose proof (validate_instructions _ _ Hval) as Hins. rewrite Hins in Hcl |- *.
  pose proof new_height as Hnh. split; try done.
  - apply Hag.
  - apply Hb.
  - apply stored_canonical, saved_canonical.
  - rewrite saved_balance. unfold in_u, u128_max in *. destruct Hcl; cbn in *; try lia.
    destruct (Hrm p); [done..|]. lia.
  - by rewrite saved_account.
  - unfold sv_height. cbn. pose proof (wrap_in_u 64 (default 0 (ai_block_count <$> v_old_account_info v) + 1)).
    unfold new_block_count, in_u, u64_max in *. lia.
  - rewrite saved_account. rewrite (ag_old _ _ Hag) in Hpos.
    destruct (st_account s !! v_account v) as [i|] eqn:Hi.
    + destruct Hpos as [Hp _]. split; [done|]. split; [by apply Hnh|].
      cbn. unfold open_block, new_representative, old_representative.
      by rewrite (ag_old _ _ Hag), Hi.
    + destruct Hpos as [Hp Ho]. split; [done|]. unfold sv_height. cbn.
      unfold new_block_count, open_block, new_representative.
      rewrite (ag_old _ _ Hag), Hi. split; [done|]. split; [done|].
      split; [by destruct b|done].
  - by rewrite saved_balance.
Qed.

Hypothesis Hmint : mints v = false.

#[local] Abbreviation info' := (ins_set_account_info ins).
#[local] Abbreviation tb' := (<[block_hash b:=saved]> (st_block s)).
#[local] Abbreviation ta' := (<[v_account v:=info']> (st_account s)).
#[local] Abbreviation tp' := (pending_after (st_pending s) ins).

Lemma old_balance_eq : old_balance v = default 0 (ai_balance <$> st_account s !! v_account v).
Proof. unfold old_balance. by rewrite (ag_old _ _ Hag). Qed.

Lemma saved_prev_bal : prev_bal tb' saved = old_balance v.
Proof.
  rewrite old_balance_eq, <- saved_account.
  apply (prev_bal_appended (st_block s) (st_account s) saved info').
  - apply Hinv.
  - apply Hinv.
  - by apply validated_appended.
Qed.

Lemma saved_info_balance : sv_balance saved = ai_balance info'.
Proof. by rewrite <- (ap_balance _ _ _ _ (validated_appended Hmint)). Qed.

(** The key of a new send is unused, but for a leftover of amount zero. *)
Lemma new_send_key_amount : default 0 (pi_amount <$> st_pending s !! send_key saved) = 0.
Proof.
  destruct (st_pending s !! send_key saved) as [p|] eqn:Hk; [|done]. cbn.
  destruct (pd_amount _ _ _ (li_pending _ _ _ Hinv) _ _ Hk).
  destruct (decide (pi_amount p = 0)); [done|].
  destruct (pd_send _ _ _ (li_pending _ _ _ Hinv) _ _ Hk) as (sb & Hsb & _); [lia|].
  cbn in Hsb. rewrite (ag_fresh _ _ Hag) in Hsb. done.
Qed.

Lemma pending_after_ok : pending_ok (genesis_hash c) tb' tp'.
Proof.
  pose proof validated_appended Hmint as Hap. pose proof saved_prev_bal as Hpb.
  pose proof saved_info_balance as Hib. pose proof saved_account as Hac.
  assert (is_Some (st_block s !! genesis_hash c)) as Hg.
  { destruct (gn_block _ _ _ (li_genesis _ _ _ Hinv)) as (gb & ? & _). eauto. }
  pose proof (li_blocks _ _ _ Hinv) as Hbk. pose proof (li_accounts _ _ _ Hinv) as Hacs.
  pose proof (li_pending _ _ _ Hinv) as Hpd. pose proof (so_balance _ snapshot_consistent) as Hob.
  destruct (validate_classifies _ _ snapshot_consistent Hval Hmint)
    as [e _ _ Hle Hd Hi|p _ Hrcv Hp _ Hnb Hd Hi|_ _ Hnb Hd Hi]; unfold pending_after; rewrite Hd, Hi.
  - eapply (pending_ok_send _ _ _ _ saved); eauto;
      cbn [pi_amount pi_source sv_block]; rewrite ?Hpb, ?Hib, ?Hac; unfold in_u in *; try done; lia.
  - replace (mkPendingKey _ _) with (recv_key saved) by (unfold recv_key; by rewrite Hac).
    eapply (pending_ok_receive _ _ _ _ saved); eauto.
    + unfold recv_key. rewrite Hac. by apply (ag_pending _ _ Hag).
    + cbn [sv_block]. by rewrite Hpb, Hib.
  - eapply (pending_ok_neutral _ _ _ _ saved); eauto. cbn [sv_block]. by rewrite Hpb, Hib.
Qed.

Lemma supply_after : supply ta' tp' = supply (st_account s) (st_pending s).
Proof.
  pose proof new_send_key_amount as Hz. unfold supply. rewrite map_sum_insert, <- old_balance_eq.
  destruct (validate_classifies _ _ snapshot_consistent Hval Hmint)
    as [e _ _ Hle Hd Hi|p _ Hrcv Hp _ Hnb Hd Hi|_ _ Hnb Hd Hi]; unfold pending_after; rewrite Hd, Hi.
  - rewrite map_sum_insert. change (mkPendingKey _ _) with (send_key saved). rewrite Hz. cbn. lia.
  - erewrite map_sum_delete by (by apply (ag_pending _ _ Hag)). rewrite Hnb. lia.
  - lia.
Qed.

Lemma balances_after : balances_ok ta' tp'.
Proof.
  split.
  - intros a i [[<- <-]|[_ Hi]]%lookup_insert_Some.
    + rewrite <- saved_info_balance. apply (ap_amount _ _ _ _ (validated_appended Hmint)).
    + by eapply inv_balances_ok.
  - intros k p Hk%(pd_amount _ _ _ pending_after_ok). apply Hk.
Qed.

Lemma delegated_after r :
  delegated ta' r = delegated (st_account s) r
    - match st_account s !! v_account v with
      | Some i => if r =? ai_representative i then ai_balance i else 0
      | None => 0
      end
    + (if r =? ai_representative info' then ai_balance info' else 0).
Proof.
  unfold delegated. rewrite map_sum_insert, (Z.eqb_sym r (ai_representative info')).
  destruct (st_account s !! v_account v) as [i|]; cbn; [|lia].
  rewrite (Z.eqb_sym r (ai_representative i)). lia.
Qed.

Lemma delegated_after_u128 r : in_u 128 (delegated ta' r).
Proof.
  apply (delegated_bounds _ _ _ balances_after). rewrite supply_after, (li_supply _ _ _ Hinv). lia.
Qed.

Context `{LmdbEngine}.

Definition tables_after (t w : RepWeights) : LmdbStore :=
  add_block_count 1 (set_weights w (set_rep_weight t (set_pending tp' (set_account ta'
    (let s1 := insert_successor (set_block tb' s) saved in
     if bool_decide (is_Some (st_account s !! v_account v)) then s1 else add_account_count 1 s1))))).

Lemma insert_representation s1 :
  st_rep_weight s1 = st_rep_weight s -> st_weights s1 = st_weights s ->
  exists t w,
    update_representative_cache min_weight s1 ins = Some (set_weights w (set_rep_weight t s1)) /\
    rep_weights_ok min_weight (set_weights w (set_rep_weight t s1)) /\
    forall r, weight_of t r = delegated ta' r.
Proof.
  intros Er Ew.
  assert (rep_weights_ok min_weight s1) as Hrw.
  { destruct (li_rep_weights _ _ _ Hinv). split; by rewrite ?Er, ?Ew. }
  assert (forall r, weight_of (st_rep_weight s1) r = delegated (st_account s) r) as Hw.
  { intros r. rewrite Er. apply (li_weights _ _ _ Hinv). }
  pose proof delegated_after as Hda. pose proof delegated_after_u128 as Hdu.
  unfold update_representative_cache.
  assert (ins_old_account_info ins = default account_info_default (st_account s !! v_account v)) as ->
    by (by rewrite (validate_instructions _ _ Hval), <- (ag_old _ _ Hag)).
  destruct (st_account s !! v_account v) as [i|] eqn:Hi; cbn [from_option id].
  - destruct (ac_head _ _ (li_accounts _ _ _ Hinv) _ _ Hi) as (hb & Hhb & _).
    destruct (bk_key _ (li_blocks _ _ _ Hinv) _ _ Hhb) as [_ Hnz].
    destruct (u256_is_zero_spec (ai_head i)); [done|]. cbn [negb].
    by apply weights_move with (ta := st_account s) (ta' := ta').
  - change (u256_is_zero (ai_head account_info_default)) with true. cbn [negb].
    apply weights_add with (ta := st_account s) (ta' := ta') (d := ai_balance info'); try done.
    intros r. rewrite Hda. lia.
Qed.

#[local] Abbreviation linked := (insert_successor (set_block tb' s) saved).

Lemma insert_update_account :
  update_account linked (v_account v) (ins_old_account_info ins) info' =
  Some (set_account ta'
    (if bool_decide (is_Some (st_account s !! v_account v)) then linked
     else add_account_count 1 linked)).
Proof.
  pose proof (validated_appended Hmint) as Hap.
  assert (st_account linked = st_account s) as Ea by (unfold insert_successor; by destruct (negb _)).
  assert (ins_old_account_info ins = default account_info_default (st_account s !! v_account v))
    as Eold by (by rewrite (validate_instructions _ _ Hval), <- (ag_old _ _ Hag)).
  pose proof (ap_position _ _ _ _ Hap) as Hpos. rewrite saved_account in Hpos.
  rewrite update_account_put, Ea, Eold; [|by rewrite (ap_head _ _ _ _ Hap); apply Hb|].
  - destruct (st_account s !! v_account v) as [i|] eqn:Hi; cbn [from_option id].
    + destruct (ac_head _ _ (li_accounts _ _ _ Hinv) _ _ Hi) as (hb & Hhb & _).
      destruct (bk_key _ (li_blocks _ _ _ Hinv) _ _ Hhb) as [_ Hnz].
      destruct (u256_is_zero_spec (ai_head i)); [done|]. by rewrite bool_decide_true.
    + destruct Hpos as (_ & _ & -> & _). rewrite (ap_head _ _ _ _ Hap), Z.eqb_refl.
      by rewrite bool_decide_false by (intros []; done).
  - rewrite Eold, Ea. intros Hnz. by destruct (st_account s !! v_account v).
Qed.

Lemma deleted_pending_present k : ins_delete_pending ins = Some k -> is_Some (st_pending s !! k).
Proof.
  intros Hk. destruct (validate_classifies _ _ snapshot_consistent Hval Hmint)
    as [? _ _ _ Hd _|p _ Hrcv Hp _ _ Hd _|_ _ _ Hd _]; rewrite Hd in Hk; try done.
  injection Hk as <-. eexists. by apply (ag_pending _ _ Hag).
Qed.

Lemma account_unchanged : account_changed_since_validation s ins = false.
Proof.
  unfold account_changed_since_validation, get_current_account_info, account_get.
  rewrite (validate_instructions _ _ Hval). cbn [ins_account ins_old_account_info create_instructions].
  by rewrite (ag_old _ _ Hag), Z.eqb_refl.
Qed.

Lemma insert_eq :
  exists t w, insert min_weight s b ins = Some (Some saved, tables_after t w) /\
    rep_weights_ok min_weight (tables_after t w) /\ forall r, weight_of t r = delegated ta' r.
Proof.
  pose proof insert_update_account as Eupd. set (s2 := set_account ta' _) in Eupd.
  assert (st_pending s2 = st_pending s /\ st_rep_weight s2 = st_rep_weight s /\
          st_weights s2 = st_weights s) as (Ep & Er & Ew).
  { unfold s2, insert_successor. by destruct (bool_decide _), (negb _). }
  destruct (pending_updates s2 ins) as (s3 & Edel & Eins);
    [rewrite Ep; apply deleted_pending_present|]. rewrite Ep in Eins.
  destruct (insert_representation (set_pending tp' s2) Er Ew) as (t & w & Erep & Hrep & Hw).
  exists t, w. split; [|split; [by destruct Hrep | done]].
  unfold insert, block_put. rewrite account_unchanged.
  replace (ins_set_sideband ins) with (new_sideband v) by (by rewrite (validate_instructions _ _ Hval)).
  replace (ins_account ins) with (v_account v) by (by rewrite (validate_instructions _ _ Hval)).
  rewrite (ap_stored _ _ _ _ (validated_appended Hmint)).
  rewrite table_put_new_absent by apply (ag_fresh _ _ Hag). cbn [mbind option_bind sv_block].
  rewrite Eupd. cbn [mbind option_bind]. rewrite Edel. cbn [mbind option_bind]. rewrite Eins, Erep.
  done.
Qed.

Lemma tables_after_fields t w :
  let s' := tables_after t w in
  st_block s' = tb' /\ st_account s' = ta' /\ st_pending s' = tp' /\
  st_rep_weight s' = t /\ st_weights s' = w /\
  st_confirmation_height s' = st_confirmation_height s /\ st_final_vote s' = st_final_vote s /\
  st_successors s' = (if u256_is_zero (previous b) then st_successors s
                      else <[previous b:=block_hash b]> (st_successors s)) /\
  st_cache s' =
    mkLedgerCache (lc_confirmed_count (st_cache s)) (wrap 64 (lc_block_count (st_cache s) + 1))
      (if bool_decide (is_Some (st_account s !! v_account v)) then lc_account_count (st_cache s)
       else wrap 64 (lc_account_count (st_cache s) + 1)).
Proof.
  unfold tables_after, insert_successor. cbn [sv_block].
  destruct (bool_decide _), (u256_is_zero (previous b)); done.
Qed.

Lemma counts_after t w : counts_ok (tables_after t w).
Proof.
  destruct (tables_after_fields t w) as (Eb & Ea & _ & _ & _ & Ec & _ & _ & Ecache).
  destruct (li_counts _ _ _ Hinv) as [Hcb Hca Hcc].
  split; rewrite Ecache, ?Eb, ?Ea, ?Ec; cbn [lc_block_count lc_account_count lc_confirmed_count]; try done.
  - rewrite Hcb, map_size_insert_None by apply (ag_fresh _ _ Hag). rewrite wrap_add_l by lia. f_equal. lia.
  - destruct (st_account s !! v_account v) as [i|] eqn:Hi.
    + rewrite bool_decide_true by done. rewrite Hca.
      by rewrite map_size_insert_Some by (by rewrite Hi).
    + rewrite bool_decide_false by (intros []; done).
      rewrite Hca, map_size_insert_None by done. rewrite wrap_add_l by lia. f_equal. lia.
Qed.

Lemma inv_after t w :
  rep_weights_ok min_weight (tables_after t w) -> (forall r, weight_of t r = delegated ta' r) ->
  ledger_inv c min_weight (tables_after t w).
Proof.
  intros Hrw Hw. pose proof (validated_appended Hmint) as Hap. pose proof saved_account as Hac.
  destruct (tables_after_fields t w) as (Eb & Ea & Ep & Er & _ & Ec & _ & Es & _).
  assert (st_block s ⊆ tb') as Hsub by (apply insert_subseteq, (ag_fresh _ _ Hag)).
  split; rewrite ?Eb, ?Ea, ?Ep, ?Er, ?Ec, ?Es; try done.
  - apply (blocks_ok_append (st_block s) (st_account s) saved info'); [apply Hinv..|done].
  - rewrite <- Hac. apply accounts_ok_append; [apply Hinv..|done].
  - apply (succ_ok_append (st_block s) (st_account s) (st_successors s) saved info'); [apply Hinv..|done|apply Hinv].
  - apply pending_after_ok.
  - eapply (causal_append _ _ _ _ saved); try apply Hinv; [done|apply pending_after_ok].
  - rewrite supply_after. apply Hinv.
  - intros a ci Hci. destruct (li_conf _ _ _ Hinv _ _ Hci) as (fb & Hfb & ?).
    exists fb. by rewrite (lookup_weaken _ _ _ _ Hfb Hsub).
  - destruct (li_genesis _ _ _ Hinv) as [(gb & Hgb & ?) ?]. split; [|done].
    exists gb. by rewrite (lookup_weaken _ _ _ _ Hgb Hsub).
  - apply counts_after.
Qed.
End validated.
