(* ===== verification/Batch.v ===== *)
(** * Batches

    [process_batch] validates every block of a batch against one snapshot and
    inserts them one after the other. The only check at insertion time is
    that the account head has not moved. [since] is what this check protects:
    for an account whose head has not moved, the facts its block was validated
    with are still true. *)

From S2P Require Import Prelude Types Blocks Codec Work Store RepWeights Sets Validation Insertion.
From S2P Require Import Effect Chains Money LedgerInv InsertSafe.

Definition head_of (s : LmdbStore) (a : Account) : BlockHash :=
  ai_head (default account_info_default (st_account s !! a)).

(** The head of [a] in [s1] is a block [s] does not have. *)
Definition head_is_new (s s1 : LmdbStore) (a : Account) : Prop :=
  head_of s1 a <> 0 /\ st_block s !! head_of s1 a = None.

(** [s1] grew out of [s]: an account is as it was, with the pending entries it
    may receive, or has a new head; every new block is of such an account. *)
Record since (s s1 : LmdbStore) : Prop := {
  sn_blocks : st_block s ⊆ st_block s1;
  sn_account : forall a, head_is_new s s1 a \/
    st_account s1 !! a = st_account s !! a /\
    forall h p, is_Some (st_block s !! h) -> st_pending s !! mkPendingKey a h = Some p ->
      st_pending s1 !! mkPendingKey a h = Some p;
  sn_new : forall h x, st_block s1 !! h = Some x -> st_block s !! h = None -> head_is_new s s1 (sv_account x);
}.

Lemma same_account_head s1 s2 s3 a :
  st_account s3 !! a = st_account s2 !! a -> head_is_new s1 s2 a -> head_is_new s1 s3 a.
Proof. unfold head_is_new, head_of. by intros ->. Qed.

Lemma later_head s1 s2 s3 a : st_block s1 ⊆ st_block s2 -> head_is_new s2 s3 a -> head_is_new s1 s3 a.
Proof. intros Hsub [? Hn]. split; [done|]. by eapply lookup_weaken_None. Qed.

#[global] Instance since_preorder : PreOrder since.
Proof.
  split.
  - intros s. split; [done|by right|]. intros h x H1 H2. congruence.
  - intros s1 s2 s3 [B1 A1 N1] [B2 A2 N2]. split; [by etrans|..].
    + intros a. destruct (A2 a) as [Hn|[E2 P2]]; [left; by eapply later_head|].
      destruct (A1 a) as [Hn|[E1 P1]]; [left; by eapply same_account_head|].
      right. split; [congruence|]. intros h p Hb Hp. apply P2; [|by apply P1].
      destruct Hb as [x Hx]. exists x. by eapply lookup_weaken.
    + intros h x Hx Hn. destruct (st_block s2 !! h) as [y|] eqn:Hy; [|eapply later_head; eauto].
      rewrite (lookup_weaken _ _ _ _ Hy B2) in Hx. injection Hx as ->.
      destruct (A2 (sv_account x)) as [Hn2|[E2 _]]; [by eapply later_head|].
      eapply same_account_head; eauto.
Qed.

(** What cementing and voting leave alone. *)
Lemma since_same s s1 :
  st_block s1 = st_block s -> st_account s1 = st_account s -> st_pending s1 = st_pending s -> since s s1.
Proof.
  intros Eb Ea Ep. split; rewrite ?Eb, ?Ea, ?Ep; [done|by right|]. intros h x H1 H2. congruence.
Qed.

(** Blocks with the same hash are the same block: among those of the batch,
    and between the batch and what was stored since the snapshot. *)
Definition collision_free `{Crypto} (batch : list Block) (snapshot s : LmdbStore) : Prop :=
  (forall b1 b2, b1 ∈ batch -> b2 ∈ batch -> block_hash b1 = block_hash b2 -> b1 = b2) /\
  (forall b x, b ∈ batch -> st_block snapshot !! block_hash b = None -> st_block s !! block_hash b = Some x ->
     sv_block x = b).

Section batch.
Context `{Crypto} `{LmdbEngine} (c : LedgerConstants) (min_weight : Amount) (s : LmdbStore).
Context (batch : list (Z * Block)).
Hypothesis Hinv : ledger_inv c min_weight s.
Hypothesis Hblocks : forall now b, (now, b) ∈ batch -> block_ok b.
Hypothesis Hmint : forall now b ins, (now, b) ∈ batch -> validate (create_validator c s now b) = Ok ins ->
  mints (create_validator c s now b) = false.
Hypothesis Hroom : forall a i, st_account s !! a = Some i -> ai_block_count i < u64_max.

(** An account whose head is that of the snapshot is as in the snapshot. *)
Lemma head_unmoved s1 a : head_of s1 a = head_of s a -> ~ head_is_new s s1 a.
Proof.
  intros E [Hnz Hn]. rewrite E in Hnz, Hn. unfold head_of in *. destruct (st_account s !! a) as [i|] eqn:Hi; [|done].
  destruct (ac_head _ _ (li_accounts _ _ _ Hinv) _ _ Hi) as (hb & Hhb & _). cbn in Hn. congruence.
Qed.

Lemma since_unmoved s1 a :
  since s s1 -> head_of s1 a = head_of s a ->
  st_account s1 !! a = st_account s !! a /\
  forall h p, is_Some (st_block s !! h) -> st_pending s !! mkPendingKey a h = Some p ->
    st_pending s1 !! mkPendingKey a h = Some p.
Proof. intros Hs E. destruct (sn_account _ _ Hs a) as [Hn|?]; [by apply head_unmoved in Hn|done]. Qed.

Section step.
Context (s1 : LmdbStore) (now : Z) (b : Block) (ins : BlockInsertInstructions).
Hypothesis Hinv1 : ledger_inv c min_weight s1.
Hypothesis Hsince : since s s1.
Hypothesis Hcollision : collision_free batch.*2 s s1.
Hypothesis Hin : (now, b) ∈ batch.
Hypothesis Hval : validate (create_validator c s now b) = Ok ins.

#[local] Abbreviation v := (create_validator c s now b).

Lemma step_account x :
  st_block s1 !! block_hash b = Some x -> sv_block x = b -> sv_account x = v_account v.
Proof.
  intros Hx Exb. pose proof (validator_agrees c min_weight s now b ins Hinv Hval) as Hag.
  unfold sv_account. rewrite Exb. destruct (account_field b) as [a|] eqn:Ea;
    [by rewrite (ag_account _ _ Hag _ Ea)|].
  destruct (validate_position _ _ Hval) as (_ & _ & Hpos & _).
  rewrite (ag_old _ _ Hag) in Hpos. cbn [create_validator v_block] in Hpos.
  destruct (st_account s !! v_account v) as [i|]; [|by destruct b, Hpos].
  destruct Hpos as (_ & _ & [p Hp]). pose proof Hp as Hp'. rewrite (ag_previous _ _ Hag) in Hp.
  destruct (bk_key _ (li_blocks _ _ _ Hinv) _ _ Hp) as [_ Hnz].
  assert (v_account v = sv_account p) as ->
    by (cbn in Hp' |- *; unfold get_account; by rewrite Ea, Hp').
  cbn [create_validator v_block] in *.
  destruct (bk_prev _ (li_blocks _ _ _ Hinv1) _ _ Hx) as (q & Hq & Eq & _); rewrite Exb in *; [done|].
  rewrite (lookup_weaken _ _ _ _ Hp (sn_blocks _ _ Hsince)) in Hq. injection Hq as <-.
  rewrite Eq. unfold sv_account. by rewrite Exb, Ea.
Qed.

Lemma step_fresh : head_of s1 (v_account v) = head_of s (v_account v) ->
  st_block s1 !! block_hash b = None.
Proof.
  intros Hhead. pose proof (validator_agrees c min_weight s now b ins Hinv Hval) as Hag.
  destruct (st_block s1 !! block_hash b) as [x|] eqn:Hx; [|done].
  pose proof (sn_new _ _ Hsince _ _ Hx (ag_fresh _ _ Hag)) as Hne.
  assert (sv_block x = b) as Exb.
  { eapply Hcollision; [by apply (list_elem_of_fmap_2 snd) in Hin|apply (ag_fresh _ _ Hag)|done]. }
  rewrite (step_account x Hx Exb) in Hne. by apply head_unmoved in Hne.
Qed.

Lemma step_agrees : head_of s1 (v_account v) = head_of s (v_account v) -> agrees s1 v.
Proof.
  intros Hhead. pose proof (validator_agrees c min_weight s now b ins Hinv Hval) as Hag.
  pose proof (validate_position _ _ Hval) as (_ & _ & Hpos & _).
  pose proof (validate_amounts _ _ Hval) as [Hr _].
  destruct (since_unmoved s1 _ Hsince Hhead) as [Eacc Epend].
  rewrite (ag_old _ _ Hag) in Hpos. split; try apply Hag.
  - by rewrite (ag_old _ _ Hag), Eacc.
  - rewrite (ag_previous _ _ Hag). destruct (st_account s !! v_account v) as [i|].
    + destruct Hpos as (_ & _ & [p Hp]). rewrite (ag_previous _ _ Hag) in Hp.
      by rewrite Hp, (lookup_weaken _ _ _ _ Hp (sn_blocks _ _ Hsince)).
    + destruct Hpos as [-> _]. by rewrite (inv_zero_hash c min_weight s Hinv), (inv_zero_hash c min_weight s1 Hinv1).
  - by apply step_fresh.
  - intros p Hrcv Hp. destruct (Hr Hrcv) as [Hsrc _].
    apply Epend; [by apply (ag_source _ _ Hag) | by apply (ag_pending _ _ Hag)].
  - intros Hsrc. destruct (ag_source _ _ Hag Hsrc) as [x Hx].
    by rewrite (lookup_weaken _ _ _ _ Hx (sn_blocks _ _ Hsince)).
Qed.

(** A block whose account has moved on is reported as a conflict. *)
Lemma step_conflict :
  head_of s1 (v_account v) <> head_of s (v_account v) -> insert min_weight s1 b ins = Some (None, s1).
Proof.
  intros Hne. unfold insert. replace (account_changed_since_validation s1 ins) with true; [done|].
  unfold account_changed_since_validation, get_current_account_info, account_get.
  rewrite (validate_instructions _ _ Hval). cbn [ins_account ins_old_account_info create_instructions].
  rewrite (ag_old _ _ (validator_agrees c min_weight s now b ins Hinv Hval)).
  fold (head_of s1 (v_account v)) (head_of s (v_account v)). by destruct (Z.eqb_spec (head_of s1 (v_account v)) (head_of s (v_account v))).
Qed.

Lemma step_room i : st_account s1 !! v_account v = Some i ->
  head_of s1 (v_account v) = head_of s (v_account v) -> ai_block_count i < u64_max.
Proof. intros Hi Hhead. destruct (since_unmoved s1 _ Hsince Hhead) as [E _]. rewrite E in Hi. eauto. Qed.

(** Instructions touch pending entries of the account, or of the new hash. *)
Lemma pending_after_other a h :
  agrees s1 v -> a <> v_account v -> h <> block_hash b ->
  pending_after (st_pending s1) ins !! mkPendingKey a h = st_pending s1 !! mkPendingKey a h.
Proof.
  intros Hag Ha Hh. pose proof (snapshot_consistent c min_weight s1 v Hinv1 Hag (Hblocks _ _ Hin)) as Hsn.
  destruct (validate_classifies _ _ Hsn Hval (Hmint _ _ _ Hin Hval))
    as [? _ _ _ Hd Hi|p _ _ _ _ _ Hd Hi|_ _ _ Hd Hi]; unfold pending_after; rewrite Hd, Hi.
  - rewrite lookup_insert_ne; [done|]. cbn [create_validator v_block]. congruence.
  - rewrite lookup_delete_ne; [done|]. congruence.
  - done.
Qed.

Lemma step_since t w : head_of s1 (v_account v) = head_of s (v_account v) -> since s1 (tables_after s1 v ins t w).
Proof.
  intros Hhead. pose proof (step_agrees Hhead) as Hag.
  destruct (tables_after_fields s1 v ins t w) as (Eb & Ea & Ep & _).
  assert (head_is_new s1 (tables_after s1 v ins t w) (v_account v)) as Hnew.
  { unfold head_is_new, head_of. rewrite Ea, lookup_insert_eq. cbn [default from_option id].
    rewrite (validate_instructions _ _ Hval). split; [apply (bo_hash _ (Hblocks _ _ Hin))|apply (ag_fresh _ _ Hag)]. }
  split; rewrite ?Eb, ?Ea, ?Ep.
  - by apply insert_subseteq, (ag_fresh _ _ Hag).
  - intros a. destruct (decide (a = v_account v)) as [->|Hne]; [by left|]. right.
    rewrite lookup_insert_ne by done. split; [done|]. intros h p [x Hx] Hp. rewrite pending_after_other; [done..|].
    intros ->. pose proof (ag_fresh _ _ Hag) as Hf. cbn in Hf. congruence.
  - intros h x [[<- <-]|[_ Hx]]%lookup_insert_Some Hn; [|congruence]. by rewrite (saved_account s1 v Hag).
Qed.

Lemma step_collision t w :
  head_of s1 (v_account v) = head_of s (v_account v) -> collision_free batch.*2 s (tables_after s1 v ins t w).
Proof.
  intros Hhead. destruct Hcollision as [Hb Hs]. split; [done|]. intros b' x Hb' Hn.
  destruct (tables_after_fields s1 v ins t w) as (-> & _).
  intros [[E <-]|[_ Hx]]%lookup_insert_Some; [|by apply Hs].
  apply Hb; [by apply (list_elem_of_fmap_2 snd) in Hin|done|done].
Qed.

Lemma step_inserts :
  head_of s1 (v_account v) = head_of s (v_account v) ->
  exists saved s2, insert min_weight s1 b ins = Some (Some saved, s2) /\
    ledger_inv c min_weight s2 /\ since s1 s2 /\ collision_free batch.*2 s s2 /\ saved = mkSavedBlock b (new_sideband v) /\
    st_block s1 !! block_hash b = None /\ st_block s2 = <[block_hash b:=saved]> (st_block s1) /\
    exists t w, s2 = tables_after s1 v ins t w.
Proof.
  intros Hhead. pose proof (step_agrees Hhead) as Hag.
  assert (forall i, st_account s1 !! v_account v = Some i -> ai_block_count i < u64_max) as Hr
    by eauto using step_room.
  destruct (insert_eq c min_weight s1 v ins Hinv1 Hag (Hblocks _ _ Hin) Hval Hr (Hmint _ _ _ Hin Hval))
    as (t & w & Hi & Hrw & Hw).
  eexists _, (tables_after s1 v ins t w). split; [exact Hi|].
  split; [apply inv_after; eauto|]. split; [by apply step_since|]. split; [by apply step_collision|]. split; [done|].
  split; [apply (ag_fresh _ _ Hag)|]. split; [by destruct (tables_after_fields s1 v ins t w)|eauto].
Qed.
End step.

(** What became of a block of the batch: it is stored; or the validator
    refused it; or the head of its account is no longer that of the snapshot. *)
Definition result_ok (s' : LmdbStore) (nb : Z * Block) (r : processed) : Prop :=
  let v := create_validator c s nb.1 nb.2 in
  match r with
  | (Ok _, Some saved) =>
      validate v = Ok (create_instructions v) /\ saved = mkSavedBlock nb.2 (new_sideband v) /\
      st_block s' !! block_hash nb.2 = Some saved
  | (Err e, None) =>
      validate v = Err e \/
      e = Conflict /\ is_ok (validate v) = true /\ head_of s' (v_account v) <> head_of s (v_account v)
  | _ => False
  end.

Lemma result_ok_mono s1 s2 nb r :
  since s s1 -> since s1 s2 -> result_ok s1 nb r -> result_ok s2 nb r.
Proof.
  intros H1 H2. unfold result_ok. set (v := create_validator c s nb.1 nb.2).
  destruct r as [[] []]; try done.
  - intros (? & ? & ?). split_and!; try done. eapply lookup_weaken; [done|apply H2].
  - intros [?|(? & ? & Hne)]; [by left|right]. split_and!; try done. intros E.
    destruct (since_unmoved s2 (v_account v) ltac:(by etrans) E) as [E2 _].
    destruct (sn_account _ _ H1 (v_account v)) as [[Hnz Hn]|[E1 _]]; [|apply Hne; unfold head_of; by rewrite E1].
    destruct (sn_account _ _ H2 (v_account v)) as [Hn2|[E3 _]].
    + apply (head_unmoved s2 (v_account v) E). eapply later_head; [apply H1|done].
    + apply Hne. rewrite <- E. unfold head_of. by rewrite E3.
Qed.

(** The accepted blocks of a batch, under their hashes. *)
Definition accepted (l : list (Z * Block)) (results : list processed) (h : BlockHash) (x : SavedBlock) : Prop :=
  exists i now b, l !! i = Some (now, b) /\ results !! i = Some (Ok tt, Some x) /\ h = block_hash b.

Lemma accepted_later nb l r results h x : accepted l results h x -> accepted (nb :: l) (r :: results) h x.
Proof. intros (i & now & b & ?). by exists (S i), now, b. Qed.

(** A further invariant [J] that every insertion keeps. *)
Context (J : LmdbStore -> Prop).
Hypothesis HJ : forall s1 now b ins t w, (now, b) ∈ batch ->
  validate (create_validator c s now b) = Ok ins -> ledger_inv c min_weight s1 ->
  agrees s1 (create_validator c s now b) ->
  (forall i, st_account s1 !! v_account (create_validator c s now b) = Some i -> ai_block_count i < u64_max) ->
  J s1 -> J (tables_after s1 (create_validator c s now b) ins t w).

(** What [insert_batch] makes of the state [s1]. *)
Record inserted (l : list (Z * Block)) (results : list processed) (s1 s2 : LmdbStore) : Prop := {
  it_inv : ledger_inv c min_weight s2;
  it_since : since s1 s2;
  it_keeps : J s2;
  it_results : Forall2 (result_ok s2) l results;
  it_new : forall h x, st_block s2 !! h = Some x -> st_block s1 !! h = None -> accepted l results h x;
}.

Lemma inserted_skip nb r l results s1 s2 :
  since s s1 -> result_ok s1 nb r -> inserted l results s1 s2 -> inserted (nb :: l) (r :: results) s1 s2.
Proof.
  intros Hs Hr [? H2 ? ? Hn]. split; try done.
  - constructor; [by eapply result_ok_mono|done].
  - intros h x Hx Hx1. by apply accepted_later, Hn.
Qed.

Lemma inserted_one now b saved l results s1 s2 s3 :
  since s s1 -> since s1 s2 -> st_block s2 = <[block_hash b:=saved]> (st_block s1) ->
  result_ok s2 (now, b) (Ok tt, Some saved) -> inserted l results s2 s3 ->
  inserted ((now, b) :: l) ((Ok tt, Some saved) :: results) s1 s3.
Proof.
  intros Hs Hs1 Eb Hr [? H2 ? ? Hn]. split; try done; [by etrans|..].
  - constructor; [|done]. eapply result_ok_mono; [|done..]. by etrans.
  - intros h x Hx Hx1. destruct (decide (h = block_hash b)) as [->|Hne].
    + exists 0%nat, now, b. split_and!; try done. cbn. repeat f_equal.
      assert (st_block s3 !! block_hash b = Some saved) as E by (eapply lookup_weaken; [|apply H2]; by rewrite Eb, lookup_insert_eq).
      congruence.
    + apply accepted_later, Hn; [done|]. by rewrite Eb, lookup_insert_ne.
Qed.

Lemma insert_batch_ok l s1 :
  l ⊆ batch -> ledger_inv c min_weight s1 -> since s s1 -> collision_free batch.*2 s s1 -> J s1 ->
  exists results s2, insert_batch min_weight s1 (validate_batch c s l) = Some (results, s2) /\
    inserted l results s1 s2.
Proof.
  unfold validate_batch. revert s1. induction l as [|[now b] l IH]; intros s1 Hl Hinv1 Hsince Hcol HJ1.
  { exists [], s1. split; [done|]. split; try done. intros h x H1 H2. congruence. }
  assert ((now, b) ∈ batch) as Hin by (apply Hl; left).
  assert (l ⊆ batch) as Hl' by (intros x Hx; apply Hl; by right).
  cbn. set (v := create_validator c s now b) in *. destruct (validate v) as [ins|e] eqn:Hval.
  - pose proof (validate_instructions _ _ Hval) as Eins.
    destruct (decide (head_of s1 (v_account v) = head_of s (v_account v))) as [Hh|Hh].
    + destruct (step_inserts s1 now b ins Hinv1 Hsince Hcol Hin Hval Hh)
        as (saved & s2 & Hi & Hinv2 & Hs2 & Hcol2 & Esaved & Hf & Eb & t & w & Es2).
      assert (J s2) as HJ2 by (rewrite Es2; apply HJ; eauto using step_agrees, step_room).
      destruct (IH s2 Hl' Hinv2 ltac:(by etrans) Hcol2 HJ2) as (rs & s3 & Er & Hall).
      rewrite Hi. cbn. rewrite Er. cbn. eexists _, s3. split; [done|]. eapply inserted_one; try done.
      cbn. fold v. split_and!; [by rewrite Hval, Eins|done|by rewrite Eb, lookup_insert_eq].
    + rewrite (step_conflict s1 now b ins Hval Hh). cbn.
      destruct (IH s1) as (rs & s2 & Er & Hall); [done..|].
      rewrite Er. cbn. eexists _, s2. split; [done|]. apply inserted_skip; [done| |done].
      right. cbn [fst snd]. fold v. by rewrite Hval.
  - destruct (IH s1) as (rs & s2 & Er & Hall); [done..|].
    rewrite Er. cbn. eexists _, s2. split; [done|]. apply inserted_skip; [done| |done]. by left.
Qed.
End batch.
