(* ===== verification/Rollback.v ===== *)
(** * Rolling blocks back (ledger/src/block_rollback)

    [create_planner] reads what the planner needs from the ledger,
    [roll_back_head_block] decides how the head of an account is rolled back,
    [execute] carries it out, and [roll_back_impl] is the loop over the stack
    of target blocks. A panic is [Panicked]; a loop that has used up its fuel
    is [Running]. *)

From S2P Require Import Prelude Types Blocks Codec Work Store RepWeights Sets Insertion.

Inductive RollbackError :=
  | BlockNotFound | BlockConfirmed | PreviousBlockMissing | RepresentativeBlockMissing | Rejected.

#[global] Instance RollbackError_eq_dec : EqDecision RollbackError.
Proof. solve_decision. Defined.

Record RollbackInstructions := mkRollbackInstructions {
  ri_block_hash : BlockHash;
  ri_block_sub_type : BlockSubType;
  ri_account : Account;
  ri_remove_pending : option PendingKey;
  ri_add_pending : option (PendingKey * PendingInfo);
  ri_set_account_info : AccountInfo;
  ri_old_account_info : AccountInfo;
  ri_clear_successor : option BlockHash;
  ri_new_balance : Amount;
  ri_new_representative : option PublicKey;
}.

Inductive RollbackStep :=
  | RollBackBlock (i : RollbackInstructions)
  | RequestDependencyRollback (h : BlockHash).

Record RollbackPlanner := mkRollbackPlanner {
  rp_epochs : Epochs;
  rp_head_block : SavedBlock;
  rp_account : Account;
  rp_current_account_info : AccountInfo;
  rp_previous_representative : option PublicKey;
  rp_previous : option SavedBlock;
  rp_linked_account : Account;
  rp_pending_receive : option PendingInfo;
  rp_latest_block_for_destination : option BlockHash;
  rp_confirmation_height : ConfirmationHeightInfo;
  rp_now : Z;
}.

(** ** rollback_planner.rs *)

Definition rp_previous_balance (p : RollbackPlanner) : Amount :=
  match rp_previous p with Some b => sv_balance b | None => amount_ZERO end.

Definition rp_previous_epoch (p : RollbackPlanner) : Epoch :=
  match rp_previous p with Some b => sv_epoch b | None => Epoch0 end.

Definition block_sub_type (p : RollbackPlanner) : BlockSubType :=
  if ai_balance (rp_current_account_info p) <? rp_previous_balance p then StSend
  else if rp_previous_balance p <? ai_balance (rp_current_account_info p) then
    if is_open (rp_head_block p) then StOpen else StReceive
  else if is_epoch_link (rp_epochs p) (default u256_ZERO (link_field (rp_head_block p))) then StEpoch
  else StChange.

Definition ensure_block_is_not_confirmed (p : RollbackPlanner) : result RollbackError unit :=
  if sv_height (rp_head_block p) <=? ch_height (rp_confirmation_height p) then Err BlockConfirmed
  else Ok tt.

Definition add_pending (p : RollbackPlanner) : option (PendingKey * PendingInfo) :=
  match block_sub_type p with
  | StOpen | StReceive =>
      Some (mkPendingKey (rp_account p) (source_or_link (rp_head_block p)),
            mkPendingInfo (rp_linked_account p)
              (amount_sub (ai_balance (rp_current_account_info p)) (rp_previous_balance p))
              (sv_source_epoch (rp_head_block p)))
  | _ => None
  end.

Definition remove_pending (p : RollbackPlanner) : option PendingKey :=
  if bool_decide (block_sub_type p = StSend)
  then Some (mkPendingKey (destination_or_link (rp_head_block p)) (block_hash (rp_head_block p)))
  else None.

Definition previous_account_info (p : RollbackPlanner) : AccountInfo :=
  if u256_is_zero (previous (rp_head_block p)) then account_info_default
  else mkAccountInfo (previous (rp_head_block p))
         (default (ai_representative (rp_current_account_info p)) (rp_previous_representative p))
         (ai_open_block (rp_current_account_info p)) (rp_previous_balance p) (rp_now p)
         (wrap 64 (ai_block_count (rp_current_account_info p) - 1)) (rp_previous_epoch p).

Definition rollback_instructions (p : RollbackPlanner) : RollbackInstructions :=
  mkRollbackInstructions (block_hash (rp_head_block p)) (block_sub_type p) (rp_account p)
    (remove_pending p) (add_pending p) (previous_account_info p) (rp_current_account_info p)
    ((fun b : SavedBlock => block_hash b) <$> rp_previous p) (rp_previous_balance p)
    (rp_previous_representative p).

Definition representative_missing (p : RollbackPlanner) : bool :=
  bool_decide (rp_previous_representative p = None)
  && (match block_type (rp_head_block p) with BtLegacyChange | BtState => true | _ => false end)
  && negb (is_open (rp_head_block p)).

(** [RollbackPlanner::roll_back_head_block]; the [expect] is for the account
    that received the send. *)
Definition plan_head_block (p : RollbackPlanner) : run (result RollbackError RollbackStep) :=
  match ensure_block_is_not_confirmed p with
  | Err e => Finished (Err e)
  | Ok _ =>
      if bool_decide (block_sub_type p = StSend) && bool_decide (rp_pending_receive p = None) then
        h ← unwrap (rp_latest_block_for_destination p);
        Finished (Ok (RequestDependencyRollback h))
      else if representative_missing p then Finished (Err RepresentativeBlockMissing)
      else Finished (Ok (RollBackBlock (rollback_instructions p)))
  end.

(** ** planner_factory.rs *)

Definition get_previous_representative (s : LmdbStore) (head_block : SavedBlock)
    : run (option PublicKey) :=
  rep_block_hash ← (if negb (u256_is_zero (previous head_block))
                    then fueled (find_rep_block s (previous head_block)) else Finished u256_ZERO);
  if negb (u256_is_zero rep_block_hash) then
    match any_get_block s rep_block_hash with
    | None => Panicked
    | Some rep_block => Finished (Some (default u256_ZERO (representative_field rep_block)))
    end
  else Finished None.

Definition load_previous (s : LmdbStore) (head_block : SavedBlock)
    : result RollbackError (option SavedBlock) :=
  if u256_is_zero (previous head_block) then Ok None
  else match any_get_block s (previous head_block) with
       | None => Err PreviousBlockMissing
       | Some p => Ok (Some p)
       end.

Definition create_planner (c : LedgerConstants) (s : LmdbStore) (now : Z) (head_block : SavedBlock)
    : run (result RollbackError RollbackPlanner) :=
  account ← unwrap (block_account s (block_hash head_block));
  previous_representative ← get_previous_representative s head_block;
  match load_previous s head_block with
  | Err e => Finished (Err e)
  | Ok previous =>
      Finished (Ok (mkRollbackPlanner (lk_epochs c) head_block account
        (default account_info_default (any_get_account s account))
        previous_representative previous
        (default u256_ZERO (block_account s (source_or_link head_block)))
        (any_get_pending s
           (mkPendingKey (destination_or_link head_block) (block_hash head_block)))
        (any_account_head s (destination_or_link head_block))
        (default (mkConfirmationHeightInfo 0 u256_ZERO)
           (confirmed_get_conf_info s (sv_account head_block)))
        now))
  end.

(** ** instructions_executor.rs *)

Section executor.
Context `{LmdbEngine}.
Variable min_weight : Amount.

Definition update_pending_table (s : LmdbStore) (i : RollbackInstructions) : option LmdbStore :=
  s1 ← (match ri_remove_pending i with Some k => pending_del s k | None => Some s end);
  Some (match ri_add_pending i with Some (k, p) => pending_put s1 k p | None => s1 end).

Definition update_block_table (s : LmdbStore) (i : RollbackInstructions) : option LmdbStore :=
  let s1 := block_del s (ri_block_hash i) in
  match ri_clear_successor i with
  | Some h => successor_del s1 h
  | None => Some s1
  end.

Definition roll_back_representative_cache (s : LmdbStore) (i : RollbackInstructions)
    : option LmdbStore :=
  match ri_new_representative i with
  | Some previous_representative =>
      representation_add_dual min_weight s
        (ai_representative (ri_old_account_info i))
        (wrapping_sub amount_ZERO (ai_balance (ri_old_account_info i)))
        previous_representative (ri_new_balance i)
  | None =>
      representation_add min_weight s (ai_representative (ri_old_account_info i))
        (wrapping_sub amount_ZERO (ai_balance (ri_old_account_info i)))
  end.

Definition execute (s : LmdbStore) (i : RollbackInstructions) : option LmdbStore :=
  s1 ← update_pending_table s i;
  s2 ← update_account s1 (ri_account i) (ri_old_account_info i) (ri_set_account_info i);
  s3 ← update_block_table s2 i;
  s4 ← roll_back_representative_cache s3 i;
  Some (add_block_count (-1) s4).

(** ** rollback_performer.rs *)

Definition load_block (s : LmdbStore) (h : BlockHash) : result RollbackError SavedBlock :=
  ok_or (any_get_block s h) BlockNotFound.

Definition load_account_head (s : LmdbStore) (b : SavedBlock) : run (result RollbackError SavedBlock) :=
  info ← unwrap (any_get_account s (sv_account b));
  Finished (load_block s (ai_head info)).

Definition roll_back_head_block (c : LedgerConstants) (s : LmdbStore) (now : Z)
    (head_block : SavedBlock) : run (result RollbackError RollbackStep) :=
  r ← create_planner c s now head_block;
  match r with
  | Err e => Finished (Err e)
  | Ok planner => plan_head_block planner
  end.

(** What the performer leaves behind: its result, the blocks rolled back so
    far, and the store. Errors do not undo earlier steps. *)
Record performed := mkPerformed {
  pf_result : result RollbackError unit;
  pf_rolled_back : list SavedBlock;
  pf_store : LmdbStore;
}.

(** One turn of the loop; the stack is a list with its top first. *)
Definition roll_back_turn (c : LedgerConstants) (now : Z) (s : LmdbStore)
    (rolled_back : list SavedBlock) (target_block head_block : SavedBlock)
    (targets : list (SavedBlock * SavedBlock))
    : run (performed + (LmdbStore * list SavedBlock * list (SavedBlock * SavedBlock))) :=
  if any_block_exists s (block_hash target_block) then
    step ← roll_back_head_block c s now head_block;
    match step with
    | Err e => Finished (inl (mkPerformed (Err e) rolled_back s))
    | Ok (RollBackBlock instructions) =>
        s' ← unwrap (execute s instructions);
        let rolled_back' := rolled_back ++ [head_block] in
        if negb (block_hash head_block =? block_hash target_block) then
          head' ← load_account_head s' target_block;
          match head' with
          | Err e => Finished (inl (mkPerformed (Err e) rolled_back' s'))
          | Ok h => Finished (inr (s', rolled_back', (target_block, h) :: targets))
          end
        else Finished (inr (s', rolled_back', (target_block, head_block) :: targets))
    | Ok (RequestDependencyRollback dependency_hash) =>
        match load_block s dependency_hash with
        | Err e => Finished (inl (mkPerformed (Err e) rolled_back s))
        | Ok dep_block =>
            dep_head ← load_account_head s target_block;
            match dep_head with
            | Err e => Finished (inl (mkPerformed (Err e) rolled_back s))
            | Ok h => Finished (inr (s, rolled_back,
                                     (dep_block, h) :: (target_block, head_block) :: targets))
            end
        end
    end
  else Finished (inr (s, rolled_back, targets)).

(** [now n] is the time read when [n] more turns are allowed. *)
Fixpoint roll_back_impl (c : LedgerConstants) (now : nat -> Z) (fuel : nat) (s : LmdbStore)
    (rolled_back : list SavedBlock) (targets : list (SavedBlock * SavedBlock)) : run performed :=
  match fuel, targets with
  | _, [] => Finished (mkPerformed (Ok tt) rolled_back s)
  | O, _ => Running
  | S fuel, (target_block, head_block) :: targets =>
      r ← roll_back_turn c (now fuel) s rolled_back target_block head_block targets;
      match r with
      | inl p => Finished p
      | inr (s', rolled_back', targets') => roll_back_impl c now fuel s' rolled_back' targets'
      end
  end.

Definition roll_back (c : LedgerConstants) (now : nat -> Z) (fuel : nat) (s : LmdbStore)
    (h : BlockHash) : run performed :=
  match load_block s h with
  | Err e => Finished (mkPerformed (Err e) [] s)
  | Ok target_block =>
      r ← load_account_head s target_block;
      match r with
      | Err e => Finished (mkPerformed (Err e) [] s)
      | Ok head_block => roll_back_impl c now fuel s [] [(target_block, head_block)]
      end
  end.

End executor.
