(* ===== verification/RollbackSafe.v ===== *)
(** * Rolling back the head of an account keeps the ledger invariant

    For the head of an account that is not confirmed the planner either asks
    for the rollback of the account that received the block, or yields
    instructions whose execution does not panic and restores [ledger_inv]. *)

From S2P Require Import Prelude Types Blocks Codec Work Store RepWeights Sets Insertion Rollback.
From S2P Require Import Chains Money LedgerInv InsertSafe.

(** ** The representative finder *)

Lemma find_rep_loop_ok s h r fuel :
  blocks_ok (st_block s) -> rep_at (st_block s) h r ->
  (forall b, st_block s !! h = Some b -> (Z.to_nat (sv_height b) < fuel)%nat) ->
  exists rh (rb : SavedBlock), find_rep_loop s fuel h = Some rh /\ st_block s !! rh = Some rb /\
    representative_field rb = Some r.
Proof.
  intros Hok Hrep. revert fuel. induction Hrep as [h b r Hb Er|h b r Hb Er Hrep IH]; intros fuel Hf.
  - destruct fuel as [|fuel]; [specialize (Hf _ Hb); lia|].
    destruct (bk_key _ Hok _ _ Hb) as [Hk Hnz]. exists h, b. cbn. unfold block_get. rewrite Hb.
    destruct (sv_block b) eqn:Eb; try done; cbn [u256_is_zero];
      rewrite <- Eb in *; rewrite Hk; destruct (u256_is_zero_spec h); done.
  - destruct fuel as [|fuel]; [specialize (Hf _ Hb); lia|].
    destruct (IH fuel) as (rh & rb & Hl & ?).
    { intros p Hp. specialize (Hf _ Hb).
      destruct (decide (previous b = 0)) as [E|E].
      { rewrite E in Hp. by destruct (bk_key _ Hok _ _ Hp). }
      destruct (bk_prev _ Hok _ _ Hb E) as (p' & Hp' & _ & Eh).
      assert (p' = p) as -> by congruence. pose proof (bk_height _ Hok _ _ Hp). lia. }
    exists rh, rb. split; [|done]. cbn. unfold block_get. rewrite Hb.
    destruct (sv_block b) eqn:Eb; try done; rewrite <- Eb in *; exact Hl.
Qed.

Lemma find_rep_block_ok s h r :
  blocks_ok (st_block s) -> rep_at (st_block s) h r ->
  exists rh (rb : SavedBlock), find_rep_block s h = Some rh /\ st_block s !! rh = Some rb /\
    representative_field rb = Some r.
Proof.
  intros Hok Hrep. apply find_rep_loop_ok; [done..|]. intros b Hb. unfold walk_fuel, block_get.
  rewrite Hb. cbn. lia.
Qed.

(** Every block of a chain has a representative at or below it. *)
Lemma rep_at_previous tb h (b : SavedBlock) r :
  rep_at tb h r -> tb !! h = Some b -> representative_field b = None -> rep_at tb (previous b) r.
Proof. destruct 1; intros; simplify_eq; done. Qed.

Lemma rep_at_exists tb h (b : SavedBlock) :
  blocks_ok tb -> tb !! h = Some b -> exists r, rep_at tb h r.
Proof.
  intros Hok. remember (Z.to_nat (sv_height b)) as n eqn:En. revert h b En.
  induction n as [n IH] using lt_wf_ind. intros h b -> Hb.
  destruct (representative_field b) as [r|] eqn:Er; [by exists r; eapply rep_here|].
  pose proof (bk_height _ Hok _ _ Hb).
  destruct (decide (previous b = 0)) as [E|E].
  { destruct (bk_open _ Hok _ _ Hb E) as [_ Ho]. destruct (sv_block b); done. }
  destruct (bk_prev _ Hok _ _ Hb E) as (p & Hp & _ & Eh).
  pose proof (bk_height _ Hok _ _ Hp).
  destruct (IH (Z.to_nat (sv_height p)) ltac:(lia) _ p eq_refl Hp) as [r Hr].
  exists r. by eapply rep_below.
Qed.

(** ** The planner's view of a head block *)

Record planner_for (s : LmdbStore) (b : SavedBlock) (i : AccountInfo) (p : RollbackPlanner) : Prop := {
  pl_head : rp_head_block p = b;
  pl_account : rp_account p = sv_account b;
  pl_info : rp_current_account_info p = i;
  pl_previous : rp_previous p = st_block s !! previous b;
  pl_rep : match rp_previous_representative p with
           | None => previous b = 0
           | Some r => previous b <> 0 /\ rep_at (st_block s) (previous b) r
           end;
  pl_linked : forall sb, st_block s !! source_or_link b = Some sb -> rp_linked_account p = sv_account sb;
  pl_pending : rp_pending_receive p = st_pending s !! send_key b;
  pl_latest : rp_latest_block_for_destination p = ai_head <$> st_account s !! destination_or_link b;
  pl_conf : rp_confirmation_height p
            = default (mkConfirmationHeightInfo 0 u256_ZERO) (st_confirmation_height s !! sv_account b);
}.

Section head.
Context (c : LedgerConstants) (min_weight : Amount) (s : LmdbStore) (b : SavedBlock) (i : AccountInfo).
Hypothesis Hinv : ledger_inv c min_weight s.
Hypothesis Hrm : removed (st_block s) (st_account s) b i.

#[local] Abbreviation tb := (st_block s).
#[local] Abbreviation Hok := (li_blocks _ _ _ Hinv).

Lemma create_planner_ok now :
  exists p, create_planner c s now b = Finished (Ok p) /\ planner_for s b i p.
Proof.
  pose proof (rm_block _ _ _ _ Hrm) as Hb. pose proof (rm_info _ _ _ _ Hrm) as Hi.
  pose proof (any_get_block_eq c min_weight s Hinv) as Hget.
  assert (exists rep, get_previous_representative s b = Finished rep /\
    match rep with None => previous b = 0
    | Some r => previous b <> 0 /\ rep_at tb (previous b) r end) as (rep & Erep & Hrep).
  { unfold get_previous_representative. destruct (u256_is_zero_spec (previous b)) as [E|E]; cbn [negb].
    - by exists None.
    - destruct (bk_prev _ Hok _ _ Hb E) as (p & Hp & _).
      destruct (rep_at_exists _ _ _ Hok Hp) as [r Hr].
      destruct (find_rep_block_ok s _ _ Hok Hr) as (rh & rb & -> & Hrb & Er). cbn.
      destruct (bk_key _ Hok _ _ Hrb) as [_ Hnz]. destruct (u256_is_zero_spec rh); [done|]. cbn.
      rewrite Hget, Hrb, Er. by exists (Some r). }
  assert (load_previous s b = Ok (tb !! previous b)) as Eprev.
  { unfold load_previous. rewrite Hget. destruct (u256_is_zero_spec (previous b)) as [E|E].
    - by rewrite E, (inv_zero_hash c min_weight s Hinv).
    - by destruct (bk_prev _ Hok _ _ Hb E) as (p & -> & _). }
  unfold create_planner, block_account. rewrite (Hget (block_hash b)), Hb. cbn [fmap option_fmap option_map unwrap mbind run_bind].
  rewrite Erep. cbn [mbind run_bind]. rewrite Eprev. eexists. split; [reflexivity|].
  split; cbn; try done.
  - unfold any_get_account, account_get. by rewrite Hi.
  - intros sb Hsb. by rewrite Hget, Hsb.
Qed.

Section planned.
Context (p : RollbackPlanner) (Hp : planner_for s b i p).

Lemma planned_previous_balance : rp_previous_balance p = prev_bal tb b.
Proof.
  unfold rp_previous_balance, prev_bal. rewrite (pl_previous _ _ _ _ Hp).
  by destruct (tb !! previous b).
Qed.

Lemma planned_balance : ai_balance (rp_current_account_info p) = sv_balance b.
Proof. rewrite (pl_info _ _ _ _ Hp). symmetry. by eapply removed_balance; [apply Hinv|]. Qed.

Lemma planned_sub_type :
  (pos_send tb b -> block_sub_type p = StSend) /\
  (pos_recv tb b -> block_sub_type p = StOpen \/ block_sub_type p = StReceive) /\
  (sv_balance b = prev_bal tb b -> block_sub_type p = StEpoch \/ block_sub_type p = StChange).
Proof.
  unfold block_sub_type, pos_send, pos_recv. rewrite planned_balance, planned_previous_balance.
  split_and!; intros Hlt; repeat case_test; try lia.
  - done.
  - destruct (is_open _); auto.
  - destruct (is_epoch_link _ _); auto.
Qed.

Lemma planned_amounts : 0 <= prev_bal tb b < 2 ^ 128 /\ 0 <= sv_balance b < 2 ^ 128.
Proof.
  split; [|apply (bk_amount _ Hok _ _ (rm_block _ _ _ _ Hrm))].
  unfold prev_bal. destruct (tb !! previous b) eqn:E; cbn; [|lia].
  apply (bk_amount _ Hok _ _ E).
Qed.

(** The pending updates of the instructions, by kind of block. *)
Lemma planned_pending :
  (pos_send tb b -> remove_pending p = Some (send_key b) /\ add_pending p = None) /\
  (pos_recv tb b -> remove_pending p = None /\
     exists info, add_pending p = Some (recv_key b, info) /\
       pi_amount info = sv_balance b - prev_bal tb b /\
       (forall sb, tb !! source_or_link b = Some sb -> pi_source info = sv_account sb) /\
       pi_epoch info = sv_source_epoch b) /\
  (sv_balance b = prev_bal tb b -> remove_pending p = None /\ add_pending p = None).
Proof.
  destruct planned_sub_type as (Hs & Hr & Hn). unfold remove_pending, add_pending.
  rewrite (pl_head _ _ _ _ Hp), (pl_account _ _ _ _ Hp), planned_balance, planned_previous_balance.
  pose proof planned_amounts. split_and!.
  - intros E. by rewrite (Hs E).
  - intros E. unfold pos_recv in E.
    assert (amount_sub (sv_balance b) (prev_bal tb b) = sv_balance b - prev_bal tb b) as Esub
      by (unfold amount_sub; apply wrap_small; unfold in_u; lia).
    destruct (Hr E) as [-> | ->]; (split; [done|]); eexists; (split; [done|]); cbn; rewrite Esub;
      split_and!; try done; apply (pl_linked _ _ _ _ Hp).
  - intros E. by destruct (Hn E) as [-> | ->].
Qed.

(** The two outcomes for a head that is not confirmed. *)
Lemma plan_cases :
  (default 0 (ch_height <$> st_confirmation_height s !! sv_account b)) < sv_height b ->
  (plan_head_block p = Finished (Ok (RollBackBlock (rollback_instructions p))) /\
   (pos_send tb b -> is_Some (st_pending s !! send_key b))) \/
  (pos_send tb b /\ st_pending s !! send_key b = None /\
   exists j, st_account s !! destination_or_link b = Some j /\
     plan_head_block p = Finished (Ok (RequestDependencyRollback (ai_head j)))).
Proof.
  intros Hconf. unfold plan_head_block, ensure_block_is_not_confirmed.
  rewrite (pl_head _ _ _ _ Hp), (pl_conf _ _ _ _ Hp), (pl_pending _ _ _ _ Hp), (pl_latest _ _ _ _ Hp).
  replace (sv_height b <=? _) with false
    by (symmetry; apply Z.leb_gt; by destruct (st_confirmation_height s !! sv_account b)).
  assert (representative_missing p = false) as ->.
  { unfold representative_missing. rewrite (pl_head _ _ _ _ Hp). pose proof (pl_rep _ _ _ _ Hp) as Hrep.
    destruct (rp_previous_representative p); [done|].
    destruct (bk_open _ Hok _ _ (rm_block _ _ _ _ Hrm) Hrep) as [_ ->]. by rewrite andb_false_r. }
  destruct planned_sub_type as (Hs & Hr & Hn).
  destruct (Z.lt_trichotomy (sv_balance b) (prev_bal tb b)) as [Hlt|[Heq|Hgt]].
  - rewrite (Hs Hlt). destruct (st_pending s !! send_key b) as [x|] eqn:Hk; cbn [bool_decide andb].
    + left. by rewrite bool_decide_true by done.
    + right. split; [done|]. split; [done|].
      destruct (pd_state _ _ _ (li_pending _ _ _ Hinv) _ _ (rm_block _ _ _ _ Hrm) Hlt)
        as [(? & ? & _)|(_ & r & rb & Hrb & _ & _ & Ek)]; [congruence|].
      destruct (ac_block _ _ (li_accounts _ _ _ Hinv) _ _ Hrb) as (j & Hj & _).
      injection Ek as Ed _. rewrite Ed in Hj. exists j. split; [done|].
      rewrite !bool_decide_true by done. cbn. by rewrite Hj.
  - left. split; [|intros ?; unfold pos_send in *; lia].
    destruct (Hn Heq) as [-> | ->]; done.
  - left. split; [|intros ?; unfold pos_send in *; lia].
    destruct (Hr Hgt) as [-> | ->]; done.
Qed.

Lemma plan_confirmed :
  sv_height b <= default 0 (ch_height <$> st_confirmation_height s !! sv_account b) ->
  plan_head_block p = Finished (Err BlockConfirmed).
Proof.
  intros Hconf. unfold plan_head_block, ensure_block_is_not_confirmed.
  rewrite (pl_head _ _ _ _ Hp), (pl_conf _ _ _ _ Hp).
  replace (sv_height b <=? _) with true; [done|].
  symmetry. apply Z.leb_le. by destruct (st_confirmation_height s !! sv_account b).
Qed.

Lemma planned_below : previous b <> 0 -> below tb b i (previous_account_info p).
Proof.
  intros Hnz. unfold previous_account_info. rewrite (pl_head _ _ _ _ Hp), (pl_info _ _ _ _ Hp).
  destruct (u256_is_zero_spec (previous b)); [done|].
  pose proof (rm_block _ _ _ _ Hrm) as Hb.
  destruct (bk_prev _ Hok _ _ Hb Hnz) as (q & Hq & _ & Eh).
  pose proof (removed_height _ _ _ _ (li_accounts _ _ _ Hinv) Hrm) as Ec.
  pose proof (bk_height _ Hok _ _ Hb). pose proof (bk_height _ Hok _ _ Hq).
  pose proof (pl_rep _ _ _ _ Hp) as Hrep.
  split; cbn; try done.
  - apply wrap_small. unfold in_u, u64_max in *. lia.
  - exists q. unfold rp_previous_balance, rp_previous_epoch. by rewrite (pl_previous _ _ _ _ Hp), Hq.
  - destruct (rp_previous_representative p); cbn; [apply Hrep | done].
Qed.

(** *** Executing the instructions *)

Hypothesis Hunconfirmed :
  default 0 (ch_height <$> st_confirmation_height s !! sv_account b) < sv_height b.
Hypothesis Hsent : pos_send tb b -> is_Some (st_pending s !! send_key b).

#[local] Abbreviation ins := (rollback_instructions p).
#[local] Abbreviation tb' := (delete (block_hash b) tb).
#[local] Abbreviation ta' := (remove_account (st_account s) b (previous_account_info p)).

Definition pending_back (tp : pending_table) : pending_table :=
  let tp1 := match remove_pending p with Some k => delete k tp | None => tp end in
  match add_pending p with Some (k, info) => <[k:=info]> tp1 | None => tp1 end.

#[local] Abbreviation tp' := (pending_back (st_pending s)).

Lemma not_genesis : block_hash b <> genesis_hash c.
Proof.
  intros E. destruct (li_genesis _ _ _ Hinv) as [(gb & Hgb & Eacc & Eh) [ci Hci]].
  rewrite <- E, (rm_block _ _ _ _ Hrm) in Hgb. injection Hgb as <-.
  destruct (li_conf _ _ _ Hinv _ _ Hci) as (fb & Hfb & _ & Efh).
  pose proof (bk_height _ Hok _ _ Hfb). revert Hunconfirmed. rewrite Eacc, Hci. cbn. lia.
Qed.

Lemma pending_back_ok : pending_ok (genesis_hash c) tb' tp'.
Proof.
  destruct planned_pending as (Hs & Hr & Hn). pose proof not_genesis.
  pose proof (li_blocks _ _ _ Hinv). pose proof (li_accounts _ _ _ Hinv).
  pose proof (li_pending _ _ _ Hinv). unfold pending_back.
  destruct (Z.lt_trichotomy (sv_balance b) (prev_bal tb b)) as [Hlt|[Heq|Hgt]].
  - destruct (Hs Hlt) as [-> ->], (Hsent Hlt) as [x Hx]. by eapply pending_ok_unsend.
  - destruct (Hn Heq) as [-> ->]. by eapply pending_ok_unneutral.
  - destruct (Hr Hgt) as (-> & info & -> & Ha & Hl & _). by eapply pending_ok_unreceive.
Qed.

Lemma removed_account_balance : ai_balance i = sv_balance b.
Proof. symmetry. by eapply removed_balance; [apply Hinv|]. Qed.

Lemma previous_info_balance : previous b <> 0 -> ai_balance (previous_account_info p) = prev_bal tb b.
Proof.
  intros Hnz. destruct (bl_prev _ _ _ _ (planned_below Hnz)) as (q & Hq & -> & _).
  unfold prev_bal. by rewrite Hq.
Qed.

Lemma balance_sum_back :
  map_sum ai_balance ta' = map_sum ai_balance (st_account s) - sv_balance b + prev_bal tb b.
Proof.
  pose proof (rm_info _ _ _ _ Hrm) as Hi. unfold remove_account.
  destruct (u256_is_zero_spec (previous b)) as [E|E].
  - rewrite (map_sum_delete _ _ _ i Hi), removed_account_balance. unfold prev_bal.
    rewrite E, (inv_zero_hash c min_weight s Hinv). cbn. lia.
  - rewrite map_sum_insert, Hi. cbn. rewrite removed_account_balance, previous_info_balance by done. lia.
Qed.

Lemma supply_back : supply ta' tp' = supply (st_account s) (st_pending s).
Proof.
  destruct planned_pending as (Hs & Hr & Hn). unfold supply, pending_back.
  rewrite balance_sum_back. pose proof (li_pending _ _ _ Hinv) as Hpd.
  destruct (Z.lt_trichotomy (sv_balance b) (prev_bal tb b)) as [Hlt|[Heq|Hgt]].
  - destruct (Hs Hlt) as [-> ->], (Hsent Hlt) as [x Hx].
    destruct (pd_state _ _ _ Hpd _ _ (rm_block _ _ _ _ Hrm) Hlt) as [(y & Hy & Ey)|[? _]]; [|congruence].
    rewrite (map_sum_delete _ _ _ y Hy). lia.
  - destruct (Hn Heq) as [-> ->]. lia.
  - destruct (Hr Hgt) as (-> & info & -> & Ha & _).
    destruct (pd_recv _ _ _ Hpd _ _ (rm_block _ _ _ _ Hrm) not_genesis Hgt) as [Hk _].
    rewrite map_sum_insert_None by done. lia.
Qed.

Lemma balances_back : balances_ok ta' tp'.
Proof.
  split.
  - intros a j Hj. destruct (inv_balances_ok c min_weight s Hinv) as [Hb _]. pose proof planned_amounts.
    revert Hj. unfold remove_account. destruct (u256_is_zero_spec (previous b)) as [E|E].
    + intros [_ Hj]%lookup_delete_Some. eauto.
    + intros [[_ <-]|[_ Hj]]%lookup_insert_Some; [|eauto]. rewrite previous_info_balance by done. lia.
  - intros k x Hk%(pd_amount _ _ _ pending_back_ok). apply Hk.
Qed.

Lemma delegated_back r :
  delegated ta' r = delegated (st_account s) r - (if r =? ai_representative i then sv_balance b else 0)
    + (if u256_is_zero (previous b) then 0
       else if r =? ai_representative (previous_account_info p) then prev_bal tb b else 0).
Proof.
  pose proof (rm_info _ _ _ _ Hrm) as Hi. unfold remove_account, delegated.
  destruct (u256_is_zero_spec (previous b)) as [E|E].
  - rewrite (map_sum_delete _ _ _ i Hi), removed_account_balance, (Z.eqb_sym r). lia.
  - rewrite map_sum_insert, Hi. cbn. rewrite removed_account_balance, previous_info_balance by done.
    rewrite !(Z.eqb_sym r). lia.
Qed.

Lemma delegated_back_u128 r : in_u 128 (delegated ta' r).
Proof.
  apply (delegated_bounds _ _ _ balances_back). rewrite supply_back, (li_supply _ _ _ Hinv). lia.
Qed.

Context `{LmdbEngine}.

Definition tables_back (t w : RepWeights) : LmdbStore :=
  let s1 := set_pending tp' s in
  let s2 := set_account ta' s1 in
  let s3 := if u256_is_zero (previous b) then add_account_count (-1) s2 else s2 in
  let s4 := set_block tb' s3 in
  let s5 := if u256_is_zero (previous b) then s4
            else set_successors (delete (previous b) (st_successors s)) s4 in
  add_block_count (-1) (set_weights w (set_rep_weight t s5)).

Lemma back_pending : update_pending_table s ins = Some (set_pending tp' s).
Proof.
  unfold update_pending_table, pending_back. cbn [ri_remove_pending ri_add_pending rollback_instructions].
  destruct planned_pending as (Hs & Hr & Hn).
  destruct (Z.lt_trichotomy (sv_balance b) (prev_bal tb b)) as [Hlt|[Heq|Hgt]].
  - destruct (Hs Hlt) as [-> ->], (Hsent Hlt) as [x Hx]. unfold pending_del.
    by rewrite (table_del_present _ _ x Hx).
  - destruct (Hn Heq) as [-> ->]. cbn. by destruct s.
  - destruct (Hr Hgt) as (-> & info & -> & _). done.
Qed.

Lemma back_account s1 :
  st_account s1 = st_account s ->
  update_account s1 (sv_account b) i (previous_account_info p)
  = Some ((if u256_is_zero (previous b) then add_account_count (-1) else id) (set_account ta' s1)).
Proof.
  intros Ea. pose proof (rm_info _ _ _ _ Hrm) as Hi. unfold remove_account.
  destruct (u256_is_zero_spec (previous b)) as [E|E].
  - unfold update_account, previous_account_info. rewrite (pl_head _ _ _ _ Hp), E. cbn [u256_is_zero].
    cbn. unfold account_del. rewrite Ea, (table_del_present _ _ i Hi). done.
  - rewrite update_account_put.
    + rewrite Ea, (rm_head _ _ _ _ Hrm).
      destruct (bk_key _ Hok _ _ (rm_block _ _ _ _ Hrm)) as [_ Hnz].
      by destruct (u256_is_zero_spec (block_hash b)).
    + by rewrite (bl_head _ _ _ _ (planned_below E)).
    + rewrite Ea. eauto.
Qed.

Lemma back_blocks s1 :
  st_block s1 = tb -> st_successors s1 = st_successors s ->
  update_block_table s1 ins
  = Some ((if u256_is_zero (previous b) then id
           else set_successors (delete (previous b) (st_successors s))) (set_block tb' s1)).
Proof.
  intros Eb Es. unfold update_block_table, block_del.
  cbn [ri_block_hash ri_clear_successor rollback_instructions].
  rewrite (pl_head _ _ _ _ Hp), (pl_previous _ _ _ _ Hp), Eb.
  destruct (u256_is_zero_spec (previous b)) as [E|E].
  - by rewrite E, (inv_zero_hash c min_weight s Hinv).
  - pose proof (rm_block _ _ _ _ Hrm) as Hb.
    destruct (bk_prev _ Hok _ _ Hb E) as (q & Hq & _). rewrite Hq. cbn.
    destruct (bk_key _ Hok _ _ Hq) as [-> _]. unfold successor_del. cbn. rewrite Es.
    rewrite (table_del_present _ _ (block_hash b)); [done|]. apply (li_succ _ _ _ Hinv). eauto.
Qed.

Lemma back_representation s1 :
  st_rep_weight s1 = st_rep_weight s -> st_weights s1 = st_weights s ->
  exists t w,
    roll_back_representative_cache min_weight s1 ins = Some (set_weights w (set_rep_weight t s1)) /\
    rep_weights_ok min_weight (set_weights w (set_rep_weight t s1)) /\
    forall r, weight_of t r = delegated ta' r.
Proof.
  intros Er Ew.
  assert (rep_weights_ok min_weight s1) as Hrw.
  { destruct (li_rep_weights _ _ _ Hinv). split; by rewrite ?Er, ?Ew. }
  assert (forall r, weight_of (st_rep_weight s1) r = delegated (st_account s) r) as Hw.
  { intros r. rewrite Er. apply (li_weights _ _ _ Hinv). }
  pose proof delegated_back as Hdb. pose proof delegated_back_u128 as Hdu.
  unfold roll_back_representative_cache.
  cbn [ri_new_representative ri_old_account_info ri_new_balance rollback_instructions].
  rewrite (pl_info _ _ _ _ Hp), removed_account_balance, planned_previous_balance.
  pose proof (pl_rep _ _ _ _ Hp) as Hrep.
  destruct (rp_previous_representative p) as [r'|] eqn:Erp.
  - destruct Hrep as [Hnz _]. apply weights_move with (ta := st_account s) (ta' := ta'); try done.
    intros r. rewrite Hdb. destruct (u256_is_zero_spec (previous b)); [done|].
    unfold previous_account_info. rewrite (pl_head _ _ _ _ Hp), Erp.
    by destruct (u256_is_zero_spec (previous b)).
  - apply weights_add with (ta := st_account s) (ta' := ta') (d := - sv_balance b); try done.
    + intros r. rewrite Hdb, Hrep. cbn. destruct (r =? ai_representative i); lia.
    + unfold wrapping_sub, amount_ZERO. apply wrap_small, wrap_in_u. lia.
Qed.

Lemma execute_eq :
  exists t w, execute min_weight s ins = Some (tables_back t w) /\
    rep_weights_ok min_weight (tables_back t w) /\ forall r, weight_of t r = delegated ta' r.
Proof.
  unfold execute. rewrite back_pending. cbn [mbind option_bind].
  cbn [ri_account ri_old_account_info ri_set_account_info rollback_instructions].
  rewrite (pl_account _ _ _ _ Hp), (pl_info _ _ _ _ Hp), back_account by done. cbn [mbind option_bind].
  rewrite back_blocks by (destruct (u256_is_zero (previous b)); done). cbn [mbind option_bind].
  match goal with |- context [roll_back_representative_cache _ ?s1 _] =>
    destruct (back_representation s1) as (t & w & -> & Hrw & Hw);
      [destruct (u256_is_zero (previous b)); done..|] end.
  exists t, w. unfold tables_back. cbn [mbind option_bind].
  destruct Hrw as [Hnz Hc], (u256_is_zero (previous b)); done.
Qed.

Lemma tables_back_fields t w :
  let s' := tables_back t w in
  st_block s' = tb' /\ st_account s' = ta' /\ st_pending s' = tp' /\
  st_rep_weight s' = t /\ st_weights s' = w /\
  st_confirmation_height s' = st_confirmation_height s /\ st_final_vote s' = st_final_vote s /\
  st_successors s' = (if u256_is_zero (previous b) then st_successors s
                      else delete (previous b) (st_successors s)) /\
  st_cache s' =
    mkLedgerCache (lc_confirmed_count (st_cache s)) (wrap 64 (lc_block_count (st_cache s) + -1))
      (if u256_is_zero (previous b) then wrap 64 (lc_account_count (st_cache s) + -1)
       else lc_account_count (st_cache s)).
Proof. unfold tables_back. destruct (u256_is_zero (previous b)); done. Qed.

Lemma counts_back t w : counts_ok (tables_back t w).
Proof.
  destruct (tables_back_fields t w) as (Eb & Ea & _ & _ & _ & Ec & _ & _ & Ecache).
  destruct (li_counts _ _ _ Hinv) as [Hcb Hca Hcc]. pose proof (rm_info _ _ _ _ Hrm) as Hi.
  split; rewrite Ecache, ?Eb, ?Ea, ?Ec; cbn [lc_block_count lc_account_count lc_confirmed_count]; try done.
  - rewrite Hcb, (map_size_delete_Some _ tb) by (eexists; apply Hrm). rewrite wrap_add_l by lia. f_equal.
    assert (size tb <> 0%nat) by (intros E%map_size_empty_iff; pose proof (rm_block _ _ _ _ Hrm) as Hb;
      rewrite E in Hb; done). lia.
  - unfold remove_account. destruct (u256_is_zero (previous b)).
    + rewrite Hca, (map_size_delete_Some _ (st_account s)) by eauto. rewrite wrap_add_l by lia. f_equal.
      assert (size (st_account s) <> 0%nat) by (intros E%map_size_empty_iff; rewrite E in Hi; done). lia.
    + rewrite Hca. by rewrite map_size_insert_Some by eauto.
Qed.

Lemma inv_back t w :
  rep_weights_ok min_weight (tables_back t w) -> (forall r, weight_of t r = delegated ta' r) ->
  ledger_inv c min_weight (tables_back t w).
Proof.
  intros Hrw Hw. destruct (tables_back_fields t w) as (Eb & Ea & Ep & Er & _ & Ec & _ & Es & _).
  pose proof (rm_block _ _ _ _ Hrm) as Hb.
  split; rewrite ?Eb, ?Ea, ?Ep, ?Er, ?Ec, ?Es; try done.
  - eapply blocks_ok_remove; [apply Hinv..|done].
  - eapply accounts_ok_remove; [apply Hinv..|done|apply planned_below].
  - eapply succ_ok_remove; [apply Hinv..|done|apply Hinv].
  - apply pending_back_ok.
  - destruct (li_causal _ _ _ Hinv) as (rk & bd & Hrk). exists rk, bd.
    eapply ranked_remove; try apply Hinv; done.
  - rewrite supply_back. apply Hinv.
  - intros a ci Hci. destruct (li_conf _ _ _ Hinv _ _ Hci) as (fb & Hfb & Eacc & Eh).
    exists fb. rewrite lookup_delete_ne; [done|]. intros E. rewrite <- E, Hb in Hfb. injection Hfb as <-.
    revert Hunconfirmed. rewrite Eacc, Hci. cbn. lia.
  - destruct (li_genesis _ _ _ Hinv) as [(gb & Hgb & ?) ?]. split; [|done].
    exists gb. rewrite lookup_delete_ne by apply not_genesis. done.
  - apply counts_back.
Qed.
End planned.
End head.
