(* ===== verification/RollbackLoop.v ===== *)
(** * The rollback loop terminates and keeps the ledger invariant

    [roll_back_impl] works on a stack of (target, head) pairs. [normal] and
    [waiting] describe the stacks it builds: above an entry whose head is a
    received send come the head of the receiving account, first together with
    the old head and then with itself. Blocks further up come later in the
    causal order of the ledger, so rolling one back leaves the entries below
    it valid; with the block count and the stack depth this also bounds the
    number of turns. *)

From S2P Require Import Prelude Types Blocks Codec Work Store RepWeights Sets Insertion Rollback.
From S2P Require Import Chains Money LedgerInv InsertSafe RollbackSafe.

Definition confirmed (s : LmdbStore) (b : SavedBlock) : Prop :=
  sv_height b <= default 0 (ch_height <$> st_confirmation_height s !! sv_account b).

(** What is confirmed was received from what is confirmed. *)
Definition cemented_ok (c : LedgerConstants) (s : LmdbStore) : Prop :=
  forall r rb sb, st_block s !! r = Some rb -> r <> genesis_hash c -> pos_recv (st_block s) rb ->
    confirmed s rb -> st_block s !! source_or_link rb = Some sb -> confirmed s sb.

Definition is_head (s : LmdbStore) (b : SavedBlock) : Prop :=
  exists i, removed (st_block s) (st_account s) b i.

(** The state after the head [x] was rolled back. *)
Record rolled (s : LmdbStore) (x : SavedBlock) (s' : LmdbStore) : Prop := {
  rl_block : st_block s' = delete (block_hash x) (st_block s);
  rl_account : forall a, a <> sv_account x -> st_account s' !! a = st_account s !! a;
  rl_pending : forall k, st_pending s !! k = None -> k <> recv_key x -> st_pending s' !! k = None;
  rl_conf : st_confirmation_height s' = st_confirmation_height s;
  rl_final_vote : st_final_vote s' = st_final_vote s;
  rl_unreceived : pos_send (st_block s) x -> is_Some (st_pending s !! send_key x);
}.

(** [b] was sent to the account whose head is [d], and received there. *)
Record awaits (s : LmdbStore) (b d : SavedBlock) : Prop := {
  aw_send : pos_send (st_block s) b;
  aw_received : st_pending s !! send_key b = None;
  aw_account : sv_account d = destination_or_link b;
  aw_head : is_head s d;
}.

Section heads.
Context (c : LedgerConstants) (min_weight : Amount) (s : LmdbStore).
Hypothesis Hinv : ledger_inv c min_weight s.

Lemma account_head_block a i :
  st_account s !! a = Some i ->
  exists b, st_block s !! ai_head i = Some b /\ sv_account b = a /\ removed (st_block s) (st_account s) b i.
Proof.
  intros Hi. destruct (ac_head _ _ (li_accounts _ _ _ Hinv) _ _ Hi) as (b & Hb & Ea & _).
  destruct (bk_key _ (li_blocks _ _ _ Hinv) _ _ Hb) as [Hk _].
  exists b. split; [done|]. split; [done|]. split; by rewrite ?Hk, ?Ea.
Qed.

(** Two heads of the same account are the same block. *)
Lemma head_unique b d : is_head s b -> is_head s d -> sv_account b = sv_account d -> b = d.
Proof.
  intros [i [Hb Hi Eh]] [j [Hd Hj Ehd]] E. rewrite E in Hi. assert (i = j) as <- by congruence.
  rewrite Eh in Ehd. rewrite Ehd in Hb. congruence.
Qed.

Lemma load_head_eq b i :
  st_account s !! sv_account b = Some i ->
  exists d, is_head s d /\ sv_account d = sv_account b /\ load_account_head s b = Finished (Ok d).
Proof.
  intros Hi. destruct (account_head_block _ _ Hi) as (d & Hd & Ea & Hrm). exists d.
  split; [by exists i|]. split; [done|]. unfold load_account_head, any_get_account, account_get, load_block.
  rewrite Hi. cbn. by rewrite (any_get_block_eq c min_weight s Hinv), Hd.
Qed.

(** Later blocks of a chain come later in the causal order. *)
Lemma rank_le rk bd h x h' y :
  ranked (genesis_hash c) (st_block s) rk bd ->
  st_block s !! h = Some x -> st_block s !! h' = Some y -> sv_account x = sv_account y ->
  sv_height x <= sv_height y -> rk h <= rk h'.
Proof.
  intros Hrk Hx. pose proof (li_blocks _ _ _ Hinv) as Hok.
  remember (Z.to_nat (sv_height y)) as n eqn:En. revert h' y En.
  induction n as [n IH] using lt_wf_ind. intros h' y -> Hy Ea Hle.
  destruct (decide (sv_height x = sv_height y)) as [E|E].
  { rewrite (bk_unique _ Hok _ _ _ _ Hx Hy Ea E). lia. }
  pose proof (bk_height _ Hok _ _ Hx). pose proof (bk_height _ Hok _ _ Hy).
  destruct (decide (previous y = 0)) as [E0|E0].
  { destruct (bk_open _ Hok _ _ Hy E0). lia. }
  destruct (bk_prev _ Hok _ _ Hy E0) as (p & Hp & Eap & Eh).
  pose proof (rk_prev _ _ _ _ Hrk _ _ Hy E0).
  specialize (IH (Z.to_nat (sv_height p)) ltac:(lia) _ p eq_refl Hp ltac:(congruence) ltac:(lia)). lia.
Qed.

Lemma rank_head rk bd h x d :
  ranked (genesis_hash c) (st_block s) rk bd ->
  st_block s !! h = Some x -> is_head s d -> sv_account x = sv_account d -> rk h <= rk (block_hash d).
Proof.
  intros Hrk Hx [i Hd] Ea. eapply rank_le; [done..|apply Hd|done|].
  rewrite (removed_height _ _ _ _ (li_accounts _ _ _ Hinv) Hd).
  destruct (ac_block _ _ (li_accounts _ _ _ Hinv) _ _ Hx) as (j & Hj & Hle).
  rewrite Ea, (rm_info _ _ _ _ Hd) in Hj. by injection Hj as <-.
Qed.

(** The receiving account's head comes after the send. *)
Lemma awaits_rank rk bd (b d : SavedBlock) :
  ranked (genesis_hash c) (st_block s) rk bd -> st_block s !! block_hash b = Some b ->
  awaits s b d -> rk (block_hash b) < rk (block_hash d).
Proof.
  intros Hrk Hb [Hs Hn Ea Hh].
  destruct (pd_state _ _ _ (li_pending _ _ _ Hinv) _ _ Hb Hs) as [(? & ? & _)|(_ & r & rb & Hr & Hg & Hpos & Ek)];
    [congruence|].
  injection Ek as E1 E2. pose proof (rk_source _ _ _ _ Hrk _ _ Hr Hg Hpos) as Hlt. rewrite E2 in Hlt.
  assert (rk r <= rk (block_hash d)); [|lia]. eapply rank_head; [done..|congruence].
Qed.
End heads.

(** ** One turn on a head block *)

Inductive turn_result `{LmdbEngine} (c : LedgerConstants) (min_weight : Amount) (s : LmdbStore) (now : Z)
    (b : SavedBlock) : Prop :=
  | turn_confirmed :
      roll_back_head_block c s now b = Finished (Err BlockConfirmed) ->
      confirmed s b -> turn_result c min_weight s now b
  | turn_rolled ins s' :
      roll_back_head_block c s now b = Finished (Ok (RollBackBlock ins)) ->
      execute min_weight s ins = Some s' -> ledger_inv c min_weight s' -> rolled s b s' ->
      (pos_send (st_block s) b -> is_Some (st_pending s !! send_key b)) -> ~ confirmed s b ->
      turn_result c min_weight s now b
  | turn_waits (d : SavedBlock) :
      roll_back_head_block c s now b = Finished (Ok (RequestDependencyRollback (block_hash d))) ->
      awaits s b d -> turn_result c min_weight s now b.

Section turn.
Context `{LmdbEngine} (c : LedgerConstants) (min_weight : Amount) (s : LmdbStore) (b : SavedBlock).
Hypothesis Hinv : ledger_inv c min_weight s.

Lemma rolled_back_tables i p t w :
  removed (st_block s) (st_account s) b i -> planner_for s b i p ->
  (pos_send (st_block s) b -> is_Some (st_pending s !! send_key b)) ->
  rolled s b (tables_back s b p t w).
Proof.
  intros Hrm Hp Hun. destruct (tables_back_fields s b p t w) as (Eb & Ea & Ep & _ & _ & Ec & Ev & _).
  destruct (planned_pending c min_weight s b i Hinv Hrm p Hp) as (Hs & Hr & Hn).
  split; [done| | |done|done|done].
  - intros a Hne. rewrite Ea. unfold remove_account.
    destruct (u256_is_zero _); [by rewrite lookup_delete_ne | by rewrite lookup_insert_ne].
  - intros k Hk Hne. rewrite Ep. unfold pending_back.
    destruct (Z.lt_trichotomy (sv_balance b) (prev_bal (st_block s) b)) as [Hlt|[Heq|Hgt]].
    + destruct (Hs Hlt) as [-> ->]. rewrite lookup_delete_None. by right.
    + by destruct (Hn Heq) as [-> ->].
    + destruct (Hr Hgt) as (-> & info & -> & _). by rewrite lookup_insert_ne.
Qed.

Lemma head_turn now : is_head s b -> turn_result c min_weight s now b.
Proof.
  intros [i Hrm]. destruct (create_planner_ok c min_weight s b i Hinv Hrm now) as (p & Ep & Hp).
  assert (roll_back_head_block c s now b = plan_head_block p) as Er
    by (unfold roll_back_head_block; by rewrite Ep).
  destruct (Z.le_gt_cases (sv_height b)
    (default 0 (ch_height <$> st_confirmation_height s !! sv_account b))) as [Hc|Hc].
  - apply turn_confirmed; [|done]. by rewrite Er, (plan_confirmed s b i p Hp).
  - destruct (plan_cases c min_weight s b i Hinv Hrm p Hp Hc) as [[Epl Hs]|(Hs & Hn & j & Hj & Epl)].
    + destruct (execute_eq c min_weight s b i Hinv Hrm p Hp Hc Hs) as (t & w & Ex & Hrw & Hw).
      eapply turn_rolled; [by rewrite Er|done| |by eapply rolled_back_tables|done|].
      * by eapply inv_back.
      * unfold confirmed. lia.
    + destruct (account_head_block c min_weight s Hinv _ _ Hj) as (d & Hd & Ea & Hrd).
      apply (turn_waits _ _ _ _ _ d); [|split; eauto; by exists j].
      by rewrite Er, Epl, (rm_head _ _ _ _ Hrd).
Qed.

(** While the receiver is there, the answer is the same. *)
Lemma awaits_turn now (d : SavedBlock) :
  is_head s b -> awaits s b d ->
  (roll_back_head_block c s now b = Finished (Err BlockConfirmed) /\ confirmed s b) \/
  roll_back_head_block c s now b = Finished (Ok (RequestDependencyRollback (block_hash d))).
Proof.
  intros Hb Haw. destruct (head_turn now Hb) as [E Hc|ins s' E _ _ _ Hs _|d' E Haw']; [by left| |].
  - destruct Haw as [Hsend Hn _ _]. destruct (Hs Hsend) as [? ?]. congruence.
  - right. rewrite E. do 4 f_equal.
    assert (d' = d) as ->; [|done]. apply (head_unique s); [apply Haw'|apply Haw|].
    by rewrite (aw_account _ _ _ Haw), (aw_account _ _ _ Haw').
Qed.
End turn.

(** ** The stacks of the loop *)

Section loop.
Context `{LmdbEngine} (c : LedgerConstants) (min_weight : Amount) (now : nat -> Z).
Context (rk : BlockHash -> Z) (bd : Z) (root : SavedBlock).

Abbreviation entry := (SavedBlock * SavedBlock)%type.

Inductive normal (s : LmdbStore) : list entry -> Prop :=
  | normal_bottom h :
      st_block s !! block_hash root = Some root -> is_head s h -> sv_account root = sv_account h ->
      normal s [(root, h)]
  | normal_dep t h d rest :
      normal s ((t, h) :: rest) -> awaits s h d -> normal s ((d, d) :: (d, h) :: (t, h) :: rest).

Definition dead (s : LmdbStore) (e : entry) : Prop := st_block s !! block_hash e.1 = None.

Inductive stack_ok (s : LmdbStore) : list entry -> Prop :=
  | stack_done ds : Forall (dead s) ds -> st_block s !! block_hash root = None -> stack_ok s ds
  | stack_normal ds l : Forall (dead s) ds -> normal s l -> stack_ok s (ds ++ l)
  | stack_waiting t h d rest :
      normal s ((t, h) :: rest) -> awaits s h d -> stack_ok s ((d, h) :: (t, h) :: rest).

Record loop_inv (s : LmdbStore) : Prop := {
  lp_inv : ledger_inv c min_weight s;
  lp_ranked : ranked (genesis_hash c) (st_block s) rk bd;
}.

Lemma is_head_block s h : is_head s h -> st_block s !! block_hash h = Some h.
Proof. intros [i Hi]. apply Hi. Qed.

Lemma normal_top s t h rest :
  normal s ((t, h) :: rest) ->
  is_head s h /\ st_block s !! block_hash t = Some t /\ sv_account t = sv_account h /\
  (t = h \/ (t = root /\ rest = [])).
Proof.
  intros Hn. inversion Hn; subst; [split_and!; auto|].
  match goal with Ha : awaits _ _ _ |- _ => destruct Ha as [_ _ _ Hh] end.
  split_and!; eauto using is_head_block.
Qed.

Lemma normal_rank s t h rest :
  loop_inv s -> normal s ((t, h) :: rest) ->
  Forall (fun e : entry => rk (block_hash e.2) < rk (block_hash h)) rest.
Proof.
  intros [Hinv Hrk] Hn. remember ((t, h) :: rest) as l eqn:El. revert t h rest El.
  induction Hn as [h|t h d rest Hn IH Haw]; intros t' h' rest' [= <- <- <-]; [constructor|].
  assert (rk (block_hash h) < rk (block_hash d)) as Hlt.
  { eapply awaits_rank; eauto. apply is_head_block, (normal_top _ _ _ _ Hn). }
  constructor; [done|]. constructor; [done|].
  eapply Forall_impl; [by eapply IH|]. cbn. intros e He. lia.
Qed.

Lemma normal_length s l : loop_inv s -> normal s l -> (length l + 1 <= 2 * size (st_block s))%nat.
Proof.
  intros Hl Hn. enough (exists ds h, hd_error (l.*2) = Some h /\ NoDup ds /\
    (forall x, x ∈ ds -> is_Some (st_block s !! x) /\ rk x <= rk (block_hash h)) /\
    (length l + 1 = 2 * length ds)%nat) as (ds & h & _ & Hnd & Hin & ->).
  { pose proof (keys_length_le (st_block s) ds Hnd (fun k Hk => proj1 (Hin k Hk))). lia. }
  induction Hn as [h Hr Hh _|t h d rest Hn (ds & h' & Eh & Hnd & Hin & El) Haw].
  - exists [block_hash h], h. split_and!; [done|apply NoDup_singleton| |done].
    intros x ->%list_elem_of_singleton. rewrite (is_head_block _ _ Hh). split; [done|lia].
  - cbn in Eh. injection Eh as <-.
    assert (rk (block_hash h) < rk (block_hash d)) as Hlt.
    { eapply awaits_rank; [apply Hl..| |done]. apply is_head_block, (normal_top _ _ _ _ Hn). }
    exists (block_hash d :: ds), d. split_and!; [done| | |cbn in *; lia].
    + constructor; [|done]. intros Hd%Hin. lia.
    + intros x [->|Hx]%elem_of_cons.
      * rewrite (is_head_block _ _ (aw_head _ _ _ Haw)). split; [done|lia].
      * destruct (Hin _ Hx). split; [done|lia].
Qed.

(** Rolling back a later block leaves the stack valid. *)
Lemma is_head_rolled s x s' h :
  is_head s x -> rolled s x s' -> is_head s h -> block_hash h <> block_hash x -> is_head s' h.
Proof.
  intros Hx Hr Hh Hne. assert (sv_account h <> sv_account x) as Hacc.
  { intros E. apply Hne. by rewrite (head_unique s h x). }
  destruct Hh as [i [Hb Hi Eh]]. exists i. split; [| |done].
  - rewrite (rl_block _ _ _ Hr). by rewrite lookup_delete_ne by congruence.
  - by rewrite (rl_account _ _ _ Hr).
Qed.

Lemma normal_rolled s x s' l :
  loop_inv s -> is_head s x -> rolled s x s' -> normal s l ->
  Forall (fun e : entry => rk (block_hash e.2) < rk (block_hash x)) l -> normal s' l.
Proof.
  intros Hl Hx Hr Hn.
  induction Hn as [h Hroot Hh Ea|t h d rest Hn IH Haw]; intros Hall.
  - apply Forall_cons in Hall as [Hlt _]. cbn in Hlt. apply normal_bottom; [| |done].
    + rewrite (rl_block _ _ _ Hr), lookup_delete_ne; [done|]. intros E.
      pose proof (rank_head c min_weight s (lp_inv _ Hl) rk bd _ _ _ (lp_ranked _ Hl) Hroot Hh Ea).
      rewrite <- E in *. lia.
    + eapply (is_head_rolled s x); [done..|]. intros E. rewrite E in Hlt. lia.
  - apply Forall_cons in Hall as [Hd Hall]. apply Forall_cons in Hall as [Hh Hall]. cbn in Hd, Hh.
    apply normal_dep; [by apply IH|]. destruct Haw as [Hs Hn0 Ea Hdh].
    assert (block_hash d <> block_hash x) as Hne by (intros E; rewrite E in Hd; lia).
    destruct (normal_top _ _ _ _ Hn) as (Hhh & _).
    assert (is_head s' d) as Hd' by eauto using is_head_rolled.
    split; [| |done|done].
    + unfold pos_send. destruct Hx as [i Hxi]. rewrite (rl_block _ _ _ Hr).
      erewrite prev_bal_remove; [done|apply (lp_inv _ Hl)..|done|by apply is_head_block].
    + apply (rl_pending _ _ _ Hr); [done|]. intros E. injection E as E _.
      apply Hne. by rewrite (head_unique s d x) by (done || congruence).
Qed.

(** A confirmed head on the stack makes the block to roll back confirmed. *)
Lemma confirmed_head s h x d :
  ledger_inv c min_weight s -> st_block s !! h = Some x -> is_head s d ->
  sv_account x = sv_account d -> confirmed s d -> confirmed s x.
Proof.
  intros Hinv Hx [i Hd] Ea. unfold confirmed. rewrite Ea.
  rewrite (removed_height _ _ _ _ (li_accounts _ _ _ Hinv) Hd).
  destruct (ac_block _ _ (li_accounts _ _ _ Hinv) _ _ Hx) as (j & Hj & Hle).
  rewrite Ea, (rm_info _ _ _ _ Hd) in Hj. injection Hj as <-. lia.
Qed.

Lemma awaits_confirmed s (h d : SavedBlock) :
  loop_inv s -> cemented_ok c s -> st_block s !! block_hash h = Some h -> awaits s h d ->
  confirmed s d -> confirmed s h.
Proof.
  intros [Hinv _] Hcem Hb [Hs Hn Ea Hh] Hc.
  destruct (pd_state _ _ _ (li_pending _ _ _ Hinv) _ _ Hb Hs) as [(? & ? & _)|(_ & r & rb & Hr & Hg & Hpos & Ek)];
    [congruence|].
  injection Ek as E1 E2. apply (Hcem r rb h); try done; [|by rewrite E2].
  eapply confirmed_head; [done..| |done]. congruence.
Qed.

Lemma normal_confirmed s t h rest :
  loop_inv s -> normal s ((t, h) :: rest) -> confirmed s h -> cemented_ok c s -> confirmed s root.
Proof.
  intros Hl Hn. remember ((t, h) :: rest) as l eqn:El. revert t h rest El.
  induction Hn as [h Hr Hh Ea|t h d rest Hn IH Haw]; intros t' h' rest' [= <- <- <-] Hc Hcem.
  - by eapply confirmed_head; [apply Hl|..].
  - eapply IH; [done| |done]. eapply awaits_confirmed; eauto.
    apply is_head_block, (normal_top _ _ _ _ Hn).
Qed.

(** What a turn of the loop does: it reports a confirmed block, takes a dead
    entry off the stack, puts an entry of an existing block on it, or rolls
    back a head. *)
Inductive turned (s : LmdbStore) (rb : list SavedBlock) (e : entry) (rest : list entry)
    : run (performed + (LmdbStore * list SavedBlock * list entry)) -> Prop :=
  | turned_confirmed : (cemented_ok c s -> confirmed s root) -> turned s rb e rest (Finished (inl (mkPerformed (Err BlockConfirmed) rb s)))
  | turned_pop : dead s e -> stack_ok s rest -> turned s rb e rest (Finished (inr (s, rb, rest)))
  | turned_push e' : ~ dead s e -> ~ dead s e' -> stack_ok s (e' :: e :: rest) ->
      turned s rb e rest (Finished (inr (s, rb, e' :: e :: rest)))
  | turned_roll x s' e' : loop_inv s' -> rolled s x s' -> is_head s x -> ~ confirmed s x ->
      stack_ok s' (e' :: rest) ->
      turned s rb e rest (Finished (inr (s', rb ++ [x], e' :: rest))).

Lemma not_dead s (b h : SavedBlock) : st_block s !! block_hash b = Some b -> ~ dead s (b, h).
Proof. unfold dead. cbn. intros ->. done. Qed.

Section one_turn.
Context (s : LmdbStore) (rb : list SavedBlock) (n : Z).
Hypothesis Hl : loop_inv s.

Lemma loop_inv_rolled x s' :
  ledger_inv c min_weight s' -> is_head s x -> rolled s x s' -> loop_inv s'.
Proof.
  intros Hi [i Hx] Hr. split; [done|]. rewrite (rl_block _ _ _ Hr).
  eapply ranked_remove; [apply (lp_inv _ Hl)..|done|apply Hl].
Qed.

Lemma turn_dead (t h : SavedBlock) rest :
  dead s (t, h) -> stack_ok s rest ->
  turned s rb (t, h) rest (roll_back_turn min_weight c n s rb t h rest).
Proof.
  intros Hd Hs. unfold roll_back_turn. rewrite (any_block_exists_eq c min_weight s (lp_inv _ Hl)).
  rewrite bool_decide_false; [by constructor|]. unfold dead in Hd. cbn in Hd. rewrite Hd. by intros [].
Qed.

(** Requesting the head [d] of the receiving account. *)
Lemma turn_push (t h d e' : SavedBlock) rest :
  st_block s !! block_hash t = Some t -> is_head s d ->
  roll_back_head_block c s n h = Finished (Ok (RequestDependencyRollback (block_hash d))) ->
  load_account_head s t = Finished (Ok e') ->
  roll_back_turn min_weight c n s rb t h rest = Finished (inr (s, rb, (d, e') :: (t, h) :: rest)).
Proof.
  intros Ht Hd Er Eload. unfold roll_back_turn, load_block.
  rewrite (any_block_exists_eq c min_weight s (lp_inv _ Hl)), bool_decide_true by eauto.
  rewrite Er. cbn [mbind run_bind]. rewrite (any_get_block_eq c min_weight s (lp_inv _ Hl)).
  rewrite (is_head_block _ _ Hd). cbn [ok_or]. by rewrite Eload.
Qed.

Lemma turn_err (t h : SavedBlock) rest :
  st_block s !! block_hash t = Some t -> (cemented_ok c s -> confirmed s root) ->
  roll_back_head_block c s n h = Finished (Err BlockConfirmed) ->
  turned s rb (t, h) rest (roll_back_turn min_weight c n s rb t h rest).
Proof.
  intros Ht Hr Er. unfold roll_back_turn.
  rewrite (any_block_exists_eq c min_weight s (lp_inv _ Hl)), bool_decide_true by eauto.
  rewrite Er. by constructor.
Qed.

Lemma turn_waiting (t h d : SavedBlock) rest :
  normal s ((t, h) :: rest) -> awaits s h d ->
  turned s rb (d, h) ((t, h) :: rest) (roll_back_turn min_weight c n s rb d h ((t, h) :: rest)).
Proof.
  intros Hn Haw. destruct (normal_top _ _ _ _ Hn) as (Hh & _).
  pose proof (aw_head _ _ _ Haw) as Hd. pose proof (is_head_block _ _ Hd) as Hdb.
  destruct (awaits_turn c min_weight s h (lp_inv _ Hl) n d Hh Haw) as [[E Hc]|E];
    [apply turn_err; by eauto using normal_confirmed|].
  destruct Hd as [i Hi].
  destruct (load_head_eq c min_weight s (lp_inv _ Hl) d i (rm_info _ _ _ _ Hi)) as (d' & Hd' & Ea & Eload).
  assert (d' = d) as -> by (apply (head_unique s); [done|by exists i|done]).
  rewrite (turn_push d h d d ((t, h) :: rest)) by done.
  apply turned_push; [by apply not_dead..|]. apply (stack_normal _ []); [done|]. by apply normal_dep.
Qed.

(** After a rollback that removes the target, the entries for it are dead. *)
Lemma roll_target (t h : SavedBlock) rest s' :
  normal s ((t, h) :: rest) -> rolled s h s' -> loop_inv s' -> block_hash h = block_hash t ->
  stack_ok s' ((t, h) :: rest).
Proof.
  intros Hn Hr Hl' E. assert (forall x, dead s' (t, x)) as Hdead.
  { intros x. unfold dead. cbn. rewrite (rl_block _ _ _ Hr), <- E. apply lookup_delete_eq. }
  pose proof (normal_rank _ _ _ _ Hl Hn) as Hrank.
  destruct (normal_top _ _ _ _ Hn) as (Hh & _).
  inversion Hn as [h' Hr0 Hh0 Ea0|t0 h0 d rest0 Hn0 Haw]; subst.
  - apply stack_done; [by constructor|]. apply (Hdead h).
  - apply (stack_normal _ [(_, _); (_, _)]); [by repeat constructor|].
    apply Forall_cons in Hrank as [_ Hrank]. by eapply (normal_rolled s _ s').
Qed.

Lemma turn_normal (t h : SavedBlock) rest :
  normal s ((t, h) :: rest) ->
  turned s rb (t, h) rest (roll_back_turn min_weight c n s rb t h rest).
Proof.
  intros Hn. destruct (normal_top _ _ _ _ Hn) as (Hh & Ht & Ea & Hcase).
  destruct (head_turn c min_weight s h (lp_inv _ Hl) n Hh) as [E Hc|ins s' E Ex Hinv' Hr _ Hc|d E Haw];
    [apply turn_err; by eauto using normal_confirmed| |].
  - pose proof (loop_inv_rolled _ _ Hinv' Hh Hr) as Hl'. unfold roll_back_turn.
    rewrite (any_block_exists_eq c min_weight s (lp_inv _ Hl)), bool_decide_true by eauto.
    rewrite E. cbn [mbind run_bind]. rewrite Ex. cbn [unwrap mbind run_bind].
    destruct (Z.eqb_spec (block_hash h) (block_hash t)) as [Eh|Eh]; cbn [negb].
    + by apply turned_roll; [..|apply roll_target].
    + destruct Hcase as [->|[-> ->]]; [done|].
      assert (st_block s' !! block_hash root = Some root) as Hroot
        by (by rewrite (rl_block _ _ _ Hr), lookup_delete_ne).
      destruct (ac_block _ _ (li_accounts _ _ _ Hinv') _ _ Hroot) as (i & Hi & _).
      destruct (load_head_eq c min_weight s' Hinv' root i Hi) as (d & Hd & Ed & ->).
      cbn. apply turned_roll; try done. apply (stack_normal _ []); [done|]. by apply normal_bottom.
  - destruct Hh as [i Hi].
    destruct (load_head_eq c min_weight s (lp_inv _ Hl) t i) as (h' & Hh' & Eh' & Eload);
      [by rewrite Ea; apply Hi|].
    assert (h' = h) as -> by (apply (head_unique s); [done|by exists i|congruence]).
    rewrite (turn_push t h d h rest) by (done || apply Haw).
    apply turned_push; [by apply not_dead|by apply not_dead, is_head_block, Haw|].
    by apply stack_waiting.
Qed.

Lemma turn_ok (t h : SavedBlock) rest :
  stack_ok s ((t, h) :: rest) ->
  turned s rb (t, h) rest (roll_back_turn min_weight c n s rb t h rest).
Proof.
  intros Hs. inversion Hs as [ds Hd Hr|ds l Hd Hn Eq|t0 h0 d rest0 Hn Haw]; subst.
  - apply Forall_cons in Hd as [Hd Hds]. apply turn_dead; [done|by apply stack_done].
  - destruct ds as [|e ds]; cbn in Eq.
    + subst l. by apply turn_normal.
    + injection Eq as -> <-. apply Forall_cons in Hd as [Hd Hds].
      apply turn_dead; [done|by apply stack_normal].
  - by apply turn_waiting.
Qed.
End one_turn.

(** ** Termination *)

(** The heads of [xs] are rolled back one after the other. *)
Inductive rolled_all : LmdbStore -> list SavedBlock -> LmdbStore -> Prop :=
  | rolled_none s : rolled_all s [] s
  | rolled_one s x s1 xs s2 :
      ledger_inv c min_weight s -> rolled s x s1 -> is_head s x -> ~ confirmed s x ->
      rolled_all s1 xs s2 ->
      rolled_all s (x :: xs) s2.

(** [sz] more blocks, a stack of at most [bound] entries: a dead top means the
    stack is being taken down, a living one that it is being built up. *)
Definition phase (bound : nat) (s : LmdbStore) (l : list entry) : nat :=
  match l with
  | [] => 0
  | e :: _ => if st_block s !! block_hash e.1 is Some _ then bound - length l else bound + 1 + length l
  end.

Definition loop_measure (bound : nat) (s : LmdbStore) (l : list entry) : nat :=
  size (st_block s) * (2 * bound + 2) + phase bound s l.

Lemma stack_length s e l :
  loop_inv s -> stack_ok s (e :: l) -> ~ dead s e -> (length (e :: l) <= 2 * size (st_block s))%nat.
Proof.
  intros Hl Hs Hd. inversion Hs as [ds Hds _ Eq|ds l' Hds Hn Eq|t h d rest Hn Haw Eq].
  - subst ds. by apply Forall_cons in Hds as [? _].
  - destruct ds as [|e' ds].
    + cbn in Eq. subst l'. pose proof (normal_length _ _ Hl Hn). cbn in *. lia.
    + injection Eq as -> <-. by apply Forall_cons in Hds as [? _].
  - pose proof (normal_length _ _ Hl (normal_dep _ _ _ _ _ Hn Haw)). cbn in *. lia.
Qed.

Lemma phase_le bound s l : (length l <= bound -> phase bound s l <= 2 * bound + 1)%nat.
Proof. destruct l as [|e l]; cbn; [lia|]. destruct (_ !! _); lia. Qed.

Lemma phase_dead bound s e l :
  dead s e -> (length (e :: l) <= bound -> phase bound s l < phase bound s (e :: l))%nat.
Proof.
  unfold dead. intros Hd Hb. cbn. rewrite Hd.
  destruct l as [|e' l]; cbn; [lia|]. destruct (st_block s !! block_hash e'.1); lia.
Qed.

Lemma phase_push bound s e e' l :
  ~ dead s e -> ~ dead s e' -> (length (e' :: e :: l) <= bound)%nat ->
  (phase bound s (e' :: e :: l) < phase bound s (e :: l))%nat.
Proof.
  unfold dead. intros Hd Hd' Hb. cbn in *.
  destruct (st_block s !! block_hash e.1); [|done]. destruct (st_block s !! block_hash e'.1); [lia|done].
Qed.

Lemma rolled_size s x s' :
  rolled s x s' -> is_head s x -> (size (st_block s) = S (size (st_block s')))%nat.
Proof.
  intros Hr Hx. rewrite (rl_block _ _ _ Hr).
  rewrite (map_size_delete_Some _ (st_block s)) by (eexists; by apply is_head_block).
  pose proof (is_head_block _ _ Hx) as Hb.
  assert (size (st_block s) <> 0)%nat; [|lia]. intros E%map_size_empty_iff. by rewrite E in Hb.
Qed.

(** A rollback of an unconfirmed block keeps the confirmed ones closed. *)
Lemma cemented_rolled s x s' :
  ledger_inv c min_weight s -> rolled s x s' -> is_head s x -> ~ confirmed s x ->
  cemented_ok c s -> cemented_ok c s'.
Proof.
  intros Hinv Hr Hx Hc Hcem r rb sb Hrb Hg Hpos Hcr Hsb.
  unfold confirmed in *. rewrite (rl_conf _ _ _ Hr) in *. rewrite (rl_block _ _ _ Hr) in *.
  apply lookup_delete_Some in Hrb as [_ Hrb]. apply lookup_delete_Some in Hsb as [_ Hsb].
  destruct Hx as [i Hx]. eapply (Hcem r); try done.
  unfold pos_recv in *. erewrite prev_bal_remove in Hpos; [done|apply Hinv..|done|done].
Qed.

Record loop_result (s : LmdbStore) (rb : list SavedBlock) (p : performed) : Prop := {
  lr_rolled : exists xs, pf_rolled_back p = rb ++ xs /\ rolled_all s xs (pf_store p);
  lr_inv : ledger_inv c min_weight (pf_store p);
  lr_result :
    (pf_result p = Ok tt /\ st_block (pf_store p) !! block_hash root = None) \/
    (pf_result p = Err BlockConfirmed /\ (cemented_ok c s -> confirmed s root));
}.

Lemma loop_result_roll s x s1 rb p :
  ledger_inv c min_weight s -> rolled s x s1 -> is_head s x -> ~ confirmed s x ->
  loop_result s1 (rb ++ [x]) p -> loop_result s rb p.
Proof.
  intros Hinv Hr Hx Hc [(xs & E & Hall) Hi Hres]. split; [|done|].
  - exists (x :: xs). rewrite E, <- app_assoc. split; [done|]. by econstructor.
  - destruct Hres as [?|[? Hcem]]; [by left|right]. split; [done|]. intros Hs.
    specialize (Hcem ltac:(by apply (cemented_rolled s x s1))). unfold confirmed in *.
    by rewrite (rl_conf _ _ _ Hr) in Hcem.
Qed.

Lemma roll_back_impl_ok bound fuel s rb l :
  loop_inv s -> stack_ok s l -> (2 * size (st_block s) <= bound)%nat -> (length l <= bound)%nat ->
  (loop_measure bound s l <= fuel)%nat ->
  exists p, roll_back_impl min_weight c now fuel s rb l = Finished p /\ loop_result s rb p.
Proof.
  revert s rb l. induction fuel as [|fuel IH]; intros s rb l Hl Hs Hsz Hlen Hm.
  all: destruct l as [|[t h] rest].
  1, 3: eexists; split; [done|]; split; [exists []; rewrite app_nil_r; by repeat constructor|apply Hl|left];
    split; [done|]; inversion Hs as [|ds l' Hd Hn Eq|]; [done|];
    destruct ds; cbn in Eq; [subst; inversion Hn|discriminate].
  { exfalso. unfold loop_measure in Hm. cbn in Hm. destruct (st_block s !! block_hash t) eqn:Et; [|lia].
    assert (size (st_block s) <> 0)%nat; [|lia]. intros E%map_size_empty_iff. by rewrite E in Et. }
  unfold loop_measure in *. cbn [roll_back_impl].
  destruct (turn_ok s rb (now fuel) Hl t h rest Hs) as [Hc|Hd Hs'|e' Hd Hd' Hs'|x s' e' Hl' Hr Hx Hc Hs'];
    cbn [mbind run_bind].
  - eexists; split; [done|]. split; [exists []; rewrite app_nil_r; by repeat constructor|apply Hl|by right].
  - pose proof (phase_dead bound _ _ _ Hd Hlen). cbn in Hlen. apply IH; [done..|lia|lia].
  - pose proof (stack_length _ _ _ Hl Hs' Hd') as Hlen'.
    pose proof (phase_push bound s (t, h) e' rest Hd Hd' ltac:(lia)). apply IH; [done..|lia|lia].
  - pose proof (rolled_size _ _ _ Hr Hx) as Esz. rewrite Esz in *.
    assert (phase bound s' (e' :: rest) <= 2 * bound + 1)%nat by (by apply phase_le).
    destruct (IH s' (rb ++ [x]) (e' :: rest)) as (p & -> & Hp); [done|done|lia|done|lia|].
    exists p. split; [done|]. by eapply loop_result_roll; [apply Hl|..].
Qed.
End loop.

(** ** Rolling back a block *)

Section roll_back.
Context `{LmdbEngine} (c : LedgerConstants) (min_weight : Amount) (now : nat -> Z) (s : LmdbStore).
Hypothesis Hinv : ledger_inv c min_weight s.

Lemma rolled_all_blocks s1 xs s2 :
  rolled_all c min_weight s1 xs s2 ->
  forall h b, st_block s2 !! h = Some b <-> st_block s1 !! h = Some b /\ h ∉ (fun b : SavedBlock => block_hash b) <$> xs.
Proof.
  induction 1 as [s1|s1 x s' xs s2 _ Hr Hx Hc Hall IH]; intros h b; cbn.
  - rewrite elem_of_nil. naive_solver.
  - rewrite IH, (rl_block _ _ _ Hr), lookup_delete_Some, not_elem_of_cons. naive_solver.
Qed.

Lemma rolled_all_conf s1 xs s2 :
  rolled_all c min_weight s1 xs s2 ->
  st_confirmation_height s2 = st_confirmation_height s1 /\ st_final_vote s2 = st_final_vote s1.
Proof.
  induction 1 as [|s1 x s' xs s2 _ Hr Hx Hc Hall [-> ->]]; [done|].
  by rewrite (rl_conf _ _ _ Hr), (rl_final_vote _ _ _ Hr).
Qed.

Lemma rolled_all_unconfirmed s1 xs s2 :
  rolled_all c min_weight s1 xs s2 ->
  Forall (fun x : SavedBlock => st_block s1 !! block_hash x = Some x /\ ~ confirmed s1 x) xs.
Proof.
  induction 1 as [|s1 x s' xs s2 _ Hr Hx Hc Hall IH]; [constructor|].
  constructor; [by split; [apply is_head_block|]|]. eapply Forall_impl; [exact IH|].
  cbn. intros y [Hy Hcy]. unfold confirmed in *. rewrite (rl_conf _ _ _ Hr) in Hcy.
  rewrite (rl_block _ _ _ Hr) in Hy. by apply lookup_delete_Some in Hy as [_ Hy].
Qed.

Lemma rolled_all_cemented s1 xs s2 :
  ledger_inv c min_weight s2 -> rolled_all c min_weight s1 xs s2 -> cemented_ok c s1 -> blocks_ok (st_block s1) -> cemented_ok c s2.
Proof.
  intros Hi Hall Hcem Hok r rb sb Hr Hg Hpos Hc Hsb.
  pose proof (rolled_all_blocks _ _ _ Hall) as Hb. destruct (rolled_all_conf _ _ _ Hall) as [Ec _].
  unfold confirmed in *. rewrite Ec in *. apply Hb in Hsb as [Hsb _].
  eapply (Hcem r rb sb); try done; [by apply Hb|].
  unfold pos_recv, prev_bal in *. destruct (decide (previous rb = 0)) as [E|E].
  - rewrite E in *. destruct (st_block s1 !! 0) as [z|] eqn:Ez;
      [by destruct (bk_key _ Hok _ _ Ez)|]. by rewrite (inv_zero_hash c min_weight s2 Hi) in Hpos.
  - destruct (bk_prev _ (li_blocks _ _ _ Hi) _ _ Hr E) as (p & Hp & _). rewrite Hp in Hpos.
    apply Hb in Hp as [Hp _]. by rewrite Hp.
Qed.

(** Turns that are always enough for a ledger of [n] blocks. *)
Definition rollback_fuel (n : nat) : nat := (n * (4 * n + 2) + 2 * n).

Record rollback_outcome (h : BlockHash) (p : performed) : Prop := {
  ro_inv : ledger_inv c min_weight (pf_store p);
  ro_rolled : rolled_all c min_weight s (pf_rolled_back p) (pf_store p);
  ro_result : match pf_result p with
              | Ok _ => is_Some (st_block s !! h) /\ st_block (pf_store p) !! h = None
              | Err BlockConfirmed =>
                  exists b, st_block s !! h = Some b /\ (cemented_ok c s -> confirmed s b)
              | Err BlockNotFound => st_block s !! h = None /\ pf_store p = s
              | Err _ => False
              end;
}.

Lemma roll_back_outcome fuel h :
  (rollback_fuel (size (st_block s)) <= fuel)%nat ->
  exists p, roll_back min_weight c now fuel s h = Finished p /\ rollback_outcome h p.
Proof.
  intros Hf. unfold roll_back, load_block. rewrite (any_get_block_eq c min_weight s Hinv).
  destruct (st_block s !! h) as [b|] eqn:Hb; cbn [ok_or].
  2:{ eexists. split; [done|]. by split; [|constructor|]. }
  destruct (bk_key _ (li_blocks _ _ _ Hinv) _ _ Hb) as [<- _].
  destruct (ac_block _ _ (li_accounts _ _ _ Hinv) _ _ Hb) as (i & Hi & _).
  destruct (load_head_eq c min_weight s Hinv b i Hi) as (d & Hd & Ea & ->). cbn [mbind run_bind].
  destruct (li_causal _ _ _ Hinv) as (rk & bd & Hrk).
  destruct (roll_back_impl_ok c min_weight now rk bd b (2 * size (st_block s)) fuel s [] [(b, d)])
    as (p & -> & [(xs & Exs & Hall) Hi' Hres]).
  - by split.
  - apply (stack_normal _ _ []); [done|]. by apply normal_bottom.
  - lia.
  - assert (size (st_block s) <> 0)%nat; [|cbn; lia]. intros E%map_size_empty_iff. by rewrite E in Hb.
  - unfold loop_measure, rollback_fuel in *. cbn [phase fst]. rewrite Hb. cbn. lia.
  - exists p. split; [done|]. cbn in Exs. subst xs. split; [done|done|].
    destruct Hres as [[-> ?]|[-> ?]]; eauto.
Qed.
End roll_back.
