(* ===== verification/Startup.v ===== *)
(** * Starting the ledger (ledger.rs: [add_genesis_block], [initialize])

    A new data directory gets the genesis block; [initialize] then rebuilds
    the in-memory counters and representative weights from the tables. Started
    on the tables of any ledger state that satisfies the invariant, it gives
    back exactly that state, provided no partial weight is below the cache's
    threshold: the accounts are scanned by one thread, or the threshold is at
    most one raw. *)

From S2P Require Import Prelude Types Blocks Codec Work Store RepWeights Sets Insertion Chains.
From S2P Require Import Money LedgerInv RollbackSafe.

(** ** The number of blocks is the sum of the chain lengths *)

Lemma removed_size tb ta b i :
  removed tb ta b i -> size tb = S (size (delete (block_hash b) tb)).
Proof.
  intros Hr. pose proof (rm_block _ _ _ _ Hr) as Hb.
  rewrite (map_size_delete_Some _ tb) by eauto.
  assert (size tb <> 0)%nat; [|lia]. intros E%map_size_empty_iff. by rewrite E in Hb.
Qed.

Lemma below_exists tb ta b i :
  blocks_ok tb -> removed tb ta b i -> exists i', ai_block_count i' = ai_block_count i - 1 /\
    (previous b <> 0 -> below tb b i i').
Proof.
  intros Hok Hr. destruct (decide (previous b = 0)) as [E|E].
  { exists (mkAccountInfo 0 0 0 0 0 (ai_block_count i - 1) Epoch0). done. }
  destruct (bk_prev _ Hok _ _ (rm_block _ _ _ _ Hr) E) as (p & Hp & _ & _).
  destruct (rep_at_exists tb _ p Hok Hp) as [r Hrep].
  exists (mkAccountInfo (previous b) r (ai_open_block i) (sv_balance p) 0 (ai_block_count i - 1) (sv_epoch p)).
  split; [done|]. intros _. split; try done. exists p. done.
Qed.

Lemma block_count_sum tb ta :
  blocks_ok tb -> accounts_ok tb ta -> map_sum ai_block_count ta = Z.of_nat (size tb).
Proof.
  remember (size tb) as n eqn:En. revert tb ta En.
  induction n as [|n IH]; intros tb ta En Hok Ha.
  - symmetry in En. apply map_size_empty_iff in En as ->.
    destruct (decide (ta = ∅)) as [->|Hne]; [done|].
    apply map_choose in Hne as (a & i & Hi). by destruct (ac_head _ _ Ha _ _ Hi) as (? & ? & _).
  - destruct (decide (ta = ∅)) as [->|Hne].
    { destruct (decide (tb = ∅)) as [->|Hnb]; [done|].
      apply map_choose in Hnb as (h & b & Hb). by destruct (ac_block _ _ Ha _ _ Hb) as (? & ? & _). }
    apply map_choose in Hne as (a & i & Hi).
    destruct (ac_head _ _ Ha _ _ Hi) as (b & Hb & Ea & Eh & _).
    destruct (bk_key _ Hok _ _ Hb) as [Hk _].
    assert (removed tb ta b i) as Hr by (split; by rewrite ?Hk, ?Ea).
    destruct (below_exists _ _ _ _ Hok Hr) as (i' & Ec & Hbl).
    pose proof (removed_size _ _ _ _ Hr) as Esz.
    assert (n = size (delete (block_hash b) tb)) as En' by lia.
    specialize (IH _ _ En' (blocks_ok_remove _ _ _ _ Hok Ha Hr)
                  (accounts_ok_remove _ _ _ _ Hok Ha Hr i' Hbl)).
    unfold remove_account in IH. rewrite Ea in IH. destruct (u256_is_zero_spec (previous b)) as [E|E].
    + rewrite (map_sum_delete _ _ _ _ Hi) in IH.
      destruct (bk_open _ Hok _ _ Hb E) as [E1 _]. lia.
    + rewrite map_sum_insert, Hi in IH. cbn in IH. lia.
Qed.

(** ** Weights of a list of accounts *)

Definition delegated_in (l : list AccountInfo) (rep : PublicKey) : Z :=
  zsum ((fun i => if ai_representative i =? rep then ai_balance i else 0) <$> l).

Lemma delegated_in_app l k rep : delegated_in (l ++ k) rep = delegated_in l rep + delegated_in k rep.
Proof. unfold delegated_in. by rewrite fmap_app, zsum_app. Qed.

Lemma weight_of_insert (w : RepWeights) rep x r :
  weight_of (<[rep:=x]> w) r = if r =? rep then x else weight_of w r.
Proof.
  unfold weight_of. destruct (Z.eqb_spec r rep) as [->|]; by rewrite ?lookup_insert_eq, ?lookup_insert_ne.
Qed.

Lemma chunk_weights_sum chunk rep :
  weight_of (chunk_weights chunk) rep = wrap 128 (delegated_in chunk rep).
Proof.
  unfold chunk_weights. rewrite <- fold_left_rev_right.
  rewrite <- (rev_involutive chunk) at 2. generalize (rev chunk) as l. clear chunk.
  induction l as [|i l IH]; cbn [foldr rev]; [done|].
  rewrite delegated_in_app. unfold delegated_in at 2. cbn.
  destruct (amount_is_zero_spec (ai_balance i)) as [E|E]; cbn [negb].
  - rewrite IH, E. f_equal. case_test; lia.
  - rewrite weight_of_insert, (Z.eqb_sym (ai_representative i)).
    destruct (Z.eqb_spec rep (ai_representative i)) as [->|Hne].
    + rewrite IH. unfold amount_add. rewrite wrap_add_l by lia. f_equal. lia.
    + etransitivity; [exact IH|]. f_equal. lia.
Qed.

Section start.
Context `{LmdbEngine} (min_weight : Amount).

Lemma copy_from_list w l rep :
  NoDup l.*1 ->
  copy_from min_weight w l !! rep =
  match list_to_map (M := RepWeights) l !! rep with
  | Some a => cached min_weight (wrapping_add (weight_of w rep) a)
  | None => w !! rep
  end.
Proof.
  unfold copy_from. revert w. induction l as [|[r a] l IH]; intros w Hnd; [done|].
  apply NoDup_cons in Hnd as [Hr Hnd]. cbn. rewrite (IH _ Hnd).
  destruct (Z.eqb_spec rep r) as [->|Hne].
  - rewrite lookup_insert_eq, (not_elem_of_list_to_map_1 l) by done.
    by rewrite put_cache_lookup, Z.eqb_refl.
  - rewrite lookup_insert_ne by done. unfold weight_of.
    rewrite put_cache_lookup. destruct (Z.eqb_spec rep r); done.
Qed.

Lemma copy_from_chunk w chunk D :
  (forall r, weight_of w r = wrap 128 (D r)) -> (forall r, w !! r = cached min_weight (wrap 128 (D r))) ->
  forall r, copy_from min_weight w (map_to_list (chunk_weights chunk)) !! r
            = cached min_weight (wrap 128 (D r + delegated_in chunk r)).
Proof.
  intros Hw Hc r. rewrite copy_from_list by apply NoDup_fst_map_to_list. rewrite list_to_map_to_list.
  pose proof (chunk_weights_sum chunk r) as Hs. unfold weight_of in Hs.
  destruct (chunk_weights chunk !! r) as [a|]; cbn in Hs; subst.
  - unfold wrapping_add. rewrite Hw, wrap_add_l, wrap_add_r by lia. done.
  - rewrite Hc. f_equal. rewrite <- (wrap_add_r _ _ (delegated_in _ _)) by lia. rewrite <- Hs.
    f_equal. lia.
Qed.

Lemma cached_small w : min_weight <= 1 -> 0 <= w -> default 0 (cached min_weight w) = w.
Proof.
  intros Hm Hw. unfold cached. destruct (amount_is_zero_spec w) as [->|]; [by destruct (_ <? _)|].
  destruct (Z.ltb_spec w min_weight); [lia|done].
Qed.

(** ** The scans *)

Definition with_caches (s : LmdbStore) (cache : LedgerCache) (w : RepWeights) : LmdbStore :=
  set_weights w (set_cache cache s).

Lemma fold_wrap {A} (f : A -> Z) l z :
  in_u 64 z -> fold_left (fun n i => wrap 64 (n + f i)) l z = wrap 64 (z + zsum (f <$> l)).
Proof.
  revert z. induction l as [|x l IH]; intros z Hz; cbn.
  - by rewrite Z.add_0_r, wrap_small.
  - rewrite IH by (apply wrap_in_u; lia). rewrite wrap_add_l by lia. f_equal. lia.
Qed.

Lemma scan_chunk_eq s nb na nc w chunk :
  exists w', scan_chunk min_weight (with_caches s (mkLedgerCache nc (wrap 64 nb) (wrap 64 na)) w) chunk
  = with_caches s (mkLedgerCache nc (wrap 64 (nb + zsum (ai_block_count <$> chunk)))
      (wrap 64 (na + Z.of_nat (length chunk)))) w' /\
  w' = copy_from min_weight w (map_to_list (chunk_weights chunk)).
Proof.
  eexists. split; [|done]. unfold scan_chunk, with_caches, add_block_count, add_account_count. cbn.
  rewrite fold_wrap by done. rewrite Z.add_0_l, !wrap_add_l, wrap_add_r by lia. done.
Qed.

(** The weights of all chunks are exact when partial sums are never dropped. *)
Lemma scan_weights chunks :
  (length chunks <= 1)%nat \/ min_weight <= 1 ->
  forall r, fold_left (fun w chunk => copy_from min_weight w (map_to_list (chunk_weights chunk))) chunks ∅ !! r
            = cached min_weight (wrap 128 (delegated_in (concat chunks) r)).
Proof.
  assert (forall r : PublicKey, (∅ : RepWeights) !! r = cached min_weight (wrap 128 0)) as H0.
  { intros r. unfold cached. cbn. by rewrite orb_true_r. }
  intros [Hl|Hm].
  - destruct chunks as [|ch [|]]; [done| |cbn in Hl; lia]. cbn. intros r. rewrite app_nil_r.
    by rewrite (copy_from_chunk ∅ ch (fun _ => 0)).
  - induction chunks as [|ch l IH] using rev_ind; [done|]. intros r.
    rewrite fold_left_app, concat_app, delegated_in_app. cbn. rewrite app_nil_r.
    apply copy_from_chunk; [|done]. intros r'. unfold weight_of. rewrite IH.
    apply cached_small; [done|]. apply wrap_in_u. lia.
Qed.

Lemma scan_chunks_eq s nb na nc w chunks :
  fold_left (scan_chunk min_weight) chunks
    (with_caches s (mkLedgerCache nc (wrap 64 nb) (wrap 64 na)) w)
  = with_caches s
      (mkLedgerCache nc (wrap 64 (nb + zsum (ai_block_count <$> concat chunks)))
        (wrap 64 (na + Z.of_nat (length (concat chunks)))))
      (fold_left (fun w chunk => copy_from min_weight w (map_to_list (chunk_weights chunk))) chunks w).
Proof.
  revert nb na w. induction chunks as [|ch l IH]; intros nb na w; cbn [fold_left concat].
  - cbn. by rewrite !Z.add_0_r.
  - destruct (scan_chunk_eq s nb na nc w ch) as (w' & -> & ->). rewrite IH.
    rewrite fmap_app, zsum_app, length_app. do 3 f_equal; lia.
Qed.

Lemma scan_conf_chunks_eq s nb na nc w chunks :
  fold_left scan_conf_chunk chunks (with_caches s (mkLedgerCache (wrap 64 nc) nb na) w)
  = with_caches s (mkLedgerCache (wrap 64 (nc + zsum (ch_height <$> concat chunks))) nb na) w.
Proof.
  revert nc. induction chunks as [|ch l IH]; intros nc; cbn [fold_left concat].
  - cbn. by rewrite Z.add_0_r.
  - assert (scan_conf_chunk (with_caches s (mkLedgerCache (wrap 64 nc) nb na) w) ch
      = with_caches s (mkLedgerCache (wrap 64 (nc + zsum (ch_height <$> ch))) nb na) w) as ->.
    { unfold scan_conf_chunk, with_caches, add_confirmed_count. cbn. rewrite fold_wrap by done.
      by rewrite Z.add_0_l, wrap_add_l, wrap_add_r by lia. }
    rewrite IH, fmap_app, zsum_app. do 3 f_equal; lia.
Qed.

(** The state of a freshly opened store: the tables as they are on disk, the
    counters at zero and no weights. *)
Definition reopened (s : LmdbStore) : LmdbStore := with_caches s (mkLedgerCache 0 0 0) ∅.

Section restore.
Context (c : LedgerConstants) (s : LmdbStore).
Hypothesis Hinv : ledger_inv c min_weight s.

Context (chunks : list (list AccountInfo)) (conf_chunks : list (list ConfirmationHeightInfo)).
Hypothesis Hchunks : concat chunks ≡ₚ (map_to_list (st_account s)).*2.
Hypothesis Hconf : concat conf_chunks ≡ₚ (map_to_list (st_confirmation_height s)).*2.
Hypothesis Hwhole : (length chunks <= 1)%nat \/ min_weight <= 1.

Lemma scanned_weights :
  fold_left (fun w chunk => copy_from min_weight w (map_to_list (chunk_weights chunk))) chunks ∅
  = st_weights s.
Proof.
  apply map_eq. intros r. rewrite (scan_weights chunks Hwhole).
  rewrite (rw_cache _ _ (li_rep_weights _ _ _ Hinv)), (li_weights _ _ _ Hinv). f_equal.
  unfold delegated_in. rewrite (zsum_perm _ _ (fmap_Permutation _ _ _ Hchunks)).
  rewrite <- map_sum_zsum. apply wrap_small. by apply (inv_delegated c min_weight).
Qed.

Lemma scans_restore :
  fold_left scan_conf_chunk conf_chunks (fold_left (scan_chunk min_weight) chunks (reopened s)) = s.
Proof.
  unfold reopened. change (mkLedgerCache 0 0 0) with (mkLedgerCache (wrap 64 0) (wrap 64 0) (wrap 64 0)).
  rewrite scan_chunks_eq, scan_conf_chunks_eq, scanned_weights, !Z.add_0_l.
  rewrite (zsum_perm _ _ (fmap_Permutation _ _ _ Hchunks)), (zsum_perm _ _ (fmap_Permutation _ _ _ Hconf)).
  rewrite <- !map_sum_zsum, (block_count_sum (st_block s)) by apply Hinv.
  rewrite (Permutation_length Hchunks), length_fmap, length_map_to_list.
  destruct (li_counts _ _ _ Hinv) as [<- <- <-]. by destruct s as [[] ? ? ? ? ? ? ? ?].
Qed.

Lemma initialize_restores : initialize min_weight c (reopened s) chunks conf_chunks = Some s.
Proof.
  unfold initialize. rewrite bool_decide_false; [cbn; by rewrite scans_restore|]. cbn. intros E.
  destruct (gn_block _ _ _ (li_genesis _ _ _ Hinv)) as (gb & Hgb & _).
  destruct (ac_block _ _ (li_accounts _ _ _ Hinv) _ _ Hgb) as (i & Hi & _). by rewrite E in Hi.
Qed.
End restore.
End start.

(** ** The genesis ledger *)

Record genesis_wf (c : LedgerConstants) : Prop := {
  gw_open : exists ob, sv_block (lk_genesis_block c) = LegacyOpen ob /\
    openh_account (open_hashables ob) = lk_genesis_account c /\
    openh_representative (open_hashables ob) = lk_genesis_account c;
  gw_sideband : sv_sideband (lk_genesis_block c) = genesis_sideband (lk_genesis_account c);
  gw_hash : block_hash (lk_genesis_block c) <> 0;
  gw_account : lk_genesis_account c <> 0;
}.

Section genesis.
Context `{LmdbEngine} (min_weight : Amount) (c : LedgerConstants).
Hypothesis Hwf : genesis_wf c.
Hypothesis Hmin : min_weight <= u128_max.

#[local] Abbreviation g := (stored (lk_genesis_block c)).

Definition genesis_info : AccountInfo :=
  mkAccountInfo (genesis_hash c) (lk_genesis_account c) (genesis_hash c) u128_max 0 1 Epoch0.
Definition genesis_conf : ConfirmationHeightInfo := mkConfirmationHeightInfo 1 (genesis_hash c).

Definition genesis_store : LmdbStore :=
  mkLmdbStore (mkLedgerCache 1 1 1) {[ genesis_hash c := g ]} {[ lk_genesis_account c := genesis_info ]}
    ∅ {[ lk_genesis_account c := u128_max ]} {[ lk_genesis_account c := genesis_conf ]} ∅ ∅
    {[ lk_genesis_account c := u128_max ]}.

Lemma genesis_appended : appended ∅ ∅ g genesis_info.
Proof.
  destruct Hwf as [(ob & Eb & Ea & Er) Es Hh Hz]. unfold stored, genesis_info, genesis_hash in *.
  destruct (lk_genesis_block c) as [b d]. cbn in Eb, Es. subst b d.
  split; cbn; rewrite ?Ea, ?Er; try done. by apply stored_canonical; split_and!; cbn.
Qed.

Lemma genesis_facts :
  block_hash g = genesis_hash c /\ sv_account g = lk_genesis_account c /\ sv_height g = 1 /\
  sv_balance g = u128_max /\ previous g = 0.
Proof.
  destruct Hwf as [(ob & Eb & Ea & Er) Es Hh Hz]. unfold stored, genesis_hash.
  destruct (lk_genesis_block c) as [b d]. cbn in Eb, Es. subst b d. cbn. by rewrite Ea.
Qed.

Lemma genesis_chains :
  blocks_ok (st_block genesis_store) /\ accounts_ok (st_block genesis_store) (st_account genesis_store).
Proof.
  destruct genesis_facts as (Eh & Ea & _). unfold genesis_store. cbn [st_block st_account].
  assert (blocks_ok ∅) as H0 by (split; intros *; by rewrite lookup_empty).
  assert (accounts_ok ∅ ∅) as H1 by (split; intros *; by rewrite lookup_empty).
  pose proof (blocks_ok_append _ _ _ _ H0 H1 genesis_appended) as Hb.
  pose proof (accounts_ok_append _ _ _ _ H0 H1 genesis_appended) as Hac.
  rewrite Eh in Hb, Hac. rewrite Ea in Hac. done.
Qed.

Lemma genesis_pending : pending_ok (genesis_hash c) (st_block genesis_store) ∅.
Proof.
  destruct genesis_facts as (Eh & Ea & _ & Eb & Ep). unfold genesis_store. cbn [st_block].
  split.
  - intros k p Hk. by rewrite lookup_empty in Hk.
  - intros k p Hk. by rewrite lookup_empty in Hk.
  - intros h sb [<- <-]%lookup_singleton_Some. unfold pos_send, prev_bal. rewrite Ep.
    rewrite lookup_singleton_ne by apply Hwf. rewrite Eb. cbn. unfold u128_max. lia.
  - intros r rb [<- <-]%lookup_singleton_Some. done.
  - intros r1 rb1 r2 rb2 [<- <-]%lookup_singleton_Some. done.
Qed.

Lemma genesis_inv : ledger_inv c min_weight genesis_store.
Proof.
  destruct genesis_facts as (Eh & Ea & Eht & Eb & Ep). destruct genesis_chains as [Hb Ha].
  split; [done|done| |apply genesis_pending| | | | | | |].
  - intros p h. cbn [st_successors st_block genesis_store]. rewrite lookup_empty. split; [done|].
    intros (Hnz & b & [<- <-]%lookup_singleton_Some & Eprev). congruence.
  - exists (fun _ => 0), 1. unfold genesis_store. cbn [st_block]. split; [lia| |].
    + intros h b [<- <-]%lookup_singleton_Some. by rewrite Ep.
    + intros h b [<- <-]%lookup_singleton_Some. done.
  - cbn. unfold supply. rewrite map_sum_singleton, map_sum_empty. cbn. lia.
  - split; cbn [st_rep_weight st_weights genesis_store].
    + intros rep w [<- <-]%lookup_singleton_Some. done.
    + intros rep. unfold weight_of, cached. destruct (decide (lk_genesis_account c = rep)) as [<-|Hne].
      * rewrite lookup_singleton_eq. cbn. destruct (Z.ltb_spec u128_max min_weight); [lia|done].
      * rewrite !lookup_singleton_ne by done. cbn. by rewrite orb_true_r.
  - intros r. cbn. unfold weight_of, delegated. rewrite map_sum_singleton. cbn.
    destruct (Z.eqb_spec (lk_genesis_account c) r) as [<-|Hne].
    + by rewrite lookup_singleton_eq.
    + by rewrite lookup_singleton_ne.
  - unfold genesis_store. cbn [st_confirmation_height st_block].
    intros a ci [<- <-]%lookup_singleton_Some. exists g. cbn. by rewrite lookup_singleton_eq.
  - split; cbn; [exists g|]; rewrite lookup_singleton_eq; eauto.
  - split; cbn; [by rewrite map_size_singleton..|]. by rewrite map_sum_singleton.
Qed.

(** A new data directory. *)
Lemma initialize_empty :
  initialize min_weight c store_empty [[genesis_info]] [[genesis_conf]] = Some genesis_store.
Proof.
  unfold initialize. rewrite bool_decide_true by done.
  unfold add_genesis_block, block_put. rewrite table_put_new_absent by done.
  cbn [mbind option_bind].
  rewrite <- (scans_restore min_weight c genesis_store genesis_inv [[genesis_info]] [[genesis_conf]]); try done.
  - cbn. by rewrite map_to_list_singleton.
  - cbn. by rewrite map_to_list_singleton.
  - left. cbn. lia.
Qed.
End genesis.
