(* ===== verification/Sample.v ===== *)
(** * A small concrete ledger

    A ledger with the model cryptography of Types.v, a genesis account (key
    100), a second account (key 200) and one epoch link (777, signed by key
    900). The theorems of the later files are applied to it. *)

From S2P Require Import Prelude Types Blocks Codec Work Store RepWeights Sets Validation Insertion.
From S2P Require Import Chains Money LedgerInv InsertSafe Effect Startup.

#[global] Existing Instance model_crypto.

(** The reactions of the LMDB library: both situations are errors. *)
#[global] Instance real_lmdb : LmdbEngine := {| del_missing_is_error := true; no_overwrite_is_error := true |}.

(** ** Constants *)

Definition sample_genesis_block : SavedBlock :=
  let h := mkOpenHashables 100 100 100 in
  let hash := open_hashables_hash h in
  mkSavedBlock (LegacyOpen (mkOpenBlock 0 (sign 100 (u256_serialize hash)) h hash)) (genesis_sideband 100).

Definition sample_constants : LedgerConstants :=
  mkLedgerConstants work_none sample_genesis_block 100 u128_max 1 [(Epoch1, mkEpochInfo 900 777)].

Lemma sample_genesis_wf : genesis_wf sample_constants.
Proof. split; [eexists; split_and!; reflexivity|reflexivity|by vm_compute|by vm_compute]. Qed.

Definition sample_ledger : LmdbStore := genesis_store sample_constants.

Lemma sample_inv : ledger_inv sample_constants 0 sample_ledger.
Proof. apply genesis_inv; [apply sample_genesis_wf | by vm_compute]. Qed.

(** ** Blocks *)

Definition signed_state (key : Z) (previous rep balance link : Z) : Block :=
  let h := mkStateHashables key previous rep balance link in
  let hash := state_hashables_hash h in
  State (mkStateBlock h (sign key (u256_serialize hash)) hash 0).

Definition genesis_head : BlockHash := block_hash sample_genesis_block.

(** 1000 raw for account 200, the block that receives them, a fork of the
    send, and a second send in the genesis chain. *)
Definition sample_send : Block := signed_state 100 genesis_head 100 (u128_max - 1000) 200.
Definition sample_open : Block := signed_state 200 0 200 1000 (block_hash sample_send).
Definition sample_fork : Block := signed_state 100 genesis_head 100 (u128_max - 1) 200.
Definition sample_send2 : Block := signed_state 100 (block_hash sample_send) 100 (u128_max - 3000) 200.

Definition processed_ledger (s : LmdbStore) (l : list Block) : LmdbStore :=
  fold_left (fun s b => match process_one 0 sample_constants s s 5 b with
                        | Some (_, s') => s'
                        | None => s
                        end) l s.
