(* ===== verification/Links.v ===== *)
(** * The dependency graph of the block table

    [deps_ok]: the blocks a block depends on are in the table, there is an
    order in which they come first, and apart from the predecessor a block
    depends on exactly the send it receives. The cementer walks this graph.
    Insertion keeps it, as long as no empty legacy send is received (such a
    receive survives the rollback of its send), and so does rollback. *)

From S2P Require Import Prelude Types Blocks Codec Work Store RepWeights Sets Validation Effect.
From S2P Require Import Chains Money LedgerInv InsertSafe RollbackLoop.

Definition deps (c : LedgerConstants) (b : SavedBlock) : list BlockHash :=
  dependents_iter (find_dependent_blocks c b).

Record deps_ok (c : LedgerConstants) (tb : block_table) : Prop := {
  dp_present : forall h b d, tb !! h = Some b -> d ∈ deps c b -> is_Some (tb !! d);
  dp_rank : exists rk bd, forall h b, tb !! h = Some b ->
    0 <= rk h < bd /\ forall d, d ∈ deps c b -> rk d < rk h;
  dp_recv : forall h (b : SavedBlock), tb !! h = Some b -> h <> genesis_hash c -> pos_recv tb b ->
    source_or_link b ∈ deps c b;
  dp_pos : forall h (b : SavedBlock) d, tb !! h = Some b -> d ∈ deps c b ->
    d = previous b \/ (h <> genesis_hash c /\ pos_recv tb b /\ d = source_or_link b);
}.

Lemma elem_of_deps c b d :
  d ∈ deps c b <->
  d <> 0 /\ (d = dep_previous (find_dependent_blocks c b) \/ d = dep_link (find_dependent_blocks c b)).
Proof.
  unfold deps, dependents_iter. rewrite list_elem_of_filter, !elem_of_cons, elem_of_nil.
  destruct (u256_is_zero_spec d); naive_solver.
Qed.

Lemma deps_nonzero c b d : d ∈ deps c b -> d <> 0.
Proof. by intros [? _]%elem_of_deps. Qed.

Lemma previous_in_deps c (b : SavedBlock) : previous b <> 0 -> previous b ∈ deps c b.
Proof.
  intros Hp. apply elem_of_deps. split; [done|]. left.
  unfold find_dependent_blocks, sv_dependent_blocks. by destruct (sv_block b).
Qed.

(** ** Rollback *)

Section remove.
Context (c : LedgerConstants) (tb : block_table) (ta : account_table) (tp : pending_table).
Context (x : SavedBlock) (i : AccountInfo).
Hypothesis (Hok : blocks_ok tb) (Ha : accounts_ok tb ta) (Hr : removed tb ta x i).
Hypothesis Hp : pending_ok (genesis_hash c) tb tp.
Hypothesis Hunreceived : pos_send tb x -> is_Some (tp !! send_key x).

Lemma deps_ok_remove : deps_ok c tb -> deps_ok c (delete (block_hash x) tb).
Proof.
  intros [Hpr (rk & bd & Hrk) Hrc Hps].
  assert (forall h (b : SavedBlock), tb !! h = Some b ->
    pos_recv (delete (block_hash x) tb) b <-> pos_recv tb b) as Hpos.
  { intros h b Hb. unfold pos_recv. by rewrite (prev_bal_remove tb ta x i Hok Ha Hr h). }
  split.
  - intros h b d [_ Hb]%lookup_delete_Some Hd. rewrite lookup_delete_ne; [eauto|]. intros <-.
    destruct (Hps _ _ _ Hb Hd) as [E|(Hg & Hpr' & E)].
    + by apply (removed_no_successor tb ta x i Hok Ha Hr h b Hb).
    + destruct (pd_recv _ _ _ Hp _ _ Hb Hg Hpr') as (Hn & sb & Hsb & Hs & Ek & _).
      rewrite <- E, (rm_block _ _ _ _ Hr) in Hsb. injection Hsb as <-.
      destruct (Hunreceived Hs) as [? ?]. rewrite Ek in Hn. congruence.
  - exists rk, bd. intros h b [_ Hb]%lookup_delete_Some. eauto.
  - intros h b [_ Hb]%lookup_delete_Some Hg Hp'. rewrite Hpos in Hp' by eauto. eauto.
  - intros h b d [_ Hb]%lookup_delete_Some Hd. rewrite (Hpos h) by done. eauto.
Qed.
End remove.

Lemma rolled_all_deps c min_weight s1 xs s2 :
  rolled_all c min_weight s1 xs s2 -> deps_ok c (st_block s1) -> deps_ok c (st_block s2).
Proof.
  induction 1 as [|s1 x s' xs s2 Hinv Hr [i Hx] Hc Hall IH]; [done|]. intros Hd. apply IH.
  rewrite (rl_block _ _ _ Hr).
  eapply deps_ok_remove; [apply Hinv|apply Hinv|done|apply Hinv|apply (rl_unreceived _ _ _ Hr)|done].
Qed.

(** ** Insertion *)

Lemma deps_ok_append c tb ta b i' :
  blocks_ok tb -> accounts_ok tb ta -> appended tb ta b i' -> deps_ok c tb ->
  let tb' := <[block_hash b:=b]> tb in
  (forall d, d ∈ deps c b -> is_Some (tb !! d)) ->
  (block_hash b <> genesis_hash c -> pos_recv tb' b -> source_or_link b ∈ deps c b) ->
  (forall d, d ∈ deps c b ->
     d = previous b \/ (block_hash b <> genesis_hash c /\ pos_recv tb' b /\ d = source_or_link b)) ->
  deps_ok c tb'.
Proof.
  intros Hok Ha Hap [Hpr (rk & bd & Hrk) Hrc Hps] tb' Hd Hs Hp.
  pose proof (ap_fresh _ _ _ _ Hap) as Hf.
  assert (forall h (y : SavedBlock), tb !! h = Some y -> pos_recv tb' y <-> pos_recv tb y) as Hpos.
  { intros h y Hy. unfold pos_recv, tb'. rewrite (prev_bal_insert tb _ b h y); try done. apply Hap. }
  split.
  - intros h y d [[<- <-]|[_ Hy]]%lookup_insert_Some Hdy; apply lookup_insert_is_Some'; eauto.
  - exists (fun h => if h =? block_hash b then Z.max 0 bd else rk h), (Z.max 0 bd + 1).
    assert (forall d, is_Some (tb !! d) -> (if d =? block_hash b then Z.max 0 bd else rk d) = rk d) as Eold.
    { intros d [z Hz]. destruct (Z.eqb_spec d (block_hash b)) as [->|]; [congruence|done]. }
    intros h y [[<- <-]|[_ Hy]]%lookup_insert_Some.
    + rewrite Z.eqb_refl. split; [lia|]. intros d Hdy. rewrite Eold by eauto.
      destruct (Hd _ Hdy) as [z Hz]. destruct (Hrk _ _ Hz). lia.
    + rewrite Eold by eauto. destruct (Hrk _ _ Hy) as [? Hlt]. split; [lia|].
      intros d Hdy. rewrite Eold by eauto. eauto.
  - intros h y [[<- <-]|[_ Hy]]%lookup_insert_Some Hg Hp'; [eauto|]. rewrite Hpos in Hp' by eauto. eauto.
  - intros h y d [[<- <-]|[_ Hy]]%lookup_insert_Some Hdy; [eauto|]. rewrite (Hpos h) by done. eauto.
Qed.

Section validated_links.
Context `{Crypto} (c : LedgerConstants) (min_weight : Amount) (s : LmdbStore) (v : BlockValidator).
Context (ins : BlockInsertInstructions).
Hypothesis Hinv : ledger_inv c min_weight s.
Hypothesis Hag : agrees s v.
Hypothesis Hb : block_ok (v_block v).
Hypothesis Hval : validate v = Ok ins.
Hypothesis Hroom : forall i, st_account s !! v_account v = Some i -> ai_block_count i < u64_max.
Hypothesis Hmint : mints v = false.
Hypothesis Hepochs : v_epochs v = lk_epochs c.

(** No empty send is received. *)
Hypothesis Hempty : is_receive v = true -> amount_received v <> 0.

#[local] Abbreviation b := (v_block v).
#[local] Abbreviation saved := (mkSavedBlock b (new_sideband v)).
#[local] Abbreviation tb' := (<[block_hash b:=saved]> (st_block s)).

(** A dependency that is not the predecessor is the source of a receive. *)
Lemma link_is_source d :
  d ∈ deps c saved -> d = previous b \/ (is_receive v = true /\ d = source_or_link b).
Proof.
  intros [Hnz Hd]%elem_of_deps. unfold find_dependent_blocks, sv_dependent_blocks, sv_is_send in Hd.
  unfold is_receive, has_epoch_link. rewrite Hepochs. cbn [sv_block sv_sideband new_sideband sd_details
    block_details bd_is_send] in Hd. unfold is_send in Hd.
  destruct (v_block v) as [x|x|x|x|x]; cbn in Hd |- *.
  - destruct Hd as [->| ->]; [by left|done].
  - destruct Hd as [->| ->]; [by left|by right].
  - unfold open_dependent_blocks in Hd. destruct (_ =? _); destruct Hd as [->| ->]; try done. by right.
  - destruct Hd as [->| ->]; [by left|done].
  - destruct Hd as [->| ->]; [by left|]. revert Hnz. clear. rewrite andb_comm.
    destruct (is_epoch_link _ _); cbn; [done|].
    destruct (v_old_account_info v) as [info|]; cbn; [|by right].
    case_test; cbn; [done|]. intros Hnz. right. split; [|done]. case_test; [cbn|lia].
    by destruct (u256_is_zero_spec (stateh_link (state_hashables x))).
Qed.

Lemma source_is_link :
  is_receive v = true -> is_Some (st_account s !! v_account v) \/ v_account v <> lk_genesis_account c ->
  source_or_link b <> 0 -> source_or_link b ∈ deps c saved.
Proof.
  intros Hr Hacc Hnz. apply elem_of_deps. split; [done|].
  destruct (validate_position _ _ Hval) as (_ & _ & Hpos & _).
  pose proof (ag_account _ _ Hag) as Hfield. rewrite (ag_old _ _ Hag) in Hpos.
  unfold find_dependent_blocks, sv_dependent_blocks, sv_is_send.
  unfold is_receive, has_epoch_link in Hr. rewrite Hepochs in Hr.
  cbn [sv_block sv_sideband new_sideband sd_details block_details bd_is_send]. unfold is_send.
  destruct (v_block v) as [x|x|x|x|x]; cbn in *; try done.
  - by right.
  - left. unfold open_dependent_blocks. destruct (Z.eqb_spec (openh_account (open_hashables x)) (lk_genesis_account c)) as [E|E]; [|done].
    specialize (Hfield _ eq_refl). destruct Hacc as [[i Hi]|Hacc]; [|congruence].
    rewrite Hi in Hpos. by destruct Hpos as (_ & ? & _).
  - right. destruct (is_epoch_link _ _); [done|].
    destruct (v_old_account_info v) as [info|]; cbn; [|done].
    apply andb_true_iff in Hr as [Hr _]. prop_bools. case_test; [lia|done].
Qed.

Lemma deps_ok_insert : deps_ok c (st_block s) -> deps_ok c tb'.
Proof.
  intros Hdeps. pose proof (validated_appended c min_weight s v ins Hinv Hag Hb Hval Hroom Hmint) as Hap.
  pose proof (saved_prev_bal c min_weight s v ins Hinv Hag Hb Hval Hroom Hmint) as Epb.
  pose proof (saved_info_balance c min_weight s v ins Hinv Hag Hb Hval Hroom Hmint) as Eib.
  destruct (gn_block _ _ _ (li_genesis _ _ _ Hinv)) as (gb & Hgb & Eg & _).
  assert (block_hash b <> genesis_hash c) as Hng.
  { intros E. pose proof (ag_fresh _ _ Hag) as Hf. rewrite E in Hf. congruence. }
  pose proof (validate_classifies _ _ (snapshot_consistent c min_weight s v Hinv Hag Hb) Hval Hmint) as Hcl.
  destruct (validate_amounts _ _ Hval) as [Hamt _].
  assert (is_receive v = true -> pos_recv tb' saved) as Hpos.
  { intros Hr. unfold pos_recv. rewrite Epb, Eib. specialize (Hempty Hr).
    destruct (Hamt Hr) as (_ & p & Hp & E & _).
    destruct (so_room _ (snapshot_consistent c min_weight s v Hinv Hag Hb) p Hr Hp) as [? _].
    destruct Hcl as [? ? ? ? ? ?|p' _ _ Hp' _ -> _ _|? ? ? ? ?]; [congruence| |congruence].
    assert (p' = p) as -> by congruence. lia. }
  eapply deps_ok_append; [apply Hinv|apply Hinv|exact Hap|done| | |].
  - intros d Hd. pose proof (deps_nonzero _ _ _ Hd) as Hnz. destruct (link_is_source d Hd) as [->|[Hr ->]].
    + destruct (validate_position _ _ Hval) as (_ & _ & _ & Hpred).
      destruct (Hpred Hnz) as (p & Hp & _). rewrite (ag_previous _ _ Hag) in Hp. eauto.
    + apply (ag_source _ _ Hag), Hamt, Hr.
  - intros _ Hp. unfold pos_recv in Hp. cbn [sv_block] in Hp. rewrite Epb, Eib in Hp.
    destruct Hcl as [? ? ? ? ? ?|p' _ Hr _ Hsrc _ _ _|? ? ? ? ?]; [lia| |lia].
    destruct (ag_source _ _ Hag Hsrc) as [sb Hsb]. apply source_is_link; [done| |].
    + destruct (ac_block _ _ (li_accounts _ _ _ Hinv) _ _ Hgb) as (gi & Hgi & _).
      destruct (decide (v_account v = lk_genesis_account c)) as [->|]; [left|by right].
      rewrite <- Eg. eauto.
    + intros E. rewrite E, (inv_zero_hash c min_weight s Hinv) in Hsb. done.
  - intros d Hd. destruct (link_is_source d Hd) as [->|[Hr ->]]; [by left|]. right. eauto.
Qed.
End validated_links.
