(* ===== verification/Cementer.v ===== *)
(** * Cementing (ledger/src/block_cementer.rs; ledger.rs: [confirm_max], [confirm_batch])

    [confirm] walks the unconfirmed dependencies of a block with an explicit
    stack (its top is the head of the list here, the back of the [VecDeque] in
    the source), confirming a block once all its dependencies are. Stack and
    result are capped by [max_blocks]. The write transaction can be refreshed
    on the way, which lets other writers in: [refresh n s] is [None] when no
    refresh is due with [n] turns left, and otherwise the state found after
    it. *)

From S2P Require Import Prelude Types Blocks Codec Work Store Sets.

Section cementer.
Context (c : LedgerConstants) (refresh : nat -> LmdbStore -> option LmdbStore).

Definition cementer_is_confirmed (s : LmdbStore) (hash : BlockHash) : bool :=
  match block_get s hash with
  | None => false
  | Some block =>
      match conf_height_get s (sv_account block) with
      | None => false
      | Some info => sv_height block <=? ch_height info
      end
  end.

(** [pop_front] drops the last element of the list. *)
Definition push_dependent (s : LmdbStore) (max_blocks : nat) (stack : list BlockHash)
    (dependent : BlockHash) : list BlockHash :=
  if negb (u256_is_zero dependent) && negb (cementer_is_confirmed s dependent) then
    let stack' := dependent :: stack in
    if (max_blocks <? length stack')%nat then removelast stack' else stack'
  else stack.

(** One turn of the loop on the stack [hash :: rest]. *)
Definition confirm_turn (s : LmdbStore) (result : list SavedBlock) (max_blocks : nat)
    (hash : BlockHash) (rest : list BlockHash)
    : option (LmdbStore * list SavedBlock * list BlockHash) :=
  block ← block_get s hash;
  let dependents := sv_dependent_blocks block (lk_epochs c) (lk_genesis_account c) in
  let stack := fold_left (push_dependent s max_blocks) (dependents_iter dependents) (hash :: rest) in
  if bool_decide (hd_error stack = Some hash) then
    let stack' := tl stack in
    if negb (cementer_is_confirmed s hash) then
      let conf_height := mkConfirmationHeightInfo (sv_height block) (block_hash block) in
      Some (add_confirmed_count 1 (conf_height_put s (sv_account block) conf_height),
            result ++ [block], stack')
    else Some (s, result, stack')
  else Some (s, result, stack).

Fixpoint confirm_loop (fuel : nat) (s : LmdbStore) (result : list SavedBlock)
    (target_hash : BlockHash) (max_blocks : nat) (stack : list BlockHash)
    : run (LmdbStore * list SavedBlock) :=
  match stack with
  | [] => Finished (s, result)
  | hash :: rest =>
      match fuel with
      | O => Running
      | S fuel =>
          r ← unwrap (confirm_turn s result max_blocks hash rest);
          let '(s1, result1, stack1) := r in
          match refresh fuel s1 with
          | Some s2 =>
              if negb (block_exists s2 target_hash) then Finished (s2, result1)
              else if (max_blocks <=? length result1)%nat then Finished (s2, result1)
              else confirm_loop fuel s2 result1 target_hash max_blocks stack1
          | None =>
              if (max_blocks <=? length result1)%nat then Finished (s1, result1)
              else confirm_loop fuel s1 result1 target_hash max_blocks stack1
          end
      end
  end.

(** [BlockCementer::confirm], reached through [Ledger::confirm_max]. *)
Definition confirm (fuel : nat) (s : LmdbStore) (target_hash : BlockHash) (max_blocks : nat)
    : run (LmdbStore * list SavedBlock) :=
  confirm_loop fuel s [] target_hash max_blocks [target_hash].

(** ** Ledger::confirm_batch *)

(** Calls of the [CementingObserver]. *)
Inductive CementingEvent :=
  | BatchConfirmed (confirmed : list (SavedBlock * BlockHash))
  | AlreadyConfirmed (hash : BlockHash)
  | CementingFailed (hash : BlockHash).

Record confirm_state := mkConfirmState {
  cs_store : LmdbStore;
  cs_confirmed : list (SavedBlock * BlockHash);
  cs_blocks_confirmed : nat;
  cs_events : list CementingEvent;
}.

Definition refreshed (n : nat) (s : LmdbStore) : LmdbStore := default s (refresh n s).

(** One round of the inner [loop]: [inl] ends it with the value of [success]. *)
Definition confirm_round (fuel n : nat) (max_blocks : nat) (root : BlockHash) (st : confirm_state)
    : run ((bool * confirm_state) + confirm_state) :=
  let s := refreshed n (cs_store st) in
  let st1 := if (max_blocks <=? cs_blocks_confirmed st)%nat
             then mkConfirmState s [] 0 (cs_events st ++ [BatchConfirmed (cs_confirmed st)])
             else mkConfirmState s (cs_confirmed st) (cs_blocks_confirmed st) (cs_events st) in
  if negb (block_exists s root) then Finished (inl (false, st1)) else
  r ← confirm fuel s root max_blocks;
  let '(s2, added) := r in
  let st2 :=
    if negb (bool_decide (added = [])) then
      mkConfirmState s2 (cs_confirmed st1 ++ ((fun b => (b, root)) <$> added))
        (cs_blocks_confirmed st1 + length added) (cs_events st1)
    else mkConfirmState s2 (cs_confirmed st1) (cs_blocks_confirmed st1)
           (if confirmed_block_exists s2 root then cs_events st1 ++ [AlreadyConfirmed root]
            else cs_events st1) in
  if cementer_is_confirmed s2 root then Finished (inl (true, st2)) else Finished (inr st2).

(** [rounds] bounds the inner loop; [stopped n] is the shutdown flag as read
    with [n] rounds left. [None] as first component: stopped. *)
Fixpoint confirm_root (rounds fuel : nat) (stopped : nat -> bool) (max_blocks : nat)
    (root : BlockHash) (st : confirm_state) : run (option bool * confirm_state) :=
  match rounds with
  | O => Running
  | S rounds =>
      if stopped rounds then
        Finished (None, mkConfirmState (refreshed rounds (cs_store st)) (cs_confirmed st)
                          (cs_blocks_confirmed st) (cs_events st))
      else
        r ← confirm_round fuel rounds max_blocks root st;
        match r with
        | inl (success, st') => Finished (Some success, st')
        | inr st' => confirm_root rounds fuel stopped max_blocks root st'
        end
  end.

Fixpoint confirm_batch (rounds fuel : nat) (stopped : nat -> bool) (max_blocks : nat)
    (batch : list BlockHash) (st : confirm_state) : run confirm_state :=
  match batch with
  | [] =>
      Finished (if bool_decide (cs_confirmed st = []) then st
                else mkConfirmState (cs_store st) [] (cs_blocks_confirmed st)
                       (cs_events st ++ [BatchConfirmed (cs_confirmed st)]))
  | root :: batch =>
      r ← confirm_root rounds fuel stopped max_blocks root st;
      let '(success, st') := r in
      match success with
      | None => Finished st'
      | Some success =>
          confirm_batch rounds fuel stopped max_blocks batch
            (if (success : bool) then st'
             else mkConfirmState (cs_store st') (cs_confirmed st') (cs_blocks_confirmed st')
                    (cs_events st' ++ [CementingFailed root]))
      end
  end.
End cementer.
