(* ===== verification/CementSafe.v ===== *)
(** * Cementing is safe and makes progress

    Every turn of the cementer keeps [ledger_ok], the whole-ledger invariant:
    the tables ([ledger_inv]), the dependency graph ([deps_ok]) and that a
    confirmed block was received from a confirmed block ([cemented_ok]). A
    block is confirmed only when everything it depends on is. *)

From S2P Require Import Prelude Types Blocks Codec Work Store RepWeights Sets Validation Effect.
From S2P Require Import Chains Money LedgerInv InsertSafe Rollback RollbackLoop Links Cementer.

Record ledger_ok (c : LedgerConstants) (min_weight : Amount) (s : LmdbStore) : Prop := {
  lo_inv : ledger_inv c min_weight s;
  lo_deps : deps_ok c (st_block s);
  lo_cemented : cemented_ok c s;
}.

#[global] Instance confirmed_dec s b : Decision (confirmed s b).
Proof. unfold confirmed. apply _. Defined.

Definition confirmed_hash (s : LmdbStore) (h : BlockHash) : Prop :=
  exists b, st_block s !! h = Some b /\ confirmed s b.

(** The state after the cementer has confirmed [b]. *)
Definition cement (s : LmdbStore) (b : SavedBlock) : LmdbStore :=
  add_confirmed_count 1
    (conf_height_put s (sv_account b) (mkConfirmationHeightInfo (sv_height b) (block_hash b))).

Section block.
Context (c : LedgerConstants) (min_weight : Amount) (s : LmdbStore).
Hypothesis Hok : ledger_ok c min_weight s.

Lemma cementer_is_confirmed_spec h : reflect (confirmed_hash s h) (cementer_is_confirmed s h).
Proof.
  pose proof (li_blocks _ _ _ (lo_inv _ _ _ Hok)) as Hbk.
  unfold cementer_is_confirmed, block_get, conf_height_get, confirmed_hash.
  destruct (st_block s !! h) as [b|] eqn:Hb; [|constructor; by intros (? & ? & _)].
  pose proof (bk_height _ Hbk _ _ Hb) as Hh. unfold confirmed.
  destruct (st_confirmation_height s !! sv_account b) as [i|] eqn:Hi.
  - destruct (sv_height b <=? ch_height i) eqn:E; constructor; prop_bools.
    + exists b. by rewrite Hi.
    + intros (b' & [= <-] & Hc). rewrite Hi in Hc. cbn in Hc. lia.
  - constructor. intros (b' & [= <-] & Hc). rewrite Hi in Hc. cbn in Hc. lia.
Qed.

Lemma cement_confirmed (b x : SavedBlock) :
  confirmed (cement s b) x <->
  if decide (sv_account x = sv_account b) then sv_height x <= sv_height b else confirmed s x.
Proof.
  unfold confirmed, cement. cbn. destruct (decide (sv_account x = sv_account b)) as [->|Hne].
  - by rewrite lookup_insert_eq.
  - by rewrite lookup_insert_ne.
Qed.

Context (h : BlockHash) (b : SavedBlock).
Hypothesis Hb : st_block s !! h = Some b.
Hypothesis Hunc : ~ confirmed s b.
Hypothesis Hdeps : forall d, d ∈ deps c b -> confirmed_hash s d.

(** The confirmation height moves up by exactly one. *)
Lemma cement_height : default 0 (ch_height <$> st_confirmation_height s !! sv_account b) = sv_height b - 1.
Proof.
  pose proof (lo_inv _ _ _ Hok) as Hinv. pose proof (li_blocks _ _ _ Hinv) as Hbk.
  unfold confirmed in Hunc. destruct (decide (previous b = 0)) as [E|E].
  - destruct (bk_open _ Hbk _ _ Hb E) as [-> _].
    destruct (bk_open _ Hbk _ _ Hb E) as [Eh _]. rewrite Eh in Hunc.
    destruct (st_confirmation_height s !! sv_account b) as [i|] eqn:Hi; [|done]. cbn in *.
    destruct (li_conf _ _ _ Hinv _ _ Hi) as (fb & Hfb & _ & Ef).
    pose proof (bk_height _ Hbk _ _ Hfb). lia.
  - destruct (bk_prev _ Hbk _ _ Hb E) as (p & Hp & Ea & Eh).
    destruct (Hdeps _ (previous_in_deps c b E)) as (p' & Hp' & Hc). assert (p' = p) as -> by congruence.
    unfold confirmed in Hc. rewrite Ea in Hc. lia.
Qed.

Lemma cement_mono x : confirmed s x -> confirmed (cement s b) x.
Proof.
  rewrite cement_confirmed. destruct (decide _) as [E|]; [|done]. unfold confirmed.
  rewrite E, cement_height. lia.
Qed.

Lemma cement_new h' x :
  st_block s !! h' = Some x -> confirmed (cement s b) x -> confirmed s x \/ x = b.
Proof.
  intros Hx. rewrite cement_confirmed. destruct (decide _) as [E|]; [|by left]. intros Hle.
  destruct (decide (sv_height x = sv_height b)) as [Eh|].
  - right. pose proof (bk_unique _ (li_blocks _ _ _ (lo_inv _ _ _ Hok)) _ _ _ _ Hx Hb E Eh) as ->. congruence.
  - left. unfold confirmed. rewrite E, cement_height. lia.
Qed.

Lemma cement_inv : ledger_inv c min_weight (cement s b).
Proof.
  pose proof (lo_inv _ _ _ Hok) as Hinv. pose proof cement_height as Ech.
  destruct (bk_key _ (li_blocks _ _ _ Hinv) _ _ Hb) as [Ek _].
  destruct Hinv as [Ib Ia Is Ip Ic Isu Ir Iw If [Gb Gc] [Cb Ca Cc]].
  unfold cement. split; cbn -[wrap]; try done.
  - by destruct Ir.
  - intros a ci [[<- <-]|[_ Hci]]%lookup_insert_Some; [|by apply If]. exists b. cbn. by rewrite Ek.
  - split; [done|]. apply lookup_insert_is_Some'. by right.
  - split; cbn -[wrap]; try done. rewrite Cc, map_sum_insert, Ech, wrap_add_l by lia. f_equal. cbn. lia.
Qed.

Lemma cement_ok : ledger_ok c min_weight (cement s b).
Proof.
  split; [apply cement_inv|apply Hok|]. intros r rb sb Hr Hg Hpos Hc Hsb. cbn in Hr, Hpos, Hsb.
  apply cement_mono. destruct (cement_new _ _ Hr Hc) as [Hc'| ->].
  - by apply (lo_cemented _ _ _ Hok r rb sb).
  - destruct (Hdeps _ (dp_recv _ _ (lo_deps _ _ _ Hok) _ _ Hr Hg Hpos)) as (sb' & Hsb' & Hcs). congruence.
Qed.
End block.

(** ** The stack *)

Lemma length_removelast {A} (l : list A) : length (removelast l) = (length l - 1)%nat.
Proof. induction l as [|x [|y l] IH]; cbn in *; lia. Qed.

Lemma elem_of_removelast {A} (x : A) l : x ∈ removelast l -> x ∈ l.
Proof.
  induction l as [|y [|z l] IH]; [done|by intros ?%elem_of_nil|].
  change (removelast (y :: z :: l)) with (y :: removelast (z :: l)).
  rewrite !(elem_of_cons _ x). intros [->|Hx%IH]; [by left|right]. by apply elem_of_cons in Hx.
Qed.

Section push.
Context (c : LedgerConstants) (min_weight : Amount) (s : LmdbStore) (max_blocks : nat).
Hypothesis Hok : ledger_ok c min_weight s.

Lemma push_one stack d :
  stack <> [] -> d <> 0 ->
  let stack' := push_dependent s max_blocks stack d in
  (confirmed_hash s d /\ stack' = stack) \/
  (~ confirmed_hash s d /\ hd_error stack' = Some d /\ (forall x, x ∈ stack' -> x ∈ stack \/ x = d) /\
   (length stack' <= Nat.max (length stack) max_blocks)%nat).
Proof.
  intros Hne Hd. unfold push_dependent. destruct (u256_is_zero_spec d) as [|_]; [done|]. cbn [negb andb].
  destruct (cementer_is_confirmed_spec c min_weight s Hok d) as [Hc|Hc]; cbn [negb]; [by left|right].
  destruct stack as [|y l]; [done|].
  destruct (Nat.ltb_spec max_blocks (length (d :: y :: l))).
  - change (removelast (d :: y :: l)) with (d :: removelast (y :: l)).
    split_and!; [done|done| |cbn [length]; rewrite length_removelast; cbn in *; lia].
    intros x [->|Hx]%elem_of_cons; [by right|left]. by apply elem_of_removelast.
  - cbn in *. split_and!; [done|done| |lia]. intros x [->|?]%elem_of_cons; eauto.
Qed.

Lemma push_all ds stack :
  stack <> [] -> Forall (fun d => d <> 0) ds ->
  let stack' := fold_left (push_dependent s max_blocks) ds stack in
  (forall x, x ∈ stack' -> x ∈ stack \/ x ∈ ds) /\
  (length stack' <= Nat.max (length stack) max_blocks)%nat /\
  ((stack' = stack /\ Forall (confirmed_hash s) ds) \/
   (exists d, d ∈ ds /\ ~ confirmed_hash s d /\ hd_error stack' = Some d)).
Proof.
  revert stack. induction ds as [|d ds IH]; intros stack Hne Hds; cbn [fold_left].
  { split_and!; [by left|lia|by left]. }
  apply Forall_cons in Hds as [Hd Hds].
  destruct (push_one stack d Hne Hd) as [[Hc ->]|(Hc & Hhd & Hin & Hlen)].
  - destruct (IH stack Hne Hds) as (H1 & H2 & H3). split_and!; [|done|].
    + intros x Hx. destruct (H1 x Hx); [by left|right; by right].
    + destruct H3 as [[-> ?]|(d' & ? & ? & ?)]; [left; by auto|right]. exists d'. split; [by right|done].
  - destruct (IH (push_dependent s max_blocks stack d)) as (H1 & H2 & H3); [by intros E; rewrite E in Hhd|done|].
    split_and!; [|lia|].
    + intros x Hx. destruct (H1 x Hx) as [[?| ->]%Hin|?]; [by left|right; by left|right; by right].
    + right. destruct H3 as [[-> _]|(d' & ? & ? & ?)];
        [exists d; split; [by left|done] | exists d'; split; [by right|done]].
Qed.
End push.

(** ** One turn *)

Section turn.
Context (c : LedgerConstants) (min_weight : Amount) (s : LmdbStore) (max_blocks : nat).
Hypothesis Hok : ledger_ok c min_weight s.

Lemma confirmed_deps h b d :
  st_block s !! h = Some b -> confirmed s b -> d ∈ deps c b -> confirmed_hash s d.
Proof.
  intros Hb Hc Hd. destruct (dp_present _ _ (lo_deps _ _ _ Hok) _ _ _ Hb Hd) as [x Hx]. exists x.
  split; [done|]. destruct (dp_pos _ _ (lo_deps _ _ _ Hok) _ _ _ Hb Hd) as [->|(Hg & Hp & ->)].
  - destruct (bk_prev _ (li_blocks _ _ _ (lo_inv _ _ _ Hok)) _ _ Hb (deps_nonzero _ _ _ Hd)) as (p & Hp & Ea & Eh).
    assert (p = x) as -> by congruence. unfold confirmed in *. rewrite Ea. lia.
  - by apply (lo_cemented _ _ _ Hok h b x).
Qed.

Inductive cement_turned (res : list SavedBlock) (h : BlockHash) (rest : list BlockHash)
    : option (LmdbStore * list SavedBlock * list BlockHash) -> Prop :=
  | ct_pop b : st_block s !! h = Some b -> confirmed s b -> cement_turned res h rest (Some (s, res, rest))
  | ct_cement b : st_block s !! h = Some b -> ~ confirmed s b ->
      (forall d, d ∈ deps c b -> confirmed_hash s d) ->
      cement_turned res h rest (Some (cement s b, res ++ [b], rest))
  | ct_push b d stack : st_block s !! h = Some b -> ~ confirmed s b -> d ∈ deps c b ->
      ~ confirmed_hash s d -> hd_error stack = Some d ->
      (forall x, x ∈ stack -> x ∈ h :: rest \/ x ∈ deps c b) ->
      (length stack <= Nat.max (length (h :: rest)) max_blocks)%nat ->
      cement_turned res h rest (Some (s, res, stack)).

Lemma confirm_turn_ok res h rest :
  is_Some (st_block s !! h) -> cement_turned res h rest (confirm_turn c s res max_blocks h rest).
Proof.
  intros [b Hb]. unfold confirm_turn, block_get. rewrite Hb. cbn [mbind option_bind].
  change (dependents_iter _) with (deps c b).
  assert (Forall (fun d => d <> 0) (deps c b)) as Hnz by (apply Forall_forall; apply deps_nonzero).
  destruct (push_all c min_weight s max_blocks Hok (deps c b) (h :: rest)) as (Hin & Hlen & Hcase); [done..|].
  destruct Hcase as [[-> Hall]|(d & Hd & Hc & Hhd)].
  - rewrite bool_decide_true by done. cbn [tl].
    destruct (cementer_is_confirmed_spec c min_weight s Hok h) as [(b' & Hb' & Hc)|Hc]; cbn [negb].
    + by apply (ct_pop _ _ _ b'); [|].
    + apply (ct_cement _ _ _ b Hb).
      * intros Hc'. apply Hc. by exists b.
      * by apply Forall_forall.
  - rewrite bool_decide_false.
    + apply (ct_push _ _ _ b d); try done. intros Hc'. apply Hc. by eapply confirmed_deps.
    + rewrite Hhd. intros [= ->]. destruct (dp_rank _ _ (lo_deps _ _ _ Hok)) as (rk & bd & Hrk).
      destruct (Hrk _ _ Hb) as [_ Hlt]. specialize (Hlt _ Hd). lia.
Qed.
End turn.

(** ** Whole runs

    [ancestor c tb t h]: the target [t] is, or transitively depends on, [h]. *)

Inductive ancestor (c : LedgerConstants) (tb : block_table) (t : BlockHash) : BlockHash -> Prop :=
  | anc_self : ancestor c tb t t
  | anc_dep h b d : ancestor c tb t h -> tb !! h = Some b -> d ∈ deps c b -> ancestor c tb t d.

(** What a run of the cementer did: it confirmed the blocks [new]. *)
Record cemented (c : LedgerConstants) (t : BlockHash) (s : LmdbStore) (new : list SavedBlock) (s' : LmdbStore)
    : Prop := {
  cm_same : set_cache (st_cache s) (set_confirmation_height (st_confirmation_height s) s') = s;
  cm_new : forall b : SavedBlock, b ∈ new -> st_block s !! block_hash b = Some b /\ ~ confirmed s b /\
    ancestor c (st_block s) t (block_hash b);
  cm_confirmed : forall h b, st_block s !! h = Some b -> confirmed s' b <-> confirmed s b \/ b ∈ new;
  cm_order : forall b d i, new !! i = Some b -> d ∈ deps c b ->
    confirmed_hash s d \/ exists j (x : SavedBlock), (j < i)%nat /\ new !! j = Some x /\ block_hash x = d;
}.

Lemma cemented_nil c t s : cemented c t s [] s.
Proof.
  split; [by destruct s|by intros ? ?%elem_of_nil| |done]. intros h b _.
  split; [by left|]. by intros [?|?%elem_of_nil].
Qed.

Lemma cemented_block c t s new s' : cemented c t s new s' -> st_block s' = st_block s.
Proof. intros [E _ _ _]. by rewrite <- E. Qed.

Lemma cemented_cons c min_weight t s h b new s' :
  ledger_ok c min_weight s -> st_block s !! h = Some b -> ~ confirmed s b ->
  (forall d, d ∈ deps c b -> confirmed_hash s d) -> ancestor c (st_block s) t h ->
  cemented c t (cement s b) new s' -> cemented c t s (b :: new) s'.
Proof.
  intros Hok Hb Hc Hd Hanc [Es Hn Hcf Ho].
  destruct (bk_key _ (li_blocks _ _ _ (lo_inv _ _ _ Hok)) _ _ Hb) as [<- _].
  change (st_block (cement s b)) with (st_block s) in *.
  pose proof (cement_mono c min_weight s Hok _ b Hb Hc Hd) as Hmono.
  pose proof (cement_new c min_weight s Hok _ b Hb Hc Hd) as Hnew.
  split.
  - unfold cement in Es. destruct s, s'. cbn in Es |- *. by injection Es as -> -> -> -> -> -> ->.
  - intros x [->|Hx]%elem_of_cons; [done|]. destruct (Hn x Hx) as (? & Hnc & ?).
    split_and!; [done| |done]. intros Hcx. by apply Hnc, Hmono.
  - intros h x Hx. rewrite (Hcf h x Hx), elem_of_cons. split.
    + intros [[?| ->]%(Hnew _ _ Hx)|?]; auto.
    + intros [?|[->|?]]; auto. left. apply cement_confirmed. by rewrite decide_True.
  - intros x d [|i] Hi Hdx; cbn in Hi.
    + injection Hi as <-. by left; apply Hd.
    + destruct (Ho x d i Hi Hdx) as [(y & Hy & Hcy)|(j & y & Hj & Hy & Ey)].
      * destruct (Hnew _ _ Hy Hcy) as [?| ->]; [left; by exists y|right]. exists 0%nat, b.
        split_and!; [lia|done|]. by destruct (bk_key _ (li_blocks _ _ _ (lo_inv _ _ _ Hok)) _ _ Hy).
      * right. exists (S j), y. split_and!; [lia|done|done].
Qed.

(** ** Termination without refreshes *)

Definition unconfirmed_blocks (s : LmdbStore) : list (BlockHash * SavedBlock) :=
  filter (fun p => ~ confirmed s p.2) (map_to_list (st_block s)).

Lemma unconfirmed_cement c min_weight s h b :
  ledger_ok c min_weight s -> st_block s !! h = Some b -> ~ confirmed s b ->
  (forall d, d ∈ deps c b -> confirmed_hash s d) ->
  (length (unconfirmed_blocks (cement s b)) < length (unconfirmed_blocks s))%nat.
Proof.
  intros Hok Hb Hc Hd. unfold unconfirmed_blocks. apply (length_filter_strict _ _ _ (h, b)).
  - intros [h' x] _ Hx Hcx. apply Hx. by eapply cement_mono.
  - by apply elem_of_map_to_list.
  - done.
  - cbn. intros Hx. apply Hx, cement_confirmed. by rewrite decide_True.
Qed.

Section loop.
Context (c : LedgerConstants) (min_weight : Amount) (rk : BlockHash -> Z) (bd : Z) (bound : nat).

Definition cement_phase (s : LmdbStore) (stack : list BlockHash) : nat :=
  match stack with
  | [] => 0
  | h :: _ => if cementer_is_confirmed s h then Z.to_nat bd + length stack else Z.to_nat (rk h)
  end.

Definition cement_measure (s : LmdbStore) (stack : list BlockHash) : nat :=
  length (unconfirmed_blocks s) * (Z.to_nat bd + bound + 2) + cement_phase s stack.

Definition rank_ok (tb : block_table) : Prop :=
  forall h b, tb !! h = Some b -> 0 <= rk h < bd /\ forall d, d ∈ deps c b -> rk d < rk h.

Lemma cement_phase_le s stack :
  rank_ok (st_block s) -> Forall (fun h => is_Some (st_block s !! h)) stack -> (length stack <= bound)%nat ->
  (cement_phase s stack <= Z.to_nat bd + bound)%nat.
Proof.
  intros Hrk Hall Hlen. destruct stack as [|h l]; cbn; [lia|]. destruct (cementer_is_confirmed s h); cbn in *; [lia|].
  apply Forall_cons in Hall as [[b Hb] _]. destruct (Hrk _ _ Hb). lia.
Qed.

Lemma cement_phase_pop s h l :
  rank_ok (st_block s) -> Forall (fun h => is_Some (st_block s !! h)) l -> cementer_is_confirmed s h = true ->
  (cement_phase s l < cement_phase s (h :: l))%nat.
Proof.
  intros Hrk Hall Hc. cbn. rewrite Hc. destruct l as [|h' l]; cbn; [lia|].
  destruct (cementer_is_confirmed s h'); [lia|]. apply Forall_cons in Hall as [[b Hb] _].
  destruct (Hrk _ _ Hb). lia.
Qed.

Lemma cement_phase_push s h b d l l' :
  rank_ok (st_block s) -> st_block s !! h = Some b -> is_Some (st_block s !! d) -> d ∈ deps c b ->
  cementer_is_confirmed s h = false -> cementer_is_confirmed s d = false -> hd_error l' = Some d ->
  (cement_phase s l' < cement_phase s (h :: l))%nat.
Proof.
  intros Hrk Hb [x Hx] Hd Hc Hcd Hhd. destruct l' as [|y l']; [done|]. injection Hhd as ->. cbn.
  rewrite Hc, Hcd. destruct (Hrk _ _ Hb) as [? Hlt]. specialize (Hlt _ Hd). destruct (Hrk _ _ Hx). lia.
Qed.

Definition no_refresh (n : nat) (s : LmdbStore) : option LmdbStore := None.

Definition on_path (t : BlockHash) (s : LmdbStore) (h : BlockHash) : Prop :=
  is_Some (st_block s !! h) /\ ancestor c (st_block s) t h.

Lemma on_path_dep t s h b d :
  ledger_ok c min_weight s -> on_path t s h -> st_block s !! h = Some b -> d ∈ deps c b -> on_path t s d.
Proof.
  intros Hok [_ Ha] Hb Hd. split; [by eapply dp_present; [apply Hok|..]|]. by eapply anc_dep.
Qed.

Lemma confirm_loop_ok fuel s res t max_blocks stack :
  ledger_ok c min_weight s -> rank_ok (st_block s) -> Forall (on_path t s) stack ->
  (length stack <= bound)%nat -> (max_blocks <= bound)%nat -> (length res < max_blocks)%nat ->
  (cement_measure s stack <= fuel)%nat ->
  exists s' new, confirm_loop c no_refresh fuel s res t max_blocks stack = Finished (s', res ++ new) /\
    ledger_ok c min_weight s' /\ cemented c t s new s' /\
    (new = [] -> Forall (confirmed_hash s) stack).
Proof.
  unfold cement_measure. revert s res stack. induction fuel as [|fuel IH]; intros s res stack Hok Hrk Hst Hlen Hmax Hres Hm.
  all: destruct stack as [|h rest]; cbn [confirm_loop];
    [exists s, []; rewrite app_nil_r; split_and!; by eauto using cemented_nil|].
  all: pose proof Hst as Hst0; apply Forall_cons in Hst as [[Hh Ha] Hst].
  all: pose proof (cementer_is_confirmed_spec c min_weight s Hok) as Hspec.
  { exfalso. cbn [cement_phase] in Hm. destruct Hh as [b Hb]. destruct (Hspec h) as [|Hn]; [cbn in Hm; lia|].
    assert (length (unconfirmed_blocks s) <> 0)%nat; [|lia]. intros E%length_zero_iff_nil.
    apply (not_elem_of_nil (h, b)). rewrite <- E. apply list_elem_of_filter. split; [|by apply elem_of_map_to_list].
    cbn. intros Hc. apply Hn. by exists b. }
  assert (forall l, Forall (on_path t s) l -> Forall (fun h => is_Some (st_block s !! h)) l) as Hpres
    by (intros l Hl; eapply Forall_impl; [exact Hl|]; by intros ? [? _]).
  cbn in Hlen. destruct (confirm_turn_ok c min_weight s max_blocks Hok res h rest Hh)
    as [b Hb Hc|b Hb Hc Hd|b d stack' Hb Hc Hd Hcd Hhd Hin Hl]; cbn [unwrap mbind run_bind no_refresh].
  - destruct (Nat.leb_spec max_blocks (length res)); [lia|].
    assert (cementer_is_confirmed s h = true) as Ec by (by destruct (Hspec h) as [|[]]; [|exists b]).
    pose proof (cement_phase_pop s h rest Hrk (Hpres _ Hst) Ec).
    destruct (IH s res rest) as (s' & new & -> & ? & ? & Hnil); [done|done|done|lia|done|done|lia|].
    exists s', new. split_and!; try done. intros ->. constructor; [by exists b|by apply Hnil].
  - assert (cemented c t s [b] (cement s b)) as Hone by (eapply cemented_cons; eauto using cemented_nil).
    destruct (Nat.leb_spec max_blocks (length (res ++ [b]))).
    { exists (cement s b), [b]. split_and!; [done|by eapply cement_ok|done|done]. }
    pose proof (unconfirmed_cement c min_weight s h b Hok Hb Hc Hd) as Hlt.
    assert (cement_phase (cement s b) rest <= Z.to_nat bd + bound)%nat
      by (apply cement_phase_le; [done|by apply Hpres|lia]).
    destruct (IH (cement s b) (res ++ [b]) rest) as (s' & new & -> & ? & ? & _);
      [by eapply cement_ok|done|done|lia|done|done|nia|].
    exists s', (b :: new). rewrite <- app_assoc. split_and!; [done|done| |done]. by eapply cemented_cons.
  - destruct (Nat.leb_spec max_blocks (length res)); [lia|].
    assert (cementer_is_confirmed s h = false) as Ec.
    { destruct (Hspec h) as [(b' & Hb' & ?)|]; [|done]. assert (b' = b) as -> by congruence. done. }
    assert (cementer_is_confirmed s d = false) as Ecd by (by destruct (Hspec d)).
    assert (Forall (on_path t s) stack') as Hst'.
    { apply Forall_forall. intros x [Hx|Hx]%Hin; [by eapply Forall_forall in Hst0|].
      by eapply (on_path_dep t s h b x). }
    pose proof (cement_phase_push s h b d rest stack' Hrk Hb) as Hph.
    specialize (Hph ltac:(by eapply dp_present; [apply Hok|..]) Hd Ec Ecd Hhd).
    destruct (IH s res stack') as (s' & new & -> & ? & ? & Hnil); [done|done|done| |done|done|lia|].
    { cbn in Hl. lia. }
    exists s', new. split_and!; try done. intros Enew. specialize (Hnil Enew).
    destruct stack' as [|y l]; [done|]. injection Hhd as ->. by apply Forall_cons in Hnil as [? _].
Qed.
End loop.

(** The order of [deps_ok] can be taken with fewer ranks than blocks. *)
Lemma rank_normal c tb :
  deps_ok c tb -> exists rk, rank_ok c rk (Z.of_nat (size tb)) tb.
Proof.
  intros [Hpr (rk & bd & Hrk) _ _].
  exists (fun h => Z.of_nat (length (filter (fun p : BlockHash * SavedBlock => rk p.1 < rk h) (map_to_list tb)))).
  intros h b Hb. split; [split; [lia|]|].
  - rewrite <- (length_map_to_list tb).
    apply inj_lt, (length_filter_lt _ _ (h, b)); [by apply elem_of_map_to_list|cbn; lia].
  - intros d Hd. destruct (Hpr _ _ _ Hb Hd) as [x Hx]. destruct (Hrk _ _ Hb) as [_ Hlt]. specialize (Hlt _ Hd).
    apply inj_lt. apply (length_filter_strict _ _ _ (d, x)); [cbn; lia|by apply elem_of_map_to_list|done|cbn; lia].
Qed.

(** Turns that are always enough for a ledger of [n] blocks. *)
Definition confirm_fuel (n max_blocks : nat) : nat := (n + 1) * (n + max_blocks + 2).

Section runs.
Context (c : LedgerConstants) (min_weight : Amount).

Lemma confirm_total fuel s t max_blocks :
  ledger_ok c min_weight s -> is_Some (st_block s !! t) -> (1 <= max_blocks)%nat ->
  (confirm_fuel (size (st_block s)) max_blocks <= fuel)%nat ->
  exists s' new, confirm c no_refresh fuel s t max_blocks = Finished (s', new) /\
    ledger_ok c min_weight s' /\ cemented c t s new s' /\ (new = [] -> confirmed_hash s t).
Proof.
  intros Hok Ht Hmax Hf. destruct (rank_normal c _ (lo_deps _ _ _ Hok)) as [rk Hrk].
  assert (length (unconfirmed_blocks s) <= size (st_block s))%nat as Hu.
  { unfold unconfirmed_blocks. rewrite <- length_map_to_list. apply length_filter. }
  assert (cement_phase rk (Z.of_nat (size (st_block s))) s [t]
    <= Z.to_nat (Z.of_nat (size (st_block s))) + max_blocks)%nat as Hph.
  { apply (cement_phase_le c); [done|by repeat constructor|cbn; lia]. }
  destruct (confirm_loop_ok c min_weight rk (Z.of_nat (size (st_block s))) max_blocks fuel s [] t max_blocks [t])
    as (s' & new & E & Hok' & Hcm & Hnil); [done|done| |cbn; lia|lia|cbn; lia| |].
  - constructor; [|done]. split; [done|constructor].
  - unfold cement_measure, confirm_fuel in *. rewrite Nat2Z.id in *. nia.
  - exists s', new. split_and!; try done. intros E'. specialize (Hnil E'). by apply Forall_cons in Hnil as [? _].
Qed.

Lemma cemented_unconfirmed t s new s' :
  cemented c t s new s' -> new <> [] -> (length (unconfirmed_blocks s') < length (unconfirmed_blocks s))%nat.
Proof.
  intros Hcm Hne. pose proof (cemented_block _ _ _ _ _ Hcm) as Eb. destruct new as [|b new]; [done|].
  destruct (cm_new _ _ _ _ _ Hcm b) as (Hb & Hc & _); [by left|].
  unfold unconfirmed_blocks. rewrite Eb. apply (length_filter_strict _ _ _ (block_hash b, b)).
  - intros [h x] Hx%elem_of_map_to_list Hn Hcx. apply Hn. apply (cm_confirmed _ _ _ _ _ Hcm h); [done|by left].
  - by apply elem_of_map_to_list.
  - done.
  - cbn. intros Hn. apply Hn, (cm_confirmed _ _ _ _ _ Hcm (block_hash b)); [done|right; by left].
Qed.

(** The inner loop of [confirm_batch] confirms its target. *)
Lemma confirm_root_ok rounds fuel max_blocks root st :
  let s := cs_store st in
  ledger_ok c min_weight s -> is_Some (st_block s !! root) -> (1 <= max_blocks)%nat ->
  (confirm_fuel (size (st_block s)) max_blocks <= fuel)%nat ->
  (length (unconfirmed_blocks s) < rounds)%nat ->
  exists st', confirm_root c no_refresh rounds fuel (fun _ => false) max_blocks root st = Finished (Some true, st') /\
    ledger_ok c min_weight (cs_store st') /\ confirmed_hash (cs_store st') root /\
    st_block (cs_store st') = st_block s /\
    forall h b, st_block s !! h = Some b -> confirmed s b -> confirmed (cs_store st') b.
Proof.
  revert st. induction rounds as [|rounds IH]; intros st s Hok Hr Hmax Hf Hn; [lia|].
  cbn [confirm_root]. unfold confirm_round. change (refreshed no_refresh rounds (cs_store st)) with s.
  unfold block_exists at 1. rewrite bool_decide_true by done. cbn [negb].
  destruct (confirm_total fuel s root max_blocks Hok Hr Hmax Hf) as (s' & new & E & Hok' & Hcm & Hnil).
  rewrite E. cbn [mbind run_bind].
  pose proof (cemented_block _ _ _ _ _ Hcm) as Eb. set (st2 := if negb _ then _ else _).
  assert (cs_store st2 = s') as Es by (unfold st2; by destruct (negb _)).
  assert (forall h b, st_block s !! h = Some b -> confirmed s b -> confirmed s' b) as Hmono.
  { intros h b Hb Hc. apply (cm_confirmed _ _ _ _ _ Hcm h); auto. }
  destruct (cementer_is_confirmed_spec c min_weight s' Hok' root) as [Hc|Hc].
  - exists st2. rewrite Es. done.
  - assert (new <> []) as Hne.
    { intros ->. destruct (Hnil eq_refl) as (b & Hb & Hcb). apply Hc. exists b. rewrite Eb. eauto. }
    pose proof (cemented_unconfirmed _ _ _ _ Hcm Hne).
    cbn [mbind run_bind]. destruct (IH st2) as (st' & -> & ? & ? & Eb' & Hm'); [by rewrite Es|by rewrite Es, Eb|done|by rewrite Es, Eb|rewrite Es; lia|].
    exists st'. rewrite Es in *. split_and!; [done|done|done|congruence|].
    intros h b Hb Hcb. apply (Hm' h); [by rewrite Eb|eauto].
Qed.
End runs.

(** ** Refreshes

    While the transaction is refreshed other writers may insert, roll back and
    confirm blocks. As long as the target is still there, so is everything the
    stack holds. *)

Section refresh.
Context (c : LedgerConstants) (min_weight : Amount) (refresh : nat -> LmdbStore -> option LmdbStore).
Hypothesis Hrefresh : forall n s s', refresh n s = Some s' -> ledger_ok c min_weight s ->
  ledger_ok c min_weight s' /\
  (forall h b b', st_block s !! h = Some b -> st_block s' !! h = Some b' -> b = b').

Lemma ancestor_refresh tb tb' t h :
  (forall h b b', tb !! h = Some b -> tb' !! h = Some b' -> b = b') -> deps_ok c tb' ->
  is_Some (tb' !! t) -> ancestor c tb t h -> is_Some (tb' !! h) /\ ancestor c tb' t h.
Proof.
  intros Hag Hdp Ht. induction 1 as [|h b d _ [[b' Hb'] Ha] Hb Hd]; [by split; [|constructor]|].
  assert (b = b') as <- by eauto. split; [by eapply dp_present|by eapply anc_dep].
Qed.

Lemma confirm_loop_safe fuel s res t max_blocks stack :
  ledger_ok c min_weight s -> Forall (on_path c t s) stack ->
  match confirm_loop c refresh fuel s res t max_blocks stack with
  | Panicked => False
  | Finished (s', _) => ledger_ok c min_weight s'
  | Running => True
  end.
Proof.
  revert s res stack. induction fuel as [|fuel IH]; intros s res stack Hok Hst.
  all: destruct stack as [|h rest]; cbn [confirm_loop]; try done.
  pose proof Hst as Hst0. apply Forall_cons in Hst as [[Hh Ha] Hst].
  enough (exists s1 res1 stack1, confirm_turn c s res max_blocks h rest = Some (s1, res1, stack1) /\
    ledger_ok c min_weight s1 /\ Forall (on_path c t s1) stack1) as (s1 & res1 & stack1 & -> & Hok1 & Hst1).
  { cbn [unwrap mbind run_bind]. destruct (refresh fuel s1) as [s2|] eqn:Er.
    - destruct (Hrefresh _ _ _ Er Hok1) as [Hok2 Hag]. unfold block_exists.
      destruct (decide (is_Some (st_block s2 !! t))) as [Ht|Ht];
        [rewrite bool_decide_true by done | by rewrite bool_decide_false]. cbn [negb].
      destruct (_ <=? _)%nat; [done|]. apply IH; [done|]. eapply Forall_impl; [exact Hst1|].
      intros x [_ Hx]. by eapply ancestor_refresh; [|apply Hok2|..].
    - destruct (_ <=? _)%nat; [done|]. by apply IH. }
  destruct (confirm_turn_ok c min_weight s max_blocks Hok res h rest Hh)
    as [b Hb Hc|b Hb Hc Hd|b d stack' Hb Hc Hd Hcd Hhd Hin Hl].
  - by exists s, res, rest.
  - exists (cement s b), (res ++ [b]), rest. split; [done|]. split; [by eapply cement_ok|done].
  - exists s, res, stack'. split_and!; [done..|]. apply Forall_forall.
    intros x [Hx|Hx]%Hin; [by eapply Forall_forall in Hst0|]. by eapply (on_path_dep c min_weight t s h b x).
Qed.
End refresh.
