(* ===== verification/FinalVotes.v ===== *)
(** * Which blocks may be voted for (ledger/src/vote_verifier.rs)

    A non-final vote needs confirmed dependencies; a final vote also claims
    the root of the block in the final_vote table, where the first hash to
    come wins. The write transaction may be refreshed before a candidate:
    [refresh n s] is the state found then. *)

From S2P Require Import Prelude Types Blocks Codec Work Store Sets.

Section verifier.
Context (c : LedgerConstants) (refresh : nat -> LmdbStore -> option LmdbStore).

Definition should_vote_non_final (s : LmdbStore) (root : Root) (hash : BlockHash) : bool :=
  match any_get_block s hash with
  | None => false
  | Some block => dependents_confirmed c s block
  end.

Definition should_vote_final (s : LmdbStore) (root : Root) (hash : BlockHash) : bool * LmdbStore :=
  match any_get_block s hash with
  | None => (false, s)
  | Some block =>
      if dependents_confirmed c s block then final_vote_put s (qualified_root block) hash
      else (false, s)
  end.

Fixpoint verify_final (s : LmdbStore) (candidates : list (Root * BlockHash))
    : list (Root * BlockHash) * LmdbStore :=
  match candidates with
  | [] => ([], s)
  | (root, hash) :: candidates =>
      let s1 := default s (refresh (length candidates) s) in
      let '(ok, s2) := should_vote_final s1 root hash in
      let '(verified, s3) := verify_final s2 candidates in
      (if ok then (root, hash) :: verified else verified, s3)
  end.

Fixpoint verify_non_final (s : LmdbStore) (candidates : list (Root * BlockHash))
    : list (Root * BlockHash) :=
  match candidates with
  | [] => []
  | (root, hash) :: candidates =>
      let s1 := default s (refresh (length candidates) s) in
      if should_vote_non_final s1 root hash then (root, hash) :: verify_non_final s1 candidates
      else verify_non_final s1 candidates
  end.

Definition verify_votes (s : LmdbStore) (candidates : list (Root * BlockHash)) (is_final : bool)
    : list (Root * BlockHash) * LmdbStore :=
  if is_final then verify_final s candidates else (verify_non_final s candidates, s).
End verifier.

(** ** Properties *)

(** [votes_kept s s']: every final vote of [s] is still the one of its root. *)
Definition votes_kept (s s' : LmdbStore) : Prop := st_final_vote s ⊆ st_final_vote s'.

(** [s'] is [s] with another final_vote table. *)
Definition only_votes (s s' : LmdbStore) : Prop := s' = set_final_vote (st_final_vote s') s.

Lemma final_vote_put_spec s root hash :
  let '(ok, s') := final_vote_put s root hash in
  votes_kept s s' /\ only_votes s s' /\ (ok = true <-> st_final_vote s' !! root = Some hash).
Proof.
  unfold final_vote_put, votes_kept, only_votes. destruct (st_final_vote s !! root) as [h|] eqn:E.
  - split; [done|]. split; [by destruct s|]. rewrite E, Z.eqb_eq. split; [by intros ->|by intros [= ->]].
  - cbn. split; [by apply insert_subseteq|]. split; [done|]. by rewrite lookup_insert_eq.
Qed.

Section verifier_props.
Context (c : LedgerConstants).

Lemma should_vote_final_spec s root hash :
  let '(ok, s') := should_vote_final c s root hash in
  votes_kept s s' /\ only_votes s s' /\
  (ok = true -> exists b, any_get_block s hash = Some b /\ dependents_confirmed c s b = true /\
     st_final_vote s' !! qualified_root b = Some hash).
Proof.
  assert (votes_kept s s /\ only_votes s s) as [H1 H2] by (split; [by unfold votes_kept|by destruct s]).
  unfold should_vote_final. destruct (any_get_block s hash) as [b|]; [|by split_and!].
  destruct (dependents_confirmed c s b) eqn:E; [|by split_and!].
  pose proof (final_vote_put_spec s (qualified_root b) hash) as Hp.
  destruct (final_vote_put _ _ _) as [ok s']. destruct Hp as (? & ? & Hok).
  split_and!; try done. intros ->. exists b. split_and!; [done|done|by apply Hok].
Qed.

Context (refresh : nat -> LmdbStore -> option LmdbStore).
Hypothesis Hrefresh : forall n s s', refresh n s = Some s' -> votes_kept s s'.

Lemma refreshed_votes n s : votes_kept s (default s (refresh n s)).
Proof. destruct (refresh n s) as [s'|] eqn:E; cbn; [by eapply Hrefresh|by unfold votes_kept]. Qed.

Lemma verify_final_spec s candidates :
  let '(verified, s') := verify_final c refresh s candidates in
  votes_kept s s' /\
  forall root hash, (root, hash) ∈ verified -> (root, hash) ∈ candidates /\
    exists s1 b, any_get_block s1 hash = Some b /\ dependents_confirmed c s1 b = true /\
      st_final_vote s' !! qualified_root b = Some hash.
Proof.
  revert s. induction candidates as [|[root hash] l IH]; intros s; cbn [verify_final].
  { split; [by unfold votes_kept|]. by intros ? ? ?%elem_of_nil. }
  pose proof (refreshed_votes (length l) s) as Hv1. set (s1 := default s (refresh (length l) s)) in *.
  pose proof (should_vote_final_spec s1 root hash) as Hs.
  destruct (should_vote_final c s1 root hash) as [ok s2]. destruct Hs as (Hv2 & _ & Hok).
  specialize (IH s2). destruct (verify_final c refresh s2 l) as [verified s3]. destruct IH as [Hv3 IH].
  split; [unfold votes_kept in *; by etrans; [|etrans]|].
  assert (forall r h, (r, h) ∈ verified -> (r, h) ∈ (root, hash) :: l /\
    exists s1 b, any_get_block s1 h = Some b /\ dependents_confirmed c s1 b = true /\
      st_final_vote s3 !! qualified_root b = Some h) as Hrest.
  { intros r h Hin. destruct (IH _ _ Hin) as [? ?]. split; [by right|done]. }
  destruct ok; [|done]. intros r h [[= -> ->]|Hin]%elem_of_cons; [|by apply Hrest].
  split; [by left|]. destruct (Hok eq_refl) as (b & Hb & Hd & Hf). exists s1, b. split_and!; try done.
  by eapply lookup_weaken.
Qed.

Lemma verify_final_only s candidates :
  (forall n s, refresh n s = None) -> only_votes s (verify_final c refresh s candidates).2.
Proof.
  intros Hr. revert s. induction candidates as [|[root hash] l IH]; intros s; cbn [verify_final]; [by destruct s|].
  rewrite Hr. cbn [default from_option id]. pose proof (should_vote_final_spec s root hash) as Hs.
  destruct (should_vote_final c s root hash) as [ok s2]. destruct Hs as (_ & Ho & _).
  specialize (IH s2). destruct (verify_final c refresh s2 l) as [verified s3]. cbn in *.
  unfold only_votes in *. rewrite IH, Ho. done.
Qed.
End verifier_props.
