(* ===== verification/System.v ===== *)
(** * The ledger as a transition system

    [ledger_step] is one write transaction of the ledger: an admissible batch
    of blocks, validated against the current state or an earlier one, is
    inserted, a block is rolled back, cementing confirms blocks, or a final
    vote is recorded. [ledger_ok] holds in every reachable state;
    nothing confirmed is ever lost, and a final vote never changes. *)

From S2P Require Import Prelude Types Blocks Codec Work Store RepWeights Sets Validation Insertion.
From S2P Require Import Effect Chains Money LedgerInv InsertSafe Batch Rollback RollbackSafe.
From S2P Require Import RollbackLoop Startup Links Cementer CementSafe FinalVotes.

(** ** Batches *)

(** The batches the theorems are about. They are validated against the
    current state or an earlier one since which nothing was rolled back, their
    hashes and amounts are in range, no block that would be accepted uses an
    epoch link to raise its balance or receives an empty send (Findings.v shows
    what the code does with those, and with a rollback in between), hashes do
    not collide, and no chain is 2^64 - 1 blocks long. *)
Record admissible `{Crypto} (c : LedgerConstants) (min_weight : Amount) (snapshot s : LmdbStore)
    (batch : list (Z * Block)) : Prop := {
  ad_snapshot : ledger_inv c min_weight snapshot;
  ad_since : since snapshot s;
  ad_blocks : forall now b, (now, b) ∈ batch -> block_ok b;
  ad_mint : forall now b ins, (now, b) ∈ batch -> validate (create_validator c snapshot now b) = Ok ins ->
    mints (create_validator c snapshot now b) = false;
  ad_empty : forall now b ins, (now, b) ∈ batch -> validate (create_validator c snapshot now b) = Ok ins ->
    is_receive (create_validator c snapshot now b) = true -> amount_received (create_validator c snapshot now b) <> 0;
  ad_collision : collision_free batch.*2 snapshot s;
  ad_room : forall a i, st_account snapshot !! a = Some i -> ai_block_count i < u64_max;
}.

(** A block on top of a chain is not confirmed. *)
Lemma appended_unconfirmed c min_weight s b i' :
  ledger_inv c min_weight s -> appended (st_block s) (st_account s) b i' ->
  default 0 (ch_height <$> st_confirmation_height s !! sv_account b) < sv_height b.
Proof.
  intros Hinv Hap. pose proof (ap_position _ _ _ _ Hap) as Hpos.
  destruct (st_confirmation_height s !! sv_account b) as [ci|] eqn:Hci; cbn.
  - destruct (li_conf _ _ _ Hinv _ _ Hci) as (fb & Hfb & Ea & <-).
    destruct (ac_block _ _ (li_accounts _ _ _ Hinv) _ _ Hfb) as (i & Hi & Hle). rewrite Ea in Hi.
    rewrite Hi in Hpos. lia.
  - pose proof (bk_height _ (blocks_ok_append _ _ _ _ (li_blocks _ _ _ Hinv) (li_accounts _ _ _ Hinv) Hap) _ _
      (lookup_insert_eq _ _ _)). lia.
Qed.

Lemma cemented_append c min_weight s b i' s' :
  ledger_inv c min_weight s -> appended (st_block s) (st_account s) b i' -> cemented_ok c s ->
  st_block s' = <[block_hash b:=b]> (st_block s) -> st_confirmation_height s' = st_confirmation_height s ->
  cemented_ok c s'.
Proof.
  intros Hinv Hap Hcem Eb Ec r rb sb Hr Hg Hpos Hc Hsb. unfold confirmed in *. rewrite Ec in *.
  rewrite Eb in *. pose proof (appended_unconfirmed _ _ _ _ _ Hinv Hap) as Hun.
  apply lookup_insert_Some in Hr as [[<- <-]|[_ Hr]]; [lia|].
  pose proof (li_blocks _ _ _ Hinv) as Hok.
  rewrite (append_recv _ _ _ _ Hok Hap _ _ Hr) in Hpos.
  destruct (pd_recv _ _ _ (li_pending _ _ _ Hinv) _ _ Hr Hg Hpos) as (_ & sb' & Hsb' & _).
  rewrite (append_old _ _ _ _ Hap _ _ Hsb') in Hsb. injection Hsb as <-.
  exact (Hcem r rb sb' Hr Hg Hpos Hc Hsb').
Qed.

Section batches.
Context `{Crypto} `{LmdbEngine} (c : LedgerConstants) (min_weight : Amount).

(** What a batch must not touch, and what it must keep. *)
Definition batch_keeps (s s1 : LmdbStore) : Prop :=
  (deps_ok c (st_block s1) /\ cemented_ok c s1) /\
  st_confirmation_height s1 = st_confirmation_height s /\ st_final_vote s1 = st_final_vote s.

Lemma process_batch_ok snapshot s batch :
  ledger_ok c min_weight s -> admissible c min_weight snapshot s batch ->
  exists results s', process_batch min_weight c snapshot s batch = Some (results, s') /\
    inserted c min_weight snapshot (batch_keeps s) batch results s s'.
Proof.
  intros [Hinv Hdeps Hcem] [Hsn Hs Hb Hm He Hcol Hroom].
  apply (insert_batch_ok c min_weight snapshot batch Hsn Hb Hm Hroom (batch_keeps s)); try done.
  intros s1 now b ins t w Hin Hval Hinv1 Hag Hr1 [[Hd1 Hc1] [Ec1 Ev1]]. set (v := create_validator c snapshot now b) in *.
  destruct (tables_after_fields s1 v ins t w) as (Eb & _ & _ & _ & _ & Ec & Ev & _).
  pose proof (validated_appended c min_weight s1 v ins Hinv1 Hag (Hb _ _ Hin) Hval Hr1 (Hm _ _ _ Hin Hval)) as Hap.
  split; [|by rewrite Ec, Ev]. split.
  - rewrite Eb. eapply (deps_ok_insert c min_weight s1 v ins); eauto.
  - by eapply cemented_append.
Qed.

Lemma inserted_ledger_ok snapshot s batch results s' :
  inserted c min_weight snapshot (batch_keeps s) batch results s s' -> ledger_ok c min_weight s'.
Proof. intros [Hinv _ [[Hd Hc] _] _ _]. by split. Qed.
End batches.

(** ** Steps *)

(** The write transactions that remove nothing. *)
Inductive ledger_write `{Crypto} `{LmdbEngine} (c : LedgerConstants) (min_weight : Amount)
    : LmdbStore -> LmdbStore -> Prop :=
  | write_process snapshot s batch results s' :
      admissible c min_weight snapshot s batch ->
      process_batch min_weight c snapshot s batch = Some (results, s') -> ledger_write c min_weight s s'
  | write_confirm s fuel t max_blocks s' new :
      is_Some (st_block s !! t) -> (1 <= max_blocks)%nat ->
      (confirm_fuel (size (st_block s)) max_blocks <= fuel)%nat ->
      confirm c no_refresh fuel s t max_blocks = Finished (s', new) -> ledger_write c min_weight s s'
  | write_vote s candidates is_final verified s' :
      verify_votes c no_refresh s candidates is_final = (verified, s') -> ledger_write c min_weight s s'.

Inductive ledger_step `{Crypto} `{LmdbEngine} (c : LedgerConstants) (min_weight : Amount)
    : LmdbStore -> LmdbStore -> Prop :=
  | step_write s s' : ledger_write c min_weight s s' -> ledger_step c min_weight s s'
  | step_rollback s now fuel h p :
      (rollback_fuel (size (st_block s)) <= fuel)%nat ->
      roll_back min_weight c now fuel s h = Finished p -> ledger_step c min_weight s (pf_store p).

(** What never goes away: confirmed blocks and final votes. *)
Record preserved (s s' : LmdbStore) : Prop := {
  ps_confirmed : forall h b, st_block s !! h = Some b -> confirmed s b ->
    st_block s' !! h = Some b /\ confirmed s' b;
  ps_votes : votes_kept s s';
}.

#[global] Instance preserved_preorder : PreOrder preserved.
Proof.
  split.
  - intros s. split; [done|]. by unfold votes_kept.
  - intros s1 s2 s3 [C1 V1] [C2 V2]. split; [|unfold votes_kept in *; by etrans].
    intros h b Hb Hc. destruct (C1 h b Hb Hc). by apply C2.
Qed.

Lemma ledger_inv_votes c min_weight s t :
  ledger_inv c min_weight s -> ledger_inv c min_weight (set_final_vote t s).
Proof.
  intros [? ? ? ? ? ? Hrw ? ? ? Hct]. split; try done; [by destruct Hrw|by destruct Hct].
Qed.

Section steps.
Context `{Crypto} `{LmdbEngine} (c : LedgerConstants) (min_weight : Amount).

Lemma rollback_keeps now fuel s h p :
  ledger_ok c min_weight s -> (rollback_fuel (size (st_block s)) <= fuel)%nat ->
  roll_back min_weight c now fuel s h = Finished p ->
  ledger_ok c min_weight (pf_store p) /\ preserved s (pf_store p).
Proof.
  intros [Hinv Hd Hc] Hf Er.
  destruct (roll_back_outcome c min_weight now s Hinv fuel h Hf) as (p' & Er' & [Hi Hall _]).
  assert (p' = p) as -> by congruence. clear Er Er'.
  destruct (rolled_all_conf _ _ _ _ _ Hall) as [Ec Ev]. pose proof (rolled_all_unconfirmed _ _ _ _ _ Hall) as Hu.
  pose proof (rolled_all_blocks _ _ _ _ _ Hall) as Hb. split; [split; [done| |]|split].
  - by eapply rolled_all_deps.
  - eapply rolled_all_cemented; [done..|apply Hinv].
  - intros x b Hx Hcb. split; [|unfold confirmed in *; by rewrite Ec]. apply Hb. split; [done|].
    intros (y & -> & Hy)%list_elem_of_fmap. rewrite Forall_forall in Hu. destruct (Hu y Hy) as [Hy' Hn].
    assert (y = b) as -> by congruence. done.
  - unfold votes_kept. by rewrite Ev.
Qed.

Lemma write_ok s s' :
  ledger_write c min_weight s s' -> ledger_ok c min_weight s ->
  ledger_ok c min_weight s' /\ preserved s s' /\ since s s'.
Proof.
  intros [snapshot s0 batch results s1 Hbt E|s0 fuel t max_blocks s1 new Ht Hm Hf E|s0 cand fin ver s1 E] Hok.
  - destruct (process_batch_ok c min_weight snapshot s0 batch Hok Hbt) as (r & s2 & E2 & Hin).
    assert (s2 = s1) as -> by congruence. split; [by eapply inserted_ledger_ok|].
    destruct Hin as [_ Hs [_ [Ec Ev]] _ _]. split; [split|done].
    + intros h b Hb Hc. split; [eapply lookup_weaken; [done|apply Hs]|]. unfold confirmed in *. by rewrite Ec.
    + unfold votes_kept. by rewrite Ev.
  - destruct (confirm_total c min_weight fuel s0 t max_blocks Hok Ht Hm Hf) as (s2 & new2 & E2 & Hok2 & Hcm & _).
    assert (s2 = s1) as -> by congruence. split; [done|]. pose proof (cemented_block _ _ _ _ _ Hcm) as Eb. split; [split|].
    + intros h b Hb Hc. rewrite Eb. split; [done|]. apply (cm_confirmed _ _ _ _ _ Hcm h); auto.
    + unfold votes_kept. by rewrite <- (cm_same _ _ _ _ _ Hcm) at 1.
    + apply since_same; [done|..]; by rewrite <- (cm_same _ _ _ _ _ Hcm) at 1.
  - unfold verify_votes in E. destruct fin; [|injection E as _ <-; done].
    pose proof (verify_final_spec c no_refresh ltac:(done) s0 cand) as Hv.
    pose proof (verify_final_only c no_refresh s0 cand ltac:(done)) as Ho.
    rewrite E in Hv, Ho. destruct Hv as [Hv _]. cbn in Ho. unfold only_votes in Ho. split; [|split].
    + rewrite Ho. destruct Hok as [Hinv ? ?]. split; [by apply ledger_inv_votes|done|done].
    + split; [|done]. intros h b Hb Hc. rewrite Ho. done.
    + rewrite Ho. by apply since_same.
Qed.

(** A snapshot stays good for validation as long as nothing is rolled back:
    [ad_snapshot] and [ad_since] hold for every state a read transaction can
    see that was followed by other batches, cementing and votes only. *)
Lemma writes_since snapshot s :
  rtc (ledger_write c min_weight) snapshot s -> ledger_ok c min_weight snapshot ->
  ledger_ok c min_weight s /\ ledger_inv c min_weight snapshot /\ since snapshot s.
Proof.
  intros Hw Hok. enough (ledger_ok c min_weight s /\ since snapshot s) by (split_and!; [naive_solver|apply Hok|naive_solver]).
  induction Hw as [s|s1 s2 s3 H12 _ IH]; [done|]. destruct (write_ok s1 s2 H12 Hok) as (Hok2 & _ & Hs).
  destruct (IH Hok2). split; [done|by etrans].
Qed.

Lemma step_ok s s' :
  ledger_step c min_weight s s' -> ledger_ok c min_weight s ->
  ledger_ok c min_weight s' /\ preserved s s'.
Proof.
  intros [s0 s1 Hw|s0 now fuel h p Hf E] Hok; [|by eapply rollback_keeps].
  by destruct (write_ok s0 s1 Hw Hok) as (? & ? & _).
Qed.
End steps.

(** ** Reachable states *)

Lemma genesis_ledger_ok min_weight c :
  genesis_wf c -> min_weight <= u128_max -> ledger_ok c min_weight (genesis_store c).
Proof.
  intros Hwf Hmin. destruct (genesis_facts c Hwf) as (Eh & Ea & _ & _ & Ep).
  assert (deps c (stored (lk_genesis_block c)) = []) as Ed.
  { destruct Hwf as [(ob & Eb & Eacc & _) _ _ _]. unfold deps, find_dependent_blocks, sv_dependent_blocks, stored.
    cbn [sv_block]. rewrite Eb. unfold open_dependent_blocks. by rewrite Eacc, Z.eqb_refl. }
  split; [by apply genesis_inv| |].
  - unfold genesis_store. cbn [st_block]. split.
    + intros h b d [<- <-]%lookup_singleton_Some. rewrite Ed. by intros ?%elem_of_nil.
    + exists (fun _ => 0), 1. intros h b [<- <-]%lookup_singleton_Some. split; [lia|]. rewrite Ed. by intros ? ?%elem_of_nil.
    + intros h b [<- <-]%lookup_singleton_Some. done.
    + intros h b d [<- <-]%lookup_singleton_Some. rewrite Ed. by intros ?%elem_of_nil.
  - intros r rb sb. unfold genesis_store. cbn [st_block]. intros [<- <-]%lookup_singleton_Some. done.
Qed.

(** Everything admissible batches, rollbacks, cementing and votes can make of
    a new ledger. *)
Definition reachable `{Crypto} `{LmdbEngine} (c : LedgerConstants) (min_weight : Amount) : LmdbStore -> Prop :=
  rtc (ledger_step c min_weight) (genesis_store c).

Section reach.
Context `{Crypto} `{LmdbEngine} (c : LedgerConstants) (min_weight : Amount).
Hypothesis (Hwf : genesis_wf c) (Hmin : min_weight <= u128_max).

Lemma steps_ok s s' :
  rtc (ledger_step c min_weight) s s' -> ledger_ok c min_weight s -> ledger_ok c min_weight s' /\ preserved s s'.
Proof.
  induction 1 as [s|s1 s2 s3 H12 _ IH]; intros Hok; [done|].
  destruct (step_ok c min_weight s1 s2 H12 Hok) as [Hok2 Hp2]. destruct (IH Hok2) as [Hok3 Hp3].
  split; [done|]. by etrans.
Qed.

Lemma reachable_ok s : reachable c min_weight s -> ledger_ok c min_weight s.
Proof. intros Hr. eapply steps_ok; [done|]. by apply genesis_ledger_ok. Qed.
End reach.
