(* ===== verification/Authorised.v ===== *)
(** * What validation accepts

    Soundness: an accepted block is signed, carries enough work, extends the
    head of its account and never lowers its epoch; a send cannot be received
    twice. Completeness: every well-formed send and every receive of a pending
    amount is accepted. *)

From S2P Require Import Prelude Types Blocks Codec Work Store RepWeights Sets Validation Insertion.
From S2P Require Import Effect Chains Money LedgerInv InsertSafe.

Section sound.
Context `{Crypto}.

(** The signer of an epoch block is the epoch's, of any other block the owner. *)
Definition signed (v : BlockValidator) : bool :=
  if is_epoch_block v then validate_epoch_signature (v_epochs v) (v_block v)
  else verify (v_account v) (u256_serialize (block_hash (v_block v))) (block_signature (v_block v)).

Lemma validate_signed v i : validate v = Ok i -> signed v = true.
Proof.
  unfold validate. intros Hv. inv_ok Hv. rename Hok2 into Hs. clear - Hs.
  unfold ensure_valid_signature in Hs. unfold signed. by destruct (if is_epoch_block v then _ else _).
Qed.

Lemma validate_work v i : validate v = Ok i -> is_valid_pow (v_work v) (v_block v) (block_details v) = true.
Proof.
  unfold validate. intros Hv. inv_ok Hv. rename Hok10 into Hw. clear - Hw.
  unfold ensure_sufficient_work in Hw. by destruct (is_valid_pow _ _ _).
Qed.

Lemma validate_epoch v i :
  validate v = Ok i -> is_epoch_block v = true ->
  match v_old_account_info v with
  | Some info => is_sequential (ai_epoch info) (block_epoch_version v) = true /\
      representative_field (v_block v) = Some (ai_representative info) /\ new_balance v = ai_balance info
  | None => representative_field (v_block v) = Some 0 /\ v_any_pending_exists v = true
  end.
Proof.
  intros Hv He. pose proof (validate_position _ _ Hv) as (_ & _ & Hpos & _).
  unfold validate in Hv. inv_ok Hv. rename Hok12 into Hep. clear - Hep He Hpos.
  unfold ensure_valid_epoch_block in Hep. inv_ok Hep. rename Hok into H1, Hok0 into H2, Hok1 into H3, Hok3 into H5.
  unfold ensure_epoch_block_does_not_change_representative in H1.
  unfold ensure_epoch_open_has_burn_account_as_rep in H2. unfold ensure_epoch_open_has_pending_entry in H3.
  unfold ensure_epoch_upgrade_is_sequential_for_existing_account in H5.
  unfold ensure_epoch_block_does_not_change_balance, balance_changed in Hep.
  rewrite He in *. unfold is_epoch_block in He. destruct (v_block v) as [b|b|b|b|b]; try done.
  destruct (v_old_account_info v) as [info|]; cbn in *.
  - check_facts H1. check_facts H5. check_facts Hep. prop_bools.
    split; [by destruct (is_sequential _ _)|]. split; [by f_equal|done].
  - destruct Hpos as [Hp Ho]. rewrite Ho in *. cbn in *. check_facts H2. check_facts H3.
    destruct (u256_is_zero_spec (stateh_representative (state_hashables b))) as [->|]; [|done].
    split; [done|]. by destruct (v_any_pending_exists v).
Qed.

Lemma epoch_max_ge a b : epoch_u8 a <= epoch_u8 (epoch_max a b).
Proof. unfold epoch_max. destruct (Z.leb_spec (epoch_u8 a) (epoch_u8 b)); lia. Qed.

Lemma validate_epoch_grows v i :
  validate v = Ok i -> is_Some (v_old_account_info v) ->
  epoch_u8 (ai_epoch (ins_old_account_info i)) <= epoch_u8 (ai_epoch (ins_set_account_info i)).
Proof.
  intros Hv [info Hi]. rewrite (validate_instructions _ _ Hv). cbn. rewrite Hi. cbn.
  unfold block_epoch. destruct (is_epoch_block v) eqn:He.
  - pose proof (validate_epoch _ _ Hv He) as Hs. rewrite Hi in Hs. destruct Hs as [Hs _].
    unfold is_sequential in Hs. apply andb_true_iff in Hs as [_ Hs]. prop_bools. lia.
  - unfold old_epoch_version. rewrite Hi. apply epoch_max_ge.
Qed.
End sound.

(** ** Completeness *)

Section complete.
Context `{Crypto} (c : LedgerConstants) (min_weight : Amount) (s : LmdbStore) (now : Z) (st : StateBlock).
Hypothesis Hinv : ledger_inv c min_weight s.

#[local] Abbreviation b := (State st).
#[local] Abbreviation a := (stateh_account (state_hashables st)).
#[local] Abbreviation bal := (stateh_balance (state_hashables st)).
#[local] Abbreviation v := (create_validator c s now (State st)).

Hypothesis Hfresh : st_block s !! state_hash st = None.
Hypothesis Hsig : state_verify_signature st = true.
Hypothesis Hwork : is_valid_pow (lk_work c) b (block_details v) = true.
Hypothesis Haccount : a <> 0.

Lemma fresh_does_not_exist : any_block_exists s (state_hash st) = false.
Proof.
  rewrite (any_block_exists_eq c min_weight s Hinv), Hfresh. by apply bool_decide_false, is_Some_None.
Qed.

(** The checks that hold for any block of the owner that is not an epoch block. *)
Lemma validate_owner :
  is_epoch_block v = false ->
  ensure_account_exists_for_none_open_block v = Ok tt ->
  ensure_no_double_account_open v = Ok tt ->
  ensure_previous_block_is_correct v = Ok tt ->
  ensure_open_block_has_link v = Ok tt ->
  ensure_no_reveive_balance_change_without_link v = Ok tt ->
  ensure_pending_receive_is_correct v = Ok tt ->
  (stateh_previous (state_hashables st) <> 0 -> is_Some (v_previous_block v)) ->
  validate v = Ok (create_instructions v).
Proof.
  intros He H1 H2 H3 H4 H5 H6 Hprev.
  assert (epoch_block_pre_checks v = Ok tt) as E1.
  { unfold epoch_block_pre_checks, ensure_epoch_block_candidate_is_signed_by_owner_or_epoch_account,
      ensure_previous_block_exists_for_epoch_block_candidate.
    cbn [v_block create_validator]. rewrite Hsig. cbn [negb andb]. rewrite andb_false_r. cbn [mbind result_bind].
    change (previous b) with (stateh_previous (state_hashables st)).
    destruct (u256_is_zero_spec (stateh_previous (state_hashables st))) as [|Hp]; cbn [negb]; [by rewrite andb_false_r|].
    destruct (Hprev Hp) as [p Hp']. rewrite Hp'.
    rewrite bool_decide_false by done. by rewrite andb_false_r. }
  assert (ensure_block_does_not_exist_yet v = Ok tt) as E2.
  { unfold ensure_block_does_not_exist_yet. cbn [create_validator v_block_exists].
    change (block_hash b) with (state_hash st). by rewrite fresh_does_not_exist. }
  assert (ensure_valid_predecessor v = Ok tt) as E3.
  { unfold ensure_valid_predecessor. cbn [create_validator v_block].
    change (previous b) with (stateh_previous (state_hashables st)).
    destruct (u256_is_zero_spec (stateh_previous (state_hashables st))) as [|Hp]; [done|].
    destruct (Hprev Hp) as [p Hp']. by rewrite Hp'. }
  assert (ensure_valid_signature v = Ok tt) as E4.
  { unfold ensure_valid_signature. rewrite He. by unfold state_verify_signature in Hsig; cbn; rewrite Hsig. }
  assert (ensure_block_is_not_for_burn_account v = Ok tt) as E5.
  { unfold ensure_block_is_not_for_burn_account. cbn. by destruct (u256_is_zero_spec a). }
  assert (ensure_sufficient_work v = Ok tt) as E6.
  { unfold ensure_sufficient_work. cbn [create_validator v_work v_block]. by rewrite Hwork. }
  assert (ensure_valid_epoch_block v = Ok tt) as E7.
  { unfold ensure_valid_epoch_block, ensure_epoch_block_does_not_change_representative,
      ensure_epoch_open_has_burn_account_as_rep, ensure_epoch_open_has_pending_entry,
      ensure_valid_epoch_for_unopened_account, ensure_epoch_upgrade_is_sequential_for_existing_account,
      ensure_epoch_block_does_not_change_balance.
    rewrite He. cbn [create_validator v_block andb]. by rewrite !andb_false_r. }
  unfold validate. rewrite E1, E2, E3, E4, E5, H1, H2, H3, H4, H5, H6, E6. cbn [mbind result_bind].
  replace (ensure_no_negative_amount_send v) with (Ok tt : check) by done. cbn [mbind result_bind]. by rewrite E7.
Qed.

Section existing.
Context (i : AccountInfo).
Hypothesis Hi : st_account s !! a = Some i.
Hypothesis Hprev : stateh_previous (state_hashables st) = ai_head i.

Lemma existing_view :
  v_old_account_info v = Some i /\ is_open b = false /\
  exists p, v_previous_block v = Some p /\ sv_balance p = ai_balance i.
Proof.
  destruct (ac_head _ _ (li_accounts _ _ _ Hinv) _ _ Hi) as (p & Hp & _ & _ & Eb & _).
  destruct (bk_key _ (li_blocks _ _ _ Hinv) _ _ Hp) as [_ Hnz].
  split; [exact Hi|]. split; [cbn; by destruct (u256_is_zero_spec (stateh_previous (state_hashables st))); [congruence|]|].
  exists p. split; [|done]. cbn. unfold load_previous_block.
  change (previous b) with (stateh_previous (state_hashables st)). rewrite Hprev.
  destruct (u256_is_zero_spec (ai_head i)); [done|]. cbn [negb]. by rewrite (any_get_block_eq c min_weight s Hinv).
Qed.

Lemma existing_checks :
  ensure_account_exists_for_none_open_block v = Ok tt /\ ensure_no_double_account_open v = Ok tt /\
  ensure_previous_block_is_correct v = Ok tt /\ ensure_open_block_has_link v = Ok tt.
Proof.
  destruct existing_view as (Ei & Eo & p & Ep & _).
  unfold ensure_account_exists_for_none_open_block, ensure_no_double_account_open, ensure_previous_block_is_correct,
    ensure_previous_block_exists, ensure_previous_block_is_account_head, ensure_open_block_has_link,
    is_new_account, account_exists.
  rewrite Ei, Ep. cbn [v_block create_validator]. rewrite Eo. rewrite bool_decide_true by done.
  rewrite bool_decide_false by done. cbn. change (previous b) with (stateh_previous (state_hashables st)).
  by rewrite Hprev, Z.eqb_refl.
Qed.

(** A send of the owner from the head of the account is accepted, whatever it
    is sent to. *)
Lemma send_accepted : bal < ai_balance i -> validate v = Ok (create_instructions v).
Proof.
  intros Hlt. destruct existing_view as (Ei & Eo & p & Ep & Eb). destruct existing_checks as (C1 & C2 & C3 & C4).
  assert (previous_balance v = ai_balance i) as Epb by (unfold previous_balance; rewrite Ep; exact Eb).
  apply validate_owner; try done.
  - unfold is_epoch_block. cbn [v_block create_validator]. rewrite Epb. case_test; [lia|]. by rewrite andb_false_r.
  - unfold ensure_no_reveive_balance_change_without_link, amount_received. cbn [v_block create_validator].
    rewrite Epb. case_test; [lia|]. cbn. by rewrite andb_false_r.
  - assert (is_receive v = false) as Er.
    { unfold is_receive. rewrite Ei. cbn [v_block create_validator]. destruct (has_epoch_link _ _); [done|].
      case_test; [lia|done]. }
    unfold ensure_pending_receive_is_correct, ensure_source_block_exists,
      ensure_receive_block_receives_pending_amount, ensure_legacy_source_is_epoch_0.
    by rewrite Er.
Qed.
End existing.

(** A pending amount, sent by a block of the ledger. *)
Context (p : PendingInfo).
#[local] Abbreviation link := (stateh_link (state_hashables st)).
Hypothesis Hpending : st_pending s !! mkPendingKey a link = Some p.
Hypothesis Hsource : is_Some (st_block s !! link).
Hypothesis Hlink : is_epoch_link (lk_epochs c) link = false.

Lemma source_view :
  v_pending_receive_info v = Some p /\ v_source_block_exists v = true /\ link <> 0 /\ 0 <= pi_amount p <= u128_max.
Proof.
  assert (link <> 0) as Hnz.
  { intros E. rewrite E, (inv_zero_hash c min_weight s Hinv) in Hsource. by destruct Hsource. }
  cbn [create_validator v_pending_receive_info v_source_block_exists]. change (source_or_link b) with link.
  destruct (u256_is_zero_spec link); [done|]. cbn [negb andb].
  rewrite (any_block_exists_eq c min_weight s Hinv), bool_decide_true by done.
  pose proof (pd_amount _ _ _ (li_pending _ _ _ Hinv) _ _ Hpending) as Hp. unfold in_u, u128_max in *.
  split; [exact Hpending|]. split; [done|]. split; [done|]. lia.
Qed.

Lemma receive_checks :
  previous_balance v + pi_amount p = bal -> 0 <= previous_balance v -> bal <= u128_max ->
  ensure_pending_receive_is_correct v = Ok tt /\ ensure_no_reveive_balance_change_without_link v = Ok tt.
Proof.
  intros Eb Hpb Hmax. destruct source_view as (Ep & Es & Hnz & Hp).
  unfold ensure_pending_receive_is_correct, ensure_source_block_exists,
    ensure_receive_block_receives_pending_amount, ensure_legacy_source_is_epoch_0,
    ensure_no_reveive_balance_change_without_link.
  rewrite Ep, Es. cbn [v_block create_validator]. destruct (u256_is_zero_spec link); [done|].
  assert (amount_received v = pi_amount p) as ->.
  { unfold amount_received. cbn [v_block create_validator]. unfold amount_ZERO. case_test; [|lia].
    rewrite amount_sub_exact; unfold in_u, u128_max in *; lia. }
  rewrite Z.eqb_refl. by destruct (is_receive v).
Qed.

Lemma receive_not_epoch : is_epoch_block v = false.
Proof. unfold is_epoch_block, has_epoch_link. cbn [v_block v_epochs create_validator]. by rewrite Hlink. Qed.

(** Receiving a pending amount on top of the account's chain is accepted. *)
Lemma receive_accepted i :
  st_account s !! a = Some i -> stateh_previous (state_hashables st) = ai_head i ->
  bal = ai_balance i + pi_amount p -> validate v = Ok (create_instructions v).
Proof.
  intros Hi Hprev Hbal. destruct (existing_view i Hi Hprev) as (Ei & Eo & q & Eq & Eb).
  destruct (existing_checks i Hi Hprev) as (C1 & C2 & C3 & C4).
  assert (previous_balance v = ai_balance i) as Epb by (unfold previous_balance; rewrite Eq; exact Eb).
  pose proof (inv_balance c min_weight s Hinv _ _ Hi) as Hb. pose proof (inv_room c min_weight s Hinv _ _ _ _ Hi Hpending).
  destruct receive_checks as [C5 C6]; [rewrite Epb; lia|rewrite Epb; apply Hb|lia|].
  apply validate_owner; try done. apply receive_not_epoch.
Qed.

(** Opening an account with a pending amount is accepted. *)
Lemma open_accepted :
  st_account s !! a = None -> stateh_previous (state_hashables st) = 0 -> bal = pi_amount p ->
  validate v = Ok (create_instructions v).
Proof.
  intros Hi Hprev Hbal. destruct source_view as (_ & _ & Hnz & Hp).
  assert (v_previous_block v = None) as Eq.
  { cbn [create_validator v_previous_block]. unfold load_previous_block.
    change (previous b) with (stateh_previous (state_hashables st)). by rewrite Hprev. }
  assert (previous_balance v = 0) as Epb by (unfold previous_balance; by rewrite Eq).
  assert (v_old_account_info v = None) as Ei by exact Hi.
  destruct receive_checks as [C5 C6]; [lia|lia|lia|].
  apply validate_owner; try done; [apply receive_not_epoch|..].
  all: unfold ensure_account_exists_for_none_open_block, ensure_no_double_account_open, ensure_previous_block_is_correct,
    ensure_previous_block_exists, ensure_previous_block_is_account_head, ensure_open_block_has_link,
    is_new_account, account_exists.
  all: rewrite ?Ei, ?Eq; cbn [v_block create_validator]; change (previous b) with (stateh_previous (state_hashables st)).
  all: cbn [is_open]; rewrite Hprev; cbn; try done.
  by destruct (u256_is_zero_spec link).
Qed.
End complete.
