(* ===== verification/Undo.v ===== *)
(** * Rolling back undoes an insertion

    A block that was just inserted is rolled back in one turn, and the ledger
    is as before: every table, the counters and the weight cache, up to the
    [modified] time of the account. *)

From S2P Require Import Prelude Types Blocks Codec Work Store RepWeights Sets Validation Insertion.
From S2P Require Import Effect Chains Money LedgerInv InsertSafe Rollback RollbackSafe RollbackLoop.
From S2P Require Import System.

Definition forget_modified (i : AccountInfo) : AccountInfo :=
  mkAccountInfo (ai_head i) (ai_representative i) (ai_open_block i) (ai_balance i) 0 (ai_block_count i) (ai_epoch i).

(** The same ledger up to modification times. *)
Record same_ledger (s s' : LmdbStore) : Prop := {
  sl_block : st_block s' = st_block s;
  sl_account : forall a, forget_modified <$> st_account s' !! a = forget_modified <$> st_account s !! a;
  sl_pending : st_pending s' = st_pending s;
  sl_rep_weight : st_rep_weight s' = st_rep_weight s;
  sl_weights : st_weights s' = st_weights s;
  sl_successors : st_successors s' = st_successors s;
  sl_confirmation_height : st_confirmation_height s' = st_confirmation_height s;
  sl_final_vote : st_final_vote s' = st_final_vote s;
  sl_cache : st_cache s' = st_cache s;
}.

(** The weight tables are determined by the accounts. *)
Lemma same_weights c min_weight s s' :
  ledger_inv c min_weight s -> ledger_inv c min_weight s' ->
  (forall r, delegated (st_account s') r = delegated (st_account s) r) ->
  st_rep_weight s' = st_rep_weight s /\ st_weights s' = st_weights s.
Proof.
  intros Hi Hi' Hd.
  assert (forall r, weight_of (st_rep_weight s') r = weight_of (st_rep_weight s) r) as Hw
    by (intros r; by rewrite (li_weights _ _ _ Hi), (li_weights _ _ _ Hi')).
  split; apply map_eq; intros r.
  - specialize (Hw r). unfold weight_of in Hw.
    pose proof (rw_nonzero _ _ (li_rep_weights _ _ _ Hi) r). pose proof (rw_nonzero _ _ (li_rep_weights _ _ _ Hi') r).
    destruct (st_rep_weight s !! r), (st_rep_weight s' !! r); cbn in *; subst; naive_solver.
  - by rewrite (rw_cache _ _ (li_rep_weights _ _ _ Hi)), (rw_cache _ _ (li_rep_weights _ _ _ Hi')), Hw.
Qed.

Lemma delegated_forget ta ta' r :
  (forall a, forget_modified <$> ta' !! a = forget_modified <$> ta !! a) -> delegated ta' r = delegated ta r.
Proof.
  intros Heq. unfold delegated.
  assert (forall t : account_table, map_sum (fun i => if ai_representative i =? r then ai_balance i else 0) t
    = map_sum (fun i => if ai_representative i =? r then ai_balance i else 0) (forget_modified <$> t)) as E.
  { intros t. rewrite !map_sum_zsum, map_to_list_fmap. induction (map_to_list t) as [|[k x] l IH]; [done|].
    cbn in *. by rewrite IH. }
  rewrite (E ta), (E ta'). f_equal. apply map_eq. intros a. by rewrite !lookup_fmap.
Qed.

Lemma rep_at_unique tb h r r' : rep_at tb h r -> rep_at tb h r' -> r = r'.
Proof.
  intros H1. revert r'. induction H1 as [h b r Hb Er|h b r Hb Er _ IH]; intros r' H2;
    inversion H2; simplify_eq; [done|]. by apply IH.
Qed.

(** A ledger is determined by its blocks, accounts, pending entries,
    confirmation heights and votes. *)
Lemma same_ledger_intro c min_weight s s' :
  ledger_inv c min_weight s -> ledger_inv c min_weight s' -> st_block s' = st_block s ->
  (forall a, forget_modified <$> st_account s' !! a = forget_modified <$> st_account s !! a) ->
  st_pending s' = st_pending s -> st_confirmation_height s' = st_confirmation_height s ->
  st_final_vote s' = st_final_vote s -> same_ledger s s'.
Proof.
  intros Hi Hi' Eb Ea Ep Ec Ev.
  destruct (same_weights c min_weight s s' Hi Hi') as [Er Ew]; [intros r; by apply delegated_forget|].
  split; try done.
  - apply map_eq. intros h. apply option_eq. intros x.
    rewrite (li_succ _ _ _ Hi h x), (li_succ _ _ _ Hi' h x). by rewrite Eb.
  - destruct (li_counts _ _ _ Hi) as [H1 H2 H3], (li_counts _ _ _ Hi') as [H1' H2' H3'].
    assert (size (st_account s') = size (st_account s)) as Es.
    { rewrite <- (map_size_fmap forget_modified (st_account s)), <- (map_size_fmap forget_modified (st_account s')).
      f_equal. apply map_eq. intros a. by rewrite !lookup_fmap. }
    destruct (st_cache s), (st_cache s'). cbn in *. rewrite Eb, Es, Ec in *. congruence.
Qed.

Section undo.
Context `{Crypto} `{LmdbEngine} (c : LedgerConstants) (min_weight : Amount) (s : LmdbStore) (v : BlockValidator).
Context (ins : BlockInsertInstructions) (t w : RepWeights).
Hypothesis Hinv : ledger_inv c min_weight s.
Hypothesis Hag : agrees s v.
Hypothesis Hb : block_ok (v_block v).
Hypothesis Hval : validate v = Ok ins.
Hypothesis Hroom : forall i, st_account s !! v_account v = Some i -> ai_block_count i < u64_max.
Hypothesis Hmint : mints v = false.
Hypothesis Hrw : rep_weights_ok min_weight (tables_after s v ins t w).
Hypothesis Hw : forall r, weight_of t r = delegated (<[v_account v:=ins_set_account_info ins]> (st_account s)) r.

(** The hash of the new block is not used in the pending table, and the
    block is not an empty send or receive. *)
Hypothesis Hclean : forall k, pk_send_block_hash k = block_hash (v_block v) -> st_pending s !! k = None.
Hypothesis Hchange : is_send v = true \/ is_receive v = true -> new_balance v <> old_balance v.

#[local] Abbreviation saved := (mkSavedBlock (v_block v) (new_sideband v)).
#[local] Abbreviation s1 := (tables_after s v ins t w).
#[local] Abbreviation info' := (ins_set_account_info ins).

Lemma undo_inv : ledger_inv c min_weight s1.
Proof. by eapply inv_after. Qed.

Lemma undo_appended : appended (st_block s) (st_account s) saved info'.
Proof. by eapply validated_appended. Qed.

Lemma undo_removed : removed (st_block s1) (st_account s1) saved info'.
Proof.
  destruct (tables_after_fields s v ins t w) as (Eb & Ea & _).
  split; rewrite ?Eb, ?Ea, ?(saved_account s v Hag); cbn [sv_block]; rewrite ?lookup_insert_eq; try done.
  apply (ap_head _ _ _ _ undo_appended).
Qed.

Lemma undo_prev_bal : prev_bal (st_block s1) saved = old_balance v.
Proof.
  destruct (tables_after_fields s v ins t w) as (Eb & _). rewrite Eb. by eapply saved_prev_bal.
Qed.

Lemma undo_balance : sv_balance saved = new_balance v.
Proof. by eapply saved_balance. Qed.

Lemma undo_unconfirmed :
  default 0 (ch_height <$> st_confirmation_height s1 !! sv_account saved) < sv_height saved.
Proof.
  destruct (tables_after_fields s v ins t w) as (_ & _ & _ & _ & _ & Ec & _).
  rewrite Ec. exact (appended_unconfirmed _ _ _ _ _ Hinv undo_appended).
Qed.

Lemma undo_sent : pos_send (st_block s1) saved -> is_Some (st_pending s1 !! send_key saved).
Proof.
  unfold pos_send. rewrite undo_prev_bal, undo_balance. intros Hlt.
  destruct (tables_after_fields s v ins t w) as (_ & _ & -> & _).
  pose proof (snapshot_consistent c min_weight s v Hinv Hag Hb) as Hsn.
  pose proof (validate_instructions _ _ Hval) as Eins.
  destruct (validate_classifies _ _ Hsn Hval Hmint)
    as [e Es Er Hle Hd Hi|q Es Er Hq Hsrc Hnb Hd Hi|Es Er Hnb Hd Hi];
    unfold pending_after; rewrite Hd, Hi.
  - change (mkPendingKey _ _) with (send_key saved). rewrite lookup_insert_eq. eauto.
  - destruct (so_room _ Hsn q Er Hq). rewrite Eins in Hnb. cbn in Hnb. lia.
  - rewrite Eins in Hnb. cbn in Hnb. lia.
Qed.

Section planned.
Context (p : RollbackPlanner).
Hypothesis Hp : planner_for s1 saved info' p.

Lemma undo_pending : pending_back p (st_pending s1) = st_pending s.
Proof.
  destruct (planned_pending c min_weight s1 saved info' undo_inv undo_removed p Hp) as (Hs & Hr & Hn).
  destruct (tables_after_fields s v ins t w) as (Eb & _ & Ep & _).
  unfold pos_send, pos_recv in Hs, Hr. rewrite undo_prev_bal, undo_balance in Hs, Hr, Hn.
  pose proof (snapshot_consistent c min_weight s v Hinv Hag Hb) as Hsn.
  pose proof (validate_instructions _ _ Hval) as Eins.
  assert (ai_balance info' = new_balance v) as Enb by (by rewrite Eins).
  unfold pending_back. rewrite Ep.
  destruct (validate_classifies _ _ Hsn Hval Hmint)
    as [e Es Er Hle Hd Hi|q Es Er Hq Hsrc Hnb Hd Hi|Es Er Hnb Hd Hi]; unfold pending_after; rewrite Hd, Hi, Enb in *.
  - destruct Hs as [-> ->]; [specialize (Hchange (or_introl Es)); lia|].
    change (mkPendingKey _ _) with (send_key saved). apply delete_insert_id. by apply Hclean.
  - destruct Hr as (-> & info & -> & Ea & El & Ee).
    { specialize (Hchange (or_intror Er)). destruct (so_room _ Hsn q Er Hq). lia. }
    pose proof (ag_pending _ _ Hag _ Er Hq) as Hk. unfold recv_key. rewrite (saved_account s v Hag). cbn [sv_block].
    rewrite insert_delete_eq, insert_id; [done|]. rewrite Hk. f_equal.
    assert (0 < pi_amount q) as Hpos.
    { specialize (Hchange (or_intror Er)). destruct (so_room _ Hsn q Er Hq). lia. }
    destruct (pd_send _ _ _ (li_pending _ _ _ Hinv) _ _ Hk Hpos) as (sb & Hsb & _ & _ & _ & Esrc). cbn in Hsb.
    assert (st_block s1 !! source_or_link (v_block v) = Some sb) as Hsb1.
    { rewrite Eb, lookup_insert_ne; [done|]. intros E. pose proof (ag_fresh _ _ Hag) as Hf. cbn [sv_block] in E. congruence. }
    specialize (El _ Hsb1). destruct q as [qs qa qe], info as [is_ ia ie]. cbn in *. f_equal; [congruence|lia|].
    rewrite Ee. unfold sv_source_epoch. cbn. unfold source_epoch. rewrite Hq. done.
  - by destruct Hn as [-> ->].
Qed.

Lemma undo_account a :
  forget_modified <$> remove_account (st_account s1) saved (previous_account_info p) !! a
  = forget_modified <$> st_account s !! a.
Proof.
  pose proof undo_appended as Hap. pose proof (ap_position _ _ _ _ Hap) as Hpos.
  destruct (tables_after_fields s v ins t w) as (Eb & Ea & _). rewrite Ea. unfold remove_account.
  rewrite (saved_account s v Hag) in Hpos |- *. destruct (st_account s !! v_account v) as [j|] eqn:Hj in Hpos;
    cbn [sv_block] in Hpos.
  - destruct Hpos as (Eprev & Eh & Eopen & _).
    destruct (ac_head _ _ (li_accounts _ _ _ Hinv) _ _ Hj) as (hb & Hhb & _ & Ehh & Ehbal & Ehe).
    destruct (bk_key _ (li_blocks _ _ _ Hinv) _ _ Hhb) as [_ Hnz].
    assert (previous saved <> 0) as Hnz' by (cbn [sv_block]; congruence). destruct (u256_is_zero_spec (previous saved)); [done|].
    destruct (decide (a = v_account v)) as [->|Hne]; [|by rewrite !lookup_insert_ne by done].
    rewrite lookup_insert_eq, Hj. cbn. f_equal.
    destruct (planned_below c min_weight s1 saved info' undo_inv undo_removed p Hp Hnz') as [B1 B2 B3 (q & Hq & B4 & B5) B6].
    cbn [sv_block] in B1, Hq, B6. rewrite Eprev in B1, Hq, B6. rewrite Eb in Hq, B6. pose proof (append_old _ _ _ _ Hap _ _ Hhb) as Hhb'.
    cbn [sv_block] in Hhb'.
    assert (q = hb) as -> by congruence.
    pose proof (rep_at_unique _ _ _ _ B6 (rep_at_mono _ _ _ _ (insert_subseteq _ _ _ (ap_fresh _ _ _ _ Hap))
      (ac_rep _ _ (li_accounts _ _ _ Hinv) _ _ Hj))) as Er.
    pose proof (removed_height _ _ _ _ (li_accounts _ _ _ undo_inv) undo_removed) as Ec.
    unfold forget_modified. f_equal; try congruence. lia.
  - destruct Hpos as (Eprev & _). cbn [sv_block]. rewrite Eprev. cbn. by rewrite delete_insert_id.
Qed.

End planned.

(** One turn of the loop takes the block back. *)
Lemma undo_turn now :
  exists t' w' p, planner_for s1 saved info' p /\
    roll_back_head_block c s1 now saved = Finished (Ok (RollBackBlock (rollback_instructions p))) /\
    execute min_weight s1 (rollback_instructions p) = Some (tables_back s1 saved p t' w') /\
    same_ledger s (tables_back s1 saved p t' w').
Proof.
  destruct (create_planner_ok c min_weight s1 saved info' undo_inv undo_removed now) as (p & Ep & Hp).
  destruct (execute_eq c min_weight s1 saved info' undo_inv undo_removed p Hp undo_unconfirmed undo_sent)
    as (t' & w' & Ex & Hrw' & Hw').
  exists t', w', p. split; [done|]. split; [|split; [done|]].
  - unfold roll_back_head_block. rewrite Ep. cbn [mbind run_bind].
    destruct (plan_cases c min_weight s1 saved info' undo_inv undo_removed p Hp undo_unconfirmed) as [[-> _]|(Hs & Hn & _)]; [done|].
    destruct (undo_sent Hs). congruence.
  - destruct (tables_back_fields s1 saved p t' w') as (Fb & Fa & Fp & _ & _ & Fc & Fv & _).
    destruct (tables_after_fields s v ins t w) as (Eb & _ & _ & _ & _ & Ec & Ev & _).
    apply (same_ledger_intro c min_weight); [done| |..].
    { exact (inv_back c min_weight s1 saved info' undo_inv undo_removed p Hp undo_unconfirmed undo_sent t' w' Hrw' Hw'). }
    + rewrite Fb, Eb. cbn [sv_block]. by apply delete_insert_id, (ag_fresh _ _ Hag).
    + intros a. rewrite Fa. by apply undo_account.
    + rewrite Fp. by apply undo_pending.
    + congruence.
    + congruence.
Qed.

Lemma undo_roll_back now fuel :
  (2 <= fuel)%nat ->
  exists s', roll_back min_weight c now fuel s1 (block_hash (v_block v)) = Finished (mkPerformed (Ok tt) [saved] s') /\
    same_ledger s s'.
Proof.
  intros Hf. destruct fuel as [|[|fuel]]; [lia..|].
  destruct (undo_turn (now (S fuel))) as (t' & w' & p & _ & Eh & Ex & Hsame). set (s' := tables_back _ _ _ _ _) in *.
  exists s'. split; [|done]. pose proof undo_inv as Hi1. pose proof undo_removed as [Hrb Hri Hrh].
  cbn [sv_block] in Hrb.
  assert (roll_back_turn min_weight c (now (S fuel)) s1 [] saved saved []
          = Finished (inr (s', [saved], [(saved, saved)]))) as T1.
  { unfold roll_back_turn. cbn [sv_block].
    rewrite (any_block_exists_eq c min_weight s1 Hi1), Hrb, bool_decide_true by eauto.
    rewrite Eh. cbn [mbind run_bind]. rewrite Ex. cbn [unwrap mbind run_bind sv_block]. by rewrite Z.eqb_refl. }
  assert (roll_back_turn min_weight c (now fuel) s' [saved] saved saved [] = Finished (inr (s', [saved], []))) as T2.
  { unfold roll_back_turn, any_block_exists, block_exists. cbn [sv_block].
    rewrite (sl_block _ _ Hsame), (ag_fresh _ _ Hag), bool_decide_false by (by intros []).
    by destruct (u256_is_zero _). }
  unfold roll_back, load_block, load_account_head, any_get_account, account_get.
  rewrite (any_get_block_eq c min_weight s1 Hi1), Hrb. cbn [ok_or]. rewrite Hri. cbn [unwrap mbind run_bind].
  unfold load_block. rewrite Hrh, (any_get_block_eq c min_weight s1 Hi1). cbn [sv_block]. rewrite Hrb. cbn [ok_or].
  cbn [roll_back_impl]. rewrite T1. cbn [mbind run_bind]. rewrite T2. cbn [mbind run_bind]. by destruct fuel.
Qed.
End undo.
