(* ===== verification/Scenario.v ===== *)
(** * A run of the small ledger

    The ledger of Sample.v after a send and after the open block that receives
    it: reachable states with a confirmed genesis block, on which the theorems
    about all reachable states are applied. *)

From S2P Require Import Prelude Types Blocks Codec Work Store RepWeights Sets Validation Insertion.
From S2P Require Import Effect Chains Money LedgerInv InsertSafe Batch Rollback RollbackSafe.
From S2P Require Import RollbackLoop Startup Sample Links Cementer CementSafe FinalVotes System.

Definition send_ledger : LmdbStore := Eval vm_compute in processed_ledger sample_ledger [sample_send].
Definition open_ledger : LmdbStore := Eval vm_compute in processed_ledger send_ledger [sample_open].

(** Of a batch whose blocks are all admissible by computation only the
    snapshot and the absence of collisions are left to show. *)
Definition block_admissible (c : LedgerConstants) (s : LmdbStore) (nb : Z * Block) : Prop :=
  block_ok nb.2 /\
  (is_ok (validate (create_validator c s nb.1 nb.2)) = true ->
   mints (create_validator c s nb.1 nb.2) = false /\
   (is_receive (create_validator c s nb.1 nb.2) = true -> amount_received (create_validator c s nb.1 nb.2) <> 0)).

Definition short_chains (s : LmdbStore) : bool :=
  forallb (fun p : Account * AccountInfo => ai_block_count p.2 <? u64_max) (map_to_list (st_account s)).

Lemma short_chains_room s a i : short_chains s = true -> st_account s !! a = Some i -> ai_block_count i < u64_max.
Proof.
  unfold short_chains. rewrite forallb_forall. intros Hs Hi%elem_of_map_to_list%list_elem_of_In.
  specialize (Hs _ Hi). by apply Z.ltb_lt in Hs.
Qed.

Lemma admissible_intro c min_weight snapshot s batch :
  ledger_inv c min_weight snapshot -> since snapshot s -> Forall (block_admissible c snapshot) batch ->
  collision_free batch.*2 snapshot s -> short_chains snapshot = true -> admissible c min_weight snapshot s batch.
Proof.
  intros Hi Hs Hb Hc Hr. rewrite Forall_forall in Hb.
  split; try done; [intros now b Hin; by apply (Hb _ Hin)| |..|intros a i; by apply short_chains_room].
  all: intros now b ins Hin Hv; destruct (Hb _ Hin) as [_ Hm]; cbn [fst snd] in Hm; rewrite Hv in Hm; by apply Hm.
Qed.

Lemma nodup_hashes (l : list Block) b1 b2 :
  NoDup ((fun b => block_hash b) <$> l) -> b1 ∈ l -> b2 ∈ l -> block_hash b1 = block_hash b2 -> b1 = b2.
Proof.
  intros Hn [i Hi]%list_elem_of_lookup [j Hj]%list_elem_of_lookup E.
  assert (i = j) as ->; [|congruence].
  apply (NoDup_lookup _ i j (block_hash b1) Hn); rewrite list_lookup_fmap; [by rewrite Hi|by rewrite Hj, E].
Qed.

Definition stored_is (b : Block) (s : LmdbStore) : bool :=
  match st_block s !! block_hash b with Some x => bool_decide (sv_block x = b) | None => true end.

Lemma collision_free_check batch snapshot s :
  bool_decide (NoDup ((fun b => block_hash b) <$> batch)) = true -> forallb (fun b => stored_is b s) batch = true ->
  collision_free batch snapshot s.
Proof.
  intros Hn%bool_decide_eq_true Hs. split; [intros b1 b2; by apply nodup_hashes|].
  intros b x Hb _ Hx. rewrite forallb_forall in Hs. specialize (Hs b (proj1 (list_elem_of_In _ _) Hb)).
  unfold stored_is in Hs. rewrite Hx in Hs. by apply bool_decide_eq_true in Hs.
Qed.

(** One block, validated against the current state. *)
Lemma admissible_one c min_weight s now b :
  ledger_ok c min_weight s -> block_admissible c s (now, b) -> short_chains s = true ->
  admissible c min_weight s s [(now, b)].
Proof.
  intros Hok Hb Hr. apply admissible_intro; [apply Hok|done|by apply Forall_singleton| |done]. split.
  - intros b1 b2. cbn. by intros ->%list_elem_of_singleton ->%list_elem_of_singleton.
  - intros b' x _ Hn Hx. congruence.
Qed.

Lemma sample_ok : ledger_ok sample_constants 0 sample_ledger.
Proof. apply genesis_ledger_ok; [apply sample_genesis_wf|by vm_compute]. Qed.

Lemma send_write : ledger_write sample_constants 0 sample_ledger send_ledger.
Proof.
  eapply write_process; [apply (admissible_one _ _ _ 5 sample_send sample_ok)|vm_compute; reflexivity]; [|by vm_compute].
  split; [split; by vm_compute|intros _; split; by vm_compute].
Qed.

Lemma send_ok : ledger_ok sample_constants 0 send_ledger.
Proof. eapply write_ok; [apply send_write|apply sample_ok]. Qed.

Lemma open_write : ledger_write sample_constants 0 send_ledger open_ledger.
Proof.
  eapply write_process; [apply (admissible_one _ _ _ 5 sample_open send_ok)|vm_compute; reflexivity]; [|by vm_compute].
  split; [split; by vm_compute|intros _; split; by vm_compute].
Qed.

Lemma open_ok : ledger_ok sample_constants 0 open_ledger.
Proof. eapply write_ok; [apply open_write|apply send_ok]. Qed.

Lemma send_step : ledger_step sample_constants 0 sample_ledger send_ledger.
Proof. apply step_write, send_write. Qed.

Lemma open_step : ledger_step sample_constants 0 send_ledger open_ledger.
Proof. apply step_write, open_write. Qed.

Lemma send_reachable : reachable sample_constants 0 send_ledger.
Proof. eapply rtc_l; [apply send_step|constructor]. Qed.

Lemma open_reachable : reachable sample_constants 0 open_ledger.
Proof. eapply rtc_l; [apply send_step|]. eapply rtc_l; [apply open_step|constructor]. Qed.

(** A batch validated before the open block was processed: a fork of the send,
    the open block once more, and a second send. *)
Definition late_batch : list (Z * Block) := [(6, sample_fork); (6, sample_open); (6, sample_send2)].

Lemma late_admissible : admissible sample_constants 0 send_ledger open_ledger late_batch.
Proof.
  destruct (writes_since sample_constants 0 send_ledger open_ledger (rtc_once _ _ open_write) send_ok) as (_ & Hi & Hs).
  apply admissible_intro; [done|done| | |by vm_compute].
  - repeat apply Forall_cons_2; try apply Forall_nil_2; (split; [split; by vm_compute|]);
      intros Hv; first [vm_compute in Hv; discriminate Hv|split; vm_compute; done].
  - apply collision_free_check; by vm_compute.
Qed.
