(* ===== verification/LedgerTheorems.v ===== *)
(** * What the ledger guarantees: processing blocks

    The theorems about validation and insertion, stated for the operations
    [process_batch] and [process_one] and for the states reachable from the
    genesis ledger, each applied to the run of Scenario.v. *)

From S2P Require Import Prelude Types Blocks Codec Work Store RepWeights Sets Validation Insertion.
From S2P Require Import Effect Chains Money LedgerInv InsertSafe Batch Rollback RollbackSafe.
From S2P Require Import RollbackLoop Startup Sample Links Cementer CementSafe FinalVotes System.
From S2P Require Import Authorised Scenario.

(** ** Reachable states *)

Section reachable_states.
Context `{Crypto} `{LmdbEngine} (c : LedgerConstants) (min_weight : Amount) (s : LmdbStore).

(** C1. Every state reached from the genesis ledger by processing admissible
    batches (see [admissible]: in particular no block that creates money
    through an epoch link, no receive of an empty send, and no rollback between
    validation and insertion), rolling back, cementing and recording final
    votes satisfies the ledger invariant: the tables form gapless account
    chains with their heads, successors and representatives, pending entries
    match the sends that were not received, weights and counters agree with
    the tables, and what is confirmed depends only on what is confirmed. *)
Theorem reachable_ledger_ok :
  genesis_wf c -> min_weight <= u128_max -> reachable c min_weight s -> ledger_ok c min_weight s.
Proof. intros Hwf Hm Hr. by apply reachable_ok. Qed.

(** C2. The supply is conserved by admissible batches, rollbacks, cementing and
    votes: in every state they lead to from the genesis ledger all balances and
    all pending amounts add up to the genesis amount 2^128 - 1, and the weight
    table holds for every representative the sum of the balances of the
    accounts that chose it. *)
Theorem reachable_supply :
  genesis_wf c -> min_weight <= u128_max -> reachable c min_weight s ->
  map_sum ai_balance (st_account s) + map_sum pi_amount (st_pending s) = 2 ^ 128 - 1 /\
  forall rep, default 0 (st_rep_weight s !! rep)
    = map_sum (fun i => if ai_representative i =? rep then ai_balance i else 0) (st_account s).
Proof.
  intros Hwf Hm Hr. destruct (reachable_ok c min_weight Hwf Hm s Hr) as [Hinv _ _].
  split; [apply (li_supply _ _ _ Hinv)|apply (li_weights _ _ _ Hinv)].
Qed.

(** C6. No send is received twice, and nothing is received that was not sent:
    in a state reached through admissible batches, rollbacks, cementing and
    votes, two blocks that raise a balance from the same source
    are the same block, the source is a send to that account, and the amounts
    agree. *)
Theorem received_once r1 r2 rb1 rb2 :
  genesis_wf c -> min_weight <= u128_max -> reachable c min_weight s ->
  st_block s !! r1 = Some rb1 -> st_block s !! r2 = Some rb2 ->
  r1 <> genesis_hash c -> r2 <> genesis_hash c -> pos_recv (st_block s) rb1 -> pos_recv (st_block s) rb2 ->
  sv_account rb1 = sv_account rb2 -> source_or_link rb1 = source_or_link rb2 ->
  r1 = r2 /\ exists sb : SavedBlock, st_block s !! source_or_link rb1 = Some sb /\ destination_or_link sb = sv_account rb1 /\
    prev_bal (st_block s) sb - sv_balance sb = sv_balance rb1 - prev_bal (st_block s) rb1.
Proof.
  intros Hwf Hm Hr H1 H2 G1 G2 P1 P2 Ea Es. destruct (reachable_ok c min_weight Hwf Hm s Hr) as [Hinv _ _].
  pose proof (li_pending _ _ _ Hinv) as Hp. split.
  - eapply (pd_once _ _ _ Hp); eauto. unfold recv_key. by rewrite Ea, Es.
  - destruct (pd_recv _ _ _ Hp _ _ H1 G1 P1) as (_ & sb & Hsb & _ & Ek & Eamt). injection Ek as E _. exists sb. by rewrite E.
Qed.
End reachable_states.

Lemma reachable_ledger_ok_witness : ledger_ok sample_constants 0 open_ledger.
Proof. apply reachable_ledger_ok; [apply sample_genesis_wf|by vm_compute|apply open_reachable]. Defined.

Lemma reachable_supply_witness :
  map_sum ai_balance (st_account open_ledger) + map_sum pi_amount (st_pending open_ledger) = 2 ^ 128 - 1.
Proof.
  refine (proj1 (reachable_supply sample_constants 0 open_ledger sample_genesis_wf _ open_reachable)). by vm_compute.
Defined.

Definition saved_at (s : LmdbStore) (h : BlockHash) : SavedBlock := default sample_genesis_block (st_block s !! h).

Definition saved_open : SavedBlock := saved_at open_ledger (block_hash sample_open).

Lemma received_once_witness :
  exists sb : SavedBlock, st_block open_ledger !! source_or_link saved_open = Some sb /\
    destination_or_link sb = sv_account saved_open.
Proof.
  destruct (received_once sample_constants 0 open_ledger (block_hash sample_open) (block_hash sample_open)
    saved_open saved_open sample_genesis_wf) as (_ & sb & Hsb & Hd & _).
  all: [> by vm_compute|apply open_reachable|by vm_compute..|reflexivity|reflexivity|].
  exists sb. exact (conj Hsb Hd).
Defined.

(** ** Processing *)

Section processing.
Context `{Crypto} `{LmdbEngine} (c : LedgerConstants) (min_weight : Amount) (s : LmdbStore).
Hypothesis Hok : ledger_ok c min_weight s.

(** C3. Processing an admissible batch never panics, on any ledger that
    satisfies the invariant, also when the blocks were validated against an
    older state since which nothing was rolled back. It yields one result per
    block: a block is accepted, and stored as it came with the sideband of its
    validation, or refused with the error of the validator, or refused as a
    conflict because the head of its account has changed since. The blocks of
    the ledger are afterwards those it had and exactly the accepted ones; the
    invariant, the confirmations and the final votes are kept. *)
Theorem process_batch_correct snapshot batch :
  admissible c min_weight snapshot s batch ->
  exists results s', process_batch min_weight c snapshot s batch = Some (results, s') /\
    ledger_ok c min_weight s' /\ Forall2 (result_ok c snapshot s') batch results /\
    (forall h x, st_block s' !! h = Some x <-> st_block s !! h = Some x \/ accepted batch results h x) /\
    st_confirmation_height s' = st_confirmation_height s /\ st_final_vote s' = st_final_vote s.
Proof.
  intros Hb. destruct (process_batch_ok c min_weight snapshot s batch Hok Hb) as (results & s' & E & Hin).
  exists results, s'. pose proof (inserted_ledger_ok _ _ _ _ _ _ _ Hin) as Hok'.
  destruct Hin as [_ Hs [_ [Ec Ev]] Hall Hnew]. split_and!; try done. intros h x. split.
  - intros Hx. destruct (st_block s !! h) as [y|] eqn:Hy; [left|right; by apply Hnew].
    by rewrite <- (lookup_weaken _ _ _ _ Hy (sn_blocks _ _ Hs)).
  - intros [Hx|(i & now & b & Hi & Hr & ->)]; [eapply lookup_weaken; [done|apply Hs]|].
    destruct (Forall2_lookup_lr _ _ _ _ _ _ Hall Hi Hr) as (_ & _ & Hx). exact Hx.
Qed.

(** The entry under the source or link of [b], received or not. *)
Definition linked_entry (tp : pending_table) (a : Account) (b : Block) : option PendingInfo :=
  if source_or_link b =? 0 then None else tp !! mkPendingKey a (source_or_link b).




Section effect.
Context (now : Z) (b : Block) (ins : BlockInsertInstructions).
#[local] Abbreviation v := (create_validator c s now b).
#[local] Abbreviation a := (v_account v).
#[local] Abbreviation old := (st_account s !! a).
Hypothesis (Hb : block_ok b) (Hm : mints v = false) (Hval : validate v = Ok ins).
Hypothesis Hroom : forall a i, st_account s !! a = Some i -> ai_block_count i < u64_max.



Lemma effect_source : v_pending_receive_info v = linked_entry (st_pending s) a b.
Proof. reflexivity. Qed.









End effect.

End processing.

Definition outcomes (r : option (list processed * LmdbStore)) : list (result BlockError unit) :=
  from_option (fun p => p.1.*1) [] r.

Lemma process_batch_correct_witness :
  exists results s', process_batch 0 sample_constants send_ledger open_ledger late_batch = Some (results, s') /\
    results.*1 = [Err Fork; Err Conflict; Ok tt] /\
    forall h x, st_block s' !! h = Some x <-> st_block open_ledger !! h = Some x \/ accepted late_batch results h x.
Proof.
  destruct (process_batch_correct sample_constants 0 open_ledger open_ok send_ledger late_batch late_admissible)
    as (r & s' & E & _ & _ & Hall & _).
  assert (outcomes (process_batch 0 sample_constants send_ledger open_ledger late_batch)
          = [Err Fork; Err Conflict; Ok tt]) as Er by (vm_compute; reflexivity).
  rewrite E in Er. exists r, s'. exact (conj E (conj Er Hall)).
Defined.

Definition sample_instructions (s : LmdbStore) (b : Block) : BlockInsertInstructions :=
  create_instructions (create_validator sample_constants s 5 b).


(** ** Validation *)

Section validation.
Context `{Crypto} (c : LedgerConstants) (min_weight : Amount) (s : LmdbStore).
Hypothesis Hinv : ledger_inv c min_weight s.

(** C5. Only authorised blocks are accepted. An accepted block is signed by
    the owner of the account (by the epoch's signer when it is an epoch
    block), its work meets the threshold of its kind, it is new, and it
    follows the head of its account, or opens an account that does not exist.
    An epoch block raises the epoch by exactly one and changes neither the
    balance nor the representative. *)
Theorem accepted_authorised now b ins :
  validate (create_validator c s now b) = Ok ins ->
  let v := create_validator c s now b in
  (if is_epoch_block v then validate_epoch_signature (lk_epochs c) b
   else verify (v_account v) (u256_serialize (block_hash b)) (block_signature b)) = true /\
  is_valid_pow (lk_work c) b (block_details v) = true /\
  st_block s !! block_hash b = None /\ v_account v <> 0 /\
  match st_account s !! v_account v with
  | None => previous b = 0 /\ is_open b = true
  | Some i => previous b = ai_head i /\ is_open b = false /\
      (is_epoch_block v = true -> epoch_u8 (block_epoch_version v) = epoch_u8 (ai_epoch i) + 1 /\
         representative_field b = Some (ai_representative i) /\ new_balance v = ai_balance i)
  end.
Proof.
  intros Hval v. pose proof (validator_agrees c min_weight s now b ins Hinv Hval) as Hag. fold v in Hag, Hval.
  destruct (validate_position _ _ Hval) as (Hacc & _ & Hpos & _). pose proof (ag_old _ _ Hag) as Eold.
  split_and!; [apply (validate_signed _ _ Hval)|apply (validate_work _ _ Hval)|apply (ag_fresh _ _ Hag)|done|].
  rewrite <- Eold. pose proof (validate_epoch _ _ Hval) as Hep.
  destruct (v_old_account_info v) as [i|]; [|done]. destruct Hpos as (Hp & Ho & _). split_and!; try done.
  intros He. destruct (Hep He) as (Hs & Hr & Hn). unfold is_sequential in Hs. prop_bools. by split_and!.
Qed.

Section owner.
Context (now : Z) (st : StateBlock).
#[local] Abbreviation a := (stateh_account (state_hashables st)).
#[local] Abbreviation bal := (stateh_balance (state_hashables st)).
#[local] Abbreviation v := (create_validator c s now (State st)).

(** What the owner of an account has to provide: a new block, signed, with
    enough work. *)
Definition presented : Prop :=
  st_block s !! state_hash st = None /\ state_verify_signature st = true /\
  is_valid_pow (lk_work c) (State st) (block_details v) = true /\ a <> 0.

(** C14. Honest blocks are not refused: a presented state block on top of the
    account's head is accepted when it lowers the balance (a send), or raises
    it by the amount of the pending entry it links to; one without previous is
    accepted when it opens a new account with a pending amount. *)
Theorem honest_accepted :
  presented ->
  (exists i, st_account s !! a = Some i /\ stateh_previous (state_hashables st) = ai_head i /\
     (bal < ai_balance i \/
      exists p, st_pending s !! mkPendingKey a (stateh_link (state_hashables st)) = Some p /\
        is_Some (st_block s !! stateh_link (state_hashables st)) /\
        is_epoch_link (lk_epochs c) (stateh_link (state_hashables st)) = false /\ bal = ai_balance i + pi_amount p)) \/
  (st_account s !! a = None /\ stateh_previous (state_hashables st) = 0 /\
     exists p, st_pending s !! mkPendingKey a (stateh_link (state_hashables st)) = Some p /\
       is_Some (st_block s !! stateh_link (state_hashables st)) /\
       is_epoch_link (lk_epochs c) (stateh_link (state_hashables st)) = false /\ bal = pi_amount p) ->
  validate v = Ok (create_instructions v).
Proof.
  intros (Hf & Hs & Hw & Ha).
  intros [(i & Hi & Hp & [Hlt|(p & Hk & Hsrc & Hl & Hb)])|(Hi & Hp & p & Hk & Hsrc & Hl & Hb)].
  - by eapply send_accepted.
  - by eapply receive_accepted.
  - by eapply open_accepted.
Qed.
End owner.
End validation.

Lemma accepted_authorised_witness : st_block send_ledger !! block_hash sample_open = None.
Proof.
  destruct (accepted_authorised sample_constants 0 send_ledger (lo_inv _ _ _ send_ok) 5 sample_open
    (sample_instructions send_ledger sample_open)) as (_ & _ & Hf & _); [by vm_compute|exact Hf].
Defined.

Definition sample_open_state : StateBlock :=
  match sample_open with State st => st | _ => mkStateBlock (mkStateHashables 0 0 0 0 0) 0 0 0 end.

Lemma honest_accepted_witness :
  validate (create_validator sample_constants send_ledger 5 (State sample_open_state))
  = Ok (create_instructions (create_validator sample_constants send_ledger 5 (State sample_open_state))).
Proof.
  apply (honest_accepted sample_constants 0 send_ledger (lo_inv _ _ _ send_ok) 5 sample_open_state).
  - split_and!; by vm_compute.
  - right. split; [by vm_compute|]. split; [by vm_compute|]. eexists. split; [by vm_compute|].
    split_and!; [eexists; by vm_compute|by vm_compute|by vm_compute].
Defined.
