(* ===== verification/HistoryTheorems.v ===== *)
(** * What the ledger guarantees: rolling back, cementing, final votes, startup

    The theorems about [roll_back], [confirm], [confirm_root], [verify_final]
    and [initialize], each applied to the run of Scenario.v. *)

From S2P Require Import Prelude Types Blocks Codec Work Store RepWeights Sets Validation Insertion.
From S2P Require Import Effect Chains Money LedgerInv InsertSafe Batch Rollback RollbackSafe.
From S2P Require Import RollbackLoop Startup Sample Links Cementer CementSafe FinalVotes System.
From S2P Require Import Authorised Undo Scenario.

(** ** What is final *)

(** C10. What is confirmed is final: whatever admissible batches, rollbacks,
    cementing runs and votes ([ledger_step]) follow on a state reached by them,
    every confirmed block is still in the ledger, unchanged and confirmed, and
    the final vote recorded for a root never changes. *)
Theorem history_is_final `{Crypto} `{LmdbEngine} c min_weight s s' :
  genesis_wf c -> min_weight <= u128_max -> reachable c min_weight s ->
  rtc (ledger_step c min_weight) s s' ->
  (forall h b, st_block s !! h = Some b -> confirmed s b -> st_block s' !! h = Some b /\ confirmed s' b) /\
  (forall root h, st_final_vote s !! root = Some h -> st_final_vote s' !! root = Some h).
Proof.
  intros Hwf Hm Hr Hs. destruct (steps_ok c min_weight s s' Hs (reachable_ok c min_weight Hwf Hm s Hr)) as [_ [Hc Hv]].
  split; [exact Hc|]. intros root h Hh. by eapply lookup_weaken.
Qed.

Definition saved_genesis : SavedBlock := stored sample_genesis_block.

Lemma history_is_final_witness : st_block open_ledger !! genesis_head = Some saved_genesis.
Proof.
  destruct (history_is_final sample_constants 0 send_ledger open_ledger sample_genesis_wf) as [Hc _].
  - by vm_compute.
  - apply send_reachable.
  - apply rtc_once, open_step.
  - destruct (Hc genesis_head saved_genesis) as [Hb _]; [by vm_compute|by vm_compute|exact Hb].
Defined.

(** ** Rolling back *)

Section rollback_theorems.
Context `{LmdbEngine} (c : LedgerConstants) (min_weight : Amount) (now : nat -> Z) (s : LmdbStore).

(** C13. [roll_back] always ends, never panics and keeps the ledger invariant,
    whatever hash it is given: at most [rollback_fuel n] turns are taken on a
    ledger of [n] blocks. The blocks it reports were in the ledger and not
    confirmed, exactly they are gone afterwards, and confirmations and final
    votes stay. The only errors are a hash that is not in the ledger, with
    nothing changed, and a confirmed block in the way. *)
Theorem roll_back_total fuel h :
  ledger_inv c min_weight s -> (rollback_fuel (size (st_block s)) <= fuel)%nat ->
  exists p, roll_back min_weight c now fuel s h = Finished p /\
    ledger_inv c min_weight (pf_store p) /\
    Forall (fun x : SavedBlock => st_block s !! block_hash x = Some x /\ ~ confirmed s x) (pf_rolled_back p) /\
    (forall k b, st_block (pf_store p) !! k = Some b <->
       st_block s !! k = Some b /\ k ∉ (fun x : SavedBlock => block_hash x) <$> pf_rolled_back p) /\
    st_confirmation_height (pf_store p) = st_confirmation_height s /\
    st_final_vote (pf_store p) = st_final_vote s /\
    match pf_result p with
    | Ok _ => is_Some (st_block s !! h) /\ st_block (pf_store p) !! h = None
    | Err BlockNotFound => st_block s !! h = None /\ pf_store p = s
    | Err e => e = BlockConfirmed
    end.
Proof.
  intros Hinv Hf. destruct (roll_back_outcome c min_weight now s Hinv fuel h Hf) as (p & E & [Hi Hall Hres]).
  destruct (rolled_all_conf _ _ _ _ _ Hall). exists p. split_and!; try done.
  - by eapply rolled_all_unconfirmed.
  - by eapply rolled_all_blocks.
  - by destruct (pf_result p) as [|[]].
Qed.

(** C15. Rolling back succeeds whenever it may: for a block of the ledger that
    is not confirmed it ends with [Ok], and the block is gone. *)
Theorem roll_back_succeeds fuel h b :
  ledger_ok c min_weight s -> (rollback_fuel (size (st_block s)) <= fuel)%nat ->
  st_block s !! h = Some b -> ~ confirmed s b ->
  exists p, roll_back min_weight c now fuel s h = Finished p /\ pf_result p = Ok tt /\
    st_block (pf_store p) !! h = None /\ ledger_ok c min_weight (pf_store p).
Proof.
  intros Hok Hf Hb Hn.
  destruct (roll_back_outcome c min_weight now s (lo_inv _ _ _ Hok) fuel h Hf) as (p & E & [Hi Hall Hres]).
  exists p. destruct (rollback_keeps c min_weight now fuel s h p Hok Hf E) as [Hok' _].
  destruct (pf_result p) as [[]|[]]; try done; [naive_solver|naive_solver|].
  destruct Hres as (b' & Hb' & Hc). assert (b' = b) as -> by congruence. by destruct Hn; apply Hc, Hok.
Qed.
End rollback_theorems.

Definition sent : BlockHash := block_hash sample_send.

Lemma roll_back_total_witness :
  exists p, roll_back 0 sample_constants (fun _ => 7) (rollback_fuel (size (st_block open_ledger))) open_ledger sent
            = Finished p /\ ledger_inv sample_constants 0 (pf_store p).
Proof.
  destruct (roll_back_total sample_constants 0 (fun _ => 7) open_ledger
    (rollback_fuel (size (st_block open_ledger))) sent (lo_inv _ _ _ open_ok) (Nat.le_refl _)) as (p & E & Hi & _).
  exists p. exact (conj E Hi).
Defined.

Definition saved_send : SavedBlock := default sample_genesis_block (st_block open_ledger !! sent).

Lemma roll_back_succeeds_witness :
  exists p, roll_back 0 sample_constants (fun _ => 7) (rollback_fuel (size (st_block open_ledger))) open_ledger sent
            = Finished p /\ st_block (pf_store p) !! sent = None.
Proof.
  destruct (roll_back_succeeds sample_constants 0 (fun _ => 7) open_ledger
    (rollback_fuel (size (st_block open_ledger))) sent saved_send open_ok (Nat.le_refl _)) as (p & E & _ & Hn & _).
  - by vm_compute.
  - by vm_compute.
  - exists p. exact (conj E Hn).
Defined.

(** C16. Rolling back undoes an insertion: after a block was inserted, rolling
    it back takes two turns of the loop, reports exactly this block, and leaves
    the ledger as it was, every table, counter and cached weight, up to the
    modification time of the account. The block must not create money through
    an epoch link, must not be an empty send or receive, its hash must not occur
    in a leftover pending key, and the chains must not be 2^64 - 1 blocks
    long. *)
Theorem roll_back_undoes_insert `{Crypto} `{LmdbEngine} c min_weight s now b ins saved s1 times fuel :
  ledger_inv c min_weight s -> block_ok b -> mints (create_validator c s now b) = false ->
  (forall a i, st_account s !! a = Some i -> ai_block_count i < u64_max) ->
  validate (create_validator c s now b) = Ok ins ->
  (forall k, pk_send_block_hash k = block_hash b -> st_pending s !! k = None) ->
  (is_send (create_validator c s now b) = true \/ is_receive (create_validator c s now b) = true ->
     new_balance (create_validator c s now b) <> old_balance (create_validator c s now b)) ->
  insert min_weight s b ins = Some (Some saved, s1) -> (2 <= fuel)%nat ->
  exists s', roll_back min_weight c times fuel s1 (block_hash b) = Finished (mkPerformed (Ok tt) [saved] s') /\
    same_ledger s s'.
Proof.
  intros Hinv Hb Hm Hroom Hval Hclean Hch Hins Hf. set (v := create_validator c s now b) in *.
  pose proof (validator_agrees c min_weight s now b ins Hinv Hval) as Hag. fold v in Hag.
  destruct (insert_eq c min_weight s v ins Hinv Hag Hb Hval (Hroom _) Hm) as (t & w & E & Hrw & Hw).
  change (v_block v) with b in E. rewrite Hins in E. injection E as -> ->.
  exact (undo_roll_back c min_weight s v ins t w Hinv Hag Hb Hval (Hroom _) Hm Hrw Hw Hclean Hch times fuel Hf).
Qed.

Definition open_instructions : BlockInsertInstructions :=
  create_instructions (create_validator sample_constants send_ledger 5 sample_open).
Definition saved_opened : SavedBlock := default sample_genesis_block (st_block open_ledger !! block_hash sample_open).

Definition pending_free (s : LmdbStore) (h : BlockHash) : bool :=
  forallb (fun p : PendingKey * PendingInfo => negb (pk_send_block_hash p.1 =? h)) (map_to_list (st_pending s)).

Lemma pending_free_clean s h :
  pending_free s h = true -> forall k, pk_send_block_hash k = h -> st_pending s !! k = None.
Proof.
  unfold pending_free. rewrite forallb_forall. intros Hf k Hk.
  destruct (st_pending s !! k) as [p|] eqn:E; [|done].
  apply elem_of_map_to_list, list_elem_of_In, Hf in E. cbn in E. prop_bools. done.
Qed.

Lemma roll_back_undoes_insert_witness :
  exists s', roll_back 0 sample_constants (fun _ => 9) 2 open_ledger (block_hash sample_open)
             = Finished (mkPerformed (Ok tt) [saved_opened] s') /\ same_ledger send_ledger s'.
Proof.
  apply (roll_back_undoes_insert sample_constants 0 send_ledger 5 sample_open open_instructions
    saved_opened open_ledger (fun _ => 9) 2 (lo_inv _ _ _ send_ok)).
  - split; by vm_compute.
  - by vm_compute.
  - intros a i. apply short_chains_room. by vm_compute.
  - by vm_compute.
  - apply pending_free_clean. by vm_compute.
  - intros _. by vm_compute.
  - vm_compute. reflexivity.
  - lia.
Defined.

(** ** Cementing *)

Section cementing_theorems.
Context (c : LedgerConstants) (min_weight : Amount).

(** C17. A cementing run always ends without a panic: [confirm] takes at most
    [confirm_fuel n max_blocks] turns on a ledger of [n] blocks. It confirms
    blocks that were not confirmed and that the target depends on, and nothing
    else; it confirms a block only after everything the block depends on; it
    changes no table but the confirmation heights. It reports no block only if
    the target is confirmed already. *)
Theorem confirm_correct fuel s t max_blocks :
  ledger_ok c min_weight s -> is_Some (st_block s !! t) -> (1 <= max_blocks)%nat ->
  (confirm_fuel (size (st_block s)) max_blocks <= fuel)%nat ->
  exists s' new, confirm c no_refresh fuel s t max_blocks = Finished (s', new) /\
    ledger_ok c min_weight s' /\
    set_cache (st_cache s) (set_confirmation_height (st_confirmation_height s) s') = s /\
    (forall h b, st_block s !! h = Some b -> confirmed s' b <-> confirmed s b \/ b ∈ new) /\
    (forall b : SavedBlock, b ∈ new -> st_block s !! block_hash b = Some b /\ ~ confirmed s b /\
       ancestor c (st_block s) t (block_hash b)) /\
    (forall b d i, new !! i = Some b -> d ∈ deps c b ->
       confirmed_hash s d \/ exists j (x : SavedBlock), (j < i)%nat /\ new !! j = Some x /\ block_hash x = d) /\
    (new = [] -> confirmed_hash s t).
Proof.
  intros Hok Ht Hm Hf. destruct (confirm_total c min_weight fuel s t max_blocks Hok Ht Hm Hf)
    as (s' & new & E & Hok' & [C1 C2 C3 C4] & Hn). by exists s', new.
Qed.

(** The retry loop of [confirm_batch] confirms its block: however small
    the batch size [max_blocks], at most one round more than there are
    unconfirmed blocks is needed, and nothing that was confirmed before is
    lost. *)
Theorem confirm_root_terminates rounds fuel max_blocks root st :
  ledger_ok c min_weight (cs_store st) -> is_Some (st_block (cs_store st) !! root) -> (1 <= max_blocks)%nat ->
  (confirm_fuel (size (st_block (cs_store st))) max_blocks <= fuel)%nat ->
  (length (unconfirmed_blocks (cs_store st)) < rounds)%nat ->
  exists st', confirm_root c no_refresh rounds fuel (fun _ => false) max_blocks root st = Finished (Some true, st') /\
    ledger_ok c min_weight (cs_store st') /\ confirmed_hash (cs_store st') root /\
    st_block (cs_store st') = st_block (cs_store st) /\
    forall h b, st_block (cs_store st) !! h = Some b -> confirmed (cs_store st) b -> confirmed (cs_store st') b.
Proof. apply confirm_root_ok. Qed.

End cementing_theorems.

Lemma sent_present : is_Some (st_block open_ledger !! sent).
Proof. eexists. by vm_compute. Qed.

Lemma confirm_correct_witness :
  exists s' new, confirm sample_constants no_refresh (confirm_fuel (size (st_block open_ledger)) 1) open_ledger sent 1
                 = Finished (s', new) /\ ledger_ok sample_constants 0 s'.
Proof.
  destruct (confirm_correct sample_constants 0 (confirm_fuel (size (st_block open_ledger)) 1) open_ledger sent 1
    open_ok sent_present (Nat.le_refl _) (Nat.le_refl _)) as (s' & new & E & Hok & _).
  exists s', new. exact (conj E Hok).
Defined.

Definition open_state : confirm_state := mkConfirmState open_ledger [] 0 [].

Lemma open_state_ok : ledger_ok sample_constants 0 (cs_store open_state) /\ is_Some (st_block (cs_store open_state) !! sent).
Proof. unfold open_state. cbn [cs_store]. exact (conj open_ok sent_present). Qed.

Lemma confirm_root_terminates_witness :
  exists st', confirm_root sample_constants no_refresh 10 (confirm_fuel (size (st_block (cs_store open_state))) 1)
                (fun _ => false) 1 sent open_state = Finished (Some true, st') /\
    confirmed_hash (cs_store st') sent.
Proof.
  destruct (confirm_root_terminates sample_constants 0 10 (confirm_fuel (size (st_block (cs_store open_state))) 1) 1 sent
    open_state (proj1 open_state_ok) (proj2 open_state_ok) (Nat.le_refl _) (Nat.le_refl _))
    as (st' & E & _ & Hc & _).
  - vm_compute. lia.
  - exists st'. exact (conj E Hc).
Defined.


(** ** Final votes *)

(** One final vote per root: if two calls of the verifier, with any other
    writers before and between the candidates that keep recorded votes, let
    final votes for two hashes pass, each hash is that of a block whose
    dependencies were confirmed at that time, and if the two blocks have the
    same qualified root the hashes are equal. *)
Theorem final_vote_unique c refresh s cands s1 ver1 s2 cands2 s3 ver2 root1 h1 root2 h2 :
  (forall n s s', refresh n s = Some s' -> votes_kept s s') ->
  verify_final c refresh s cands = (ver1, s1) -> votes_kept s1 s2 ->
  verify_final c refresh s2 cands2 = (ver2, s3) ->
  (root1, h1) ∈ ver1 -> (root2, h2) ∈ ver2 ->
  exists t1 b1 t2 b2, any_get_block t1 h1 = Some b1 /\ dependents_confirmed c t1 b1 = true /\
    any_get_block t2 h2 = Some b2 /\ dependents_confirmed c t2 b2 = true /\
    (qualified_root b1 = qualified_root b2 -> h1 = h2).
Proof.
  intros Hr E1 Hk E2 H1 H2.
  pose proof (verify_final_spec c refresh Hr s cands) as S1. rewrite E1 in S1. destruct S1 as [_ S1].
  pose proof (verify_final_spec c refresh Hr s2 cands2) as S2. rewrite E2 in S2. destruct S2 as [Hk2 S2].
  destruct (S1 _ _ H1) as [_ (t1 & b1 & ? & ? & V1)], (S2 _ _ H2) as [_ (t2 & b2 & ? & ? & V2)].
  exists t1, b1, t2, b2. split_and!; try done. intros E. rewrite E in V1.
  unfold votes_kept in *. apply (lookup_weaken _ _ _ _ V1) in Hk. apply (lookup_weaken _ _ _ _ Hk) in Hk2. congruence.
Qed.

(** The send and its fork, in the ledgers in which each of them is the head:
    only the first gets its vote. *)
Definition vote_of (b : Block) : Root * BlockHash := (root b, block_hash b).
Definition voted : list (Root * BlockHash) * LmdbStore :=
  verify_final sample_constants no_refresh send_ledger [vote_of sample_send].

Lemma votes_kept_refl s : votes_kept s s.
Proof. by unfold votes_kept. Qed.

Lemma voted_send : voted.1 = [(root sample_send, sent)].
Proof. vm_compute. reflexivity. Qed.

Lemma voted_first :
  verify_final sample_constants no_refresh send_ledger [vote_of sample_send] = (voted.1, voted.2).
Proof. vm_compute. reflexivity. Qed.

Lemma voted_again :
  verify_final sample_constants no_refresh voted.2 [vote_of sample_send] = (voted.1, voted.2).
Proof. vm_compute. reflexivity. Qed.

Lemma final_vote_unique_witness :
  exists t1 b1 t2 b2, any_get_block t1 sent = Some b1 /\ dependents_confirmed sample_constants t1 b1 = true /\
    any_get_block t2 sent = Some b2 /\ dependents_confirmed sample_constants t2 b2 = true /\
    (qualified_root b1 = qualified_root b2 -> sent = sent).
Proof.
  apply (final_vote_unique sample_constants no_refresh send_ledger [vote_of sample_send] voted.2 voted.1
    voted.2 [vote_of sample_send] voted.2 voted.1 (root sample_send) sent (root sample_send) sent).
  - done.
  - exact voted_first.
  - exact (votes_kept_refl _).
  - exact voted_again.
  - rewrite voted_send. by left.
  - rewrite voted_send. by left.
Defined.

(** ** Startup *)

(** C37. Restarting restores the caches: from the tables on disk, [initialize]
    recomputes the block, account and confirmed counters and the weight cache,
    however the scan is split into chunks, when the chunks cover the tables and
    either the scan is not split or the minimum weight is at most 1. *)
Theorem initialize_restores_caches `{LmdbEngine} c min_weight s chunks conf_chunks :
  ledger_inv c min_weight s ->
  concat chunks ≡ₚ (map_to_list (st_account s)).*2 ->
  concat conf_chunks ≡ₚ (map_to_list (st_confirmation_height s)).*2 ->
  (length chunks <= 1)%nat \/ min_weight <= 1 ->
  initialize min_weight c (reopened s) chunks conf_chunks = Some s.
Proof. intros. by apply initialize_restores. Qed.

Definition open_infos : list AccountInfo := (map_to_list (st_account open_ledger)).*2.

Lemma split_in_two {A} (l : list A) : concat [take 1 l; drop 1 l] ≡ₚ l.
Proof. cbn [concat]. by rewrite app_nil_r, take_drop. Qed.

Lemma in_one_chunk {A} (l : list A) : concat [l] ≡ₚ l.
Proof. cbn [concat]. by rewrite app_nil_r. Qed.

Lemma initialize_restores_caches_witness :
  initialize 0 sample_constants (reopened open_ledger) [take 1 open_infos; drop 1 open_infos]
    [(map_to_list (st_confirmation_height open_ledger)).*2] = Some open_ledger.
Proof.
  apply (initialize_restores_caches sample_constants 0 open_ledger [take 1 open_infos; drop 1 open_infos]
    [(map_to_list (st_confirmation_height open_ledger)).*2] (lo_inv _ _ _ open_ok)).
  - exact (split_in_two _).
  - exact (in_one_chunk _).
  - right. lia.
Defined.

(** A new ledger: on an empty store [initialize] adds the genesis block,
    and what it leaves satisfies the invariant, with the genesis block
    confirmed and all of the supply in the genesis account. *)
Theorem initialize_creates_genesis `{LmdbEngine} c min_weight :
  genesis_wf c -> min_weight <= u128_max ->
  exists s, initialize min_weight c store_empty [[genesis_info c]] [[genesis_conf c]] = Some s /\
    ledger_ok c min_weight s /\ confirmed_hash s (genesis_hash c) /\
    ai_balance <$> st_account s !! lk_genesis_account c = Some (2 ^ 128 - 1).
Proof.
  intros Hwf Hm. exists (genesis_store c). split; [by apply initialize_empty|]. split; [by apply genesis_ledger_ok|].
  destruct (genesis_facts c Hwf) as (_ & Ea & Eh & _). split.
  - exists (stored (lk_genesis_block c)). split; [apply lookup_singleton_eq|].
    unfold confirmed, genesis_store. cbn [st_confirmation_height]. rewrite Ea, Eh, lookup_singleton_eq. done.
  - unfold genesis_store. cbn [st_account]. by rewrite lookup_singleton_eq.
Qed.

Lemma initialize_creates_genesis_witness :
  exists s, initialize 1 sample_constants store_empty [[genesis_info sample_constants]] [[genesis_conf sample_constants]]
            = Some s /\ ledger_ok sample_constants 1 s.
Proof.
  destruct (initialize_creates_genesis sample_constants 1 sample_genesis_wf) as (s & E & Hok & _); [by vm_compute|].
  exists s. exact (conj E Hok).
Defined.
