(* ===== verification/Findings.v ===== *)
(** * Deviations found

    Behaviour of the code that its authors do not intend, each as a theorem:
    a block with an epoch link can create money, a rollback between
    validation and insertion panics, empty legacy sends are rolled back
    incompletely, and a split startup scan loses weight. *)

From S2P Require Import Prelude Types Blocks Codec Work Store RepWeights Sets Validation Insertion.
From S2P Require Import Effect Chains Money LedgerInv InsertSafe Batch Rollback Startup Sample.
From S2P Require Import Cementer.
From S2P Require Import CementSafe Authorised Scenario.

(** ** Money from an epoch link *)

(** C38. A state block whose link is an epoch link but whose balance is not
    that of its predecessor is neither an epoch block nor a receive, so
    nothing ties its balance to a pending entry: the owner of an unopened
    account can open it with any balance they like, and no pending entry is
    consumed. *)
Theorem epoch_link_creates_money `{Crypto} c min_weight s now st :
  ledger_inv c min_weight s ->
  st_block s !! state_hash st = None -> state_verify_signature st = true ->
  is_valid_pow (lk_work c) (State st) (block_details (create_validator c s now (State st))) = true ->
  stateh_account (state_hashables st) <> 0 ->
  st_account s !! stateh_account (state_hashables st) = None -> stateh_previous (state_hashables st) = 0 ->
  is_epoch_link (lk_epochs c) (stateh_link (state_hashables st)) = true ->
  stateh_link (state_hashables st) <> 0 -> 0 < stateh_balance (state_hashables st) < 2 ^ 128 ->
  exists ins, validate (create_validator c s now (State st)) = Ok ins /\
    ins_delete_pending ins = None /\ ai_balance (ins_set_account_info ins) = stateh_balance (state_hashables st).
Proof.
  intros Hinv Hf Hs Hw Ha Hi Hprev Hlink Hnz Hbal. set (v := create_validator c s now (State st)).
  assert (v_previous_block v = None) as Eq.
  { cbn [v create_validator v_previous_block]. unfold load_previous_block.
    change (previous (State st)) with (stateh_previous (state_hashables st)). by rewrite Hprev. }
  assert (previous_balance v = 0) as Epb by (unfold previous_balance; by rewrite Eq).
  assert (v_old_account_info v = None) as Ei by exact Hi.
  assert (is_receive v = false) as Er.
  { unfold is_receive, has_epoch_link. cbn [v v_block v_epochs create_validator]. by rewrite Hlink. }
  assert (is_epoch_block v = false) as Ee.
  { unfold is_epoch_block. cbn [v v_block create_validator]. fold v. rewrite Epb.
    destruct (Z.eqb_spec 0 (stateh_balance (state_hashables st))); [lia|]. apply andb_false_r. }
  exists (create_instructions v). split; [|split].
  - eapply validate_owner; try done; fold v.
    all: unfold ensure_account_exists_for_none_open_block, ensure_no_double_account_open, ensure_previous_block_is_correct,
      ensure_previous_block_exists, ensure_previous_block_is_account_head, ensure_open_block_has_link,
      ensure_no_reveive_balance_change_without_link, ensure_pending_receive_is_correct, ensure_source_block_exists,
      ensure_receive_block_receives_pending_amount, ensure_legacy_source_is_epoch_0, is_new_account, account_exists.
    all: rewrite ?Er, ?Ei, ?Eq; cbn [v v_block create_validator is_open];
      change (previous (State st)) with (stateh_previous (state_hashables st)); rewrite ?Hprev; cbn; try done.
    all: by destruct (u256_is_zero_spec (stateh_link (state_hashables st))).
  - cbn. unfold delete_received_pending_info. by rewrite Er.
  - cbn. unfold new_balance, amount_received, amount_sent. cbn [v v_block create_validator]. fold v. rewrite Epb, Ei.
    case_test; [|lia]. unfold amount_ZERO. unfold old_balance. rewrite Ei. cbn [default from_option]. unfold amount_ZERO. cbn [option_map fmap option_fmap from_option]. exact_amounts. lia.
Qed.

(** 5000 raw for account 300 out of nothing, against the supply theorem of
    the ledgers without such blocks. *)
Definition minting_state : StateBlock :=
  match signed_state 300 0 300 5000 777 with State st => st | _ => mkStateBlock (mkStateHashables 0 0 0 0 0) 0 0 0 end.

Lemma epoch_link_creates_money_witness :
  exists ins, validate (create_validator sample_constants open_ledger 5 (State minting_state)) = Ok ins /\
    ins_delete_pending ins = None /\ ai_balance (ins_set_account_info ins) = stateh_balance (state_hashables minting_state).
Proof.
  apply (epoch_link_creates_money sample_constants 0 open_ledger 5 minting_state (lo_inv _ _ _ open_ok)); by vm_compute.
Defined.

(** ** Rollback between validation and insertion *)

(** Before the pending entry is deleted, nothing touches the pending table. *)
Lemma update_account_pending `{LmdbEngine} s a old new s' : update_account s a old new = Some s' -> st_pending s' = st_pending s.
Proof.
  assert (forall s1 s2, account_del s1 a = Some s2 -> st_pending s2 = st_pending s1) as Hdel.
  { intros s1 s2. unfold account_del. destruct (table_del _ _); [|done]. by intros [= <-]. }
  unfold update_account. destruct (negb (u256_is_zero (ai_head new))).
  - set (s1 := if u256_is_zero _ && _ then add_account_count 1 s else s).
    assert (st_pending s1 = st_pending s) as <- by (unfold s1; by destruct (_ && _)).
    destruct (negb (u256_is_zero (ai_head old)) && _); [|by intros [= <-]].
    destruct (account_del s1 a) as [s2|] eqn:E; [|done]. intros [= <-]. exact (Hdel _ _ E).
  - destruct (account_del s a) as [s2|] eqn:E; [|done]. intros [= <-]. exact (Hdel _ _ E).
Qed.

Lemma insert_missing_pending `{LmdbEngine} min_weight s b ins k :
  del_missing_is_error = true -> account_changed_since_validation s ins = false ->
  ins_delete_pending ins = Some k -> st_pending s !! k = None -> insert min_weight s b ins = None.
Proof.
  intros Hdel Hacc Hk Hp. unfold insert. rewrite Hacc.
  destruct (block_put s _) as [s1|] eqn:E1; [|done]. cbn [mbind option_bind].
  destruct (update_account _ _ _ _) as [s3|] eqn:E3; [|done]. cbn [mbind option_bind].
  unfold delete_old_pending_info, pending_del, table_del. rewrite Hk, (update_account_pending _ _ _ _ _ E3).
  assert (st_pending (insert_successor s1 (mkSavedBlock b (ins_set_sideband ins))) = st_pending s) as ->.
  { unfold block_put in E1. destruct (table_put_new _ _ _); [|done]. injection E1 as <-.
    unfold insert_successor. by destruct (negb _). }
  by rewrite Hp, Hdel.
Qed.

(** C39. [process_batch] validates in a read transaction and inserts in a later
    write transaction, and checks in between only that the head of the account
    is the same. Whenever the validator accepts a receive and the write
    transaction finds the head unchanged but the pending entry gone (its send
    was rolled back in between), an LMDB that reports missing keys makes the
    [unwrap] of the deletion panic: the block takes its whole batch, and the
    thread, down with it. *)
Theorem stale_receive_panics `{Crypto} `{LmdbEngine} c min_weight snapshot s now b ins rest :
  del_missing_is_error = true ->
  validate (create_validator c snapshot now b) = Ok ins -> is_receive (create_validator c snapshot now b) = true ->
  let a := v_account (create_validator c snapshot now b) in
  head_of s a = head_of snapshot a -> st_pending s !! mkPendingKey a (source_or_link b) = None ->
  process_one min_weight c snapshot s now b = None /\ process_batch min_weight c snapshot s ((now, b) :: rest) = None.
Proof.
  intros Hdel Hval Hr a Hh Hp.
  assert (insert min_weight s b ins = None) as E.
  { rewrite (validate_instructions _ _ Hval). apply (insert_missing_pending _ _ _ _ (mkPendingKey a (source_or_link b))); try done.
    - unfold account_changed_since_validation. apply negb_false_iff, Z.eqb_eq. exact Hh.
    - cbn [create_instructions ins_delete_pending]. unfold delete_received_pending_info. by rewrite Hr. }
  split; unfold process_one, process_batch, validate_batch; cbn; by rewrite Hval, E.
Qed.

Definition rolled_back_store (s : LmdbStore) (h : BlockHash) : LmdbStore :=
  match roll_back 0 sample_constants (fun _ => 7) 20 s h with Finished p => pf_store p | _ => s end.

(** The open block is validated, its send rolled back, and then it is inserted. *)
Lemma stale_receive_panics_witness :
  process_one 0 sample_constants send_ledger (rolled_back_store send_ledger (block_hash sample_send)) 5 sample_open = None.
Proof.
  destruct (stale_receive_panics sample_constants 0 send_ledger (rolled_back_store send_ledger (block_hash sample_send)) 5 sample_open
    (create_instructions (create_validator sample_constants send_ledger 5 sample_open)) []) as [E _].
  all: [> vm_compute; reflexivity..|exact E].
Defined.

(** ** Empty legacy sends *)

Definition signed_send (key previous destination balance : Z) : Block :=
  let h := mkSendHashables previous destination balance in
  let hash := send_hashables_hash h in
  LegacySend (mkSendBlock h (sign key (u256_serialize hash)) 0 hash).

Definition signed_open (key source rep : Z) : Block :=
  let h := mkOpenHashables source rep key in
  let hash := open_hashables_hash h in
  LegacyOpen (mkOpenBlock 0 (sign key (u256_serialize hash)) h hash).

(** A legacy send of nothing to account 200, and the block that receives it. *)
Definition empty_send : Block := signed_send 100 genesis_head 200 u128_max.
Definition empty_open : Block := signed_open 200 (block_hash empty_send) 200.
Definition empty_sent : LmdbStore := Eval vm_compute in processed_ledger sample_ledger [empty_send].
Definition empty_received : LmdbStore := Eval vm_compute in processed_ledger empty_sent [empty_open].

(** The rollback planner derives the kind of a block from the balances
    alone, so an empty legacy send counts as a change: rolling it back leaves
    its pending entry behind, without a send; and once it was received, it is
    rolled back without its receive, which makes cementing the receiver
    panic on the missing block. *)
Theorem empty_send_rolled_back_incompletely :
  block_exists empty_sent (block_hash empty_send) = true /\
  block_exists (rolled_back_store empty_sent (block_hash empty_send)) (block_hash empty_send) = false /\
  is_Some (st_pending (rolled_back_store empty_sent (block_hash empty_send))
             !! mkPendingKey 200 (block_hash empty_send)) /\
  block_exists (rolled_back_store empty_received (block_hash empty_send)) (block_hash empty_open) = true /\
  confirm sample_constants no_refresh 100
    (rolled_back_store empty_received (block_hash empty_send)) (block_hash empty_open) 10 = Panicked.
Proof. split_and!; [| |eexists| |]; vm_compute; reflexivity. Qed.

(** ** Weights lost by a split scan *)

(** Two accounts with 400 raw each choose representative 200; the cache keeps
    weights of at least 500. *)
Definition send_first : Block := signed_state 100 genesis_head 100 (u128_max - 400) 200.
Definition open_first : Block := signed_state 200 0 200 400 (block_hash send_first).
Definition send_second : Block := signed_state 100 (block_hash send_first) 100 (u128_max - 800) 300.
Definition open_second : Block := signed_state 300 0 200 400 (block_hash send_second).

Definition two_delegators : LmdbStore := Eval vm_compute in
  fold_left (fun s b => match process_one 500 sample_constants s s 5 b with Some (_, s') => s' | None => s end)
    [send_first; open_first; send_second; open_second] sample_ledger.

Definition restarted : option LmdbStore :=
  initialize 500 sample_constants (reopened two_delegators)
    ((fun p : Account * AccountInfo => [p.2]) <$> map_to_list (st_account two_delegators))
    [(map_to_list (st_confirmation_height two_delegators)).*2].

(** [copy_from] applies the minimum weight to the partial sum of each
    chunk of the startup scan: a representative whose weight is above the
    minimum, but spread over several chunks, is missing from the cache after a
    restart, although it was there before. *)
Theorem split_scan_loses_weight :
  st_weights two_delegators !! 200 = Some 800 /\
  (fun s => st_weights s !! 200) <$> restarted = Some None.
Proof. split; vm_compute; reflexivity. Qed.
