(* ===== verification/ViewTheorems.v ===== *)
(** * What the stores and views guarantee

    The serialized form of the tables, the weight updates, the search for a
    representative, the list of receivable entries and the work pre-filter. *)

From S2P Require Import Prelude Types Blocks Codec Work Store RepWeights Sets Chains Money.
From S2P Require Import LedgerInv.
From S2P Require Import RollbackSafe CementSafe Sample Scenario.

(** ** Table values *)

(** What is written to the tables is what is read back: account infos,
    pending keys and entries, confirmation heights and qualified roots of
    values in range are decoded to themselves, from exactly their own bytes,
    whatever follows. *)
Theorem table_values_roundtrip i p k h r rest :
  wf_account_info i -> wf_pending_info p -> wf_pending_key k -> wf_conf_height h -> wf_qualified_root r ->
  account_info_deserialize (account_info_serialize i ++ rest) = Ok (i, rest) /\
  pending_info_deserialize (pending_info_serialize p ++ rest) = Ok (p, rest) /\
  pending_key_deserialize (pending_key_serialize k ++ rest) = Ok (k, rest) /\
  conf_height_deserialize (conf_height_serialize h ++ rest) = Ok (h, rest) /\
  qualified_root_deserialize (qualified_root_serialize r ++ rest) = Ok (r, rest).
Proof.
  intros. split_and!; [by apply decodes_account_info|by apply decodes_pending_info|by apply decodes_pending_key
    |by apply decodes_conf_height|by apply decodes_qualified_root].
Qed.

Lemma table_values_roundtrip_witness :
  account_info_deserialize (account_info_serialize (mkAccountInfo 1 2 3 4 5 6 Epoch2) ++ [byte_of 9])
  = Ok (mkAccountInfo 1 2 3 4 5 6 Epoch2, [byte_of 9]).
Proof.
  refine (proj1 (table_values_roundtrip (mkAccountInfo 1 2 3 4 5 6 Epoch2) (mkPendingInfo 1 2 Epoch1)
    (mkPendingKey u256_MAX 0) (mkConfirmationHeightInfo 1 2) (mkQualifiedRoot 3 4) [byte_of 9] _ _ _ _ _));
  repeat split; by vm_compute.
Defined.

(** ** Weights *)

(** Moving weight between representatives is exact: the update of both
    entries gives each representative its old weight plus its amounts modulo
    2^128, also when the two are the same, leaves the others alone, never
    panics, and keeps the table free of zeros and the cache equal to the
    table's entries of at least the minimum weight. *)
Theorem representation_add_dual_exact `{LmdbEngine} min_weight s r1 a1 r2 a2 :
  rep_weights_ok min_weight s ->
  exists s', representation_add_dual min_weight s r1 a1 r2 a2 = Some s' /\
    (forall r, weight_of (st_rep_weight s') r =
       if (r =? r1) || (r =? r2) then
         wrap 128 (weight_of (st_rep_weight s) r + (if r =? r1 then a1 else 0) + (if r =? r2 then a2 else 0))
       else weight_of (st_rep_weight s) r) /\
    (forall r w, st_rep_weight s' !! r = Some w -> w <> 0) /\
    (forall r, st_weights s' !! r = cached min_weight (weight_of (st_rep_weight s') r)) /\
    set_weights (st_weights s) (set_rep_weight (st_rep_weight s) s') = s.
Proof.
  intros Hok. destruct (representation_add_dual_eq min_weight s r1 a1 r2 a2 Hok) as (t & w & E & [Hnz Hc] & Hw).
  eexists. split; [exact E|]. split_and!; [exact Hw|exact Hnz|exact Hc|by destruct s].
Qed.

Lemma representation_add_dual_exact_witness :
  exists s', representation_add_dual 0 open_ledger 200 (2 ^ 128 - 1000) 100 1000 = Some s' /\
    weight_of (st_rep_weight s') 200 = 0.
Proof.
  destruct (representation_add_dual_exact 0 open_ledger 200 (2 ^ 128 - 1000) 100 1000
    (li_rep_weights _ _ _ (lo_inv _ _ _ open_ok))) as (s' & E & Hw & _).
  exists s'. split; [exact E|]. rewrite Hw. by vm_compute.
Defined.

(** The search for a representative is right and ends: walking down from
    the head of any account, within as many turns as the head is high, it
    finds the block that set the representative recorded for the account. *)
Theorem find_rep_block_correct c min_weight s a i :
  ledger_inv c min_weight s -> st_account s !! a = Some i ->
  exists h (b : SavedBlock), find_rep_block s (ai_head i) = Some h /\ st_block s !! h = Some b /\
    representative_field b = Some (ai_representative i).
Proof.
  intros Hinv Hi. eapply find_rep_block_ok; [apply Hinv|]. by apply (ac_rep _ _ (li_accounts _ _ _ Hinv) _ _ Hi).
Qed.

Definition opened_info : AccountInfo := default account_info_default (st_account open_ledger !! 200).

Lemma find_rep_block_correct_witness :
  exists h (b : SavedBlock), find_rep_block open_ledger (ai_head opened_info) = Some h /\
    st_block open_ledger !! h = Some b /\ representative_field b = Some (ai_representative opened_info).
Proof.
  apply (find_rep_block_correct sample_constants 0 open_ledger 200 opened_info (lo_inv _ _ _ open_ok)). by vm_compute.
Defined.

(** ** Work *)

(** The work check at the entrance of the block processor is a pre-filter
    of the ledger's: for a block of a released epoch, whatever passes the
    ledger's threshold for its kind passes the entry threshold of its block
    type. *)
Theorem entry_work_is_prefilter w b d :
  built w -> (bd_epoch d = Epoch0 \/ bd_epoch d = Epoch1 \/ bd_epoch d = Epoch2) ->
  (is_legacy b = true -> bd_epoch d = Epoch0) ->
  is_valid_pow w b d = true -> validate_entry_block w b = true.
Proof. apply valid_pow_passes_entry. Qed.

Lemma entry_work_is_prefilter_witness :
  validate_entry_block (with_difficulty (fun _ _ => 50) 10 20 5) sample_send = true.
Proof.
  apply (entry_work_is_prefilter (with_difficulty (fun _ _ => 50) 10 20 5) sample_send
    (mkBlockDetails Epoch2 true false false)).
  - by eexists _, _, _, _.
  - right. right. reflexivity.
  - done.
  - by vm_compute.
Defined.

(** ** Receivable entries *)

#[global] Instance pending_entry_le_trans : Transitive pending_entry_le.
Proof.
  intros [[a1 h1] p1] [[a2 h2] p2] [[a3 h3] p3]. unfold pending_entry_le, pending_key_ltb. cbn.
  rewrite !orb_false_iff, !andb_false_iff, !Z.ltb_ge, !Z.eqb_neq. lia.
Qed.

#[global] Instance pending_entry_le_total : Total pending_entry_le.
Proof.
  intros [[a1 h1] p1] [[a2 h2] p2]. unfold pending_entry_le, pending_key_ltb. cbn.
  rewrite !orb_false_iff, !andb_false_iff, !Z.ltb_ge, !Z.eqb_neq. lia.
Qed.

(** In key order the entries of one account are a run. *)
Lemma take_account_run a l :
  StronglySorted pending_entry_le l -> Forall (fun e => a <= pk_receiving_account e.1) l ->
  take_account a l = filter (fun e => pk_receiving_account e.1 = a) l.
Proof.
  induction 1 as [|[[a1 h1] p1] l Hs IH Hle]; intros Ha; [done|]. apply Forall_cons in Ha as [Ha1 Ha]. cbn in Ha1.
  cbn [take_account pk_receiving_account fst]. destruct (Z.eqb_spec a1 a) as [->|Hne].
  - rewrite filter_cons_True by done. by rewrite IH.
  - rewrite filter_cons_False by done. symmetry. rewrite Forall_forall in Hle.
    destruct (filter _ l) as [|e k] eqn:E; [done|]. exfalso.
    assert (e ∈ filter (fun e => pk_receiving_account e.1 = a) l) as He by (rewrite E; by left).
    apply list_elem_of_filter in He as [He Hin]. specialize (Hle _ Hin). destruct e as [[a2 h2] p2].
    unfold pending_entry_le, pending_key_ltb in Hle. cbn in *. subst. revert Hle.
    rewrite orb_false_iff, Z.ltb_ge. lia.
Qed.

Lemma pending_range_account a h h' :
  u256_inc h = Some h' ->
  forall (e : PendingKey * PendingInfo),
    pk_receiving_account e.1 = a /\ pending_key_ltb e.1 (mkPendingKey a h') = false <->
    pk_receiving_account e.1 = a /\ h < pk_send_block_hash e.1.
Proof.
  unfold u256_inc. case_test; [|done]. intros [= <-] [[a1 h1] p1]. unfold pending_key_ltb. cbn.
  rewrite orb_false_iff, andb_false_iff, !Z.ltb_ge, Z.eqb_neq. lia.
Qed.

(** The receivable entries of an account are complete: the iterator over
    the pending table, started behind a given hash, yields exactly the entries
    of this account with a larger hash, each once and in key order, and stops
    at the next account. *)
Theorem account_receivable_complete s a h :
  h < u256_MAX ->
  account_receivable_upper_bound s a h
    ≡ₚ filter (fun e => pk_receiving_account e.1 = a /\ h < pk_send_block_hash e.1) (map_to_list (st_pending s)) /\
  StronglySorted pending_entry_le (account_receivable_upper_bound s a h).
Proof.
  intros Hh. assert (u256_inc h = Some (h + 1)) as Einc.
  { unfold u256_inc, u256_MAX in *. destruct (Z.ltb_spec (h + 1) (2 ^ 256)); [done|lia]. }
  unfold account_receivable_upper_bound, any_receivable_iterator. rewrite Einc. unfold pending_range.
  assert (StronglySorted pending_entry_le (pending_sorted s)) as Hs by (apply StronglySorted_merge_sort; apply _).
  rewrite take_account_run.
  - split; [|by apply sorted_filter, sorted_filter].
    rewrite list_filter_filter. rewrite (list_filter_iff _ _ _ (pending_range_account a h (h + 1) Einc)).
    unfold pending_sorted. by rewrite merge_sort_Permutation.
  - by apply sorted_filter.
  - apply Forall_forall. intros [[a1 h1] p1] [He _]%list_elem_of_filter. unfold pending_key_ltb in He. cbn in *.
    revert He. rewrite orb_false_iff, Z.ltb_ge. lia.
Qed.

Lemma account_receivable_complete_witness :
  account_receivable_upper_bound send_ledger 200 0
    ≡ₚ filter (fun e => pk_receiving_account e.1 = 200 /\ 0 < pk_send_block_hash e.1) (map_to_list (st_pending send_ledger)).
Proof. refine (proj1 (account_receivable_complete send_ledger 200 0 _)). by vm_compute. Defined.
