(* ===== verification/Votes.v ===== *)
(** * Votes (types/src/vote.rs, vote_timestamp.rs)

    A vote carries a 64-bit word with a millisecond timestamp in the upper 60
    bits and a duration exponent in the lower four, the key of the voter, a
    signature and up to 255 block hashes. The word of all ones marks a final
    vote. *)

From S2P Require Import Prelude Types.

(** ** VoteTimestamp *)

Abbreviation VoteTimestamp := Z (only parsing).
Abbreviation UnixMillisTimestamp := Z (only parsing).

Definition FINAL : VoteTimestamp := u64_max.
Definition DURATION_MAX : Z := 15.
Definition TIMESTAMP_MIN : UnixMillisTimestamp := 0x10.
Definition TIMESTAMP_MAX : UnixMillisTimestamp := 0xFFFFFFFFFFFFFFF0.
Definition TIMESTAMP_MASK : Z := 0xFFFFFFFFFFFFFFF0.

(** [VoteTimestamp::new]; its two [debug_assert]s are hypotheses where they
    matter. *)
Definition vote_timestamp_new (timestamp : UnixMillisTimestamp) (duration : Z) : VoteTimestamp :=
  Z.lor (Z.land timestamp TIMESTAMP_MASK) duration.

Definition duration_bits (t : VoteTimestamp) : Z := Z.land t (Z.lxor TIMESTAMP_MASK u64_max).

Definition vote_timestamp_is_final (t : VoteTimestamp) : bool := t =? FINAL.

Definition unix_timestamp (t : VoteTimestamp) : UnixMillisTimestamp :=
  if vote_timestamp_is_final t then t else Z.land t TIMESTAMP_MASK.

(** In milliseconds. *)
Definition vote_duration (t : VoteTimestamp) : Z := Z.shiftl 1 (duration_bits t + 4).

(** ** Vote *)

Inductive VoteSource := Live | Rebroadcast | Cache.
Inductive VoteError := VoteInvalid | Replay | VoteVote | Late | Indeterminate | Ignored.

#[global] Instance VoteSource_eq_dec : EqDecision VoteSource.
Proof. solve_decision. Defined.
#[global] Instance VoteError_eq_dec : EqDecision VoteError.
Proof. solve_decision. Defined.

Record Vote := mkVote {
  vote_ts : VoteTimestamp;
  vote_voter : PublicKey;
  vote_signature : Signature;
  vote_hashes : list BlockHash;
}.

#[global] Instance Vote_eq_dec : EqDecision Vote.
Proof. solve_decision. Defined.

Definition MAX_HASHES : nat := 255.

Definition vote_null : Vote := mkVote 0 0 0 [].

Definition vote_timestamp (v : Vote) : UnixMillisTimestamp := unix_timestamp (vote_ts v).
Definition vote_is_final (v : Vote) : bool := vote_timestamp_is_final (vote_ts v).

(** ["vote "] *)
Definition HASH_PREFIX : list byte := byte_of <$> [118; 111; 116; 101; 32].

(** [to_ne_bytes] on a little-endian target. *)
Definition vote_hash `{Crypto} (v : Vote) : BlockHash :=
  blake2_hash (HASH_PREFIX :: (u256_serialize <$> vote_hashes v) ++ [to_le_bytes 8 (vote_ts v)]).

Definition vote_validate `{Crypto} (v : Vote) : bool :=
  verify (vote_voter v) (u256_serialize (vote_hash v)) (vote_signature v).

(** [Vote::new] with a private key; [None] is the failed assertion. *)
Definition vote_new `{Crypto} (key : Z) (timestamp : UnixMillisTimestamp) (duration : Z)
    (hashes : list BlockHash) : option Vote :=
  if (length hashes <=? MAX_HASHES)%nat then
    let result := mkVote (vote_timestamp_new timestamp duration) (public_key key) 0 hashes in
    Some (mkVote (vote_ts result) (vote_voter result)
            (sign key (u256_serialize (vote_hash result))) (vote_hashes result))
  else None.

Definition vote_new_final `{Crypto} (key : Z) (hashes : list BlockHash) : option Vote :=
  if (length hashes <=? MAX_HASHES)%nat then vote_new key TIMESTAMP_MAX DURATION_MAX hashes else None.

Definition vote_serialize (v : Vote) : list byte :=
  u256_serialize (vote_voter v) ++ signature_serialize (vote_signature v) ++
  to_le_bytes 8 (vote_ts v) ++ concat (u256_serialize <$> vote_hashes v).

Definition vote_serialized_size (count : nat) : nat := 32 + 64 + 8 + 32 * count.

(** The loop that reads hashes until the slice is used up or there are
    [MAX_HASHES]; [n] is the number that may still be read. *)
Fixpoint read_vote_hashes (n : nat) (bytes : list byte)
    : result DeserializationError (list BlockHash * list byte) :=
  match n, bytes with
  | O, _ => Ok ([], bytes)
  | _, [] => Ok ([], [])
  | S n, _ :: _ =>
      match u256_deserialize bytes with
      | Err e => Err e
      | Ok (h, rest) =>
          match read_vote_hashes n rest with
          | Err e => Err e
          | Ok (hashes, rest') => Ok (h :: hashes, rest')
          end
      end
  end.

(** [Vote::deserialize]; bytes behind the 255th hash are ignored. *)
Definition vote_deserialize (bytes : list byte) : result DeserializationError Vote :=
  r ← (voter ← u256_deserialize;
       signature ← signature_deserialize;
       timestamp ← read_u64_le;
       mret (voter, signature, timestamp)) bytes;
  let '((voter, signature, timestamp), rest) := r in
  h ← read_vote_hashes MAX_HASHES rest;
  Ok (mkVote timestamp voter signature h.1).

Definition wf_vote (v : Vote) : Prop :=
  wf_u64 (vote_ts v) /\ wf_u256 (vote_voter v) /\ wf_signature (vote_signature v) /\
  Forall wf_u256 (vote_hashes v) /\ (length (vote_hashes v) <= MAX_HASHES)%nat.

(** ** Properties *)

Lemma length_vote_serialize v :
  length (vote_serialize v) = vote_serialized_size (length (vote_hashes v)).
Proof.
  unfold vote_serialize, vote_serialized_size.
  rewrite !length_app, length_u256_serialize, length_signature_serialize, length_to_le_bytes.
  assert (length (concat (u256_serialize <$> vote_hashes v)) = 32 * length (vote_hashes v))%nat as ->; [|lia].
  induction (vote_hashes v) as [|h l IH]; [done|]. rewrite fmap_cons. cbn [concat length].
  rewrite length_app, length_u256_serialize. lia.
Qed.

Lemma read_vote_hashes_serialized n hashes :
  (length hashes <= n)%nat -> Forall wf_u256 hashes ->
  read_vote_hashes n (concat (u256_serialize <$> hashes)) = Ok (hashes, []).
Proof.
  revert n. induction hashes as [|h l IH]; intros n Hn Hf; [by destruct n|].
  apply Forall_cons in Hf as [Hh Hf]. destruct n as [|n]; cbn in Hn; [lia|]. rewrite fmap_cons. cbn [concat].
  pose proof (length_u256_serialize h) as Hlen. pose proof (decodes_u256 h Hh) as Hd.
  destruct (u256_serialize h) as [|x xs] eqn:E; [done|]. cbn [read_vote_hashes app].
  rewrite app_comm_cons.
  rewrite Hd, IH by (lia || done). done.
Qed.

Lemma vote_deserialize_serialize v : wf_vote v -> vote_deserialize (vote_serialize v) = Ok v.
Proof.
  intros (Ht & Hv & Hs & Hh & Hl). unfold vote_deserialize, vote_serialize.
  assert (decodes (voter ← u256_deserialize; signature ← signature_deserialize; timestamp ← read_u64_le;
    mret (voter, signature, timestamp)) (u256_serialize (vote_voter v) ++ signature_serialize (vote_signature v) ++
    to_le_bytes 8 (vote_ts v)) (vote_voter v, vote_signature v, vote_ts v)) as Hd.
  { decode_all. }
  specialize (Hd (concat (u256_serialize <$> vote_hashes v))). rewrite <- !(assoc_L (++)) in Hd. rewrite Hd.
  cbn [mbind result_bind]. rewrite read_vote_hashes_serialized by done. by destruct v.
Qed.

(** The parts of a timestamp word. *)
Lemma mask_split t : in_u 64 t -> Z.land t TIMESTAMP_MASK = t - t mod 16.
Proof.
  intros Ht. assert (Z.land t TIMESTAMP_MASK = Z.shiftl (Z.shiftr t 4) 4) as ->.
  { apply Z.bits_inj'. intros n Hn. rewrite Z.land_spec, Z.shiftl_spec by done.
    change TIMESTAMP_MASK with (Z.shiftl (Z.ones 60) 4). rewrite Z.shiftl_spec by done.
    destruct (Z.lt_ge_cases n 4) as [Hlt|Hge].
    - rewrite !(Z.testbit_neg_r _ (n - 4)) by lia. by rewrite andb_false_r.
    - rewrite Z.shiftr_spec by lia. replace (n - 4 + 4) with n by lia.
      destruct (Z.lt_ge_cases n 64).
      + rewrite Z.ones_spec_low by lia. by rewrite andb_true_r.
      + rewrite Z.ones_spec_high by lia. rewrite andb_false_r. symmetry. unfold in_u in Ht.
        destruct (decide (t = 0)) as [->|]; [by rewrite Z.testbit_0_l|].
        apply Z.bits_above_log2; [lia|]. apply Z.log2_lt_pow2; [lia|].
        assert (2 ^ 64 <= 2 ^ n) by (apply Z.pow_le_mono_r; lia). lia. }
  rewrite Z.shiftl_mul_pow2, Z.shiftr_div_pow2 by lia. change (2 ^ 4) with 16. pose proof (Z.div_mod t 16). lia.
Qed.

Lemma duration_bits_mod t : duration_bits t = t mod 16.
Proof. unfold duration_bits. change (Z.lxor TIMESTAMP_MASK u64_max) with (Z.ones 4). by rewrite Z.land_ones. Qed.

Lemma vote_timestamp_new_eq t d :
  in_u 64 t -> 0 <= d < 16 -> vote_timestamp_new t d = t - t mod 16 + d.
Proof.
  intros Ht Hd. unfold vote_timestamp_new. rewrite mask_split by done.
  replace (t - t mod 16) with (Z.shiftl (t / 16) 4)
    by (rewrite Z.shiftl_mul_pow2 by lia; pose proof (Z.div_mod t 16); lia).
  rewrite <- Z.add_nocarry_lor; [done|]. apply Z.bits_inj'. intros n Hn. rewrite Z.land_spec, Z.bits_0.
  destruct (Z.lt_ge_cases n 4).
  - rewrite Z.shiftl_spec_low by lia. done.
  - replace (Z.testbit d n) with false; [apply andb_false_r|]. symmetry.
    destruct (decide (d = 0)) as [->|]; [by rewrite Z.testbit_0_l|].
    apply Z.bits_above_log2; [lia|]. assert (Z.log2 d < 4) by (apply Z.log2_lt_pow2; lia). lia.
Qed.

(** Timestamp words keep both parts: building a word from a time and a
    duration and reading it back gives the time rounded down to 16 ms and the
    duration, unless the word is the final one; and the final word is built
    from exactly one pair, the largest time with the largest duration. *)
Theorem vote_timestamp_parts t d :
  in_u 64 t -> 0 <= d <= DURATION_MAX ->
  let w := vote_timestamp_new t d in
  in_u 64 w /\ duration_bits w = d /\
  (vote_timestamp_is_final w = true <-> t - t mod 16 = TIMESTAMP_MAX /\ d = DURATION_MAX) /\
  unix_timestamp w = if vote_timestamp_is_final w then u64_max else t - t mod 16.
Proof.
  intros Ht Hd w. unfold DURATION_MAX in *.
  assert (w = t - t mod 16 + d) as Ew by (apply vote_timestamp_new_eq; [done|lia]).
  pose proof (Z.div_mod t 16). pose proof (Z.mod_pos_bound t 16). unfold in_u in Ht.
  assert (w mod 16 = d) as Em.
  { rewrite Ew. symmetry. apply (Z.mod_unique_pos _ _ (t / 16)); lia. }
  assert (in_u 64 w) as Hw by (unfold in_u; lia).
  split_and!; [done|by rewrite duration_bits_mod| |].
  - unfold vote_timestamp_is_final, FINAL, TIMESTAMP_MAX, u64_max. rewrite Z.eqb_eq. lia.
  - unfold unix_timestamp, vote_timestamp_is_final, FINAL. destruct (Z.eqb_spec w u64_max) as [->|]; [done|].
    rewrite mask_split by done. lia.
Qed.

Lemma vote_timestamp_parts_witness : duration_bits (vote_timestamp_new 0x123f 15) = 15.
Proof. refine (proj1 (proj2 (vote_timestamp_parts 0x123f 15 _ _))); by vm_compute. Defined.

(** Votes survive the wire: a vote that was built is read back from its
    serialized form unchanged, its signature is accepted, its size is as
    announced, and it is final exactly when it was built as a final vote or
    with the largest time and duration. *)
Theorem vote_roundtrip `{Crypto} `{!CryptoLaws _} key t d hashes v :
  in_u 64 t -> 0 <= d <= DURATION_MAX -> Forall wf_u256 hashes -> wf_u256 (public_key key) ->
  (forall m, wf_signature (sign key m)) ->
  vote_new key t d hashes = Some v ->
  vote_deserialize (vote_serialize v) = Ok v /\ vote_validate v = true /\
  length (vote_serialize v) = vote_serialized_size (length hashes) /\
  (vote_is_final v = true <-> t - t mod 16 = TIMESTAMP_MAX /\ d = DURATION_MAX).
Proof.
  intros Ht Hd Hh Hk Hs. unfold vote_new. destruct (Nat.leb_spec (length hashes) MAX_HASHES) as [Hl|]; [|done].
  intros [= <-]. unfold DURATION_MAX in *.
  pose proof (vote_timestamp_new_eq t d Ht ltac:(lia)) as Ew.
  pose proof (Z.div_mod t 16). pose proof (Z.mod_pos_bound t 16). unfold in_u in Ht.
  split_and!.
  - apply vote_deserialize_serialize. split_and!; cbn; try done. unfold wf_u64, in_u. lia.
  - apply verify_sign.
  - by rewrite length_vote_serialize.
  - unfold vote_is_final, vote_timestamp_is_final, FINAL, TIMESTAMP_MAX, u64_max. cbn. rewrite Z.eqb_eq. lia.
Qed.

Definition sample_vote : Vote := default vote_null (@vote_new_final model_crypto 42 [5; 6]).

Lemma vote_roundtrip_witness : vote_deserialize (vote_serialize sample_vote) = Ok sample_vote.
Proof.
  apply (@vote_roundtrip model_crypto model_crypto_laws 42 TIMESTAMP_MAX DURATION_MAX [5; 6] sample_vote).
  - by vm_compute.
  - by vm_compute.
  - repeat constructor; by vm_compute.
  - by vm_compute.
  - intros m. apply wrap_in_u. lia.
  - by vm_compute.
Defined.
