(* ===== verification/Election.v ===== *)
(** * Elections (node/src/consensus/election)

    An election decides between up to ten blocks with the same qualified root.
    [Election] is the record of the source, its methods are functions that
    return the new record; a panic is [None]. A [HashMap] is a [gmap]; where
    the code iterates over one, the order is that of [hash_iter], which lists
    every entry once and is otherwise unknown. Times are nanoseconds: a
    [Timestamp] is the [i128] of nullables/clock, a [Duration] its length. *)

From S2P Require Import Prelude Types Blocks Votes.

(** ** Iteration over hash maps *)

Class HashOrder := hash_iter : forall {K V} `{Countable K}, gmap K V -> list (K * V).
Class HashOrderLaws (O : HashOrder) :=
  hash_iter_perm : forall {K V} `{Countable K} (m : gmap K V), hash_iter m ≡ₚ map_to_list m.

Definition trie_order : HashOrder := fun K V _ _ m => map_to_list m.

Lemma trie_order_laws : HashOrderLaws trie_order.
Proof. by intros K V ? ? m. Qed.

(** ** Times (nullables/clock/src/steady_clock.rs) *)

Abbreviation Timestamp := Z (only parsing).
Abbreviation Duration := Z (only parsing).

Definition secs (n : Z) : Duration := n * 10 ^ 9.

(** [checked_sub] on [i128], then [as u64] *)
Definition elapsed (t now : Timestamp) : Duration :=
  let d := now - t in
  wrap 64 (if (- 2 ^ 127 <=? d) && (d <? 2 ^ 127) then d else 0).

(** ** election_state.rs *)

Inductive ElectionState :=
  | Passive | Active | Confirmed | ExpiredConfirmed | ExpiredUnconfirmed | Cancelled.

#[global] Instance ElectionState_eq_dec : EqDecision ElectionState.
Proof. solve_decision. Defined.

Definition state_is_confirmed (s : ElectionState) : bool :=
  match s with Confirmed | ExpiredConfirmed => true | _ => false end.

Definition has_ended (s : ElectionState) : bool :=
  match s with Confirmed | Cancelled | ExpiredConfirmed | ExpiredUnconfirmed => true | _ => false end.

(** ** VoteSummary (election.rs) *)

Record VoteSummary := mkVoteSummary {
  vs_voter : PublicKey;
  vs_vote_created : UnixMillisTimestamp;
  vs_vote_received : Timestamp;
  vs_hash : BlockHash;
  vs_weight : Amount;
}.

Definition vote_summary_new (voter : PublicKey) (hash : BlockHash) (created : UnixMillisTimestamp)
    (received : Timestamp) : VoteSummary :=
  mkVoteSummary voter created received hash amount_ZERO.

Definition is_final_vote (v : VoteSummary) : bool := vs_vote_created v =? u64_max.

Definition ensure_no_replay (v : VoteSummary) (new_vote : Vote) (block_hash : BlockHash)
    : result VoteError unit :=
  if vote_timestamp new_vote <? vs_vote_created v then Err Replay
  else if (vs_vote_created v =? vote_timestamp new_vote) && (block_hash <=? vs_hash v) then Err Replay
  else Ok tt.

Definition has_switched_to_final_vote (v : VoteSummary) (new_vote : Vote) : bool :=
  vote_is_final new_vote && (vs_vote_created v <? vote_timestamp new_vote).

(** ** BlockTallies (block_tallies.rs)

    The used part of the array, with the largest tally first. *)

Definition MAX_BLOCKS : nat := 10.

Abbreviation BlockTallies := (list (BlockHash * Amount)) (only parsing).

Definition tallies_winner (t : BlockTallies) : option (BlockHash * Amount) := hd_error t.
Definition tallies_lowest (t : BlockTallies) : option (BlockHash * Amount) := last t.

Definition tallies_get (t : BlockTallies) (hash : BlockHash) : Amount :=
  default amount_ZERO (snd <$> find (fun p => p.1 =? hash) t).

Definition tallies_contains (t : BlockTallies) (hash : BlockHash) : bool :=
  existsb (fun p => p.1 =? hash) t.

Definition tallies_sum (t : BlockTallies) : Amount := amount_sum t.*2.

(** Rotating the tail by one drops the entry at the found index. *)
Fixpoint tallies_remove (t : BlockTallies) (hash : BlockHash) : BlockTallies :=
  match t with
  | [] => []
  | p :: t => if p.1 =? hash then t else p :: tallies_remove t hash
  end.

Definition check_quorum (t : BlockTallies) (quorum_delta : Amount) : bool :=
  let first := default amount_ZERO (t.*2 !! 0%nat) in
  let second := default amount_ZERO (t.*2 !! 1%nat) in
  quorum_delta <=? amount_sub first second.

Definition insert_unsorted (t : BlockTallies) (hash : BlockHash) (tally : Amount) : option BlockTallies :=
  if (length t =? MAX_BLOCKS)%nat then None else Some (t ++ [(hash, tally)]).

(** [slice::sort_by] is stable: an entry stays in front of later ones with the
    same tally. *)
Fixpoint insert_descending (p : BlockHash * Amount) (t : BlockTallies) : BlockTallies :=
  match t with
  | [] => [p]
  | q :: t => if p.2 <? q.2 then q :: insert_descending p t else p :: q :: t
  end.
Definition sort_by_descending_tally (t : BlockTallies) : BlockTallies := foldr insert_descending [] t.

Definition tallies_insert (t : BlockTallies) (hash : BlockHash) (tally : Amount) : option BlockTallies :=
  t' ← insert_unsorted t hash tally; Some (sort_by_descending_tally t').

(** The tally of [hash] grows in place. *)
Fixpoint tallies_add (t : BlockTallies) (hash : BlockHash) (weight : Amount) : option BlockTallies :=
  match t with
  | [] => None
  | (h, a) :: t => if h =? hash then Some ((h, amount_add a weight) :: t)
                   else t' ← tallies_add t hash weight; Some ((h, a) :: t')
  end.

Definition count_vote (t : BlockTallies) (v : VoteSummary) : option BlockTallies :=
  match tallies_add t (vs_hash v) (vs_weight v) with
  | Some t' => Some t'
  | None => insert_unsorted t (vs_hash v) (vs_weight v)
  end.

Fixpoint count_votes (t : BlockTallies) (votes : list VoteSummary) : option BlockTallies :=
  match votes with
  | [] => Some t
  | v :: votes => t' ← count_vote t v; count_votes t' votes
  end.

Definition calculate (votes : list VoteSummary) : option BlockTallies :=
  t ← count_votes [] votes; Some (sort_by_descending_tally t).

(** ** Election *)

Inductive ElectionBehavior := Manual | Priority | Hinted | Optimistic.
Inductive VoteType := NonFinal | Final.

#[global] Instance ElectionBehavior_eq_dec : EqDecision ElectionBehavior.
Proof. solve_decision. Defined.
#[global] Instance VoteType_eq_dec : EqDecision VoteType.
Proof. solve_decision. Defined.

Definition time_to_live (b : ElectionBehavior) : Duration :=
  match b with Manual | Priority => secs (60 * 5) | Hinted | Optimistic => secs 30 end.

Inductive MaybeSavedBlock := Saved (b : SavedBlock) | Unsaved (b : Block).

(** [Deref for MaybeSavedBlock] *)
Definition maybe_block (m : MaybeSavedBlock) : Block :=
  match m with Saved b => sv_block b | Unsaved b => b end.
Coercion maybe_block : MaybeSavedBlock >-> Block.

Record Election := mkElection {
  el_qualified_root : QualifiedRoot;
  el_winner : MaybeSavedBlock;
  el_state : ElectionState;
  el_candidate_blocks : gmap BlockHash MaybeSavedBlock;
  el_votes : gmap PublicKey VoteSummary;
  el_winner_tally : Amount;
  el_winner_final_tally : Amount;
  el_tallies : BlockTallies;
  el_final_tallies : BlockTallies;
  el_behavior : ElectionBehavior;
  el_has_quorum : bool;
  el_start : Timestamp;
  el_base_latency : Duration;
  el_account : Account;
  el_last_final_vote : option Timestamp;
  el_last_non_final_vote : option Timestamp;
  el_last_voted_winner : BlockHash;
}.

(** *** Field updates *)

Definition el_set_state (x : ElectionState) (e : Election) : Election :=
  mkElection (el_qualified_root e) (el_winner e) x (el_candidate_blocks e) (el_votes e)
    (el_winner_tally e) (el_winner_final_tally e) (el_tallies e) (el_final_tallies e)
    (el_behavior e) (el_has_quorum e) (el_start e) (el_base_latency e) (el_account e)
    (el_last_final_vote e) (el_last_non_final_vote e) (el_last_voted_winner e).
Definition el_set_winner (x : MaybeSavedBlock) (e : Election) : Election :=
  mkElection (el_qualified_root e) x (el_state e) (el_candidate_blocks e) (el_votes e)
    (el_winner_tally e) (el_winner_final_tally e) (el_tallies e) (el_final_tallies e)
    (el_behavior e) (el_has_quorum e) (el_start e) (el_base_latency e) (el_account e)
    (el_last_final_vote e) (el_last_non_final_vote e) (el_last_voted_winner e).
Definition el_set_candidates (x : gmap BlockHash MaybeSavedBlock) (e : Election) : Election :=
  mkElection (el_qualified_root e) (el_winner e) (el_state e) x (el_votes e) (el_winner_tally e)
    (el_winner_final_tally e) (el_tallies e) (el_final_tallies e) (el_behavior e)
    (el_has_quorum e) (el_start e) (el_base_latency e) (el_account e) (el_last_final_vote e)
    (el_last_non_final_vote e) (el_last_voted_winner e).
Definition el_set_votes (x : gmap PublicKey VoteSummary) (e : Election) : Election :=
  mkElection (el_qualified_root e) (el_winner e) (el_state e) (el_candidate_blocks e) x
    (el_winner_tally e) (el_winner_final_tally e) (el_tallies e) (el_final_tallies e)
    (el_behavior e) (el_has_quorum e) (el_start e) (el_base_latency e) (el_account e)
    (el_last_final_vote e) (el_last_non_final_vote e) (el_last_voted_winner e).
Definition el_set_tallies (t f : BlockTallies) (e : Election) : Election :=
  mkElection (el_qualified_root e) (el_winner e) (el_state e) (el_candidate_blocks e) (el_votes e)
    (el_winner_tally e) (el_winner_final_tally e) t f (el_behavior e) (el_has_quorum e)
    (el_start e) (el_base_latency e) (el_account e) (el_last_final_vote e)
    (el_last_non_final_vote e) (el_last_voted_winner e).
Definition el_set_winner_tally (t f : Amount) (e : Election) : Election :=
  mkElection (el_qualified_root e) (el_winner e) (el_state e) (el_candidate_blocks e) (el_votes e)
    t f (el_tallies e) (el_final_tallies e) (el_behavior e) (el_has_quorum e) (el_start e)
    (el_base_latency e) (el_account e) (el_last_final_vote e) (el_last_non_final_vote e)
    (el_last_voted_winner e).
Definition el_set_behavior (x : ElectionBehavior) (e : Election) : Election :=
  mkElection (el_qualified_root e) (el_winner e) (el_state e) (el_candidate_blocks e) (el_votes e)
    (el_winner_tally e) (el_winner_final_tally e) (el_tallies e) (el_final_tallies e) x
    (el_has_quorum e) (el_start e) (el_base_latency e) (el_account e) (el_last_final_vote e)
    (el_last_non_final_vote e) (el_last_voted_winner e).
Definition el_set_quorum (x : bool) (e : Election) : Election :=
  mkElection (el_qualified_root e) (el_winner e) (el_state e) (el_candidate_blocks e) (el_votes e)
    (el_winner_tally e) (el_winner_final_tally e) (el_tallies e) (el_final_tallies e)
    (el_behavior e) x (el_start e) (el_base_latency e) (el_account e) (el_last_final_vote e)
    (el_last_non_final_vote e) (el_last_voted_winner e).
Definition el_set_voted (f n : option Timestamp) (w : BlockHash) (e : Election) : Election :=
  mkElection (el_qualified_root e) (el_winner e) (el_state e) (el_candidate_blocks e) (el_votes e)
    (el_winner_tally e) (el_winner_final_tally e) (el_tallies e) (el_final_tallies e)
    (el_behavior e) (el_has_quorum e) (el_start e) (el_base_latency e) (el_account e) f n w.

(** *** Methods *)

Definition election_new (block : SavedBlock) (behavior : ElectionBehavior) (base_latency : Duration)
    (now : Timestamp) : Election :=
  mkElection (qualified_root block) (Saved block) Passive {[ block_hash block := Saved block ]} ∅
    amount_ZERO amount_ZERO [] [] behavior false now base_latency (sv_account block) None None u256_ZERO.

Definition contains_block (e : Election) (hash : BlockHash) : bool :=
  bool_decide (is_Some (el_candidate_blocks e !! hash)).

Definition has_max_blocks (e : Election) : bool :=
  (MAX_BLOCKS <=? size (el_candidate_blocks e))%nat.

Definition add_vote (e : Election) (voter : PublicKey) (hash : BlockHash)
    (vote_created : UnixMillisTimestamp) (vote_received : Timestamp) : Election :=
  el_set_votes (<[voter := vote_summary_new voter hash vote_created vote_received]> (el_votes e)) e.

Definition remove_vote (e : Election) (voter : PublicKey) : Election :=
  el_set_votes (delete voter (el_votes e)) e.

Definition election_is_confirmed (e : Election) : bool := state_is_confirmed (el_state e).

Definition is_final (e : Election) : bool := election_is_confirmed e || el_has_quorum e.

Definition vote_type (e : Election) : VoteType := if is_final e then Final else NonFinal.

Definition voted (e : Election) (t : VoteType) (timestamp : Timestamp) : Election :=
  match t with
  | NonFinal => el_set_voted (el_last_final_vote e) (Some timestamp) (block_hash (el_winner e)) e
  | Final => el_set_voted (Some timestamp) (el_last_non_final_vote e) (block_hash (el_winner e)) e
  end.

Definition can_vote (e : Election) (broadcast_interval : Duration) (now : Timestamp) : bool :=
  if negb (el_last_voted_winner e =? block_hash (el_winner e)) then true else
  match (match vote_type e with
         | NonFinal => el_last_non_final_vote e
         | Final => el_last_final_vote e
         end) with
  | Some last => last + broadcast_interval <=? now
  | None => true
  end.

Definition PASSIVE_DURATION_FACTOR : Z := 5.

Definition transition_time (e : Election) (now : Timestamp) : Election :=
  let duration := elapsed (el_start e) now in
  let e1 := match el_state e with
            | Passive => if el_base_latency e * PASSIVE_DURATION_FACTOR <? duration
                         then el_set_state Active e else e
            | Confirmed => el_set_state ExpiredConfirmed e
            | _ => e
            end in
  if negb (has_ended (el_state e1)) && (time_to_live (el_behavior e1) <? duration)
  then el_set_state ExpiredUnconfirmed e1 else e1.

Definition transition_active (e : Election) : Election :=
  if bool_decide (el_state e = Passive) then el_set_state Active e else e.

Definition cancel (e : Election) : Election :=
  if negb (has_ended (el_state e)) then el_set_state Cancelled e else e.

Definition force_confirm (e : Election) : bool * Election :=
  if negb (has_ended (el_state e)) then (true, el_set_state Confirmed e) else (false, e).

Definition maybe_upgrade_to (e : Election) (new_behavior : ElectionBehavior) : bool * Election :=
  if negb (bool_decide (new_behavior = Priority)) then (false, e)
  else match el_behavior e with
       | Priority | Manual => (false, e)
       | _ => (true, el_set_behavior Priority e)
       end.

(** *** Tallies and confirmation *)

Section tallies.
Context `{HashOrder}.

Definition update_vote_weights (e : Election) (rep_weights : gmap PublicKey Amount) : Election :=
  el_set_votes
    ((fun v => mkVoteSummary (vs_voter v) (vs_vote_created v) (vs_vote_received v) (vs_hash v)
                 (default amount_ZERO (rep_weights !! vs_voter v))) <$> el_votes e) e.

Definition recalculate_tallies (e : Election) : option Election :=
  t ← calculate (hash_iter (el_votes e)).*2;
  f ← calculate (filter (fun v => is_final_vote v = true) (hash_iter (el_votes e)).*2);
  Some (el_set_tallies t f e).

Definition check_new_winner (e : Election) (quorum_delta : Amount) : option BlockHash :=
  if tallies_sum (el_tallies e) <? quorum_delta then None else
  let old_winner := block_hash (el_winner e) in
  let new_winner := default old_winner (fst <$> tallies_winner (el_tallies e)) in
  if negb (new_winner =? old_winner) then Some new_winner else None.

Definition change_winner_to (e : Election) (new_winner : BlockHash) : option Election :=
  b ← el_candidate_blocks e !! new_winner; Some (el_set_winner b e).

Definition update_winner_tally (e : Election) : Election :=
  let winner_hash := block_hash (el_winner e) in
  el_set_winner_tally (tallies_get (el_tallies e) winner_hash)
    (tallies_get (el_final_tallies e) winner_hash) e.

Definition try_set_quorum (e : Election) (quorum_delta : Amount) : Election :=
  if check_quorum (el_tallies e) quorum_delta then el_set_quorum true e else e.

Definition try_confirm (e : Election) (quorum_delta : Amount) : Election :=
  if quorum_delta <=? el_winner_final_tally e then el_set_state Confirmed e else e.

Definition update_tallies (e : Election) (rep_weights : gmap PublicKey Amount) (quorum_delta : Amount)
    : option Election :=
  if has_ended (el_state e) then Some e else
  e1 ← recalculate_tallies (update_vote_weights e rep_weights);
  e2 ← (match check_new_winner e1 quorum_delta with
        | Some new_winner => change_winner_to e1 new_winner
        | None => Some e1
        end);
  Some (try_confirm (try_set_quorum (update_winner_tally e2) quorum_delta) quorum_delta).

(** *** Forks *)

Definition remove_block (e : Election) (hash : BlockHash) : option MaybeSavedBlock * Election :=
  if negb (block_hash (el_winner e) =? hash) then
    match el_candidate_blocks e !! hash with
    | Some existing =>
        (Some existing,
         el_set_tallies (tallies_remove (el_tallies e) hash) (tallies_remove (el_final_tallies e) hash)
           (el_set_votes (filter (fun p => vs_hash p.2 ≠ hash) (el_votes e))
              (el_set_candidates (delete hash (el_candidate_blocks e)) e)))
    | None => (None, e)
    end
  else (None, e).

(** The candidate to drop; zero stands for none. The two [unwrap]s are on the
    lowest and the second lowest tally. *)
Definition block_to_remove (e : Election) (min_tally : Amount) : option BlockHash :=
  let winner_hash := block_hash (el_winner e) in
  let without_tally :=
    if (length (el_tallies e) <? MAX_BLOCKS)%nat then
      default u256_ZERO
        (fst <$> find (fun p : BlockHash * MaybeSavedBlock =>
                         negb (tallies_contains (el_tallies e) p.1) && negb (p.1 =? winner_hash))
                  (hash_iter (el_candidate_blocks e)))
    else u256_ZERO in
  if u256_is_zero without_tally then
    lowest ← tallies_lowest (el_tallies e);
    if lowest.2 <? min_tally then
      if negb (lowest.1 =? winner_hash) then Some lowest.1
      else
        second_lowest ← rev (el_tallies e) !! 1%nat;
        Some (if second_lowest.2 <? min_tally then second_lowest.1 else without_tally)
    else Some without_tally
  else Some without_tally.

Definition remove_tally_below (e : Election) (min_tally : Amount)
    : option (option MaybeSavedBlock * Election) :=
  if amount_is_zero min_tally then Some (None, e) else
  hash ← block_to_remove e min_tally;
  Some (if negb (u256_is_zero hash) then remove_block e hash else (None, e)).

Inductive AddForkResult := Added | Replaced (b : MaybeSavedBlock) | TallyTooLow | Duplicate | ElectionEnded.

Definition insert_fork (e : Election) (fork : Block) (fork_tally : Amount) : option Election :=
  t ← tallies_insert (el_tallies e) (block_hash fork) fork_tally;
  Some (el_set_candidates (<[block_hash fork := Unsaved fork]> (el_candidate_blocks e))
          (el_set_tallies t (el_final_tallies e) e)).

Definition try_add_fork (e : Election) (fork : Block) (fork_tally : Amount)
    : option (AddForkResult * Election) :=
  if has_ended (el_state e) then Some (ElectionEnded, e)
  else if contains_block e (block_hash fork) then Some (Duplicate, e)
  else if has_max_blocks e then
    r ← remove_tally_below e fork_tally;
    match r with
    | (None, e1) => Some (TallyTooLow, e1)
    | (Some removed, e1) => e2 ← insert_fork e1 fork fork_tally; Some (Replaced removed, e2)
    end
  else e1 ← insert_fork e fork fork_tally; Some (Added, e1).
End tallies.
