(* ===== verification/ElectionSafe.v ===== *)
(** * Properties of elections

    The tallies are exact, no operation panics while the invariant
    [election_ok] holds, every operation keeps it, and an election that has
    ended never changes its winner. *)

From S2P Require Import Prelude Types Blocks Votes Election.

(** ** Lists of distinct keys *)

Lemma NoDup_in_map_size {K V} `{Countable K} (m : gmap K V) (l : list K) :
  NoDup l -> (forall k, k ∈ l -> is_Some (m !! k)) -> (length l <= size m)%nat.
Proof.
  intros Hnd Hin. rewrite <- length_map_to_list, <- (length_fmap fst (map_to_list m)).
  apply submseteq_length, NoDup_submseteq; [done|]. intros k Hk. destruct (Hin k Hk) as [v Hv].
  apply list_elem_of_fmap. exists (k, v). split; [done|]. by apply elem_of_map_to_list.
Qed.

(** ** Tallies *)

Definition tally_of (h : BlockHash) (votes : list VoteSummary) : Z :=
  zsum ((fun v => if vs_hash v =? h then vs_weight v else 0) <$> votes).

Lemma tallies_get_cons h a t x :
  tallies_get ((h, a) :: t) x = if h =? x then a else tallies_get t x.
Proof. unfold tallies_get. cbn. by destruct (h =? x). Qed.

#[local] Arguments tallies_get : simpl never.

Lemma tallies_get_absent t h : h ∉ t.*1 -> tallies_get t h = 0.
Proof.
  induction t as [|[k a] t IH]; [done|]. cbn. intros [Hne Hn]%not_elem_of_cons.
  rewrite tallies_get_cons. case_test; [congruence|]. by apply IH.
Qed.

Lemma tallies_get_app t h a x :
  h ∉ t.*1 -> tallies_get (t ++ [(h, a)]) x = if h =? x then a else tallies_get t x.
Proof.
  induction t as [|[k b] t IH]; cbn; [intros; by rewrite tallies_get_cons|].
  intros [Hne Hn]%not_elem_of_cons. rewrite !tallies_get_cons, IH by done.
  repeat case_test; congruence.
Qed.

Lemma tallies_get_elem t h a : NoDup t.*1 -> (h, a) ∈ t -> tallies_get t h = a.
Proof.
  induction t as [|[k b] t IH]; cbn; [by intros _ ?%elem_of_nil|].
  intros [Hk Hnd]%NoDup_cons Hin. rewrite tallies_get_cons.
  apply elem_of_cons in Hin as [[= -> ->]|Hin]; [by rewrite Z.eqb_refl|].
  case_test; [subst; destruct Hk; apply list_elem_of_fmap; by exists (h, a)|]. by apply IH.
Qed.

Lemma tallies_get_perm t t' h : NoDup t.*1 -> t ≡ₚ t' -> tallies_get t h = tallies_get t' h.
Proof.
  intros Hnd Hp. assert (NoDup t'.*1) as Hnd' by (by rewrite <- Hp).
  destruct (decide (h ∈ t.*1)) as [([k a] & -> & Hin)%list_elem_of_fmap|Hn].
  - cbn. rewrite (tallies_get_elem t k a), (tallies_get_elem t' k a); [done|done| |done|done]. by rewrite <- Hp.
  - rewrite !tallies_get_absent; [done| |done]. by rewrite <- Hp.
Qed.

Lemma insert_descending_perm p t : insert_descending p t ≡ₚ p :: t.
Proof.
  induction t as [|q t IH]; [done|]. cbn. case_test; [|done]. rewrite IH. apply Permutation_swap.
Qed.

Lemma sort_perm t : sort_by_descending_tally t ≡ₚ t.
Proof. induction t as [|p t IH]; [done|]. cbn. by rewrite insert_descending_perm, IH. Qed.

Definition tally_ge (p q : BlockHash * Amount) : Prop := q.2 <= p.2.

Lemma insert_descending_sorted p t :
  StronglySorted tally_ge t -> StronglySorted tally_ge (insert_descending p t).
Proof.
  induction 1 as [|q t Hs IH Hall]; cbn; [by repeat constructor|]. case_test.
  - constructor; [done|]. rewrite insert_descending_perm. constructor; [unfold tally_ge; lia|done].
  - constructor; [by constructor|]. constructor; [unfold tally_ge; lia|].
    eapply Forall_impl; [exact Hall|]. unfold tally_ge. intros; lia.
Qed.

Lemma sort_sorted t : StronglySorted tally_ge (sort_by_descending_tally t).
Proof. induction t; [constructor|]. by apply insert_descending_sorted. Qed.

(** The first entry of sorted tallies leads. *)
Lemma tallies_leader k a t h :
  StronglySorted tally_ge ((k, a) :: t) -> 0 <= a -> tallies_get ((k, a) :: t) h <= a.
Proof.
  intros [Hs Hall]%StronglySorted_inv Ha. rewrite tallies_get_cons. case_test; [lia|].
  unfold tallies_get. destruct (find _ t) as [p|] eqn:Hf; [|done]. apply find_some in Hf as [Hin _].
  rewrite Forall_forall in Hall. apply (Hall p). by apply list_elem_of_In.
Qed.

(** ** Counting votes *)

Lemma tallies_add_spec t h w :
  match tallies_add t h w with
  | None => h ∉ t.*1
  | Some t' => t'.*1 = t.*1 /\ h ∈ t.*1 /\
      forall x, tallies_get t' x = if h =? x then amount_add (tallies_get t x) w else tallies_get t x
  end.
Proof.
  induction t as [|[k a] t IH]; cbn; [apply not_elem_of_nil|].
  destruct (Z.eqb_spec k h) as [->|Hne].
  - split; [done|]. split; [by left|]. intros x. rewrite !tallies_get_cons. by case_test.
  - destruct (tallies_add t h w) as [t'|]; cbn.
    + destruct IH as (E & Hin & Hg). split; [by rewrite E|]. split; [by right|]. intros x.
      rewrite !tallies_get_cons, Hg. repeat case_test; congruence.
    + by apply not_elem_of_cons.
Qed.

Section counting.
Context {V : Type} (cand : gmap BlockHash V).
Hypothesis Hsize : (size cand <= MAX_BLOCKS)%nat.

Definition keys_ok (t : BlockTallies) : Prop := NoDup t.*1 /\ forall h, h ∈ t.*1 -> is_Some (cand !! h).

Lemma insert_unsorted_ok t h a :
  keys_ok t -> h ∉ t.*1 -> is_Some (cand !! h) -> insert_unsorted t h a = Some (t ++ [(h, a)]) /\ keys_ok (t ++ [(h, a)]).
Proof.
  intros [Hnd Hin] Hn Hh.
  assert (keys_ok (t ++ [(h, a)])) as Hk.
  { split; rewrite fmap_app; cbn.
    - apply NoDup_app. split_and!; [done| |apply NoDup_singleton]. intros x Hx ->%list_elem_of_singleton. done.
    - intros x [Hx| ->%list_elem_of_singleton]%elem_of_app; auto. }
  split; [|done]. unfold insert_unsorted. destruct (Nat.eqb_spec (length t) MAX_BLOCKS) as [E|]; [|done].
  pose proof (NoDup_in_map_size cand _ (proj1 Hk) (proj2 Hk)) as Hle. rewrite length_fmap, length_app in Hle. cbn in Hle. lia.
Qed.

(** A vote that can be counted. *)
Definition countable_vote (v : VoteSummary) : Prop := is_Some (cand !! vs_hash v) /\ in_u 128 (vs_weight v).

Lemma count_vote_ok t v :
  keys_ok t -> countable_vote v -> (forall x, in_u 128 (tallies_get t x)) ->
  exists t', count_vote t v = Some t' /\ keys_ok t' /\
    (forall h, h ∈ t'.*1 <-> h ∈ t.*1 \/ vs_hash v = h) /\
    forall x, tallies_get t' x = wrap 128 (tallies_get t x + (if vs_hash v =? x then vs_weight v else 0)).
Proof.
  intros Hk [Hv Hw] Hr. unfold count_vote. pose proof (tallies_add_spec t (vs_hash v) (vs_weight v)) as Ha.
  destruct (tallies_add t (vs_hash v) (vs_weight v)) as [t'|].
  - destruct Ha as (E & Hin & Hg). exists t'. split; [done|]. unfold keys_ok. rewrite E. split; [done|].
    split; [naive_solver|]. intros x. rewrite Hg. case_test; [done|]. by rewrite Z.add_0_r, wrap_small.
  - destruct (insert_unsorted_ok t (vs_hash v) (vs_weight v) Hk Ha Hv) as [-> Hk'].
    eexists. split; [done|]. split; [done|]. split.
    + intros h. rewrite fmap_app, elem_of_app. cbn. rewrite list_elem_of_singleton. naive_solver.
    + intros x. rewrite tallies_get_app by done. case_test; [|by rewrite Z.add_0_r, wrap_small].
      subst. by rewrite (tallies_get_absent t), wrap_small.
Qed.

Lemma count_votes_ok votes t :
  keys_ok t -> Forall countable_vote votes -> (forall x, in_u 128 (tallies_get t x)) ->
  exists t', count_votes t votes = Some t' /\ keys_ok t' /\
    (forall h, h ∈ t'.*1 <-> h ∈ t.*1 \/ h ∈ vs_hash <$> votes) /\
    forall x, tallies_get t' x = wrap 128 (tallies_get t x + tally_of x votes).
Proof.
  revert t. induction votes as [|v votes IH]; intros t Hk Hf Hr.
  - exists t. split; [done|]. split; [done|]. split; [intros h; cbn; rewrite elem_of_nil; tauto|].
    intros x. unfold tally_of. cbn. by rewrite Z.add_0_r, wrap_small.
  - apply Forall_cons in Hf as [Hv Hf]. destruct (count_vote_ok t v Hk Hv Hr) as (t1 & E1 & Hk1 & Hin1 & Hg1).
    destruct (IH t1 Hk1 Hf) as (t2 & E2 & Hk2 & Hin2 & Hg2).
    { intros x. rewrite Hg1. apply wrap_in_u. lia. }
    exists t2. cbn. rewrite E1. split; [done|]. split; [done|]. split.
    + intros h. rewrite Hin2, Hin1. cbn. rewrite elem_of_cons. intuition congruence.
    + intros x. rewrite Hg2, Hg1, wrap_add_l by lia. unfold tally_of. cbn. f_equal. lia.
Qed.

(** The tallies of a list of votes for the candidates. *)
Record tallied (votes : list VoteSummary) (t : BlockTallies) : Prop := {
  td_keys : keys_ok t;
  td_voted : forall h, h ∈ t.*1 <-> h ∈ vs_hash <$> votes;
  td_sum : forall h, tallies_get t h = wrap 128 (tally_of h votes);
  td_sorted : StronglySorted tally_ge t;
}.

Lemma calculate_ok votes :
  Forall countable_vote votes -> exists t, calculate votes = Some t /\ tallied votes t.
Proof.
  intros Hf. destruct (count_votes_ok votes []) as (t & E & [Hnd Hin] & Hv & Hg); try done.
  { split; [constructor|]. intros h Hh. by apply elem_of_nil in Hh. }
  unfold calculate. rewrite E. eexists. split; [done|]. pose proof (sort_perm t) as Hp. split.
  - split; [by rewrite Hp|]. intros h. rewrite Hp. apply Hin.
  - intros h. rewrite Hp, Hv. cbn. rewrite elem_of_nil. tauto.
  - intros h. rewrite (tallies_get_perm (sort_by_descending_tally t) t), Hg; [done|by rewrite Hp|done].
  - apply sort_sorted.
Qed.
End counting.

(** ** The invariant *)

Record election_ok (e : Election) : Prop := {
  eo_winner : el_candidate_blocks e !! block_hash (el_winner e) = Some (el_winner e);
  eo_key : forall h (b : MaybeSavedBlock), el_candidate_blocks e !! h = Some b ->
    block_hash b = h /\ h <> 0 /\ qualified_root b = el_qualified_root e;
  eo_max : (size (el_candidate_blocks e) <= MAX_BLOCKS)%nat;
  eo_votes : forall k v, el_votes e !! k = Some v ->
    vs_voter v = k /\ is_Some (el_candidate_blocks e !! vs_hash v);
  eo_tallies : keys_ok (el_candidate_blocks e) (el_tallies e);
  eo_final : keys_ok (el_candidate_blocks e) (el_final_tallies e);
}.

Definition weights_ok (rep_weights : gmap PublicKey Amount) : Prop :=
  forall k w, rep_weights !! k = Some w -> in_u 128 w.

Definition weight (rep_weights : gmap PublicKey Amount) (k : PublicKey) : Amount := default 0 (rep_weights !! k).

(** The weight behind a block, counting the votes that satisfy [P]. *)
Definition weight_for (P : VoteSummary -> bool) (rep_weights : gmap PublicKey Amount)
    (votes : gmap PublicKey VoteSummary) (h : BlockHash) : Z :=
  map_sum (fun v => if P v && (vs_hash v =? h) then weight rep_weights (vs_voter v) else 0) votes.

Definition all_votes (v : VoteSummary) : bool := true.

Lemma map_sum_ext {K V} `{Countable K} (f g : V -> Z) (m : gmap K V) :
  (forall k v, m !! k = Some v -> f v = g v) -> map_sum f m = map_sum g m.
Proof.
  intros Hfg. apply Z.le_antisymm; apply map_sum_le; intros k v Hv; rewrite (Hfg k v Hv); lia.
Qed.

Lemma map_sum_fmap {K V W} `{Countable K} (f : V -> W) (g : W -> Z) (m : gmap K V) :
  map_sum g (f <$> m) = map_sum (fun v => g (f v)) m.
Proof.
  rewrite !map_sum_zsum, map_to_list_fmap. f_equal. induction (map_to_list m) as [|[k v] l IH]; [done|].
  cbn. by rewrite IH.
Qed.

Section weighing.
Context `{HO : HashOrder} `{!HashOrderLaws HO} (rep_weights : gmap PublicKey Amount).

#[local] Abbreviation reweigh := (fun v => mkVoteSummary (vs_voter v) (vs_vote_created v) (vs_vote_received v)
  (vs_hash v) (default amount_ZERO (rep_weights !! vs_voter v))).

Lemma weight_for_list P votes h :
  (forall v, P (reweigh v) = P v) ->
  tally_of h (filter (fun v => P v = true) (hash_iter (reweigh <$> votes)).*2) = weight_for P rep_weights votes h.
Proof.
  intros HP. unfold weight_for, tally_of.
  transitivity (map_sum (fun v => if P v && (vs_hash v =? h) then vs_weight v else 0) (reweigh <$> votes)).
  - rewrite map_sum_zsum. rewrite <- (zsum_perm _ _ (fmap_Permutation _ _ _ (fmap_Permutation snd _ _ (hash_iter_perm (reweigh <$> votes))))).
    induction ((hash_iter (reweigh <$> votes)).*2) as [|v l IH]; [done|].
    destruct (P v) eqn:E; [rewrite filter_cons_True by done|rewrite filter_cons_False by congruence];
      rewrite !fmap_cons || rewrite fmap_cons; cbn [zsum]; rewrite ?E; cbn [andb]; [by rewrite IH|by rewrite IH].
  - rewrite map_sum_fmap. apply map_sum_ext. intros k v _. by rewrite HP.
Qed.

Lemma filter_all_votes (l : list VoteSummary) : filter (fun v => all_votes v = true) l = l.
Proof. induction l as [|v l IH]; [done|]. rewrite filter_cons_True by done. by rewrite IH. Qed.

Context (Hw : weights_ok rep_weights).

Lemma reweighed_countable e P :
  election_ok e ->
  Forall (countable_vote (el_candidate_blocks e)) (filter (fun v => P v = true) (hash_iter (reweigh <$> el_votes e)).*2).
Proof.
  intros Hok. apply Forall_forall. intros v [_ Hv]%list_elem_of_filter. rewrite hash_iter_perm in Hv.
  apply list_elem_of_fmap in Hv as ([k v'] & -> & Hv). apply elem_of_map_to_list in Hv.
  rewrite lookup_fmap in Hv. apply fmap_Some in Hv as (v0 & Hv0 & ->).
  destruct (eo_votes _ Hok _ _ Hv0) as [_ Hc]. split; [done|]. cbn.
  destruct (rep_weights !! vs_voter v0) as [x|] eqn:E; [by eapply Hw|done].
Qed.

(** The tallies of an election after [recalculate_tallies]. *)
Lemma recalculate_ok e :
  election_ok e ->
  exists t f, recalculate_tallies (update_vote_weights e rep_weights)
              = Some (el_set_tallies t f (update_vote_weights e rep_weights)) /\
    keys_ok (el_candidate_blocks e) t /\ keys_ok (el_candidate_blocks e) f /\ StronglySorted tally_ge t /\
    (forall h, tallies_get t h = wrap 128 (weight_for all_votes rep_weights (el_votes e) h)) /\
    (forall h, tallies_get f h = wrap 128 (weight_for is_final_vote rep_weights (el_votes e) h)).
Proof.
  intros Hok. pose proof (eo_max _ Hok) as Hm.
  destruct (calculate_ok (el_candidate_blocks e) Hm _ (reweighed_countable e all_votes Hok)) as (t & Et & Ht).
  destruct (calculate_ok (el_candidate_blocks e) Hm _ (reweighed_countable e is_final_vote Hok)) as (f & Ef & Hf).
  exists t, f. unfold recalculate_tallies, update_vote_weights. cbn [el_set_votes el_votes].
  rewrite filter_all_votes in Et. rewrite Et, Ef. split; [done|].
  destruct Ht as [Kt _ St Ot], Hf as [Kf _ Sf _]. split_and!; try done; intros h.
  - rewrite St, weight_for_list; done.
  - rewrite Sf, weight_for_list; done.
Qed.
End weighing.

(** ** Updating the tallies *)

Record updated (rep_weights : gmap PublicKey Amount) (quorum_delta : Amount) (e e' : Election) : Prop := {
  up_root : el_qualified_root e' = el_qualified_root e;
  up_candidates : el_candidate_blocks e' = el_candidate_blocks e;
  up_voters : forall k, (fun v => (vs_vote_created v, vs_hash v)) <$> el_votes e' !! k
    = (fun v => (vs_vote_created v, vs_hash v)) <$> el_votes e !! k;
  up_winner_tally : el_winner_tally e'
    = wrap 128 (weight_for all_votes rep_weights (el_votes e) (block_hash (el_winner e')));
  up_final_tally : el_winner_final_tally e'
    = wrap 128 (weight_for is_final_vote rep_weights (el_votes e) (block_hash (el_winner e')));
  up_state : el_state e' = if quorum_delta <=? el_winner_final_tally e' then Confirmed else el_state e;
  up_behavior : el_behavior e' = el_behavior e;
  up_leader : el_winner e' = el_winner e \/ (forall h, tallies_get (el_tallies e') h <= el_winner_tally e');
  up_tallies : forall h, tallies_get (el_tallies e') h = wrap 128 (weight_for all_votes rep_weights (el_votes e) h);
}.

Section updating.
Context `{HO : HashOrder} `{!HashOrderLaws HO} (rep_weights : gmap PublicKey Amount) (quorum_delta : Amount).
Hypothesis Hw : weights_ok rep_weights.

Lemma check_new_winner_candidate e h :
  election_ok e -> check_new_winner e quorum_delta = Some h -> is_Some (el_candidate_blocks e !! h).
Proof.
  intros Hok. unfold check_new_winner, tallies_winner. destruct (_ <? _); [done|].
  destruct (el_tallies e) as [|[k a] t] eqn:Et; cbn; case_test; try done. cbn. intros [= <-].
  apply (proj2 (eo_tallies _ Hok)). rewrite Et. by left.
Qed.

Lemma check_new_winner_leads e h x :
  StronglySorted tally_ge (el_tallies e) -> (forall k, 0 <= tallies_get (el_tallies e) k) ->
  check_new_winner e quorum_delta = Some h -> tallies_get (el_tallies e) x <= tallies_get (el_tallies e) h.
Proof.
  intros Hs Hn. unfold check_new_winner, tallies_winner. destruct (_ <? _); [done|].
  destruct (el_tallies e) as [|[k a] t] eqn:Et; cbn [hd_error fmap option_fmap option_map default fst]; case_test; try done.
  cbn. intros [= <-]. assert (tallies_get ((k, a) :: t) k = a) as Hk by (by rewrite tallies_get_cons, Z.eqb_refl).
  specialize (Hn k). rewrite Hk in *. by apply tallies_leader.
Qed.

Lemma update_tallies_ok e :
  election_ok e -> has_ended (el_state e) = false ->
  exists e', update_tallies e rep_weights quorum_delta = Some e' /\ election_ok e' /\ updated rep_weights quorum_delta e e'.
Proof.
  intros Hok Hend. destruct (recalculate_ok rep_weights Hw e Hok) as (t & f & E & Kt & Kf & St & Ht & Hf).
  unfold update_tallies. rewrite Hend, E. cbn [mbind option_bind].
  set (e1 := el_set_tallies t f (update_vote_weights e rep_weights)).
  assert (election_ok e1) as Hok1.
  { destruct Hok as [W K M V T F]. split; try done. cbn. intros k v. rewrite lookup_fmap.
    intros (v0 & Hv0 & ->)%fmap_Some. apply (V k v0 Hv0). }
  assert (exists b, (match check_new_winner e1 quorum_delta with Some h => change_winner_to e1 h | None => Some e1 end)
    = Some (el_set_winner b e1) /\ el_candidate_blocks e !! block_hash b = Some b /\
    (b = el_winner e \/ forall h, tallies_get t h <= tallies_get t (block_hash b))) as (b & -> & Hb & Hlead).
  { destruct (check_new_winner e1 quorum_delta) as [h|] eqn:Ec.
    - destruct (check_new_winner_candidate e1 h Hok1 Ec) as [b Hb]. exists b. unfold change_winner_to. rewrite Hb.
      split; [done|]. destruct (eo_key _ Hok _ _ Hb) as [-> _]. split; [done|]. right.
      intros x. apply (check_new_winner_leads e1 h x); cbn; try done. intros k. rewrite Ht. apply wrap_in_u. lia.
    - exists (el_winner e). split; [by destruct e|]. split; [apply Hok|by left]. }
  cbn [mbind option_bind]. eexists. split; [done|].
  destruct Hok1 as [W K M V T F]. unfold try_confirm, try_set_quorum.
  split; (destruct (check_quorum _ _), (quorum_delta <=? _) eqn:Eq; split; cbn in *; try done).
  all: try (intros k; rewrite lookup_fmap; by destruct (el_votes e !! k)).
  all: rewrite ?Ht, ?Hf in *; try done; rewrite ?Eq; try done.
Qed.
End updating.

(** ** Forks *)

Lemma tallies_remove_keys t h :
  NoDup t.*1 -> NoDup (tallies_remove t h).*1 /\ forall x, x ∈ (tallies_remove t h).*1 <-> x ∈ t.*1 /\ x <> h.
Proof.
  induction t as [|[k a] t IH]; cbn; [intros; split; [constructor|]; set_solver|].
  intros [Hk Hnd]%NoDup_cons. destruct (IH Hnd) as [Hnd' Hin]. case_test.
  - subst. split; [done|]. set_solver.
  - cbn. split; [apply NoDup_cons; split; [|done]; rewrite Hin; tauto|].
    intros x. rewrite !elem_of_cons, Hin. intuition congruence.
Qed.

Lemma keys_ok_remove {V} (cand : gmap BlockHash V) t h :
  keys_ok cand t -> keys_ok (delete h cand) (tallies_remove t h).
Proof.
  intros [Hnd Hin]. destruct (tallies_remove_keys t h Hnd) as [Hnd' Hin']. split; [done|].
  intros x [Hx Hne]%Hin'. rewrite lookup_delete_ne by done. auto.
Qed.

Lemma keys_ok_weaken {V} (cand : gmap BlockHash V) h v t : keys_ok cand t -> keys_ok (<[h:=v]> cand) t.
Proof. intros [Hnd Hin]. split; [done|]. intros x Hx. apply lookup_insert_is_Some'. right. auto. Qed.

Lemma keys_ok_perm {V} (cand : gmap BlockHash V) t t' : t ≡ₚ t' -> keys_ok cand t -> keys_ok cand t'.
Proof. intros Hp [Hnd Hin]. split; [by rewrite <- Hp|]. intros x. rewrite <- Hp. apply Hin. Qed.

(** The keys of the lowest and second lowest tally. *)
Lemma last_two {V} (cand : gmap BlockHash V) t :
  keys_ok cand t -> (2 <= length t)%nat ->
  exists low second, tallies_lowest t = Some low /\ rev t !! 1%nat = Some second /\
    is_Some (cand !! low.1) /\ is_Some (cand !! second.1) /\ second.1 <> low.1.
Proof.
  intros [Hnd Hin] Hl. assert (exists r, t = rev r) as [r ->] by (exists (rev t); by rewrite rev_involutive).
  rewrite rev_involutive. rewrite length_rev in Hl.
  destruct r as [|low [|second l]]; cbn in Hl; [lia..|].
  exists low, second. cbn [rev] in *. unfold tallies_lowest. rewrite last_snoc. split; [done|]. split; [done|].
  rewrite !fmap_app in *. cbn in *. split; [apply Hin; set_solver|]. split; [apply Hin; set_solver|].
  apply NoDup_app in Hnd as (_ & Hd & _). intros E. apply (Hd low.1); [rewrite <- E|]; set_solver.
Qed.

Section forks.
Context `{HO : HashOrder} `{!HashOrderLaws HO}.

Lemma without_tally_found e :
  election_ok e -> has_max_blocks e = true ->
  find (fun p : BlockHash * MaybeSavedBlock =>
          negb (tallies_contains (el_tallies e) p.1) && negb (p.1 =? block_hash (el_winner e)))
       (hash_iter (el_candidate_blocks e)) = None -> (2 <= length (el_tallies e))%nat.
Proof.
  intros Hok Hmax Hf. unfold has_max_blocks in Hmax. apply Nat.leb_le in Hmax.
  assert (length (map_to_list (el_candidate_blocks e)).*1 <= length (block_hash (el_winner e) :: (el_tallies e).*1))%nat as Hle.
  { apply submseteq_length, NoDup_submseteq; [apply NoDup_fst_map_to_list|].
    intros h ([k b] & -> & Hb)%list_elem_of_fmap. rewrite <- hash_iter_perm in Hb. apply list_elem_of_In in Hb.
    pose proof (find_none _ _ Hf _ Hb) as Hn. cbn in *. rewrite andb_false_iff, !negb_false_iff in Hn.
    destruct Hn as [Hn|Hn]; [right|apply Z.eqb_eq in Hn as ->; left].
    apply existsb_exists in Hn as ([k' a] & Hin & Hk). apply Z.eqb_eq in Hk. cbn in Hk. subst.
    apply list_elem_of_fmap. exists (k, a). split; [done|]. by apply list_elem_of_In. }
  rewrite length_fmap, length_map_to_list in Hle. cbn in Hle. rewrite length_fmap in Hle. unfold MAX_BLOCKS in Hmax. lia.
Qed.

Lemma block_to_remove_ok e min_tally :
  election_ok e -> has_max_blocks e = true ->
  exists h, block_to_remove e min_tally = Some h /\
    (h = 0 \/ (h <> block_hash (el_winner e) /\ is_Some (el_candidate_blocks e !! h))).
Proof.
  intros Hok Hmax. unfold block_to_remove. set (wt := if (_ <? _)%nat then _ else _).
  assert ((wt = 0 /\ (2 <= length (el_tallies e))%nat) \/
          (wt <> 0 /\ wt <> block_hash (el_winner e) /\ is_Some (el_candidate_blocks e !! wt))) as [[Ewt Hl]|(Hnz & Hne & Hc)].
  { subst wt. destruct (Nat.ltb_spec (length (el_tallies e)) MAX_BLOCKS); [|left; unfold MAX_BLOCKS in *; split; [done|lia]].
    destruct (find _ _) as [[k b]|] eqn:Ef; [|left; split; [done|by apply without_tally_found]].
    right. apply find_some in Ef as [Hin Hb]. cbn in *. apply list_elem_of_In in Hin. rewrite hash_iter_perm in Hin.
    apply elem_of_map_to_list in Hin. destruct (eo_key _ Hok _ _ Hin) as (_ & Hnz & _). prop_bools. eauto. }
  2:{ destruct (u256_is_zero_spec wt); [done|]. exists wt. auto. }
  destruct (last_two _ _ (eo_tallies _ Hok) Hl) as (low & second & -> & -> & Hlow & Hsec & Hne).
  rewrite Ewt. cbn [u256_is_zero Z.eqb mbind option_bind].
  destruct (low.2 <? min_tally); [|exists 0; auto].
  destruct (Z.eqb_spec low.1 (block_hash (el_winner e))); cbn [negb]; [|exists low.1; auto].
  destruct (second.2 <? min_tally); [|exists 0; auto].
  exists second.1. split; [done|]. right. split; [congruence|done].
Qed.

Lemma remove_block_ok e h :
  election_ok e -> h <> block_hash (el_winner e) -> is_Some (el_candidate_blocks e !! h) ->
  exists b e', remove_block e h = (Some b, e') /\ election_ok e' /\ el_candidate_blocks e !! h = Some b /\
    el_candidate_blocks e' = delete h (el_candidate_blocks e) /\ el_qualified_root e' = el_qualified_root e /\
    el_state e' = el_state e /\ el_winner e' = el_winner e /\ el_behavior e' = el_behavior e.
Proof.
  intros Hok Hne [b Hb]. unfold remove_block. rewrite Hb. case_test; [congruence|]. cbn [negb].
  eexists b, _. split; [done|]. split; [|done]. destruct Hok as [W K M V T F]. split; cbn.
  - by rewrite lookup_delete_ne.
  - intros x c [_ Hx]%lookup_delete_Some. by apply K.
  - rewrite map_size_delete_Some by eauto. lia.
  - intros k v [Hv Hx]%map_lookup_filter_Some. cbn in Hx. rewrite lookup_delete_ne by done. by apply V.
  - by apply keys_ok_remove.
  - by apply keys_ok_remove.
Qed.

Lemma insert_fork_ok e fork fork_tally :
  election_ok e -> block_hash fork <> 0 -> qualified_root fork = el_qualified_root e ->
  el_candidate_blocks e !! block_hash fork = None -> (size (el_candidate_blocks e) < MAX_BLOCKS)%nat ->
  exists e', insert_fork e fork fork_tally = Some e' /\ election_ok e' /\
    el_candidate_blocks e' = <[block_hash fork := Unsaved fork]> (el_candidate_blocks e) /\
    el_qualified_root e' = el_qualified_root e /\ el_state e' = el_state e /\ el_winner e' = el_winner e /\
    el_behavior e' = el_behavior e.
Proof.
  intros [W K M V T F] Hnz Hq Hn Hs. unfold insert_fork, tallies_insert.
  set (cand := <[block_hash fork := Unsaved fork]> (el_candidate_blocks e)).
  assert (size cand <= MAX_BLOCKS)%nat as Hs' by (unfold cand; rewrite map_size_insert_None by done; lia).
  destruct (insert_unsorted_ok cand Hs' (el_tallies e) (block_hash fork) fork_tally) as [-> Hk].
  - by apply keys_ok_weaken.
  - intros Hin. destruct (proj2 T _ Hin). congruence.
  - unfold cand. rewrite lookup_insert_eq. eauto.
  - cbn [mbind option_bind]. eexists. split; [done|]. split; [|done]. split; cbn; fold cand.
    + unfold cand. rewrite lookup_insert_ne; [done|]. intros E. congruence.
    + intros h b [[<- <-]|[_ Hb]]%lookup_insert_Some; [done|by apply K].
    + done.
    + intros k v Hv. destruct (V k v Hv) as [? ?]. split; [done|]. apply lookup_insert_is_Some'. by right.
    + eapply keys_ok_perm; [symmetry; apply sort_perm|done].
    + by apply keys_ok_weaken.
Qed.
End forks.
