(* ===== verification/ElectionTheorems.v ===== *)
(** * What elections guarantee

    [election_step] is any operation on an election. The theorems: an election
    never panics, its tallies are the weights of the votes, once it has ended
    nothing about its outcome changes, and two elections that confirm
    different blocks need a representative that voted finally for both. *)

From S2P Require Import Prelude Types Blocks Votes Election ElectionSafe Sample.

Section forks.
Context `{HO : HashOrder} `{!HashOrderLaws HO}.

Lemma try_add_fork_ok e fork fork_tally :
  election_ok e -> block_hash fork <> 0 -> qualified_root fork = el_qualified_root e ->
  exists r e', try_add_fork e fork fork_tally = Some (r, e') /\ election_ok e' /\
    el_qualified_root e' = el_qualified_root e /\ el_state e' = el_state e /\ el_winner e' = el_winner e /\
    el_behavior e' = el_behavior e /\
    match r with
    | Added => el_candidate_blocks e' = <[block_hash fork := Unsaved fork]> (el_candidate_blocks e)
    | Replaced b => el_candidate_blocks e !! block_hash b = Some b /\
        el_candidate_blocks e' = <[block_hash fork := Unsaved fork]> (delete (block_hash b) (el_candidate_blocks e)) /\
        el_candidate_blocks e !! block_hash fork = None
    | _ => e' = e
    end.
Proof.
  intros Hok Hnz Hq. unfold try_add_fork. destruct (has_ended (el_state e)); [by eexists _, _|].
  unfold contains_block. destruct (el_candidate_blocks e !! block_hash fork) as [x|] eqn:Hf.
  { rewrite bool_decide_true by eauto. by eexists _, _. }
  rewrite bool_decide_false by (by intros []). destruct (has_max_blocks e) eqn:Hm.
  - unfold remove_tally_below. destruct (amount_is_zero fork_tally); [by eexists _, _|].
    destruct (block_to_remove_ok e fork_tally Hok Hm) as (h & -> & Hh). cbn [mbind option_bind].
    destruct (u256_is_zero_spec h) as [->|Hz]; cbn [negb]; [by eexists _, _|].
    destruct Hh as [->|[Hne Hc]]; [done|].
    destruct (remove_block_ok e h Hok Hne Hc) as (b & e1 & -> & Hok1 & Hb & Ec & Er & Es & Ew & Ebh).
    destruct (eo_key _ Hok _ _ Hb) as (Ebk & _ & _).
    destruct (insert_fork_ok e1 fork fork_tally) as (e2 & -> & Hok2 & Ec2 & Er2 & Es2 & Ew2 & Eb2); try done; try congruence.
    + rewrite Ec. by apply lookup_delete_None; right.
    + rewrite Ec, map_size_delete_Some by eauto. pose proof (eo_max _ Hok) as Hmax.
      assert (size (el_candidate_blocks e) <> 0)%nat by (intros E%map_size_empty_iff; by rewrite E in Hb). lia.
    + eexists _, _. split; [done|]. split_and!; try done; congruence.
  - destruct (insert_fork_ok e fork fork_tally) as (e2 & -> & ?); try done.
    + unfold has_max_blocks in Hm. by apply Nat.leb_gt in Hm.
    + eexists _, _. split; [done|]. naive_solver.
Qed.
End forks.

(** ** Steps *)

Section steps.
Context `{HO : HashOrder} `{!HashOrderLaws HO}.

Inductive election_step : Election -> Election -> Prop :=
  | step_add_vote e voter hash created received :
      contains_block e hash = true -> election_step e (add_vote e voter hash created received)
  | step_remove_vote e voter : election_step e (remove_vote e voter)
  | step_voted e t now : election_step e (voted e t now)
  | step_time e now : election_step e (transition_time e now)
  | step_active e : election_step e (transition_active e)
  | step_cancel e : election_step e (cancel e)
  | step_force_confirm e : election_step e (force_confirm e).2
  | step_upgrade e b : election_step e (maybe_upgrade_to e b).2
  | step_tallies e rep_weights quorum_delta e' :
      weights_ok rep_weights -> update_tallies e rep_weights quorum_delta = Some e' -> election_step e e'
  | step_fork e fork fork_tally r e' :
      block_hash fork <> 0 -> qualified_root fork = el_qualified_root e ->
      try_add_fork e fork fork_tally = Some (r, e') -> election_step e e'.

(** A change of the status, the votes or the bookkeeping keeps the invariant. *)
Lemma election_ok_same e e' :
  election_ok e -> el_qualified_root e' = el_qualified_root e -> el_winner e' = el_winner e ->
  el_candidate_blocks e' = el_candidate_blocks e -> el_votes e' ⊆ el_votes e ->
  el_tallies e' = el_tallies e -> el_final_tallies e' = el_final_tallies e -> election_ok e'.
Proof.
  intros [W K M V T F] Er Ew Ec Ev Et Ef. split; rewrite ?Er, ?Ew, ?Ec, ?Et, ?Ef; try done.
  intros k v Hv. apply V. by eapply lookup_weaken.
Qed.

Lemma transition_time_state e now :
  exists x, transition_time e now = el_set_state x e /\
    (has_ended (el_state e) = true -> has_ended x = true /\ (state_is_confirmed (el_state e) = state_is_confirmed x)).
Proof.
  unfold transition_time. destruct (el_state e) eqn:Es; cbn; rewrite ?Es; cbn.
  1: destruct (_ <? _); cbn; rewrite ?Es; cbn; destruct (_ <? _).
  all: try (eexists; split; [reflexivity|]; by rewrite ?Es).
  all: try (exists (el_state e); rewrite ?Es; split; [by destruct e; cbn in *; subst|done]).
  destruct (_ <? _); [by eexists|]. exists (el_state e). rewrite Es. split; [by destruct e; cbn in *; subst|done].
Qed.

Lemma election_step_ok e e' : election_step e e' -> election_ok e -> election_ok e'.
Proof.
  intros Hs Hok. destruct Hs as [e voter hash created received Hc|e voter|e t now|e now|e|e|e|e b|e rw q e' Hw Hu|e fork ft r e' Hnz Hq Hf].
  - destruct Hok as [W K M V T F]. split; try done. cbn. intros k v [[<- <-]|[_ Hv]]%lookup_insert_Some; [|by apply V].
    split; [done|]. unfold contains_block in Hc. by apply bool_decide_eq_true in Hc.
  - apply (election_ok_same e); try done. apply delete_subseteq.
  - by apply (election_ok_same e); destruct t.
  - destruct (transition_time_state e now) as (x & -> & _). by apply (election_ok_same e).
  - unfold transition_active. destruct (bool_decide _); by apply (election_ok_same e).
  - unfold cancel. destruct (negb _); by apply (election_ok_same e).
  - unfold force_confirm. destruct (negb _); by apply (election_ok_same e).
  - unfold maybe_upgrade_to. destruct (negb _), (el_behavior e); by apply (election_ok_same e).
  - destruct (has_ended (el_state e)) eqn:He; [unfold update_tallies in Hu; rewrite He in Hu; by injection Hu as <-|].
    destruct (update_tallies_ok rw q Hw e Hok He) as (e1 & E1 & Hok1 & _). congruence.
  - destruct (try_add_fork_ok e fork ft Hok Hnz Hq) as (r1 & e1 & E1 & Hok1 & _). congruence.
Qed.

Lemma election_new_ok (block : SavedBlock) behavior base_latency now :
  block_hash block <> 0 -> election_ok (election_new block behavior base_latency now).
Proof.
  intros Hnz. split; cbn; try (by split; [constructor|intros ? ?%elem_of_nil]).
  - by rewrite lookup_singleton_eq.
  - intros h b [<- <-]%lookup_singleton_Some. done.
  - rewrite map_size_singleton. unfold MAX_BLOCKS. lia.
  - intros k v. by rewrite lookup_empty.
Qed.

Lemma election_steps_ok e e' : rtc election_step e e' -> election_ok e -> election_ok e'.
Proof. induction 1; eauto using election_step_ok. Qed.

(** What an election that has ended keeps. *)
Record same_outcome (e e' : Election) : Prop := {
  so_ended : has_ended (el_state e') = true;
  so_winner : el_winner e' = el_winner e;
  so_candidates : el_candidate_blocks e' = el_candidate_blocks e;
  so_confirmed : election_is_confirmed e' = election_is_confirmed e;
}.

Lemma ended_step e e' : election_step e e' -> has_ended (el_state e) = true -> same_outcome e e'.
Proof.
  intros Hs He. destruct Hs as [e voter hash created received Hc|e voter|e t now|e now|e|e|e|e b|e rw q e' Hw Hu|e fork ft r e' Hnz Hq Hf].
  - by split.
  - by split.
  - destruct t; by split.
  - destruct (transition_time_state e now) as (x & -> & Hx). destruct (Hx He) as [? E]. by split.
  - unfold transition_active. destruct (bool_decide_reflect (el_state e = Passive)) as [E|]; [by rewrite E in He|by split].
  - unfold cancel. rewrite He. by split.
  - unfold force_confirm. rewrite He. by split.
  - unfold maybe_upgrade_to. destruct (negb _), (el_behavior e); by split.
  - unfold update_tallies in Hu. rewrite He in Hu. injection Hu as <-. by split.
  - unfold try_add_fork in Hf. rewrite He in Hf. injection Hf as _ <-. by split.
Qed.

Lemma ended_steps e e' : rtc election_step e e' -> has_ended (el_state e) = true -> same_outcome e e'.
Proof.
  induction 1 as [e|e1 e2 e3 H12 _ IH]; intros He; [by split|]. destruct (ended_step _ _ H12 He) as [E W C F].
  destruct (IH E) as [E' W' C' F']. split; congruence.
Qed.
End steps.

(** ** The weight behind final votes *)

Section quorum.
Context (rep_weights : gmap PublicKey Amount).
Hypothesis Hw : weights_ok rep_weights.

Lemma weight_nonneg k : 0 <= weight rep_weights k.
Proof. unfold weight. destruct (rep_weights !! k) as [w|] eqn:E; cbn; [apply (Hw k w E)|lia]. Qed.

(** The voters whose votes for [h] count. *)
Definition backers (P : VoteSummary -> bool) (votes : gmap PublicKey VoteSummary) (h : BlockHash) : list PublicKey :=
  (filter (fun p => P p.2 && (vs_hash p.2 =? h) && (0 <? weight rep_weights p.1) = true) (map_to_list votes)).*1.

Lemma elem_of_backers P votes h k :
  k ∈ backers P votes h <-> exists v, votes !! k = Some v /\ P v = true /\ vs_hash v = h /\ 0 < weight rep_weights k.
Proof.
  unfold backers. rewrite list_elem_of_fmap. split.
  - intros ([k' v] & -> & [Ht Hv]%list_elem_of_filter). apply elem_of_map_to_list in Hv. exists v. cbn in *.
    apply andb_prop in Ht as [[? ?%Z.eqb_eq]%andb_prop ?%Z.ltb_lt]. done.
  - intros (v & Hv & HP & <- & Hpos). exists (k, v). split; [done|]. apply list_elem_of_filter. cbn. split.
    + rewrite HP, Z.eqb_refl. cbn. by apply Z.ltb_lt.
    + by apply elem_of_map_to_list.
Qed.

Lemma backers_NoDup P votes h : NoDup (backers P votes h).
Proof.
  unfold backers. pose proof (NoDup_fst_map_to_list votes) as Hn. induction (map_to_list votes) as [|[k v] l IH]; [done|].
  apply NoDup_cons in Hn as [Hk Hn]. rewrite filter_cons. case_decide; [|by apply IH]. rewrite fmap_cons. constructor; [|by apply IH].
  intros ([k' v'] & E & [_ Hin]%list_elem_of_filter)%list_elem_of_fmap. apply Hk. cbn in E. subst.
  apply list_elem_of_fmap. by exists (k', v').
Qed.

Lemma weight_for_backers P votes h :
  (forall k v, votes !! k = Some v -> vs_voter v = k) ->
  weight_for P rep_weights votes h = zsum (weight rep_weights <$> backers P votes h).
Proof.
  intros Hk. unfold weight_for, backers. rewrite map_sum_zsum.
  assert (forall p, p ∈ map_to_list votes -> vs_voter p.2 = p.1) as Hl.
  { intros [k v] Hv. apply Hk. by apply elem_of_map_to_list. }
  induction (map_to_list votes) as [|[k v] l IH]; [done|]. rewrite !fmap_cons, filter_cons. cbn [zsum snd fst].
  rewrite IH by (intros p Hp; apply Hl; by right). pose proof (Hl (k, v) ltac:(by left)) as E. cbn in E. rewrite E.
  pose proof (weight_nonneg k). case_decide as Hc.
  - apply andb_prop in Hc as [-> _]. done.
  - destruct (P v && (vs_hash v =? h)); [|done]. cbn in Hc. destruct (Z.ltb_spec 0 (weight rep_weights k)); [done|].
    replace (weight rep_weights k) with 0 by lia. done.
Qed.

Lemma zsum_weight_le l :
  NoDup l -> zsum (weight rep_weights <$> l) <= map_sum (fun w => w) rep_weights.
Proof using Hw.
  revert Hw. generalize rep_weights. induction l as [|k l IH]; intros rw Hrw Hn.
  - cbn. apply map_sum_nonneg. intros k w E. apply (Hrw k w E).
  - apply NoDup_cons in Hn as [Hk Hn]. cbn.
    assert (weight rw <$> l = weight (delete k rw) <$> l) as ->.
    { apply list_fmap_ext. intros i x Hx. unfold weight. rewrite lookup_delete_ne; [done|].
      intros ->. apply Hk. by eapply list_elem_of_lookup_2. }
    specialize (IH (delete k rw)). rewrite map_sum_delete_default in IH. unfold weight at 1.
    assert (weights_ok (delete k rw)) as Hd by (intros j w [_ E]%lookup_delete_Some; by eapply Hrw).
    specialize (IH Hd Hn). destruct (rw !! k); cbn in *; lia.
Qed.

Lemma weight_for_total P votes h :
  (forall k v, votes !! k = Some v -> vs_voter v = k) ->
  0 <= weight_for P rep_weights votes h <= map_sum (fun w => w) rep_weights.
Proof using Hw.
  intros Hk. split.
  - apply map_sum_nonneg. intros k v _. pose proof (weight_nonneg (vs_voter v)). destruct (_ && _); lia.
  - rewrite weight_for_backers by done. apply zsum_weight_le, backers_NoDup.
Qed.
End quorum.

(** ** Claims *)

Section claims.
Context `{HO : HashOrder} `{!HashOrderLaws HO}.

Definition reachable_election (e : Election) : Prop :=
  exists (block : SavedBlock) behavior base_latency now, block_hash block <> 0 /\
    rtc election_step (election_new block behavior base_latency now) e.

Lemma reachable_election_ok e : reachable_election e -> election_ok e.
Proof. intros (b & bh & l & now & Hnz & Hs). apply (election_steps_ok _ _ Hs). by apply election_new_ok. Qed.

Lemma reachable_voter e k v : reachable_election e -> el_votes e !! k = Some v -> vs_voter v = k.
Proof. intros Hr Hv. by apply (eo_votes _ (reachable_election_ok e Hr)). Qed.

(** Confirmation by [update_tallies] has the quorum of final votes. *)
Lemma confirmed_by_quorum e rw q e' :
  reachable_election e -> has_ended (el_state e) = false -> weights_ok rw -> map_sum (fun w => w) rw <= u128_max ->
  update_tallies e rw q = Some e' -> election_is_confirmed e' = true ->
  q <= weight_for is_final_vote rw (el_votes e) (block_hash (el_winner e')).
Proof.
  intros Hr He Hw Ht Hu Hc. destruct (update_tallies_ok rw q Hw e (reachable_election_ok e Hr) He) as (e1 & E1 & _ & Hup).
  rewrite E1 in Hu. injection Hu as ->. unfold election_is_confirmed in Hc. rewrite (up_state _ _ _ _ Hup) in Hc.
  destruct (Z.leb_spec q (el_winner_final_tally e')) as [Hq|]; [|by destruct (el_state e)].
  rewrite (up_final_tally _ _ _ _ Hup), wrap_small in Hq; [done|].
  pose proof (weight_for_total rw Hw is_final_vote (el_votes e) (block_hash (el_winner e')) (fun k v => reachable_voter e k v Hr)) as Hb.
  unfold in_u, u128_max in *. lia.
Qed.

(** C19. An election never panics: whatever votes, forks, clock ticks, weights
    and cancellations it has seen, its candidates share its root, it has at most
    ten of them, the winner is one of them, every stored vote is for one of them,
    and updating the tallies and adding a fork succeed. *)
Theorem election_never_panics e :
  reachable_election e ->
  election_ok e /\
  (forall rw q, weights_ok rw -> is_Some (update_tallies e rw q)) /\
  (forall fork fork_tally, block_hash fork <> 0 -> qualified_root fork = el_qualified_root e ->
     is_Some (try_add_fork e fork fork_tally)).
Proof.
  intros Hok%reachable_election_ok. split; [done|]. split.
  - intros rw q Hw. destruct (has_ended (el_state e)) eqn:He; [unfold update_tallies; by rewrite He|].
    destruct (update_tallies_ok rw q Hw e Hok He) as (e' & -> & _). done.
  - intros fork ft Hnz Hq. destruct (try_add_fork_ok e fork ft Hok Hnz Hq) as (r & e' & -> & _). done.
Qed.

(** C20. Updating the tallies counts exactly: if the weights together fit
    [u128], the winner's tally is the weight of the representatives whose last
    vote is for it, its final tally that of those with a final vote, the
    election becomes confirmed exactly when the final tally reaches the quorum,
    and a new winner has the largest tally of all blocks. *)
Theorem update_tallies_exact e rw q :
  reachable_election e -> has_ended (el_state e) = false ->
  weights_ok rw -> map_sum (fun w => w) rw <= u128_max ->
  exists e', update_tallies e rw q = Some e' /\
    el_candidate_blocks e' = el_candidate_blocks e /\
    el_winner_tally e' = weight_for all_votes rw (el_votes e) (block_hash (el_winner e')) /\
    el_winner_final_tally e' = weight_for is_final_vote rw (el_votes e) (block_hash (el_winner e')) /\
    (election_is_confirmed e' = true <->
       q <= weight_for is_final_vote rw (el_votes e) (block_hash (el_winner e'))) /\
    (el_winner e' <> el_winner e -> forall h,
       weight_for all_votes rw (el_votes e) h <= weight_for all_votes rw (el_votes e) (block_hash (el_winner e'))).
Proof.
  intros Hr He Hw Ht. destruct (update_tallies_ok rw q Hw e (reachable_election_ok e Hr) He) as (e' & E & _ & Hup).
  assert (forall P h, wrap 128 (weight_for P rw (el_votes e) h) = weight_for P rw (el_votes e) h) as Hx.
  { intros P h. apply wrap_small.
    pose proof (weight_for_total rw Hw P (el_votes e) h (fun k v => reachable_voter e k v Hr)).
    unfold in_u, u128_max in *. lia. }
  destruct Hup as [_ Ec _ Et Ef Es _ El Eg]. rewrite Hx in Et, Ef. exists e'. split_and!; try done.
  - unfold election_is_confirmed. rewrite Es, Ef. destruct (Z.leb_spec q (weight_for is_final_vote rw (el_votes e) (block_hash (el_winner e')))); [done|].
    destruct (el_state e); (split; [done|lia]) || done.
  - intros Hne h. destruct El as [El|El]; [done|]. specialize (El h). by rewrite Eg, Hx, Et in El.
Qed.

(** C7. Agreement: let the quorum be more than half of the voting weight. If two
    elections, on two nodes, are confirmed, then some representative with voting
    weight has cast a final vote for the winner of each. So two nodes confirm
    different blocks for one root only if a representative has voted finally for
    both of them. *)
Theorem conflicting_confirmation_needs_double_vote e1 e2 rw q e1' e2' :
  reachable_election e1 -> reachable_election e2 ->
  has_ended (el_state e1) = false -> has_ended (el_state e2) = false ->
  weights_ok rw -> map_sum (fun w => w) rw <= u128_max -> map_sum (fun w => w) rw < 2 * q ->
  update_tallies e1 rw q = Some e1' -> update_tallies e2 rw q = Some e2' ->
  election_is_confirmed e1' = true -> election_is_confirmed e2' = true ->
  exists k v1 v2, el_votes e1 !! k = Some v1 /\ el_votes e2 !! k = Some v2 /\
    is_final_vote v1 = true /\ is_final_vote v2 = true /\
    vs_hash v1 = block_hash (el_winner e1') /\ vs_hash v2 = block_hash (el_winner e2') /\
    0 < weight rw k.
Proof.
  intros Hr1 Hr2 He1 He2 Hw Ht Hq Hu1 Hu2 Hc1 Hc2.
  pose proof (confirmed_by_quorum e1 rw q e1' Hr1 He1 Hw Ht Hu1 Hc1) as H1.
  pose proof (confirmed_by_quorum e2 rw q e2' Hr2 He2 Hw Ht Hu2 Hc2) as H2.
  rewrite (weight_for_backers rw Hw) in H1, H2 by eauto using reachable_voter.
  set (l1 := backers rw is_final_vote (el_votes e1) (block_hash (el_winner e1'))) in *.
  set (l2 := backers rw is_final_vote (el_votes e2) (block_hash (el_winner e2'))) in *.
  destruct (decide (Exists (fun k => k ∈ l2) l1)) as [Hx|Hx].
  - apply Exists_exists in Hx as (k & (v1 & ? & ? & ? & ?)%elem_of_backers & (v2 & ? & ? & ? & ?)%elem_of_backers).
    by exists k, v1, v2.
  - assert (NoDup (l1 ++ l2)) as Hn.
    { apply NoDup_app. split; [apply backers_NoDup|]. split; [|apply backers_NoDup].
      intros k Hk1 Hk2. apply Hx, Exists_exists. by exists k. }
    apply (zsum_weight_le rw Hw) in Hn. rewrite fmap_app, zsum_app in Hn. lia.
Qed.

(** C21. An election that has ended stays ended, with the same winner, the same
    candidates and the same verdict, whatever is done with it afterwards. *)
Theorem ended_election_is_final e e' :
  has_ended (el_state e) = true -> rtc election_step e e' ->
  has_ended (el_state e') = true /\ el_winner e' = el_winner e /\
  el_candidate_blocks e' = el_candidate_blocks e /\ election_is_confirmed e' = election_is_confirmed e.
Proof. intros He Hs. by destruct (ended_steps _ _ Hs He). Qed.
End claims.

(** ** A concrete election

    Two sends of the same root; the genesis representative, with all the
    voting weight, votes finally for one on one node and for the other on
    another. *)

#[local] Existing Instance trie_order.
#[local] Existing Instance trie_order_laws.

Definition election_of (b : Block) : Election :=
  election_new (mkSavedBlock b (sv_sideband sample_genesis_block)) Priority (secs 1) 0.
Definition voted_election (b : Block) : Election := add_vote (election_of b) 100 (block_hash b) u64_max 5.
Definition voted_send : Election := Eval vm_compute in voted_election sample_send.
Definition voted_fork : Election := Eval vm_compute in voted_election sample_fork.
Definition sample_weights : gmap PublicKey Amount := {[ 100 := 1000 ]}.
Definition confirmed_of (e : Election) : Election := default e (update_tallies e sample_weights 670).
Definition confirmed_send : Election := Eval vm_compute in confirmed_of voted_send.
Definition confirmed_fork : Election := Eval vm_compute in confirmed_of voted_fork.

Lemma voted_election_reachable b :
  block_hash b <> 0 -> reachable_election (voted_election b).
Proof.
  intros Hnz. exists (mkSavedBlock b (sv_sideband sample_genesis_block)), Priority, (secs 1), 0. split; [done|].
  apply rtc_once, step_add_vote. unfold contains_block. cbn. apply bool_decide_eq_true. by rewrite lookup_singleton_eq.
Qed.

Lemma voted_send_reachable : reachable_election voted_send.
Proof. assert (voted_send = voted_election sample_send) as -> by (by vm_compute). apply voted_election_reachable. by vm_compute. Qed.
Lemma voted_fork_reachable : reachable_election voted_fork.
Proof. assert (voted_fork = voted_election sample_fork) as -> by (by vm_compute). apply voted_election_reachable. by vm_compute. Qed.

Lemma sample_weights_ok : weights_ok sample_weights.
Proof. unfold sample_weights. intros k w [<- <-]%lookup_singleton_Some. by vm_compute. Qed.

Lemma election_never_panics_witness :
  reachable_election voted_send /\ is_Some (update_tallies voted_send sample_weights 670) /\
  is_Some (try_add_fork voted_send sample_fork 7).
Proof.
  destruct (election_never_panics voted_send voted_send_reachable) as (_ & Hu & Hf).
  exact (conj voted_send_reachable (conj (Hu sample_weights 670 sample_weights_ok)
    (Hf sample_fork 7 ltac:(by vm_compute) ltac:(by vm_compute)))).
Defined.

Lemma update_tallies_exact_witness :
  exists e', update_tallies voted_send sample_weights 670 = Some e' /\ el_winner_final_tally e' = 1000.
Proof.
  destruct (update_tallies_exact voted_send sample_weights 670 voted_send_reachable ltac:(by vm_compute)
    sample_weights_ok ltac:(by vm_compute)) as (e' & E & _ & _ & Ef & _).
  exists e'. split; [exact E|]. assert (Some confirmed_send = Some e') as [= <-] by (rewrite <- E; by vm_compute).
  by vm_compute.
Defined.

Lemma conflicting_confirmation_needs_double_vote_witness :
  block_hash (el_winner confirmed_send) <> block_hash (el_winner confirmed_fork) /\
  exists k v1 v2, el_votes voted_send !! k = Some v1 /\ el_votes voted_fork !! k = Some v2 /\
    is_final_vote v1 = true /\ is_final_vote v2 = true /\
    vs_hash v1 = block_hash (el_winner confirmed_send) /\ vs_hash v2 = block_hash (el_winner confirmed_fork) /\
    0 < weight sample_weights k.
Proof.
  split; [by vm_compute|].
  exact (conflicting_confirmation_needs_double_vote voted_send voted_fork sample_weights 670 confirmed_send confirmed_fork
    voted_send_reachable voted_fork_reachable ltac:(by vm_compute) ltac:(by vm_compute) sample_weights_ok
    ltac:(by vm_compute) ltac:(by vm_compute) ltac:(by vm_compute) ltac:(by vm_compute) ltac:(by vm_compute) ltac:(by vm_compute)).
Defined.

Lemma ended_election_is_final_witness :
  el_winner (transition_time confirmed_send (secs 400)) = el_winner confirmed_send.
Proof.
  destruct (ended_election_is_final confirmed_send (transition_time confirmed_send (secs 400)) ltac:(by vm_compute)
    (rtc_once _ _ (step_time confirmed_send (secs 400)))) as (_ & E & _). exact E.
Defined.
