(* ===== verification/Ordered.v ===== *)
(** * Ordered collections of the standard library

    A [BTreeSet] is the list of its elements in ascending order of [Ord::cmp],
    given as a function to [comparison]. *)

From S2P Require Import Prelude.

Section btree.
Context {A : Type} (cmp : A -> A -> comparison).

Fixpoint btree_insert (x : A) (l : list A) : list A :=
  match l with
  | [] => [x]
  | y :: l' => match cmp x y with
               | Lt => x :: y :: l'
               | Eq => y :: l'
               | Gt => y :: btree_insert x l'
               end
  end.

Fixpoint btree_remove (x : A) (l : list A) : list A :=
  match l with
  | [] => []
  | y :: l' => match cmp x y with
               | Lt => y :: l'
               | Eq => l'
               | Gt => y :: btree_remove x l'
               end
  end.
End btree.

(** ** Laws *)

Record cmp_laws {A} (cmp : A -> A -> comparison) : Prop := {
  cmp_eq : forall x y, cmp x y = Eq <-> x = y;
  cmp_opp : forall x y, cmp y x = CompOpp (cmp x y);
  cmp_trans : forall x y z, cmp x y = Lt -> cmp y z = Lt -> cmp x z = Lt;
}.

Section btree_laws.
Context {A : Type} (cmp : A -> A -> comparison) (L : cmp_laws cmp).

Definition btree (l : list A) : Prop := StronglySorted (fun x y => cmp x y = Lt) l.

Lemma cmp_gt x y : cmp x y = Gt -> cmp y x = Lt.
Proof. intros E. by rewrite (cmp_opp _ L), E. Qed.

Lemma elem_of_btree_insert x l z : z ∈ btree_insert cmp x l <-> z = x \/ z ∈ l.
Proof.
  induction l as [|y l IH]; cbn; [by rewrite list_elem_of_singleton, elem_of_nil; tauto|].
  destruct (cmp x y) eqn:E.
  - apply (cmp_eq _ L) in E as ->. rewrite elem_of_cons. tauto.
  - by rewrite (elem_of_cons (y :: l)).
  - rewrite !elem_of_cons, IH. tauto.
Qed.

Lemma btree_insert_sorted x l : btree l -> btree (btree_insert cmp x l).
Proof.
  induction 1 as [|y l Hs IH Hall]; cbn; [by repeat constructor|]. destruct (cmp x y) eqn:E.
  - by constructor.
  - constructor; [by constructor|]. constructor; [done|]. eapply Forall_impl; [exact Hall|].
    intros z Hz. by eapply (cmp_trans _ L).
  - constructor; [done|]. apply Forall_forall. intros z [->|Hz]%elem_of_btree_insert; [by apply cmp_gt|].
    by eapply Forall_forall in Hz; [|exact Hall].
Qed.

Lemma btree_remove_sublist x l : btree_remove cmp x l `sublist_of` l.
Proof.
  induction l as [|y l IH]; cbn; [done|]. destruct (cmp x y); [by apply sublist_cons|done|by apply sublist_skip].
Qed.

Lemma btree_remove_sorted x l : btree l -> btree (btree_remove cmp x l).
Proof.
  induction 1 as [|y l Hs IH Hall]; cbn; [by constructor|]. destruct (cmp x y) eqn:E; [done|by constructor|].
  constructor; [done|]. apply Forall_forall. intros z Hz.
  eapply elem_of_submseteq in Hz; [|apply sublist_submseteq, btree_remove_sublist].
  by eapply Forall_forall in Hz; [|exact Hall].
Qed.

Lemma elem_of_btree_remove x l z : btree l -> z ∈ btree_remove cmp x l <-> z ∈ l /\ z <> x.
Proof.
  induction 1 as [|y l Hs IH Hall]; cbn; [rewrite elem_of_nil; tauto|].
  assert (forall w, cmp x w <> Gt -> Forall (fun u => cmp w u = Lt) l -> z ∈ l -> z <> x) as Hnot.
  { intros w Hw Hf Hz ->. rewrite Forall_forall in Hf. specialize (Hf x Hz).
    rewrite (cmp_opp _ L) in Hf. by destruct (cmp x w). }
  destruct (cmp x y) eqn:E.
  - apply (cmp_eq _ L) in E as ->. rewrite elem_of_cons.
    assert (z ∈ l -> z <> y) by (apply (Hnot y); [|done]; rewrite (proj2 (cmp_eq _ L y y) eq_refl); done). naive_solver.
  - split; [|tauto]. intros Hz. split; [done|]. apply elem_of_cons in Hz as [->|Hz]; [|eapply (Hnot y); by rewrite ?E].
    intros ->. by rewrite (proj2 (cmp_eq _ L x x) eq_refl) in E.
  - rewrite !elem_of_cons, IH. split; [|tauto]. intros [->|?]; [|tauto]. split; [by left|]. intros ->.
    by rewrite (proj2 (cmp_eq _ L x x) eq_refl) in E.
Qed.
End btree_laws.
