(* ===== verification/Collections.v ===== *)
(** * Maps with an order and secondary indexes

    A [BTreeMap] is a [gmap] whose entries are listed in the order of its keys,
    a [HashSet] a [gset] that is listed in the order of a hash map. The
    containers of the node keep their values in one map and list the keys of
    the values in further ones, by some part of the value: [index_ok] and
    [set_index_ok] say that such an index lists exactly what the map holds. *)

From S2P Require Import Prelude Election.

(** ** BTreeMap *)

Section btreemap.
Context {K V : Type} `{Countable K} (cmp : K -> K -> comparison).

Definition key_le (a b : K * V) : Prop := cmp a.1 b.1 <> Gt.

#[global] Instance key_le_dec a b : Decision (key_le a b).
Proof. unfold key_le. apply _. Defined.

(** [iter] *)
Definition btm_entries (m : gmap K V) : list (K * V) := merge_sort key_le (map_to_list m).

(** [first_key_value] and [last_key_value] *)
Definition btm_first (m : gmap K V) : option (K * V) := head (btm_entries m).
Definition btm_last (m : gmap K V) : option (K * V) := last (btm_entries m).

Lemma btm_entries_perm m : btm_entries m ≡ₚ map_to_list m.
Proof. apply merge_sort_Permutation. Qed.

Lemma elem_of_btm_entries m k v : (k, v) ∈ btm_entries m <-> m !! k = Some v.
Proof. by rewrite btm_entries_perm, elem_of_map_to_list. Qed.

Lemma btm_first_lookup m k v : btm_first m = Some (k, v) -> m !! k = Some v.
Proof. intros E%head_Some_elem_of. by apply elem_of_btm_entries. Qed.

Lemma btm_last_lookup m k v : btm_last m = Some (k, v) -> m !! k = Some v.
Proof. intros E%last_Some_elem_of. by apply elem_of_btm_entries. Qed.

Lemma btm_first_None m : btm_first m = None -> m = ∅.
Proof.
  unfold btm_first. intros E%head_None. apply map_to_list_empty_iff, Permutation_nil.
  by rewrite <- E, btm_entries_perm.
Qed.

Lemma btm_last_None m : btm_last m = None -> m = ∅.
Proof.
  unfold btm_last. intros E%last_None. apply map_to_list_empty_iff, Permutation_nil.
  by rewrite <- E, btm_entries_perm.
Qed.

(** What is needed of the order of the keys. *)
Record key_order : Prop := {
  ko_total : forall a b, cmp a b <> Gt \/ cmp b a <> Gt;
  ko_trans : forall a b c, cmp a b <> Gt -> cmp b c <> Gt -> cmp a c <> Gt;
}.

Lemma btm_entries_sorted m : key_order -> StronglySorted key_le (btm_entries m).
Proof.
  intros [Ht Htr]. assert (Transitive key_le) by (intros a b c; apply Htr).
  assert (Total key_le) by (intros a b; apply Ht). by apply StronglySorted_merge_sort.
Qed.

Lemma btm_first_least m k v k' v' :
  key_order -> btm_first m = Some (k, v) -> m !! k' = Some v' -> cmp k k' <> Gt.
Proof.
  intros Ho E Hk. pose proof (btm_entries_sorted m Ho) as Hs. apply elem_of_btm_entries in Hk. unfold btm_first in E.
  destruct (btm_entries m) as [|e l]; [done|]. injection E as ->. apply StronglySorted_inv in Hs as [_ Hall].
  apply elem_of_cons in Hk as [[= -> ->]|Hk]; [destruct (ko_total Ho k k); done|].
  rewrite Forall_forall in Hall. exact (Hall _ Hk).
Qed.

Lemma btm_last_greatest m k v k' v' :
  key_order -> btm_last m = Some (k, v) -> m !! k' = Some v' -> cmp k' k <> Gt.
Proof.
  intros Ho E Hk. pose proof (btm_entries_sorted m Ho) as Hs. apply elem_of_btm_entries in Hk. unfold btm_last in E.
  destruct (btm_entries m) as [|e l] using rev_ind; [done|]. rewrite last_snoc in E. injection E as ->.
  apply elem_of_app in Hk as [Hk|[= -> ->]%list_elem_of_singleton]; [|by destruct (ko_total Ho k k)].
  apply StronglySorted_app in Hs as (Hs & _ & _). apply (Hs (k', v') (k, v)); [done|by left].
Qed.
End btreemap.

Lemma Z_key_order : key_order Z.compare.
Proof. split; intros *; rewrite !Z.compare_ngt_iff; lia. Qed.

Definition desc (a b : Z) : comparison := Z.compare b a.

Lemma desc_key_order : key_order desc.
Proof. unfold desc. split; intros *; rewrite !Z.compare_ngt_iff; lia. Qed.

(** ** HashSet *)

Definition set_iter `{HashOrder} `{Countable A} (s : gset A) : list A := (hash_iter (gset_to_gmap () s)).*1.

Lemma set_iter_perm `{HL : HashOrderLaws} `{Countable A} (s : gset A) : set_iter s ≡ₚ elements s.
Proof.
  unfold set_iter. rewrite hash_iter_perm. apply NoDup_Permutation.
  - apply NoDup_fst_map_to_list.
  - apply NoDup_elements.
  - intros x. rewrite elem_of_elements, list_elem_of_fmap. split.
    + intros ([y []] & -> & [Hy _]%elem_of_map_to_list%lookup_gset_to_gmap_Some). done.
    + intros Hx. exists (x, ()). split; [done|]. by apply elem_of_map_to_list, lookup_gset_to_gmap_Some.
Qed.

Lemma elem_of_set_iter `{HL : HashOrderLaws} `{Countable A} (s : gset A) x : x ∈ set_iter s <-> x ∈ s.
Proof. by rewrite set_iter_perm, elem_of_elements. Qed.

(** ** Sorting *)

(** The stable sort of [sort_by]. *)
Fixpoint insert_by {A} (le : A -> A -> bool) (x : A) (l : list A) : list A :=
  match l with
  | [] => [x]
  | y :: l' => if le x y then x :: l else y :: insert_by le x l'
  end.
Definition sort_by {A} (le : A -> A -> bool) (l : list A) : list A := foldr (insert_by le) [] l.

Lemma insert_by_perm {A} (le : A -> A -> bool) x l : insert_by le x l ≡ₚ x :: l.
Proof. induction l as [|y l IH]; [done|]. cbn. case_match; [done|]. rewrite IH. constructor. Qed.

Lemma sort_by_perm {A} (le : A -> A -> bool) l : sort_by le l ≡ₚ l.
Proof. induction l as [|x l IH]; [done|]. cbn. by rewrite insert_by_perm, IH. Qed.

Lemma insert_by_sorted {A} (le : A -> A -> bool) x l :
  (forall a b, le a b = true \/ le b a = true) -> (forall a b c, le a b = true -> le b c = true -> le a c = true) ->
  StronglySorted (fun a b => le a b = true) l -> StronglySorted (fun a b => le a b = true) (insert_by le x l).
Proof.
  intros Ht Htr. induction 1 as [|y l Hs IH Hall]; [by repeat constructor|]. cbn. destruct (le x y) eqn:E.
  - constructor; [by constructor|]. constructor; [done|]. eapply Forall_impl; [exact Hall|]. cbn. eauto.
  - constructor; [done|]. rewrite insert_by_perm. constructor; [|done]. destruct (Ht x y); congruence.
Qed.

Lemma sort_by_sorted {A} (le : A -> A -> bool) l :
  (forall a b, le a b = true \/ le b a = true) -> (forall a b c, le a b = true -> le b c = true -> le a c = true) ->
  StronglySorted (fun a b => le a b = true) (sort_by le l).
Proof. intros Ht Htr. induction l as [|x l IH]; [constructor|]. cbn. by apply insert_by_sorted. Qed.

(** ** Removing many keys *)

Lemma foldl_delete_lookup {K V} `{Countable K} (l : list K) (m : gmap K V) k :
  foldl (fun m k => delete k m) m l !! k = if decide (k ∈ l) then None else m !! k.
Proof.
  revert m. induction l as [|a l IH]; intros m; cbn [foldl].
  - rewrite decide_False; [done|]. apply not_elem_of_nil.
  - rewrite IH. destruct (decide (k = a)) as [->|Hne].
    + rewrite lookup_delete_eq, (decide_True (P := a ∈ a :: l)) by (by left). by destruct (decide _).
    + rewrite lookup_delete_ne by done. apply decide_ext. rewrite elem_of_cons. naive_solver.
Qed.

(** ** Indexes of lists *)

Lemma filter_ne_perm {A} `{EqDecision A} (x : A) l : NoDup l -> x ∈ l -> l ≡ₚ x :: filter (fun y => y <> x) l.
Proof.
  induction 1 as [|y l Hy Hl IH]; intros Hx; [by apply elem_of_nil in Hx|]. rewrite filter_cons.
  apply elem_of_cons in Hx as [->|Hx].
  - rewrite decide_False by (by intros ?). f_equiv.
    clear -Hy. induction l as [|z l IH]; [done|]. apply not_elem_of_cons in Hy as [Hz Hy].
    rewrite filter_cons, decide_True by congruence. by rewrite <- IH.
  - destruct (decide (y <> x)) as [|Hyx]; [|destruct Hyx; by intros ->].
    rewrite (IH Hx) at 1. constructor.
Qed.

Section index.
Context {K B A : Type} `{Countable K} `{Countable B} (key : A -> K).

(** [entry(k).or_default().push(e)] *)
Definition index_push (k : K) (e : B) (m : gmap K (list B)) : gmap K (list B) :=
  <[k := default [] (m !! k) ++ [e]]> m.

(** Takes one element out of the list of its key; [None] is [unwrap] on a
    missing list. *)
Definition index_remove (k : K) (e : B) (m : gmap K (list B)) : option (gmap K (list B)) :=
  l ← m !! k;
  Some (if (1 <? length l)%nat then <[k := filter (fun x => x <> e) l]> m else delete k m).

(** The same where the list goes when its length is one. *)
Definition index_take (k : K) (e : B) (m : gmap K (list B)) : option (gmap K (list B)) :=
  l ← m !! k;
  Some (if (length l =? 1)%nat then delete k m else <[k := filter (fun x => x <> e) l]> m).

(** An index by key lists exactly the elements of the key. *)
Definition index_ok (m : gmap B A) (idx : gmap K (list B)) : Prop :=
  forall k, NoDup (default [] (idx !! k)) /\ idx !! k <> Some [] /\
    forall e, e ∈ default [] (idx !! k) <-> exists a, m !! e = Some a /\ key a = k.

Lemma index_empty_ok : index_ok ∅ ∅.
Proof.
  intros k. rewrite lookup_empty. split; [constructor|]. split; [done|]. intros x. split; [by intros ?%elem_of_nil|].
  intros (a & E & _). by rewrite lookup_empty in E.
Qed.

Lemma index_push_ok m idx e a :
  index_ok m idx -> m !! e = None -> index_ok (<[e := a]> m) (index_push (key a) e idx).
Proof.
  intros Hi E k. destruct (Hi k) as (Hnd & Hne & He). unfold index_push. destruct (decide (k = key a)) as [->|Hk].
  - rewrite lookup_insert_eq. cbn. split; [|split].
    + apply NoDup_app. split; [done|]. split; [|apply NoDup_singleton].
      intros x Hx ->%list_elem_of_singleton. apply He in Hx as (a' & ? & _). congruence.
    + intros [=]. by destruct (default [] (idx !! key a)).
    + intros x. rewrite elem_of_app, list_elem_of_singleton, He. destruct (decide (x = e)) as [->|].
      * rewrite lookup_insert_eq. split; [by eexists|by right].
      * rewrite lookup_insert_ne by done. split; [intros [?|]; done|by left].
  - rewrite lookup_insert_ne by done. split; [done|]. split; [done|]. intros x. rewrite He.
    destruct (decide (x = e)) as [->|]; [|by rewrite lookup_insert_ne].
    rewrite lookup_insert_eq. split; intros (a' & E' & Ek); [congruence|]. injection E' as <-. by destruct Hk.
Qed.

Lemma index_remove_ok m idx e a :
  index_ok m idx -> m !! e = Some a ->
  exists idx', index_remove (key a) e idx = Some idx' /\ index_ok (delete e m) idx'.
Proof.
  intros Hi E. unfold index_remove. destruct (Hi (key a)) as (Hnd & Hne & He).
  assert (e ∈ default [] (idx !! key a)) as Hin by (apply He; by eexists).
  destruct (idx !! key a) as [l|] eqn:El; [|by apply elem_of_nil in Hin]. cbn in Hnd, Hne, He, Hin.
  cbn [mbind option_bind]. eexists. split; [done|].
  assert (forall x, x ∈ l /\ x <> e <-> exists a', delete e m !! x = Some a' /\ key a' = key a) as Hrest.
  { intros x. rewrite He. destruct (decide (x = e)) as [->|]; [rewrite lookup_delete_eq|rewrite lookup_delete_ne by done]; naive_solver. }
  intros k. destruct (decide (k = key a)) as [->|Hk].
  - destruct (Nat.ltb_spec 1 (length l)) as [Hl|Hl]; [rewrite lookup_insert_eq|rewrite lookup_delete_eq]; cbn.
    + split; [by apply NoDup_filter|]. split.
      * intros [=Hf]. pose proof (filter_ne_perm e l Hnd Hin) as Hp%Permutation_length. rewrite Hf in Hp. cbn in Hp. lia.
      * intros x. rewrite list_elem_of_filter, <- Hrest. tauto.
    + split; [by constructor|]. split; [done|]. intros x. rewrite <- Hrest.
      destruct l as [|y [|]]; [done| |cbn in Hl; lia]. apply list_elem_of_singleton in Hin as ->.
      rewrite list_elem_of_singleton, elem_of_nil. tauto.
  - assert ((if (1 <? length l)%nat then <[key a := filter (fun x => x <> e) l]> idx else delete (key a) idx) !! k = idx !! k) as ->.
    { destruct (1 <? length l)%nat; [by rewrite lookup_insert_ne|by rewrite lookup_delete_ne]. }
    destruct (Hi k) as (? & ? & Hk'). split; [done|]. split; [done|]. intros x. rewrite Hk'.
    destruct (decide (x = e)) as [->|]; [rewrite lookup_delete_eq|by rewrite lookup_delete_ne]. naive_solver.
Qed.

Lemma index_take_ok m idx e a :
  index_ok m idx -> m !! e = Some a ->
  exists idx', index_take (key a) e idx = Some idx' /\ index_ok (delete e m) idx'.
Proof.
  intros Hi E. destruct (index_remove_ok m idx e a Hi E) as (idx' & E' & Hok). exists idx'. split; [|done].
  rewrite <- E'. unfold index_take, index_remove. destruct (Hi (key a)) as (_ & Hne & _).
  destruct (idx !! key a) as [[|x [|y l]]|]; [|by cbn..]. done.
Qed.

(** Moves an element from one list to another. *)
Lemma index_move_ok m idx e a a' :
  index_ok m idx -> m !! e = Some a ->
  exists idx', index_take (key a) e idx = Some idx' /\ index_ok (<[e := a']> m) (index_push (key a') e idx').
Proof.
  intros Hi E. destruct (index_take_ok m idx e a Hi E) as (idx' & E' & Hok). exists idx'. split; [done|].
  rewrite <- insert_delete_eq. apply index_push_ok; [done|]. apply lookup_delete_eq.
Qed.

Lemma index_update m idx e a a' :
  index_ok m idx -> m !! e = Some a -> key a' = key a -> index_ok (<[e := a']> m) idx.
Proof.
  intros Hi Ee Ek k. destruct (Hi k) as (? & ? & Hk). split; [done|]. split; [done|]. intros x. rewrite Hk.
  destruct (decide (x = e)) as [->|]; [rewrite lookup_insert_eq, Ee|by rewrite lookup_insert_ne].
  split; intros (b & [= <-] & <-); by eexists.
Qed.
End index.

(** ** Indexes of sets *)

Section set_index.
Context {K B A : Type} `{Countable K} `{Countable B} (key : A -> K).

(** [entry(k).or_default().insert(e)] *)
Definition set_index_insert (k : K) (e : B) (m : gmap K (gset B)) : gmap K (gset B) :=
  <[k := {[e]} ∪ default ∅ (m !! k)]> m.

Definition set_index_ok (m : gmap B A) (idx : gmap K (gset B)) : Prop :=
  forall k, idx !! k <> Some ∅ /\
    forall e, e ∈ default ∅ (idx !! k) <-> exists a, m !! e = Some a /\ key a = k.

(** The set of a key without one of its elements, dropped when it gets empty. *)
Definition set_index_without (k : K) (e : B) (s : gset B) (m : gmap K (gset B)) : gmap K (gset B) :=
  if (size s =? 1)%nat then delete k m else <[k := s ∖ {[e]}]> m.

Lemma set_index_empty : set_index_ok ∅ ∅.
Proof.
  intros k. rewrite lookup_empty. split; [done|]. intros e. split; [by intros ?%elem_of_empty|].
  intros (a & Ea & _). by rewrite lookup_empty in Ea.
Qed.

Lemma set_index_insert_ok m idx e a :
  set_index_ok m idx -> m !! e = None -> set_index_ok (<[e := a]> m) (set_index_insert (key a) e idx).
Proof.
  intros Hi Ee k. destruct (Hi k) as (Hne & He). unfold set_index_insert. destruct (decide (k = key a)) as [->|Hk].
  - rewrite lookup_insert_eq. cbn. split; [intros [=Hx%empty_union_L]; by destruct Hx as [?%non_empty_singleton_L _]|].
    intros x. rewrite elem_of_union, elem_of_singleton, He. destruct (decide (x = e)) as [->|].
    + rewrite lookup_insert_eq. split; [by eexists|by left].
    + rewrite lookup_insert_ne by done. split; [intros [?|]; done|by right].
  - rewrite lookup_insert_ne by done. split; [done|]. intros x. rewrite He.
    destruct (decide (x = e)) as [->|]; [|by rewrite lookup_insert_ne].
    rewrite lookup_insert_eq. split; intros (b & Eb & Ek); [congruence|]. injection Eb as <-. by destruct Hk.
Qed.

Lemma set_index_lookup m idx e a :
  set_index_ok m idx -> m !! e = Some a -> exists s, idx !! key a = Some s /\ e ∈ s.
Proof.
  intros Hi Ee. destruct (Hi (key a)) as (_ & He).
  assert (e ∈ default ∅ (idx !! key a)) as Hin by (apply He; by eexists).
  destruct (idx !! key a) as [s|]; [by exists s|by apply elem_of_empty in Hin].
Qed.

Lemma set_index_without_ok m idx e a s :
  set_index_ok m idx -> m !! e = Some a -> idx !! key a = Some s ->
  set_index_ok (delete e m) (set_index_without (key a) e s idx).
Proof.
  intros Hi Ee Es k. destruct (Hi (key a)) as (_ & He). rewrite Es in He. cbn in He.
  assert (e ∈ s) as Hin by (apply He; by eexists).
  assert (forall x, x ∈ s /\ x <> e <-> exists b, delete e m !! x = Some b /\ key b = key a) as Hrest.
  { intros x. rewrite He. destruct (decide (x = e)) as [->|]; [rewrite lookup_delete_eq|rewrite lookup_delete_ne by done]; naive_solver. }
  unfold set_index_without. destruct (decide (k = key a)) as [->|Hk].
  - destruct (Nat.eqb_spec (size s) 1) as [Hl|Hl]; [rewrite lookup_delete_eq|rewrite lookup_insert_eq]; cbn.
    + split; [done|]. intros x. rewrite <- Hrest. apply size_1_elem_of in Hl as (y & Hy). rewrite Hy in Hin |- *.
      apply elem_of_singleton in Hin as ->. rewrite elem_of_singleton, elem_of_empty. tauto.
    + split; [|intros x; by rewrite <- Hrest, elem_of_difference, elem_of_singleton]. intros [=Hx]. apply Hl.
      rewrite (union_difference_L {[e]} s), Hx, union_empty_r_L by (by apply singleton_subseteq_l). apply size_singleton.
  - assert ((if (size s =? 1)%nat then delete (key a) idx else <[key a := s ∖ {[e]}]> idx) !! k = idx !! k) as ->.
    { destruct (size s =? 1)%nat; [by rewrite lookup_delete_ne|by rewrite lookup_insert_ne]. }
    destruct (Hi k) as (? & Hk'). split; [done|]. intros x. rewrite Hk'.
    destruct (decide (x = e)) as [->|]; [rewrite lookup_delete_eq|by rewrite lookup_delete_ne]. naive_solver.
Qed.

(** Several elements of one key at once. *)
Lemma set_index_remove_ok m m' idx k s (l : gset B) :
  set_index_ok m idx -> idx !! k = Some s -> l ⊆ s -> (forall e, m' !! e = if decide (e ∈ l) then None else m !! e) ->
  set_index_ok m' (if decide (s ∖ l = ∅) then delete k idx else <[k := s ∖ l]> idx).
Proof.
  intros Hi Es Hl Hm. destruct (Hi k) as (_ & Hk). rewrite Es in Hk. cbn in Hk.
  assert (Hrest : forall e, e ∈ s ∖ l <-> exists a, m' !! e = Some a /\ key a = k).
  { intros e. rewrite elem_of_difference, Hk, Hm. destruct (decide (e ∈ l)); naive_solver. }
  intros k'. destruct (decide (k' = k)) as [->|Hne].
  - case_decide as Hd; [rewrite lookup_delete_eq|rewrite lookup_insert_eq]; cbn.
    + split; [done|]. intros e. by rewrite <- Hrest, Hd.
    + split; [by intros [=]|done].
  - assert ((if decide (s ∖ l = ∅) then delete k idx else <[k := s ∖ l]> idx) !! k' = idx !! k') as ->.
    { case_decide; [by rewrite lookup_delete_ne|by rewrite lookup_insert_ne]. }
    destruct (Hi k') as (? & Hk'). split; [done|]. intros e. rewrite Hk', Hm. destruct (decide (e ∈ l)) as [Hin|Hin]; [|done].
    split; [|by intros (? & ? & _)]. intros (a & Ea & Ek). apply Hl, Hk in Hin as (a' & Ea' & Ek'). congruence.
Qed.

(** The same as code that removes the element first and then looks whether the
    set is empty. *)
Lemma set_index_without_empty k e s (m : gmap K (gset B)) :
  e ∈ s -> (if decide (s ∖ {[e]} = ∅) then delete k m else <[k := s ∖ {[e]}]> m) = set_index_without k e s m.
Proof.
  intros He. unfold set_index_without. pose proof (union_difference_L {[e]} s ltac:(by apply singleton_subseteq_l)) as Es.
  destruct (Nat.eqb_spec (size s) 1) as [Hs|Hs]; case_decide as Hd; try done.
  - destruct Hd. apply size_1_elem_of in Hs as (y & ->%leibniz_equiv). apply elem_of_singleton in He as ->.
    apply difference_diag_L.
  - destruct Hs. rewrite Es, Hd, union_empty_r_L. apply size_singleton.
Qed.

Lemma set_index_update m idx e a a' :
  set_index_ok m idx -> m !! e = Some a -> key a' = key a -> set_index_ok (<[e := a']> m) idx.
Proof.
  intros Hi Ee Ek k. destruct (Hi k) as (? & Hk). split; [done|]. intros x. rewrite Hk.
  destruct (decide (x = e)) as [->|]; [rewrite lookup_insert_eq, Ee|by rewrite lookup_insert_ne].
  split; intros (b & [= <-] & <-); by eexists.
Qed.
End set_index.

(** *** The elements of an index, in the order of their keys *)

Section by_key.
Context `{HL : HashOrderLaws} {K B A : Type} `{Countable K} `{Countable B} (key : A -> K) (cmp : K -> K -> comparison).

Definition index_iter (idx : gmap K (gset B)) : list B := mjoin (set_iter <$> (btm_entries cmp idx).*2).

(** An element comes before another only if its key does not come after. *)
Definition in_key_order (m : gmap B A) (x y : B) : Prop :=
  forall a b, m !! x = Some a -> m !! y = Some b -> cmp (key a) (key b) <> Gt.

Lemma join_sets_sorted m (es : list (K * gset B)) :
  key_order cmp -> StronglySorted (key_le cmp) es -> NoDup es.*1 ->
  Forall (fun e => forall x a, x ∈ e.2 -> m !! x = Some a -> key a = e.1) es ->
  Forall (fun e => forall x, x ∈ e.2 -> is_Some (m !! x)) es ->
  StronglySorted (in_key_order m) (mjoin (set_iter <$> es.*2)) /\ NoDup (mjoin (set_iter <$> es.*2)).
Proof using HL.
  intros Ho. induction 1 as [|[k s] es Hs IH Hall]; intros Hnd Ht Hx; [split; constructor|].
  apply NoDup_cons in Hnd as [Hn Hnd]. apply Forall_cons in Ht as [Hts Ht]. apply Forall_cons in Hx as [Hxs Hx].
  destruct (IH Hnd Ht Hx) as [IH1 IH2]. rewrite !fmap_cons. cbn [mjoin list_join fst snd] in *.
  assert (forall x, x ∈ mjoin (set_iter <$> es.*2) -> exists e, e ∈ es /\ x ∈ e.2) as Hin.
  { intros x (l & Hh & Hl)%list_elem_of_join. rewrite <- list_fmap_compose in Hl. apply list_elem_of_fmap in Hl as (e & -> & He).
    exists e. split; [done|]. by apply elem_of_set_iter. }
  rewrite Forall_forall in Hall, Ht, Hx. split.
  - apply StronglySorted_app_2; [| |done].
    + intros x y Hxin Hyin a b Ea Eb. apply elem_of_set_iter in Hxin. destruct (Hin _ Hyin) as (e & He & Hy).
      rewrite (Hts _ _ Hxin Ea), (Ht _ He _ _ Hy Eb). exact (Hall _ He).
    + assert (forall x, x ∈ set_iter s -> x ∈ s) as Hsub by (intros x; apply elem_of_set_iter).
      induction (set_iter s) as [|x l IHl]; constructor; [apply IHl; intros y Hy; apply Hsub; by right|].
      apply Forall_forall. intros y Hy a b Ea Eb. rewrite (Hts x a), (Hts y b); try done; [|by apply Hsub; right|by apply Hsub; left].
      by destruct (ko_total _ Ho k k).
  - apply NoDup_app. split; [rewrite set_iter_perm; apply NoDup_elements|]. split; [|done].
    intros x Hxin Hc. destruct (Hin _ Hc) as (e & He & Hxe). apply elem_of_set_iter in Hxin.
    destruct (Hxs _ Hxin) as [a Ea]. apply Hn. rewrite <- (Hts _ _ Hxin Ea), (Ht _ He _ _ Hxe Ea). by apply list_elem_of_fmap_2.
Qed.

Lemma index_iter_ok m idx :
  key_order cmp -> set_index_ok key m idx ->
  StronglySorted (in_key_order m) (index_iter idx) /\ NoDup (index_iter idx) /\
  forall x, x ∈ index_iter idx <-> is_Some (m !! x).
Proof using HL.
  intros Ho Hi. destruct (join_sets_sorted m (btm_entries cmp idx) Ho) as [H1 H2].
  - by apply btm_entries_sorted.
  - rewrite btm_entries_perm. apply NoDup_fst_map_to_list.
  - apply Forall_forall. intros [k s] Hs%elem_of_btm_entries x a Hx Ea. destruct (Hi k) as [_ He]. rewrite Hs in He.
    apply He in Hx as (a' & Ea' & Ek). cbn. congruence.
  - apply Forall_forall. intros [k s] Hs%elem_of_btm_entries x Hx. destruct (Hi k) as [_ He]. rewrite Hs in He.
    apply He in Hx as (a & Ea & _). by exists a.
  - split; [done|]. split; [done|]. intros x. unfold index_iter. rewrite list_elem_of_join.
    setoid_rewrite <- list_fmap_compose. split.
    + intros (l & Hh & ([k s] & -> & Hs%elem_of_btm_entries)%list_elem_of_fmap). apply elem_of_set_iter in Hh. cbn in Hh.
      destruct (Hi k) as [_ He]. rewrite Hs in He. apply He in Hh as (a & E & _). by exists a.
    + intros (a & E). destruct (set_index_lookup key _ _ _ _ Hi E) as (s & Hs & Hh).
      exists (set_iter s). split; [by apply elem_of_set_iter|]. apply list_elem_of_fmap. exists (key a, s).
      split; [done|]. by apply elem_of_btm_entries.
Qed.
End by_key.
