(* ===== verification/Floats.v ===== *)
(** * Floating-point numbers

    [f64] is the binary64 of the specification of floats. The order of the
    crate ordered_float is a parameter with its documented laws. *)

From Stdlib Require Import SpecFloat.
From S2P Require Import Prelude Collections.

(** ** f64 *)

Definition f64_of_int (n : Z) : spec_float := binary_normalize 53 1024 n 0 false.
Definition f64_mul : spec_float -> spec_float -> spec_float := SFmul 53 1024.
Definition f64_div : spec_float -> spec_float -> spec_float := SFdiv 53 1024.

(** [as usize]: truncates and saturates. *)
Definition f64_as_usize (f : spec_float) : Z :=
  match f with
  | S754_finite false m e => Z.min (2 ^ 64 - 1) (if 0 <=? e then Zpos m * 2 ^ e else Zpos m / 2 ^ (- e))
  | S754_infinity false => 2 ^ 64 - 1
  | _ => 0
  end.
Definition f64_add : spec_float -> spec_float -> spec_float := SFadd 53 1024.

#[global] Instance spec_float_eq_dec : EqDecision spec_float.
Proof. solve_decision. Defined.

#[global] Program Instance spec_float_countable : Countable spec_float :=
  inj_countable'
    (fun f => match f with
              | S754_zero s => inl (inl s)
              | S754_infinity s => inl (inr s)
              | S754_nan => inr (inl ())
              | S754_finite s m e => inr (inr (s, m, e))
              end)
    (fun x => match x with
              | inl (inl s) => S754_zero s
              | inl (inr s) => S754_infinity s
              | inr (inl _) => S754_nan
              | inr (inr (s, m, e)) => S754_finite s m e
              end) _.
Next Obligation. by intros []. Qed.

(** [>=] of the language; a comparison with NaN is false. *)
Definition f64_ge (a b : spec_float) : bool :=
  match SFcompare a b with Some Eq | Some Gt => true | _ => false end.

(** ** OrderedFloat

    [Ord] of the crate: the order of numbers, NaN equal to itself and greater
    than the rest. *)

Class OrderedFloat := ordered_cmp : spec_float -> spec_float -> comparison.
Class OrderedFloatLaws (O : OrderedFloat) := {
  ordered_number : forall a b c, SFcompare a b = Some c -> ordered_cmp a b = c;
  ordered_nan : forall a, ordered_cmp S754_nan a = if decide (a = S754_nan) then Eq else Gt;
  ordered_nan_r : forall a, a <> S754_nan -> ordered_cmp a S754_nan = Lt;
}.

Definition model_ordered_float : OrderedFloat := fun a b =>
  match SFcompare a b with
  | Some c => c
  | None => if decide (a = S754_nan) then (if decide (b = S754_nan) then Eq else Gt) else Lt
  end.

Lemma model_ordered_float_laws : OrderedFloatLaws model_ordered_float.
Proof.
  split; unfold ordered_cmp, model_ordered_float.
  - by intros a b c ->.
  - by intros a; cbn; rewrite decide_True.
  - intros a Ha. rewrite (decide_False (P := (a = S754_nan))) by done. by destruct a.
Qed.

(** The order of the crate is that of three integers. *)
Definition float_rank (f : spec_float) : Z * Z * Z :=
  match f with
  | S754_infinity true => (0, 0, 0)
  | S754_finite true m e => (1, - e, - Zpos m)
  | S754_zero _ => (2, 0, 0)
  | S754_finite false m e => (3, e, Zpos m)
  | S754_infinity false => (4, 0, 0)
  | S754_nan => (5, 0, 0)
  end.

Definition lex (a b : Z * Z * Z) : comparison :=
  match Z.compare a.1.1 b.1.1 with
  | Eq => match Z.compare a.1.2 b.1.2 with Eq => Z.compare a.2 b.2 | c => c end
  | c => c
  end.

Lemma lex_le a b : lex a b <> Gt <-> a.1.1 < b.1.1 \/ a.1.1 = b.1.1 /\ (a.1.2 < b.1.2 \/ a.1.2 = b.1.2 /\ a.2 <= b.2).
Proof.
  unfold lex. destruct (Z.compare_spec a.1.1 b.1.1); [|split; [lia|done]|split; [done|lia]].
  destruct (Z.compare_spec a.1.2 b.1.2); [|split; [lia|done]|split; [done|lia]].
  rewrite Z.compare_ngt_iff. lia.
Qed.

Section ordered.
Context `{OL : OrderedFloatLaws}.

Lemma ordered_rank a b : ordered_cmp a b = lex (float_rank a) (float_rank b).
Proof using OL.
  destruct (decide (a = S754_nan)) as [->|Ha].
  { rewrite ordered_nan. by destruct b as [[]|[]| |[] ??]. }
  destruct (decide (b = S754_nan)) as [->|Hb].
  { rewrite ordered_nan_r by done. by destruct a as [[]|[]| |[] ??]. }
  apply ordered_number. destruct a as [[]|[]| |[] m e], b as [[]|[]| |[] m' e']; try done; unfold lex; cbn [SFcompare float_rank fst snd];
    f_equal; rewrite Z.compare_refl.
  assert ((- e ?= - e') = CompOpp (e ?= e')) as -> by (rewrite <- Z.compare_antisym; apply Z.compare_opp).
  by destruct (e ?= e').
Qed.

Lemma ordered_key_order : key_order (fun a b => ordered_cmp b a).
Proof using OL. split; intros *; rewrite !ordered_rank, !lex_le; lia. Qed.

(** Floats without a sign are equal for the order only if they are the same. *)
Definition unsigned (f : spec_float) : bool :=
  match f with S754_zero s | S754_infinity s | S754_finite s _ _ => negb s | S754_nan => true end.

Lemma ordered_eq a b : unsigned a = true -> unsigned b = true -> ordered_cmp a b = Eq -> a = b.
Proof using OL.
  rewrite ordered_rank. destruct a as [[]|[]| |[] m e], b as [[]|[]| |[] m' e']; try done. intros _ _. unfold lex. cbn.
  destruct (Z.compare_spec e e') as [->| |]; try done. by intros ->%Pos.compare_eq.
Qed.

Lemma ordered_refl a : ordered_cmp a a = Eq.
Proof using OL. rewrite ordered_rank. unfold lex. by rewrite !Z.compare_refl. Qed.
End ordered.

(** Sums and quotients of floats without a sign have none. *)
Lemma unsigned_round m e l : unsigned (binary_round_aux 53 1024 false m e l) = true.
Proof.
  unfold binary_round_aux. destruct (shr_fexp _ _ _ _ _) as [mrs e']. destruct (shr_fexp _ _ _ _ _) as [mrs' e''].
  destruct (shr_m mrs'); try done. by destruct (e'' <=? _).
Qed.

Lemma unsigned_add a b : unsigned a = true -> unsigned b = true -> unsigned (f64_add a b) = true.
Proof.
  destruct a as [[]|[]| |[] m e], b as [[]|[]| |[] m' e']; try done. intros _ _. unfold f64_add, SFadd.
  cbn [cond_Zopp]. unfold binary_normalize. destruct (_ + _) eqn:E; [done| |].
  - clear E. unfold binary_round. destruct (shl_align _ _ _). apply unsigned_round.
  - exfalso. pose proof (Pos2Z.is_pos (fst (shl_align m e (Z.min e e')))).
    pose proof (Pos2Z.is_pos (fst (shl_align m' e' (Z.min e e')))). lia.
Qed.

Lemma unsigned_div a b : unsigned a = true -> unsigned b = true -> unsigned (f64_div a b) = true.
Proof.
  destruct a as [[]|[]| |[] m e], b as [[]|[]| |[] m' e']; try done. intros _ _. unfold f64_div, SFdiv.
  destruct (SFdiv_core_binary _ _ _ _ _ _) as [[mz ez] lz]. apply unsigned_round.
Qed.
