(* ===== verification/ActiveElections.v ===== *)
(** * The active elections container (node/src/consensus/active_elections)

    The container owns the elections that run. [RootContainer] keeps them by
    qualified root, in buckets ordered by priority, with a router from the hash
    of each candidate to the root of its election. A panic is [None]. A
    [BTreeSet] is the list of its elements in order. The channel to the
    observer is the list of the events sent; its receiver is alive as long as
    the container holds the sender. Statistics, and the wall clock time in a
    [ConfirmedElection], are left out. *)

From S2P Require Import Prelude Types Blocks Votes Election Ordered.

(** ** Buckets (election_schedulers/priority/bucketing.rs) *)

Definition build_region (begin end_ : Z) (count : nat) : list Amount :=
  let width := (end_ - begin) / Z.of_nat count in
  (fun i => begin + Z.of_nat i * width) <$> seq 0 count.

Definition minimums : list Amount :=
  build_region 0 (Z.shiftl 1 79) 1 ++
  build_region (Z.shiftl 1 79) (Z.shiftl 1 88) 1 ++
  build_region (Z.shiftl 1 88) (Z.shiftl 1 92) 2 ++
  build_region (Z.shiftl 1 92) (Z.shiftl 1 96) 4 ++
  build_region (Z.shiftl 1 96) (Z.shiftl 1 100) 8 ++
  build_region (Z.shiftl 1 100) (Z.shiftl 1 104) 16 ++
  build_region (Z.shiftl 1 104) (Z.shiftl 1 108) 16 ++
  build_region (Z.shiftl 1 108) (Z.shiftl 1 112) 8 ++
  build_region (Z.shiftl 1 112) (Z.shiftl 1 116) 4 ++
  build_region (Z.shiftl 1 116) (Z.shiftl 1 120) 2 ++
  build_region (Z.shiftl 1 120) (Z.shiftl 1 127) 1.

Definition prio_bucket_count : nat := length minimums.

(** [None] is the [unreachable!()] for a balance below every minimum. *)
Definition prio_bucket_index (balance : Amount) : option nat :=
  fst <$> find (fun p => p.2 <=? balance) (rev (imap pair minimums)).

Definition bucket_count : nat := prio_bucket_count + 1 + 1 + 1.

Definition bucket_index (behavior : ElectionBehavior) (balance : Amount) : option nat :=
  match behavior with
  | Priority => prio_bucket_index balance
  | Manual => Some prio_bucket_count
  | Hinted => Some (prio_bucket_count + 1)%nat
  | Optimistic => Some (prio_bucket_count + 2)%nat
  end.

(** ** RootContainer (root_container.rs, vote_router.rs) *)

Record Entry := mkEntry {
  en_root : QualifiedRoot;
  en_election : Election;
  en_priority : BlockPriority;
}.

Definition entry_bucket (e : Entry) : option nat :=
  bucket_index (el_behavior (en_election e)) (bp_balance (en_priority e)).

Record BucketEntry := mkBucketEntry { be_root : QualifiedRoot; be_priority : BlockPriority }.

#[global] Instance BucketEntry_eq_dec : EqDecision BucketEntry.
Proof. solve_decision. Defined.

(** the derived [Ord] of [QualifiedRoot] *)
Definition qualified_root_cmp (a b : QualifiedRoot) : comparison :=
  match Z.compare (qr_root a) (qr_root b) with
  | Eq => Z.compare (qr_previous a) (qr_previous b)
  | r => r
  end.

Definition bucket_entry_cmp (a b : BucketEntry) : comparison :=
  match time_priority_cmp (bp_time (be_priority b)) (bp_time (be_priority a)) with
  | Eq => match Z.compare (bp_balance (be_priority b)) (bp_balance (be_priority a)) with
          | Eq => qualified_root_cmp (be_root b) (be_root a)
          | r => r
          end
  | r => r
  end.

Record RootContainer := mkRootContainer {
  rc_by_root : gmap QualifiedRoot Entry;
  rc_buckets : list (list BucketEntry);
  rc_vote_router : gmap BlockHash QualifiedRoot;
}.

Definition root_container_default : RootContainer :=
  mkRootContainer ∅ (replicate bucket_count []) ∅.

Definition rc_set_by_root (x : gmap QualifiedRoot Entry) (c : RootContainer) : RootContainer :=
  mkRootContainer x (rc_buckets c) (rc_vote_router c).
Definition rc_set_vote_router (x : gmap BlockHash QualifiedRoot) (c : RootContainer) : RootContainer :=
  mkRootContainer (rc_by_root c) (rc_buckets c) x.

Definition router_connect (hash : BlockHash) (root : QualifiedRoot) (c : RootContainer) : RootContainer :=
  rc_set_vote_router (<[hash := root]> (rc_vote_router c)) c.

Definition router_disconnect (hash : BlockHash) (c : RootContainer) : RootContainer :=
  rc_set_vote_router (delete hash (rc_vote_router c)) c.

Definition disconnect_election (e : Election) (c : RootContainer) : RootContainer :=
  rc_set_vote_router (filter (fun p => el_candidate_blocks e !! p.1 = None) (rc_vote_router c)) c.

(** [self.buckets[i]] panics for an index out of range. *)
Definition on_bucket (i : nat) (f : list BucketEntry -> list BucketEntry) (c : RootContainer)
    : option RootContainer :=
  b ← rc_buckets c !! i;
  Some (mkRootContainer (rc_by_root c) (<[i := f b]> (rc_buckets c)) (rc_vote_router c)).

Definition root_insert (c : RootContainer) (entry : Entry) : option RootContainer :=
  let root := en_root entry in
  let hash := block_hash (el_winner (en_election entry)) in
  i ← entry_bucket entry;
  c1 ← on_bucket i (btree_insert bucket_entry_cmp (mkBucketEntry root (en_priority entry))) c;
  Some (router_connect hash root (rc_set_by_root (<[root := entry]> (rc_by_root c1)) c1)).

Definition root_erase (c : RootContainer) (root : QualifiedRoot) : option (option Entry * RootContainer) :=
  match rc_by_root c !! root with
  | None => Some (None, c)
  | Some entry =>
      let c1 := disconnect_election (en_election entry) (rc_set_by_root (delete root (rc_by_root c)) c) in
      i ← entry_bucket entry;
      c2 ← on_bucket i (btree_remove bucket_entry_cmp (mkBucketEntry (en_root entry) (en_priority entry))) c1;
      Some (Some entry, c2)
  end.

(** [get_mut(root)] and a change of the election in place *)
Definition alter_election (root : QualifiedRoot) (f : Election -> Election) (c : RootContainer) : RootContainer :=
  rc_set_by_root
    (alter (fun en => mkEntry (en_root en) (f (en_election en)) (en_priority en)) root (rc_by_root c)) c.

Definition root_election_for_root (c : RootContainer) (root : QualifiedRoot) : option Election :=
  en_election <$> rc_by_root c !! root.

Definition root_election_for_block (c : RootContainer) (hash : BlockHash) : option Election :=
  root ← rc_vote_router c !! hash; root_election_for_root c root.

Record AecInsertRequest := mkAecInsertRequest {
  rq_block : SavedBlock;
  rq_behavior : ElectionBehavior;
  rq_priority : BlockPriority;
}.

Definition try_upgrade_to_priority_election (c : RootContainer) (request : AecInsertRequest)
    : option (bool * option ElectionBehavior * RootContainer) :=
  let root := qualified_root (rq_block request) in
  match rc_by_root c !! root with
  | None => Some (false, None, c)
  | Some entry =>
      let previous_behavior := el_behavior (en_election entry) in
      if negb (bool_decide (rq_behavior request = Priority)) then Some (false, Some previous_behavior, c) else
      let priority := en_priority entry in
      let '(upgraded, election) := maybe_upgrade_to (en_election entry) Priority in
      if negb upgraded then Some (false, Some previous_behavior, c) else
      let c1 := rc_set_by_root (<[root := mkEntry (en_root entry) election priority]> (rc_by_root c)) c in
      i ← bucket_index previous_behavior (bp_balance priority);
      c2 ← on_bucket i (btree_remove bucket_entry_cmp (mkBucketEntry root priority)) c1;
      j ← bucket_index Priority (bp_balance priority);
      c3 ← on_bucket j (btree_insert bucket_entry_cmp (mkBucketEntry root priority)) c2;
      Some (true, Some previous_behavior, c3)
  end.

Fixpoint erase_all (c : RootContainer) (to_remove : list QualifiedRoot)
    : option (list Entry * RootContainer) :=
  match to_remove with
  | [] => Some ([], c)
  | root :: to_remove =>
      '(erased, c1) ← root_erase c root;
      '(removed, c2) ← erase_all c1 to_remove;
      Some (match erased with Some entry => entry :: removed | None => removed end, c2)
  end.

Definition drain_filter `{HashOrder} (c : RootContainer) (predicate : Entry -> bool)
    : option (list Entry * RootContainer) :=
  erase_all c (en_root <$> filter (fun en => predicate en = true) (hash_iter (rc_by_root c)).*2).

Definition root_clear (c : RootContainer) : RootContainer :=
  mkRootContainer ∅ ((fun _ => []) <$> rc_buckets c) (rc_vote_router c).

Definition root_lowest_priority (c : RootContainer) (bucket_id : nat)
    : option (option (QualifiedRoot * TimePriority)) :=
  b ← rc_buckets c !! bucket_id;
  Some ((fun i => (be_root i, bp_time (be_priority i))) <$> last b).

Definition root_find_bucket (c : RootContainer) (root : QualifiedRoot) : option nat :=
  rc_by_root c !! root ≫= entry_bucket.

(** *** Iterating over the buckets in turn *)

Record RoundRobinIterator := mkRoundRobin {
  rr_bucket_iters : list (list BucketEntry);
  rr_current : nat;
  rr_yielded : bool;
}.

Definition round_robin_new (c : RootContainer) : RoundRobinIterator :=
  mkRoundRobin (List.filter (fun b => negb (bool_decide (b = []))) (rev (rc_buckets c))) 0 false.

(** The loop of [next]; the entry is looked up in [round_robin_next]. *)
Fixpoint next_bucket_entry (fuel : nat) (it : RoundRobinIterator) : run (option BucketEntry * RoundRobinIterator) :=
  match fuel with
  | O => Running
  | S fuel =>
      let iters := rr_bucket_iters it in
      if (rr_current it <? length iters)%nat then
        let bucket_iter := nth (rr_current it) iters [] in
        let item := head bucket_iter in
        let iters := <[rr_current it := tail bucket_iter]> iters in
        let yielded := match item with Some _ => true | None => rr_yielded it end in
        let current := S (rr_current it) in
        let it1 := if (length iters <=? current)%nat && yielded then mkRoundRobin iters 0 false
                   else mkRoundRobin iters current yielded in
        match item with
        | Some item => Finished (Some item, it1)
        | None => next_bucket_entry fuel it1
        end
      else Finished (None, it)
  end.

(** Two rounds over the buckets are always enough. *)
Definition round_robin_next (c : RootContainer) (it : RoundRobinIterator) : run (option Entry * RoundRobinIterator) :=
  '(item, it1) ← next_bucket_entry (2 * length (rr_bucket_iters it) + 1) it;
  mret (x ← item; rc_by_root c !! be_root x, it1).

Fixpoint round_robin_collect (fuel : nat) (c : RootContainer) (it : RoundRobinIterator) : run (list Entry) :=
  match fuel with
  | O => Running
  | S fuel =>
      '(item, it1) ← round_robin_next c it;
      match item with
      | Some entry => rest ← round_robin_collect fuel c it1; mret (entry :: rest)
      | None => mret []
      end
  end.

(** ** RecentlyConfirmedCache (recently_confirmed_cache.rs) *)

Record RecentlyConfirmedCache := mkRecentlyConfirmedCache {
  rcc_by_root : gmap QualifiedRoot BlockHash;
  rcc_by_hash : gmap BlockHash QualifiedRoot;
  rcc_sequential : list BlockHash;
  rcc_max_len : nat;
}.

Definition recently_confirmed_new (max_len : nat) : RecentlyConfirmedCache :=
  mkRecentlyConfirmedCache ∅ ∅ [] max_len.

Definition rcc_root_exists (c : RecentlyConfirmedCache) (root : QualifiedRoot) : bool :=
  bool_decide (is_Some (rcc_by_root c !! root)).
Definition rcc_hash_exists (c : RecentlyConfirmedCache) (hash : BlockHash) : bool :=
  bool_decide (is_Some (rcc_by_hash c !! hash)).

(** [if let Some(old_root) = by_hash.remove(&old_hash)] *)
Definition rcc_forget (c : RecentlyConfirmedCache) (hash : BlockHash) : RecentlyConfirmedCache :=
  match rcc_by_hash c !! hash with
  | Some root => mkRecentlyConfirmedCache (delete root (rcc_by_root c)) (delete hash (rcc_by_hash c))
                   (rcc_sequential c) (rcc_max_len c)
  | None => c
  end.

Definition rcc_put (c : RecentlyConfirmedCache) (root : QualifiedRoot) (hash : BlockHash)
    : bool * RecentlyConfirmedCache :=
  if rcc_hash_exists c hash || rcc_root_exists c root then (false, c) else
  let sequential := rcc_sequential c ++ [hash] in
  let c1 := mkRecentlyConfirmedCache (<[root := hash]> (rcc_by_root c)) (<[hash := root]> (rcc_by_hash c))
              sequential (rcc_max_len c) in
  (true,
   if (rcc_max_len c <? length sequential)%nat then
     match sequential with
     | old_hash :: rest =>
         rcc_forget (mkRecentlyConfirmedCache (rcc_by_root c1) (rcc_by_hash c1) rest (rcc_max_len c)) old_hash
     | [] => c1
     end
   else c1).

Definition rcc_erase (c : RecentlyConfirmedCache) (hash : BlockHash) : RecentlyConfirmedCache :=
  match rcc_by_hash c !! hash with
  | Some root => mkRecentlyConfirmedCache (delete root (rcc_by_root c)) (delete hash (rcc_by_hash c))
                   (filter (fun i => i <> hash) (rcc_sequential c)) (rcc_max_len c)
  | None => c
  end.

Definition rcc_clear (c : RecentlyConfirmedCache) : RecentlyConfirmedCache :=
  mkRecentlyConfirmedCache ∅ ∅ [] (rcc_max_len c).

(** ** CooldownController (cooldown_controller.rs) *)

Inductive AecCooldownReason := ConfirmingSetFull | AecEventQueueFull.
Inductive CooldownResult := CooldownStarted | Recovered | Unchanged.

#[global] Instance CooldownResult_eq_dec : EqDecision CooldownResult.
Proof. solve_decision. Defined.

Record CooldownController := mkCooldownController {
  cc_confirming_set_full : bool;
  cc_event_queue_full : bool;
  cc_cool_down : bool;
}.

Definition cooldown_set (c : CooldownController) (cool_down : bool) (reason : AecCooldownReason)
    : CooldownResult * CooldownController :=
  let set_full := match reason with ConfirmingSetFull => cool_down | _ => cc_confirming_set_full c end in
  let queue_full := match reason with AecEventQueueFull => cool_down | _ => cc_event_queue_full c end in
  let any := set_full || queue_full in
  (if any && negb (cc_cool_down c) then CooldownStarted
   else if negb any && cc_cool_down c then Recovered
   else Unchanged,
   mkCooldownController set_full queue_full any).

(** ** The container (active_elections_container.rs, mod.rs) *)

Inductive ConfirmationType := ActiveConfirmedQuorum | ActiveConfirmationHeight | InactiveConfirmationHeight.

Record ConfirmedElection := mkConfirmedElection {
  ce_winner : MaybeSavedBlock;
  ce_tally : Amount;
  ce_final_tally : Amount;
  ce_block_count : Z;
  ce_voter_count : Z;
  ce_election_duration : Duration;
  ce_confirmation_type : ConfirmationType;
  ce_votes : gmap PublicKey VoteSummary;
}.

Definition confirmed_election_new (block : SavedBlock) (confirmation_type : ConfirmationType) : ConfirmedElection :=
  mkConfirmedElection (Saved block) amount_ZERO amount_ZERO 1 0 0 confirmation_type ∅.

Definition into_confirmed_election (e : Election) (now : Timestamp) (result : ConfirmationType) : ConfirmedElection :=
  mkConfirmedElection (el_winner e) (el_winner_tally e) (el_winner_final_tally e)
    (wrap 32 (Z.of_nat (size (el_candidate_blocks e)))) (wrap 32 (Z.of_nat (size (el_votes e))))
    (elapsed (el_start e) now) result (el_votes e).

Inductive AecEvent :=
  | EvElectionStarted (hash : BlockHash) (root : QualifiedRoot)
  | EvElectionConfirmed (c : ConfirmedElection)
  | EvElectionEnded (e : Election)
  | EvBlockAddedToElection (hash : BlockHash)
  | EvBlockDiscarded (b : Block)
  | EvBlockConfirmed (b : SavedBlock) (c : ConfirmedElection)
  | EvWinnerChanged (old_winner : BlockHash) (new_winner : Block)
  | EvRecovered.

Inductive AecInsertError := Stopped | DuplicateRoot | RecentlyConfirmed.

Record ActiveElectionsContainer := mkAec {
  aec_roots : RootContainer;
  aec_observer : option (list AecEvent);
  aec_stopped : bool;
  aec_count_by_behavior : list nat;
  aec_base_latency : Duration;
  aec_recently_confirmed : RecentlyConfirmedCache;
  aec_cooldown : CooldownController;
  aec_max_elections : Z;
}.

Definition aec_new (max_elections : Z) (confirmation_cache : nat) (base_latency : Duration) : ActiveElectionsContainer :=
  mkAec root_container_default None false [0; 0; 0; 0]%nat base_latency
    (recently_confirmed_new confirmation_cache) (mkCooldownController false false false) max_elections.

Definition aec_set_observer (x : option (list AecEvent)) (a : ActiveElectionsContainer) : ActiveElectionsContainer :=
  mkAec (aec_roots a) x (aec_stopped a) (aec_count_by_behavior a) (aec_base_latency a)
    (aec_recently_confirmed a) (aec_cooldown a) (aec_max_elections a).
Definition aec_set_roots (x : RootContainer) (a : ActiveElectionsContainer) : ActiveElectionsContainer :=
  mkAec x (aec_observer a) (aec_stopped a) (aec_count_by_behavior a) (aec_base_latency a)
    (aec_recently_confirmed a) (aec_cooldown a) (aec_max_elections a).
Definition aec_set_counts (x : list nat) (a : ActiveElectionsContainer) : ActiveElectionsContainer :=
  mkAec (aec_roots a) (aec_observer a) (aec_stopped a) x (aec_base_latency a)
    (aec_recently_confirmed a) (aec_cooldown a) (aec_max_elections a).
Definition aec_set_recently_confirmed (x : RecentlyConfirmedCache) (a : ActiveElectionsContainer) : ActiveElectionsContainer :=
  mkAec (aec_roots a) (aec_observer a) (aec_stopped a) (aec_count_by_behavior a) (aec_base_latency a)
    x (aec_cooldown a) (aec_max_elections a).
Definition aec_set_cooldown_controller (x : CooldownController) (a : ActiveElectionsContainer) : ActiveElectionsContainer :=
  mkAec (aec_roots a) (aec_observer a) (aec_stopped a) (aec_count_by_behavior a) (aec_base_latency a)
    (aec_recently_confirmed a) x (aec_max_elections a).

Definition aec_notify (event : AecEvent) (a : ActiveElectionsContainer) : ActiveElectionsContainer :=
  aec_set_observer ((fun sent => sent ++ [event]) <$> aec_observer a) a.

(** [behavior as usize] *)
Definition behavior_index (b : ElectionBehavior) : nat :=
  match b with Manual => 0 | Priority => 1 | Hinted => 2 | Optimistic => 3 end.

Definition count_by_behavior (a : ActiveElectionsContainer) (b : ElectionBehavior) : nat :=
  nth (behavior_index b) (aec_count_by_behavior a) 0%nat.

Definition count_up (b : ElectionBehavior) (a : ActiveElectionsContainer) : ActiveElectionsContainer :=
  aec_set_counts (<[behavior_index b := S (count_by_behavior a b)]> (aec_count_by_behavior a)) a.

(** [None] is the underflow of the [usize]. *)
Definition count_down (b : ElectionBehavior) (a : ActiveElectionsContainer) : option ActiveElectionsContainer :=
  match count_by_behavior a b with
  | S n => Some (aec_set_counts (<[behavior_index b := n]> (aec_count_by_behavior a)) a)
  | O => None
  end.

(** *** Inserting *)

Definition ensure_not_stopped (a : ActiveElectionsContainer) : result AecInsertError unit :=
  if aec_stopped a then Err Stopped else Ok tt.

Definition ensure_not_recently_confirmed (a : ActiveElectionsContainer) (request : AecInsertRequest)
    : result AecInsertError unit :=
  if rcc_root_exists (aec_recently_confirmed a) (qualified_root (rq_block request))
  then Err RecentlyConfirmed else Ok tt.

Definition try_upgrade_priority_election (a : ActiveElectionsContainer) (request : AecInsertRequest)
    : option (result AecInsertError bool * ActiveElectionsContainer) :=
  '(upgraded, previous_behavior, roots) ← try_upgrade_to_priority_election (aec_roots a) request;
  let a1 := aec_set_roots roots a in
  if upgraded : bool then
    b ← previous_behavior;
    a2 ← count_down b a1;
    Some (Ok true, count_up (rq_behavior request) a2)
  else match previous_behavior with
       | Some _ => Some (Err DuplicateRoot, a1)
       | None => Some (Ok false, a1)
       end.

Definition insert_new_election (a : ActiveElectionsContainer) (request : AecInsertRequest) (now : Timestamp)
    : option ActiveElectionsContainer :=
  let root := qualified_root (rq_block request) in
  let hash := block_hash (rq_block request) in
  let election := election_new (rq_block request) (rq_behavior request) (aec_base_latency a) now in
  roots ← root_insert (aec_roots a) (mkEntry root election (rq_priority request));
  Some (aec_notify (EvElectionStarted hash root) (count_up (rq_behavior request) (aec_set_roots roots a))).

Definition aec_insert (a : ActiveElectionsContainer) (request : AecInsertRequest) (now : Timestamp)
    : option (result AecInsertError unit * ActiveElectionsContainer) :=
  match ensure_not_stopped a with
  | Err e => Some (Err e, a)
  | Ok _ =>
      match ensure_not_recently_confirmed a request with
      | Err e => Some (Err e, a)
      | Ok _ =>
          '(r, a1) ← try_upgrade_priority_election a request;
          match r with
          | Err e => Some (Err e, a1)
          | Ok true => Some (Ok tt, a1)
          | Ok false => a2 ← insert_new_election a1 request now; Some (Ok tt, a2)
          end
      end
  end.

Definition set_last_voted (a : ActiveElectionsContainer) (root : QualifiedRoot) (t : VoteType) (timestamp : Timestamp)
    : ActiveElectionsContainer :=
  aec_set_roots (alter_election root (fun e => voted e t timestamp) (aec_roots a)) a.

(** *** Erasing *)

Definition cleanup_election (a : ActiveElectionsContainer) (entry : Entry) : option ActiveElectionsContainer :=
  a1 ← count_down (el_behavior (en_election entry)) a;
  Some (aec_notify (EvElectionEnded (en_election entry)) a1).

Fixpoint cleanup_elections (a : ActiveElectionsContainer) (removed : list Entry) : option ActiveElectionsContainer :=
  match removed with
  | [] => Some a
  | entry :: removed => a1 ← cleanup_election a entry; cleanup_elections a1 removed
  end.

Definition aec_erase (a : ActiveElectionsContainer) (root : QualifiedRoot) : option (bool * ActiveElectionsContainer) :=
  '(erased, roots) ← root_erase (aec_roots a) root;
  let a1 := aec_set_roots roots a in
  match erased with
  | None => Some (false, a1)
  | Some entry => a2 ← cleanup_election a1 entry; Some (true, a2)
  end.

Definition erase_lowest_prio_election (a : ActiveElectionsContainer) (bucket_id : nat) : option ActiveElectionsContainer :=
  lowest ← root_lowest_priority (aec_roots a) bucket_id;
  match lowest with
  | None => Some a
  | Some (root, _) => '(_, a1) ← aec_erase a root; Some a1
  end.

Section time.
Context `{HashOrder}.

Definition erase_ended_elections (a : ActiveElectionsContainer) : option ActiveElectionsContainer :=
  '(removed, roots) ← drain_filter (aec_roots a) (fun en => has_ended (el_state (en_election en)));
  cleanup_elections (aec_set_roots roots a) removed.

Definition transition_entry (now : Timestamp) (en : Entry) : Entry :=
  mkEntry (en_root en) (transition_time (en_election en) now) (en_priority en).

Definition aec_transition_time (a : ActiveElectionsContainer) (now : Timestamp) : option ActiveElectionsContainer :=
  let roots := aec_roots a in
  erase_ended_elections (aec_set_roots (rc_set_by_root (transition_entry now <$> rc_by_root roots) roots) a).
End time.

Definition aec_stop (a : ActiveElectionsContainer) : ActiveElectionsContainer :=
  mkAec (root_clear (aec_roots a)) None true (aec_count_by_behavior a) (aec_base_latency a)
    (aec_recently_confirmed a) (aec_cooldown a) (aec_max_elections a).

(** *** Forks *)

Definition aec_try_add_fork `{HashOrder} (a : ActiveElectionsContainer) (fork : Block) (fork_tally : Amount)
    : option (bool * ActiveElectionsContainer) :=
  let root := qualified_root fork in
  match root_election_for_root (aec_roots a) root with
  | None => Some (false, a)
  | Some e =>
      '(r, e1) ← try_add_fork e fork fork_tally;
      let a1 := aec_set_roots (alter_election root (fun _ => e1) (aec_roots a)) a in
      let '(added, a2) :=
        match r with
        | Added => (true, aec_notify (EvBlockAddedToElection (block_hash fork)) a1)
        | Replaced removed =>
            (true, aec_notify (EvBlockAddedToElection (block_hash fork))
                     (aec_notify (EvBlockDiscarded removed)
                        (aec_set_roots (router_disconnect (block_hash removed) (aec_roots a1)) a1)))
        | TallyTooLow => (false, aec_notify (EvBlockDiscarded fork) a1)
        | Duplicate | ElectionEnded => (false, a1)
        end in
      Some (added, if added : bool then aec_set_roots (router_connect (block_hash fork) root (aec_roots a2)) a2 else a2)
  end.

(** *** Other changes *)

(** [as i64] on both lengths *)
Definition vacancy (a : ActiveElectionsContainer) : Z :=
  if cc_cool_down (aec_cooldown a) then 0
  else aec_max_elections a - Z.of_nat (size (rc_by_root (aec_roots a))).

Definition aec_set_cooldown (a : ActiveElectionsContainer) (cool_down : bool) (reason : AecCooldownReason)
    : ActiveElectionsContainer :=
  let '(r, c) := cooldown_set (aec_cooldown a) cool_down reason in
  let a1 := aec_set_cooldown_controller c a in
  if bool_decide (r = Recovered) then aec_notify EvRecovered a1 else a1.

Definition aec_transition_active (a : ActiveElectionsContainer) (hash : BlockHash) : bool * ActiveElectionsContainer :=
  match (root ← rc_vote_router (aec_roots a) !! hash; (root,.) <$> root_election_for_root (aec_roots a) root) with
  | None => (false, a)
  | Some (root, _) => (true, aec_set_roots (alter_election root transition_active (aec_roots a)) a)
  end.

Definition remove_votes (a : ActiveElectionsContainer) (root : QualifiedRoot) (voters : list PublicKey)
    : ActiveElectionsContainer :=
  aec_set_roots (alter_election root (fun e => fold_left remove_vote voters e) (aec_roots a)) a.

Definition aec_cancel (a : ActiveElectionsContainer) (root : QualifiedRoot) : ActiveElectionsContainer :=
  aec_set_roots (alter_election root cancel (aec_roots a)) a.

Definition remove_recently_confirmed (a : ActiveElectionsContainer) (hash : BlockHash) : ActiveElectionsContainer :=
  aec_set_recently_confirmed (rcc_erase (aec_recently_confirmed a) hash) a.

Definition clear_recently_confirmed (a : ActiveElectionsContainer) : ActiveElectionsContainer :=
  aec_set_recently_confirmed (rcc_clear (aec_recently_confirmed a)) a.

(** [None] is the [panic!] when there is no election. *)
Definition aec_force_confirm (a : ActiveElectionsContainer) (hash : BlockHash) (now : Timestamp)
    : option ActiveElectionsContainer :=
  root ← rc_vote_router (aec_roots a) !! hash;
  e ← root_election_for_root (aec_roots a) root;
  let '(forced, e1) := force_confirm e in
  let a1 := aec_set_roots (alter_election root (fun _ => e1) (aec_roots a)) a in
  Some (if forced : bool
        then aec_notify (EvElectionConfirmed (into_confirmed_election e1 now ActiveConfirmedQuorum)) a1
        else a1).

(** *** Elections confirmed by cementing *)

Definition confirm_dependent_election (a : ActiveElectionsContainer) (confirmed_block : SavedBlock)
    (source_election : option ConfirmedElection) (now : Timestamp) : ConfirmedElection * ActiveElectionsContainer :=
  let corresponding :=
    let root := qualified_root confirmed_block in
    match root_election_for_root (aec_roots a) root with
    | None => (confirmed_election_new confirmed_block InactiveConfirmationHeight, a)
    | Some e =>
        if block_hash (el_winner e) =? block_hash confirmed_block then
          let e1 := (force_confirm e).2 in
          (into_confirmed_election e1 now ActiveConfirmationHeight,
           aec_set_roots (alter_election root (fun _ => e1) (aec_roots a)) a)
        else
          (confirmed_election_new confirmed_block ActiveConfirmationHeight,
           aec_set_roots (alter_election root cancel (aec_roots a)) a)
    end in
  match source_election with
  | Some source => if block_hash confirmed_block =? block_hash (ce_winner source) then (source, a) else corresponding
  | None => corresponding
  end.

Fixpoint confirm_dependent_elections (a : ActiveElectionsContainer)
    (confirmed : list (SavedBlock * option ConfirmedElection)) (now : Timestamp) : ActiveElectionsContainer :=
  match confirmed with
  | [] => a
  | (confirmed_block, source_election) :: confirmed =>
      let '(c, a1) := confirm_dependent_election a confirmed_block source_election now in
      confirm_dependent_elections (aec_notify (EvBlockConfirmed confirmed_block c) a1) confirmed now
  end.

(** ** Votes (filtered_vote.rs, apply_vote_helper.rs) *)

Record FilteredVote := mkFilteredVote {
  fv_vote : Vote;
  fv_source : VoteSource;
  fv_filter : BlockHash;
}.

Definition filtered_blocks (v : FilteredVote) : list BlockHash :=
  List.filter (fun h => if u256_is_zero (fv_filter v) then true else h =? fv_filter v) (vote_hashes (fv_vote v)).

Record QuorumSpecs := mkQuorumSpecs { qs_online_weight : Amount; qs_quorum_delta : Amount }.

(** representatives/online_reps/mod.rs *)
Definition cooldown_time (q : QuorumSpecs) (rep_weight : Amount) : Duration :=
  if amount_div (qs_online_weight q) 20 <? rep_weight then secs 1
  else if amount_div (qs_online_weight q) 100 <? rep_weight then secs 5
  else secs 15.

Record ApplyVoteArgs := mkApplyVoteArgs {
  av_vote : FilteredVote;
  av_rep_weights : gmap PublicKey Amount;
  av_quorum_specs : QuorumSpecs;
  av_now : Timestamp;
}.

Section apply_vote.
Context `{HashOrder} (args : ApplyVoteArgs).

Definition should_cool_down (last_vote : VoteSummary) (rep_weight : Amount) : bool :=
  if bool_decide (fv_source (av_vote args) = Cache) then false
  else if has_switched_to_final_vote last_vote (fv_vote (av_vote args)) then false
  else elapsed (vs_vote_received last_vote) (av_now args) <? cooldown_time (av_quorum_specs args) rep_weight.

Definition insert_recently_confirmed (e : Election) (a : ActiveElectionsContainer) : ActiveElectionsContainer :=
  aec_set_recently_confirmed
    (rcc_put (aec_recently_confirmed a) (el_qualified_root e) (block_hash (el_winner e))).2 a.

Definition election_got_confirmed (e : Election) (a : ActiveElectionsContainer) : ActiveElectionsContainer :=
  aec_notify (EvElectionConfirmed (into_confirmed_election e (av_now args) ActiveConfirmedQuorum))
    (insert_recently_confirmed e a).

Definition notify_winner_changed (old_winner : BlockHash) (e : Election) (a : ActiveElectionsContainer)
    : ActiveElectionsContainer :=
  if negb (block_hash (el_winner e) =? old_winner)
  then aec_notify (EvWinnerChanged old_winner (el_winner e)) a else a.

Definition confirm_if_quorum (e : Election) (a : ActiveElectionsContainer)
    : option (Election * ActiveElectionsContainer) :=
  let old_winner := block_hash (el_winner e) in
  e1 ← update_tallies e (av_rep_weights args) (qs_quorum_delta (av_quorum_specs args));
  let a1 := notify_winner_changed old_winner e1 a in
  Some (e1, if is_final e1 then if election_is_confirmed e1 then election_got_confirmed e1 a1 else a1 else a1).

Definition add_vote_to_election (e : Election) (block_hash : BlockHash) (a : ActiveElectionsContainer)
    : option (Election * ActiveElectionsContainer) :=
  let vote := fv_vote (av_vote args) in
  confirm_if_quorum (add_vote e (vote_voter vote) block_hash (vote_timestamp vote) (av_now args)) a.

Definition apply_vote_to_election (e : Election) (block_hash : BlockHash) (a : ActiveElectionsContainer)
    : option (result VoteError unit * Election * ActiveElectionsContainer) :=
  if election_is_confirmed e then Some (Err Late, e, a) else
  let vote := fv_vote (av_vote args) in
  let rep_weight := default amount_ZERO (av_rep_weights args !! vote_voter vote) in
  let add := '(e1, a1) ← add_vote_to_election e block_hash a; Some (Ok tt, e1, a1) in
  match el_votes e !! vote_voter vote with
  | Some last_vote =>
      match ensure_no_replay last_vote vote block_hash with
      | Err err => Some (Err err, e, a)
      | Ok _ => if should_cool_down last_vote rep_weight then Some (Err Ignored, e, a) else add
      end
  | None => add
  end.

Record ApplyVoteResult := mkApplyVoteResult {
  avr_per_block : gmap BlockHash (result VoteError unit);
  avr_confirmed : list Entry;
}.

(** One turn of the loop over the hashes. *)
Definition apply_vote_to_block (r : ApplyVoteResult) (block_hash : BlockHash) (a : ActiveElectionsContainer)
    : option (ApplyVoteResult * ActiveElectionsContainer) :=
  if bool_decide (is_Some (avr_per_block r !! block_hash)) then Some (r, a) else
  match (root ← rc_vote_router (aec_roots a) !! block_hash;
         (root,.) <$> root_election_for_root (aec_roots a) root) with
  | Some (root, e) =>
      '(vote_result, e1, a1) ← apply_vote_to_election e block_hash a;
      let a2 := aec_set_roots (alter_election root (fun _ => e1) (aec_roots a1)) a1 in
      let per_block := <[block_hash := vote_result]> (avr_per_block r) in
      if election_is_confirmed e1 then
        '(erased, roots) ← root_erase (aec_roots a2) (el_qualified_root e1);
        Some (mkApplyVoteResult per_block
                (match erased with Some entry => avr_confirmed r ++ [entry] | None => avr_confirmed r end),
              aec_set_roots roots a2)
      else Some (mkApplyVoteResult per_block (avr_confirmed r), a2)
  | None =>
      let err := if rcc_hash_exists (aec_recently_confirmed a) block_hash then Late else Indeterminate in
      Some (mkApplyVoteResult (<[block_hash := Err err]> (avr_per_block r)) (avr_confirmed r), a)
  end.

Fixpoint apply_vote_to_blocks (r : ApplyVoteResult) (hashes : list BlockHash) (a : ActiveElectionsContainer)
    : option (ApplyVoteResult * ActiveElectionsContainer) :=
  match hashes with
  | [] => Some (r, a)
  | h :: hashes => '(r1, a1) ← apply_vote_to_block r h a; apply_vote_to_blocks r1 hashes a1
  end.

Definition aec_apply_vote (a : ActiveElectionsContainer)
    : option (gmap BlockHash (result VoteError unit) * ActiveElectionsContainer) :=
  '(r, a1) ← apply_vote_to_blocks (mkApplyVoteResult ∅ []) (filtered_blocks (av_vote args)) a;
  a2 ← cleanup_elections a1 (avr_confirmed r);
  Some (avr_per_block r, a2).
End apply_vote.
