(* ===== verification/AecSafe.v ===== *)
(** * The invariant of the active elections container

    Elections, router, buckets and counters describe the same set of elections;
    every operation keeps them together, and none panics. Two blocks with the
    same hash have the same root: that is what the collision resistance of the
    hash function gives for the blocks a node ever sees, and is assumed for a
    set of [known] blocks. *)

From S2P Require Import Prelude Ordered Types Blocks Votes Election ElectionSafe ElectionTheorems.
From S2P Require Import ActiveElections.

(** ** The order of a bucket *)

Lemma bucket_entry_cmp_laws : cmp_laws bucket_entry_cmp.
Proof.
  assert (forall x y : QualifiedRoot, qr_root x = qr_root y -> qr_previous x = qr_previous y -> x = y) as Hq
    by (intros [] []; cbn; congruence).
  split.
  - intros [r1 [b1 t1]] [r2 [b2 t2]]. unfold bucket_entry_cmp, qualified_root_cmp, time_priority_cmp. cbn. split.
    + repeat match goal with |- context [?a ?= ?b] => destruct (Z.compare_spec a b) end; try done. intros _. subst.
      by rewrite (Hq r1 r2).
    + intros [= -> -> ->]. by rewrite !Z.compare_refl.
  - intros [[r1 p1] [b1 t1]] [[r2 p2] [b2 t2]]. unfold bucket_entry_cmp, qualified_root_cmp, time_priority_cmp. cbn.
    rewrite (Z.compare_antisym t2 t1), (Z.compare_antisym b2 b1), (Z.compare_antisym r2 r1), (Z.compare_antisym p2 p1).
    by destruct (t2 ?= t1), (b2 ?= b1), (r2 ?= r1), (p2 ?= p1).
  - intros [[r1 p1] [b1 t1]] [[r2 p2] [b2 t2]] [[r3 p3] [b3 t3]].
    unfold bucket_entry_cmp, qualified_root_cmp, time_priority_cmp. cbn.
    repeat match goal with |- context [?a ?= ?b] => destruct (Z.compare_spec a b) end; try done; intros; lia.
Qed.

(** ** Bucket indices *)

Lemma minimums_length : prio_bucket_count = 63%nat.
Proof. by vm_compute. Qed.

Lemma rev_imap_find (l : list Z) (P : Z -> bool) i x :
  find (fun p : nat * Z => P p.2) (rev (imap pair l)) = Some (i, x) ->
  l !! i = Some x /\ P x = true /\ forall j y, (i < j)%nat -> l !! j = Some y -> P y = false.
Proof.
  induction l as [|z l IH] using rev_ind; [done|]. rewrite imap_app, rev_app_distr. cbn. rewrite Nat.add_0_r.
  destruct (P z) eqn:E.
  - intros [= <- <-]. rewrite lookup_app_r, Nat.sub_diag by done. split; [done|]. split; [done|].
    intros j y Hj Hy. apply lookup_lt_Some in Hy. rewrite length_app in Hy. cbn in Hy. lia.
  - intros Hf. destruct (IH Hf) as (Hi & HP & Hlater). split; [by apply lookup_app_l_Some|]. split; [done|].
    intros j y Hj [Hy|[Hl Hy]]%lookup_app_Some; [by eapply Hlater|]. apply list_lookup_singleton_Some in Hy as [_ <-]. done.
Qed.

Lemma prio_bucket_index_ok balance :
  0 <= balance ->
  exists i m, prio_bucket_index balance = Some i /\ minimums !! i = Some m /\ m <= balance /\
    forall j m', (i < j)%nat -> minimums !! j = Some m' -> balance < m'.
Proof.
  intros Hb. unfold prio_bucket_index.
  destruct (find (fun p => p.2 <=? balance) (rev (imap pair minimums))) as [[i m]|] eqn:Hf.
  - apply (rev_imap_find minimums (fun m => m <=? balance)) in Hf as (Hi & Hm%Z.leb_le & Hlater).
    exists i, m. split; [done|]. split; [done|]. split; [done|]. intros j m' Hj Hm'. specialize (Hlater j m' Hj Hm').
    cbn in Hlater. by apply Z.leb_gt in Hlater.
  - exfalso. assert (In (0%nat, 0) (rev (imap pair minimums))) as Hin by (apply -> in_rev; by left).
    pose proof (find_none _ _ Hf _ Hin) as Hn. cbn [snd] in Hn. apply Z.leb_gt in Hn. lia.
Qed.

Lemma bucket_index_ok behavior balance :
  0 <= balance -> exists i, bucket_index behavior balance = Some i /\ (i < bucket_count)%nat.
Proof.
  intros Hb. unfold bucket_index, bucket_count. rewrite minimums_length. destruct behavior; try (eexists; split; [done|lia]).
  destruct (prio_bucket_index_ok balance Hb) as (i & m & -> & Hi & _). exists i. split; [done|].
  apply lookup_lt_Some in Hi. change (length minimums) with prio_bucket_count in Hi. rewrite minimums_length in Hi. lia.
Qed.

(** ** The invariant *)

Definition count_of (m : gmap QualifiedRoot Entry) (b : ElectionBehavior) : nat :=
  size (filter (fun p : QualifiedRoot * Entry => el_behavior (en_election p.2) = b) m).

(** The elections that were removed and are still counted. *)
Definition gone_of (gone : list Entry) (b : ElectionBehavior) : nat :=
  length (filter (fun en => el_behavior (en_election en) = b) gone).

Section invariant.
Context (known : Block -> Prop).

Record entry_ok (root : QualifiedRoot) (en : Entry) : Prop := {
  eno_root : en_root en = root;
  eno_qualified : el_qualified_root (en_election en) = root;
  eno_election : election_ok (en_election en);
  eno_known : forall h (b : MaybeSavedBlock), el_candidate_blocks (en_election en) !! h = Some b -> known b;
  eno_balance : 0 <= bp_balance (en_priority en);
}.

Definition entries_ok (m : gmap QualifiedRoot Entry) : Prop :=
  forall root en, m !! root = Some en -> entry_ok root en.

Definition router_ok (m : gmap QualifiedRoot Entry) (router : gmap BlockHash QualifiedRoot) : Prop :=
  forall h root, router !! h = Some root <->
    exists en, m !! root = Some en /\ is_Some (el_candidate_blocks (en_election en) !! h).

Definition bucket_ok (m : gmap QualifiedRoot Entry) (i : nat) (b : list BucketEntry) : Prop :=
  btree bucket_entry_cmp b /\
  forall x, x ∈ b <-> exists en, m !! be_root x = Some en /\ en_priority en = be_priority x /\ entry_bucket en = Some i.

Definition buckets_ok (m : gmap QualifiedRoot Entry) (buckets : list (list BucketEntry)) : Prop :=
  length buckets = bucket_count /\ forall i b, buckets !! i = Some b -> bucket_ok m i b.

Record rcc_ok (c : RecentlyConfirmedCache) : Prop := {
  ro_inverse : forall root h, rcc_by_root c !! root = Some h <-> rcc_by_hash c !! h = Some root;
  ro_sequential : forall h, h ∈ rcc_sequential c <-> is_Some (rcc_by_hash c !! h);
  ro_nodup : NoDup (rcc_sequential c);
  ro_len : (length (rcc_sequential c) <= rcc_max_len c)%nat;
}.

Definition counts_ok (m : gmap QualifiedRoot Entry) (gone : list Entry) (counts : list nat) : Prop :=
  length counts = 4%nat /\
  forall b, nth (behavior_index b) counts 0%nat = (count_of m b + gone_of gone b)%nat.

(** [stop] empties the container but leaves router and counters. In the middle
    of an operation the elections in [gone] are removed but still counted. *)
Record aec_inv (gone : list Entry) (a : ActiveElectionsContainer) : Prop := {
  ao_entries : entries_ok (rc_by_root (aec_roots a));
  ao_buckets : buckets_ok (rc_by_root (aec_roots a)) (rc_buckets (aec_roots a));
  ao_recent : rcc_ok (aec_recently_confirmed a);
  ao_running : aec_stopped a = false ->
    router_ok (rc_by_root (aec_roots a)) (rc_vote_router (aec_roots a)) /\
    counts_ok (rc_by_root (aec_roots a)) gone (aec_count_by_behavior a);
  ao_stopped : aec_stopped a = true -> rc_by_root (aec_roots a) = ∅ /\ gone = [];
}.

Definition aec_ok (a : ActiveElectionsContainer) : Prop := aec_inv [] a.

(** ** Changes inside the elections

    Most operations change elections in place, without touching the fields that
    the other tables depend on. *)

Record same_shape (e e' : Election) : Prop := {
  ss_root : el_qualified_root e' = el_qualified_root e;
  ss_candidates : el_candidate_blocks e' = el_candidate_blocks e;
  ss_behavior : el_behavior e' = el_behavior e;
  ss_ok : election_ok e -> election_ok e';
}.

Lemma same_shape_refl e : same_shape e e.
Proof. by split. Qed.

Lemma same_shape_trans e1 e2 e3 : same_shape e1 e2 -> same_shape e2 e3 -> same_shape e1 e3.
Proof. intros [] []. split; [congruence|congruence|congruence|tauto]. Qed.

Definition same_entry (en en' : Entry) : Prop :=
  en_root en' = en_root en /\ en_priority en' = en_priority en /\ same_shape (en_election en) (en_election en').

Definition same_entries (m m' : gmap QualifiedRoot Entry) : Prop :=
  forall root, option_Forall2 same_entry (m !! root) (m' !! root).

Lemma same_entries_fwd m m' root en :
  same_entries m m' -> m !! root = Some en -> exists en', m' !! root = Some en' /\ same_entry en en'.
Proof. intros Hs E. specialize (Hs root). rewrite E in Hs. inversion Hs; subst. eauto. Qed.

Lemma same_entries_bwd m m' root en' :
  same_entries m m' -> m' !! root = Some en' -> exists en, m !! root = Some en /\ same_entry en en'.
Proof. intros Hs E. specialize (Hs root). rewrite E in Hs. inversion Hs; subst. eauto. Qed.

Lemma same_entry_bucket en en' : same_entry en en' -> entry_bucket en' = entry_bucket en.
Proof. intros (_ & Hp & Hs). unfold entry_bucket. by rewrite Hp, (ss_behavior _ _ Hs). Qed.

Lemma same_entries_ok m m' : same_entries m m' -> entries_ok m -> entries_ok m'.
Proof.
  intros Hs Hok root en' E. destruct (same_entries_bwd _ _ _ _ Hs E) as (en & E0 & Er & Ep & [Sr Sc Sb So]).
  destruct (Hok _ _ E0) as [? ? ? K ?]. split; try congruence; [by apply So|]. intros h b. rewrite Sc. apply K.
Qed.

Lemma same_entries_router m m' router : same_entries m m' -> router_ok m router -> router_ok m' router.
Proof.
  intros Hs Hok h root. rewrite (Hok h root). split.
  - intros (en & E & Hc). destruct (same_entries_fwd _ _ _ _ Hs E) as (en' & E' & _ & _ & [_ Sc _ _]).
    exists en'. by rewrite Sc.
  - intros (en' & E' & Hc). destruct (same_entries_bwd _ _ _ _ Hs E') as (en & E & _ & _ & [_ Sc _ _]).
    exists en. by rewrite <- Sc.
Qed.

Lemma same_entries_buckets m m' buckets : same_entries m m' -> buckets_ok m buckets -> buckets_ok m' buckets.
Proof.
  intros Hs [Hl Hb]. split; [done|]. intros i b E. destruct (Hb i b E) as [Ho Hm]. split; [done|].
  intros x. rewrite Hm. split.
  - intros (en & E0 & Ep & Eb). destruct (same_entries_fwd _ _ _ _ Hs E0) as (en' & E' & Hse).
    exists en'. rewrite (same_entry_bucket _ _ Hse). destruct Hse as (_ & -> & _). done.
  - intros (en' & E' & Ep & Eb). destruct (same_entries_bwd _ _ _ _ Hs E') as (en & E0 & Hse).
    exists en. rewrite <- (same_entry_bucket _ _ Hse). destruct Hse as (_ & <- & _). done.
Qed.

Lemma same_entries_count m m' b : same_entries m m' -> count_of m' b = count_of m b.
Proof.
  intros Hs. unfold count_of. rewrite <- !size_dom. f_equal. apply set_eq. intros root. rewrite !elem_of_dom. split.
  - intros (en' & [E' Eb]%map_lookup_filter_Some). destruct (same_entries_bwd _ _ _ _ Hs E') as (en & E & _ & _ & Sh).
    exists en. apply map_lookup_filter_Some. split; [done|]. cbn in *. by rewrite <- (ss_behavior _ _ Sh).
  - intros (en & [E Eb]%map_lookup_filter_Some). destruct (same_entries_fwd _ _ _ _ Hs E) as (en' & E' & _ & _ & Sh).
    exists en'. apply map_lookup_filter_Some. split; [done|]. cbn in *. by rewrite (ss_behavior _ _ Sh).
Qed.

Lemma same_entries_counts m m' gone counts :
  same_entries m m' -> counts_ok m gone counts -> counts_ok m' gone counts.
Proof. intros Hs [Hl Hc]. split; [done|]. intros b. by rewrite Hc, (same_entries_count m m'). Qed.

Lemma same_entries_refl m : same_entries m m.
Proof. intros root. destruct (m !! root); constructor. split_and!; try done. Qed.
End invariant.

#[export] Hint Resolve same_shape_refl : core.

(** A change of status or bookkeeping only. *)
Lemma same_shape_intro e e' :
  el_qualified_root e' = el_qualified_root e -> el_winner e' = el_winner e ->
  el_candidate_blocks e' = el_candidate_blocks e -> el_votes e' ⊆ el_votes e ->
  el_tallies e' = el_tallies e -> el_final_tallies e' = el_final_tallies e -> el_behavior e' = el_behavior e ->
  same_shape e e'.
Proof. intros. split; try done. intros Hok. by apply (election_ok_same e). Qed.

Lemma voted_shape e t now : same_shape e (voted e t now).
Proof. apply same_shape_intro; by destruct t. Qed.
Lemma transition_time_shape e now : same_shape e (transition_time e now).
Proof. destruct (transition_time_state e now) as (x & -> & _). by apply same_shape_intro. Qed.
Lemma transition_active_shape e : same_shape e (transition_active e).
Proof. unfold transition_active. case_bool_decide; by apply same_shape_intro. Qed.
Lemma cancel_shape e : same_shape e (cancel e).
Proof. unfold cancel. destruct (negb _); by apply same_shape_intro. Qed.
Lemma force_confirm_shape e : same_shape e (force_confirm e).2.
Proof. unfold force_confirm. destruct (negb _); by apply same_shape_intro. Qed.
Lemma remove_votes_shape voters e : same_shape e (fold_left remove_vote voters e).
Proof.
  revert e. induction voters as [|v voters IH]; intros e; [done|]. cbn. eapply same_shape_trans; [|apply IH].
  apply same_shape_intro; try done. apply delete_subseteq.
Qed.

Section shapes.
Context `{HO : HashOrder} `{!HashOrderLaws HO}.

Lemma add_vote_shape e voter hash created received :
  contains_block e hash = true -> same_shape e (add_vote e voter hash created received).
Proof. intros. split; [..|apply election_step_ok; by constructor]; done. Qed.

Lemma update_tallies_shape e rw q :
  weights_ok rw -> election_ok e -> exists e', update_tallies e rw q = Some e' /\ same_shape e e'.
Proof.
  intros Hw Hok. destruct (has_ended (el_state e)) eqn:He; [exists e; unfold update_tallies; rewrite He; done|].
  destruct (update_tallies_ok rw q Hw e Hok He) as (e' & E & Hok' & [? ? ? ? ? ? ? ? ?]). exists e'. by split.
Qed.
End shapes.

Create HintDb aec.
#[export] Hint Resolve voted_shape transition_time_shape transition_active_shape cancel_shape force_confirm_shape
  remove_votes_shape : aec.

(** ** Operations that change elections in place *)

Section in_place.
Context (known : Block -> Prop) (gone : list Entry).
#[local] Abbreviation aec_inv := (aec_inv known gone).

Lemma aec_same a a' :
  aec_inv a -> same_entries (rc_by_root (aec_roots a)) (rc_by_root (aec_roots a')) ->
  rc_buckets (aec_roots a') = rc_buckets (aec_roots a) ->
  rc_vote_router (aec_roots a') = rc_vote_router (aec_roots a) ->
  aec_count_by_behavior a' = aec_count_by_behavior a -> aec_stopped a' = aec_stopped a ->
  rcc_ok (aec_recently_confirmed a') -> aec_inv a'.
Proof.
  intros [E B R U S] Hs Eb Er Ec Es Hr. split; [by eapply same_entries_ok| |done| |].
  - rewrite Eb. by eapply same_entries_buckets.
  - rewrite Es, Er, Ec. intros [? ?]%U. split; [by eapply same_entries_router|by eapply same_entries_counts].
  - rewrite Es. intros [Hst Hg]%S. split; [|done]. apply map_eq. intros root. specialize (Hs root). rewrite Hst, lookup_empty in Hs.
    inversion Hs. by rewrite lookup_empty.
Qed.

Lemma notify_ok ev a : aec_inv a -> aec_inv (aec_notify ev a).
Proof. intros Hok. by apply (aec_same a); try apply Hok; try apply same_entries_refl. Qed.

Lemma same_entries_alter root f m :
  (forall en, m !! root = Some en -> same_shape (en_election en) (f (en_election en))) ->
  same_entries m (alter (fun en => mkEntry (en_root en) (f (en_election en)) (en_priority en)) root m).
Proof.
  intros Hf r. destruct (decide (r = root)) as [->|Hne].
  - rewrite lookup_alter_eq. destruct (m !! root) eqn:E; cbn; constructor. split_and!; try done. by apply Hf.
  - rewrite lookup_alter_ne by done. apply same_entries_refl.
Qed.

Lemma alter_election_ok root f a :
  (forall en, rc_by_root (aec_roots a) !! root = Some en -> same_shape (en_election en) (f (en_election en))) ->
  aec_inv a -> aec_inv (aec_set_roots (alter_election root f (aec_roots a)) a).
Proof. intros Hf Hok. apply (aec_same a); try done; [by apply same_entries_alter|apply Hok]. Qed.

Lemma same_entries_fmap f m :
  (forall en, same_entry en (f en)) -> same_entries m (f <$> m).
Proof. intros Hf root. rewrite lookup_fmap. destruct (m !! root); cbn; constructor. apply Hf. Qed.
End in_place.

(** ** Recently confirmed elections *)

Lemma recently_confirmed_new_ok max_len : rcc_ok (recently_confirmed_new max_len).
Proof.
  split; cbn; [intros; by rewrite !lookup_empty| |constructor|lia].
  intros h. rewrite lookup_empty, elem_of_nil. split; [done|by intros []].
Qed.

Lemma rcc_clear_ok c : rcc_ok (rcc_clear c).
Proof. apply (recently_confirmed_new_ok (rcc_max_len c)). Qed.

Lemma rcc_erase_ok c h : rcc_ok c -> rcc_ok (rcc_erase c h).
Proof.
  intros [I S N L]. unfold rcc_erase. destruct (rcc_by_hash c !! h) as [root|] eqn:E; [|by split].
  pose proof (proj2 (I root h) E) as Er. split; cbn.
  - intros r x. rewrite !lookup_delete_Some, I. split.
    + intros [Hr Hx]. split; [|done]. intros <-. congruence.
    + intros [Hh Hx]. split; [|done]. intros <-. apply Hh. apply I in E, Hx. congruence.
  - intros x. rewrite list_elem_of_filter, S, lookup_delete_is_Some. naive_solver.
  - by apply NoDup_filter.
  - etransitivity; [apply length_filter|done].
Qed.

Lemma rcc_put_ok c root h : rcc_ok c -> rcc_ok (rcc_put c root h).2.
Proof.
  intros [I Q N L]. unfold rcc_put, rcc_hash_exists, rcc_root_exists. case_bool_decide as Hh; [done|].
  case_bool_decide as Hr; [done|]. cbn [orb snd]. apply eq_None_not_Some in Hh, Hr.
  set (c1 := mkRecentlyConfirmedCache (<[root:=h]> (rcc_by_root c)) (<[h:=root]> (rcc_by_hash c)) (rcc_sequential c ++ [h]) (S (rcc_max_len c))).
  assert (rcc_ok c1) as Hc1.
  { split; cbn.
    - intros r x. rewrite !lookup_insert_Some, I. naive_solver.
    - intros x. rewrite elem_of_app, list_elem_of_singleton, Q, lookup_insert_is_Some'. intuition congruence.
    - apply NoDup_app. split; [done|]. split; [|apply NoDup_singleton]. intros x Hx ->%list_elem_of_singleton.
      apply Q in Hx. by rewrite Hh in Hx; destruct Hx.
    - rewrite length_app. cbn. lia. }
  destruct Hc1 as [I1 S1 N1 L1]. case_match eqn:Ht.
  - destruct (rcc_sequential c ++ [h]) as [|o rest] eqn:Eq; [by destruct (rcc_sequential c)|]. cbn in *.
    unfold rcc_forget. cbn. destruct (<[h:=root]> (rcc_by_hash c) !! o) as [ro|] eqn:Eo.
    2: { exfalso. destruct (proj1 (S1 o)) as [? Ho]; [by left|congruence]. }
    apply NoDup_cons in N1 as [No Nr]. split; cbn.
    + intros r x. rewrite !lookup_delete_Some, I1. split.
      * intros [Hr' Hx]. split; [|done]. intros <-. congruence.
      * intros [Hh' Hx]. split; [|done]. intros <-. apply Hh'. apply I1 in Eo, Hx. congruence.
    + intros x. rewrite lookup_delete_is_Some, <- S1, elem_of_cons. naive_solver.
    + done.
    + apply (f_equal length) in Eq. rewrite length_app in Eq. cbn in Eq. lia.
  - split; try done. cbn. apply Nat.ltb_ge in Ht. done.
Qed.

(** ** Inserting and removing entries *)

Lemma on_bucket_some m c i f :
  buckets_ok m (rc_buckets c) -> (i < bucket_count)%nat ->
  exists b, rc_buckets c !! i = Some b /\ bucket_ok m i b /\
    on_bucket i f c = Some (mkRootContainer (rc_by_root c) (<[i := f b]> (rc_buckets c)) (rc_vote_router c)).
Proof.
  intros [Hl Hb] Hi. destruct (lookup_lt_is_Some_2 (rc_buckets c) i) as [b E]; [by rewrite Hl|].
  exists b. unfold on_bucket. rewrite E. split; [done|]. split; [by apply Hb|done].
Qed.

Lemma buckets_insert m buckets root en i b :
  buckets_ok m buckets -> m !! root = None -> entry_bucket en = Some i -> buckets !! i = Some b ->
  buckets_ok (<[root := en]> m)
    (<[i := btree_insert bucket_entry_cmp (mkBucketEntry root (en_priority en)) b]> buckets).
Proof.
  intros [Hl Hb] Hm Hi Eb. split; [by rewrite length_insert|]. intros j b' Hj.
  assert (forall x, x = mkBucketEntry root (en_priority en) <-> root = be_root x /\ en_priority en = be_priority x) as Hx
    by (intros [r p]; cbn; split; [by intros [= -> ->]|by intros [-> ->]]).
  apply list_lookup_insert_Some in Hj as [(<- & <- & _)|[Hne Ej]].
  - destruct (Hb i b Eb) as [Hs Hin]. split; [by apply btree_insert_sorted, Hs; apply bucket_entry_cmp_laws|].
    intros x. rewrite (elem_of_btree_insert _ bucket_entry_cmp_laws), Hin, Hx. setoid_rewrite lookup_insert_Some. split.
    + intros [[Er Ep]|(en0 & E0 & Ep & Ei)]; [by exists en; split_and!; eauto|].
      exists en0. split; [|done]. right. split; [|done]. intros ?. congruence.
    + intros (en0 & [[Er <-]|[Hne E0]] & Ep & Ei); [by left|right; eauto].
  - destruct (Hb j b' Ej) as [Hs Hin]. split; [done|]. intros x. rewrite Hin. setoid_rewrite lookup_insert_Some. split.
    + intros (en0 & E0 & Ep & Ei). exists en0. split; [|done]. right. split; [|done]. intros ?. congruence.
    + intros (en0 & [[Er <-]|[Hne' E0]] & Ep & Ei); [congruence|eauto].
Qed.

Lemma buckets_delete m buckets root en i b :
  buckets_ok m buckets -> m !! root = Some en -> entry_bucket en = Some i -> buckets !! i = Some b ->
  buckets_ok (delete root m)
    (<[i := btree_remove bucket_entry_cmp (mkBucketEntry root (en_priority en)) b]> buckets).
Proof.
  intros [Hl Hb] Hm Hi Eb. split; [by rewrite length_insert|]. intros j b' Hj.
  apply list_lookup_insert_Some in Hj as [(<- & <- & _)|[Hne Ej]].
  - destruct (Hb i b Eb) as [Hs Hin]. split; [by apply btree_remove_sorted|].
    intros x. rewrite (elem_of_btree_remove _ bucket_entry_cmp_laws), Hin by done. setoid_rewrite lookup_delete_Some. split.
    + intros [(en0 & E0 & Ep & Ei) Hx]. exists en0. split; [|done]. split; [|done]. intros Er. apply Hx.
      assert (en0 = en) as -> by congruence. by destruct x; cbn in *; subst.
    + intros (en0 & [Hne E0] & Ep & Ei). split; [eauto|]. intros ->. by apply Hne.
  - destruct (Hb j b' Ej) as [Hs Hin]. split; [done|]. intros x. rewrite Hin. setoid_rewrite lookup_delete_Some. split.
    + intros (en0 & E0 & Ep & Ei). exists en0. split; [|done]. split; [|done]. intros ?. congruence.
    + intros (en0 & [_ E0] & Ep & Ei). eauto.
Qed.

Lemma router_insert m router router' root en :
  router_ok m router ->
  (forall h r, router' !! h = Some r <->
     (r = root /\ is_Some (el_candidate_blocks (en_election en) !! h)) \/ (r <> root /\ router !! h = Some r)) ->
  router_ok (<[root := en]> m) router'.
Proof.
  intros Hok Hr h r. rewrite Hr, (Hok h r). setoid_rewrite lookup_insert_Some. split.
  - intros [[-> Hc]|[Hne (en0 & E0 & Hc)]]; [exists en; eauto|exists en0; eauto].
  - intros (en0 & [[<- <-]|[Hne E0]] & Hc); [by left|right; eauto].
Qed.

Lemma router_delete m router root en :
  router_ok m router -> m !! root = Some en ->
  router_ok (delete root m) (filter (fun p => el_candidate_blocks (en_election en) !! p.1 = None) router).
Proof.
  intros Hok Hm h r. rewrite map_lookup_filter_Some. setoid_rewrite lookup_delete_Some. rewrite (Hok h r). cbn. split.
  - intros [(en0 & E0 & Hc) Hn]. exists en0. split; [|done]. split; [|done]. intros <-.
    assert (en0 = en) as -> by congruence. rewrite Hn in Hc. by destruct Hc.
  - intros (en0 & [Hne E0] & Hc). split; [eauto|]. apply eq_None_not_Some. intros Hc'. apply Hne.
    pose proof (proj2 (Hok h root) (ex_intro _ en (conj Hm Hc'))). pose proof (proj2 (Hok h r) (ex_intro _ en0 (conj E0 Hc))).
    congruence.
Qed.

Lemma count_of_insert m root en b :
  m !! root = None -> count_of (<[root := en]> m) b
    = if decide (el_behavior (en_election en) = b) then S (count_of m b) else count_of m b.
Proof.
  intros Hm. unfold count_of. rewrite map_filter_insert. cbn. case_decide.
  - rewrite map_size_insert_None; [done|]. by apply map_lookup_filter_None; left.
  - by rewrite delete_id.
Qed.

Lemma count_of_delete m root en b :
  m !! root = Some en -> count_of m b
    = if decide (el_behavior (en_election en) = b) then S (count_of (delete root m) b) else count_of (delete root m) b.
Proof.
  intros Hm. rewrite <- (insert_delete_id m root en Hm) at 1. apply count_of_insert. apply lookup_delete_eq.
Qed.

Lemma behavior_index_lt b : (behavior_index b < 4)%nat.
Proof. destruct b; cbn; lia. Qed.

Lemma behavior_index_inj b b' : behavior_index b = behavior_index b' -> b = b'.
Proof. by destruct b, b'. Qed.

Lemma nth_insert (l : list nat) i j x :
  (i < length l)%nat -> nth j (<[i := x]> l) 0%nat = if decide (i = j) then x else nth j l 0%nat.
Proof.
  intros Hi. rewrite !nth_lookup. case_decide as E.
  - subst. by rewrite list_lookup_insert_eq.
  - by rewrite list_lookup_insert_ne.
Qed.

Lemma counts_insert m gone counts root en :
  counts_ok m gone counts -> m !! root = None ->
  counts_ok (<[root := en]> m) gone
    (<[behavior_index (el_behavior (en_election en)) := S (nth (behavior_index (el_behavior (en_election en))) counts 0%nat)]> counts).
Proof.
  intros [Hl Hc] Hm. split; [by rewrite length_insert|]. intros b.
  rewrite nth_insert by (rewrite Hl; apply behavior_index_lt). rewrite count_of_insert, !Hc by done.
  case_decide as E1; case_decide as E2; try done; [by subst|by apply behavior_index_inj in E1|by subst].
Qed.

Lemma gone_of_app gone gone' b : gone_of (gone ++ gone') b = (gone_of gone b + gone_of gone' b)%nat.
Proof. unfold gone_of. by rewrite filter_app, length_app. Qed.

Lemma gone_of_cons en gone b :
  gone_of (en :: gone) b = if decide (el_behavior (en_election en) = b) then S (gone_of gone b) else gone_of gone b.
Proof. unfold gone_of. rewrite filter_cons. by case_decide. Qed.

Lemma counts_delete m gone counts root en :
  counts_ok m gone counts -> m !! root = Some en -> counts_ok (delete root m) (gone ++ [en]) counts.
Proof.
  intros [Hl Hc] Hm. split; [done|]. intros b. rewrite Hc, (count_of_delete m root en b Hm), gone_of_app, gone_of_cons.
  unfold gone_of at 3 4. cbn. case_decide; lia.
Qed.

Lemma counts_perm m gone gone' counts : gone ≡ₚ gone' -> counts_ok m gone counts -> counts_ok m gone' counts.
Proof. intros Hp [Hl Hc]. split; [done|]. intros b. rewrite Hc. unfold gone_of. by rewrite Hp. Qed.

Lemma counts_clean m gone counts en :
  counts_ok m (en :: gone) counts ->
  exists n, nth (behavior_index (el_behavior (en_election en))) counts 0%nat = S n /\
    counts_ok m gone (<[behavior_index (el_behavior (en_election en)) := n]> counts).
Proof.
  intros [Hl Hc]. exists (count_of m (el_behavior (en_election en)) + gone_of gone (el_behavior (en_election en)))%nat.
  rewrite Hc, gone_of_cons, decide_True by done. split; [lia|]. split; [by rewrite length_insert|]. intros b.
  rewrite nth_insert by (rewrite Hl; apply behavior_index_lt). rewrite Hc, gone_of_cons.
  case_decide as E1; [apply behavior_index_inj in E1; by subst|]. rewrite decide_False; [done|].
  intros E2. by rewrite E2 in E1.
Qed.
