(* ===== verification/AecOps.v ===== *)
(** * The operations of the active elections container keep its invariant *)

From S2P Require Import Prelude Ordered Types Blocks Votes Election ElectionSafe ElectionTheorems.
From S2P Require Import ActiveElections AecSafe.

(** No two known blocks collide. *)
Definition no_collisions (known : Block -> Prop) : Prop :=
  forall b1 b2, known b1 -> known b2 -> block_hash b1 = block_hash b2 -> qualified_root b1 = qualified_root b2.

Section ops.
Context `{HO : HashOrder} `{!HashOrderLaws HO} (known : Block -> Prop).
#[local] Abbreviation inv := (aec_inv known).

Definition known_block (b : Block) : Prop := known b /\ block_hash b <> 0.

(** ** Removing elections *)

Lemma root_erase_some c root en :
  entries_ok known (rc_by_root c) -> buckets_ok (rc_by_root c) (rc_buckets c) -> rc_by_root c !! root = Some en ->
  exists c', root_erase c root = Some (Some en, c') /\ rc_by_root c' = delete root (rc_by_root c) /\
    rc_vote_router c' = filter (fun p => el_candidate_blocks (en_election en) !! p.1 = None) (rc_vote_router c) /\
    buckets_ok (delete root (rc_by_root c)) (rc_buckets c').
Proof.
  intros He Hb E. unfold root_erase. rewrite E. destruct (He _ _ E) as [Er _ _ _ Ebal].
  destruct (bucket_index_ok (el_behavior (en_election en)) _ Ebal) as (i & Ei & Hi). unfold entry_bucket. rewrite Ei.
  cbn [mbind option_bind].
  destruct (on_bucket_some (rc_by_root c) (disconnect_election (en_election en) (rc_set_by_root (delete root (rc_by_root c)) c)) i
    (btree_remove bucket_entry_cmp (mkBucketEntry (en_root en) (en_priority en))) Hb Hi) as (b & Eb & _ & ->).
  eexists. split; [done|]. split; [done|]. split; [done|]. rewrite Er. by apply (buckets_delete _ _ _ en i b).
Qed.

Lemma root_erase_inv gone a root en :
  inv gone a -> rc_by_root (aec_roots a) !! root = Some en ->
  exists c', root_erase (aec_roots a) root = Some (Some en, c') /\
    rc_by_root c' = delete root (rc_by_root (aec_roots a)) /\ inv (gone ++ [en]) (aec_set_roots c' a).
Proof.
  intros Hok E. destruct (root_erase_some _ root en (ao_entries _ _ _ Hok) (ao_buckets _ _ _ Hok) E) as (c' & -> & Er & Ev & Hb).
  exists c'. split; [done|]. split; [done|]. split; cbn.
  - rewrite Er. intros r x [_ Hx]%lookup_delete_Some. by apply Hok.
  - by rewrite Er.
  - apply Hok.
  - intros Hs. destruct (ao_running _ _ _ Hok Hs) as [HR HC]. rewrite Er, Ev. split; [by apply router_delete|by apply counts_delete].
  - intros Hs. destruct (ao_stopped _ _ _ Hok Hs) as [Hm _]. by rewrite Hm, lookup_empty in E.
Qed.

Lemma cleanup_election_inv gone a en :
  inv (en :: gone) a -> exists a', cleanup_election a en = Some a' /\ inv gone a' /\ aec_roots a' = aec_roots a.
Proof.
  intros [He Hb Hr Hu Hs]. destruct (aec_stopped a) eqn:Est; [by destruct (Hs eq_refl)|].
  destruct (Hu eq_refl) as [HR HC]. destruct (counts_clean _ _ _ _ HC) as (n & En & HC').
  unfold cleanup_election, count_down, count_by_behavior. rewrite En. cbn [mbind option_bind].
  eexists. split; [done|]. split; [|done]. split; try done; cbn; rewrite Est; done.
Qed.

Lemma cleanup_elections_inv gone a :
  inv gone a -> exists a', cleanup_elections a gone = Some a' /\ inv [] a' /\ aec_roots a' = aec_roots a.
Proof.
  revert a. induction gone as [|en gone IH]; intros a Hok; [by exists a|].
  destruct (cleanup_election_inv gone a en Hok) as (a1 & E1 & Hok1 & Er1). destruct (IH a1 Hok1) as (a2 & E2 & Hok2 & Er2).
  exists a2. cbn. rewrite E1. cbn. rewrite E2. split; [done|]. split; [done|]. congruence.
Qed.

Lemma aec_erase_ok a root :
  inv [] a -> exists r a', aec_erase a root = Some (r, a') /\ inv [] a' /\
    rc_by_root (aec_roots a') = delete root (rc_by_root (aec_roots a)).
Proof.
  intros Hok. unfold aec_erase. destruct (rc_by_root (aec_roots a) !! root) as [en|] eqn:E.
  - destruct (root_erase_inv [] a root en Hok E) as (c' & -> & Er & Hok'). cbn [mbind option_bind].
    destruct (cleanup_election_inv [] _ en Hok') as (a' & -> & Hok2 & Er2). eexists _, _. split; [done|]. split; [done|].
    by rewrite Er2.
  - unfold root_erase. rewrite E. cbn. eexists _, _. split; [done|]. split; [by destruct a|]. cbn. by rewrite delete_id.
Qed.

Lemma erase_lowest_ok a bucket_id :
  inv [] a -> (bucket_id < bucket_count)%nat -> exists a', erase_lowest_prio_election a bucket_id = Some a' /\ inv [] a'.
Proof.
  intros Hok Hi. unfold erase_lowest_prio_election, root_lowest_priority.
  destruct (lookup_lt_is_Some_2 (rc_buckets (aec_roots a)) bucket_id) as [b E]; [by rewrite (proj1 (ao_buckets _ _ _ Hok))|].
  rewrite E. cbn. destruct (last b) as [x|]; cbn; [|by exists a].
  destruct (aec_erase_ok a (be_root x) Hok) as (r & a' & -> & Hok' & _). by exists a'.
Qed.

Lemma erase_all_inv gone a roots :
  inv gone a -> exists removed c', erase_all (aec_roots a) roots = Some (removed, c') /\ inv (gone ++ removed) (aec_set_roots c' a) /\
    (forall r, rc_by_root c' !! r = if decide (r ∈ roots) then None else rc_by_root (aec_roots a) !! r).
Proof.
  revert gone a. induction roots as [|root roots IH]; intros gone a Hok.
  - exists [], (aec_roots a). cbn. rewrite app_nil_r. split; [done|]. split; [by destruct a|done].
  - cbn. destruct (rc_by_root (aec_roots a) !! root) as [en|] eqn:E.
    + destruct (root_erase_inv gone a root en Hok E) as (c1 & -> & Er & Hok1). cbn [mbind option_bind].
      destruct (IH _ _ Hok1) as (removed & c2 & E2 & Hok2 & Hl). cbn in E2. rewrite E2. cbn.
      eexists _, _. split; [done|]. rewrite <- app_assoc in Hok2. split; [done|]. intros r. rewrite Hl. cbn. rewrite Er.
      destruct (decide (r = root)) as [->|Hne]; [rewrite lookup_delete_eq, (decide_True (P := root ∈ root :: roots)) by (by left); by case_decide|].
      rewrite lookup_delete_ne by done. repeat case_decide; set_solver.
    + unfold root_erase. rewrite E. cbn. destruct (IH _ _ Hok) as (removed & c2 & E2 & Hok2 & Hl). rewrite E2. cbn.
      eexists _, _. split; [done|]. split; [done|]. intros r. rewrite Hl.
      destruct (decide (r = root)) as [->|Hne]; [|repeat case_decide; set_solver].
      rewrite E, (decide_True (P := root ∈ root :: roots)) by (by left). by case_decide.
Qed.

Lemma erase_ended_ok a :
  inv [] a -> exists a', erase_ended_elections a = Some a' /\ inv [] a' /\
    forall root en, rc_by_root (aec_roots a') !! root = Some en <->
      rc_by_root (aec_roots a) !! root = Some en /\ has_ended (el_state (en_election en)) = false.
Proof.
  intros Hok. unfold erase_ended_elections, drain_filter.
  set (roots := en_root <$> _).
  assert (forall r, r ∈ roots <-> exists en, rc_by_root (aec_roots a) !! r = Some en /\ has_ended (el_state (en_election en)) = true) as Hroots.
  { intros r. unfold roots. rewrite list_elem_of_fmap. split.
    - intros (en & -> & [Hp Hin]%list_elem_of_filter). rewrite hash_iter_perm in Hin.
      apply list_elem_of_fmap in Hin as ([k x] & -> & Hin). apply elem_of_map_to_list in Hin. cbn in *.
      exists x. by rewrite (eno_root _ _ _ (ao_entries _ _ _ Hok _ _ Hin)).
    - intros (en & E & Hp). exists en. split; [by rewrite (eno_root _ _ _ (ao_entries _ _ _ Hok _ _ E))|].
      apply list_elem_of_filter. split; [done|]. rewrite hash_iter_perm. apply list_elem_of_fmap. exists (r, en).
      split; [done|]. by apply elem_of_map_to_list. }
  destruct (erase_all_inv [] a roots Hok) as (removed & c' & -> & Hok' & Hl). cbn [mbind option_bind].
  destruct (cleanup_elections_inv removed _ Hok') as (a' & -> & Hok2 & Er). exists a'. split; [done|]. split; [done|].
  intros root en. rewrite Er. cbn. rewrite Hl. case_decide as Hin; rewrite Hroots in Hin.
  - split; [done|]. intros [E Hp]. destruct Hin as (en' & E' & Hp'). congruence.
  - split; [|naive_solver]. intros E. split; [done|]. apply not_true_is_false. intros Hp. apply Hin. eauto.
Qed.

Lemma transition_time_ok a now : inv [] a -> exists a', aec_transition_time a now = Some a' /\ inv [] a'.
Proof.
  intros Hok. unfold aec_transition_time. destruct (erase_ended_ok
    (aec_set_roots (rc_set_by_root (transition_entry now <$> rc_by_root (aec_roots a)) (aec_roots a)) a)) as (a' & E & Hok' & _).
  - apply (aec_same known [] a); try done; [|apply Hok]. apply same_entries_fmap. intros en. split_and!; try done.
    apply transition_time_shape.
  - by exists a'.
Qed.

Lemma aec_stop_ok a : inv [] a -> inv [] (aec_stop a).
Proof.
  intros [_ [Hl _] Hr _ _]. split; cbn; try done.
  - split; [by rewrite length_fmap|]. intros i b (b0 & -> & _)%list_lookup_fmap_Some. split; [constructor|].
    intros x. rewrite elem_of_nil. split; [done|]. by intros (en & E & _).
Qed.

(** ** Starting elections *)

Hypothesis Hknown : no_collisions known.

(** A route leads to the root of every known block with that hash. *)
Lemma router_root m router h r b :
  entries_ok known m -> router_ok m router -> router !! h = Some r -> known b -> block_hash b = h -> qualified_root b = r.
Proof using Hknown.
  intros He Hr E Hb <-. destruct (proj1 (Hr _ _) E) as (en & Em & [x Ex]). destruct (He _ _ Em) as [_ Eq Hok Hk _].
  destruct (eo_key _ Hok _ _ Ex) as (Eh & _ & Eqr). rewrite <- Eq, <- Eqr. apply Hknown; [done|by eapply Hk|done].
Qed.

Lemma root_insert_inv a en :
  inv [] a -> aec_stopped a = false -> entry_ok known (en_root en) en ->
  el_candidate_blocks (en_election en) = {[ block_hash (el_winner (en_election en)) := el_winner (en_election en) ]} ->
  rc_by_root (aec_roots a) !! en_root en = None ->
  exists c', root_insert (aec_roots a) en = Some c' /\
    rc_by_root c' = <[en_root en := en]> (rc_by_root (aec_roots a)) /\
    inv [] (count_up (el_behavior (en_election en)) (aec_set_roots c' a)).
Proof using Hknown.
  intros Hok Hs Hen Hc E. pose proof (ao_running _ _ _ Hok Hs) as [HR HC]. unfold root_insert.
  destruct (bucket_index_ok (el_behavior (en_election en)) _ (eno_balance _ _ _ Hen)) as (i & Ei & Hi).
  unfold entry_bucket at 1. rewrite Ei. cbn [mbind option_bind].
  destruct (on_bucket_some _ (aec_roots a) i (btree_insert bucket_entry_cmp (mkBucketEntry (en_root en) (en_priority en)))
    (ao_buckets _ _ _ Hok) Hi) as (b & Eb & _ & ->). cbn [mbind option_bind].
  eexists. split; [done|]. split; [done|]. split; cbn.
  - intros r x [[<- <-]|[_ Hx]]%lookup_insert_Some; [done|by apply Hok].
  - apply buckets_insert; try done. apply Hok.
  - apply Hok.
  - intros _. split; [|by apply (counts_insert _ [])]. eapply router_insert; [exact HR|]. intros h r. rewrite Hc.
    rewrite lookup_insert_Some, lookup_singleton_is_Some. split.
    + intros [[<- <-]|[Hne Hx]]; [by left|]. right. split; [|done]. intros ->. apply HR in Hx as (en0 & E0 & _). congruence.
    + intros [[-> ->]|[Hne Hx]]; [by left|]. right. split; [|done]. intros <-. apply Hne. symmetry.
      destruct Hen as [_ Hq Hel Hk _]. rewrite <- Hq. destruct (eo_key _ Hel _ _ (eo_winner _ Hel)) as (_ & _ & <-).
      eapply router_root; [apply Hok|done|done| |done]. eapply Hk, Hel.
  - congruence.
Qed.

Definition request_ok (rq : AecInsertRequest) : Prop :=
  known_block (rq_block rq) /\ 0 <= bp_balance (rq_priority rq).

Lemma insert_new_ok a rq now :
  inv [] a -> aec_stopped a = false -> request_ok rq ->
  rc_by_root (aec_roots a) !! qualified_root (rq_block rq) = None ->
  exists a', insert_new_election a rq now = Some a' /\ inv [] a' /\
    rc_by_root (aec_roots a') = <[qualified_root (rq_block rq) := mkEntry (qualified_root (rq_block rq))
       (election_new (rq_block rq) (rq_behavior rq) (aec_base_latency a) now) (rq_priority rq)]> (rc_by_root (aec_roots a)).
Proof using Hknown.
  intros Hok Hs [[Hk Hnz] Hb] E. unfold insert_new_election.
  destruct (root_insert_inv a (mkEntry (qualified_root (rq_block rq))
    (election_new (rq_block rq) (rq_behavior rq) (aec_base_latency a) now) (rq_priority rq)) Hok Hs) as (c' & -> & Er & Hok'); try done.
  - split; try done; [by apply election_new_ok|]. cbn. by intros h b [<- <-]%lookup_singleton_Some.
  - eexists. split; [done|]. split; [|done]. by apply notify_ok.
Qed.

(** ** Upgrading *)

Lemma upgrade_ok a rq en :
  inv [] a -> rc_by_root (aec_roots a) !! qualified_root (rq_block rq) = Some en ->
  exists r a', try_upgrade_priority_election a rq = Some (r, a') /\ inv [] a' /\ r <> Ok false.
Proof.
  intros Hok E. unfold try_upgrade_priority_election, try_upgrade_to_priority_election. rewrite E.
  set (root := qualified_root (rq_block rq)) in *.
  assert (inv [] (aec_set_roots (aec_roots a) a)) as Hsame by (by destruct a).
  destruct (negb _) eqn:Ebh; [by eexists _, _|]. apply negb_false_iff, bool_decide_eq_true in Ebh.
  destruct (maybe_upgrade_to (en_election en) Priority) as [up e1] eqn:Eup.
  destruct up; cbn [negb]; [|by eexists _, _].
  destruct (aec_stopped a) eqn:Hs; [by destruct (ao_stopped _ _ _ Hok Hs) as [Hm _]; rewrite Hm, lookup_empty in E|].
  destruct (ao_running _ _ _ Hok Hs) as [HR HC]. destruct (ao_entries _ _ _ Hok _ _ E) as [Er Eq Hel Hk Hb].
  assert (e1 = el_set_behavior Priority (en_election en)) as ->
    by (unfold maybe_upgrade_to in Eup; cbn in Eup; destruct (el_behavior (en_election en)); inversion Eup; reflexivity).
  set (en' := mkEntry (en_root en) (el_set_behavior Priority (en_election en)) (en_priority en)).
  destruct (bucket_index_ok (el_behavior (en_election en)) _ Hb) as (i & Ei & Hi). rewrite Ei.
  destruct (bucket_index_ok Priority _ Hb) as (j & Ej & Hj). rewrite Ej. cbn [mbind option_bind].
  destruct (on_bucket_some _ (rc_set_by_root (<[root:=en']> (rc_by_root (aec_roots a))) (aec_roots a)) i
    (btree_remove bucket_entry_cmp (mkBucketEntry root (en_priority en))) (ao_buckets _ _ _ Hok) Hi) as (b & Eb & _ & ->).
  cbn [mbind option_bind rc_by_root rc_set_by_root rc_vote_router rc_buckets].
  pose proof (buckets_delete _ _ root en i b (ao_buckets _ _ _ Hok) E Ei Eb) as Hbd.
  destruct (on_bucket_some _ (mkRootContainer (<[root:=en']> (rc_by_root (aec_roots a)))
     (<[i:=btree_remove bucket_entry_cmp (mkBucketEntry root (en_priority en)) b]> (rc_buckets (aec_roots a)))
     (rc_vote_router (aec_roots a))) j (btree_insert bucket_entry_cmp (mkBucketEntry root (en_priority en))) Hbd Hj)
    as (b2 & Eb2 & _ & ->). cbn [mbind option_bind rc_by_root rc_buckets rc_vote_router].
  destruct (counts_clean _ [] _ en (counts_delete _ [] _ _ _ HC E)) as (n & En & HCd).
  unfold count_down, count_by_behavior. cbn [aec_count_by_behavior aec_set_roots]. rewrite En. cbn [mbind option_bind].
  eexists _, _. split; [done|]. split; [|done]. split; cbn.
  - intros r x [[<- <-]|[_ Hx]]%lookup_insert_Some; [|by apply Hok]. split; try done.
    pose proof (step_upgrade (en_election en) Priority) as Hst. rewrite Eup in Hst. by apply (election_step_ok _ _ Hst).
  - rewrite <- (insert_delete_eq (rc_by_root (aec_roots a))). apply (buckets_insert _ _ root en' j b2 Hbd); try done.
    apply lookup_delete_eq.
  - apply Hok.
  - intros _. split.
    + eapply router_insert; [exact HR|]. intros h r. destruct (decide (r = root)) as [->|Hne].
      * rewrite (HR h root). split; [|naive_solver]. intros (x & Ex & Hx). left. assert (x = en) as -> by congruence. done.
      * naive_solver.
    + rewrite <- (insert_delete_eq (rc_by_root (aec_roots a))), Ebh. unfold count_by_behavior. cbn [aec_count_by_behavior aec_set_counts].
      apply (counts_insert _ [] _ root en' HCd). apply lookup_delete_eq.
  - congruence.
Qed.

Lemma aec_insert_ok a rq now :
  inv [] a -> request_ok rq -> exists r a', aec_insert a rq now = Some (r, a') /\ inv [] a'.
Proof using Hknown HashOrderLaws0.
  intros Hok Hrq. unfold aec_insert, ensure_not_stopped, ensure_not_recently_confirmed.
  destruct (aec_stopped a) eqn:Hs; [by eexists _, _|]. destruct (rcc_root_exists _ _); [by eexists _, _|].
  destruct (rc_by_root (aec_roots a) !! qualified_root (rq_block rq)) as [en|] eqn:E.
  - destruct (upgrade_ok a rq en Hok E) as (r & a1 & -> & Hok1 & Hr). cbn. destruct r as [[]|]; eauto; done.
  - unfold try_upgrade_priority_election, try_upgrade_to_priority_election. rewrite E. cbn [mbind option_bind].
    assert (aec_set_roots (aec_roots a) a = a) as -> by (by destruct a).
    destruct (insert_new_ok a rq now Hok Hs Hrq E) as (a1 & -> & Hok1 & _). cbn. eauto.
Qed.

(** ** Forks *)

(** The routes after the candidates of [root] became [cand]. *)
Definition rerouted (router : gmap BlockHash QualifiedRoot) (root : QualifiedRoot)
    (cand : gmap BlockHash MaybeSavedBlock) (router' : gmap BlockHash QualifiedRoot) : Prop :=
  forall h r, router' !! h = Some r <-> (r = root /\ is_Some (cand !! h)) \/ (r <> root /\ router !! h = Some r).

Lemma rerouted_same m router root en :
  router_ok m router -> m !! root = Some en -> rerouted router root (el_candidate_blocks (en_election en)) router.
Proof.
  intros HR E h r. destruct (decide (r = root)) as [->|Hne]; [|split; [by right|by intros [[]|[]]]].
  rewrite (HR h root). split; [|intros [[_ ?]|[]]; by eauto]. intros (x & Ex & Hx). left. by assert (x = en) as <- by congruence.
Qed.

Lemma rerouted_disconnect router root cand h :
  rerouted router root cand router -> is_Some (cand !! h) -> rerouted router root (delete h cand) (delete h router).
Proof.
  intros HR Hh h' r. rewrite lookup_delete_Some, lookup_delete_is_Some. split.
  - intros [Hne Hx]. destruct (proj1 (HR h' r) Hx) as [[-> Hc]|[Hn _]]; [by left|by right].
  - intros [[-> [Hne Hc]]|[Hn Hx]]; (split; [|try done]); [done|apply HR; by left|]. intros <-. apply Hn.
    pose proof (proj2 (HR h root) (or_introl (conj eq_refl Hh))). congruence.
Qed.

Lemma rerouted_connect router router' root cand h x :
  rerouted router root cand router' -> (forall r, router !! h = Some r -> r = root) ->
  rerouted router root (<[h := x]> cand) (<[h := root]> router').
Proof.
  intros HR Hh h' r. rewrite lookup_insert_Some, lookup_insert_is_Some', (HR h' r). split.
  - intros [[<- <-]|[Hne [[-> Hc]|[Hn Hx]]]]; [left; split; [done|by left]|left; split; [done|by right]|by right].
  - intros [[-> [->|Hc]]|[Hn Hx]]; [by left| |].
    + destruct (decide (h = h')) as [->|]; [by left|]. right. split; [done|by left].
    + right. split; [|by right]. intros <-. by apply Hn, Hh.
Qed.

Lemma alter_lookup {V} (f : V -> V) (m : gmap QualifiedRoot V) k x :
  m !! k = Some x -> alter f k m = <[k := f x]> m.
Proof.
  intros E. apply map_eq. intros r. destruct (decide (k = r)) as [->|Hne].
  - by rewrite lookup_alter_eq, lookup_insert_eq, E.
  - by rewrite lookup_alter_ne, lookup_insert_ne by done.
Qed.

Lemma fork_inv a root en e1 router' :
  inv [] a -> rc_by_root (aec_roots a) !! root = Some en ->
  election_ok e1 -> el_qualified_root e1 = root -> el_behavior e1 = el_behavior (en_election en) ->
  (forall h (b : MaybeSavedBlock), el_candidate_blocks e1 !! h = Some b -> known b) ->
  rerouted (rc_vote_router (aec_roots a)) root (el_candidate_blocks e1) router' ->
  inv [] (aec_set_roots (rc_set_vote_router router' (alter_election root (fun _ => e1) (aec_roots a))) a).
Proof.
  intros Hok E Hel Hq Hbh Hk Hre. set (en' := mkEntry (en_root en) e1 (en_priority en)).
  destruct (ao_entries _ _ _ Hok _ _ E) as [Er _ _ _ Hb].
  assert (alter (fun en => mkEntry (en_root en) e1 (en_priority en)) root (rc_by_root (aec_roots a))
    = <[root := en']> (rc_by_root (aec_roots a))) as Ealt by (exact (alter_lookup _ _ _ _ E)).
  assert (entry_bucket en' = entry_bucket en) as Eb by (unfold entry_bucket; cbn; by rewrite Hbh).
  split; cbn; rewrite ?Ealt.
  - intros r x [[<- <-]|[_ Hx]]%lookup_insert_Some; [by split|by apply Hok].
  - destruct (ao_buckets _ _ _ Hok) as [Hl HB]. split; [done|]. intros i b Ei. destruct (HB i b Ei) as [Hs Hin].
    split; [done|]. intros x. rewrite Hin. setoid_rewrite lookup_insert_Some. split.
    + intros (y & Ey & Ep & Ebk). destruct (decide (root = be_root x)) as [Ex|Hne]; [|by exists y; eauto].
      assert (y = en) as -> by congruence. exists en'. rewrite Eb. eauto.
    + intros (y & [[Ex <-]|[Hne Ey]] & Ep & Ebk); [|eauto]. exists en. rewrite <- Eb, <- Ex. done.
  - apply Hok.
  - intros Hs. destruct (ao_running _ _ _ Hok Hs) as [HR [Hl HC]]. split; [by eapply router_insert|].
    split; [done|]. intros b. rewrite HC. f_equal. rewrite <- (insert_delete_eq (rc_by_root (aec_roots a))).
    rewrite count_of_insert by apply lookup_delete_eq. rewrite (count_of_delete _ root en b E). cbn. by rewrite Hbh.
  - intros Hs. destruct (ao_stopped _ _ _ Hok Hs) as [Hm _]. by rewrite Hm, lookup_empty in E.
Qed.

Lemma aec_set_roots_notify x ev a : aec_set_roots x (aec_notify ev a) = aec_notify ev (aec_set_roots x a).
Proof. done. Qed.

Lemma aec_fork_ok a fork fork_tally :
  inv [] a -> known_block fork -> exists r a', aec_try_add_fork a fork fork_tally = Some (r, a') /\ inv [] a'.
Proof using Hknown HashOrderLaws0.
  intros Hok [Hkf Hnz]. unfold aec_try_add_fork, root_election_for_root. set (root := qualified_root fork).
  destruct (rc_by_root (aec_roots a) !! root) as [en|] eqn:E; cbn [fmap option_fmap option_map]; [|by eexists _, _].
  destruct (ao_entries _ _ _ Hok _ _ E) as [Er Eq Hel Hk Hb].
  destruct (try_add_fork_ok (en_election en) fork fork_tally Hel Hnz) as (r & e1 & -> & Hok1 & Er1 & Es1 & Ew1 & Eb1 & Hr);
    [by rewrite Eq|]. cbn [mbind option_bind].
  destruct (aec_stopped a) eqn:Hs; [by destruct (ao_stopped _ _ _ Hok Hs) as [Hm _]; rewrite Hm, lookup_empty in E|].
  destruct (ao_running _ _ _ Hok Hs) as [HR _]. pose proof (rerouted_same _ _ _ _ HR E) as HS.
  assert (forall r, rc_vote_router (aec_roots a) !! block_hash fork = Some r -> r = root) as Hfork.
  { intros x Hx. symmetry. by eapply router_root; [apply Hok|done|done| |]. }
  assert (r <> Added -> (forall b, r <> Replaced b) -> inv [] (aec_set_roots (alter_election root (fun _ => e1) (aec_roots a)) a)) as Hno.
  { intros Ha Hrep. apply alter_election_ok; [|done]. intros x Ex. assert (x = en) as -> by congruence.
    destruct r; try done; subst; try apply same_shape_refl. by destruct (Hrep b). }
  destruct r as [|b| | |]; eexists _, _; (split; [done|]).
  - rewrite aec_set_roots_notify. apply notify_ok. apply (fork_inv a root en e1); try done; [congruence|..].
    + intros h b. rewrite Hr. intros [[<- <-]|[_ ?]]%lookup_insert_Some; [done|by eapply Hk].
    + rewrite Hr. by apply rerouted_connect.
  - destruct Hr as (Hcb & Hc1 & Hcf). rewrite !aec_set_roots_notify. do 2 apply notify_ok.
    apply (fork_inv a root en e1); try done; [congruence|..].
    + intros h x. rewrite Hc1. intros [[<- <-]|[_ [_ ?]%lookup_delete_Some]]%lookup_insert_Some; [done|by eapply Hk].
    + rewrite Hc1. apply rerouted_connect; [|done]. by apply rerouted_disconnect.
  - apply notify_ok. by apply Hno.
  - by apply Hno.
  - by apply Hno.
Qed.

(** ** Confirmations from outside *)

Lemma aec_alter_ok gone a root f :
  inv gone a -> (forall e, same_shape e (f e)) -> inv gone (aec_set_roots (alter_election root f (aec_roots a)) a).
Proof. intros Hok Hf. by apply alter_election_ok. Qed.

Lemma aec_replace_ok gone a root en e1 :
  inv gone a -> rc_by_root (aec_roots a) !! root = Some en -> same_shape (en_election en) e1 ->
  inv gone (aec_set_roots (alter_election root (fun _ => e1) (aec_roots a)) a).
Proof. intros Hok E Hs. apply alter_election_ok; [|done]. intros x Ex. by assert (x = en) as -> by congruence. Qed.

Lemma force_confirm_ok a hash now a' : inv [] a -> aec_force_confirm a hash now = Some a' -> inv [] a'.
Proof.
  intros Hok. unfold aec_force_confirm, root_election_for_root. destruct (rc_vote_router (aec_roots a) !! hash) as [root|]; [|done].
  cbn [mbind option_bind]. destruct (rc_by_root (aec_roots a) !! root) as [en|] eqn:E; [|done]. cbn [fmap option_fmap option_map mbind option_bind].
  pose proof (force_confirm_shape (en_election en)) as Hs. destruct (force_confirm (en_election en)) as [forced e1].
  intros [= <-]. pose proof (aec_replace_ok _ _ _ _ _ Hok E Hs). destruct forced; [by apply notify_ok|done].
Qed.

Lemma confirm_dependent_ok a b source now : inv [] a -> inv [] (confirm_dependent_election a b source now).2.
Proof.
  intros Hok. unfold confirm_dependent_election, root_election_for_root.
  assert (inv [] (match en_election <$> rc_by_root (aec_roots a) !! qualified_root b with
    | None => (confirmed_election_new b InactiveConfirmationHeight, a)
    | Some e => if block_hash (el_winner e) =? block_hash b
        then (into_confirmed_election (force_confirm e).2 now ActiveConfirmationHeight,
              aec_set_roots (alter_election (qualified_root b) (fun _ => (force_confirm e).2) (aec_roots a)) a)
        else (confirmed_election_new b ActiveConfirmationHeight,
              aec_set_roots (alter_election (qualified_root b) cancel (aec_roots a)) a) end).2) as Hc.
  { destruct (rc_by_root (aec_roots a) !! qualified_root b) as [en|] eqn:E; cbn; [|done]. case_match; cbn.
    - eapply aec_replace_ok; [done|done|apply force_confirm_shape].
    - apply aec_alter_ok; auto with aec. }
  destruct source as [s|]; [|done]. by destruct (block_hash b =? _).
Qed.

Lemma confirm_dependents_ok a confirmed now : inv [] a -> inv [] (confirm_dependent_elections a confirmed now).
Proof.
  revert a. induction confirmed as [|[b s] confirmed IH]; intros a Hok; [done|]. cbn.
  pose proof (confirm_dependent_ok a b s now Hok) as H1. destruct (confirm_dependent_election a b s now) as [c a1].
  by apply IH, notify_ok.
Qed.

(** ** Votes *)

(** Votes of a representative only get newer: by timestamp, then by hash. *)
Definition vote_le (v v' : VoteSummary) : Prop :=
  vs_vote_created v < vs_vote_created v' \/ (vs_vote_created v = vs_vote_created v' /\ vs_hash v <= vs_hash v').

Definition votes_le (e e' : Election) : Prop :=
  forall k v, el_votes e !! k = Some v -> exists v', el_votes e' !! k = Some v' /\ vote_le v v'.

Lemma vote_le_refl v : vote_le v v.
Proof. unfold vote_le. lia. Qed.

Lemma votes_le_refl e : votes_le e e.
Proof. intros k v E. exists v. split; [done|apply vote_le_refl]. Qed.

Lemma votes_le_trans e1 e2 e3 : votes_le e1 e2 -> votes_le e2 e3 -> votes_le e1 e3.
Proof.
  intros H12 H23 k v E. destruct (H12 k v E) as (v' & E' & L'). destruct (H23 k v' E') as (v'' & E'' & L'').
  exists v''. split; [done|]. unfold vote_le in *. lia.
Qed.

Lemma update_tallies_votes e rw q e' :
  weights_ok rw -> election_ok e -> update_tallies e rw q = Some e' -> votes_le e e'.
Proof using HashOrderLaws0.
  intros Hw Hok Hu. destruct (has_ended (el_state e)) eqn:He.
  - unfold update_tallies in Hu. rewrite He in Hu. injection Hu as <-. apply votes_le_refl.
  - destruct (update_tallies_ok rw q Hw e Hok He) as (e1 & E1 & _ & Hup). assert (e1 = e') as -> by congruence.
    intros k v E. pose proof (up_voters _ _ _ _ Hup k) as Hk. rewrite E in Hk.
    destruct (el_votes e' !! k) as [v'|]; [|done]. injection Hk as Hc Hh. exists v'. split; [done|]. unfold vote_le. lia.
Qed.

Lemma add_vote_votes e k h created received :
  (forall v, el_votes e !! k = Some v -> vs_vote_created v < created \/ (vs_vote_created v = created /\ vs_hash v <= h)) ->
  votes_le e (add_vote e k h created received).
Proof.
  intros Hv k' v E. cbn. destruct (decide (k = k')) as [<-|Hne].
  - rewrite lookup_insert_eq. eexists. split; [done|]. apply (Hv v E).
  - rewrite lookup_insert_ne by done. exists v. split; [done|apply vote_le_refl].
Qed.

Lemma no_replay v vote h :
  ensure_no_replay v vote h = Ok tt ->
  vs_vote_created v < vote_timestamp vote \/ (vs_vote_created v = vote_timestamp vote /\ vs_hash v <= h).
Proof.
  unfold ensure_no_replay. destruct (Z.ltb_spec (vote_timestamp vote) (vs_vote_created v)); [done|].
  destruct (Z.eqb_spec (vs_vote_created v) (vote_timestamp vote)); [|lia].
  destruct (Z.leb_spec h (vs_hash v)); [done|]. lia.
Qed.

(** A change that leaves elections and counters alone. *)
Definition light (a a' : ActiveElectionsContainer) : Prop :=
  aec_roots a' = aec_roots a /\ forall gone, inv gone a -> inv gone a'.

Lemma notify_light ev a : light a (aec_notify ev a).
Proof. split; [done|]. intros gone. apply notify_ok. Qed.

Lemma light_trans a a' a'' : light a a' -> light a' a'' -> light a a''.
Proof. intros [E1 H1] [E2 H2]. split; [congruence|auto]. Qed.

Context (args : ApplyVoteArgs).
Hypothesis Hw : weights_ok (av_rep_weights args).

Lemma got_confirmed_light e a : light a (election_got_confirmed args e a).
Proof.
  eapply light_trans; [|apply notify_light]. split; [done|]. intros gone Hok. apply (aec_same known gone a); try done.
  - apply same_entries_refl.
  - apply rcc_put_ok, Hok.
Qed.

Lemma confirm_if_quorum_ok e a :
  election_ok e -> exists e1 a1, confirm_if_quorum args e a = Some (e1, a1) /\ same_shape e e1 /\ votes_le e e1 /\ light a a1.
Proof using Hw HashOrderLaws0.
  intros Hok. unfold confirm_if_quorum.
  destruct (update_tallies_shape e _ (qs_quorum_delta (av_quorum_specs args)) Hw Hok) as (e1 & E1 & Hs). rewrite E1.
  cbn [mbind option_bind]. eexists _, _. split; [done|]. split; [done|]. split; [by eapply update_tallies_votes|].
  assert (light a (notify_winner_changed (block_hash (el_winner e)) e1 a)) as Hl.
  { unfold notify_winner_changed. destruct (negb _); [apply notify_light|by split]. }
  destruct (is_final e1), (election_is_confirmed e1); try done.
  eapply light_trans; [exact Hl|apply got_confirmed_light].
Qed.

Lemma apply_to_election_ok e h a :
  election_ok e -> contains_block e h = true ->
  exists r e1 a1, apply_vote_to_election args e h a = Some (r, e1, a1) /\ same_shape e e1 /\ votes_le e e1 /\ light a a1.
Proof using Hw HashOrderLaws0.
  intros Hok Hc. unfold apply_vote_to_election. set (vote := fv_vote (av_vote args)).
  assert (forall r, exists r1 e1 a1, Some (r : result VoteError unit, e, a) = Some (r1, e1, a1) /\ same_shape e e1 /\ votes_le e e1 /\ light a a1) as Hno.
  { intros r. eexists _, _, _. split; [done|]. split; [done|]. split; [apply votes_le_refl|by split]. }
  destruct (election_is_confirmed e); [apply Hno|].
  assert ((forall v, el_votes e !! vote_voter vote = Some v -> ensure_no_replay v vote h = Ok tt) ->
    exists r1 e1 a1, ('(e1, a1) ← add_vote_to_election args e h a; Some (Ok tt : result VoteError unit, e1, a1)) = Some (r1, e1, a1) /\
      same_shape e e1 /\ votes_le e e1 /\ light a a1) as Hadd.
  { intros Hv. pose proof (add_vote_shape e (vote_voter vote) h (vote_timestamp vote) (av_now args) Hc) as Hs.
    destruct (confirm_if_quorum_ok _ a (ss_ok _ _ Hs Hok)) as (e1 & a1 & E1 & Hs1 & Hv1 & Hl).
    unfold add_vote_to_election. fold vote. rewrite E1. eexists _, _, _. split; [done|].
    split; [by eapply same_shape_trans|]. split; [|done]. eapply votes_le_trans; [|exact Hv1].
    apply add_vote_votes. intros v E. by apply no_replay, Hv. }
  destruct (el_votes e !! vote_voter vote) as [v|] eqn:Ev; [|by apply Hadd].
  destruct (ensure_no_replay v vote h) as [[]|err] eqn:Er; [|apply Hno].
  destruct (should_cool_down _ _ _); [apply Hno|]. apply Hadd. intros v' [= <-]. done.
Qed.

(** Every election that is still there was there before, with the same
    candidates and newer votes. *)
Definition evolves (a a' : ActiveElectionsContainer) : Prop :=
  forall root en', rc_by_root (aec_roots a') !! root = Some en' ->
    exists en, rc_by_root (aec_roots a) !! root = Some en /\
      same_shape (en_election en) (en_election en') /\ votes_le (en_election en) (en_election en').

Lemma evolves_refl a : evolves a a.
Proof. intros root en E. exists en. split; [done|]. split; [done|apply votes_le_refl]. Qed.

Lemma evolves_trans a1 a2 a3 : evolves a1 a2 -> evolves a2 a3 -> evolves a1 a3.
Proof.
  intros H12 H23 root en3 E3. destruct (H23 _ _ E3) as (en2 & E2 & S2 & V2). destruct (H12 _ _ E2) as (en1 & E1 & S1 & V1).
  exists en1. split; [done|]. split; [by eapply same_shape_trans|by eapply votes_le_trans].
Qed.

Lemma evolves_replace a a1 root en e1 :
  aec_roots a1 = aec_roots a -> rc_by_root (aec_roots a) !! root = Some en -> same_shape (en_election en) e1 ->
  votes_le (en_election en) e1 ->
  evolves a (aec_set_roots (alter_election root (fun _ => e1) (aec_roots a1)) a1).
Proof.
  intros Er E Hs Hv r en' E'. cbn in E'. rewrite Er in E'. rewrite (alter_lookup _ _ _ _ E) in E'.
  apply lookup_insert_Some in E' as [[<- <-]|[Hne E']]; [by exists en|]. by apply (evolves_refl a).
Qed.

Lemma route_entry gone a h root :
  inv gone a -> rc_vote_router (aec_roots a) !! h = Some root ->
  rc_by_root (aec_roots a) !! root = None \/
  exists en, rc_by_root (aec_roots a) !! root = Some en /\ contains_block (en_election en) h = true.
Proof.
  intros Hok E. destruct (rc_by_root (aec_roots a) !! root) as [en|] eqn:Em; [right|by left].
  destruct (aec_stopped a) eqn:Hs; [by destruct (ao_stopped _ _ _ Hok Hs) as [Hm _]; rewrite Hm, lookup_empty in Em|].
  destruct (ao_running _ _ _ Hok Hs) as [HR _]. destruct (proj1 (HR h root) E) as (x & Ex & Hx).
  exists en. split; [done|]. assert (x = en) as -> by congruence. unfold contains_block. by apply bool_decide_eq_true.
Qed.

Lemma apply_to_block_ok r h a :
  inv (avr_confirmed r) a ->
  exists r' a', apply_vote_to_block args r h a = Some (r', a') /\ inv (avr_confirmed r') a' /\ evolves a a' /\
    dom (avr_per_block r') = {[h]} ∪ dom (avr_per_block r).
Proof using Hw HashOrderLaws0.
  intros Hok. unfold apply_vote_to_block. case_bool_decide as Hd.
  { exists r, a. split; [done|]. split; [done|]. split; [apply evolves_refl|].
    apply elem_of_dom in Hd. symmetry. by apply subseteq_union_1_L, singleton_subseteq_l. }
  assert (forall err, exists r' a', Some (mkApplyVoteResult (<[h := Err err]> (avr_per_block r)) (avr_confirmed r), a) = Some (r', a') /\
    inv (avr_confirmed r') a' /\ evolves a a' /\ dom (avr_per_block r') = {[h]} ∪ dom (avr_per_block r)) as Hno.
  { intros err. eexists _, _. split; [done|]. split; [done|]. split; [apply evolves_refl|]. cbn. by rewrite dom_insert_L. }
  destruct (rc_vote_router (aec_roots a) !! h) as [root|] eqn:Er; cbn [mbind option_bind]; [|apply Hno].
  unfold root_election_for_root. destruct (route_entry _ a h root Hok Er) as [->|(en & E & Hc)]; [apply Hno|].
  rewrite E. cbn [fmap option_fmap option_map]. destruct (ao_entries _ _ _ Hok _ _ E) as [Ern Eq Hel _ _].
  destruct (apply_to_election_ok (en_election en) h a Hel Hc) as (vr & e1 & a1 & -> & Hs & Hv & [El Hl]). cbn [mbind option_bind].
  pose proof (evolves_replace a a1 root en e1 El E Hs Hv) as Hev.
  assert (inv (avr_confirmed r) (aec_set_roots (alter_election root (fun _ => e1) (aec_roots a1)) a1)) as Hok2.
  { eapply aec_replace_ok; [by apply Hl|by rewrite El|done]. }
  destruct (election_is_confirmed e1).
  - rewrite (ss_root _ _ Hs), Eq.
    destruct (root_erase_inv _ _ root (mkEntry (en_root en) e1 (en_priority en)) Hok2) as (c' & -> & Ec & Hok3).
    { cbn. rewrite El, (alter_lookup _ _ _ _ E). by rewrite lookup_insert_eq. }
    cbn [mbind option_bind]. eexists _, _. split; [done|]. split; [done|]. split; [|cbn; by rewrite dom_insert_L].
    eapply evolves_trans; [exact Hev|]. intros x y Hy. cbn in Hy. rewrite Ec in Hy. apply lookup_delete_Some in Hy as [_ Hy].
    by apply (evolves_refl _ x y).
  - eexists _, _. split; [done|]. split; [done|]. split; [done|]. cbn. by rewrite dom_insert_L.
Qed.

Lemma apply_to_blocks_ok hashes r a :
  inv (avr_confirmed r) a ->
  exists r' a', apply_vote_to_blocks args r hashes a = Some (r', a') /\ inv (avr_confirmed r') a' /\ evolves a a' /\
    dom (avr_per_block r') = list_to_set hashes ∪ dom (avr_per_block r).
Proof using Hw HashOrderLaws0.
  revert r a. induction hashes as [|h hashes IH]; intros r a Hok; cbn.
  - exists r, a. split; [done|]. split; [done|]. split; [apply evolves_refl|by rewrite union_empty_l_L].
  - destruct (apply_to_block_ok r h a Hok) as (r1 & a1 & -> & Hok1 & Hev1 & Hd1). cbn.
    destruct (IH r1 a1 Hok1) as (r2 & a2 & -> & Hok2 & Hev2 & Hd2). exists r2, a2. split; [done|]. split; [done|].
    split; [by eapply evolves_trans|]. rewrite Hd2, Hd1.
    by rewrite (union_comm_L {[h]} (list_to_set hashes)), union_assoc_L.
Qed.

Lemma aec_apply_vote_ok a :
  inv [] a ->
  exists per_block a', aec_apply_vote args a = Some (per_block, a') /\ inv [] a' /\ evolves a a' /\
    dom per_block = list_to_set (filtered_blocks (av_vote args)).
Proof using Hw HashOrderLaws0.
  intros Hok. unfold aec_apply_vote.
  destruct (apply_to_blocks_ok (filtered_blocks (av_vote args)) (mkApplyVoteResult ∅ []) a Hok) as (r & a1 & -> & Hok1 & Hev & Hd).
  cbn [mbind option_bind]. destruct (cleanup_elections_inv _ _ Hok1) as (a2 & -> & Hok2 & Er).
  eexists _, _. split; [done|]. split; [done|]. split; [|cbn in Hd; by rewrite Hd, dom_empty_L, union_empty_r_L].
  intros root en'. rewrite Er. apply Hev.
Qed.
End ops.
