(* ===== verification/RoundRobin.v ===== *)
(** * The round robin iterator over the active elections is complete *)

From S2P Require Import Prelude Ordered Types Blocks Votes Election ElectionSafe ActiveElections.
From S2P Require Import AecSafe.

(** Before an item was yielded in a round, the buckets passed are empty; the
    round ends at the last bucket. *)
Record rr_ok (it : RoundRobinIterator) : Prop := {
  rr_passed : rr_yielded it = false -> forall j, (j < rr_current it)%nat -> rr_bucket_iters it !! j = Some [];
  rr_end : (length (rr_bucket_iters it) <= rr_current it)%nat -> rr_yielded it = false;
  rr_range : (rr_current it <= length (rr_bucket_iters it))%nat;
}.

Definition rr_measure (it : RoundRobinIterator) : nat :=
  length (rr_bucket_iters it) - rr_current it + (if rr_yielded it then length (rr_bucket_iters it) else 0) + 1.

Lemma concat_empty {A} (l : list (list A)) : (forall j, (j < length l)%nat -> l !! j = Some []) -> mjoin l = [].
Proof.
  induction l as [|x l IH]; intros Hj; [done|]. pose proof (Hj 0%nat ltac:(cbn; lia)) as [= ->]. cbn.
  apply IH. intros j Hl. apply (Hj (S j)). cbn. lia.
Qed.

Lemma join_insert {A} (l : list (list A)) i x xs :
  l !! i = Some (x :: xs) -> mjoin l ≡ₚ x :: mjoin (<[i := xs]> l).
Proof.
  revert i. induction l as [|y l IH]; intros [|i] E; try done; cbn in *; [by injection E as ->|].
  rewrite (IH i E). by rewrite Permutation_middle.
Qed.

Lemma next_bucket_entry_ok fuel it :
  rr_ok it -> (rr_measure it <= fuel)%nat ->
  exists r it', next_bucket_entry fuel it = Finished (r, it') /\ rr_ok it' /\
    length (rr_bucket_iters it') = length (rr_bucket_iters it) /\
    match r with
    | Some x => mjoin (rr_bucket_iters it) ≡ₚ x :: mjoin (rr_bucket_iters it')
    | None => mjoin (rr_bucket_iters it) = []
    end.
Proof.
  revert it. induction fuel as [|fuel IH]; intros it Hok Hf; [unfold rr_measure in Hf; lia|].
  destruct it as [iters cur y]. destruct Hok as [P E R]. unfold rr_measure in Hf. cbn -[Nat.ltb Nat.leb] in *.
  destruct (Nat.ltb_spec cur (length iters)) as [Hlt|Hge].
  2: { eexists _, _. split; [done|]. split; [by split|]. split; [done|]. apply concat_empty. cbn. intros j Hj. apply P; [by apply E|lia]. }
  destruct (lookup_lt_is_Some_2 iters cur Hlt) as [b Eb]. rewrite (nth_lookup_Some _ _ _ _ Eb).
  destruct b as [|x xs]; cbn [head tail].
  - rewrite (list_insert_id iters cur [] Eb).
    set (it1 := if (length iters <=? S cur)%nat && y then mkRoundRobin iters 0 false else mkRoundRobin iters (S cur) y).
    assert (rr_ok it1 /\ (rr_measure it1 <= fuel)%nat /\ rr_bucket_iters it1 = iters) as (Hok1 & Hm1 & Ei).
    { unfold it1, rr_measure. destruct (Nat.leb_spec (length iters) (S cur)), y; cbn; split_and!; try done; try lia; split; cbn; try done; try lia.
      all: intros _ j Hj; destruct (decide (j = cur)) as [->|]; [done|]; apply P; [done|lia]. }
    destruct (IH it1 Hok1 Hm1) as (r & it' & Er & Hok' & Hl & Hr). rewrite Ei in Hl, Hr. eexists _, _. by split_and!.
  - eexists _, _. split; [done|]. rewrite length_insert. destruct (Nat.leb_spec (length iters) (S cur)); cbn;
      (split; [|split; [by rewrite length_insert|by apply join_insert]]); split; cbn; rewrite ?length_insert; try done; lia.
Qed.

Lemma rr_measure_le it : rr_ok it -> (rr_measure it <= 2 * length (rr_bucket_iters it) + 1)%nat.
Proof. intros [_ _ R]. unfold rr_measure. destruct (rr_yielded it); lia. Qed.

Lemma round_robin_collect_ok fuel c it :
  rr_ok it -> (length (mjoin (rr_bucket_iters it)) < fuel)%nat ->
  (forall x, x ∈ mjoin (rr_bucket_iters it) -> is_Some (rc_by_root c !! be_root x)) ->
  exists l, round_robin_collect fuel c it = Finished l /\
    (fun x => rc_by_root c !! be_root x) <$> mjoin (rr_bucket_iters it) ≡ₚ Some <$> l.
Proof.
  revert it. induction fuel as [|fuel IH]; intros it Hok Hf Hin; [lia|]. cbn [round_robin_collect].
  unfold round_robin_next.
  destruct (next_bucket_entry_ok _ it Hok (rr_measure_le it Hok)) as (r & it' & -> & Hok' & Hl & Hr). cbn.
  destruct r as [x|]; cbn.
  - destruct (Hin x) as [en Een]; [rewrite Hr; by left|]. rewrite Een. cbn.
    destruct (IH it' Hok') as (l & El & Hp).
    + apply Permutation_length in Hr. cbn in Hr. lia.
    + intros y Hy. apply Hin. rewrite Hr. by right.
    + exists (en :: l). rewrite El. split; [done|]. rewrite Hr. cbn. by rewrite Een, Hp.
  - exists []. split; [done|]. by rewrite Hr.
Qed.

Lemma join_filter_nonempty {A} (l : list (list A)) (P : list A -> bool) :
  (forall b, P b = false -> b = []) -> mjoin (List.filter P l) = mjoin l.
Proof.
  intros HP. induction l as [|b l IH]; [done|]. cbn [List.filter]. change (mjoin (b :: l)) with (b ++ mjoin l).
  destruct (P b) eqn:E; [|by rewrite IH, (HP b E)]. change (mjoin (b :: List.filter P l)) with (b ++ mjoin (List.filter P l)).
  by rewrite IH.
Qed.

Lemma join_rev {A} (l : list (list A)) : mjoin (rev l) ≡ₚ mjoin l.
Proof. by rewrite <- Permutation_rev. Qed.

Lemma btree_NoDup b : btree bucket_entry_cmp b -> NoDup b.
Proof.
  induction 1 as [|x l Hs IH Hall]; constructor; [|done]. intros Hx. rewrite Forall_forall in Hall. specialize (Hall x Hx).
  cbn in Hall. by rewrite (proj2 (cmp_eq _ bucket_entry_cmp_laws x x) eq_refl) in Hall.
Qed.

Lemma join_NoDup (l : list (list BucketEntry)) :
  (forall i b, l !! i = Some b -> NoDup b) ->
  (forall i j b b' x, l !! i = Some b -> l !! j = Some b' -> x ∈ b -> x ∈ b' -> i = j) ->
  NoDup (mjoin l).
Proof.
  intros Hn Hd. induction l as [|b l IH]; [constructor|]. cbn. apply NoDup_app. split; [by apply (Hn 0%nat)|]. split.
  - intros x Hx (b' & Hx' & [j Ej]%list_elem_of_lookup)%list_elem_of_join. by pose proof (Hd 0%nat (S j) b b' x eq_refl Ej Hx Hx').
  - apply IH; [intros i; apply (Hn (S i))|]. intros i j b1 b2 x E1 E2 H1 H2. by injection (Hd (S i) (S j) b1 b2 x E1 E2 H1 H2).
Qed.

Lemma bucket_roots known m buckets :
  entries_ok known m -> buckets_ok m buckets -> be_root <$> mjoin buckets ≡ₚ (map_to_list m).*1.
Proof.
  intros He [Hl Hb].
  assert (forall i b x, buckets !! i = Some b -> x ∈ b ->
    exists en, m !! be_root x = Some en /\ en_priority en = be_priority x /\ entry_bucket en = Some i) as Hin
    by (intros i b x Ei Hx; by apply (Hb i b Ei)).
  apply NoDup_Permutation.
  - apply NoDup_fmap_2_strong.
    + intros x y (b & Hx & [i Ei]%list_elem_of_lookup)%list_elem_of_join (b' & Hy & [j Ej]%list_elem_of_lookup)%list_elem_of_join E.
      destruct (Hin _ _ _ Ei Hx) as (en & E1 & P1 & _), (Hin _ _ _ Ej Hy) as (en' & E2 & P2 & _).
      destruct x, y; cbn in *; congruence.
    + apply join_NoDup; [intros i b Ei; by apply btree_NoDup, (Hb i b Ei)|].
      intros i j b b' x Ei Ej Hx Hy. destruct (Hin _ _ _ Ei Hx) as (en & E1 & _ & B1), (Hin _ _ _ Ej Hy) as (en' & E2 & _ & B2). congruence.
  - apply NoDup_fst_map_to_list.
  - intros r. rewrite !list_elem_of_fmap. split.
    + intros (x & -> & (b & Hx & [i Ei]%list_elem_of_lookup)%list_elem_of_join). destruct (Hin _ _ _ Ei Hx) as (en & E & _).
      exists (be_root x, en). split; [done|]. by apply elem_of_map_to_list.
    + intros ([r' en] & -> & E%elem_of_map_to_list). destruct (He _ _ E) as [_ _ _ _ Hbal].
      destruct (bucket_index_ok (el_behavior (en_election en)) _ Hbal) as (i & Ei & Hi).
      destruct (lookup_lt_is_Some_2 buckets i) as [b Eb]; [by rewrite Hl|].
      exists (mkBucketEntry r' (en_priority en)). split; [done|]. apply list_elem_of_join. exists b.
      split; [|by eapply list_elem_of_lookup_2]. apply (proj2 (Hb i b Eb)). by exists en.
Qed.

Lemma omap_id_Some {A} (l : list A) : omap id (Some <$> l) = l.
Proof. induction l as [|x l IH]; [done|]. cbn. by rewrite IH. Qed.

Lemma lookup_keys {V} (m : gmap QualifiedRoot V) : (m !!.) <$> (map_to_list m).*1 = Some <$> (map_to_list m).*2.
Proof.
  rewrite <- !list_fmap_compose. apply list_fmap_ext. intros i [k v] E. cbn. apply elem_of_map_to_list.
  by eapply list_elem_of_lookup_2.
Qed.

Lemma round_robin_complete known c :
  entries_ok known (rc_by_root c) -> buckets_ok (rc_by_root c) (rc_buckets c) ->
  exists l, round_robin_collect (S (size (rc_by_root c))) c (round_robin_new c) = Finished l /\
    l ≡ₚ (map_to_list (rc_by_root c)).*2.
Proof.
  intros He Hb. pose proof (bucket_roots known _ _ He Hb) as Hr.
  assert (mjoin (rr_bucket_iters (round_robin_new c)) ≡ₚ mjoin (rc_buckets c)) as Hj.
  { cbn [round_robin_new rr_bucket_iters]. rewrite join_filter_nonempty; [apply join_rev|].
    intros b. by case_bool_decide. }
  destruct (round_robin_collect_ok (S (size (rc_by_root c))) c (round_robin_new c)) as (l & El & Hp).
  - split; cbn; [lia|done|lia].
  - rewrite Hj. rewrite <- (length_fmap be_root), Hr, length_fmap, length_map_to_list. lia.
  - intros x. rewrite Hj. intros Hx. assert (be_root x ∈ be_root <$> mjoin (rc_buckets c)) as Hin by (by apply list_elem_of_fmap_2).
    rewrite Hr in Hin. apply list_elem_of_fmap in Hin as ([k en] & -> & E). apply elem_of_map_to_list in E. by eexists.
  - exists l. split; [done|]. rewrite Hj in Hp.
    rewrite <- (omap_id_Some l), <- Hp. rewrite <- (omap_id_Some (map_to_list _).*2), <- lookup_keys.
    by rewrite <- Hr, <- list_fmap_compose.
Qed.
