(* ===== verification/AecTheorems.v ===== *)
(** * What the active elections container guarantees

    [aec_step] is any operation on the container, with blocks whose hashes do
    not collide. *)

From S2P Require Import Prelude Ordered Types Blocks Votes Election ElectionSafe ElectionTheorems.
From S2P Require Import ActiveElections AecSafe AecOps RoundRobin Sample.

Section steps.
Context `{HO : HashOrder} `{!HashOrderLaws HO} (known : Block -> Prop).

Inductive aec_step : ActiveElectionsContainer -> ActiveElectionsContainer -> Prop :=
  | aec_step_insert a rq now r a' : request_ok known rq -> aec_insert a rq now = Some (r, a') -> aec_step a a'
  | aec_step_fork a fork tally r a' :
      known_block known fork -> aec_try_add_fork a fork tally = Some (r, a') -> aec_step a a'
  | aec_step_vote args a r a' :
      weights_ok (av_rep_weights args) -> aec_apply_vote args a = Some (r, a') -> aec_step a a'
  | aec_step_time a now a' : aec_transition_time a now = Some a' -> aec_step a a'
  | aec_step_erase_ended a a' : erase_ended_elections a = Some a' -> aec_step a a'
  | aec_step_erase a root r a' : aec_erase a root = Some (r, a') -> aec_step a a'
  | aec_step_erase_lowest a i a' : (i < bucket_count)%nat -> erase_lowest_prio_election a i = Some a' -> aec_step a a'
  | aec_step_force a hash now a' : aec_force_confirm a hash now = Some a' -> aec_step a a'
  | aec_step_cemented a confirmed now : aec_step a (confirm_dependent_elections a confirmed now)
  | aec_step_voted a root t now : aec_step a (set_last_voted a root t now)
  | aec_step_active a hash : aec_step a (aec_transition_active a hash).2
  | aec_step_remove_votes a root voters : aec_step a (remove_votes a root voters)
  | aec_step_cancel a root : aec_step a (aec_cancel a root)
  | aec_step_cooldown a b reason : aec_step a (aec_set_cooldown a b reason)
  | aec_step_forget a hash : aec_step a (remove_recently_confirmed a hash)
  | aec_step_clear a : aec_step a (clear_recently_confirmed a)
  | aec_step_observer a : aec_step a (aec_set_observer (Some []) a)
  | aec_step_stop a : aec_step a (aec_stop a).

Hypothesis Hknown : no_collisions known.
#[local] Abbreviation ok := (aec_ok known).

Lemma aec_new_ok max_elections cache latency : ok (aec_new max_elections cache latency).
Proof.
  split; [by intros ? ? ?| |apply recently_confirmed_new_ok| |done].
  - change (rc_buckets _) with (replicate bucket_count (@nil BucketEntry)). split; [apply length_replicate|]. intros i b [-> _]%lookup_replicate. split; [constructor|].
    intros x. rewrite elem_of_nil. split; [done|]. by intros (en & E & _).
  - intros _. split; [|split; [done|intros []; by vm_compute]]. intros h root. cbn. rewrite !lookup_empty.
    split; [done|]. by intros (en & E & _).
Qed.

(** A change of the fields the invariant does not mention. *)
Lemma aec_recent_ok a c : ok a -> rcc_ok c -> ok (aec_set_recently_confirmed c a).
Proof. intros Hok Hc. apply (aec_same known [] a); try done. apply same_entries_refl. Qed.

Lemma aec_step_ok a a' : aec_step a a' -> ok a -> ok a'.
Proof using Hknown HashOrderLaws0.
  intros Hs Hok. destruct Hs.
  - destruct (aec_insert_ok known Hknown a rq now Hok) as (? & ? & ? & ?); [done|]. by simplify_eq.
  - destruct (aec_fork_ok known Hknown a fork tally Hok) as (? & ? & ? & ?); [done|]. by simplify_eq.
  - destruct (aec_apply_vote_ok known args H a Hok) as (? & ? & ? & ? & _). by simplify_eq.
  - destruct (transition_time_ok known a now Hok) as (? & ? & ?). by simplify_eq.
  - destruct (erase_ended_ok known a Hok) as (? & ? & ? & _). by simplify_eq.
  - destruct (aec_erase_ok known a root Hok) as (? & ? & ? & ? & _). by simplify_eq.
  - destruct (erase_lowest_ok known a i Hok) as (? & ? & ?); [done|]. by simplify_eq.
  - by eapply force_confirm_ok.
  - by apply confirm_dependents_ok.
  - apply aec_alter_ok; auto with aec.
  - unfold aec_transition_active. case_match; [|done]. destruct p. apply aec_alter_ok; auto with aec.
  - apply aec_alter_ok; auto with aec.
  - apply aec_alter_ok; auto with aec.
  - assert (ok (aec_set_cooldown_controller (cooldown_set (aec_cooldown a) b reason).2 a)) as Hc
      by (apply (aec_same known [] a); try done; [apply same_entries_refl|apply Hok]).
    unfold aec_set_cooldown. destruct (cooldown_set _ _ _). case_bool_decide; [by apply notify_ok|done].
  - apply aec_recent_ok; [done|]. apply rcc_erase_ok, Hok.
  - apply aec_recent_ok; [done|]. apply rcc_clear_ok.
  - apply (aec_same known [] a); try done; [apply same_entries_refl|apply Hok].
  - by apply aec_stop_ok.
Qed.

Definition reachable_aec (a : ActiveElectionsContainer) : Prop :=
  exists max_elections cache latency, rtc aec_step (aec_new max_elections cache latency) a.

Lemma reachable_aec_ok a : reachable_aec a -> ok a.
Proof using Hknown HashOrderLaws0.
  intros (me & ca & la & Hs). assert (ok (aec_new me ca la)) as H0 by apply aec_new_ok.
  induction Hs; [done|]. by apply IHHs, (aec_step_ok _ _ H).
Qed.
End steps.

Section claims.
Context `{HO : HashOrder} `{!HashOrderLaws HO} (known : Block -> Prop).
Hypothesis Hknown : no_collisions known.

(** C8. As long as the container has not been stopped, its tables describe the
    same elections: every election is stored under its root, with candidates of
    that root only; a hash is routed to an election exactly when it is one of its candidates; a
    bucket holds exactly the elections of its index, each once and by
    descending priority; the counter of a behavior is the number of its
    elections. The cache of recently confirmed elections is a bijection that
    respects its limit. (After [stop] the router and the counters still name
    the elections that are gone.) *)
Theorem aec_tables_agree a :
  reachable_aec known a ->
  aec_ok known a /\
  (aec_stopped a = false -> forall b,
     count_by_behavior a b = size (filter (fun p => el_behavior (en_election p.2) = b) (rc_by_root (aec_roots a)))) /\
  (aec_stopped a = false -> forall h root, rc_vote_router (aec_roots a) !! h = Some root <->
     exists en, rc_by_root (aec_roots a) !! root = Some en /\ contains_block (en_election en) h = true).
Proof.
  intros Hr. pose proof (reachable_aec_ok known Hknown a Hr) as Hok. split; [done|]. split; intros Hs.
  - intros b. destruct (ao_running _ _ _ Hok Hs) as [_ [_ HC]]. unfold count_by_behavior. rewrite HC. cbn. apply Nat.add_0_r.
  - intros h root. destruct (ao_running _ _ _ Hok Hs) as [HR _]. rewrite (HR h root). unfold contains_block.
    by setoid_rewrite bool_decide_eq_true.
Qed.

(** C22. The operations of the container that index, count down or unwrap do
    not panic: inserting an election for a block in range, adding a fork,
    applying a vote with weights in range, the clock tick, erasing the ended
    elections, one election, or the lowest one of an existing bucket: no bucket
    index is out of range, no counter underflows, no tally overflows its array.
    [force_confirm] panics exactly for a hash that is not routed to an
    election. *)
Theorem aec_never_panics a :
  reachable_aec known a ->
  (forall rq now, request_ok known rq -> is_Some (aec_insert a rq now)) /\
  (forall fork tally, known_block known fork -> is_Some (aec_try_add_fork a fork tally)) /\
  (forall args, weights_ok (av_rep_weights args) -> is_Some (aec_apply_vote args a)) /\
  (forall now, is_Some (aec_transition_time a now)) /\
  is_Some (erase_ended_elections a) /\ (forall root, is_Some (aec_erase a root)) /\
  (forall i, (i < bucket_count)%nat -> is_Some (erase_lowest_prio_election a i)) /\
  (forall hash now, is_Some (aec_force_confirm a hash now) <->
     exists root en, rc_vote_router (aec_roots a) !! hash = Some root /\ rc_by_root (aec_roots a) !! root = Some en).
Proof.
  intros Hok%(reachable_aec_ok known Hknown). split_and!.
  - intros rq now Hrq. destruct (aec_insert_ok known Hknown a rq now Hok Hrq) as (? & ? & -> & _). done.
  - intros fork tally Hf. destruct (aec_fork_ok known Hknown a fork tally Hok Hf) as (? & ? & -> & _). done.
  - intros args Hw. destruct (aec_apply_vote_ok known args Hw a Hok) as (? & ? & -> & _). done.
  - intros now. destruct (transition_time_ok known a now Hok) as (? & -> & _). done.
  - destruct (erase_ended_ok known a Hok) as (? & -> & _). done.
  - intros root. destruct (aec_erase_ok known a root Hok) as (? & ? & -> & _). done.
  - intros i Hi. destruct (erase_lowest_ok known a i Hok Hi) as (? & -> & _). done.
  - intros hash now. unfold aec_force_confirm, root_election_for_root.
    destruct (rc_vote_router (aec_roots a) !! hash) as [root|]; cbn [mbind option_bind]; [|by split; [intros []|intros (? & ? & ? & _)]].
    destruct (rc_by_root (aec_roots a) !! root) as [en|] eqn:E; cbn [fmap option_fmap option_map mbind option_bind].
    + destruct (force_confirm (en_election en)). split; [|done]. intros _. by exists root, en.
    + split; [intros []; done|]. intros (r & en & [= <-] & E'). congruence.
Qed.

(** C25. A vote is answered with one result per voted hash, changes no
    election but by adding votes, and never replaces a vote by an older one:
    in every election that goes on, the vote of each representative is at least
    as new as before, by timestamp and then by hash. *)
Theorem apply_vote_no_replay a args :
  reachable_aec known a -> weights_ok (av_rep_weights args) ->
  exists per_block a', aec_apply_vote args a = Some (per_block, a') /\
    dom per_block = list_to_set (filtered_blocks (av_vote args)) /\
    forall root en', rc_by_root (aec_roots a') !! root = Some en' ->
      exists en, rc_by_root (aec_roots a) !! root = Some en /\
        el_candidate_blocks (en_election en') = el_candidate_blocks (en_election en) /\
        forall voter v, el_votes (en_election en) !! voter = Some v ->
          exists v', el_votes (en_election en') !! voter = Some v' /\
            (vs_vote_created v < vs_vote_created v' \/
             (vs_vote_created v = vs_vote_created v' /\ vs_hash v <= vs_hash v')).
Proof.
  intros Hok%(reachable_aec_ok known Hknown) Hw.
  destruct (aec_apply_vote_ok known args Hw a Hok) as (r & a' & E & _ & Hev & Hd). exists r, a'. split; [done|].
  split; [done|]. intros root en' E'. destruct (Hev root en' E') as (en & E0 & Hs & Hv). exists en. split; [done|].
  split; [apply Hs|]. exact Hv.
Qed.

(** Elections do not run forever: after a clock tick exactly the elections
    that have not ended are left, and each of them has not outlived its time to
    live. *)
Theorem transition_time_expires a now :
  reachable_aec known a ->
  exists a', aec_transition_time a now = Some a' /\
    (forall root en', rc_by_root (aec_roots a') !! root = Some en' <->
       exists en, rc_by_root (aec_roots a) !! root = Some en /\ en' = transition_entry now en /\
         has_ended (el_state (en_election en')) = false) /\
    (forall root en', rc_by_root (aec_roots a') !! root = Some en' ->
       elapsed (el_start (en_election en')) now <= time_to_live (el_behavior (en_election en'))).
Proof.
  intros Hok%(reachable_aec_ok known Hknown). unfold aec_transition_time.
  destruct (erase_ended_ok known
    (aec_set_roots (rc_set_by_root (transition_entry now <$> rc_by_root (aec_roots a)) (aec_roots a)) a)) as (a' & E & _ & Hl).
  { apply (aec_same known [] a); try done; [|apply Hok]. apply same_entries_fmap. intros en. split_and!; try done.
    apply transition_time_shape. }
  assert (forall root en', rc_by_root (aec_roots a') !! root = Some en' <->
    exists en, rc_by_root (aec_roots a) !! root = Some en /\ en' = transition_entry now en /\
      has_ended (el_state (en_election en')) = false) as Hx.
  { intros root en'. rewrite Hl. cbn. rewrite lookup_fmap, fmap_Some. naive_solver. }
  exists a'. split; [done|]. split; [done|]. intros root en' (en & _ & -> & He)%Hx. cbn in *.
  revert He. unfold transition_time. destruct (el_state (en_election en)) eqn:Es;
    repeat (case_match; cbn); cbn in *; rewrite ?Es in *; cbn in *; try done; intros _; lia.
Qed.

(** Iterating over the elections bucket by bucket ends, and yields every
    active election exactly once. *)
Theorem iter_round_robin_complete a :
  reachable_aec known a ->
  exists l, round_robin_collect (S (size (rc_by_root (aec_roots a)))) (aec_roots a) (round_robin_new (aec_roots a)) = Finished l /\
    l ≡ₚ (map_to_list (rc_by_root (aec_roots a))).*2.
Proof.
  intros Hok%(reachable_aec_ok known Hknown). apply (round_robin_complete known); apply Hok.
Qed.
End claims.

Section buckets.
(** The bucket of a balance is the last one whose minimum is not above
    it, so every balance has a bucket, and a larger balance never has a lower
    one; the buckets of the other election types follow behind. *)
Theorem bucket_index_correct b1 b2 :
  0 <= b1 <= b2 ->
  exists i j m, prio_bucket_index b1 = Some i /\ prio_bucket_index b2 = Some j /\ (i <= j < prio_bucket_count)%nat /\
    minimums !! i = Some m /\ m <= b1 /\
    (forall k m', (i < k)%nat -> minimums !! k = Some m' -> b1 < m') /\
    forall behavior, exists n, bucket_index behavior b1 = Some n /\ (n < bucket_count)%nat /\
      (behavior <> Priority -> (prio_bucket_count <= n)%nat).
Proof.
  intros [H1 H2]. destruct (prio_bucket_index_ok b1 H1) as (i & m & Ei & Hi & Hm & Hlater).
  destruct (prio_bucket_index_ok b2 ltac:(lia)) as (j & m2 & Ej & Hj & Hm2 & Hlater2).
  exists i, j, m. split_and!; try done.
  - destruct (decide (i <= j)%nat); [done|]. pose proof (Hlater2 i m ltac:(lia) Hi). lia.
  - by apply lookup_lt_Some in Hj.
  - intros behavior. destruct (bucket_index_ok behavior b1 H1) as (n & En & Hn). exists n. split; [done|]. split; [done|].
    intros Hp. unfold bucket_index in En. rewrite minimums_length in En |- *.
    destruct behavior; [|done|..]; simplify_eq; lia.
Qed.

Lemma bucket_index_correct_witness :
  exists j, prio_bucket_index (10 ^ 30) = Some 14%nat /\ prio_bucket_index (10 ^ 33) = Some j /\ (14 <= j)%nat.
Proof.
  destruct (bucket_index_correct (10 ^ 30) (10 ^ 33) ltac:(by vm_compute)) as (i & j & m & E1 & E2 & Hij & _).
  assert (Some i = Some 14%nat) as [= ->] by (rewrite <- E1; by vm_compute).
  exists j. exact (conj E1 (conj E2 (proj1 Hij))).
Defined.
End buckets.

(** ** A concrete container *)

#[local] Existing Instance trie_order.
#[local] Existing Instance trie_order_laws.

Definition sample_known (b : Block) : Prop := b ∈ [sample_send; sample_fork; sample_open].

Lemma sample_known_ok : no_collisions sample_known.
Proof.
  assert (forall b1 b2, b1 ∈ [sample_send; sample_fork; sample_open] -> b2 ∈ [sample_send; sample_fork; sample_open] ->
    bool_decide (block_hash b1 = block_hash b2) = true -> bool_decide (qualified_root b1 = qualified_root b2) = true) as H.
  { intros b1 b2 H1 H2. apply (list_elem_of_In) in H1, H2. cbn [In] in H1, H2.
    destruct H1 as [<-|[<-|[<-|[]]]], H2 as [<-|[<-|[<-|[]]]]; vm_compute; congruence. }
  intros b1 b2 H1 H2 E. apply (bool_decide_eq_true_1 (qualified_root b1 = qualified_root b2)). apply H; [done|done|].
  by apply bool_decide_eq_true.
Qed.

Definition sample_request : AecInsertRequest :=
  mkAecInsertRequest (mkSavedBlock sample_send (sv_sideband sample_genesis_block)) Hinted (mkBlockPriority (10 ^ 30) 7).
Definition sample_aec0 : ActiveElectionsContainer := aec_set_observer (Some []) (aec_new 5000 16 (secs 1)).
Definition sample_aec1 : ActiveElectionsContainer :=
  Eval vm_compute in default sample_aec0 (snd <$> aec_insert sample_aec0 sample_request 0).
Definition sample_aec2 : ActiveElectionsContainer :=
  Eval vm_compute in default sample_aec1 (snd <$> aec_try_add_fork sample_aec1 sample_fork 3).

Lemma sample_request_ok : request_ok sample_known sample_request.
Proof.
  split; [|by vm_compute]. split; [|by vm_compute]. apply list_elem_of_In. left. reflexivity.
Qed.

Lemma sample_aec1_insert : aec_insert sample_aec0 sample_request 0 = Some (Ok tt, sample_aec1).
Proof. vm_compute. reflexivity. Qed.

Lemma sample_fork_known : known_block sample_known sample_fork.
Proof. split; [|by vm_compute]. apply list_elem_of_In. right. left. reflexivity. Qed.

Lemma sample_aec2_fork : aec_try_add_fork sample_aec1 sample_fork 3 = Some (true, sample_aec2).
Proof. vm_compute. reflexivity. Qed.

Lemma sample_aec2_reachable : reachable_aec sample_known sample_aec2.
Proof.
  exists 5000, 16%nat, (secs 1). eapply rtc_l; [exact (aec_step_observer sample_known _)|].
  eapply rtc_l; [exact (aec_step_insert sample_known _ _ _ _ _ sample_request_ok sample_aec1_insert)|].
  eapply rtc_l; [exact (aec_step_fork sample_known _ _ _ _ _ sample_fork_known sample_aec2_fork)|]. apply rtc_refl.
Qed.

Definition sample_args : ApplyVoteArgs :=
  mkApplyVoteArgs (mkFilteredVote (mkVote 4096 100 0 [block_hash sample_fork]) Live 0) sample_weights
    (mkQuorumSpecs 1000 670) 9.

Lemma aec_tables_agree_witness :
  reachable_aec sample_known sample_aec2 /\ count_by_behavior sample_aec2 Hinted = 1%nat /\
  exists root, rc_vote_router (aec_roots sample_aec2) !! block_hash sample_fork = Some root /\
    exists en, rc_by_root (aec_roots sample_aec2) !! root = Some en /\
      contains_block (en_election en) (block_hash sample_fork) = true.
Proof.
  destruct (aec_tables_agree sample_known sample_known_ok sample_aec2 sample_aec2_reachable) as (_ & _ & Hr).
  assert (rc_vote_router (aec_roots sample_aec2) !! block_hash sample_fork = Some (qualified_root sample_fork)) as E by (by vm_compute).
  pose proof (proj1 (Hr ltac:(by vm_compute) _ _) E) as He.
  assert (count_by_behavior sample_aec2 Hinted = 1%nat) as Hn by (by vm_compute).
  exact (conj sample_aec2_reachable (conj Hn (ex_intro _ (qualified_root sample_fork) (conj E He)))).
Defined.

Lemma aec_never_panics_witness :
  is_Some (aec_insert sample_aec2 sample_request 1) /\ is_Some (aec_apply_vote sample_args sample_aec2) /\
  is_Some (erase_lowest_prio_election sample_aec2 14).
Proof.
  destruct (aec_never_panics sample_known sample_known_ok sample_aec2 sample_aec2_reachable) as (Hi & _ & Hv & _ & _ & _ & Hl & _).
  exact (conj (Hi sample_request 1 sample_request_ok) (conj (Hv sample_args sample_weights_ok) (Hl 14%nat ltac:(by apply Nat.ltb_lt)))).
Defined.

Lemma apply_vote_no_replay_witness :
  exists per_block a', aec_apply_vote sample_args sample_aec2 = Some (per_block, a') /\
    dom per_block = list_to_set (filtered_blocks (av_vote sample_args)).
Proof.
  destruct (apply_vote_no_replay sample_known sample_known_ok sample_aec2 sample_args sample_aec2_reachable sample_weights_ok)
    as (r & a' & E & Hd & _). exact (ex_intro _ r (ex_intro _ a' (conj E Hd))).
Defined.

Lemma transition_time_expires_witness :
  exists a', aec_transition_time sample_aec2 (secs 31) = Some a' /\
    forall root en', rc_by_root (aec_roots a') !! root = Some en' ->
      elapsed (el_start (en_election en')) (secs 31) <= time_to_live (el_behavior (en_election en')).
Proof.
  destruct (transition_time_expires sample_known sample_known_ok sample_aec2 (secs 31) sample_aec2_reachable) as (a' & E & _ & Hl).
  exact (ex_intro _ a' (conj E Hl)).
Defined.

Lemma iter_round_robin_complete_witness :
  exists l, round_robin_collect 2 (aec_roots sample_aec2) (round_robin_new (aec_roots sample_aec2)) = Finished l /\
    l ≡ₚ (map_to_list (rc_by_root (aec_roots sample_aec2))).*2.
Proof.
  destruct (iter_round_robin_complete sample_known sample_known_ok sample_aec2 sample_aec2_reachable) as (l & E & Hp).
  exact (ex_intro _ l (conj E Hp)).
Defined.
