(* ===== verification/FairQueue.v ===== *)
(** * The fair queue (utils/src/fair_queue.rs)

    Items wait in one bounded queue per source; [next] serves a source up to
    its priority times and then goes on to the next source in key order. The
    [BTreeMap] of the queues is the list of its entries in key order; the two
    queries are the closures the queue is built with. The seeking loop has
    fuel; a panic is [Panicked]. *)

From S2P Require Import Prelude Ordered.

Record QueueEntry (T : Type) := mkQueueEntry {
  qe_requests : list T;
  qe_priority : nat;
  qe_max_size : nat;
}.
Arguments mkQueueEntry {T} _ _ _.
Arguments qe_requests {T} _.
Arguments qe_priority {T} _.
Arguments qe_max_size {T} _.

Section fair_queue.
Context {K T : Type} (cmp : K -> K -> comparison).
Context (max_size_query priority_query : K -> nat).

Record FairQueue := mkFairQueue {
  fq_queues : list (K * QueueEntry T);
  fq_current_queue_key : option K;
  fq_counter : nat;
  fq_total_len : nat;
}.

Definition fair_queue_new : FairQueue := mkFairQueue [] None 0 0.

(** *** BTreeMap *)

Fixpoint btree_get (k : K) (l : list (K * QueueEntry T)) : option (QueueEntry T) :=
  match l with
  | [] => None
  | (k', q) :: l => match cmp k k' with Eq => Some q | _ => btree_get k l end
  end.

Fixpoint btree_put (k : K) (q : QueueEntry T) (l : list (K * QueueEntry T)) : list (K * QueueEntry T) :=
  match l with
  | [] => [(k, q)]
  | (k', q') :: l' => match cmp k k' with
                      | Lt => (k, q) :: (k', q') :: l'
                      | Eq => (k', q) :: l'
                      | Gt => (k', q') :: btree_put k q l'
                      end
  end.

Fixpoint btree_delete (k : K) (l : list (K * QueueEntry T)) : list (K * QueueEntry T) :=
  match l with
  | [] => []
  | (k', q') :: l' => match cmp k k' with Eq => l' | _ => (k', q') :: btree_delete k l' end
  end.

(** [range(k..)] *)
Fixpoint btree_range_from (k : K) (l : list (K * QueueEntry T)) : list (K * QueueEntry T) :=
  match l with
  | [] => []
  | (k', q) :: l' => match cmp k' k with Lt => btree_range_from k l' | _ => (k', q) :: l' end
  end.

(** *** Entries *)

Definition entry_new (source : K) : QueueEntry T :=
  mkQueueEntry [] (priority_query source) (max_size_query source).

Definition entry_is_empty (q : QueueEntry T) : bool :=
  match qe_requests q with [] => true | _ => false end.

Definition entry_push (q : QueueEntry T) (request : T) : bool * QueueEntry T :=
  if (length (qe_requests q) <? qe_max_size q)%nat
  then (true, mkQueueEntry (qe_requests q ++ [request]) (qe_priority q) (qe_max_size q))
  else (false, q).

(** *** The queue *)

Definition fq_len (f : FairQueue) : nat := fq_total_len f.

Definition fq_queue_len (f : FairQueue) (source : K) : nat :=
  default 0%nat ((fun q => length (qe_requests q)) <$> btree_get source (fq_queues f)).

Definition fq_free_capacity (f : FairQueue) (source : K) : nat :=
  match btree_get source (fq_queues f) with
  | Some q => (qe_max_size q - length (qe_requests q))%nat
  | None => max_size_query source
  end.

Definition fq_clear (f : FairQueue) : FairQueue :=
  mkFairQueue [] (fq_current_queue_key f) (fq_counter f) 0.

Definition fq_push (f : FairQueue) (source : K) (item : T) : bool * FairQueue :=
  let entry := default (entry_new source) (btree_get source (fq_queues f)) in
  let '(added, entry) := entry_push entry item in
  (added, mkFairQueue (btree_put source entry (fq_queues f)) (fq_current_queue_key f) (fq_counter f)
            (if added then S (fq_total_len f) else fq_total_len f)).

Definition should_seek (f : FairQueue) : bool :=
  match fq_current_queue_key f with
  | Some key => match btree_get key (fq_queues f) with
                | Some q => if entry_is_empty q then true else (qe_priority q <=? fq_counter f)%nat
                | None => true
                end
  | None => true
  end.

(** The key after [current]: the first entry of the range is passed. *)
Definition key_after (current : K) (l : list (K * QueueEntry T)) : option K :=
  match btree_range_from current l with
  | _ :: (k, _) :: _ => Some k
  | _ => None
  end.

Fixpoint seek_loop (fuel : nat) (queues : list (K * QueueEntry T)) (current : option K) : run K :=
  match fuel with
  | O => Running
  | S fuel =>
      let next := c ← current; key_after c queues in
      key ← (match next with
             | Some k => mret k
             | None => unwrap (fst <$> head queues)
             end);
      q ← unwrap (btree_get key queues);
      if negb (entry_is_empty q) then mret key else seek_loop fuel queues (Some key)
  end.

Definition seek_next (fuel : nat) (f : FairQueue) : run FairQueue :=
  key ← seek_loop fuel (fq_queues f) (fq_current_queue_key f);
  mret (mkFairQueue (fq_queues f) (Some key) 0 (fq_total_len f)).

Definition fq_next (fuel : nat) (f : FairQueue) : run (option (K * T) * FairQueue) :=
  if (fq_total_len f =? 0)%nat then mret (None, f) else
  f1 ← (if should_seek f then seek_next fuel f else mret f);
  match fq_current_queue_key f1 with
  | None => mret (None, f1)
  | Some it =>
      q ← unwrap (btree_get it (fq_queues f1));
      match qe_requests q with
      | [] => Panicked
      | item :: requests =>
          mret (Some (it, item),
                mkFairQueue (btree_put it (mkQueueEntry requests (qe_priority q) (qe_max_size q)) (fq_queues f1))
                  (Some it) (S (fq_counter f1)) (fq_total_len f1 - 1))
      end
  end.

Fixpoint fq_take (fuel count : nat) (f : FairQueue) : run (list (K * T) * FairQueue) :=
  match count with
  | O => mret ([], f)
  | S count =>
      '(item, f1) ← fq_next fuel f;
      x ← unwrap item;
      '(rest, f2) ← fq_take fuel count f1;
      mret (x :: rest, f2)
  end.

Definition fq_next_batch (fuel : nat) (f : FairQueue) (max_count : nat) : run (list (K * T) * FairQueue) :=
  fq_take fuel (min (fq_len f) max_count) f.

(** [self.total_len -= removed.len()] *)
Definition fq_remove (f : FairQueue) (key : K) : FairQueue :=
  match btree_get key (fq_queues f) with
  | Some removed => mkFairQueue (btree_delete key (fq_queues f)) None (fq_counter f)
                      (fq_total_len f - length (qe_requests removed))
  | None => f
  end.
End fair_queue.

(** ** Laws *)

#[local] Arguments FairQueue : clear implicits.

Section fair_queue_laws.
Context {K T : Type} (cmp : K -> K -> comparison) (L : cmp_laws cmp).
#[local] Abbreviation map := (list (K * QueueEntry T)).

Definition keys_sorted (l : map) : Prop := btree cmp l.*1.

Definition queued (l : map) : nat := sum_list ((fun p => length (qe_requests p.2)) <$> l).

Record fq_ok (f : FairQueue K T) : Prop := {
  fo_sorted : keys_sorted (fq_queues f);
  fo_total : fq_total_len f = queued (fq_queues f);
  fo_bound : Forall (fun p => (length (qe_requests p.2) <= qe_max_size p.2)%nat) (fq_queues f);
}.

Lemma cmp_refl k : cmp k k = Eq.
Proof. by apply (cmp_eq _ L). Qed.

Lemma keys_sorted_cons k q (l : map) :
  keys_sorted ((k, q) :: l) <-> keys_sorted l /\ Forall (fun p => cmp k p.1 = Lt) l.
Proof.
  unfold keys_sorted, btree. cbn. split.
  - intros [? Hf]%StronglySorted_inv. split; [done|]. by rewrite Forall_fmap in Hf.
  - intros [Hs Hf]. constructor; [done|]. by rewrite Forall_fmap.
Qed.

Lemma sorted_lookup k q (l : map) i p :
  keys_sorted ((k, q) :: l) -> l !! i = Some p -> cmp k p.1 = Lt /\ cmp p.1 k = Gt.
Proof.
  intros [_ Hf]%keys_sorted_cons E. eapply Forall_lookup_1 in Hf; [|exact E]. split; [done|]. by rewrite (cmp_opp _ L), Hf.
Qed.

Lemma btree_get_lookup (l : map) i k q :
  keys_sorted l -> l !! i = Some (k, q) -> btree_get cmp k l = Some q.
Proof.
  revert i. induction l as [|[k' q'] l IH]; intros [|i] Hs E; try done; cbn in *.
  - injection E as -> ->. by rewrite cmp_refl.
  - destruct (sorted_lookup _ _ _ _ _ Hs E) as [_ Hc]. cbn in Hc. rewrite Hc. apply (IH i); [by apply keys_sorted_cons in Hs as []|done].
Qed.

Lemma btree_get_index (l : map) k q : btree_get cmp k l = Some q -> exists i, l !! i = Some (k, q).
Proof.
  induction l as [|[k' q'] l IH]; [done|]. cbn. destruct (cmp k k') eqn:E.
  - apply (cmp_eq _ L) in E as <-. intros [= ->]. by exists 0%nat.
  - intros [i Hi]%IH. by exists (S i).
  - intros [i Hi]%IH. by exists (S i).
Qed.

Lemma range_from_index (l : map) k : exists i, btree_range_from cmp k l = drop i l.
Proof.
  induction l as [|[k' q'] l [i IH]]; [by exists 0%nat|]. cbn. destruct (cmp k' k); [by exists 0%nat|by exists (S i)|by exists 0%nat].
Qed.

Lemma range_from_lookup (l : map) i k q :
  keys_sorted l -> l !! i = Some (k, q) -> btree_range_from cmp k l = drop i l.
Proof.
  revert i. induction l as [|[k' q'] l IH]; intros [|i] Hs E; try done; cbn in *.
  - injection E as -> ->. by rewrite cmp_refl.
  - destruct (sorted_lookup _ _ _ _ _ Hs E) as [Hc _]. cbn in Hc. rewrite Hc. apply IH; [by apply keys_sorted_cons in Hs as []|done].
Qed.

Lemma key_after_drop (l : map) i k :
  btree_range_from cmp k l = drop i l -> key_after cmp k l = fst <$> l !! S i.
Proof.
  intros E. unfold key_after. rewrite E. destruct (l !! S i) as [[k1 q1]|] eqn:E1.
  - destruct (lookup_lt_is_Some_2 l i) as [x Ex]; [apply lookup_lt_Some in E1; lia|].
    by rewrite (drop_S _ _ _ Ex), (drop_S _ _ _ E1).
  - destruct (drop i l) as [|x [|[k2 q2] l']] eqn:Ed; try done.
    assert (drop i l !! 1%nat = Some (k2, q2)) as Hd by (by rewrite Ed).
    rewrite lookup_drop, Nat.add_1_r in Hd. congruence.
Qed.

(** One turn of the seeking loop moves to the next index, in a cycle. *)
Definition key_at (l : map) (i : nat) (k : K) : Prop := exists q, l !! i = Some (k, q).

Lemma seek_turn (l : map) i k fuel :
  keys_sorted l -> key_at l i k ->
  exists k' q', l !! (S i mod length l)%nat = Some (k', q') /\
    seek_loop cmp (S fuel) l (Some k) = if negb (entry_is_empty q') then Finished k' else seek_loop cmp fuel l (Some k').
Proof.
  intros Hs [q E]. pose proof (lookup_lt_Some _ _ _ E) as Hi. cbn [seek_loop mbind option_bind].
  rewrite (key_after_drop l i k (range_from_lookup l i k q Hs E)).
  destruct (decide (S i < length l)%nat) as [Hlt|Hge].
  - rewrite Nat.mod_small by done. destruct (lookup_lt_is_Some_2 l (S i) Hlt) as [[k' q'] E']. rewrite E'. exists k', q'.
    split; [done|]. cbn. by rewrite (btree_get_lookup l _ _ _ Hs E').
  - assert (S i = length l) as -> by lia. rewrite Nat.Div0.mod_same, (lookup_ge_None_2 l (length l)) by done. cbn.
    destruct l as [|[k' q'] l]; [cbn in Hi; lia|]. exists k', q'. split; [done|]. cbn. by rewrite cmp_refl.
Qed.

Lemma least_witness (P : nat -> bool) m :
  (exists d, (1 <= d <= m)%nat /\ P d = true) ->
  exists d, (1 <= d <= m)%nat /\ P d = true /\ forall d', (1 <= d' < d)%nat -> P d' = false.
Proof.
  induction m as [|m IH]; intros (d & Hd & HP); [lia|].
  destruct (decide (Exists (fun d => P d = true) (seq 1 m))) as [Hx|Hx].
  - apply Exists_exists in Hx as (x & Hx%elem_of_seq & Hp). destruct IH as (d0 & H0 & HP0 & Hl); [exists x; split; [lia|done]|].
    exists d0. split; [lia|done].
  - assert (forall x, (1 <= x <= m)%nat -> P x = false) as Hno.
    { intros x Hm. apply not_true_is_false. intros Hp. apply Hx, Exists_exists. exists x. split; [apply elem_of_seq; lia|done]. }
    assert (d = S m) as -> by (destruct (decide (d = S m)); [done|]; rewrite Hno in HP; [done|lia]).
    exists (S m). split; [lia|]. split; [done|]. intros d' Hd'. apply Hno. lia.
Qed.

Definition nonempty_at (l : map) (i : nat) : bool :=
  match l !! i with Some (_, q) => negb (entry_is_empty q) | None => false end.

Lemma seek_loop_from (l : map) d i k k' q' fuel :
  keys_sorted l -> key_at l i k -> (d <= fuel)%nat -> (1 <= d)%nat ->
  l !! ((i + d) mod length l)%nat = Some (k', q') -> entry_is_empty q' = false ->
  (forall d', (1 <= d' < d)%nat -> nonempty_at l ((i + d') mod length l) = false) ->
  seek_loop cmp fuel l (Some k) = Finished k'.
Proof using L.
  revert i k fuel. induction d as [|d IH]; intros i k fuel Hs Hk Hf Hd E Hne Hbetween; [lia|].
  destruct fuel as [|fuel]; [lia|]. destruct (seek_turn l i k fuel Hs Hk) as (k1 & q1 & E1 & ->).
  destruct (decide (d = 0%nat)) as [->|Hd0].
  - rewrite Nat.add_1_r in E. rewrite E1 in E. injection E as -> ->. by rewrite Hne.
  - pose proof (Hbetween 1%nat ltac:(lia)) as H1. rewrite Nat.add_1_r in H1. unfold nonempty_at in H1. rewrite E1 in H1. rewrite H1.
    assert (forall x, (S i mod length l + x) mod length l = (i + S x) mod length l)%nat as Hshift.
    { intros x. rewrite Nat.Div0.add_mod_idemp_l. f_equal. lia. }
    apply (IH (S i mod length l)%nat); try done; [by exists q1|lia|lia|by rewrite Hshift|].
    intros d' Hd'. rewrite Hshift. apply Hbetween. lia.
Qed.

(** Seeking from a queue finds the next one, in the cyclic order of the keys,
    that is not empty. *)
Definition next_in_cycle (l : map) (i : nat) (k : K) : Prop :=
  exists d, (1 <= d <= length l)%nat /\ key_at l ((i + d) mod length l) k /\
    nonempty_at l ((i + d) mod length l) = true /\
    forall d', (1 <= d' < d)%nat -> nonempty_at l ((i + d') mod length l) = false.

Lemma seek_loop_cycle (l : map) i k j fuel :
  keys_sorted l -> key_at l i k -> nonempty_at l j = true -> (length l <= fuel)%nat ->
  exists k', seek_loop cmp fuel l (Some k) = Finished k' /\ next_in_cycle l i k'.
Proof using L.
  intros Hs Hk Hj Hf. assert (i < length l)%nat as Hi by (destruct Hk as [q E]; by apply lookup_lt_Some in E).
  assert (j < length l)%nat as Hjl.
  { unfold nonempty_at in Hj. destruct (l !! j) eqn:E; [by apply lookup_lt_Some in E|done]. }
  destruct (least_witness (fun d => nonempty_at l ((i + d) mod length l)) (length l)) as (d & Hd & HP & Hl).
  { exists (if decide (i < j)%nat then j - i else j + length l - i)%nat. case_decide as Hij; (split; [lia|]).
    - replace (i + (j - i))%nat with j by lia. by rewrite Nat.mod_small.
    - replace (i + (j + length l - i))%nat with (j + 1 * length l)%nat by lia. by rewrite Nat.Div0.mod_add, Nat.mod_small. }
  pose proof HP as HP'. unfold nonempty_at in HP'.
  destruct (l !! ((i + d) mod length l)%nat) as [[k' q']|] eqn:E; [|done]. apply negb_true_iff in HP'.
  exists k'. split; [apply (seek_loop_from l d i k k' q'); try done; lia|].
  exists d. split; [done|]. split; [by exists q'|]. split; [done|]. apply Hl.
Qed.

Lemma seek_loop_any (l : map) current j fuel :
  keys_sorted l -> nonempty_at l j = true -> (length l < fuel)%nat ->
  exists k' i, seek_loop cmp fuel l current = Finished k' /\ key_at l i k' /\ nonempty_at l i = true.
Proof using L.
  intros Hs Hj Hf. destruct fuel as [|fuel]; [lia|]. cbn [seek_loop].
  assert (exists i k q, (match (c ← current; key_after cmp c l) with Some k => mret k | None => unwrap (fst <$> head l) end) = Finished k
    /\ l !! i = Some (k, q)) as (i & k & q & Ek & E).
  { assert (exists k q, head l = Some (k, q)) as (k0 & q0 & Eh).
    { destruct l as [|[k0 q0] l']; [done|]. by exists k0, q0. }
    destruct (c ← current; key_after cmp c l) as [k|] eqn:Ec.
    - destruct current as [c|]; [|done]. cbn in Ec. destruct (range_from_index l c) as [i Ei].
      rewrite (key_after_drop l i c Ei) in Ec. destruct (l !! S i) as [[k1 q1]|] eqn:E1; [|done]. injection Ec as ->.
      by exists (S i), k, q1.
    - exists 0%nat, k0, q0. rewrite Eh. split; [done|]. by rewrite <- head_lookup. }
  rewrite Ek. cbn [mbind run_bind]. rewrite (btree_get_lookup l i k q Hs E). cbn [unwrap mbind run_bind].
  destruct (negb (entry_is_empty q)) eqn:Eq.
  - exists k, i. split; [done|]. split; [by exists q|]. unfold nonempty_at. by rewrite E.
  - destruct (seek_loop_cycle l i k j fuel Hs ltac:(by exists q) Hj ltac:(lia)) as (k' & -> & d & _ & Hk & Hn & _). eauto.
Qed.

(** ** Updating a queue *)

Lemma btree_get_put (l : map) k q k' :
  btree_get cmp k' (btree_put cmp k q l) = match cmp k' k with Eq => Some q | _ => btree_get cmp k' l end.
Proof using L.
  assert (forall x y, cmp x y = Eq -> x = y) as Heq by (intros x y; apply (cmp_eq _ L)).
  induction l as [|[k1 q1] l IH]; cbn; [by destruct (cmp k' k)|].
  destruct (cmp k k1) eqn:E1; cbn.
  - apply Heq in E1 as ->. by destruct (cmp k' k1).
  - by destruct (cmp k' k).
  - rewrite IH. destruct (cmp k' k1) eqn:E2; try done. apply Heq in E2 as ->.
    rewrite (cmp_opp _ L), E1. done.
Qed.

Lemma btree_put_keys (l : map) k q x : x ∈ (btree_put cmp k q l).*1 <-> x = k \/ x ∈ l.*1.
Proof using L.
  induction l as [|[k1 q1] l IH]; cbn; [rewrite list_elem_of_singleton, elem_of_nil; tauto|].
  destruct (cmp k k1) eqn:E; cbn; rewrite ?elem_of_cons, ?IH; try tauto. apply (cmp_eq _ L) in E as ->. tauto.
Qed.

Lemma btree_put_sorted (l : map) k q : keys_sorted l -> keys_sorted (btree_put cmp k q l).
Proof using L.
  induction l as [|[k1 q1] l IH]; [by repeat constructor|]. intros Hs. pose proof Hs as [Hl Hf]%keys_sorted_cons. cbn.
  destruct (cmp k k1) eqn:E.
  - by apply keys_sorted_cons.
  - apply keys_sorted_cons. split; [done|]. constructor; [done|]. eapply Forall_impl; [exact Hf|]. intros p Hp. by eapply (cmp_trans _ L).
  - apply keys_sorted_cons. split; [by apply IH|]. apply Forall_forall. intros p Hp.
    apply (list_elem_of_fmap_2 fst), btree_put_keys in Hp as [->|Hp]; [by apply cmp_gt|].
    apply list_elem_of_fmap in Hp as (p' & -> & Hp'). rewrite Forall_forall in Hf. by apply Hf.
Qed.


Definition queued_of (l : map) (k : K) : nat := default 0%nat ((fun q => length (qe_requests q)) <$> btree_get cmp k l).

Lemma btree_get_below (l : map) k : Forall (fun p => cmp k p.1 = Lt) l -> btree_get cmp k l = None.
Proof. induction 1 as [|[k1 q1] l Hk Hf IH]; [done|]. cbn in *. by rewrite Hk. Qed.

Lemma btree_put_queued (l : map) k q :
  keys_sorted l -> (queued (btree_put cmp k q l) + queued_of l k = queued l + length (qe_requests q))%nat.
Proof using L.
  unfold queued, queued_of. induction l as [|[k1 q1] l IH]; [cbn; lia|].
  intros [Hl Hf]%keys_sorted_cons. cbn. destruct (cmp k k1) eqn:E; cbn; [lia| |specialize (IH Hl); lia].
  rewrite btree_get_below; [cbn; lia|]. eapply Forall_impl; [exact Hf|]. intros p Hp. by eapply (cmp_trans _ L).
Qed.

Lemma btree_put_Forall (P : K * QueueEntry T -> Prop) (l : map) k q :
  (forall k', P (k', q)) -> Forall P l -> Forall P (btree_put cmp k q l).
Proof.
  intros Hq. induction 1 as [|[k1 q1] l Hp Hf IH]; cbn; [by repeat constructor|].
  destruct (cmp k k1); by repeat constructor.
Qed.

Lemma btree_delete_ok (l : map) k :
  keys_sorted l -> (queued (btree_delete cmp k l) + queued_of l k = queued l)%nat /\ keys_sorted (btree_delete cmp k l) /\
    btree_delete cmp k l `sublist_of` l.
Proof.
  unfold queued, queued_of. induction l as [|[k1 q1] l IH]; [done|]. intros Hs. pose proof Hs as [Hl Hf]%keys_sorted_cons.
  destruct (IH Hl) as (Hq & Hd & Hsub). cbn. destruct (cmp k k1); cbn.
  - split; [lia|]. split; [done|by apply sublist_cons].
  - split; [lia|]. split; [|by apply sublist_skip]. apply keys_sorted_cons. split; [done|].
    apply Forall_forall. intros p Hp. rewrite Forall_forall in Hf. apply Hf. eapply elem_of_submseteq; [done|by apply sublist_submseteq].
  - split; [lia|]. split; [|by apply sublist_skip]. apply keys_sorted_cons. split; [done|].
    apply Forall_forall. intros p Hp. rewrite Forall_forall in Hf. apply Hf. eapply elem_of_submseteq; [done|by apply sublist_submseteq].
Qed.

Lemma queued_nonempty (l : map) : (0 < queued l)%nat -> exists j, nonempty_at l j = true.
Proof.
  unfold queued. induction l as [|[k q] l IH]; cbn; [lia|]. intros Hp. destruct (qe_requests q) as [|x xs] eqn:E.
  - destruct IH as [j Hj]; [cbn in Hp; lia|]. by exists (S j).
  - exists 0%nat. unfold nonempty_at, entry_is_empty. cbn. by rewrite E.
Qed.

(** ** The operations *)

Context (max_size_query priority_query : K -> nat).

Lemma fair_queue_new_ok : fq_ok fair_queue_new.
Proof. split; [constructor|done|constructor]. Qed.

Lemma fq_clear_ok f : fq_ok (fq_clear f).
Proof. split; [constructor|done|constructor]. Qed.

Lemma fq_remove_ok f k : fq_ok f -> fq_ok (fq_remove cmp f k).
Proof.
  intros [Hs Ht Hb]. unfold fq_remove. destruct (btree_get cmp k (fq_queues f)) as [q|] eqn:E; [|by split].
  destruct (btree_delete_ok _ k Hs) as (Hq & Hd & Hsub). unfold queued_of in Hq. rewrite E in Hq. cbn [fmap option_fmap option_map default from_option id] in Hq. split; cbn [fq_queues fq_total_len].
  - done.
  - rewrite Ht. lia.
  - apply Forall_forall. intros p Hp. rewrite Forall_forall in Hb. apply Hb. eapply elem_of_submseteq; [done|by apply sublist_submseteq].
Qed.

Lemma fq_push_ok f k x : fq_ok f -> fq_ok (fq_push cmp max_size_query priority_query f k x).2.
Proof using L.
  intros [Hs Ht Hb]. unfold fq_push, entry_push. pose proof (btree_put_queued (fq_queues f) k) as Hq. unfold queued_of in Hq.
  set (e := default (entry_new max_size_query priority_query k) (btree_get cmp k (fq_queues f))).
  assert (default 0%nat ((fun q => length (qe_requests q)) <$> btree_get cmp k (fq_queues f)) = length (qe_requests e)) as El
    by (unfold e; by destruct (btree_get cmp k (fq_queues f))).
  assert (length (qe_requests e) <= qe_max_size e)%nat as He.
  { unfold e. destruct (btree_get cmp k (fq_queues f)) as [q|] eqn:E; cbn; [|lia].
    destruct (btree_get_index _ _ _ E) as [i Hi]. by eapply Forall_lookup_1 in Hb; [|exact Hi]. }
  destruct (Nat.ltb_spec (length (qe_requests e)) (qe_max_size e)); split; cbn [fq_queues fq_total_len snd].
  1, 4: by apply btree_put_sorted.
  - specialize (Hq (mkQueueEntry (qe_requests e ++ [x]) (qe_priority e) (qe_max_size e)) Hs).
    cbn [qe_requests] in Hq. rewrite El, length_app in Hq. cbn [length] in Hq. lia.
  - apply btree_put_Forall; [|done]. intros k'. cbn. rewrite length_app. cbn. lia.
  - specialize (Hq e Hs). rewrite El in Hq. lia.
  - by apply btree_put_Forall.
Qed.

(** Serving the head of queue [k]: the first item of [k] leaves, nothing else
    changes. *)
Record served (f f' : FairQueue K T) (k : K) (x : T) : Prop := {
  sv_ok : fq_ok f';
  sv_total : fq_total_len f = S (fq_total_len f');
  sv_head : exists q rest, btree_get cmp k (fq_queues f) = Some q /\ qe_requests q = x :: rest /\
    btree_get cmp k (fq_queues f') = Some (mkQueueEntry rest (qe_priority q) (qe_max_size q));
  sv_other : forall k', k' <> k -> btree_get cmp k' (fq_queues f') = btree_get cmp k' (fq_queues f);
  sv_current : fq_current_queue_key f' = Some k;
  sv_keys : (fq_queues f').*1 = (fq_queues f).*1;
}.

Lemma btree_put_same_keys (l : map) i k q q' :
  keys_sorted l -> l !! i = Some (k, q) -> (btree_put cmp k q' l).*1 = l.*1.
Proof using L.
  revert i. induction l as [|[k1 q1] l IH]; intros [|i] Hs E; try done; cbn in *.
  - injection E as -> ->. by rewrite cmp_refl.
  - destruct (sorted_lookup _ _ _ _ _ Hs E) as [_ Hc]. cbn in Hc. rewrite Hc. cbn. f_equal.
    apply (IH i); [by apply keys_sorted_cons in Hs as []|done].
Qed.

Lemma serve_ok f k q x rest counter :
  fq_ok f -> btree_get cmp k (fq_queues f) = Some q -> qe_requests q = x :: rest ->
  served f (mkFairQueue (btree_put cmp k (mkQueueEntry rest (qe_priority q) (qe_max_size q)) (fq_queues f))
              (Some k) counter (fq_total_len f - 1)) k x.
Proof using L.
  intros [Hs Ht Hb] E Er. set (q' := mkQueueEntry rest (qe_priority q) (qe_max_size q)).
  pose proof (btree_put_queued (fq_queues f) k q' Hs) as Hq. unfold queued_of in Hq. rewrite E in Hq.
  cbn [fmap option_fmap option_map default from_option id] in Hq. rewrite Er in Hq. cbn [length qe_requests q'] in Hq.
  destruct (btree_get_index _ _ _ E) as [i Hi]. assert (length (qe_requests q) <= qe_max_size q)%nat as Hm
    by (by eapply Forall_lookup_1 in Hb; [|exact Hi]). rewrite Er in Hm. cbn in Hm.
  split; cbn [fq_queues fq_total_len fq_current_queue_key]; try done; try lia.
  - split; cbn [fq_queues fq_total_len]; [by apply btree_put_sorted|lia|]. apply btree_put_Forall; [|done]. intros k'. cbn. lia.
  - exists q, rest. rewrite btree_get_put, cmp_refl. done.
  - intros k' Hne. rewrite btree_get_put. destruct (cmp k' k) eqn:Ec; [by apply (cmp_eq _ L) in Ec|done|done].
  - by eapply btree_put_same_keys.
Qed.

Lemma nonempty_requests (l : map) i k :
  keys_sorted l -> key_at l i k -> nonempty_at l i = true ->
  exists q x rest, btree_get cmp k l = Some q /\ qe_requests q = x :: rest.
Proof using L.
  intros Hs [q E] Hn. unfold nonempty_at, entry_is_empty in Hn. rewrite E in Hn.
  destruct (qe_requests q) as [|x rest] eqn:Er; [done|]. exists q, x, rest. split; [by eapply btree_get_lookup|done].
Qed.

(** Which queue is served, from a state whose current queue has index [i]. *)
Definition rotation (f f' : FairQueue K T) (k : K) : Prop :=
  forall i c q, fq_current_queue_key f = Some c -> fq_queues f !! i = Some (c, q) ->
    (k = c /\ (fq_counter f < qe_priority q)%nat /\ fq_counter f' = S (fq_counter f)) \/
    ((qe_requests q = [] \/ qe_priority q <= fq_counter f)%nat /\ fq_counter f' = 1%nat /\
     next_in_cycle (fq_queues f) i k).

Lemma fq_next_ok f fuel :
  fq_ok f -> (length (fq_queues f) < fuel)%nat -> (0 < fq_total_len f)%nat ->
  exists k x f', fq_next cmp fuel f = Finished (Some (k, x), f') /\ served f f' k x /\ rotation f f' k.
Proof using L.
  intros Hok Hf Hpos. pose proof Hok as [Hs Ht Hb]. unfold fq_next.
  destruct (Nat.eqb_spec (fq_total_len f) 0); [lia|]. rewrite Ht in Hpos. destruct (queued_nonempty _ Hpos) as [j Hj].
  destruct (should_seek cmp f) eqn:Es.
  - destruct (seek_loop_any _ (fq_current_queue_key f) j fuel Hs Hj Hf) as (k & i & Ek & Hk & Hn).
    destruct (nonempty_requests _ _ _ Hs Hk Hn) as (q & x & rest & Eq & Er).
    unfold seek_next. rewrite Ek. cbn [mbind run_bind mret run_ret fq_current_queue_key fq_queues fq_total_len fq_counter].
    rewrite Eq. cbn [unwrap mbind run_bind]. rewrite Er. eexists k, x, _. split; [done|]. split; [by apply serve_ok|].
    intros ci c cq Ec Ei. right. split; [|split; [done|]].
    + unfold should_seek in Es. rewrite Ec, (btree_get_lookup _ _ _ _ Hs Ei) in Es. unfold entry_is_empty in Es.
      destruct (qe_requests cq); [by left|right]. by apply Nat.leb_le in Es.
    + destruct (seek_loop_cycle _ ci c j fuel Hs ltac:(by exists cq) Hj ltac:(lia)) as (k' & Ek' & Hc).
      rewrite Ec in Ek. assert (k' = k) as -> by congruence. done.
  - unfold should_seek in Es. cbn [mbind run_bind mret run_ret]. destruct (fq_current_queue_key f) as [c|] eqn:Ec; [|done].
    destruct (btree_get cmp c (fq_queues f)) as [q|] eqn:Eq; [|done]. unfold entry_is_empty in Es.
    destruct (qe_requests q) as [|x rest] eqn:Er; [done|]. cbn [unwrap mbind run_bind]. rewrite Er. eexists c, x, _. split; [done|].
    split; [by apply serve_ok|]. intros i c' q' Ec' Ei. rewrite Ec in Ec'. injection Ec' as <-. left.
    rewrite (btree_get_lookup _ _ _ _ Hs Ei) in Eq. injection Eq as ->. split; [done|]. split; [by apply Nat.leb_gt in Es|done].
Qed.

Lemma served_length f f' k x : served f f' k x -> length (fq_queues f') = length (fq_queues f).
Proof. intros Hs. by rewrite <- (length_fmap fst), (sv_keys _ _ _ _ Hs), length_fmap. Qed.

Lemma fq_take_ok count f fuel :
  fq_ok f -> (length (fq_queues f) < fuel)%nat -> (count <= fq_total_len f)%nat ->
  exists items f', fq_take cmp fuel count f = Finished (items, f') /\ length items = count /\ fq_ok f' /\
    fq_total_len f = (count + fq_total_len f')%nat.
Proof using L.
  revert f. induction count as [|count IH]; intros f Hok Hf Hc; cbn [fq_take]; [by exists [], f|].
  destruct (fq_next_ok f fuel Hok Hf ltac:(lia)) as (k & x & f1 & E1 & Hs & _). rewrite E1. cbn [mbind run_bind unwrap].
  destruct (IH f1 (sv_ok _ _ _ _ Hs)) as (items & f2 & E2 & Hl & Hok2 & Ht2);
    [by rewrite (served_length _ _ _ _ Hs)|pose proof (sv_total _ _ _ _ Hs); lia|].
  rewrite E2. cbn [mbind run_bind]. eexists _, _. split; [done|]. cbn. split; [by rewrite Hl|]. split; [done|].
  rewrite (sv_total _ _ _ _ Hs), Ht2. lia.
Qed.

(** ** First in, first out *)

(** The items of a source that wait. *)
Definition requests_of (f : FairQueue K T) (k : K) : list T :=
  default [] (qe_requests <$> btree_get cmp k (fq_queues f)).

(** Whether an item of source [k] is one of [k']. *)
Definition for_source {A} (k' k : K) (l : list A) : list A := match cmp k' k with Eq => l | _ => [] end.

Lemma fq_push_requests f k x added f' k' :
  fq_push cmp max_size_query priority_query f k x = (added, f') ->
  requests_of f' k' = requests_of f k' ++ (if added : bool then for_source k' k [x] else []).
Proof using L.
  unfold fq_push, requests_of, for_source. set (e := default _ (btree_get cmp k (fq_queues f))).
  assert (default [] (qe_requests <$> btree_get cmp k (fq_queues f)) = qe_requests e) as He
    by (unfold e; by destruct (btree_get cmp k (fq_queues f))).
  clearbody e. unfold entry_push.
  destruct (length (qe_requests e) <? qe_max_size e)%nat; intros [= <- <-]; cbn [fq_queues];
    rewrite btree_get_put; destruct (cmp k' k) eqn:Ec; rewrite ?app_nil_r; try done;
    apply (cmp_eq _ L) in Ec as ->; by rewrite He.
Qed.

Lemma served_requests f f' k x k' : served f f' k x -> requests_of f k' = for_source k' k [x] ++ requests_of f' k'.
Proof using L.
  intros Hs. unfold requests_of, for_source. destruct (sv_head _ _ _ _ Hs) as (q & rest & E1 & E2 & E3).
  destruct (cmp k' k) eqn:Ec.
  - apply (cmp_eq _ L) in Ec as ->. rewrite E1, E3. cbn. by rewrite E2.
  - rewrite (sv_other _ _ _ _ Hs); [done|]. intros ->. by rewrite cmp_refl in Ec.
  - rewrite (sv_other _ _ _ _ Hs); [done|]. intros ->. by rewrite cmp_refl in Ec.
Qed.

Lemma no_requests f k : fq_ok f -> fq_total_len f = 0%nat -> requests_of f k = [].
Proof using L.
  intros Hf E. unfold requests_of. destruct (btree_get cmp k (fq_queues f)) as [q|] eqn:Eq; [|done].
  apply btree_get_index in Eq as [i Hi]. cbn. destruct (qe_requests q) as [|x l] eqn:Er; [done|].
  rewrite (fo_total _ Hf) in E. unfold queued in E.
  assert (length (qe_requests q) ∈ (fun p : K * QueueEntry T => length (qe_requests p.2)) <$> fq_queues f) as Hl
    by (apply list_elem_of_fmap; exists (k, q); split; [done|by eapply list_elem_of_lookup_2]).
  apply (sum_list_with_in _ id) in Hl. rewrite Er in Hl. cbn in Hl. unfold queued in E. lia.
Qed.

(** The items of a batch that come from a source. *)
Definition from_source (k' : K) (items : list (K * T)) : list T := concat ((fun p => for_source k' p.1 [p.2]) <$> items).

Lemma fq_take_requests fuel count f items f' k' :
  fq_ok f -> (length (fq_queues f) < fuel)%nat -> (count <= fq_total_len f)%nat ->
  fq_take cmp fuel count f = Finished (items, f') -> fq_ok f' /\ requests_of f k' = from_source k' items ++ requests_of f' k'.
Proof using L.
  revert f items. induction count as [|count IH]; intros f items Hok Hf Hc; cbn [fq_take]; [by intros [= <- <-]|].
  destruct (fq_next_ok f fuel Hok Hf ltac:(lia)) as (k & x & f1 & E1 & Hs & _). rewrite E1. cbn [mbind run_bind unwrap].
  destruct (fq_take cmp fuel count f1) as [[rest f2]| |] eqn:E2; [|done|done]. intros [= <- <-].
  destruct (IH f1 rest (sv_ok _ _ _ _ Hs)) as [Hok2 Hr];
    [by rewrite (served_length _ _ _ _ Hs)|pose proof (sv_total _ _ _ _ Hs); lia|done|].
  split; [done|]. rewrite (served_requests _ _ _ _ k' Hs), Hr. unfold from_source. cbn. by rewrite (assoc_L (++)).
Qed.

(** ** Reachable queues *)

Inductive fq_step : FairQueue K T -> FairQueue K T -> Prop :=
  | fq_step_push f k x : fq_step f (fq_push cmp max_size_query priority_query f k x).2
  | fq_step_next f fuel r f' : fq_next cmp fuel f = Finished (r, f') -> (length (fq_queues f) < fuel)%nat -> fq_step f f'
  | fq_step_remove f k : fq_step f (fq_remove cmp f k)
  | fq_step_clear f : fq_step f (fq_clear f).

Definition reachable_queue (f : FairQueue K T) : Prop := rtc fq_step fair_queue_new f.

Lemma fq_step_ok f f' : fq_step f f' -> fq_ok f -> fq_ok f'.
Proof using L.
  intros Hs Hok. destruct Hs as [f k x|f fuel r f' E Hf|f k|f].
  - by apply fq_push_ok.
  - destruct (decide (fq_total_len f = 0%nat)) as [E0|E0].
    + unfold fq_next in E. rewrite E0 in E. by injection E as <- <-.
    + destruct (fq_next_ok f fuel Hok Hf ltac:(lia)) as (k & x & f1 & E1 & Hsv & _). rewrite E1 in E. injection E as _ <-. apply Hsv.
  - by apply fq_remove_ok.
  - apply fq_clear_ok.
Qed.

Lemma reachable_queue_ok f : reachable_queue f -> fq_ok f.
Proof using L.
  intros Hr. assert (fq_ok (fair_queue_new : FairQueue K T)) as H0 by apply fair_queue_new_ok.
  induction Hr as [|x y z Hs _ IH]; [done|]. by apply IH, (fq_step_ok _ _ Hs).
Qed.

(** The fair queue is fair and live: the length is the number of items
    waiting; an empty queue yields nothing; otherwise [next] ends after at most
    one turn more than there are sources, without a panic, and yields the
    oldest item of a source, leaving the other sources alone. It stays with the
    current source while that has items and has been served less often than its
    priority, and else goes on to the next source with items in the cyclic
    order of the keys. A batch has as many items as asked for, or all of
    them. *)
Theorem fair_queue_correct f :
  reachable_queue f ->
  fq_len f = queued (fq_queues f) /\
  (fq_len f = 0%nat -> forall fuel, fq_next cmp fuel f = Finished (None, f)) /\
  ((0 < fq_len f)%nat -> exists k x f', fq_next cmp (S (length (fq_queues f))) f = Finished (Some (k, x), f') /\
     served f f' k x /\ rotation f f' k) /\
  (forall max_count, exists items f',
     fq_next_batch cmp (S (length (fq_queues f))) f max_count = Finished (items, f') /\
     length items = min (fq_len f) max_count).
Proof using L.
  intros Hok%reachable_queue_ok. split; [apply Hok|]. split; [|split].
  - intros E fuel. unfold fq_next. unfold fq_len in E. by rewrite E.
  - intros Hp. apply fq_next_ok; [done|lia|done].
  - intros max_count. destruct (fq_take_ok (min (fq_len f) max_count) f (S (length (fq_queues f))) Hok) as (items & f' & E & Hl & _);
      [lia|unfold fq_len; lia|]. by exists items, f'.
Qed.
End fair_queue_laws.

Lemma Z_cmp_laws : cmp_laws Z.compare.
Proof.
  split.
  - intros x y. apply Z.compare_eq_iff.
  - intros x y. apply Z.compare_antisym.
  - intros x y z. apply Z.lt_trans.
Qed.

(** Two sources, each served once at a time. *)
Definition sample_push (f : FairQueue Z Z) (k x : Z) : FairQueue Z Z :=
  (fq_push Z.compare (fun _ => 3%nat) (fun _ => 1%nat) f k x).2.
Definition sample_queue : FairQueue Z Z :=
  sample_push (sample_push (sample_push fair_queue_new 7 70) 7 71) 5 50.

Lemma sample_queue_reachable : reachable_queue Z.compare (fun _ => 3%nat) (fun _ => 1%nat) sample_queue.
Proof.
  unfold reachable_queue, sample_queue, sample_push.
  do 3 (eapply rtc_r; [|apply (fq_step_push Z.compare (fun _ => 3%nat) (fun _ => 1%nat))]). apply rtc_refl.
Qed.

Lemma fair_queue_correct_witness :
  fq_len sample_queue = 3%nat /\
  (exists k x f', fq_next Z.compare 3 sample_queue = Finished (Some (k, x), f') /\
     served Z.compare sample_queue f' k x /\ rotation sample_queue f' k) /\
  fq_next_batch Z.compare 3 sample_queue 3
    = Finished ([(5, 50); (7, 70); (7, 71)], mkFairQueue [(5, mkQueueEntry [] 1 3); (7, mkQueueEntry [] 1 3)] (Some 7) 1 0).
Proof.
  destruct (fair_queue_correct Z.compare Z_cmp_laws (fun _ => 3%nat) (fun _ => 1%nat) sample_queue sample_queue_reachable)
    as (_ & _ & Hn & _).
  split; [reflexivity|]. split; [|vm_compute; reflexivity]. apply Hn. vm_compute. lia.
Defined.
