(* ===== verification/Messages.v ===== *)
(** * Network messages (messages/src)

    The message header, the payload formats of the message types and the
    serializer that puts the two together. The build without the feature
    [ledger_snapshots] is modelled, which is the default. The header's
    extension word is a [BitArray<u16>] of the crate bitvec; what the code
    uses of that crate is the class [BitVec]. A reader that may panic in a
    constructor returns an [option], [None] being the panic. *)

From S2P Require Import Prelude Types Blocks Codec Votes.

(** ** Extension bits: the crate bitvec *)

Class BitVec := {
  (** [bits[i]] *)
  bit_get : Z -> Z -> bool;
  (** [bits.set(i, value)] *)
  bit_set : Z -> Z -> bool -> Z;
  (** [bits.shift_left(n)] *)
  bit_shift_left : Z -> Z -> Z;
  (** [a & b] and [a | b] *)
  bit_and : Z -> Z -> Z;
  bit_or : Z -> Z -> Z;
}.

(** The documented behaviour for [BitArray<u16>]: index 0 is the least
    significant bit, and a left shift moves bits towards index 0. *)
Class BitVecLaws (B : BitVec) := {
  bit_get_spec : forall a i, in_u 16 a -> 0 <= i < 16 -> bit_get a i = Z.testbit a i;
  bit_set_spec : forall a i b, in_u 16 a -> 0 <= i < 16 ->
    bit_set a i b = if b then Z.setbit a i else Z.clearbit a i;
  bit_shift_left_spec : forall a n, in_u 16 a -> 0 <= n < 16 -> bit_shift_left a n = Z.shiftr a n;
  bit_and_spec : forall a b, in_u 16 a -> in_u 16 b -> bit_and a b = Z.land a b;
  bit_or_spec : forall a b, in_u 16 a -> in_u 16 b -> bit_or a b = Z.lor a b;
}.

Definition model_bitvec : BitVec := {|
  bit_get := Z.testbit;
  bit_set a i b := if b : bool then Z.setbit a i else Z.clearbit a i;
  bit_shift_left := Z.shiftr;
  bit_and := Z.land;
  bit_or := Z.lor;
|}.

Lemma model_bitvec_laws : BitVecLaws model_bitvec.
Proof. by split. Qed.

(** ** Networks and protocol versions (types/src/lib.rs) *)

Inductive Networks :=
  | NetworkInvalid | NanoDevNetwork | NanoBetaNetwork | NanoLiveNetwork | NanoTestNetwork.

#[global] Instance Networks_eq_dec : EqDecision Networks.
Proof. solve_decision. Defined.

Definition network_u16 (n : Networks) : Z :=
  match n with
  | NetworkInvalid => 0x0
  | NanoDevNetwork => 0x5241
  | NanoBetaNetwork => 0x5242
  | NanoLiveNetwork => 0x5243
  | NanoTestNetwork => 0x5258
  end.

Definition network_from_u16 (z : Z) : option Networks :=
  if z =? 0x0 then Some NetworkInvalid
  else if z =? 0x5241 then Some NanoDevNetwork
  else if z =? 0x5242 then Some NanoBetaNetwork
  else if z =? 0x5243 then Some NanoLiveNetwork
  else if z =? 0x5258 then Some NanoTestNetwork
  else None.

Record ProtocolInfo := mkProtocolInfo {
  version_using : Z;
  version_max : Z;
  version_min : Z;
  network : Networks;
}.

#[global] Instance ProtocolInfo_eq_dec : EqDecision ProtocolInfo.
Proof. solve_decision. Defined.

Definition protocol_info_default : ProtocolInfo := mkProtocolInfo 0x15 0x15 0x14 NanoLiveNetwork.
Definition protocol_info_default_for (n : Networks) : ProtocolInfo := mkProtocolInfo 0x15 0x15 0x14 n.

(** ** Message types (message_header.rs) *)

Inductive MessageType :=
  | TyInvalid | TyNotAType | TyKeepalive | TyPublish | TyConfirmReq | TyConfirmAck | TyBulkPull
  | TyBulkPush | TyFrontierReq | TyNodeIdHandshake | TyBulkPullAccount | TyTelemetryReq
  | TyTelemetryAck | TyAscPullReq | TyAscPullAck.

#[global] Instance MessageType_eq_dec : EqDecision MessageType.
Proof. solve_decision. Defined.

Definition message_type_u8 (t : MessageType) : Z :=
  match t with
  | TyInvalid => 0x0 | TyNotAType => 0x1 | TyKeepalive => 0x2 | TyPublish => 0x3
  | TyConfirmReq => 0x4 | TyConfirmAck => 0x5 | TyBulkPull => 0x6 | TyBulkPush => 0x7
  | TyFrontierReq => 0x8 | TyNodeIdHandshake => 0x0a | TyBulkPullAccount => 0x0b
  | TyTelemetryReq => 0x0c | TyTelemetryAck => 0x0d | TyAscPullReq => 0x0e | TyAscPullAck => 0x0f
  end.

Definition message_type_from_u8 (z : Z) : option MessageType :=
  if z =? 0x0 then Some TyInvalid
  else if z =? 0x1 then Some TyNotAType
  else if z =? 0x2 then Some TyKeepalive
  else if z =? 0x3 then Some TyPublish
  else if z =? 0x4 then Some TyConfirmReq
  else if z =? 0x5 then Some TyConfirmAck
  else if z =? 0x6 then Some TyBulkPull
  else if z =? 0x7 then Some TyBulkPush
  else if z =? 0x8 then Some TyFrontierReq
  else if z =? 0x0a then Some TyNodeIdHandshake
  else if z =? 0x0b then Some TyBulkPullAccount
  else if z =? 0x0c then Some TyTelemetryReq
  else if z =? 0x0d then Some TyTelemetryAck
  else if z =? 0x0e then Some TyAscPullReq
  else if z =? 0x0f then Some TyAscPullAck
  else None.

(** ** Readers shared by the payloads *)

Definition read_u16_be : decoder Z := b ← read_exact 2; mret (from_be_bytes b).
Definition read_u16_le : decoder Z := b ← read_exact 2; mret (from_le_bytes b).
Definition read_u32_le : decoder Z := b ← read_exact 4; mret (from_le_bytes b).

(** [for _ in 0..n { read }] *)
Fixpoint read_times {A} (n : nat) (d : decoder A) : decoder (list A) :=
  match n with
  | O => mret []
  | S n => x ← d; l ← read_times n d; mret (x :: l)
  end.

(** A reader that is given the whole slice; what it leaves is ignored. *)
Definition from_slice {A} (d : decoder A) (bytes : list byte) : result DeserializationError A :=
  match d bytes with Ok (a, _) => Ok a | Err e => Err e end.

(** ** Keepalive (keepalive.rs) *)

Record SocketAddrV6 := mkSocketAddrV6 {
  sa_ip : Z;
  sa_port : Z;
  sa_flowinfo : Z;
  sa_scope_id : Z;
}.

#[global] Instance SocketAddrV6_eq_dec : EqDecision SocketAddrV6.
Proof. solve_decision. Defined.
#[global] Program Instance SocketAddrV6_countable : Countable SocketAddrV6 :=
  inj_countable' (fun s => (sa_ip s, sa_port s, sa_flowinfo s, sa_scope_id s))
                 (fun p => mkSocketAddrV6 p.1.1.1 p.1.1.2 p.1.2 p.2) _.
Next Obligation. by intros []. Qed.

(** An array of eight addresses. *)
Record Keepalive := mkKeepalive { ka_peers : list SocketAddrV6 }.

Definition keepalive_serialized_size : nat := 8 * (16 + 2).

Definition peer_serialize (peer : SocketAddrV6) : list byte :=
  to_be_bytes 16 (sa_ip peer) ++ to_le_bytes 2 (sa_port peer).

Definition keepalive_serialize (k : Keepalive) : list byte := concat (peer_serialize <$> ka_peers k).

Definition peer_deserialize : decoder SocketAddrV6 :=
  addr_buffer ← read_exact 16;
  port ← read_u16_le;
  mret (mkSocketAddrV6 (from_be_bytes addr_buffer) port 0 0).

Definition keepalive_deserialize : decoder Keepalive :=
  peers ← read_times 8 peer_deserialize; mret (mkKeepalive peers).

(** ** Publish (publish.rs) *)

Record Publish := mkPublish {
  pub_block : Block;
  pub_digest : Z;
  pub_is_originator : bool;
}.

Definition PUBLISH_BLOCK_TYPE_MASK : Z := 0x0f00.
Definition ORIGINATOR_FLAG : Z := Z.shiftl 1 2.

(** [serialized_block_size] of blocks/mod.rs with the constants of the five formats. *)
Definition serialized_block_size (t : BlockType) : nat :=
  match t with
  | BtLegacySend => 32 + 32 + 16 + 64 + 8
  | BtLegacyReceive => 32 + 32 + 64 + 8
  | BtLegacyOpen => 32 + 32 + 32 + 64 + 8
  | BtLegacyChange => 32 + 32 + 64 + 8
  | BtState => 32 + 32 + 32 + 16 + 32 + 64 + 8
  end.

(** [FromPrimitive::from_u16] on [BlockTypeId] has the same table as [from_u8]. *)
Definition publish_block_type_id `{BitVec} (extensions : Z) : BlockTypeId :=
  default IdInvalid
    (block_type_id_from_u8 (bit_shift_left (bit_and extensions PUBLISH_BLOCK_TYPE_MASK) 8)).

Definition publish_serialized_size `{BitVec} (extensions : Z) : nat :=
  match block_type_try_from (publish_block_type_id extensions) with
  | Some t => serialized_block_size t
  | None => 0
  end.

Definition publish_serialize (p : Publish) : list byte := serialize_without_block_type (pub_block p).

Definition publish_deserialize `{Crypto, BitVec} (extensions digest : Z) : decoder Publish :=
  block_type ← dec_opt (block_type_try_from (publish_block_type_id extensions)) InvalidData;
  block ← deserialize_block_type block_type;
  mret (mkPublish block digest (0 <? Z.land extensions ORIGINATOR_FLAG)).

Definition publish_header_extensions (p : Publish) : Z :=
  let flags := wrap 16 (Z.shiftl (block_type_id_u8 (block_type_to_id (block_type (pub_block p)))) 8) in
  if pub_is_originator p then Z.lor flags ORIGINATOR_FLAG else flags.

(** ** ConfirmReq (confirm_req.rs) *)

Record ConfirmReq := mkConfirmReq { roots_hashes : list (BlockHash * Root) }.

Definition COUNT_HIGH_MASK : Z := 0xf000.
Definition COUNT_HIGH_SHIFT : Z := 12.
Definition BLOCK_TYPE_MASK : Z := 0x0f00.
Definition BLOCK_TYPE_SHIFT : Z := 8.
Definition COUNT_LOW_MASK : Z := 0x00f0.
Definition COUNT_LOW_SHIFT : Z := 4.
Definition V2_FLAG : Z := 1.

Definition confirm_req_new (roots : list (BlockHash * Root)) : option ConfirmReq :=
  if (255 <? length roots)%nat then None else Some (mkConfirmReq roots).

Definition confirm_block_type (extensions : Z) : BlockTypeId :=
  default IdInvalid
    (block_type_id_from_u8 (Z.shiftr (Z.land extensions BLOCK_TYPE_MASK) BLOCK_TYPE_SHIFT)).

Definition split_count (count : Z) : Z * Z :=
  (Z.land (Z.shiftr count 4) 0xf, Z.land count 0xf).

Definition count_bits (count : Z) : Z :=
  if count <? 16 then wrap 16 (Z.shiftl count COUNT_HIGH_SHIFT)
  else
    let '(high, low) := split_count count in
    Z.lor (Z.lor (Z.lor 0 V2_FLAG) (wrap 16 (Z.shiftl high COUNT_HIGH_SHIFT)))
      (wrap 16 (Z.shiftl low COUNT_LOW_SHIFT)).

Definition has_v2_flag (bits : Z) : bool := Z.land bits V2_FLAG =? V2_FLAG.

Definition v1_count (bits : Z) : Z := wrap 8 (Z.shiftr (Z.land bits COUNT_HIGH_MASK) COUNT_HIGH_SHIFT).

Definition v2_count (bits : Z) : Z :=
  let high := Z.shiftr (Z.land bits COUNT_HIGH_MASK) COUNT_HIGH_SHIFT in
  let low := Z.shiftr (Z.land bits COUNT_LOW_MASK) COUNT_LOW_SHIFT in
  wrap 8 (Z.lor (wrap 16 (Z.shiftl high 4)) low).

Definition confirm_count (extensions : Z) : Z :=
  if has_v2_flag extensions then v2_count extensions else v1_count extensions.

Definition confirm_req_serialized_size (extensions : Z) : nat :=
  let block_type_id := confirm_block_type extensions in
  match block_type_try_from block_type_id with
  | Some t => serialized_block_size t
  | None =>
      match block_type_id with
      | IdNotABlock => Z.to_nat (confirm_count extensions) * (32 + 32)
      | _ => 0
      end
  end.

Definition root_hash_serialize (p : BlockHash * Root) : list byte :=
  u256_serialize p.1 ++ u256_serialize p.2.

Definition confirm_req_serialize (r : ConfirmReq) : list byte :=
  concat (root_hash_serialize <$> roots_hashes r).

Definition root_hash_deserialize : decoder (BlockHash * Root) :=
  block_hash ← u256_deserialize; root ← u256_deserialize; mret (block_hash, root).

Definition deserialize_roots (extensions : Z) : decoder (list (BlockHash * Root)) :=
  let count := Z.to_nat (confirm_count extensions) in
  pairs ← read_times count root_hash_deserialize;
  let roots :=
    filter (fun p => negb (u256_is_zero p.1) || negb (u256_is_zero p.2)) pairs in
  if (length roots =? 0)%nat || negb (length roots =? count)%nat then dec_fail InvalidData
  else mret roots.

Definition confirm_req_deserialize (bytes : list byte) (extensions : Z)
    : option (result DeserializationError ConfirmReq) :=
  match from_slice (deserialize_roots extensions) bytes with
  | Err e => Some (Err e)
  | Ok roots => Ok <$> confirm_req_new roots
  end.

Definition confirm_req_header_extensions `{BitVec} (r : ConfirmReq) : Z :=
  bit_or (bit_or 0 (count_bits (wrap 8 (Z.of_nat (length (roots_hashes r))))))
    (wrap 16 (Z.shiftl (block_type_id_u8 IdNotABlock) BLOCK_TYPE_SHIFT)).

(** ** ConfirmAck (confirm_ack.rs) *)

Record ConfirmAck := mkConfirmAck {
  ack_vote : Vote;
  ack_is_rebroadcasted : bool;
  ack_digest : Z;
}.

Definition HASHES_MAX : nat := 255.
Definition REBROADCASTED_FLAG : Z := 2.

Definition new_with_own_vote (v : Vote) : option ConfirmAck :=
  if (length (vote_hashes v) <=? HASHES_MAX)%nat then Some (mkConfirmAck v false 0) else None.

Definition new_with_rebroadcasted_vote (v : Vote) : option ConfirmAck :=
  if (length (vote_hashes v) <=? HASHES_MAX)%nat then Some (mkConfirmAck v true 0) else None.

Definition confirm_ack_serialized_size (extensions : Z) : nat :=
  vote_serialized_size (Z.to_nat (confirm_count extensions)).

Definition confirm_ack_serialize (a : ConfirmAck) : list byte := vote_serialize (ack_vote a).

Definition confirm_ack_deserialize `{BitVec} (bytes : list byte) (extensions digest : Z)
    : option (result DeserializationError ConfirmAck) :=
  match vote_deserialize bytes with
  | Err e => Some (Err e)
  | Ok vote =>
      ack ← (if bit_get extensions REBROADCASTED_FLAG then new_with_rebroadcasted_vote vote
             else new_with_own_vote vote);
      Some (Ok (mkConfirmAck (ack_vote ack) (ack_is_rebroadcasted ack) digest))
  end.

Definition confirm_ack_header_extensions `{BitVec} (a : ConfirmAck) : Z :=
  bit_set (bit_or 0 (count_bits (wrap 8 (Z.of_nat (length (vote_hashes (ack_vote a)))))))
    REBROADCASTED_FLAG (ack_is_rebroadcasted a).

(** ** BulkPull (bulk_pull.rs) *)

Record BulkPull := mkBulkPull {
  bp_start : u256;
  bp_end : BlockHash;
  bp_count : Z;
  bp_ascending : bool;
}.

Definition COUNT_PRESENT_FLAG : Z := 0.
Definition ASCENDING_FLAG : Z := 1.
Definition EXTENDED_PARAMETERS_SIZE : nat := 8.

Definition bulk_pull_serialized_size `{BitVec} (extensions : Z) : nat :=
  32 + 32 + (if bit_get extensions COUNT_PRESENT_FLAG then EXTENDED_PARAMETERS_SIZE else 0).

(** The count sits at bytes 1 to 4 of the zeroed extended parameters. *)
Definition bulk_pull_serialize (b : BulkPull) : list byte :=
  u256_serialize (bp_start b) ++ u256_serialize (bp_end b) ++
  (if 0 <? bp_count b then [byte_of 0] ++ to_le_bytes 4 (bp_count b) ++ replicate 3 (byte_of 0) else []).

Definition extended_count_deserialize : decoder Z :=
  extended_parameters ← read_exact EXTENDED_PARAMETERS_SIZE;
  match extended_parameters with
  | b :: rest => if u8_of b =? 0 then mret (from_le_bytes (take 4 rest)) else dec_fail InvalidData
  | [] => dec_fail InvalidData
  end.

Definition bulk_pull_deserialize `{BitVec} (extensions : Z) : decoder BulkPull :=
  start ← u256_deserialize;
  end_ ← u256_deserialize;
  count ← (if bit_get extensions COUNT_PRESENT_FLAG then extended_count_deserialize else mret 0);
  mret (mkBulkPull start end_ count (bit_get extensions ASCENDING_FLAG)).

Definition bulk_pull_header_extensions `{BitVec} (b : BulkPull) : Z :=
  bit_set (bit_set 0 COUNT_PRESENT_FLAG (0 <? bp_count b)) ASCENDING_FLAG (bp_ascending b).

(** ** BulkPullAccount (bulk_pull_account.rs) *)

Inductive BulkPullAccountFlags :=
  PendingHashAndAmount | PendingAddressOnly | PendingHashAmountAndAddress.

Definition account_flags_u8 (f : BulkPullAccountFlags) : Z :=
  match f with
  | PendingHashAndAmount => 0x0 | PendingAddressOnly => 0x1 | PendingHashAmountAndAddress => 0x2
  end.

Definition account_flags_from_u8 (z : Z) : option BulkPullAccountFlags :=
  if z =? 0x0 then Some PendingHashAndAmount
  else if z =? 0x1 then Some PendingAddressOnly
  else if z =? 0x2 then Some PendingHashAmountAndAddress
  else None.

Record BulkPullAccount := mkBulkPullAccount {
  bpa_account : Account;
  bpa_minimum_amount : Amount;
  bpa_flags : BulkPullAccountFlags;
}.

Definition bulk_pull_account_serialized_size : nat := 32 + 16 + 1.

Definition bulk_pull_account_serialize (b : BulkPullAccount) : list byte :=
  u256_serialize (bpa_account b) ++ amount_serialize (bpa_minimum_amount b) ++
  [byte_of (account_flags_u8 (bpa_flags b))].

Definition bulk_pull_account_deserialize : decoder BulkPullAccount :=
  account ← u256_deserialize;
  minimum_amount ← amount_deserialize;
  b ← read_u8;
  flags ← dec_opt (account_flags_from_u8 b) InvalidData;
  mret (mkBulkPullAccount account minimum_amount flags).

(** ** FrontierReq (frontier_req.rs) *)

Record FrontierReq := mkFrontierReq {
  fr_start : Account;
  fr_age : Z;
  fr_count : Z;
  fr_only_confirmed : bool;
}.

Definition ONLY_CONFIRMED : Z := 1.
Definition frontier_req_serialized_size : nat := 32 + 4 + 4.

Definition frontier_req_serialize (f : FrontierReq) : list byte :=
  u256_serialize (fr_start f) ++ to_le_bytes 4 (fr_age f) ++ to_le_bytes 4 (fr_count f).

Definition frontier_req_deserialize `{BitVec} (extensions : Z) : decoder FrontierReq :=
  start ← u256_deserialize;
  age ← read_u32_le;
  count ← read_u32_le;
  mret (mkFrontierReq start age count (bit_get extensions ONLY_CONFIRMED)).

Definition frontier_req_header_extensions `{BitVec} (f : FrontierReq) : Z :=
  bit_set 0 ONLY_CONFIRMED (fr_only_confirmed f).

(** ** NodeIdHandshake (node_id_handshake.rs) *)

Abbreviation NodeId := Z (only parsing).

(** [[u8; 32]] *)
Abbreviation Cookie := (list byte) (only parsing).

Record V2Payload := mkV2Payload {
  v2_salt : list byte;
  v2_genesis : BlockHash;
}.

Record NodeIdHandshakeQuery := mkNodeIdHandshakeQuery { query_cookie : Cookie }.

Record NodeIdHandshakeResponse := mkNodeIdHandshakeResponse {
  resp_node_id : NodeId;
  resp_signature : Signature;
  resp_v2 : option V2Payload;
}.

Record NodeIdHandshake := mkNodeIdHandshake {
  nh_query : option NodeIdHandshakeQuery;
  nh_response : option NodeIdHandshakeResponse;
  nh_is_v2 : bool;
}.

Definition QUERY_FLAG : Z := 0.
Definition RESPONSE_FLAG : Z := 1.
Definition HANDSHAKE_V2_FLAG : Z := 2.

Definition handshake_is_query `{BitVec} (extensions : Z) : bool := bit_get extensions QUERY_FLAG.
Definition handshake_is_response `{BitVec} (extensions : Z) : bool := bit_get extensions RESPONSE_FLAG.
Definition handshake_has_v2_flag `{BitVec} (extensions : Z) : bool := bit_get extensions HANDSHAKE_V2_FLAG.

Definition data_to_sign (v2 : option V2Payload) (cookie : Cookie) : list byte :=
  match v2 with
  | Some v2 => cookie ++ v2_salt v2 ++ u256_serialize (v2_genesis v2)
  | None => cookie
  end.

(** [sign]; the two [debug_assert]s hold by construction. *)
Definition response_sign `{Crypto} (cookie : Cookie) (key : Z) (r : NodeIdHandshakeResponse)
    : NodeIdHandshakeResponse :=
  mkNodeIdHandshakeResponse (resp_node_id r) (sign key (data_to_sign (resp_v2 r) cookie)) (resp_v2 r).

Definition response_new_v1 `{Crypto} (cookie : Cookie) (node_id : Z) : NodeIdHandshakeResponse :=
  response_sign cookie node_id (mkNodeIdHandshakeResponse (public_key node_id) 0 None).

(** [salt] is what the random number generator gives. *)
Definition response_new_v2 `{Crypto} (salt : list byte) (cookie : Cookie) (node_id : Z)
    (genesis : BlockHash) : NodeIdHandshakeResponse :=
  response_sign cookie node_id
    (mkNodeIdHandshakeResponse (public_key node_id) 0 (Some (mkV2Payload salt genesis))).

Definition response_validate `{Crypto} (r : NodeIdHandshakeResponse) (cookie : Cookie) : bool :=
  verify (resp_node_id r) (data_to_sign (resp_v2 r) cookie) (resp_signature r).

Definition response_serialized_size `{BitVec} (extensions : Z) : nat :=
  if handshake_has_v2_flag extensions then 32 + 32 + 32 + 64 else 32 + 64.

Definition response_serialize (r : NodeIdHandshakeResponse) : list byte :=
  match resp_v2 r with
  | Some v2 => u256_serialize (resp_node_id r) ++ v2_salt v2 ++ u256_serialize (v2_genesis v2) ++
      signature_serialize (resp_signature r)
  | None => u256_serialize (resp_node_id r) ++ signature_serialize (resp_signature r)
  end.

Definition response_deserialize `{BitVec} (extensions : Z) : decoder NodeIdHandshakeResponse :=
  if handshake_has_v2_flag extensions then
    node_id ← u256_deserialize;
    salt ← read_exact 32;
    genesis ← u256_deserialize;
    signature ← signature_deserialize;
    mret (mkNodeIdHandshakeResponse node_id signature (Some (mkV2Payload salt genesis)))
  else
    node_id ← u256_deserialize;
    signature ← signature_deserialize;
    mret (mkNodeIdHandshakeResponse node_id signature None).

Definition handshake_serialized_size `{BitVec} (extensions : Z) : nat :=
  (if handshake_is_query extensions then 32 else 0) +
  (if handshake_is_response extensions then response_serialized_size extensions else 0).

Definition handshake_serialize (h : NodeIdHandshake) : list byte :=
  match nh_query h with Some query => query_cookie query | None => [] end ++
  match nh_response h with Some response => response_serialize response | None => [] end.

Definition handshake_deserialize `{BitVec} (extensions : Z) : decoder NodeIdHandshake :=
  query ← (if handshake_is_query extensions then
             cookie ← read_exact 32; mret (Some (mkNodeIdHandshakeQuery cookie))
           else mret None);
  response ← (if handshake_is_response extensions then
                r ← response_deserialize extensions; mret (Some r)
              else mret None);
  mret (mkNodeIdHandshake query response (handshake_has_v2_flag extensions)).

Definition handshake_header_extensions `{BitVec} (h : NodeIdHandshake) : Z :=
  bit_set (bit_set (bit_set 0 QUERY_FLAG (bool_decide (is_Some (nh_query h))))
             RESPONSE_FLAG (bool_decide (is_Some (nh_response h))))
    HANDSHAKE_V2_FLAG (nh_is_v2 h).

(** ** TelemetryAck (telemetry_ack.rs) *)

(** [td_timestamp] is the [SystemTime] in nanoseconds since the epoch. *)
Record TelemetryData := mkTelemetryData {
  td_signature : Signature;
  td_node_id : NodeId;
  td_block_count : Z;
  td_cemented_count : Z;
  td_unchecked_count : Z;
  td_account_count : Z;
  td_bandwidth_cap : Z;
  td_uptime : Z;
  td_peer_count : Z;
  td_protocol_version : Z;
  td_genesis_block : BlockHash;
  td_major_version : Z;
  td_minor_version : Z;
  td_patch_version : Z;
  td_pre_release_version : Z;
  td_maker : Z;
  td_timestamp : Z;
  td_active_difficulty : Z;
  td_unknown_data : list byte;
}.

Definition TELEMETRY_SIZE_MASK : Z := 0x3ff.

Definition SERIALIZED_SIZE_OF_KNOWN_DATA : nat :=
  64 + 32 + 8 + 8 + 8 + 8 + 8 + 4 + 1 + 8 + 32 + 1 + 1 + 1 + 1 + 1 + 8 + 8.

Definition NANOS_PER_MILLI : Z := 1000000.

(** [duration_since(UNIX_EPOCH).as_millis() as u64], for a time after the epoch. *)
Definition timestamp_millis (t : Z) : Z := wrap 64 (t / NANOS_PER_MILLI).

Definition serialize_without_signature (d : TelemetryData) : list byte :=
  u256_serialize (td_node_id d) ++ to_be_bytes 8 (td_block_count d) ++
  to_be_bytes 8 (td_cemented_count d) ++ to_be_bytes 8 (td_unchecked_count d) ++
  to_be_bytes 8 (td_account_count d) ++ to_be_bytes 8 (td_bandwidth_cap d) ++
  to_be_bytes 4 (td_peer_count d) ++ [byte_of (td_protocol_version d)] ++
  to_be_bytes 8 (td_uptime d) ++ u256_serialize (td_genesis_block d) ++
  [byte_of (td_major_version d)] ++ [byte_of (td_minor_version d)] ++
  [byte_of (td_patch_version d)] ++ [byte_of (td_pre_release_version d)] ++
  [byte_of (td_maker d)] ++ to_be_bytes 8 (timestamp_millis (td_timestamp d)) ++
  to_be_bytes 8 (td_active_difficulty d) ++ td_unknown_data d.

Definition telemetry_data_deserialize (payload_len : nat) : decoder TelemetryData :=
  signature ← signature_deserialize;
  node_id ← u256_deserialize;
  block_count ← read_u64_be;
  cemented_count ← read_u64_be;
  unchecked_count ← read_u64_be;
  account_count ← read_u64_be;
  bandwidth_cap ← read_u64_be;
  peer_count ← read_u32_be;
  protocol_version ← read_u8;
  uptime ← read_u64_be;
  genesis_block ← u256_deserialize;
  major_version ← read_u8;
  minor_version ← read_u8;
  patch_version ← read_u8;
  pre_release_version ← read_u8;
  maker ← read_u8;
  timestamp_ms ← read_u64_be;
  active_difficulty ← read_u64_be;
  unknown_data ← (if (SERIALIZED_SIZE_OF_KNOWN_DATA <? payload_len)%nat then
                    read_exact (payload_len - SERIALIZED_SIZE_OF_KNOWN_DATA)
                  else mret []);
  mret (mkTelemetryData signature node_id block_count cemented_count unchecked_count account_count
          bandwidth_cap uptime peer_count protocol_version genesis_block major_version minor_version
          patch_version pre_release_version maker (timestamp_ms * NANOS_PER_MILLI) active_difficulty
          unknown_data).

Definition telemetry_with_signature (s : Signature) (d : TelemetryData) : TelemetryData :=
  mkTelemetryData s (td_node_id d) (td_block_count d) (td_cemented_count d) (td_unchecked_count d)
    (td_account_count d) (td_bandwidth_cap d) (td_uptime d) (td_peer_count d) (td_protocol_version d)
    (td_genesis_block d) (td_major_version d) (td_minor_version d) (td_patch_version d)
    (td_pre_release_version d) (td_maker d) (td_timestamp d) (td_active_difficulty d)
    (td_unknown_data d).

Definition telemetry_sign `{Crypto} (key : Z) (d : TelemetryData) : TelemetryData :=
  telemetry_with_signature (sign key (serialize_without_signature d)) d.

Definition validate_signature `{Crypto} (d : TelemetryData) : bool :=
  verify (td_node_id d) (serialize_without_signature d) (td_signature d).

Record TelemetryAck := mkTelemetryAck { telemetry_data : option TelemetryData }.

Definition telemetry_ack_serialized_size (extensions : Z) : nat :=
  Z.to_nat (Z.land extensions TELEMETRY_SIZE_MASK).

Definition telemetry_ack_serialize (t : TelemetryAck) : list byte :=
  match telemetry_data t with
  | Some data => signature_serialize (td_signature data) ++ serialize_without_signature data
  | None => []
  end.

Definition telemetry_ack_deserialize (extensions : Z) : decoder TelemetryAck :=
  let payload_length := telemetry_ack_serialized_size extensions in
  if (payload_length =? 0)%nat then mret (mkTelemetryAck None)
  else data ← telemetry_data_deserialize payload_length; mret (mkTelemetryAck (Some data)).

Definition telemetry_ack_header_extensions (t : TelemetryAck) : Z :=
  match telemetry_data t with
  | Some data =>
      wrap 16 (wrap 16 (Z.of_nat SERIALIZED_SIZE_OF_KNOWN_DATA) +
               wrap 16 (Z.of_nat (length (td_unknown_data data))))
  | None => 0
  end.

(** ** AscPullReq (asc_pull_req.rs) *)

Inductive AscPullPayloadId := PayloadBlocks | PayloadAccountInfo | PayloadFrontiers.

Definition payload_id_u8 (p : AscPullPayloadId) : Z :=
  match p with PayloadBlocks => 0x1 | PayloadAccountInfo => 0x2 | PayloadFrontiers => 0x3 end.

Definition payload_id_from_u8 (z : Z) : option AscPullPayloadId :=
  if z =? 0x1 then Some PayloadBlocks
  else if z =? 0x2 then Some PayloadAccountInfo
  else if z =? 0x3 then Some PayloadFrontiers
  else None.

Inductive HashType := HashAccount | HashBlock.

Definition hash_type_u8 (h : HashType) : Z := match h with HashAccount => 0 | HashBlock => 1 end.

Definition hash_type_from_u8 (z : Z) : option HashType :=
  if z =? 0 then Some HashAccount else if z =? 1 then Some HashBlock else None.

Definition hash_type_deserialize : decoder HashType :=
  b ← read_u8; dec_opt (hash_type_from_u8 b) InvalidData.

Record BlocksReqPayload := mkBlocksReqPayload {
  brq_start_type : HashType;
  brq_start : u256;
  brq_count : Z;
}.

Record AccountInfoReqPayload := mkAccountInfoReqPayload {
  arq_target : u256;
  arq_target_type : HashType;
}.

Record FrontiersReqPayload := mkFrontiersReqPayload {
  frq_start : Account;
  frq_count : Z;
}.

Inductive AscPullReqType :=
  | ReqBlocks (p : BlocksReqPayload)
  | ReqAccountInfo (p : AccountInfoReqPayload)
  | ReqFrontiers (p : FrontiersReqPayload).

Record AscPullReq := mkAscPullReq {
  apr_id : Z;
  apr_req_type : AscPullReqType;
}.

Definition blocks_req_serialize (p : BlocksReqPayload) : list byte :=
  u256_serialize (brq_start p) ++ [byte_of (brq_count p)] ++ [byte_of (hash_type_u8 (brq_start_type p))].

Definition blocks_req_deserialize : decoder BlocksReqPayload :=
  start ← u256_deserialize;
  count ← read_u8;
  start_type ← hash_type_deserialize;
  mret (mkBlocksReqPayload start_type start count).

Definition account_info_req_serialize (p : AccountInfoReqPayload) : list byte :=
  u256_serialize (arq_target p) ++ [byte_of (hash_type_u8 (arq_target_type p))].

Definition account_info_req_deserialize : decoder AccountInfoReqPayload :=
  target ← u256_deserialize;
  target_type ← hash_type_deserialize;
  mret (mkAccountInfoReqPayload target target_type).

Definition frontiers_req_serialize (p : FrontiersReqPayload) : list byte :=
  u256_serialize (frq_start p) ++ to_be_bytes 2 (frq_count p).

Definition frontiers_req_deserialize : decoder FrontiersReqPayload :=
  start ← u256_deserialize;
  count ← read_u16_be;
  mret (mkFrontiersReqPayload start count).

Definition req_payload_type (t : AscPullReqType) : AscPullPayloadId :=
  match t with
  | ReqBlocks _ => PayloadBlocks
  | ReqAccountInfo _ => PayloadAccountInfo
  | ReqFrontiers _ => PayloadFrontiers
  end.

Definition req_type_serialize (t : AscPullReqType) : list byte :=
  match t with
  | ReqBlocks i => blocks_req_serialize i
  | ReqAccountInfo i => account_info_req_serialize i
  | ReqFrontiers i => frontiers_req_serialize i
  end.

(** One type byte, the id and the payload whose length is the extension word. *)
Definition asc_pull_serialized_size (extensions : Z) : nat := 1 + 8 + Z.to_nat extensions.

Definition asc_pull_req_serialize (r : AscPullReq) : list byte :=
  [byte_of (payload_id_u8 (req_payload_type (apr_req_type r)))] ++ to_be_bytes 8 (apr_id r) ++
  req_type_serialize (apr_req_type r).

Definition asc_pull_req_deserialize : decoder AscPullReq :=
  b ← read_u8;
  pull_type ← dec_opt (payload_id_from_u8 b) InvalidData;
  id ← read_u64_be;
  req_type ← match pull_type with
             | PayloadBlocks => p ← blocks_req_deserialize; mret (ReqBlocks p)
             | PayloadAccountInfo => p ← account_info_req_deserialize; mret (ReqAccountInfo p)
             | PayloadFrontiers => p ← frontiers_req_deserialize; mret (ReqFrontiers p)
             end;
  mret (mkAscPullReq id req_type).

(** [header_extensions] of both pull messages. *)
Definition asc_pull_header_extensions (payload_len : Z) : Z := wrap 16 (wrap 16 (payload_len - 1) - 8).

(** ** AscPullAck (asc_pull_ack.rs) *)

(** types/src/lib.rs *)
Record Frontier := mkFrontier {
  frontier_account : Account;
  frontier_hash : BlockHash;
}.

#[global] Instance Frontier_eq_dec : EqDecision Frontier.
Proof. solve_decision. Defined.

Definition frontier_default : Frontier := mkFrontier 0 0.

Definition frontier_serialize (f : Frontier) : list byte :=
  u256_serialize (frontier_account f) ++ u256_serialize (frontier_hash f).

Definition frontier_deserialize : decoder Frontier :=
  account ← u256_deserialize; hash ← u256_deserialize; mret (mkFrontier account hash).

Record BlocksAckPayload := mkBlocksAckPayload { bap_blocks : list Block }.

Record AccountInfoAckPayload := mkAccountInfoAckPayload {
  aip_account : Account;
  aip_account_open : BlockHash;
  aip_account_head : BlockHash;
  aip_account_block_count : Z;
  aip_account_conf_frontier : BlockHash;
  aip_account_conf_height : Z;
}.

Inductive AscPullAckType :=
  | AckBlocks (p : BlocksAckPayload)
  | AckAccountInfo (p : AccountInfoAckPayload)
  | AckFrontiers (frontiers : list Frontier).

Record AscPullAck := mkAscPullAck {
  apa_id : Z;
  apa_pull_type : AscPullAckType;
}.

Definition MAX_BLOCKS : nat := 128.
Definition MAX_FRONTIERS : nat := 1000.

Definition blocks_ack_new (blocks : list Block) : option BlocksAckPayload :=
  if (MAX_BLOCKS <? length blocks)%nat then None else Some (mkBlocksAckPayload blocks).

(** The blocks, each behind its type byte, then the terminator. *)
Definition blocks_ack_serialize (p : BlocksAckPayload) : list byte :=
  concat (block_serialize <$> bap_blocks p) ++ [byte_of (block_type_id_u8 IdNotABlock)].

(** The loop of [BlocksAckPayload::deserialize]; [room] is the number of
    blocks that still fit under [MAX_BLOCKS]. *)
Fixpoint read_blocks `{Crypto} (room : nat) (bytes : list byte)
    : result DeserializationError (list Block) :=
  match bytes with
  | [] => Ok []
  | _ :: _ =>
      r ← (id ← read_u8; dec_opt (block_type_id_from_u8 id) InvalidData) bytes;
      let '(type_id, bytes) := r in
      match type_id with
      | IdNotABlock => Ok []
      | _ =>
          r ← (block_type ← dec_opt (block_type_try_from type_id) InvalidData;
               deserialize_block_type block_type) bytes;
          let '(block, bytes) := r in
          match room with
          | O => Err TooMuchData
          | S room => blocks ← read_blocks room bytes; Ok (block :: blocks)
          end
      end
  end.

Definition blocks_ack_deserialize `{Crypto} (bytes : list byte)
    : option (result DeserializationError BlocksAckPayload) :=
  match read_blocks MAX_BLOCKS bytes with
  | Err e => Some (Err e)
  | Ok blocks => Ok <$> blocks_ack_new blocks
  end.

Definition account_info_ack_serialize (p : AccountInfoAckPayload) : list byte :=
  u256_serialize (aip_account p) ++ u256_serialize (aip_account_open p) ++
  u256_serialize (aip_account_head p) ++ to_be_bytes 8 (aip_account_block_count p) ++
  u256_serialize (aip_account_conf_frontier p) ++ to_be_bytes 8 (aip_account_conf_height p).

Definition account_info_ack_deserialize : decoder AccountInfoAckPayload :=
  account ← u256_deserialize;
  account_open ← u256_deserialize;
  account_head ← u256_deserialize;
  account_block_count ← read_u64_be;
  account_conf_frontier ← u256_deserialize;
  account_conf_height ← read_u64_be;
  mret (mkAccountInfoAckPayload account account_open account_head account_block_count
          account_conf_frontier account_conf_height).

(** Frontiers up to a default one or up to [MAX_FRONTIERS]; [room] counts down. *)
Fixpoint read_frontiers (room : nat) : decoder (list Frontier) :=
  match room with
  | O => mret []
  | S room =>
      current ← frontier_deserialize;
      if decide (current = frontier_default) then mret []
      else frontiers ← read_frontiers room; mret (current :: frontiers)
  end.

Definition ack_payload_type (t : AscPullAckType) : AscPullPayloadId :=
  match t with
  | AckBlocks _ => PayloadBlocks
  | AckAccountInfo _ => PayloadAccountInfo
  | AckFrontiers _ => PayloadFrontiers
  end.

Definition serialize_pull_type (t : AscPullAckType) : list byte :=
  match t with
  | AckBlocks blocks => blocks_ack_serialize blocks
  | AckAccountInfo account_info => account_info_ack_serialize account_info
  | AckFrontiers frontiers =>
      concat (frontier_serialize <$> frontiers) ++ frontier_serialize frontier_default
  end.

Definition asc_pull_ack_serialize (a : AscPullAck) : list byte :=
  [byte_of (payload_id_u8 (ack_payload_type (apa_pull_type a)))] ++ to_be_bytes 8 (apa_id a) ++
  serialize_pull_type (apa_pull_type a).

Definition asc_pull_ack_head : decoder (AscPullPayloadId * Z) :=
  b ← read_u8;
  pull_type_code ← dec_opt (payload_id_from_u8 b) InvalidData;
  id ← read_u64_be;
  mret (pull_type_code, id).

Definition asc_pull_ack_deserialize `{Crypto} (bytes : list byte)
    : option (result DeserializationError AscPullAck) :=
  match asc_pull_ack_head bytes with
  | Err e => Some (Err e)
  | Ok ((pull_type_code, id), bytes) =>
      match pull_type_code with
      | PayloadBlocks =>
          r ← blocks_ack_deserialize bytes; Some (payload ← r; Ok (mkAscPullAck id (AckBlocks payload)))
      | PayloadAccountInfo =>
          Some (payload ← from_slice account_info_ack_deserialize bytes;
                Ok (mkAscPullAck id (AckAccountInfo payload)))
      | PayloadFrontiers =>
          Some (frontiers ← from_slice (read_frontiers MAX_FRONTIERS) bytes;
                Ok (mkAscPullAck id (AckFrontiers frontiers)))
      end
  end.

(** ** The enum [Message] (message.rs) *)

Inductive Message :=
  | MsgKeepalive (m : Keepalive)
  | MsgPublish (m : Publish)
  | MsgAscPullAck (m : AscPullAck)
  | MsgAscPullReq (m : AscPullReq)
  | MsgBulkPull (m : BulkPull)
  | MsgBulkPullAccount (m : BulkPullAccount)
  | MsgBulkPush
  | MsgConfirmAck (m : ConfirmAck)
  | MsgConfirmReq (m : ConfirmReq)
  | MsgFrontierReq (m : FrontierReq)
  | MsgNodeIdHandshake (m : NodeIdHandshake)
  | MsgTelemetryAck (m : TelemetryAck)
  | MsgTelemetryReq.

Definition MAX_MESSAGE_SIZE : nat := Z.to_nat (1024 * 65).

Definition message_type (m : Message) : MessageType :=
  match m with
  | MsgKeepalive _ => TyKeepalive
  | MsgPublish _ => TyPublish
  | MsgAscPullAck _ => TyAscPullAck
  | MsgAscPullReq _ => TyAscPullReq
  | MsgBulkPull _ => TyBulkPull
  | MsgBulkPullAccount _ => TyBulkPullAccount
  | MsgBulkPush => TyBulkPush
  | MsgConfirmAck _ => TyConfirmAck
  | MsgConfirmReq _ => TyConfirmReq
  | MsgFrontierReq _ => TyFrontierReq
  | MsgNodeIdHandshake _ => TyNodeIdHandshake
  | MsgTelemetryAck _ => TyTelemetryAck
  | MsgTelemetryReq => TyTelemetryReq
  end.

(** The variants without an implementation of their own have no extensions. *)
Definition header_extensions `{BitVec} (m : Message) (payload_len : Z) : Z :=
  match m with
  | MsgPublish m => publish_header_extensions m
  | MsgAscPullAck _ | MsgAscPullReq _ => asc_pull_header_extensions payload_len
  | MsgBulkPull m => bulk_pull_header_extensions m
  | MsgConfirmAck m => confirm_ack_header_extensions m
  | MsgConfirmReq m => confirm_req_header_extensions m
  | MsgFrontierReq m => frontier_req_header_extensions m
  | MsgNodeIdHandshake m => handshake_header_extensions m
  | MsgTelemetryAck m => telemetry_ack_header_extensions m
  | MsgKeepalive _ | MsgBulkPullAccount _ | MsgBulkPush | MsgTelemetryReq => 0
  end.

Definition message_serialize (m : Message) : list byte :=
  match m with
  | MsgKeepalive m => keepalive_serialize m
  | MsgPublish m => publish_serialize m
  | MsgAscPullAck m => asc_pull_ack_serialize m
  | MsgAscPullReq m => asc_pull_req_serialize m
  | MsgBulkPull m => bulk_pull_serialize m
  | MsgBulkPullAccount m => bulk_pull_account_serialize m
  | MsgConfirmAck m => confirm_ack_serialize m
  | MsgConfirmReq m => confirm_req_serialize m
  | MsgFrontierReq m => frontier_req_serialize m
  | MsgNodeIdHandshake m => handshake_serialize m
  | MsgTelemetryAck m => telemetry_ack_serialize m
  | MsgBulkPush | MsgTelemetryReq => []
  end.

Definition is_obsolete (m : Message) : bool :=
  match message_type m with
  | TyBulkPull | TyBulkPullAccount | TyBulkPush | TyTelemetryReq => true
  | _ => false
  end.

(** ** The header (message_header.rs) *)

Record MessageHeader := mkMessageHeader {
  hd_message_type : MessageType;
  hd_protocol : ProtocolInfo;
  hd_extensions : Z;
}.

Definition HEADER_SIZE : nat := 8.

Definition header_serialize (h : MessageHeader) : list byte :=
  to_be_bytes 2 (network_u16 (network (hd_protocol h))) ++
  [byte_of (version_max (hd_protocol h))] ++ [byte_of (version_using (hd_protocol h))] ++
  [byte_of (version_min (hd_protocol h))] ++ [byte_of (message_type_u8 (hd_message_type h))] ++
  to_le_bytes 2 (hd_extensions h).

Definition header_deserialize : decoder MessageHeader :=
  n ← read_u16_be;
  net ← dec_opt (network_from_u16 n) InvalidData;
  vmax ← read_u8;
  vusing ← read_u8;
  vmin ← read_u8;
  b ← read_u8;
  ty ← dec_opt (message_type_from_u8 b) InvalidData;
  extensions ← read_u16_le;
  mret (mkMessageHeader ty (mkProtocolInfo vusing vmax vmin net) extensions).

(** The [debug_assert] on the invalid types is behind [validate_header]. *)
Definition payload_length `{BitVec} (h : MessageHeader) : nat :=
  let extensions := hd_extensions h in
  match hd_message_type h with
  | TyKeepalive => keepalive_serialized_size
  | TyPublish => publish_serialized_size extensions
  | TyConfirmReq => confirm_req_serialized_size extensions
  | TyConfirmAck => confirm_ack_serialized_size extensions
  | TyBulkPull => bulk_pull_serialized_size extensions
  | TyBulkPush | TyTelemetryReq => 0
  | TyFrontierReq => frontier_req_serialized_size
  | TyNodeIdHandshake => handshake_serialized_size extensions
  | TyBulkPullAccount => bulk_pull_account_serialized_size
  | TyTelemetryAck => telemetry_ack_serialized_size extensions
  | TyAscPullReq => asc_pull_serialized_size extensions
  | TyAscPullAck => asc_pull_serialized_size extensions
  | TyInvalid | TyNotAType => 0
  end.

Definition is_valid_message_type (h : MessageHeader) : bool :=
  match hd_message_type h with TyInvalid | TyNotAType => false | _ => true end.

(** [Message::deserialize] *)
Definition message_deserialize `{Crypto, BitVec} (payload : list byte) (h : MessageHeader) (digest : Z)
    : option (result DeserializationError Message) :=
  let extensions := hd_extensions h in
  match hd_message_type h with
  | TyKeepalive => Some (m ← from_slice keepalive_deserialize payload; Ok (MsgKeepalive m))
  | TyPublish =>
      Some (m ← from_slice (publish_deserialize extensions digest) payload; Ok (MsgPublish m))
  | TyAscPullAck => r ← asc_pull_ack_deserialize payload; Some (m ← r; Ok (MsgAscPullAck m))
  | TyAscPullReq => Some (m ← from_slice asc_pull_req_deserialize payload; Ok (MsgAscPullReq m))
  | TyBulkPull => Some (m ← from_slice (bulk_pull_deserialize extensions) payload; Ok (MsgBulkPull m))
  | TyBulkPullAccount =>
      Some (m ← from_slice bulk_pull_account_deserialize payload; Ok (MsgBulkPullAccount m))
  | TyBulkPush => Some (Ok MsgBulkPush)
  | TyConfirmAck =>
      r ← confirm_ack_deserialize payload extensions digest; Some (m ← r; Ok (MsgConfirmAck m))
  | TyConfirmReq => r ← confirm_req_deserialize payload extensions; Some (m ← r; Ok (MsgConfirmReq m))
  | TyFrontierReq =>
      Some (m ← from_slice (frontier_req_deserialize extensions) payload; Ok (MsgFrontierReq m))
  | TyNodeIdHandshake =>
      Some (m ← from_slice (handshake_deserialize extensions) payload; Ok (MsgNodeIdHandshake m))
  | TyTelemetryAck =>
      Some (m ← from_slice (telemetry_ack_deserialize extensions) payload; Ok (MsgTelemetryAck m))
  | TyTelemetryReq => Some (Ok MsgTelemetryReq)
  | TyInvalid | TyNotAType => Some (Err InvalidData)
  end.

(** ** MessageSerializer (message_serializer.rs) *)

Record MessageSerializer := mkMessageSerializer {
  ms_protocol : ProtocolInfo;
  ms_buffer : list byte;
}.

(** [Vec::resize(n, 0)] *)
Definition vec_resize (n : nat) (v : list byte) : list byte :=
  take n v ++ replicate (n - length v) (byte_of 0).

(** The bytes that are handed out, and the serializer with its reused buffer. *)
Definition serializer_serialize `{BitVec} (m : Message) (s : MessageSerializer)
    : list byte * MessageSerializer :=
  let buffer := vec_resize HEADER_SIZE (ms_buffer s) ++ message_serialize m in
  let payload_len := (length buffer - HEADER_SIZE)%nat in
  let header := mkMessageHeader (message_type m) (ms_protocol s)
                  (header_extensions m (wrap 16 (Z.of_nat payload_len))) in
  let buffer := header_serialize header ++ drop HEADER_SIZE buffer in
  (take (HEADER_SIZE + payload_len) buffer, mkMessageSerializer (ms_protocol s) buffer).
