(* ===== verification/MessageCodec.v ===== *)
(** * Messages survive the wire (messages/src)

    Which messages are well-formed, and for each payload format that the
    reader gets back what the writer wrote and that the header announces its
    length. *)

From S2P Require Import Prelude Types Blocks Codec Votes Messages.

(** ** Well-formed messages: what the Rust types and the formats can hold *)

Definition wf_peer (p : SocketAddrV6) : Prop :=
  in_u 128 (sa_ip p) /\ in_u 16 (sa_port p) /\ sa_flowinfo p = 0 /\ sa_scope_id p = 0.

Definition wf_keepalive (k : Keepalive) : Prop := length (ka_peers k) = 8%nat /\ Forall wf_peer (ka_peers k).

(** Pairs of zeroes are refused by the reader, and so is an empty list. *)
Definition wf_root_hash (p : BlockHash * Root) : Prop :=
  wf_u256 p.1 /\ wf_u256 p.2 /\ ~ (p.1 = 0 /\ p.2 = 0).

Definition wf_confirm_req (r : ConfirmReq) : Prop :=
  (1 <= length (roots_hashes r) <= 255)%nat /\ Forall wf_root_hash (roots_hashes r).

Definition wf_bulk_pull (b : BulkPull) : Prop :=
  wf_u256 (bp_start b) /\ wf_u256 (bp_end b) /\ in_u 32 (bp_count b).

Definition wf_bulk_pull_account (b : BulkPullAccount) : Prop :=
  wf_u256 (bpa_account b) /\ wf_amount (bpa_minimum_amount b).

Definition wf_frontier_req (f : FrontierReq) : Prop :=
  wf_u256 (fr_start f) /\ in_u 32 (fr_age f) /\ in_u 32 (fr_count f).

Definition wf_response (r : NodeIdHandshakeResponse) : Prop :=
  wf_u256 (resp_node_id r) /\ wf_signature (resp_signature r) /\
  forall v2, resp_v2 r = Some v2 -> length (v2_salt v2) = 32%nat /\ wf_u256 (v2_genesis v2).

(** A response is read in the format the version flag of the message names. *)
Definition wf_handshake (h : NodeIdHandshake) : Prop :=
  (forall q, nh_query h = Some q -> length (query_cookie q) = 32%nat) /\
  (forall r, nh_response h = Some r -> wf_response r /\ nh_is_v2 h = bool_decide (is_Some (resp_v2 r))).

(** Times are sent in milliseconds; the size of the data has ten bits. *)
Definition wf_telemetry_data (d : TelemetryData) : Prop :=
  (wf_signature (td_signature d) /\ wf_u256 (td_node_id d) /\ wf_u64 (td_block_count d) /\
   wf_u64 (td_cemented_count d) /\ wf_u64 (td_unchecked_count d) /\ wf_u64 (td_account_count d) /\
   wf_u64 (td_bandwidth_cap d) /\ wf_u64 (td_uptime d) /\ in_u 32 (td_peer_count d) /\
   in_u 8 (td_protocol_version d) /\ wf_u256 (td_genesis_block d)) /\
  (in_u 8 (td_major_version d) /\ in_u 8 (td_minor_version d) /\ in_u 8 (td_patch_version d) /\
   in_u 8 (td_pre_release_version d) /\ in_u 8 (td_maker d) /\ wf_u64 (td_active_difficulty d)) /\
  (td_timestamp d mod NANOS_PER_MILLI = 0 /\ wf_u64 (td_timestamp d / NANOS_PER_MILLI)) /\
  (length (td_unknown_data d) <= 821)%nat.

Definition wf_telemetry_ack (t : TelemetryAck) : Prop :=
  forall d, telemetry_data t = Some d -> wf_telemetry_data d.

Definition wf_asc_pull_req (r : AscPullReq) : Prop :=
  wf_u64 (apr_id r) /\
  match apr_req_type r with
  | ReqBlocks p => wf_u256 (brq_start p) /\ in_u 8 (brq_count p)
  | ReqAccountInfo p => wf_u256 (arq_target p)
  | ReqFrontiers p => wf_u256 (frq_start p) /\ in_u 16 (frq_count p)
  end.

(** A default frontier would be read as the end of the list. *)
Definition wf_frontier (f : Frontier) : Prop :=
  wf_u256 (frontier_account f) /\ wf_u256 (frontier_hash f) /\ f <> frontier_default.

Definition wf_account_info_ack (p : AccountInfoAckPayload) : Prop :=
  wf_u256 (aip_account p) /\ wf_u256 (aip_account_open p) /\ wf_u256 (aip_account_head p) /\
  wf_u64 (aip_account_block_count p) /\ wf_u256 (aip_account_conf_frontier p) /\
  wf_u64 (aip_account_conf_height p).

Definition wf_asc_pull_ack `{Crypto} (a : AscPullAck) : Prop :=
  wf_u64 (apa_id a) /\
  match apa_pull_type a with
  | AckBlocks p => (length (bap_blocks p) <= MAX_BLOCKS)%nat /\ Forall wf_block (bap_blocks p)
  | AckAccountInfo p => wf_account_info_ack p
  | AckFrontiers l => (length l <= MAX_FRONTIERS)%nat /\ Forall wf_frontier l
  end.

Definition wf_message `{Crypto} (m : Message) : Prop :=
  match m with
  | MsgKeepalive m => wf_keepalive m
  | MsgPublish m => wf_block (pub_block m)
  | MsgAscPullAck m => wf_asc_pull_ack m
  | MsgAscPullReq m => wf_asc_pull_req m
  | MsgBulkPull m => wf_bulk_pull m
  | MsgBulkPullAccount m => wf_bulk_pull_account m
  | MsgConfirmAck m => wf_vote (ack_vote m)
  | MsgConfirmReq m => wf_confirm_req m
  | MsgFrontierReq m => wf_frontier_req m
  | MsgNodeIdHandshake m => wf_handshake m
  | MsgTelemetryAck m => wf_telemetry_ack m
  | MsgBulkPush | MsgTelemetryReq => True
  end.

(** The message as the receiver sees it: the digest is the receiver's own. *)
Definition with_digest (digest : Z) (m : Message) : Message :=
  match m with
  | MsgPublish m => MsgPublish (mkPublish (pub_block m) digest (pub_is_originator m))
  | MsgConfirmAck m => MsgConfirmAck (mkConfirmAck (ack_vote m) (ack_is_rebroadcasted m) digest)
  | m => m
  end.

(** ** Shared lemmas *)

Lemma decodes_read_u16_be z : in_u 16 z -> decodes read_u16_be (to_be_bytes 2 z) z.
Proof.
  intros. eapply decodes_last; [apply decodes_read_exact, length_to_be_bytes | by apply from_to_be_bytes].
Qed.

Lemma decodes_read_u16_le z : in_u 16 z -> decodes read_u16_le (to_le_bytes 2 z) z.
Proof.
  intros. eapply decodes_last; [apply decodes_read_exact, length_to_le_bytes | by apply from_to_le_bytes].
Qed.

Lemma decodes_read_u32_le z : in_u 32 z -> decodes read_u32_le (to_le_bytes 4 z) z.
Proof.
  intros. eapply decodes_last; [apply decodes_read_exact, length_to_le_bytes | by apply from_to_le_bytes].
Qed.

#[export] Hint Resolve decodes_read_u16_be decodes_read_u16_le decodes_read_u32_le : codec.

Lemma decodes_read_times {A} (d : decoder A) (ser : A -> list byte) l :
  Forall (fun x => decodes d (ser x) x) l ->
  decodes (read_times (length l) d) (concat (ser <$> l)) l.
Proof.
  induction 1 as [|x l Hx _ IH]; [apply decodes_ret|]. cbn [length read_times fmap list_fmap concat].
  eapply decodes_bind; [done|]. eapply decodes_last; [exact IH|done].
Qed.

Lemma from_slice_decodes {A} (d : decoder A) bs x : decodes d bs x -> from_slice d bs = Ok x.
Proof. intros H. unfold from_slice. specialize (H []). rewrite app_nil_r in H. by rewrite H. Qed.

Lemma length_concat_const {A} (ser : A -> list byte) n l :
  (forall x, length (ser x) = n) -> length (concat (ser <$> l)) = (length l * n)%nat.
Proof.
  intros Hn. induction l as [|x l IH]; [done|]. cbn [fmap list_fmap concat length].
  rewrite length_app, Hn. fold (ser <$> l). rewrite IH. lia.
Qed.

Lemma decodes_opt_bind {A B} (o : option A) e (k : A -> decoder B) bs x y :
  o = Some x -> decodes (k x) bs y -> decodes (dec_opt o e ≫= k) bs y.
Proof. intros -> Hk. exact (decodes_bind _ _ [] bs _ _ (decodes_ret x) Hk). Qed.

(** One type or flag byte behind the fields read so far. *)
Lemma decodes_enum {A} (from : Z -> option A) (to : A -> Z) e x :
  in_u 8 (to x) -> from (to x) = Some x ->
  decodes (b ← read_u8; dec_opt (from b) e) [byte_of (to x)] x.
Proof.
  intros Hu Hf. change [byte_of (to x)] with ([byte_of (to x)] ++ []).
  eapply decodes_bind; [by apply decodes_read_u8 | by apply decodes_opt].
Qed.

Lemma length_block b : length (serialize_without_block_type b) = serialized_block_size (block_type b).
Proof.
  destruct b; cbn [serialize_without_block_type block_type serialized_block_size];
    unfold send_serialize, receive_serialize, open_serialize, change_serialize, state_serialize;
    solve_length.
Qed.

(** ** The extension word *)

(** A property of all counts of hashes, by evaluation. *)
Lemma all_counts (P : Z -> bool) :
  forallb P (seqZ 0 256) = true -> forall c, 0 <= c < 256 -> P c = true.
Proof. intros H c Hc. rewrite forallb_forall in H. apply H, list_elem_of_In, elem_of_seqZ. lia. Qed.

Definition ack_extensions (c : Z) (b : bool) : Z :=
  if b then Z.setbit (count_bits c) REBROADCASTED_FLAG else Z.clearbit (count_bits c) REBROADCASTED_FLAG.

Definition req_extensions (c : Z) : Z := Z.lor (count_bits c) 0x100.

Lemma count_bits_ok c : 0 <= c < 256 -> in_u 16 (count_bits c).
Proof.
  intros Hc. assert ((0 <=? count_bits c) && (count_bits c <? 2 ^ 16) = true) as H.
  { revert c Hc. apply (all_counts (fun c => (0 <=? count_bits c) && (count_bits c <? 2 ^ 16))). by vm_compute. }
  unfold in_u. lia.
Qed.

Lemma ack_extensions_ok c b :
  0 <= c < 256 ->
  in_u 16 (ack_extensions c b) /\ confirm_count (ack_extensions c b) = c /\
  Z.testbit (ack_extensions c b) REBROADCASTED_FLAG = b.
Proof.
  intros Hc.
  set (P := fun c => let e := ack_extensions c b in
    (0 <=? e) && (e <? 2 ^ 16) && (confirm_count e =? c) && eqb (Z.testbit e REBROADCASTED_FLAG) b).
  assert (P c = true) as H by (apply all_counts; [by destruct b; vm_compute|done]).
  unfold P in H. cbv zeta in H. rewrite !andb_true_iff in H. destruct H as (((?&?)&?)&?%eqb_prop).
  split_and!; [unfold in_u; lia|lia|done].
Qed.

Lemma req_extensions_ok c :
  0 <= c < 256 ->
  in_u 16 (req_extensions c) /\ confirm_count (req_extensions c) = c /\
  confirm_block_type (req_extensions c) = IdNotABlock.
Proof.
  intros Hc.
  set (P := fun c => let e := req_extensions c in
    (0 <=? e) && (e <? 2 ^ 16) && (confirm_count e =? c) &&
    (block_type_id_u8 (confirm_block_type e) =? 1)).
  assert (P c = true) as H by (apply all_counts; [by vm_compute|done]).
  unfold P in H. cbv zeta in H. rewrite !andb_true_iff in H. destruct H as (((?&?)&?)&Ht).
  split_and!; [unfold in_u; lia|lia|]. by destruct (confirm_block_type (req_extensions c)).
Qed.

Section bits.
Context `{BitVec} `{!BitVecLaws _}.

(** Sets the flags of a constant word, the innermost first. *)
Ltac set_flags :=
  repeat match goal with
         | |- context [bit_set ?a ?i ?b] =>
             lazymatch a with
             | context [bit_set] => fail
             | _ => rewrite (bit_set_spec a i b) by (by vm_compute); cbn
             end
         end.

(** Up to three flags set one after the other in an empty word. *)
Lemma flags_spec b0 b1 b2 :
  bit_set (bit_set (bit_set 0 0 b0) 1 b1) 2 b2 = Z.b2z b0 + 2 * Z.b2z b1 + 4 * Z.b2z b2.
Proof.
  destruct b0, b1, b2; set_flags; done.
Qed.

Lemma flags2_spec b0 b1 : bit_set (bit_set 0 0 b0) 1 b1 = Z.b2z b0 + 2 * Z.b2z b1.
Proof. destruct b0, b1; set_flags; done. Qed.

Lemma flag_get b0 b1 b2 i :
  0 <= i < 3 ->
  bit_get (Z.b2z b0 + 2 * Z.b2z b1 + 4 * Z.b2z b2) i = if i =? 0 then b0 else if i =? 1 then b1 else b2.
Proof.
  intros Hi. rewrite bit_get_spec; [|destruct b0, b1, b2; cbn; unfold in_u; lia|lia].
  assert (i = 0 \/ i = 1 \/ i = 2) as [->|[->| ->]] by lia; by destruct b0, b1, b2.
Qed.

Lemma flag2_get b0 b1 i :
  0 <= i < 2 -> bit_get (Z.b2z b0 + 2 * Z.b2z b1) i = if i =? 0 then b0 else b1.
Proof.
  intros Hi. pose proof (flag_get b0 b1 false i ltac:(lia)) as E. rewrite Z.add_0_r in E. rewrite E.
  destruct (Z.eqb_spec i 0), (Z.eqb_spec i 1); done || lia.
Qed.

Lemma publish_block_type_id_spec p :
  publish_block_type_id (publish_header_extensions p) = block_type_to_id (block_type (pub_block p)).
Proof.
  unfold publish_block_type_id, publish_header_extensions.
  destruct (pub_block p), (pub_is_originator p); cbn;
    (rewrite bit_and_spec by (by vm_compute)); cbn;
    (rewrite bit_shift_left_spec by (by vm_compute)); done.
Qed.

Lemma confirm_ack_extensions_spec a :
  (length (vote_hashes (ack_vote a)) <= 255)%nat ->
  confirm_ack_header_extensions a =
  ack_extensions (Z.of_nat (length (vote_hashes (ack_vote a)))) (ack_is_rebroadcasted a).
Proof.
  intros Hl. unfold confirm_ack_header_extensions. rewrite wrap_small by (unfold in_u; lia).
  pose proof (count_bits_ok (Z.of_nat (length (vote_hashes (ack_vote a)))) ltac:(lia)).
  rewrite bit_or_spec, Z.lor_0_l by (done || (unfold in_u; lia)). by rewrite bit_set_spec.
Qed.

Lemma confirm_req_extensions_spec r :
  (length (roots_hashes r) <= 255)%nat ->
  confirm_req_header_extensions r = req_extensions (Z.of_nat (length (roots_hashes r))).
Proof.
  intros Hl. unfold confirm_req_header_extensions. rewrite wrap_small by (unfold in_u; lia).
  pose proof (count_bits_ok (Z.of_nat (length (roots_hashes r))) ltac:(lia)).
  rewrite (bit_or_spec 0), Z.lor_0_l by (done || (unfold in_u; lia)).
  rewrite bit_or_spec; [done|done|]. by vm_compute.
Qed.
End bits.

(** ** The payload formats *)

Lemma decodes_peer p : wf_peer p -> decodes peer_deserialize (peer_serialize p) p.
Proof.
  intros (Hi & Hp & Hf & Hs). unfold peer_deserialize, peer_serialize. decode_all.
  rewrite from_to_be_bytes by done. destruct p; cbn in *. by subst.
Qed.

Lemma decodes_keepalive k : wf_keepalive k -> decodes keepalive_deserialize (keepalive_serialize k) k.
Proof.
  intros (Hl & Hf). apply decodes_last with (x := ka_peers k); [|by destruct k]. rewrite <- Hl. apply decodes_read_times.
  eapply Forall_impl; [exact Hf|]. intros p. apply decodes_peer.
Qed.

Lemma length_keepalive k : wf_keepalive k -> length (keepalive_serialize k) = keepalive_serialized_size.
Proof.
  intros (Hl & _). unfold keepalive_serialize. rewrite (length_concat_const _ 18), Hl; [done|].
  intros p. unfold peer_serialize. solve_length.
Qed.

Lemma decodes_root_hash p : wf_root_hash p -> decodes root_hash_deserialize (root_hash_serialize p) p.
Proof. intros (? & ? & _). unfold root_hash_deserialize, root_hash_serialize. decode_all. by destruct p. Qed.

Lemma wf_root_hash_kept l :
  Forall wf_root_hash l -> filter (fun p => negb (u256_is_zero p.1) || negb (u256_is_zero p.2)) l = l.
Proof.
  induction 1 as [|p l (_ & _ & Hp) _ IH]; [done|]. rewrite filter_cons, decide_True, IH; [done|].
  destruct (u256_is_zero_spec p.1), (u256_is_zero_spec p.2); naive_solver.
Qed.

Lemma confirm_req_roundtrip r e :
  wf_confirm_req r -> confirm_count e = Z.of_nat (length (roots_hashes r)) ->
  confirm_req_deserialize (confirm_req_serialize r) e = Some (Ok r).
Proof.
  intros (Hl & Hf) Hc. unfold confirm_req_deserialize.
  rewrite (from_slice_decodes _ _ (roots_hashes r)).
  - unfold confirm_req_new. destruct (Nat.ltb_spec 255 (length (roots_hashes r))); [lia|]. by destruct r.
  - unfold deserialize_roots, confirm_req_serialize. rewrite Hc, Nat2Z.id.
    rewrite <- (app_nil_r (concat _)). eapply decodes_bind.
    { apply decodes_read_times. eapply Forall_impl; [exact Hf|]. intros p. apply decodes_root_hash. }
    cbv beta zeta. rewrite wf_root_hash_kept by done. rewrite Nat.eqb_refl.
    destruct (Nat.eqb_spec (length (roots_hashes r)) 0); [lia|]. apply decodes_ret.
Qed.

Lemma length_confirm_req r : length (confirm_req_serialize r) = (length (roots_hashes r) * (32 + 32))%nat.
Proof. apply length_concat_const. intros p. unfold root_hash_serialize. solve_length. Qed.

Lemma decodes_extended_count c :
  in_u 32 c ->
  decodes extended_count_deserialize ([byte_of 0] ++ to_le_bytes 4 c ++ replicate 3 (byte_of 0)) c.
Proof.
  intros Hc rest. unfold extended_count_deserialize, mbind, decoder_bind.
  rewrite (decodes_read_exact EXTENDED_PARAMETERS_SIZE) by solve_length. cbn [app].
  rewrite take_app_length' by (symmetry; apply length_to_le_bytes). by rewrite from_to_le_bytes.
Qed.

Lemma decodes_bulk_pull_account b :
  wf_bulk_pull_account b ->
  decodes bulk_pull_account_deserialize (bulk_pull_account_serialize b) b.
Proof.
  intros (? & ?). unfold bulk_pull_account_deserialize, bulk_pull_account_serialize.
  do 2 (eapply decodes_bind; [by eauto with codec | cbv beta]).
  eapply (decodes_bind _ _ [_] []); [apply decodes_read_u8; by destruct (bpa_flags b)|]. cbv beta.
  apply decodes_last with (x := bpa_flags b); [apply decodes_opt; by destruct (bpa_flags b) | by destruct b].
Qed.

Lemma decodes_hash_type t : decodes hash_type_deserialize [byte_of (hash_type_u8 t)] t.
Proof. apply decodes_enum; by destruct t. Qed.

#[export] Hint Resolve decodes_hash_type : codec.

Lemma decodes_asc_pull_req r :
  wf_asc_pull_req r -> decodes asc_pull_req_deserialize (asc_pull_req_serialize r) r.
Proof.
  intros (Hi & Hw). unfold asc_pull_req_deserialize, asc_pull_req_serialize.
  eapply (decodes_bind _ _ [_]); [apply decodes_read_u8; by destruct (apr_req_type r)|]. cbv beta.
  apply decodes_opt_bind with (x := req_payload_type (apr_req_type r)); [by destruct (apr_req_type r)|].
  eapply decodes_bind; [by eauto with codec|]. cbv beta.
  apply decodes_last with (x := apr_req_type r); [|by destruct r].
  destruct (apr_req_type r) as [p|p|p]; cbn [req_payload_type req_type_serialize].
  - eapply decodes_last with (x := p); [|done]. destruct Hw.
    unfold blocks_req_deserialize, blocks_req_serialize. decode_all. by destruct p.
  - eapply decodes_last with (x := p); [|done].
    unfold account_info_req_deserialize, account_info_req_serialize. decode_all. by destruct p.
  - eapply decodes_last with (x := p); [|done]. destruct Hw.
    unfold frontiers_req_deserialize, frontiers_req_serialize. decode_all. by destruct p.
Qed.

Lemma decodes_telemetry_data d :
  wf_telemetry_data d ->
  decodes (telemetry_data_deserialize (SERIALIZED_SIZE_OF_KNOWN_DATA + length (td_unknown_data d)))
    (signature_serialize (td_signature d) ++ serialize_without_signature d) d.
Proof.
  intros (Hw1 & Hw2 & (Hm & Ht) & Hl). destruct_and!.
  unfold telemetry_data_deserialize, serialize_without_signature.
  assert (timestamp_millis (td_timestamp d) = td_timestamp d / NANOS_PER_MILLI) as Et by (by apply wrap_small).
  do 18 (eapply decodes_bind; [solve [eauto with codec] || (rewrite Et; by eauto with codec) | cbv beta]).
  apply decodes_last with (x := td_unknown_data d).
  - destruct (Nat.ltb_spec SERIALIZED_SIZE_OF_KNOWN_DATA
      (SERIALIZED_SIZE_OF_KNOWN_DATA + length (td_unknown_data d))) as [|Hle].
    + apply decodes_read_exact. lia.
    + destruct (td_unknown_data d); [apply decodes_ret|cbn [length] in Hle; lia].
  - rewrite Z.mul_comm, <- Z_div_exact_full_2 by done. by destruct d.
Qed.

Lemma length_telemetry_data d :
  length (signature_serialize (td_signature d) ++ serialize_without_signature d) =
  (SERIALIZED_SIZE_OF_KNOWN_DATA + length (td_unknown_data d))%nat.
Proof.
  unfold serialize_without_signature. rewrite !length_app, length_signature_serialize, !length_u256_serialize,
    !length_to_be_bytes. cbn [length]. unfold SERIALIZED_SIZE_OF_KNOWN_DATA. lia.
Qed.

Lemma telemetry_extensions_size t :
  wf_telemetry_ack t ->
  telemetry_ack_serialized_size (telemetry_ack_header_extensions t) = length (telemetry_ack_serialize t) /\
  in_u 16 (telemetry_ack_header_extensions t).
Proof.
  intros Ht. unfold telemetry_ack_serialized_size, telemetry_ack_header_extensions, telemetry_ack_serialize.
  destruct t as [[d|]]; cbn [telemetry_data]; [|done]. destruct (Ht d eq_refl) as (_ & _ & _ & Hl).
  rewrite length_telemetry_data. rewrite (wrap_small _ (Z.of_nat SERIALIZED_SIZE_OF_KNOWN_DATA)) by done.
  rewrite (wrap_small _ (Z.of_nat (length _))) by (unfold in_u; lia).
  rewrite wrap_small by (unfold in_u, SERIALIZED_SIZE_OF_KNOWN_DATA; lia).
  change TELEMETRY_SIZE_MASK with (Z.ones 10). rewrite Z.land_ones by done.
  rewrite Z.mod_small by (unfold SERIALIZED_SIZE_OF_KNOWN_DATA; lia).
  unfold in_u, SERIALIZED_SIZE_OF_KNOWN_DATA. lia.
Qed.

Lemma decodes_telemetry_ack t :
  wf_telemetry_ack t ->
  decodes (telemetry_ack_deserialize (telemetry_ack_header_extensions t)) (telemetry_ack_serialize t) t.
Proof.
  intros Ht. unfold telemetry_ack_deserialize. rewrite (proj1 (telemetry_extensions_size t Ht)).
  unfold telemetry_ack_serialize. destruct t as [[d|]]; cbn [telemetry_data]; [|apply decodes_ret].
  rewrite length_telemetry_data. cbn [Nat.eqb SERIALIZED_SIZE_OF_KNOWN_DATA Nat.add].
  eapply decodes_last; [apply decodes_telemetry_data; by apply Ht | done].
Qed.

Lemma decodes_account_info_ack p :
  wf_account_info_ack p -> decodes account_info_ack_deserialize (account_info_ack_serialize p) p.
Proof.
  intros (? & ? & ? & ? & ? & ?). unfold account_info_ack_deserialize, account_info_ack_serialize.
  decode_all. by destruct p.
Qed.

Lemma decodes_frontier f :
  wf_u256 (frontier_account f) -> wf_u256 (frontier_hash f) ->
  decodes frontier_deserialize (frontier_serialize f) f.
Proof. intros. unfold frontier_deserialize, frontier_serialize. decode_all. by destruct f. Qed.

Lemma decoder_bind_ok {A B} (d : decoder A) (k : A -> decoder B) bs x bs' :
  d bs = Ok (x, bs') -> (d ≫= k) bs = k x bs'.
Proof. intros E. unfold mbind, decoder_bind. by rewrite E. Qed.

(** A full list of frontiers leaves the terminator unread. *)
Lemma read_frontiers_serialized n l :
  (length l <= n)%nat -> Forall wf_frontier l ->
  exists rest, read_frontiers n
    (concat (frontier_serialize <$> l) ++ frontier_serialize frontier_default) = Ok (l, rest).
Proof.
  intros Hn Hf. revert n Hn.
  induction Hf as [|f l (Ha & Hh & Hd) _ IH]; intros [|n] Hn; [by eexists| |cbn in Hn; lia|].
  - exists []. cbn [read_frontiers fmap list_fmap concat app].
    erewrite decoder_bind_ok; [|rewrite <- (app_nil_r (frontier_serialize _)); by apply decodes_frontier]. done.
  - destruct (IH n ltac:(cbn in Hn; lia)) as [rest E]. exists rest.
    cbn [read_frontiers fmap list_fmap concat]. rewrite <- (assoc_L (++)).
    erewrite decoder_bind_ok by (by apply decodes_frontier). rewrite decide_False by done.
    by erewrite decoder_bind_ok.
Qed.

Lemma read_blocks_serialized `{Crypto} n l :
  (length l <= n)%nat -> Forall wf_block l ->
  read_blocks n (concat (block_serialize <$> l) ++ [byte_of (block_type_id_u8 IdNotABlock)]) = Ok l.
Proof.
  intros Hn Hf. revert n Hn. induction Hf as [|b l Hb _ IH]; intros n Hn; [by destruct n|].
  destruct n as [|n]; [cbn in Hn; lia|]. cbn [fmap list_fmap concat]. rewrite <- (assoc_L (++)).
  fold (block_serialize <$> l).
  set (rest := concat (block_serialize <$> l) ++ [byte_of (block_type_id_u8 IdNotABlock)]).
  unfold block_serialize. cbn [app read_blocks].
  pose proof (decodes_enum block_type_id_from_u8 block_type_id_u8 InvalidData (block_type_to_id (block_type b))
    ltac:(by destruct b) ltac:(by destruct b) (serialize_without_block_type b ++ rest)) as E.
  cbn [app] in E. rewrite E. cbn [mbind result_bind].
  assert (decodes (block_type ← dec_opt (block_type_try_from (block_type_to_id (block_type b))) InvalidData;
    deserialize_block_type block_type) (serialize_without_block_type b) b) as Hd.
  { apply decodes_opt_bind with (x := block_type b); [by destruct b | by apply decodes_block_type]. }
  specialize (Hd rest). pose proof (IH n ltac:(cbn in Hn; lia)) as E2. fold rest in E2.
  destruct b; cbn [block_type block_type_to_id] in Hd |- *; rewrite Hd; cbn [mbind result_bind]; by rewrite E2.
Qed.

Lemma asc_pull_ack_roundtrip `{Crypto} a :
  wf_asc_pull_ack a -> asc_pull_ack_deserialize (asc_pull_ack_serialize a) = Some (Ok a).
Proof.
  intros (Hi & Hw). unfold asc_pull_ack_deserialize, asc_pull_ack_serialize. rewrite (assoc_L (++)).
  assert (decodes asc_pull_ack_head ([byte_of (payload_id_u8 (ack_payload_type (apa_pull_type a)))] ++
    to_be_bytes 8 (apa_id a)) (ack_payload_type (apa_pull_type a), apa_id a)) as ->.
  { eapply (decodes_bind _ _ [_]); [apply decodes_read_u8; by destruct (apa_pull_type a)|].
    apply decodes_opt_bind with (x := ack_payload_type (apa_pull_type a)); [by destruct (apa_pull_type a)|].
    decode_all. }
  destruct a as [id [[blocks]|p|l]]; cbn [apa_pull_type ack_payload_type serialize_pull_type apa_id bap_blocks] in *.
  - destruct Hw as [Hl Hf]. unfold blocks_ack_deserialize, blocks_ack_serialize.
    cbn [bap_blocks]. rewrite read_blocks_serialized by done. unfold blocks_ack_new.
    by destruct (Nat.ltb_spec MAX_BLOCKS (length blocks)); [lia|].
  - by rewrite (from_slice_decodes _ _ p) by (by apply decodes_account_info_ack).
  - destruct Hw as [Hl Hf]. destruct (read_frontiers_serialized MAX_FRONTIERS l Hl Hf) as [rest E].
    unfold from_slice. by rewrite E.
Qed.

Lemma length_block_serialize_le l :
  (length (concat (block_serialize <$> l)) <= length l * 217)%nat.
Proof.
  induction l as [|b l IH]; [done|]. cbn [fmap list_fmap concat length]. rewrite length_app.
  fold (block_serialize <$> l). unfold block_serialize at 1. cbn [length]. rewrite length_block.
  assert (serialized_block_size (block_type b) <= 216)%nat by (destruct b; cbn; lia). lia.
Qed.

(** The length of the pull messages fits the extension word. *)
Lemma length_asc_pull_ack `{Crypto} a :
  wf_asc_pull_ack a -> 9 <= Z.of_nat (length (asc_pull_ack_serialize a)) < 65536.
Proof.
  intros (_ & Hw). unfold asc_pull_ack_serialize. rewrite !length_app, length_to_be_bytes. cbn [length].
  destruct (apa_pull_type a) as [[blocks]|p|l]; cbn [serialize_pull_type bap_blocks] in *.
  - unfold blocks_ack_serialize. rewrite length_app. cbn [length bap_blocks].
    pose proof (length_block_serialize_le blocks). unfold MAX_BLOCKS in Hw. lia.
  - unfold account_info_ack_serialize. rewrite !length_app, !length_u256_serialize, !length_to_be_bytes. lia.
  - rewrite length_app, (length_concat_const _ 64) by (intros; unfold frontier_serialize; solve_length).
    unfold frontier_serialize. rewrite length_app, !length_u256_serialize. unfold MAX_FRONTIERS in Hw. lia.
Qed.

Lemma length_asc_pull_req r : 9 <= Z.of_nat (length (asc_pull_req_serialize r)) < 65536.
Proof.
  unfold asc_pull_req_serialize. rewrite !length_app, length_to_be_bytes. cbn [length].
  destruct (apr_req_type r) as [p|p|p]; cbn [req_type_serialize];
    unfold blocks_req_serialize, account_info_req_serialize, frontiers_req_serialize;
    rewrite !length_app, length_u256_serialize; cbn [length]; rewrite ?length_to_be_bytes; lia.
Qed.

Lemma asc_pull_size n :
  9 <= Z.of_nat n < 65536 ->
  asc_pull_serialized_size (asc_pull_header_extensions (wrap 16 (Z.of_nat n))) = n /\
  in_u 16 (asc_pull_header_extensions (wrap 16 (Z.of_nat n))).
Proof.
  intros Hn. unfold asc_pull_serialized_size, asc_pull_header_extensions.
  rewrite (wrap_small 16 (Z.of_nat n)) by (unfold in_u; lia).
  rewrite (wrap_small 16 (Z.of_nat n - 1)) by (unfold in_u; lia).
  rewrite wrap_small by (unfold in_u; lia). unfold in_u. lia.
Qed.

Section flags.
Context `{Crypto} `{BitVec} `{!BitVecLaws _}.

Lemma decodes_publish p digest :
  wf_block (pub_block p) ->
  decodes (publish_deserialize (publish_header_extensions p) digest) (publish_serialize p)
    (mkPublish (pub_block p) digest (pub_is_originator p)).
Proof.
  intros Hb. unfold publish_deserialize, publish_serialize. rewrite publish_block_type_id_spec.
  apply decodes_opt_bind with (x := block_type (pub_block p)); [by destruct (pub_block p)|].
  eapply decodes_last; [by apply decodes_block_type|].
  unfold publish_header_extensions. by destruct (pub_block p), (pub_is_originator p).
Qed.

Lemma length_publish p :
  publish_serialized_size (publish_header_extensions p) = length (publish_serialize p).
Proof.
  unfold publish_serialized_size, publish_serialize. rewrite publish_block_type_id_spec, length_block.
  by destruct (pub_block p).
Qed.

Lemma confirm_ack_roundtrip a digest :
  wf_vote (ack_vote a) ->
  confirm_ack_deserialize (confirm_ack_serialize a) (confirm_ack_header_extensions a) digest =
  Some (Ok (mkConfirmAck (ack_vote a) (ack_is_rebroadcasted a) digest)) /\
  confirm_ack_serialized_size (confirm_ack_header_extensions a) = length (confirm_ack_serialize a) /\
  in_u 16 (confirm_ack_header_extensions a).
Proof.
  intros Hv. pose proof (proj2 (proj2 (proj2 (proj2 Hv)))) as Hl. unfold MAX_HASHES in Hl.
  unfold confirm_ack_deserialize, confirm_ack_serialized_size, confirm_ack_serialize.
  rewrite confirm_ack_extensions_spec, vote_deserialize_serialize by done.
  destruct (ack_extensions_ok (Z.of_nat (length (vote_hashes (ack_vote a)))) (ack_is_rebroadcasted a)
    ltac:(lia)) as (Hi & Hc & Hb).
  rewrite Hc, bit_get_spec, Hb, Nat2Z.id, length_vote_serialize by done. split_and!; [|done|done].
  unfold new_with_rebroadcasted_vote, new_with_own_vote.
  destruct (Nat.leb_spec (length (vote_hashes (ack_vote a))) HASHES_MAX); [|unfold HASHES_MAX in *; lia].
  by destruct (ack_is_rebroadcasted a).
Qed.

Lemma decodes_bulk_pull b :
  wf_bulk_pull b ->
  decodes (bulk_pull_deserialize (bulk_pull_header_extensions b)) (bulk_pull_serialize b) b /\
  bulk_pull_serialized_size (bulk_pull_header_extensions b) = length (bulk_pull_serialize b).
Proof.
  intros (Hs & He & Hc). unfold bulk_pull_deserialize, bulk_pull_serialize, bulk_pull_serialized_size.
  unfold bulk_pull_header_extensions, COUNT_PRESENT_FLAG, ASCENDING_FLAG.
  rewrite flags2_spec, !flag2_get by lia. cbn [Z.eqb]. split.
  - do 2 (eapply decodes_bind; [by eauto with codec | cbv beta]).
    apply decodes_last with (x := if 0 <? bp_count b then bp_count b else 0).
    + by apply decodes_if, decodes_extended_count.
    + unfold in_u in Hc. destruct (Z.ltb_spec 0 (bp_count b)); destruct b; cbn in *; [done|]. f_equal. lia.
  - rewrite !length_app, !length_u256_serialize. by destruct (0 <? bp_count b).
Qed.

Lemma decodes_frontier_req f :
  wf_frontier_req f ->
  decodes (frontier_req_deserialize (frontier_req_header_extensions f)) (frontier_req_serialize f) f.
Proof.
  intros (? & ? & ?). unfold frontier_req_deserialize, frontier_req_serialize. decode_all.
  unfold frontier_req_header_extensions, ONLY_CONFIRMED. rewrite bit_set_spec by done.
  rewrite bit_get_spec by (destruct (fr_only_confirmed f); by vm_compute).
  by destruct f as [??? []].
Qed.

Lemma decodes_response r e :
  wf_response r -> handshake_has_v2_flag e = bool_decide (is_Some (resp_v2 r)) ->
  decodes (response_deserialize e) (response_serialize r) r /\
  response_serialized_size e = length (response_serialize r).
Proof.
  intros (Hn & Hs & Hv) Hf. unfold response_deserialize, response_serialize, response_serialized_size.
  rewrite Hf. destruct r as [n s [v2|]]; cbn [resp_node_id resp_signature resp_v2] in *; cbn.
  - destruct (Hv v2 eq_refl) as [Hl Hg]. split.
    + decode_all. by destruct v2.
    + rewrite !length_app, !length_u256_serialize, length_signature_serialize, Hl. done.
  - split; [decode_all|]. by rewrite !length_app, length_u256_serialize, length_signature_serialize.
Qed.

Lemma decodes_handshake h :
  wf_handshake h ->
  decodes (handshake_deserialize (handshake_header_extensions h)) (handshake_serialize h) h /\
  handshake_serialized_size (handshake_header_extensions h) = length (handshake_serialize h).
Proof.
  intros (Hq & Hr). unfold handshake_deserialize, handshake_serialize, handshake_serialized_size.
  assert (handshake_is_query (handshake_header_extensions h) = bool_decide (is_Some (nh_query h)) /\
    handshake_is_response (handshake_header_extensions h) = bool_decide (is_Some (nh_response h)) /\
    handshake_has_v2_flag (handshake_header_extensions h) = nh_is_v2 h) as (Eq & Er & Ev).
  { unfold handshake_is_query, handshake_is_response, handshake_has_v2_flag, handshake_header_extensions,
      QUERY_FLAG, RESPONSE_FLAG, HANDSHAKE_V2_FLAG. by rewrite flags_spec, !flag_get by lia. }
  rewrite Eq, Er, length_app. destruct h as [q r v]; cbn [nh_query nh_response nh_is_v2] in *.
  assert (forall r', r = Some r' -> decodes (response_deserialize (handshake_header_extensions (mkNodeIdHandshake q r v)))
    (response_serialize r') r' /\ response_serialized_size (handshake_header_extensions (mkNodeIdHandshake q r v)) =
    length (response_serialize r')) as Hd.
  { intros r' ->. destruct (Hr r' eq_refl). apply decodes_response; [done|congruence]. }
  split.
  - apply decodes_bind with (x := q).
    + destruct q as [q|]; cbn; [|apply decodes_ret].
      eapply decodes_last; [by apply decodes_read_exact, Hq | by destruct q].
    + apply decodes_last with (x := r); [|by rewrite Ev].
      destruct r as [r|]; cbn -[handshake_header_extensions]; [|apply decodes_ret].
      eapply decodes_last; [by apply Hd | done].
  - f_equal; [destruct q as [q|]; cbn; [by rewrite Hq|done]|].
    destruct r as [r|]; cbn -[handshake_header_extensions]; [by apply Hd|done].
Qed.
End flags.

(** ** The header and the whole message *)

Definition wf_protocol (p : ProtocolInfo) : Prop :=
  in_u 8 (version_using p) /\ in_u 8 (version_max p) /\ in_u 8 (version_min p).

Lemma decodes_header h :
  wf_protocol (hd_protocol h) -> in_u 16 (hd_extensions h) ->
  decodes header_deserialize (header_serialize h) h.
Proof.
  intros (Hu & Hx & Hn) He. unfold header_deserialize, header_serialize.
  eapply decodes_bind; [apply decodes_read_u16_be; by destruct (network (hd_protocol h))|]. cbv beta.
  apply decodes_opt_bind with (x := network (hd_protocol h)); [by destruct (network (hd_protocol h))|].
  do 3 (eapply decodes_bind; [by eauto with codec | cbv beta]).
  eapply decodes_bind; [apply decodes_read_u8; by destruct (hd_message_type h)|]. cbv beta.
  apply decodes_opt_bind with (x := hd_message_type h); [by destruct (hd_message_type h)|].
  eapply decodes_last; [by eauto with codec|]. by destruct h as [? [] ?].
Qed.

Lemma length_header h : length (header_serialize h) = HEADER_SIZE.
Proof. unfold header_serialize. by rewrite !length_app, length_to_be_bytes, length_to_le_bytes. Qed.

(** The header that goes in front of a message. *)
Definition header_of `{BitVec} (p : ProtocolInfo) (m : Message) : MessageHeader :=
  mkMessageHeader (message_type m) p
    (header_extensions m (wrap 16 (Z.of_nat (length (message_serialize m))))).

(** The bytes of a message. *)
Definition wire `{BitVec} (p : ProtocolInfo) (m : Message) : list byte :=
  header_serialize (header_of p m) ++ message_serialize m.

Lemma serializer_wire `{BitVec} m s : (serializer_serialize m s).1 = wire (ms_protocol s) m.
Proof.
  unfold serializer_serialize, wire, header_of, vec_resize. cbn [fst].
  set (head := take HEADER_SIZE (ms_buffer s) ++ replicate (HEADER_SIZE - length (ms_buffer s)) (byte_of 0)).
  assert (length head = HEADER_SIZE) as Hh.
  { unfold head. rewrite length_app, length_take, length_replicate. lia. }
  assert (length (head ++ message_serialize m) - HEADER_SIZE = length (message_serialize m))%nat as ->.
  { rewrite length_app. lia. }
  rewrite <- Hh at 2. rewrite drop_app_length. apply take_ge. rewrite length_app, length_header. lia.
Qed.

Section messages.
Context `{Crypto} `{BitVec} `{!BitVecLaws _}.

(** Every payload: its length is announced, it is read back, and the
    extension word fits its field. *)
Lemma payload_roundtrip p m digest :
  wf_message m ->
  in_u 16 (hd_extensions (header_of p m)) /\
  payload_length (header_of p m) = length (message_serialize m) /\
  message_deserialize (message_serialize m) (header_of p m) digest = Some (Ok (with_digest digest m)).
Proof.
  unfold header_of, payload_length, message_deserialize.
  destruct m as [m|m|m|m|m|m| |m|m|m|m|m|]; intros Hm;
    cbn [wf_message message_type header_extensions message_serialize with_digest hd_extensions hd_message_type] in *.
  - split_and!; [done|by rewrite length_keepalive|].
    by rewrite (from_slice_decodes _ _ m) by (by apply decodes_keepalive).
  - split_and!; [|apply length_publish|by erewrite from_slice_decodes by (by apply decodes_publish)].
    unfold publish_header_extensions. by destruct (pub_block m), (pub_is_originator m); vm_compute.
  - destruct (asc_pull_size _ (length_asc_pull_ack m Hm)). by rewrite asc_pull_ack_roundtrip.
  - destruct (asc_pull_size _ (length_asc_pull_req m)).
    by rewrite (from_slice_decodes _ _ m) by (by apply decodes_asc_pull_req).
  - destruct (decodes_bulk_pull m Hm) as [Hd Hl]. rewrite (from_slice_decodes _ _ m Hd), Hl. split; [|done].
    unfold bulk_pull_header_extensions, COUNT_PRESENT_FLAG, ASCENDING_FLAG. rewrite flags2_spec.
    by destruct (0 <? bp_count m), (bp_ascending m); vm_compute.
  - rewrite (from_slice_decodes _ _ m) by (by apply decodes_bulk_pull_account).
    unfold bulk_pull_account_serialize. by rewrite !length_app, length_u256_serialize, length_amount_serialize.
  - done.
  - destruct (confirm_ack_roundtrip m digest Hm) as (-> & -> & ?). done.
  - pose proof (proj1 Hm) as Hl. destruct (req_extensions_ok (Z.of_nat (length (roots_hashes m))) ltac:(lia)) as (Hi & Hc & Ht).
    rewrite confirm_req_extensions_spec, (confirm_req_roundtrip m) by (done || lia).
    split_and!; [done| |done]. unfold confirm_req_serialized_size. rewrite Ht, Hc, Nat2Z.id, length_confirm_req. done.
  - rewrite (from_slice_decodes _ _ m) by (by apply decodes_frontier_req). split_and!; [| |done].
    + unfold frontier_req_header_extensions. rewrite bit_set_spec by done. by destruct (fr_only_confirmed m).
    + unfold frontier_req_serialize. by rewrite !length_app, length_u256_serialize, !length_to_le_bytes.
  - destruct (decodes_handshake m Hm) as [Hd Hl]. rewrite (from_slice_decodes _ _ m Hd), Hl. split; [|done].
    unfold handshake_header_extensions, QUERY_FLAG, RESPONSE_FLAG, HANDSHAKE_V2_FLAG. rewrite flags_spec.
    by destruct (bool_decide _), (bool_decide _), (nh_is_v2 m); vm_compute.
  - destruct (telemetry_extensions_size m Hm) as [-> ?].
    by rewrite (from_slice_decodes _ _ m) by (by apply decodes_telemetry_ack).
  - done.
Qed.
End messages.
