(* ===== verification/MessageStream.v ===== *)
(** * From bytes to messages (messages/src/message_deserializer.rs,
    network_filter.rs, message.rs)

    The deserializer of a channel collects the bytes that arrive, cuts them
    into messages and hands them out one by one. Publish and confirm-ack
    messages pass a duplicate filter that all channels share; its state is an
    argument and a result of the operations. *)

From S2P Require Import Prelude Types Blocks Codec Votes Messages MessageCodec.

(** ** The duplicate filter (network_filter.rs)

    The hash function is a type parameter of the source (SipHash by
    default); it is an argument here. *)

Record FilterEntry := mkFilterEntry {
  fe_digest : Z;
  fe_epoch : Z;
}.

Definition filter_entry_default : FilterEntry := mkFilterEntry 0 0.

Record NetworkFilter := mkNetworkFilter {
  nf_items : list FilterEntry;
  nf_age_cutoff : Z;
  nf_current_epoch : Z;
}.

Definition nf_with_size (size : nat) : NetworkFilter :=
  mkNetworkFilter (replicate size filter_entry_default) 0 0.

Definition nf_with_items (f : NetworkFilter) (items : list FilterEntry) : NetworkFilter :=
  mkNetworkFilter items (nf_age_cutoff f) (nf_current_epoch f).

Definition nf_update (epoch_inc : Z) (f : NetworkFilter) : NetworkFilter :=
  mkNetworkFilter (nf_items f) (nf_age_cutoff f) (wrap 64 (nf_current_epoch f + epoch_inc)).

Definition nf_compare (f : NetworkFilter) (existing : FilterEntry) (digest : Z) : bool :=
  (fe_digest existing =? digest) &&
  (nf_current_epoch f <=? wrap 64 (fe_epoch existing + nf_age_cutoff f)).

(** [get_element]: the index and the entry; [None] is the division by zero of
    an empty table. *)
Definition get_element (f : NetworkFilter) (hash : Z) : option (nat * FilterEntry) :=
  let index := Z.to_nat (hash mod Z.of_nat (length (nf_items f))) in
  element ← nf_items f !! index;
  Some (index, element).

Definition apply_digest (f : NetworkFilter) (digest : Z) : option (bool * NetworkFilter) :=
  '(index, element) ← get_element f digest;
  let existed := nf_compare f element digest in
  Some (existed,
        if existed then f
        else nf_with_items f (<[index := mkFilterEntry digest (nf_current_epoch f)]> (nf_items f))).

Definition nf_check (f : NetworkFilter) (digest : Z) : option bool :=
  '(_, element) ← get_element f digest;
  Some (nf_compare f element digest).

Definition clear_locked (f : NetworkFilter) (digest : Z) : option NetworkFilter :=
  '(index, element) ← get_element f digest;
  Some (if nf_compare f element digest then nf_with_items f (<[index := filter_entry_default]> (nf_items f))
        else f).

Fixpoint clear_many (f : NetworkFilter) (digests : list Z) : option NetworkFilter :=
  match digests with
  | [] => Some f
  | d :: digests => f ← clear_locked f d; clear_many f digests
  end.

Definition clear_all (f : NetworkFilter) : NetworkFilter :=
  nf_with_items f (replicate (length (nf_items f)) filter_entry_default).

Section hasher.
Context (hash : list byte -> Z).

Definition nf_apply (f : NetworkFilter) (bytes : list byte) : option ((Z * bool) * NetworkFilter) :=
  let digest := hash bytes in
  '(existed, f) ← apply_digest f digest;
  Some ((digest, existed), f).

Definition check_message (f : NetworkFilter) (message : list byte) : option bool := nf_check f (hash message).
Definition clear_bytes (f : NetworkFilter) (bytes : list byte) : option NetworkFilter :=
  clear_locked f (hash bytes).
End hasher.

(** ** Parsing (message.rs) *)

(** The text of [Other] is kept as its bytes. *)
Inductive ParseMessageError :=
  | OtherError (text : list byte)
  | InvalidHeader
  | InvalidMessageType
  | InvalidMessage (t : MessageType)
  | InvalidNetwork
  | OutdatedVersion
  | DuplicatePublishMessage
  | DuplicateConfirmAckMessage
  | MessageSizeTooBig
  | Stopped.

Record DeserializedMessage := mkDeserializedMessage {
  dm_message : Message;
  dm_protocol : ProtocolInfo;
}.

Definition validate_header `{BitVec} (h : MessageHeader) (expected_protocol : ProtocolInfo)
    : result ParseMessageError unit :=
  if negb (bool_decide (network (hd_protocol h) = network expected_protocol)) then Err InvalidNetwork
  else if version_using (hd_protocol h) <? version_min expected_protocol then Err OutdatedVersion
  else if negb (is_valid_message_type h) then Err InvalidHeader
  else if (MAX_MESSAGE_SIZE <? payload_length h)%nat then Err MessageSizeTooBig
  else Ok tt.

(** ** MessageDeserializer (message_deserializer.rs) *)

Record MessageDeserializer := mkMessageDeserializer {
  md_buffer : list byte;
  md_current_header : option MessageHeader;
  md_protocol : ProtocolInfo;
}.

Definition md_new (protocol : ProtocolInfo) : MessageDeserializer := mkMessageDeserializer [] None protocol.

Definition md_push (data : list byte) (d : MessageDeserializer) : MessageDeserializer :=
  mkMessageDeserializer (md_buffer d ++ data) (md_current_header d) (md_protocol d).

Section deserializer.
Context `{Crypto} `{BitVec} (hash : list byte -> Z).

(** What a call gives back: nothing yet, a message, or an error; and the
    shared filter and the deserializer behind it. *)
Abbreviation parse_outcome := (option (result ParseMessageError DeserializedMessage)) (only parsing).

(** [None] is a panic of the filter. *)
Definition filter_duplicate_messages (filter : option NetworkFilter) (t : MessageType)
    (payload : list byte) : option (result ParseMessageError Z * option NetworkFilter) :=
  match t, filter with
  | TyPublish, Some f | TyConfirmAck, Some f =>
      '((digest, existed), f) ← nf_apply hash f payload;
      Some (if existed : bool then
              (if bool_decide (t = TyConfirmAck) then Err DuplicateConfirmAckMessage
               else Err DuplicatePublishMessage)
            else Ok digest, Some f)
  | _, _ => Some (Ok 0, filter)
  end.

(** [None] is a panic: in [drain], in the filter or in a constructor. *)
Definition deserialize_payload_for (h : MessageHeader) (filter : option NetworkFilter)
    (d : MessageDeserializer)
    : option (result ParseMessageError DeserializedMessage * option NetworkFilter * MessageDeserializer) :=
  if (length (md_buffer d) <? payload_length h)%nat then None
  else
    let payload := take (payload_length h) (md_buffer d) in
    let d := mkMessageDeserializer (drop (payload_length h) (md_buffer d)) (md_current_header d) (md_protocol d) in
    '(digest, filter) ← filter_duplicate_messages filter (hd_message_type h) payload;
    match digest with
    | Err e => Some (Err e, filter, d)
    | Ok digest =>
        r ← message_deserialize payload h digest;
        Some (match r with
              | Ok message => Ok (mkDeserializedMessage message (hd_protocol h))
              | Err _ => Err (InvalidMessage (hd_message_type h))
              end, filter, d)
    end.

Definition try_deserialize_payload_for (h : MessageHeader) (filter : option NetworkFilter)
    (d : MessageDeserializer) : option (parse_outcome * option NetworkFilter * MessageDeserializer) :=
  if (0 <? payload_length h)%nat && (length (md_buffer d) <? payload_length h)%nat then
    Some (None, filter, d)
  else
    '(r, filter, d) ←
      deserialize_payload_for h filter (mkMessageDeserializer (md_buffer d) None (md_protocol d));
    Some (Some r, filter, d).

Definition read_header_bytes (d : MessageDeserializer) : option (list byte * MessageDeserializer) :=
  if (length (md_buffer d) <? HEADER_SIZE)%nat then None
  else Some (take HEADER_SIZE (md_buffer d),
             mkMessageDeserializer (drop HEADER_SIZE (md_buffer d)) (md_current_header d) (md_protocol d)).

Definition deserialize_header_and_payload (filter : option NetworkFilter) (d : MessageDeserializer)
    : option (parse_outcome * option NetworkFilter * MessageDeserializer) :=
  match read_header_bytes d with
  | None => Some (None, filter, d)
  | Some (header_bytes, d) =>
      match from_slice header_deserialize header_bytes with
      | Err _ => Some (Some (Err InvalidHeader), filter, d)
      | Ok header =>
          match validate_header header (md_protocol d) with
          | Err e => Some (Some (Err e), filter, d)
          | Ok _ =>
              try_deserialize_payload_for header filter
                (mkMessageDeserializer (md_buffer d) (Some header) (md_protocol d))
          end
      end
  end.

Definition try_deserialize (filter : option NetworkFilter) (d : MessageDeserializer)
    : option (parse_outcome * option NetworkFilter * MessageDeserializer) :=
  match md_current_header d with
  | Some header => try_deserialize_payload_for header filter d
  | None => deserialize_header_and_payload filter d
  end.

(** [while let Some(result) = try_deserialize()]: everything that can be read
    from the bytes received so far. *)
Fixpoint drain (fuel : nat) (filter : option NetworkFilter) (d : MessageDeserializer)
    : run (list (result ParseMessageError DeserializedMessage) * option NetworkFilter * MessageDeserializer) :=
  match fuel with
  | O => Running
  | S fuel =>
      match try_deserialize filter d with
      | None => Panicked
      | Some (None, filter, d) => Finished ([], filter, d)
      | Some (Some r, filter, d) =>
          '(rs, filter, d) ← drain fuel filter d;
          Finished (r :: rs, filter, d)
      end
  end.

(** Each round but the last takes a byte off the buffer or a header out of it. *)
Definition drain_fuel (d : MessageDeserializer) : nat := S (S (length (md_buffer d))).

Definition drain_all (filter : option NetworkFilter) (d : MessageDeserializer)
    : run (list (result ParseMessageError DeserializedMessage) * option NetworkFilter * MessageDeserializer) :=
  drain (drain_fuel d) filter d.

(** The packets of a channel, one after the other. *)
Fixpoint feed (packets : list (list byte)) (filter : option NetworkFilter) (d : MessageDeserializer)
    : run (list (result ParseMessageError DeserializedMessage) * option NetworkFilter * MessageDeserializer) :=
  match packets with
  | [] => Finished ([], filter, d)
  | data :: packets =>
      '(rs, filter, d) ← drain_all filter (md_push data d);
      '(rs', filter, d) ← feed packets filter d;
      Finished (rs ++ rs', filter, d)
  end.
End deserializer.

(** A sequence of messages through one serializer, whose buffer is reused. *)
Fixpoint serialize_all `{BitVec} (ms : list Message) (s : MessageSerializer) : list (list byte) :=
  match ms with
  | [] => []
  | m :: ms => let '(bytes, s) := serializer_serialize m s in bytes :: serialize_all ms s
  end.

(** ** No payload makes a reader panic *)

Definition filter_ok (f : option NetworkFilter) : Prop :=
  match f with Some f => nf_items f <> [] | None => True end.

Lemma get_element_ok f hash : nf_items f <> [] -> is_Some (get_element f hash).
Proof.
  intros Hf. unfold get_element.
  assert (0 < Z.of_nat (length (nf_items f))) by (destruct (nf_items f); [done|cbn [length]; lia]).
  pose proof (Z.mod_pos_bound hash (Z.of_nat (length (nf_items f))) ltac:(lia)).
  destruct (lookup_lt_is_Some_2 (nf_items f) (Z.to_nat (hash mod Z.of_nat (length (nf_items f)))))
    as [e ->]; [lia|by eexists].
Qed.

Lemma apply_digest_ok f digest :
  nf_items f <> [] -> exists b f', apply_digest f digest = Some (b, f') /\ nf_items f' <> [].
Proof.
  intros Hf. unfold apply_digest. destruct (get_element_ok f digest Hf) as [[i e] ->]. cbn.
  eexists _, _. split; [done|]. destruct (nf_compare f e digest); [done|]. cbn.
  intros E%(f_equal length). rewrite length_insert in E. by destruct (nf_items f).
Qed.

Lemma length_read_vote_hashes n bs hs rest :
  read_vote_hashes n bs = Ok (hs, rest) -> (length hs <= n)%nat.
Proof.
  revert bs hs rest. induction n as [|n IH]; intros bs hs rest; [by intros [= <- _]|].
  destruct bs as [|b bs]; [intros [= <- _]; cbn; lia|]. cbn [read_vote_hashes].
  destruct (u256_deserialize (b :: bs)) as [[h r]|]; [|done].
  destruct (read_vote_hashes n r) as [[hs' r']|] eqn:E; [|done]. intros [= <- _]. apply IH in E. cbn. lia.
Qed.

Lemma vote_deserialize_length bs v :
  vote_deserialize bs = Ok v -> (length (vote_hashes v) <= MAX_HASHES)%nat.
Proof.
  unfold vote_deserialize, mbind, result_bind. intros E. repeat case_match; simplify_eq.
  match goal with E : read_vote_hashes _ _ = Ok ?h |- _ => destruct h; by eapply length_read_vote_hashes end.
Qed.

Lemma length_read_times {A} n (d : decoder A) bs l rest : read_times n d bs = Ok (l, rest) -> length l = n.
Proof.
  revert bs l rest. induction n as [|n IH]; intros bs l rest; [by intros [= <- _]|]. cbn [read_times].
  unfold mbind, decoder_bind. destruct (d bs) as [[x bs']|]; [|done].
  destruct (read_times n d bs') as [[l' r]|] eqn:E; [|done]. intros [= <- _]. cbn. f_equal. by eapply IH.
Qed.

Lemma confirm_count_u8 e : 0 <= confirm_count e < 256.
Proof.
  unfold confirm_count, v1_count, v2_count. destruct (has_v2_flag e); apply (wrap_in_u 8); lia.
Qed.

Lemma confirm_req_deserialize_total bs e : is_Some (confirm_req_deserialize bs e).
Proof.
  unfold confirm_req_deserialize, from_slice, deserialize_roots. unfold mbind, decoder_bind.
  destruct (read_times _ _ bs) as [[l r]|] eqn:E; [|by eexists]. apply length_read_times in E.
  pose proof (confirm_count_u8 e).
  destruct (_ || _); [by eexists|]. cbn. unfold confirm_req_new.
  match goal with |- context [(255 <? length ?k)%nat] => pose proof (length_filter _ l : (length k <= length l)%nat) end.
  destruct (Nat.ltb_spec 255 (length (filter (fun p => negb (u256_is_zero p.1) || negb (u256_is_zero p.2)) l))); [lia|by eexists].
Qed.

Lemma length_read_blocks `{Crypto} n bs l : read_blocks n bs = Ok l -> (length l <= n)%nat.
Proof.
  revert bs l. induction n as [|n IH]; intros [|b bs] l; cbn [read_blocks].
  1,3: intros [= <-]; cbn; lia.
  all: unfold mbind, result_bind; intros E; repeat case_match; simplify_eq/=; try lia.
  all: match goal with E : read_blocks _ _ = Ok _, IH : forall _, _ |- _ => apply IH in E; lia end.
Qed.

Lemma message_deserialize_total `{Crypto} `{BitVec} payload h digest :
  is_Some (message_deserialize payload h digest).
Proof.
  unfold message_deserialize. destruct (hd_message_type h); try (by eexists).
  - destruct (confirm_req_deserialize_total payload (hd_extensions h)) as [r ->]. by eexists.
  - unfold confirm_ack_deserialize. destruct (vote_deserialize payload) as [v|e] eqn:E; [|by eexists].
    apply vote_deserialize_length in E. unfold new_with_rebroadcasted_vote, new_with_own_vote.
    destruct (Nat.leb_spec (length (vote_hashes v)) HASHES_MAX); [|unfold HASHES_MAX, MAX_HASHES in *; lia].
    destruct (bit_get _ _); by eexists.
  - unfold asc_pull_ack_deserialize. destruct (asc_pull_ack_head payload) as [[[[] id] bs]|]; try (by eexists).
    unfold blocks_ack_deserialize. destruct (read_blocks MAX_BLOCKS bs) as [l|] eqn:E; [|by eexists].
    apply length_read_blocks in E. unfold blocks_ack_new.
    destruct (Nat.ltb_spec MAX_BLOCKS (length l)); [lia|by eexists].
Qed.
