(* ===== verification/FilterTheorems.v ===== *)
(** * The duplicate filter drops only what was seen, and does drop it
    (messages/src/network_filter.rs) *)

From S2P Require Import Prelude Types Messages MessageStream.

(** The operations of the filter, in the order in which the channels and the
    epoch timer get hold of its lock. *)
Inductive FilterOp :=
  | OpApply (digest : Z)
  | OpUpdate (epoch_inc : Z)
  | OpClear (digest : Z)
  | OpClearMany (digests : list Z)
  | OpClearAll.

Definition filter_step (f : NetworkFilter) (op : FilterOp) : option NetworkFilter :=
  match op with
  | OpApply d => snd <$> apply_digest f d
  | OpUpdate n => Some (nf_update n f)
  | OpClear d => clear_locked f d
  | OpClearMany ds => clear_many f ds
  | OpClearAll => Some (clear_all f)
  end.

Fixpoint filter_run (ops : list FilterOp) (f : NetworkFilter) : option NetworkFilter :=
  match ops with
  | [] => Some f
  | op :: ops => f ← filter_step f op; filter_run ops f
  end.

(** ** The table entry of a digest *)

Definition slot (f : NetworkFilter) (digest : Z) : nat :=
  Z.to_nat (digest mod Z.of_nat (length (nf_items f))).

Lemma get_element_spec f digest :
  nf_items f <> [] -> exists e, nf_items f !! slot f digest = Some e /\ get_element f digest = Some (slot f digest, e).
Proof.
  intros Hf. destruct (get_element_ok f digest Hf) as [[i e] E]. unfold get_element in *. fold (slot f digest) in *.
  destruct (nf_items f !! slot f digest) as [e'|]; [|done]. by exists e'.
Qed.

(** Slots of different residues are different. *)
Lemma slot_ne f d d' :
  nf_items f <> [] -> d mod Z.of_nat (length (nf_items f)) <> d' mod Z.of_nat (length (nf_items f)) ->
  slot f d <> slot f d'.
Proof.
  intros Hf Hne E. unfold slot in E.
  assert (0 < Z.of_nat (length (nf_items f))) by (destruct (nf_items f); [done|cbn [length]; lia]).
  pose proof (Z.mod_pos_bound d (Z.of_nat (length (nf_items f)))).
  pose proof (Z.mod_pos_bound d' (Z.of_nat (length (nf_items f)))). lia.
Qed.

(** What every operation keeps: the size of the table and the age limit. *)
Definition same_shape (f f' : NetworkFilter) : Prop :=
  length (nf_items f') = length (nf_items f) /\ nf_age_cutoff f' = nf_age_cutoff f.

(** The digests of the table come from [seen] or are the initial zero. *)
Definition only_seen (seen : list Z) (f : NetworkFilter) : Prop :=
  Forall (fun e => fe_digest e = 0 \/ fe_digest e ∈ seen) (nf_items f).

Lemma non_empty_shape f f' : nf_items f <> [] -> same_shape f f' -> nf_items f' <> [].
Proof. intros Hf [Hl _] E. rewrite E in Hl. by destruct (nf_items f). Qed.

Lemma apply_digest_spec f d :
  nf_items f <> [] ->
  exists e, nf_items f !! slot f d = Some e /\
    apply_digest f d = Some (nf_compare f e d,
      if nf_compare f e d then f
      else nf_with_items f (<[slot f d := mkFilterEntry d (nf_current_epoch f)]> (nf_items f))).
Proof.
  intros Hf. destruct (get_element_spec f d Hf) as (e & He & E). exists e. split; [done|].
  unfold apply_digest. rewrite E. done.
Qed.

Lemma clear_locked_spec f d :
  nf_items f <> [] ->
  exists e, nf_items f !! slot f d = Some e /\
    clear_locked f d = Some (if nf_compare f e d then
      nf_with_items f (<[slot f d := filter_entry_default]> (nf_items f)) else f).
Proof.
  intros Hf. destruct (get_element_spec f d Hf) as (e & He & E). exists e. split; [done|].
  unfold clear_locked. rewrite E. done.
Qed.

Lemma nf_with_items_shape f i e : same_shape f (nf_with_items f (<[i := e]> (nf_items f))).
Proof. split; [apply length_insert|done]. Qed.

Lemma clear_locked_seen seen f d :
  nf_items f <> [] -> only_seen seen f ->
  exists f', clear_locked f d = Some f' /\ same_shape f f' /\ only_seen seen f'.
Proof.
  intros Hf Hs. destruct (clear_locked_spec f d Hf) as (e & _ & ->). eexists. split; [done|].
  destruct (nf_compare f e d); [|done]. split; [apply nf_with_items_shape|]. apply Forall_insert; [done|by left].
Qed.

Lemma clear_many_seen seen f ds :
  nf_items f <> [] -> only_seen seen f ->
  exists f', clear_many f ds = Some f' /\ same_shape f f' /\ only_seen seen f'.
Proof.
  revert f. induction ds as [|d ds IH]; intros f Hf Hs; [by exists f|]. cbn [clear_many].
  destruct (clear_locked_seen seen f d Hf Hs) as (f1 & -> & Hsh & Hs1). cbn.
  destruct (IH f1) as (f2 & -> & [Hl2 Hc2] & Hs2); [by eapply non_empty_shape|done|].
  exists f2. destruct Hsh. split_and!; [done|split; congruence|done].
Qed.

Definition applied (ops : list FilterOp) : list Z :=
  omap (fun op => match op with OpApply d => Some d | _ => None end) ops.

Lemma filter_step_seen seen f op :
  nf_items f <> [] -> only_seen seen f ->
  exists f', filter_step f op = Some f' /\ same_shape f f' /\ only_seen (seen ++ applied [op]) f'.
Proof.
  intros Hf Hs.
  assert (forall l, only_seen (seen ++ l) f) as Hs'.
  { intros l. eapply Forall_impl; [exact Hs|]. cbn. intros e [?|?]; [by left|right; apply elem_of_app; by left]. }
  destruct op as [d|n|d|ds|]; cbn [filter_step applied omap list_omap]; rewrite ?app_nil_r.
  - destruct (apply_digest_spec f d Hf) as (e & _ & ->). eexists. split; [done|]. cbn [snd].
    destruct (nf_compare f e d); [by split|]. split; [apply nf_with_items_shape|].
    apply Forall_insert; [apply Hs'|]. right. cbn. set_solver.
  - by eexists.
  - by apply clear_locked_seen.
  - by apply clear_many_seen.
  - eexists. split; [done|]. split; [split; [apply length_replicate|done]|].
    apply Forall_replicate. by left.
Qed.

Lemma filter_run_seen seen ops f :
  nf_items f <> [] -> only_seen seen f ->
  exists f', filter_run ops f = Some f' /\ same_shape f f' /\ only_seen (seen ++ applied ops) f'.
Proof.
  revert seen f. induction ops as [|op ops IH]; intros seen f Hf Hs.
  { exists f. by rewrite app_nil_r. }
  cbn [filter_run]. destruct (filter_step_seen seen f op Hf Hs) as (f1 & -> & Hsh & Hs1). cbn [mbind option_bind].
  destruct (IH _ f1 ltac:(by eapply non_empty_shape) Hs1) as (f2 & -> & [Hl2 Hc2] & Hs2).
  exists f2. destruct Hsh. split_and!; [done|split; congruence|].
  rewrite <- (assoc_L (++)) in Hs2. replace (applied (op :: ops)) with (applied [op] ++ applied ops); [done|].
  unfold applied. cbn. by destruct op.
Qed.

Lemma only_seen_mono seen seen' f : seen ⊆ seen' -> only_seen seen f -> only_seen seen' f.
Proof. intros Hs Hf. eapply Forall_impl; [exact Hf|]. intros e [?|?]; [by left|right; by apply Hs]. Qed.

(** ** A deserializer with or without a filter *)

Definition shared_step (op : FilterOp) (f : option NetworkFilter) : option (option NetworkFilter) :=
  match f with Some f => Some <$> filter_step f op | None => Some None end.

Definition seen_by (seen : list Z) (f : option NetworkFilter) : Prop :=
  match f with Some f => only_seen seen f | None => True end.

Lemma seen_some f : exists seen, seen_by seen f.
Proof.
  destruct f as [f|]; [|by exists []]. exists (fe_digest <$> nf_items f). apply Forall_forall. intros e He. right.
  by apply list_elem_of_fmap_2.
Qed.

Lemma shared_step_ok seen op f :
  filter_ok f -> seen_by seen f ->
  exists f', shared_step op f = Some f' /\ filter_ok f' /\ seen_by (seen ++ applied [op]) f' /\ (is_Some f' <-> is_Some f).
Proof.
  destruct f as [f|]; [|by exists None]. intros Hf Hs. destruct (filter_step_seen seen f op Hf Hs) as (f' & E & Hsh & Hs').
  exists (Some f'). cbn. rewrite E. split; [done|]. split; [by eapply non_empty_shape|]. split; [done|]. by split; eexists.
Qed.

(** A digest is a duplicate only if it was seen, and afterwards it is seen. *)
Lemma apply_digest_seen seen f d :
  nf_items f <> [] -> only_seen seen f ->
  exists existed f', apply_digest f d = Some (existed, f') /\ nf_items f' <> [] /\ only_seen (d :: seen) f' /\
    (existed = true -> d = 0 \/ d ∈ seen).
Proof.
  intros Hf Hs. destruct (apply_digest_spec f d Hf) as (e & He & ->). eexists _, _. split; [done|].
  assert (only_seen (d :: seen) f) as Hs' by (eapply only_seen_mono; [|done]; set_solver).
  destruct (nf_compare f e d) eqn:Ec.
  - split; [done|]. split; [done|]. intros _. unfold nf_compare in Ec. apply andb_true_iff in Ec as [Ec%Z.eqb_eq _].
    apply (Forall_lookup_1 _ _ _ _ Hs) in He. by rewrite Ec in He.
  - split; [by eapply non_empty_shape; [|apply nf_with_items_shape]|]. split; [|done].
    apply Forall_insert; [done|]. right. by left.
Qed.

(** ** A digest stays in its slot *)

(** Operations that leave the slot of [d] alone in a table of [size] entries. *)
Definition spares (size : nat) (d : Z) (op : FilterOp) : Prop :=
  match op with
  | OpApply d' => d' = d \/ d' mod Z.of_nat size <> d mod Z.of_nat size
  | OpUpdate n => 0 <= n
  | OpClear d' => d' <> d
  | OpClearMany ds => d ∉ ds
  | OpClearAll => False
  end.

Definition epochs (ops : list FilterOp) : Z :=
  zsum (omap (fun op => match op with OpUpdate n => Some n | _ => None end) ops).

(** [d] was entered at epoch [at_epoch] and is still within the age limit for
    [left_] more epochs. *)
Definition remembers (f : NetworkFilter) (d at_epoch left_ : Z) : Prop :=
  nf_items f !! slot f d = Some (mkFilterEntry d at_epoch) /\ 0 <= at_epoch /\ 0 <= left_ /\ 0 <= nf_current_epoch f /\
  at_epoch + nf_age_cutoff f < 2 ^ 64 /\ nf_current_epoch f + left_ <= at_epoch + nf_age_cutoff f.

Lemma remembers_check f d t n : nf_items f <> [] -> remembers f d t n -> nf_check f d = Some true.
Proof.
  intros Hf (Hi & Ht & Hn & He & Hw & Hle). unfold nf_check.
  destruct (get_element_spec f d Hf) as (e & He' & ->). rewrite Hi in He'. simplify_eq. cbn [mbind option_bind].
  unfold nf_compare. cbn [fe_digest fe_epoch]. rewrite Z.eqb_refl.
  rewrite wrap_small by (unfold in_u; lia). f_equal. apply Z.leb_le. lia.
Qed.

Lemma remembers_insert f d t n i e :
  i <> slot f d -> remembers f d t n -> remembers (nf_with_items f (<[i := e]> (nf_items f))) d t n.
Proof.
  intros Hi (Hl & H). split; [|done]. unfold slot. cbn. rewrite length_insert. fold (slot f d).
  by rewrite list_lookup_insert_ne.
Qed.

Lemma remembers_clear f d t n d' :
  nf_items f <> [] -> d' <> d -> remembers f d t n ->
  exists f', clear_locked f d' = Some f' /\ same_shape f f' /\ remembers f' d t n.
Proof.
  intros Hf Hd Hr. destruct (clear_locked_spec f d' Hf) as (e & He & ->). eexists. split; [done|].
  destruct (nf_compare f e d') eqn:Ec; [|done]. split; [apply nf_with_items_shape|].
  apply remembers_insert; [|done]. intros E. rewrite E in He. destruct Hr as [Hi _]. rewrite Hi in He. simplify_eq.
  unfold nf_compare in Ec. cbn in Ec. destruct (Z.eqb_spec d d'); [by subst|done].
Qed.

Lemma remembers_clear_many f d t n ds :
  nf_items f <> [] -> d ∉ ds -> remembers f d t n ->
  exists f', clear_many f ds = Some f' /\ same_shape f f' /\ remembers f' d t n.
Proof.
  revert f. induction ds as [|d' ds IH]; intros f Hf Hd Hr; [by exists f|]. cbn [clear_many].
  apply not_elem_of_cons in Hd as [Hd Hds].
  destruct (remembers_clear f d t n d' Hf ltac:(congruence) Hr) as (f1 & -> & Hsh & Hr1). cbn.
  destruct (IH f1) as (f2 & -> & [Hl2 Hc2] & Hr2); [by eapply non_empty_shape|done|done|].
  exists f2. destruct Hsh. split_and!; [done|split; congruence|done].
Qed.

Lemma remembers_step f d t n op :
  nf_items f <> [] -> spares (length (nf_items f)) d op -> epochs [op] <= n -> remembers f d t n ->
  exists f', filter_step f op = Some f' /\ same_shape f f' /\ remembers f' d t (n - epochs [op]).
Proof.
  intros Hf Hs Hn Hr. destruct op as [d'|m|d'|ds|]; cbn [spares filter_step] in *;
    unfold epochs in *; cbn in Hn |- *; rewrite ?Z.sub_0_r.
  - destruct (apply_digest_spec f d' Hf) as (e & He & ->). eexists. split; [done|]. cbn [snd].
    destruct (nf_compare f e d') eqn:Ec; [by split|]. destruct Hs as [->|Hs].
    + exfalso. pose proof (remembers_check f d t n Hf Hr) as E. unfold nf_check in E.
      destruct (get_element_spec f d Hf) as (e' & He' & E'). rewrite E' in E. cbn in E. simplify_eq. congruence.
    + split; [apply nf_with_items_shape|]. apply remembers_insert; [|done]. by apply slot_ne.
  - eexists. split; [done|]. split; [done|]. destruct Hr as (Hi & Ht & Hl & He & Hw & Hle).
    unfold remembers, nf_update. cbn. rewrite wrap_small by (unfold in_u; lia). split_and!; try done; lia.
  - by apply remembers_clear.
  - by apply remembers_clear_many.
  - done.
Qed.

Lemma remembers_run f d t n ops :
  nf_items f <> [] -> Forall (spares (length (nf_items f)) d) ops -> epochs ops <= n -> remembers f d t n ->
  exists f', filter_run ops f = Some f' /\ nf_check f' d = Some true.
Proof.
  revert f n. induction ops as [|op ops IH]; intros f n Hf Hs Hn Hr.
  { exists f. split; [done|]. by eapply remembers_check. }
  apply Forall_cons in Hs as [Hop Hops].
  assert (epochs (op :: ops) = epochs [op] + epochs ops) as Ee
    by (unfold epochs; cbn; destruct op; cbn; lia).
  assert (0 <= epochs ops).
  { clear -Hops. unfold epochs. induction Hops as [|o l Ho _ IHl]; [done|]. cbn. destruct o; cbn in *; lia. }
  destruct (remembers_step f d t n op Hf Hop ltac:(lia) Hr) as (f1 & E1 & Hsh & Hr1).
  cbn [filter_run]. rewrite E1. cbn [mbind option_bind]. apply (IH f1 (n - epochs [op])); [by eapply non_empty_shape| |lia|exact Hr1].
  destruct Hsh as [-> _]. done.
Qed.

(** A filter of any size above zero, used by all channels in any order,
    never panics and reports a digest as seen only if it was handed to it
    before (or is the digest 0 of an empty entry); and a digest it has
    entered is reported as a duplicate from then on, until another digest
    takes its slot, it is cleared, or it becomes older than the age limit. *)
Theorem filter_correct (size : nat) (age_cutoff : Z) (ops : list FilterOp) (d : Z) :
  (0 < size)%nat -> 0 <= age_cutoff ->
  exists f, filter_run ops (mkNetworkFilter (replicate size filter_entry_default) age_cutoff 0) = Some f /\
    (nf_check f d = Some true -> d = 0 \/ OpApply d ∈ ops) /\
    forall f' ops', apply_digest f d = Some (false, f') ->
      0 <= nf_current_epoch f -> nf_current_epoch f + age_cutoff < 2 ^ 64 ->
      Forall (spares size d) ops' -> epochs ops' <= age_cutoff ->
      exists f'', filter_run ops' f' = Some f'' /\ nf_check f'' d = Some true.
Proof.
  intros Hsize Hc. set (f0 := mkNetworkFilter _ _ _).
  assert (nf_items f0 <> []) as Hf0 by (cbn; destruct size; [lia|done]).
  destruct (filter_run_seen [] ops f0 Hf0) as (f & E & Hsh & Hs).
  { apply Forall_replicate. by left. }
  pose proof (non_empty_shape _ _ Hf0 Hsh) as Hf. destruct Hsh as [Hl Hcut]. cbn in Hl, Hcut. rewrite length_replicate in Hl.
  exists f. split_and!; [done| |].
  - intros Hd. unfold nf_check in Hd. destruct (get_element_spec f d Hf) as (e & He & E'). rewrite E' in Hd.
    cbn [mbind option_bind] in Hd. injection Hd as Hd. unfold nf_compare in Hd. apply andb_true_iff in Hd as [Hd _].
    apply Z.eqb_eq in Hd. apply (Forall_lookup_1 _ _ _ _ Hs) in He. rewrite Hd in He. cbn in He.
    destruct He as [?|He]; [by left|right]. apply list_elem_of_omap in He as (op & Hop & Eop). by destruct op; simplify_eq.
  - intros f' ops' Ha H0 Hw Hops Hn. destruct (apply_digest_spec f d Hf) as (e & He & Ea). rewrite Ea in Ha.
    destruct (nf_compare f e d); simplify_eq. eapply (remembers_run _ d (nf_current_epoch f) (nf_age_cutoff f)).
    + eapply non_empty_shape; [exact Hf|apply nf_with_items_shape].
    + cbn. by rewrite length_insert.
    + done.
    + split_and!; cbn; [|lia..]. unfold slot. cbn. rewrite length_insert. fold (slot f d).
      apply list_lookup_insert_eq. by eapply lookup_lt_Some.
Qed.

Lemma filter_correct_witness :
  exists f'', filter_run [OpApply 5; OpUpdate 2; OpClear 9]
    (mkNetworkFilter [mkFilterEntry 8 1; filter_entry_default; filter_entry_default; mkFilterEntry 7 1] 3 1) = Some f''
  /\ nf_check f'' 7 = Some true.
Proof.
  destruct (filter_correct 4 3 [OpApply 3; OpUpdate 1; OpClear 3; OpApply 8] 7) as (f & E & _ & Hd); [lia|done|].
  vm_compute in E. injection E as <-.
  refine (Hd _ [OpApply 5; OpUpdate 2; OpClear 9] _ _ _ _ _).
  - by vm_compute.
  - by vm_compute.
  - by vm_compute.
  - repeat constructor; vm_compute; (right + idtac); done.
  - by vm_compute.
Defined.
