(* ===== verification/StreamTheorems.v ===== *)
(** * What the message stream guarantees

    Parsing is total on every input and independent of how the bytes are cut
    into packets; what one node serializes the other one gets, in order,
    except for messages the duplicate filter has seen before. *)

From S2P Require Import Prelude Types Blocks Codec Votes Messages MessageCodec MessageStream.
From S2P Require Import FilterTheorems.

(** What happens to the duplicate filter, which all channels share: a message
    of this channel is read, or somebody else uses it. *)
Inductive FilterUse :=
  | OwnRead
  | Others (op : FilterOp).

Definition others (h : list FilterUse) : list FilterOp :=
  omap (fun u => match u with Others op => Some op | OwnRead => None end) h.

Section stream.
Context `{Crypto} `{BitVec} (hash : list byte -> Z).

(** ** One step of the deserializer *)

(** Nothing more can be read until bytes arrive. *)
Definition quiet (d : MessageDeserializer) : Prop :=
  match md_current_header d with
  | Some h => (length (md_buffer d) < payload_length h)%nat
  | None => (length (md_buffer d) < HEADER_SIZE)%nat
  end.

(** The rounds [while let] may still make. *)
Definition rounds (d : MessageDeserializer) : nat :=
  length (md_buffer d) + match md_current_header d with Some _ => 1 | None => 0 end.

(** A pending header passed [validate_header]. *)
Definition header_valid (d : MessageDeserializer) : Prop :=
  forall h, md_current_header d = Some h -> validate_header h (md_protocol d) = Ok tt.

Lemma filter_duplicate_total filter t payload :
  filter_ok filter ->
  exists r filter', filter_duplicate_messages hash filter t payload = Some (r, filter') /\ filter_ok filter'.
Proof.
  intros Hf. unfold filter_duplicate_messages, nf_apply.
  destruct filter as [f|]; [|destruct t; by eexists _, _].
  destruct (apply_digest_ok f (hash payload) Hf) as (b & f' & E & Hf'). cbn in *.
  destruct t; try (by eexists _, (Some f)); rewrite E; cbn; by eexists _, (Some f').
Qed.

(** With its payload in the buffer, a message is taken out completely; what
    comes behind the payload does not matter. *)
Lemma payload_step h filter payload :
  filter_ok filter -> length payload = payload_length h ->
  exists r filter', filter_ok filter' /\ (forall m, r = Ok m -> dm_protocol m = hd_protocol h) /\
    forall rest c protocol,
      deserialize_payload_for hash h filter (mkMessageDeserializer (payload ++ rest) c protocol) =
      Some (r, filter', mkMessageDeserializer rest c protocol).
Proof.
  intros Hf Hl. destruct (filter_duplicate_total filter (hd_message_type h) payload Hf) as (r & filter' & E & Hf').
  assert (exists r' : result ParseMessageError DeserializedMessage,
    (forall m, r' = Ok m -> dm_protocol m = hd_protocol h) /\ forall d : MessageDeserializer,
    match r with
    | Err e => Some (Err e, filter', d)
    | Ok digest => r ← message_deserialize payload h digest;
        Some (match r with
              | Ok message => Ok (mkDeserializedMessage message (hd_protocol h))
              | Err _ => Err (InvalidMessage (hd_message_type h))
              end, filter', d)
    end = Some (r', filter', d)) as (r' & Hp & Hr).
  { destruct r as [digest|e]; [|by exists (Err e)].
    destruct (message_deserialize_total payload h digest) as [[m|e] ->]; cbn; eexists; (split; [|done]).
    all: by intros ? [= <-]. }
  exists r', filter'. split_and!; [done|done|]. intros rest c protocol. unfold deserialize_payload_for.
  cbn [md_buffer md_current_header md_protocol]. rewrite <- Hl, length_app.
  destruct (Nat.ltb_spec (length payload + length rest) (length payload)); [lia|].
  rewrite take_app_length, drop_app_length, E. apply Hr.
Qed.

(** A deserializer with a validated header, before its payload is complete. *)
Definition pending (h : MessageHeader) (protocol : ProtocolInfo) (buffer : list byte) : MessageDeserializer :=
  mkMessageDeserializer buffer (Some h) protocol.

(** With the header known, the call waits, or it reads the message and
    whatever follows stays in the buffer. *)
Lemma payload_cases h filter buffer protocol :
  filter_ok filter ->
  ((length buffer < payload_length h)%nat /\ forall c,
    try_deserialize_payload_for hash h filter (mkMessageDeserializer buffer c protocol) =
    Some (None, filter, mkMessageDeserializer buffer c protocol)) \/
  (exists payload rest r filter', buffer = payload ++ rest /\ filter_ok filter' /\
    (forall m, r = Ok m -> dm_protocol m = hd_protocol h) /\
    forall data c, try_deserialize_payload_for hash h filter (mkMessageDeserializer (buffer ++ data) c protocol) =
      Some (Some r, filter', mkMessageDeserializer (rest ++ data) None protocol)).
Proof.
  intros Hf. unfold try_deserialize_payload_for. cbn [md_buffer md_protocol].
  destruct (Nat.ltb_spec (length buffer) (payload_length h)) as [Hlt|Hge].
  - left. split; [done|]. intros c. destruct (Nat.ltb_spec 0 (payload_length h)); [done|lia].
  - right. destruct (payload_step h filter (take (payload_length h) buffer) Hf) as (r & filter' & Hf' & Hp & Hr).
    { rewrite length_take. lia. }
    exists (take (payload_length h) buffer), (drop (payload_length h) buffer), r, filter'.
    split_and!; [by rewrite take_drop|done|done|]. intros data c.
    destruct (Nat.ltb_spec (length (buffer ++ data)) (payload_length h)); [rewrite length_app in *; lia|].
    rewrite andb_false_r. rewrite <- (take_drop (payload_length h) buffer) at 1. rewrite <- (assoc_L (++)).
    rewrite Hr. done.
Qed.

(** Messages are only accepted from the own network and a current version. *)
Definition accepted_by (p : ProtocolInfo) (r : result ParseMessageError DeserializedMessage) : Prop :=
  forall m, r = Ok m ->
    network (dm_protocol m) = network p /\ version_min p <= version_using (dm_protocol m).

Lemma validate_header_spec h p :
  validate_header h p = Ok tt ->
  network (hd_protocol h) = network p /\ version_min p <= version_using (hd_protocol h) /\
  (payload_length h <= MAX_MESSAGE_SIZE)%nat.
Proof.
  unfold validate_header. intros E. repeat case_match; simplify_eq.
  rewrite negb_false_iff, bool_decide_eq_true in *. split_and!; [done|lia|].
  by apply Nat.ltb_ge.
Qed.

(** A call that has to wait changes nothing that a later call would see. *)
Definition waits (filter : option NetworkFilter) (d d' : MessageDeserializer) : Prop :=
  try_deserialize hash filter d = Some (None, filter, d') /\ quiet d' /\ header_valid d' /\
  md_protocol d' = md_protocol d /\
  forall data filter', try_deserialize hash filter' (md_push data d) = try_deserialize hash filter' (md_push data d').

(** A call that gives a result is not influenced by later bytes. *)
Definition yields (filter : option NetworkFilter) (d : MessageDeserializer)
    (r : result ParseMessageError DeserializedMessage) (filter' : option NetworkFilter)
    (d' : MessageDeserializer) : Prop :=
  (rounds d' < rounds d)%nat /\ filter_ok filter' /\ header_valid d' /\ md_protocol d' = md_protocol d /\
  accepted_by (md_protocol d) r /\
  forall data, try_deserialize hash filter (md_push data d) = Some (Some r, filter', md_push data d').

Lemma md_push_nil d : md_push [] d = d.
Proof. destruct d. unfold md_push. cbn. by rewrite app_nil_r. Qed.

Lemma accepted_by_header h p (r : result ParseMessageError DeserializedMessage) :
  validate_header h p = Ok tt -> (forall m, r = Ok m -> dm_protocol m = hd_protocol h) -> accepted_by p r.
Proof. intros (? & ? & _)%validate_header_spec Hr m Hm. by rewrite (Hr m Hm). Qed.

(** The call once the header is known. *)
Lemma try_pending h filter buffer protocol :
  filter_ok filter -> validate_header h protocol = Ok tt ->
  let d := pending h protocol buffer in
  waits filter d d \/ exists r filter' d', yields filter d r filter' d'.
Proof.
  intros Hf Hh d. destruct (payload_cases h filter buffer protocol Hf)
    as [[Hlt E]|(payload & rest & r & filter' & -> & Hf' & Hp & E)].
  - left. split_and!; try done; [apply E|]. by intros ? [= <-].
  - right. exists r, filter', (mkMessageDeserializer rest None protocol).
    split_and!; try done; [unfold rounds; cbn; rewrite length_app; lia| |].
    + by eapply accepted_by_header.
    + intros data. apply E.
Qed.

(** The call at the beginning of a message. *)
Lemma try_fresh filter buffer protocol :
  filter_ok filter ->
  let d := mkMessageDeserializer buffer None protocol in
  (exists d', waits filter d d') \/ exists r filter' d', yields filter d r filter' d'.
Proof.
  intros Hf d. destruct (Nat.ltb_spec (length buffer) HEADER_SIZE) as [Hlt|Hge].
  { left. exists d. split_and!; try done. unfold d, try_deserialize, deserialize_header_and_payload, read_header_bytes.
    cbn [md_buffer md_current_header]. apply Nat.ltb_lt in Hlt. by rewrite Hlt. }
  set (head := take HEADER_SIZE buffer). set (rest := drop HEADER_SIZE buffer).
  assert (buffer = head ++ rest) as Eb by (symmetry; apply take_drop).
  assert (length head = HEADER_SIZE) as Hlen by (unfold head; rewrite length_take; lia).
  clearbody head rest.
  assert (forall data filter, try_deserialize hash filter (md_push data d) =
    match from_slice header_deserialize head with
    | Err _ => Some (Some (Err InvalidHeader), filter, mkMessageDeserializer (rest ++ data) None protocol)
    | Ok header => match validate_header header protocol with
      | Err e => Some (Some (Err e), filter, mkMessageDeserializer (rest ++ data) None protocol)
      | Ok _ => try_deserialize hash filter (md_push data (pending header protocol rest))
      end
    end) as Estep.
  { intros data filter''. unfold d, md_push, try_deserialize, deserialize_header_and_payload, read_header_bytes.
    cbn [md_buffer md_current_header md_protocol pending]. rewrite Eb, <- (assoc_L (++)).
    destruct (Nat.ltb_spec (length (head ++ rest ++ data)) HEADER_SIZE); [rewrite length_app in *; lia|].
    rewrite <- Hlen, take_app_length, drop_app_length. done. }
  assert (forall e, accepted_by protocol (Err e)) as Ha by (by intros e m).
  assert (rounds (mkMessageDeserializer rest None protocol) < rounds d)%nat as Hr.
  { unfold rounds, d. cbn. rewrite Eb, length_app. unfold HEADER_SIZE in *. lia. }
  destruct (from_slice header_deserialize head) as [h|e];
    [|right; eexists _, filter, (mkMessageDeserializer rest None protocol); by split_and!].
  destruct (validate_header h protocol) as [[]|e] eqn:Ev;
    [|right; eexists _, filter, (mkMessageDeserializer rest None protocol); by split_and!].
  destruct (try_pending h filter rest protocol Hf Ev) as [(E & ? & ? & ? & Hw)|(r & filter' & d' & Hd & ? & ? & ? & ? & Hy)].
  - left. exists (pending h protocol rest). split_and!; try done. by rewrite <- (md_push_nil d), Estep, md_push_nil.
  - right. exists r, filter', d'. split_and!; try done.
    + unfold rounds, pending, d in *. cbn in *. rewrite Eb, length_app. unfold HEADER_SIZE in *. lia.
    + intros data. by rewrite Estep.
Qed.

(** Every call succeeds. *)
Lemma try_total filter d :
  filter_ok filter -> header_valid d ->
  (exists d', waits filter d d') \/ exists r filter' d', yields filter d r filter' d'.
Proof.
  intros Hf Hv. destruct d as [buffer [h|] protocol]; [|by apply try_fresh].
  destruct (try_pending h filter buffer protocol Hf (Hv h eq_refl)); [left; by eexists|by right].
Qed.

(** ** Reading everything there is *)

Lemma quiet_try filter d : quiet d -> try_deserialize hash filter d = Some (None, filter, d).
Proof.
  unfold quiet, try_deserialize. destruct (md_current_header d) as [h|]; intros Hq.
  - unfold try_deserialize_payload_for.
    destruct (Nat.ltb_spec 0 (payload_length h)); [|lia].
    by destruct (Nat.ltb_spec (length (md_buffer d)) (payload_length h)); [|lia].
  - unfold deserialize_header_and_payload, read_header_bytes.
    by destruct (Nat.ltb_spec (length (md_buffer d)) HEADER_SIZE); [|lia].
Qed.

Lemma drain_mono n m filter d x :
  (n <= m)%nat -> drain hash n filter d = Finished x -> drain hash m filter d = Finished x.
Proof.
  revert m filter d x. induction n as [|n IH]; intros [|m] filter d x Hnm; [done|done|lia|]. cbn [drain].
  destruct (try_deserialize hash filter d) as [[[[r|] f'] d']|]; try done.
  destruct (drain hash n f' d') as [[[rs f''] d'']| |] eqn:E; try done.
  by rewrite (IH m f' d' _ ltac:(lia) E).
Qed.

Lemma drain_det n m filter d x y :
  drain hash n filter d = Finished x -> drain hash m filter d = Finished y -> x = y.
Proof.
  intros E1%(drain_mono n (n `max` m)) E2%(drain_mono m (n `max` m)); [congruence|lia..].
Qed.

Lemma drain_try_eq n filter d d' :
  try_deserialize hash filter d = try_deserialize hash filter d' -> drain hash n filter d = drain hash n filter d'.
Proof. intros E. destruct n as [|n]; [done|]. cbn [drain]. by rewrite E. Qed.

Lemma drain_total n filter d :
  filter_ok filter -> header_valid d -> (rounds d < n)%nat ->
  exists rs filter' d', drain hash n filter d = Finished (rs, filter', d') /\
    filter_ok filter' /\ header_valid d' /\ quiet d' /\ md_protocol d' = md_protocol d /\
    Forall (accepted_by (md_protocol d)) rs.
Proof.
  revert filter d. induction n as [|n IH]; intros filter d Hf Hv Hn; [lia|]. cbn [drain].
  destruct (try_total filter d Hf Hv) as [(d' & -> & ? & ? & ? & _)|(r & f' & d' & Hd & Hf' & Hv' & Hp & Ha & Hy)].
  - by eexists [], filter, d'.
  - specialize (Hy []). rewrite !md_push_nil in Hy. rewrite Hy.
    destruct (IH f' d' Hf' Hv' ltac:(lia)) as (rs & f'' & d'' & -> & ? & ? & ? & Hp' & Hfa).
    eexists (r :: rs), f'', d''. split_and!; try done; [congruence|]. constructor; [done|]. by rewrite <- Hp.
Qed.

(** Reading, then receiving more bytes and reading on is reading it all at the end. *)
Lemma drain_app n m filter d data rs f1 d1 rs' f2 d2 :
  filter_ok filter -> header_valid d ->
  drain hash n filter d = Finished (rs, f1, d1) ->
  drain hash m f1 (md_push data d1) = Finished (rs', f2, d2) ->
  drain hash (n + m) filter (md_push data d) = Finished (rs ++ rs', f2, d2).
Proof.
  revert filter d rs. induction n as [|n IH]; intros filter d rs Hf Hv; [done|]. cbn [drain].
  destruct (try_total filter d Hf Hv) as [(d' & -> & _ & _ & _ & Hw)|(r & f' & d' & _ & Hf' & Hv' & _ & _ & Hy)].
  - intros [= <- <- <-] Hm. rewrite (drain_try_eq _ _ _ _ (Hw data filter)).
    eapply drain_mono; [|exact Hm]. lia.
  - pose proof (Hy []) as Hy0. rewrite !md_push_nil in Hy0. rewrite Hy0.
    destruct (drain hash n f' d') as [[[rs1 f3] d3]| |] eqn:E; [|done|done]. intros [= <- <- <-] Hm.
    change (S n + m)%nat with (S (n + m)). cbn [drain]. rewrite Hy.
    by rewrite (IH f' d' rs1 Hf' Hv' E Hm).
Qed.

Lemma rounds_drain_fuel d : (rounds d < drain_fuel d)%nat.
Proof. unfold rounds, drain_fuel. destruct (md_current_header d); lia. Qed.

(** How the bytes are cut into packets does not matter. *)
Lemma feed_concat packets filter d :
  filter_ok filter -> header_valid d -> quiet d ->
  feed hash packets filter d = drain_all hash filter (md_push (concat packets) d) /\
  exists rs filter' d', feed hash packets filter d = Finished (rs, filter', d') /\
    filter_ok filter' /\ header_valid d' /\ quiet d' /\ md_protocol d' = md_protocol d /\
    Forall (accepted_by (md_protocol d)) rs.
Proof.
  revert filter d. induction packets as [|data packets IH]; intros filter d Hf Hv Hq; cbn [feed concat].
  { rewrite md_push_nil. unfold drain_all, drain_fuel. cbn [drain]. rewrite quiet_try by done.
    split; [done|]. by eexists [], filter, d. }
  destruct (drain_total (drain_fuel (md_push data d)) filter (md_push data d) Hf Hv (rounds_drain_fuel _))
    as (rs & f1 & d1 & E1 & Hf1 & Hv1 & Hq1 & Hp1 & Ha1).
  destruct (IH f1 d1 Hf1 Hv1 Hq1) as [Eq (rs' & f2 & d2 & E2 & Hf2 & Hv2 & Hq2 & Hp2 & Ha2)].
  assert (feed hash (data :: packets) filter d = Finished (rs ++ rs', f2, d2)) as E.
  { cbn [feed]. unfold drain_all. rewrite E1. cbn [mbind run_bind]. by rewrite E2. }
  cbn [feed] in E. rewrite E. cbn [md_push md_protocol] in *. split.
  - rewrite E2 in Eq. symmetry in Eq.
    pose proof (drain_app _ _ _ (md_push data d) _ _ _ _ _ _ _ Hf Hv E1 Eq) as E3.
    destruct (drain_total (drain_fuel (md_push (data ++ concat packets) d)) filter (md_push (data ++ concat packets) d)
      Hf Hv (rounds_drain_fuel _)) as (rs3 & f3 & d3 & E4 & _).
    assert (md_push (concat packets) (md_push data d) = md_push (data ++ concat packets) d) as Ep.
    { unfold md_push. cbn. by rewrite (assoc_L (++)). }
    rewrite Ep in E3. unfold drain_all. rewrite E4. by rewrite (drain_det _ _ _ _ _ _ E3 E4).
  - eexists (rs ++ rs'), f2, d2. split_and!; try done; [congruence|].
    apply Forall_app_2; [done|]. by rewrite <- Hp1.
Qed.

(** ** Reading with a shared filter *)

(** The messages read from [d], with the uses of the filter in the order [h];
    [None] if there are not that many messages. *)
Fixpoint replay (h : list FilterUse) (filter : option NetworkFilter) (d : MessageDeserializer)
    : option (list (result ParseMessageError DeserializedMessage) * option NetworkFilter * MessageDeserializer) :=
  match h with
  | [] => Some ([], filter, d)
  | OwnRead :: h =>
      match try_deserialize hash filter d with
      | Some (Some r, filter, d) => '(rs, filter, d) ← replay h filter d; Some (r :: rs, filter, d)
      | _ => None
      end
  | Others op :: h => filter ← shared_step op filter; replay h filter d
  end.

(** The packets of a channel, each after what the others do to the filter. *)
Fixpoint feed_shared (packets : list (list FilterOp * list byte)) (filter : option NetworkFilter) (d : MessageDeserializer)
    : run (list (result ParseMessageError DeserializedMessage) * option NetworkFilter * MessageDeserializer) :=
  match packets with
  | [] => Finished ([], filter, d)
  | (ops, data) :: packets =>
      '(_, filter, d) ← unwrap (replay (Others <$> ops) filter d);
      '(rs, filter, d) ← drain_all hash filter (md_push data d);
      '(rs', filter, d) ← feed_shared packets filter d;
      Finished (rs ++ rs', filter, d)
  end.

(** Nothing that arrives later tells the two apart. *)
Definition same_reading (d d' : MessageDeserializer) : Prop :=
  forall data filter, try_deserialize hash filter (md_push data d) = try_deserialize hash filter (md_push data d').

#[export] Instance same_reading_sym : Symmetric same_reading.
Proof. intros d d' Hs data f. by rewrite Hs. Qed.

Lemma waits_same filter d d' : waits filter d d' -> same_reading d d'.
Proof. intros (_ & _ & _ & _ & Hw) data f. apply Hw. Qed.

Lemma md_push_push a b d : md_push b (md_push a d) = md_push (a ++ b) d.
Proof. unfold md_push. cbn. by rewrite (assoc_L (++)). Qed.

Lemma same_push data d d' : same_reading d d' -> same_reading (md_push data d) (md_push data d').
Proof. intros Hs more f. rewrite !md_push_push. apply Hs. Qed.

Lemma same_try filter d d' : same_reading d d' -> try_deserialize hash filter d = try_deserialize hash filter d'.
Proof. intros Hs. specialize (Hs [] filter). by rewrite !md_push_nil in Hs. Qed.

Lemma replay_app h h' f d rs f1 d1 rs' f2 d2 :
  replay h f d = Some (rs, f1, d1) -> replay h' f1 d1 = Some (rs', f2, d2) ->
  replay (h ++ h') f d = Some (rs ++ rs', f2, d2).
Proof.
  intros E1 E2. revert f d rs E1. induction h as [|[|op] h IH]; intros f d rs; cbn [replay app].
  - by intros [= <- -> ->].
  - destruct (try_deserialize hash f d) as [[[[r|] f3] d3]|]; [|done|done].
    destruct (replay h f3 d3) as [[[rs3 f4] d4]|] eqn:E; [|done]. intros [= <- -> ->]. by rewrite (IH _ _ _ E).
  - destruct (shared_step op f) as [f3|]; [|done]. apply IH.
Qed.

(** Later bytes do not change what has been read. *)
Lemma replay_push h f d rs f' d' :
  filter_ok f -> header_valid d -> replay h f d = Some (rs, f', d') ->
  filter_ok f' /\ header_valid d' /\ forall data, replay h f (md_push data d) = Some (rs, f', md_push data d').
Proof.
  revert f d rs. induction h as [|[|op] h IH]; intros f d rs Hf Hv; cbn [replay].
  - by intros [= <- <- <-].
  - destruct (try_total f d Hf Hv) as [(d1 & -> & _)|(r & f1 & d1 & _ & Hf1 & Hv1 & _ & _ & Hy)]; [done|].
    pose proof (Hy []) as Hy0. rewrite !md_push_nil in Hy0. rewrite Hy0.
    destruct (replay h f1 d1) as [[[rs1 f2] d2]|] eqn:E; [|done]. intros [= <- <- <-].
    destruct (IH _ _ _ Hf1 Hv1 E) as (? & ? & Hp). split; [done|]. split; [done|]. intros data. by rewrite Hy, Hp.
  - destruct (seen_some f) as [seen Hs]. destruct (shared_step_ok seen op f Hf Hs) as (f1 & -> & Hf1 & _). by apply IH.
Qed.

Lemma replay_same h f d d1 rs f' d' :
  same_reading d d1 -> replay h f d = Some (rs, f', d') ->
  exists d1', replay h f d1 = Some (rs, f', d1') /\ same_reading d' d1'.
Proof.
  revert f rs. induction h as [|[|op] h IH]; intros f rs Hs; cbn [replay].
  - intros [= <- <- <-]. by exists d1.
  - rewrite (same_try f _ _ Hs). intros E. by exists d'.
  - destruct (shared_step op f) as [f1|]; [|done]. by apply IH.
Qed.

Lemma replay_others ops f :
  filter_ok f -> exists f', filter_ok f' /\ forall d, replay (Others <$> ops) f d = Some ([], f', d).
Proof.
  revert f. induction ops as [|op ops IH]; intros f Hf; [by exists f|]. cbn [fmap list_fmap replay].
  destruct (seen_some f) as [seen Hs]. destruct (shared_step_ok seen op f Hf Hs) as (f1 & -> & Hf1 & _). by apply IH.
Qed.

Lemma drain_replay n f d rs f' d' :
  filter_ok f -> header_valid d -> drain hash n f d = Finished (rs, f', d') ->
  exists d1, replay (replicate (length rs) OwnRead) f d = Some (rs, f', d1) /\ waits f' d1 d'.
Proof.
  revert f d rs. induction n as [|n IH]; intros f d rs Hf Hv; [done|]. cbn [drain].
  destruct (try_total f d Hf Hv) as [(d1 & Hw)|(r & f1 & d1 & _ & Hf1 & Hv1 & _ & _ & Hy)].
  - pose proof Hw as (-> & _). intros [= <- <- <-]. by exists d.
  - specialize (Hy []). rewrite !md_push_nil in Hy. rewrite Hy.
    destruct (drain hash n f1 d1) as [[[rs1 f2] d2]| |] eqn:E; [|done|done]. intros [= <- <- <-].
    destruct (IH _ _ _ Hf1 Hv1 E) as (d3 & E3 & Hw). exists d3. split; [|done]. cbn [length replicate replay]. by rewrite Hy, E3.
Qed.

Lemma replay_drain h n f d rs f1 d1 rs' f2 d2 :
  others h = [] -> replay h f d = Some (rs, f1, d1) -> drain hash n f1 d1 = Finished (rs', f2, d2) ->
  drain hash (length rs + n) f d = Finished (rs ++ rs', f2, d2).
Proof.
  intros Ho E1 E2. revert f d rs E1. induction h as [|[|op] h IH]; intros f d rs; cbn [replay]; [|specialize (IH Ho)|done].
  - by intros [= <- -> ->].
  - destruct (try_deserialize hash f d) as [[[[r|] f3] d3]|] eqn:E; [|done|done].
    destruct (replay h f3 d3) as [[[rs3 f4] d4]|] eqn:E4; [|done]. intros [= <- -> ->].
    cbn [length Nat.add drain app]. rewrite E. by rewrite (IH _ _ _ E4).
Qed.

Lemma others_app h h' : others (h ++ h') = others h ++ others h'.
Proof. apply omap_app. Qed.

Lemma others_only ops : others (Others <$> ops) = ops.
Proof. induction ops as [|op ops IH]; [done|]. cbn. by f_equal. Qed.

Lemma others_own n : others (replicate n OwnRead) = [].
Proof. by induction n. Qed.

(** How the bytes are cut into packets does not matter with a shared filter
    either: what is read is what the same uses of the filter give on all the
    bytes in one piece. *)
Lemma feed_shared_replay packets filter d :
  filter_ok filter -> header_valid d -> quiet d ->
  exists h rs filter' d' d1, feed_shared packets filter d = Finished (rs, filter', d') /\
    replay h filter (md_push (concat packets.*2) d) = Some (rs, filter', d1) /\ others h = concat packets.*1 /\
    same_reading d1 d' /\ quiet d'.
Proof.
  revert filter d. induction packets as [|[ops data] packets IH]; intros filter d Hf Hv Hq; cbn [feed_shared fmap list_fmap concat fst snd].
  { exists [], [], filter, d, d. by rewrite md_push_nil. }
  destruct (replay_others ops filter Hf) as (f1 & Hf1 & E1). rewrite E1. cbn [unwrap mbind run_bind]. unfold drain_all.
  destruct (drain_total (drain_fuel (md_push data d)) f1 (md_push data d) Hf1 Hv (rounds_drain_fuel _))
    as (rs & f2 & d2 & E2 & Hf2 & Hv2 & Hq2 & _).
  rewrite E2. cbn [mbind run_bind].
  destruct (drain_replay _ _ (md_push data d) _ _ _ Hf1 Hv E2) as (d3 & E3 & Hw).
  destruct (IH f2 d2 Hf2 Hv2 Hq2) as (h & rs' & f4 & d4 & d5 & E4 & E5 & Ho & Hs & Hq4). rewrite E4. cbn [mbind run_bind].
  destruct (replay_same _ _ _ (md_push (concat packets.*2) d3) _ _ _ (same_push _ _ _ (symmetry (waits_same _ _ _ Hw))) E5) as (d6 & E6 & Hs6).
  destruct (replay_push _ _ (md_push data d) _ _ _ Hf1 Hv E3) as (_ & _ & E7). specialize (E7 (concat packets.*2)). rewrite md_push_push in E7.
  exists ((Others <$> ops) ++ replicate (length rs) OwnRead ++ h), (rs ++ rs'), f4, d4, d6. split; [done|]. split.
  { eapply (replay_app _ _ _ _ [] _ _ (rs ++ rs')); [apply E1|]. by eapply replay_app. }
  rewrite !others_app, others_only, others_own, Ho. split; [done|]. split; [|done].
  intros more f. by rewrite <- Hs6.
Qed.

(** The length check of [validate_header] never fires: no header can announce
    more than the largest message. *)
Lemma payload_length_le h : in_u 16 (hd_extensions h) -> (payload_length h <= MAX_MESSAGE_SIZE)%nat.
Proof using.
  intros He. unfold payload_length, in_u in *.
  assert (forall t, serialized_block_size t <= 216)%nat as Hb by (intros []; cbn; lia).
  assert (216 <= MAX_MESSAGE_SIZE)%nat by (unfold MAX_MESSAGE_SIZE; lia).
  destruct (hd_message_type h); try lia; try (unfold MAX_MESSAGE_SIZE; cbn; lia).
  - unfold publish_serialized_size. case_match; [|lia]. specialize (Hb b). lia.
  - unfold confirm_req_serialized_size. pose proof (confirm_count_u8 (hd_extensions h)).
    unfold MAX_MESSAGE_SIZE in *. repeat case_match; try lia. specialize (Hb b). lia.
  - unfold confirm_ack_serialized_size, vote_serialized_size, MAX_MESSAGE_SIZE.
    pose proof (confirm_count_u8 (hd_extensions h)). lia.
  - unfold bulk_pull_serialized_size, EXTENDED_PARAMETERS_SIZE. case_match; lia.
  - unfold handshake_serialized_size, response_serialized_size. repeat case_match; lia.
  - unfold telemetry_ack_serialized_size, MAX_MESSAGE_SIZE. change TELEMETRY_SIZE_MASK with (Z.ones 10).
    rewrite Z.land_ones by done. pose proof (Z.mod_pos_bound (hd_extensions h) (2 ^ 10) ltac:(lia)). lia.
Qed.

(** What the receiver gets for a message of a sender on [p]. *)
Definition received (p : ProtocolInfo) (m : Message) : result ParseMessageError DeserializedMessage :=
  Ok (mkDeserializedMessage (with_digest 0 m) p).

(** Sender and receiver fit together. *)
Definition compatible (sender receiver : ProtocolInfo) : Prop :=
  wf_protocol sender /\ network sender = network receiver /\ version_min receiver <= version_using sender.

Context `{!BitVecLaws _}.

(** What the filter makes of a message. *)
Definition filter_result (ps : ProtocolInfo) (m : Message) (digest : result ParseMessageError Z)
    : result ParseMessageError DeserializedMessage :=
  match digest with
  | Ok digest => Ok (mkDeserializedMessage (with_digest digest m) ps)
  | Err e => Err e
  end.

Lemma wire_try ps pr m filter rest :
  compatible ps pr -> wf_message m ->
  try_deserialize hash filter (mkMessageDeserializer (wire ps m ++ rest) None pr) =
  '(digest, filter) ← filter_duplicate_messages hash filter (message_type m) (message_serialize m);
  Some (Some (filter_result ps m digest), filter, mkMessageDeserializer rest None pr).
Proof.
  intros (Hp & Hn & Hv) Hm. destruct (payload_roundtrip ps m 0 Hm) as (He & Hl & _).
  unfold try_deserialize, deserialize_header_and_payload, read_header_bytes, wire.
  cbn [md_current_header md_buffer md_protocol]. rewrite <- (assoc_L (++)).
  pose proof (length_header (header_of ps m)) as Hh.
  destruct (Nat.ltb_spec (length (header_serialize (header_of ps m) ++ message_serialize m ++ rest)) HEADER_SIZE);
    [rewrite length_app in *; lia|].
  rewrite <- Hh, take_app_length, drop_app_length.
  rewrite (from_slice_decodes _ _ (header_of ps m)) by (by apply decodes_header). cbn [md_protocol].
  assert (validate_header (header_of ps m) pr = Ok tt) as ->.
  { unfold validate_header. rewrite bool_decide_true by done. cbn [negb].
    destruct (Z.ltb_spec (version_using (hd_protocol (header_of ps m))) (version_min pr)); [cbn in *; lia|].
    assert (is_valid_message_type (header_of ps m) = true) as -> by (by destruct m). cbn [negb].
    pose proof (payload_length_le _ He). by destruct (Nat.ltb_spec MAX_MESSAGE_SIZE (payload_length (header_of ps m))); [lia|]. }
  unfold try_deserialize_payload_for, deserialize_payload_for. cbn [md_buffer md_current_header md_protocol].
  rewrite Hl, length_app. destruct (Nat.ltb_spec (length (message_serialize m) + length rest) (length (message_serialize m))); [lia|].
  rewrite andb_false_r, take_app_length, drop_app_length.
  change (hd_message_type (header_of ps m)) with (message_type m).
  destruct (filter_duplicate_messages hash filter (message_type m) (message_serialize m)) as [[[digest|e] filter']|]; [|done|done].
  cbn [mbind option_bind]. destruct (payload_roundtrip ps m digest Hm) as (_ & _ & ->). done.
Qed.

(** ** Messages without a filter *)

Lemma wire_try_unfiltered ps pr m rest :
  compatible ps pr -> wf_message m ->
  try_deserialize hash None (mkMessageDeserializer (wire ps m ++ rest) None pr) =
  Some (Some (received ps m), None, mkMessageDeserializer rest None pr).
Proof. intros Hc Hm. rewrite wire_try by done. by destruct m. Qed.

Lemma drain_wire ps pr ms n rest rs f d :
  compatible ps pr -> Forall wf_message ms ->
  drain hash n None (mkMessageDeserializer rest None pr) = Finished (rs, f, d) ->
  drain hash (length ms + n) None (mkMessageDeserializer (concat (wire ps <$> ms) ++ rest) None pr) =
  Finished ((received ps <$> ms) ++ rs, f, d).
Proof.
  intros Hc Hms Hr. induction Hms as [|m ms Hm _ IH]; [done|].
  cbn [length fmap list_fmap concat Nat.add drain]. rewrite <- (assoc_L (++)), wire_try_unfiltered by done.
  fold (wire ps <$> ms). by rewrite IH.
Qed.

(** A message that has not arrived completely gives nothing. *)
Lemma partial_wire ps pr m filter part suffix :
  compatible ps pr -> wf_message m -> filter_ok filter -> wire ps m = part ++ suffix -> suffix <> [] ->
  exists d, waits filter (mkMessageDeserializer part None pr) d.
Proof.
  intros Hc Hm Hf Hw Hs.
  destruct (try_total filter (mkMessageDeserializer part None pr)) as [?|(r & f & d & _ & _ & _ & _ & _ & Hy)];
    [done|by intros ?|done|].
  specialize (Hy suffix).
  change (md_push suffix (mkMessageDeserializer part None pr))
    with (mkMessageDeserializer (part ++ suffix) None pr) in Hy. rewrite <- Hw in Hy.
  pose proof (wire_try ps pr m filter [] Hc Hm) as E. rewrite app_nil_r in E. rewrite E in Hy.
  destruct (filter_duplicate_messages hash filter (message_type m) (message_serialize m)) as [[digest f']|]; [|done].
  injection Hy as _ _ Hd. symmetry in Hd. by apply app_eq_nil in Hd as [_ ?].
Qed.

(** ** Messages through the filter *)

Definition filtered (m : Message) : bool :=
  match message_type m with TyPublish | TyConfirmAck => true | _ => false end.

Definition duplicate_error (m : Message) : ParseMessageError :=
  if bool_decide (message_type m = TyConfirmAck) then DuplicateConfirmAckMessage else DuplicatePublishMessage.

(** What the receiver gets for a message of a sender on [ps]: the message, or
    the error for a duplicate, but only if there is a filter that applies to
    the message and its digest was seen before (or is the zero of an empty
    entry of the filter). *)
Definition arrived (filtering : bool) (ps : ProtocolInfo) (seen : list Z) (m : Message)
    (r : result ParseMessageError DeserializedMessage) : Prop :=
  let digest := hash (message_serialize m) in
  r = Ok (mkDeserializedMessage (with_digest (if filtering && filtered m then digest else 0) m) ps) \/
  filtering && filtered m = true /\ r = Err (duplicate_error m) /\ (digest = 0 \/ digest ∈ seen).

Definition seen_after (seen : list Z) (m : Message) : list Z :=
  if filtered m then hash (message_serialize m) :: seen else seen.

(** One result for each message. *)
Fixpoint arrivals (filtering : bool) (ps : ProtocolInfo) (seen : list Z) (ms : list Message)
    (rs : list (result ParseMessageError DeserializedMessage)) : Prop :=
  match ms, rs with
  | [], [] => True
  | m :: ms, r :: rs => arrived filtering ps seen m r /\ arrivals filtering ps (seen_after seen m) ms rs
  | _, _ => False
  end.

Lemma arrived_mono filtering ps seen seen' m r :
  seen ⊆ seen' -> arrived filtering ps seen m r -> arrived filtering ps seen' m r.
Proof. intros Hs [?|(? & ? & [?|?])]; [by left|right; by auto..]. Qed.

Lemma filter_message ps filter seen m :
  filter_ok filter -> seen_by seen filter ->
  exists digest filter', filter_duplicate_messages hash filter (message_type m) (message_serialize m) = Some (digest, filter') /\
    filter_ok filter' /\ seen_by (seen_after seen m) filter' /\ bool_decide (is_Some filter') = bool_decide (is_Some filter) /\
    arrived (bool_decide (is_Some filter)) ps seen m (filter_result ps m digest).
Proof.
  intros Hf Hs. unfold arrived, seen_after, duplicate_error, filter_duplicate_messages, nf_apply.
  destruct (filtered m) eqn:Em.
  2:{ rewrite andb_false_r. exists (Ok 0), filter. split; [|split; [done|split; [done|split; [done|by left]]]].
      unfold filtered in Em. by destruct (message_type m). }
  destruct filter as [f|].
  2:{ exists (Ok 0), None. split; [by destruct (message_type m)|]. split; [done|split; [done|split; [done|by left]]]. }
  destruct (apply_digest_seen seen f (hash (message_serialize m)) Hf Hs) as (existed & f' & E & Hf' & Hs' & He).
  exists (if existed then Err (duplicate_error m) else Ok (hash (message_serialize m))), (Some f'). split.
  { unfold filtered in Em. unfold duplicate_error. destruct (message_type m); try done; rewrite E; by destruct existed. }
  split; [done|]. split; [done|]. split; [done|]. destruct existed; [right|by left]. split; [done|]. split; [done|by apply He].
Qed.

(** Complete messages followed by a part of another one: when nothing more can
    be read, there is one result for each of them. *)
Lemma replay_wire ps pr m part suffix h ms filter seen rs filter' d d' :
  compatible ps pr -> wf_message m -> wire ps m = part ++ suffix -> suffix <> [] -> Forall wf_message ms ->
  filter_ok filter -> seen_by seen filter ->
  replay h filter (mkMessageDeserializer (concat (wire ps <$> ms) ++ part) None pr) = Some (rs, filter', d) ->
  same_reading d d' -> quiet d' ->
  arrivals (bool_decide (is_Some filter)) ps (seen ++ applied (others h)) ms rs.
Proof.
  intros Hc Hm Hw Hsuf. revert ms filter seen rs. induction h as [|[|op] h IH]; intros ms filter seen rs Hms Hf Hs; cbn [replay].
  - intros [= <- <- <-] Hd Hq. destruct Hms as [|m1 ms Hm1 _]; [done|]. exfalso.
    pose proof (same_try filter _ _ Hd) as E. rewrite (quiet_try _ _ Hq) in E. cbn [fmap list_fmap concat] in E.
    rewrite <- (assoc_L (++)), wire_try in E by done. destruct (filter_message ps filter seen m1 Hf Hs) as (g & f' & E' & _). by rewrite E' in E.
  - intros E Hd Hq. destruct Hms as [|m1 ms Hm1 Hms].
    { exfalso. destruct (partial_wire ps pr m filter part suffix Hc Hm Hf Hw Hsuf) as (dp & E' & _). cbn [fmap list_fmap concat app] in E. by rewrite E' in E. }
    cbn [fmap list_fmap concat] in E. rewrite <- (assoc_L (++)), wire_try in E by done.
    destruct (filter_message ps filter seen m1 Hf Hs) as (g & f' & E' & Hf' & Hs' & Hb & Ha). rewrite E' in E. cbn [mbind option_bind] in E.
    fold (wire ps <$> ms) in E. destruct (replay h f' _) as [[[rs1 f2] d2]|] eqn:E1; [|done]. injection E as <- <- <-.
    cbn [arrivals]. split; [eapply arrived_mono; [|exact Ha]; set_solver|].
    pose proof (IH ms f' _ rs1 Hms Hf' Hs' E1 Hd Hq) as Hr. rewrite Hb in Hr. change (others (OwnRead :: h)) with (others h).
    unfold seen_after in Hr |- *. by destruct (filtered m1).
  - destruct (shared_step_ok seen op filter Hf Hs) as (f1 & -> & Hf1 & Hs1 & Hi). cbn [mbind option_bind]. intros E Hd Hq.
    pose proof (IH ms f1 _ rs Hms Hf1 Hs1 E Hd Hq) as Hr. rewrite (bool_decide_ext _ _ Hi), <- (assoc_L (++)) in Hr.
    change (others (Others op :: h)) with ([op] ++ others h). unfold applied in Hr |- *. by rewrite omap_app.
Qed.

(** C34. Whatever bytes a peer sends, in whatever packets, the deserializer
    neither panics nor loops: it reads them all, with the same results as if
    they had come in one piece, it accepts messages only from its own network
    and from protocol versions that are not outdated, and it never keeps more
    than one message of the largest size in its buffer. *)
Theorem parsing_total (packets : list (list byte)) (filter : option NetworkFilter) (p : ProtocolInfo) :
  filter_ok filter ->
  feed hash packets filter (md_new p) = drain_all hash filter (md_push (concat packets) (md_new p)) /\
  exists rs filter' d, feed hash packets filter (md_new p) = Finished (rs, filter', d) /\
    Forall (accepted_by p) rs /\ (length (md_buffer d) <= MAX_MESSAGE_SIZE)%nat.
Proof using.
  intros Hf.
  destruct (feed_concat packets filter (md_new p) Hf) as [E (rs & f & d & E' & _ & Hv & Hq & Hp & Ha)];
    [by intros ?|unfold quiet, md_new, HEADER_SIZE; cbn; lia|].
  split; [done|]. exists rs, f, d. split_and!; [done|done|]. unfold quiet in Hq.
  destruct (md_current_header d) as [h|] eqn:Eh.
  - destruct (validate_header_spec _ _ (Hv h Eh)) as (_ & _ & ?). lia.
  - unfold HEADER_SIZE, MAX_MESSAGE_SIZE in *. lia.
Qed.

Lemma serialize_all_wire ms s : serialize_all ms s = wire (ms_protocol s) <$> ms.
Proof using.
  revert s. induction ms as [|m ms IH]; intros s; [done|]. cbn [serialize_all fmap list_fmap].
  pose proof (serializer_wire m s) as E. destruct (serializer_serialize m s) as [bytes s'] eqn:Es. cbn in E. subst.
  f_equal. rewrite IH. unfold serializer_serialize in Es. by simplify_eq.
Qed.

(** Complete messages followed by a part of another one, in any packets. *)
Lemma feed_wire ps pr ms m part suffix packets :
  compatible ps pr -> Forall wf_message ms -> wf_message m -> wire ps m = part ++ suffix -> suffix <> [] ->
  concat packets = concat (wire ps <$> ms) ++ part ->
  exists d, feed hash packets None (md_new pr) = Finished (received ps <$> ms, None, d).
Proof.
  intros Hc Hms Hm Hw Hs Hp.
  destruct (feed_concat packets None (md_new pr)) as [E (rs & f & d & E' & _)];
    [done|by intros ?|unfold quiet, md_new, HEADER_SIZE; cbn; lia|].
  destruct (partial_wire ps pr m None part suffix Hc Hm I Hw Hs) as (dp & Et & _).
  assert (drain hash 1 None (mkMessageDeserializer part None pr) = Finished ([], None, dp)) as Ed
    by (cbn [drain]; by rewrite Et).
  pose proof (drain_wire ps pr ms 1 _ _ _ _ Hc Hms Ed) as El. rewrite app_nil_r, <- Hp in El.
  rewrite E' in E. symmetry in E. exists d. rewrite E'.
  pose proof (drain_det _ _ _ _ _ _ E El) as [= -> -> ->]. done.
Qed.

(** The same with a shared filter. *)
Lemma feed_shared_wire ps pr ms m part suffix filter seen packets :
  compatible ps pr -> Forall wf_message ms -> wf_message m -> wire ps m = part ++ suffix -> suffix <> [] ->
  filter_ok filter -> seen_by seen filter -> concat packets.*2 = concat (wire ps <$> ms) ++ part ->
  exists rs filter' d, feed_shared packets filter (md_new pr) = Finished (rs, filter', d) /\
    arrivals (bool_decide (is_Some filter)) ps (seen ++ applied (concat packets.*1)) ms rs.
Proof.
  intros Hc Hms Hm Hw Hsuf Hf Hs Hp.
  destruct (feed_shared_replay packets filter (md_new pr)) as (h & rs & f' & d' & d1 & E & Er & <- & Hd & Hq);
    [done|by intros ?|unfold quiet, md_new, HEADER_SIZE; cbn; lia|].
  exists rs, f', d'. split; [done|]. rewrite Hp in Er. by eapply replay_wire.
Qed.

(** What one node serializes, the other one gets: when the bytes of a
    sequence of well-formed messages have arrived except for a part of the
    last one, cut into packets in any way, exactly the messages before it
    have been handed out, unchanged and in order. *)
Theorem stream_delivers (s : MessageSerializer) (pr : ProtocolInfo) (ms : list Message) (m : Message)
    (packets : list (list byte)) (suffix : list byte) :
  compatible (ms_protocol s) pr -> Forall wf_message (ms ++ [m]) ->
  concat packets ++ suffix = concat (serialize_all (ms ++ [m]) s) ->
  (0 < length suffix <= length (serializer_serialize m s).1)%nat ->
  exists d, feed hash packets None (md_new pr) = Finished (received (ms_protocol s) <$> ms, None, d).
Proof.
  intros Hc [Hms [Hm _]%Forall_cons]%Forall_app Hp Hs. set (ps := ms_protocol s) in *.
  rewrite serialize_all_wire, fmap_app, concat_app in Hp. cbn in Hp. rewrite app_nil_r in Hp.
  rewrite serializer_wire in Hs. fold ps in Hp, Hs.
  set (n := (length (wire ps m) - length suffix)%nat).
  assert (suffix = drop n (wire ps m) /\ concat packets = concat (wire ps <$> ms) ++ take n (wire ps m)) as [E1 E2].
  { rewrite <- (take_drop n (wire ps m)), (assoc_L (++)) in Hp.
    apply app_inj_2 in Hp as [? ?]; [done|]. rewrite length_drop. unfold n. lia. }
  apply (feed_wire ps pr ms m (take n (wire ps m)) suffix); try done.
  - by rewrite E1, take_drop.
  - by destruct suffix; [cbn in Hs; lia|].
Qed.
End stream.

(** ** Examples *)

Definition sample_packets : list (list byte) := map (map byte_of) [[82; 67; 0; 255]; []; [21; 3; 9; 9; 1]].

Lemma parsing_total_witness :
  exists rs filter' d,
    @feed model_crypto model_bitvec (fun _ => 7) sample_packets (Some (nf_with_size 4)) (md_new protocol_info_default)
    = Finished (rs, filter', d) /\ (length (md_buffer d) <= MAX_MESSAGE_SIZE)%nat.
Proof.
  assert (filter_ok (Some (nf_with_size 4))) as Hf by (by vm_compute).
  destruct (@parsing_total model_crypto model_bitvec (fun _ => 7) sample_packets (Some (nf_with_size 4))
    protocol_info_default Hf) as (_ & rs & f & d & E & _ & Hl).
  exact (ex_intro _ rs (ex_intro _ f (ex_intro _ d (conj E Hl)))).
Defined.

Definition sample_serializer : MessageSerializer := mkMessageSerializer protocol_info_default [].
Definition sample_messages : list Message :=
  [MsgAscPullReq (mkAscPullReq 77 (ReqFrontiers (mkFrontiersReqPayload 5 1000)));
   MsgTelemetryReq;
   MsgConfirmReq (mkConfirmReq [(1, 2)])].
Definition sample_bytes : list byte :=
  concat (@serialize_all model_bitvec (sample_messages ++ [MsgBulkPush]) sample_serializer).

Lemma stream_delivers_witness :
  exists d, @feed model_crypto model_bitvec (fun _ => 7)
    [take 5 sample_bytes; take 100 (drop 5 sample_bytes); take 26 (drop 105 sample_bytes)] None
    (md_new protocol_info_default)
  = Finished (received protocol_info_default <$> sample_messages, None, d).
Proof.
  assert (compatible (ms_protocol sample_serializer) protocol_info_default) as Hc by (by vm_compute).
  assert (Forall (@wf_message model_crypto) (sample_messages ++ [MsgBulkPush])) as Hw.
  { repeat constructor; try (by vm_compute). cbn. intros [? ?]. done. }
  refine (@stream_delivers model_crypto model_bitvec (fun _ => 7) model_bitvec_laws sample_serializer
    protocol_info_default sample_messages MsgBulkPush _ (drop 131 sample_bytes) Hc Hw _ _).
  - by vm_compute.
  - split; apply Nat.leb_le; by vm_compute.
Defined.
