(* ===== verification/MessageTypes.v ===== *)
(** * What is read is well-formed (messages/src)

    The converse of the round trips: whatever bytes arrive, a message the
    parser hands out is one the formats can hold, so it can be sent on. *)

From S2P Require Import Prelude Types Blocks Codec Votes Messages MessageCodec MessageStream.
From S2P Require Import StreamTheorems.

(** ** Readers and the values they give *)

Definition yields {A} (d : decoder A) (P : A -> Prop) : Prop := forall bs a rest, d bs = Ok (a, rest) -> P a.

Lemma yields_ret {A} (x : A) (P : A -> Prop) : P x -> yields (mret x) P.
Proof. by intros Hx bs a rest [= <- <-]. Qed.

Lemma yields_fail {A} e (P : A -> Prop) : yields (dec_fail e) P.
Proof. by intros bs a rest. Qed.

Lemma yields_bind {A B} (d : decoder A) (k : A -> decoder B) (P : A -> Prop) (Q : B -> Prop) :
  yields d P -> (forall a, P a -> yields (k a) Q) -> yields (a ← d; k a) Q.
Proof.
  intros Hd Hk bs b rest. unfold mbind, decoder_bind. destruct (d bs) as [[a bs']|] eqn:E; [|done].
  apply Hk. by eapply Hd.
Qed.

Lemma yields_opt {A} (o : option A) e (P : A -> Prop) : (forall a, o = Some a -> P a) -> yields (dec_opt o e) P.
Proof. intros Hp. destruct o; [by apply yields_ret, Hp|apply yields_fail]. Qed.

Lemma yields_weaken {A} (d : decoder A) (P Q : A -> Prop) : yields d P -> (forall a, P a -> Q a) -> yields d Q.
Proof. intros Hd Hi bs a rest E. by eapply Hi, Hd. Qed.

Lemma yields_any {A} (d : decoder A) : yields d (fun _ => True).
Proof. done. Qed.

Lemma yields_read_exact n : yields (read_exact n) (fun l => length l = n).
Proof. intros bs a rest. unfold read_exact. destruct (decide _); [|done]. intros [= <- <-]. rewrite length_take. lia. Qed.

Lemma yields_be n : yields (b ← read_exact n; mret (from_be_bytes b)) (in_u (8 * Z.of_nat n)).
Proof.
  eapply yields_bind; [apply yields_read_exact|]. intros b <-. apply yields_ret, from_be_bytes_in_u.
Qed.

Lemma yields_le n : yields (b ← read_exact n; mret (from_le_bytes b)) (in_u (8 * Z.of_nat n)).
Proof.
  eapply yields_bind; [apply yields_read_exact|]. intros b <-. apply yields_ret, from_le_bytes_in_u.
Qed.

Lemma yields_u8 : yields read_u8 (in_u 8).
Proof.
  eapply yields_bind; [apply yields_read_exact|]. intros b _. apply yields_ret. destruct b as [|x [|]]; [done| |done].
  apply u8_of_in_u.
Qed.

Lemma yields_u256 : yields u256_deserialize wf_u256.
Proof. exact (yields_be 32). Qed.
Lemma yields_signature : yields signature_deserialize wf_signature.
Proof. exact (yields_be 64). Qed.
Lemma yields_amount : yields amount_deserialize wf_amount.
Proof. exact (yields_be 16). Qed.
Lemma yields_u64_le : yields read_u64_le wf_u64.
Proof. exact (yields_le 8). Qed.
Lemma yields_u64_be : yields read_u64_be wf_u64.
Proof. exact (yields_be 8). Qed.
Lemma yields_u32_be : yields read_u32_be (in_u 32).
Proof. exact (yields_be 4). Qed.
Lemma yields_u32_le : yields read_u32_le (in_u 32).
Proof. exact (yields_le 4). Qed.
Lemma yields_u16_be : yields read_u16_be (in_u 16).
Proof. exact (yields_be 2). Qed.
Lemma yields_u16_le : yields read_u16_le (in_u 16).
Proof. exact (yields_le 2). Qed.

Lemma yields_times {A} n (d : decoder A) P :
  yields d P -> yields (read_times n d) (fun l => length l = n /\ Forall P l).
Proof.
  intros Hd. induction n as [|n IH]; cbn [read_times]; [by apply yields_ret|].
  eapply yields_bind; [exact Hd|]. intros x Hx. eapply yields_bind; [exact IH|]. intros l [<- Hl].
  apply yields_ret. split; [done|]. by constructor.
Qed.

Create HintDb yields.
#[export] Hint Resolve yields_u256 yields_signature yields_amount yields_u64_le yields_u64_be yields_u32_be yields_u32_le
  yields_u16_be yields_u16_le yields_u8 yields_read_exact : yields.

(** Goes through the readers of a record. *)
Ltac yields_step := eapply yields_bind; [solve [eauto with yields]|intros ? ?; cbv beta in *].
Ltac yields_all := repeat yields_step; try apply yields_ret.

(** ** Blocks and votes *)

Section types.
Context `{Crypto}.

Lemma yields_block t : yields (deserialize_block_type t) wf_block.
Proof.
  destruct t; cbn [deserialize_block_type];
    (eapply (yields_bind _ _ (fun b => wf_block (_ b))); [|intros b Hb; apply yields_ret; exact Hb]);
    unfold send_deserialize, receive_deserialize, open_deserialize, change_deserialize, state_deserialize;
    yields_all; unfold wf_block; split_and!; done.
Qed.
End types.
#[export] Hint Resolve yields_block : yields.

Lemma read_vote_hashes_wf n bs l rest :
  read_vote_hashes n bs = Ok (l, rest) -> (length l <= n)%nat /\ Forall wf_u256 l.
Proof.
  revert bs l. induction n as [|n IH]; intros bs l; cbn [read_vote_hashes]; [by destruct bs; intros [= <- <-]|].
  destruct bs as [|b bs]; [intros [= <- <-]; split; [cbn; lia|done]|].
  destruct (u256_deserialize (b :: bs)) as [[h bs']|] eqn:E; [|done].
  destruct (read_vote_hashes n bs') as [[l' rest']|] eqn:E'; [|done]. intros [= <- <-]. apply yields_u256 in E.
  destruct (IH _ _ E') as [Hl Hf]. split; [cbn; lia|by constructor].
Qed.

Lemma vote_deserialize_wf bs v : vote_deserialize bs = Ok v -> wf_vote v.
Proof.
  unfold vote_deserialize.
  assert (yields (voter ← u256_deserialize; signature ← signature_deserialize; timestamp ← read_u64_le;
                  mret (voter, signature, timestamp))
            (fun x => wf_u256 x.1.1 /\ wf_signature x.1.2 /\ wf_u64 x.2)) as Hy by (yields_all; done).
  match type of Hy with yields ?d _ => destruct (d bs) as [[[[voter sig] ts] rest]|] eqn:E end;
    cbn [mbind result_bind]; [|done].
  apply Hy in E as (H1 & H2 & H3).
  destruct (read_vote_hashes MAX_HASHES rest) as [[l rest']|] eqn:E'; cbn [mbind result_bind fst]; [|done]. intros [= <-].
  apply read_vote_hashes_wf in E' as [Hl Hf]. done.
Qed.

(** ** Payloads *)

Lemma yields_keepalive : yields keepalive_deserialize wf_keepalive.
Proof.
  eapply yields_bind; [apply (yields_times 8 peer_deserialize wf_peer)|].
  - eapply yields_bind; [apply yields_read_exact|]. intros b Hb. yields_step. apply yields_ret.
    pose proof (from_be_bytes_in_u b) as Hi. rewrite Hb in Hi. done.
  - intros peers Hp. by apply yields_ret.
Qed.

Lemma yields_publish `{Crypto, BitVec} extensions digest :
  yields (publish_deserialize extensions digest) (fun p => wf_block (pub_block p)).
Proof.
  eapply yields_bind; [apply yields_any|]. intros t _. yields_all. done.
Qed.

Lemma yields_roots extensions :
  yields (deserialize_roots extensions) (fun l => (1 <= length l)%nat /\ Forall wf_root_hash l).
Proof.
  unfold deserialize_roots. eapply yields_bind.
  - apply (yields_times _ _ (fun p : BlockHash * Root => wf_u256 p.1 /\ wf_u256 p.2)). unfold root_hash_deserialize. yields_all. done.
  - intros pairs [_ Hf]. destruct (_ || _) eqn:Eb; [apply yields_fail|]. apply yields_ret.
    apply orb_false_iff in Eb as [Hl%Nat.eqb_neq _]. split; [lia|]. apply Forall_forall. intros p [Hp Hin]%list_elem_of_filter.
    rewrite Forall_forall in Hf. destruct (Hf p Hin). split; [done|]. split; [done|]. intros [E1 E2].
    rewrite E1, E2 in Hp. done.
Qed.

Lemma yields_bulk_pull `{BitVec} extensions : yields (bulk_pull_deserialize extensions) wf_bulk_pull.
Proof.
  unfold bulk_pull_deserialize. do 2 yields_step. eapply (yields_bind _ _ (in_u 32)).
  - destruct (bit_get _ _); [|by apply yields_ret]. unfold extended_count_deserialize.
    eapply yields_bind; [apply yields_read_exact|]. intros [|b l] Hl; [apply yields_fail|].
    destruct (_ =? _); [|apply yields_fail]. apply yields_ret. pose proof (from_le_bytes_in_u (take 4 l)) as Hi.
    rewrite length_take in Hi. unfold EXTENDED_PARAMETERS_SIZE in Hl. cbn in Hl.
    replace (4 `min` length l)%nat with 4%nat in Hi by lia. done.
  - intros count Hc. by apply yields_ret.
Qed.

Lemma yields_bulk_pull_account : yields bulk_pull_account_deserialize wf_bulk_pull_account.
Proof.
  unfold bulk_pull_account_deserialize. do 3 yields_step. eapply yields_bind; [apply yields_any|]. intros f _.
  by apply yields_ret.
Qed.

Lemma yields_frontier_req `{BitVec} extensions : yields (frontier_req_deserialize extensions) wf_frontier_req.
Proof. unfold frontier_req_deserialize. yields_all. done. Qed.

Lemma yields_response `{BitVec} extensions :
  yields (response_deserialize extensions)
    (fun r => wf_response r /\ handshake_has_v2_flag extensions = bool_decide (is_Some (resp_v2 r))).
Proof.
  unfold response_deserialize. destruct (handshake_has_v2_flag extensions); yields_all.
  - split; [|done]. split; [done|]. split; [done|]. by intros v2 [= <-].
  - by split.
Qed.

Lemma yields_handshake `{BitVec} extensions : yields (handshake_deserialize extensions) wf_handshake.
Proof.
  unfold handshake_deserialize.
  eapply (yields_bind _ _ (fun q => forall x, q = Some x -> length (query_cookie x) = 32%nat)).
  { destruct (handshake_is_query extensions); [|by apply yields_ret]. yields_step. apply yields_ret. by intros x [= <-]. }
  intros query Hq.
  eapply (yields_bind _ _ (fun o => forall r, o = Some r -> wf_response r /\
            handshake_has_v2_flag extensions = bool_decide (is_Some (resp_v2 r)))).
  { destruct (handshake_is_response extensions); [|by apply yields_ret].
    eapply yields_bind; [apply yields_response|]. intros r Hr. apply yields_ret. by intros x [= <-]. }
  intros response Hr. by apply yields_ret.
Qed.

Lemma yields_telemetry extensions : yields (telemetry_ack_deserialize extensions) wf_telemetry_ack.
Proof.
  unfold telemetry_ack_deserialize. destruct (_ =? _)%nat; [by apply yields_ret|].
  eapply (yields_bind _ _ wf_telemetry_data); [|intros d Hd; apply yields_ret; by intros d' [= <-]].
  unfold telemetry_data_deserialize. do 18 yields_step.
  eapply (yields_bind _ _ (fun l => length l <= 821)%nat).
  - destruct (_ <? _)%nat; [|apply yields_ret; cbn; lia]. eapply yields_weaken; [apply yields_read_exact|]. intros l ->.
    unfold telemetry_ack_serialized_size. pose proof (land_le extensions TELEMETRY_SIZE_MASK ltac:(done)).
    unfold TELEMETRY_SIZE_MASK, SERIALIZED_SIZE_OF_KNOWN_DATA in *. lia.
  - intros l Hl. apply yields_ret. unfold wf_telemetry_data. cbn [td_timestamp]. unfold NANOS_PER_MILLI.
    rewrite Z.mod_mul, Z.div_mul by done. split_and!; done.
Qed.

Lemma yields_asc_pull_req : yields asc_pull_req_deserialize wf_asc_pull_req.
Proof.
  unfold asc_pull_req_deserialize. yields_step. eapply yields_bind; [apply yields_any|]. intros t _. yields_step.
  match goal with Hid : wf_u64 ?i |- _ =>
    eapply (yields_bind _ _ (fun t => wf_asc_pull_req (mkAscPullReq i t))); [|intros r Hr; by apply yields_ret];
    destruct t; (eapply (yields_bind _ _ (fun p => wf_asc_pull_req (mkAscPullReq i (_ p)))); [|intros p Hp; apply yields_ret; exact Hp])
  end.
  - unfold blocks_req_deserialize. do 2 yields_step. eapply yields_bind; [apply yields_any|]. intros h _. by apply yields_ret.
  - unfold account_info_req_deserialize. yields_step. eapply yields_bind; [apply yields_any|]. intros h _. by apply yields_ret.
  - unfold frontiers_req_deserialize. yields_all. done.
Qed.

(** Goes on with the value of the first of two readers. *)
Ltac result_step E :=
  match goal with |- mbind _ ?m = Ok _ -> _ => destruct m as [[? ?]|] eqn:E; cbn [mbind result_bind]; [|done] end.

Lemma read_blocks_wf `{Crypto} room bs l : read_blocks room bs = Ok l -> (length l <= room)%nat /\ Forall wf_block l.
Proof.
  revert bs l. induction room as [|room IH]; intros [|b bs] l; cbn [read_blocks];
    try (intros [= <-]; split; [cbn; lia|done]); result_step E1.
  all: match goal with t : BlockTypeId |- _ => destruct t end; try (intros [= <-]; split; [cbn; lia|done]); result_step E2; try done.
  all: eapply (yields_bind _ _ (fun _ => True) wf_block) in E2; [|apply yields_any|intros; apply yields_block].
  all: match goal with |- mbind _ ?m = Ok _ -> _ => destruct m as [l'|] eqn:E3; cbn [mbind result_bind]; [|done] end.
  all: intros [= <-]; destruct (IH _ _ E3) as [Hl Hf]; (split; [cbn; lia|by constructor]).
Qed.

Lemma read_frontiers_wf room : yields (read_frontiers room) (fun l => (length l <= room)%nat /\ Forall wf_frontier l).
Proof.
  induction room as [|room IH]; cbn [read_frontiers]; [by apply yields_ret|].
  eapply (yields_bind _ _ (fun f => wf_u256 (frontier_account f) /\ wf_u256 (frontier_hash f))).
  { unfold frontier_deserialize. yields_all. done. }
  intros f [Ha Hh]. destruct (decide (f = frontier_default)); [apply yields_ret; split; [cbn; lia|done]|].
  eapply yields_bind; [exact IH|]. intros l [Hl Hf]. apply yields_ret. split; [cbn; lia|by constructor].
Qed.

Lemma from_slice_yields {A} (d : decoder A) P bs a : yields d P -> from_slice d bs = Ok a -> P a.
Proof. intros Hd. unfold from_slice. destruct (d bs) as [[a' rest]|] eqn:E; [|done]. intros [= <-]. by eapply Hd. Qed.

Lemma asc_pull_ack_wf `{Crypto} bs a : asc_pull_ack_deserialize bs = Some (Ok a) -> wf_asc_pull_ack a.
Proof.
  unfold asc_pull_ack_deserialize.
  assert (yields asc_pull_ack_head (fun x => wf_u64 x.2)) as Hy.
  { unfold asc_pull_ack_head. yields_step. eapply yields_bind; [apply yields_any|]. intros t _. yields_all. done. }
  destruct (asc_pull_ack_head bs) as [[[t id] rest]|] eqn:E; [|done]. apply Hy in E. cbn in E. destruct t.
  - unfold blocks_ack_deserialize. destruct (read_blocks MAX_BLOCKS rest) as [l|] eqn:El; cbn [mbind option_bind result_bind]; [|done].
    apply read_blocks_wf in El. unfold blocks_ack_new. destruct (_ <? _)%nat; cbn [fmap option_fmap option_map mbind option_bind]; [done|].
    intros [= <-]. done.
  - destruct (from_slice _ _) as [p|] eqn:Ep; cbn [mbind result_bind]; [|done]. intros [= <-]. split; [done|].
    eapply from_slice_yields; [|exact Ep]. unfold account_info_ack_deserialize. yields_all. done.
  - destruct (from_slice _ _) as [l|] eqn:El; cbn [mbind result_bind]; [|done]. intros [= <-]. split; [done|].
    exact (from_slice_yields _ _ _ _ (read_frontiers_wf _) El).
Qed.

(** ** Messages *)

Section messages.
Context `{Crypto} `{BitVec}.

(** The readers of messages that take the whole slice. *)
Lemma from_slice_message {A} (d : decoder A) (f : A -> Message) bs m :
  yields d (fun a => wf_message (f a)) -> Some (a ← from_slice d bs; Ok (f a)) = Some (Ok m) -> wf_message m.
Proof.
  intros Hd. destruct (from_slice d bs) as [a|] eqn:E; cbn [mbind result_bind]; [|done]. intros [= <-].
  exact (from_slice_yields d _ bs a Hd E).
Qed.

Lemma message_deserialize_wf payload h digest m : message_deserialize payload h digest = Some (Ok m) -> wf_message m.
Proof.
  unfold message_deserialize. destruct (hd_message_type h); try done; try (by intros [= <-]);
    try (apply from_slice_message; [..]).
  - apply yields_keepalive.
  - apply yields_publish.
  - unfold confirm_req_deserialize. destruct (from_slice _ _) as [l|] eqn:E; [|done]. apply (from_slice_yields _ _ _ _ (yields_roots _)) in E.
    unfold confirm_req_new. destruct (Nat.ltb_spec 255 (length l)); [done|]. intros [= <-]. cbn. unfold wf_confirm_req. cbn.
    split; [lia|apply E].
  - unfold confirm_ack_deserialize. destruct (vote_deserialize payload) as [v|] eqn:E; [|done]. apply vote_deserialize_wf in E.
    unfold new_with_rebroadcasted_vote, new_with_own_vote.
    destruct (bit_get _ _), (_ <=? _)%nat; try done; by intros [= <-].
  - apply yields_bulk_pull.
  - apply yields_frontier_req.
  - apply yields_handshake.
  - apply yields_bulk_pull_account.
  - apply yields_telemetry.
  - apply yields_asc_pull_req.
  - destruct (asc_pull_ack_deserialize payload) as [[a|]|] eqn:E; cbn [mbind option_bind result_bind]; try done.
    intros [= <-]. by apply asc_pull_ack_wf in E.
Qed.
End messages.

(** ** The stream of a channel *)

Section stream.
Context `{Crypto} `{BitVec} (hash : list byte -> Z).

(** A message the parser handed out. *)
Definition parsed (r : result ParseMessageError DeserializedMessage) : option Message :=
  match r with Ok m => Some (dm_message m) | Err _ => None end.

Definition typed (r : result ParseMessageError DeserializedMessage) : Prop := forall m, parsed r = Some m -> wf_message m.

Lemma payload_typed h filter d r f d' :
  try_deserialize_payload_for hash h filter d = Some (Some r, f, d') -> typed r.
Proof.
  unfold try_deserialize_payload_for. destruct (_ && _); [done|]. unfold deserialize_payload_for. cbn [md_buffer].
  destruct (_ <? _)%nat; [done|].
  match goal with |- context [filter_duplicate_messages ?a ?b ?c ?e] => destruct (filter_duplicate_messages a b c e) as [[[digest|] f1]|] end;
    cbn [mbind option_bind]; [|by intros [= <- <- <-]|done].
  match goal with |- context [message_deserialize ?p ?q ?x] => destruct (message_deserialize p q x) as [[m|]|] eqn:E end;
    cbn [mbind option_bind]; [|by intros [= <- <- <-]|done].
  intros [= <- <- <-] m' [= <-]. by eapply message_deserialize_wf.
Qed.

Lemma try_typed filter d r f d' : try_deserialize hash filter d = Some (Some r, f, d') -> typed r.
Proof.
  unfold try_deserialize. destruct (md_current_header d) as [h|]; [apply payload_typed|].
  unfold deserialize_header_and_payload. destruct (read_header_bytes d) as [[hb d1]|]; [|done].
  destruct (from_slice _ _) as [h|]; [|by intros [= <- <- <-]].
  destruct (validate_header _ _); [apply payload_typed|by intros [= <- <- <-]].
Qed.

Lemma drain_typed fuel filter d rs f d' : drain hash fuel filter d = Finished (rs, f, d') -> Forall typed rs.
Proof.
  revert filter d rs. induction fuel as [|fuel IH]; intros filter d rs; [done|]. cbn [drain].
  destruct (try_deserialize hash filter d) as [[[[r|] f1] d1]|] eqn:E; [|by intros [= <- _ _]|done].
  destruct (drain hash fuel f1 d1) as [[[rs1 f2] d2]| |] eqn:Ed; cbn [mbind run_bind]; [|done|done]. intros [= <- <- <-].
  constructor; [by eapply try_typed|by eapply IH].
Qed.

Lemma feed_typed packets filter d rs f d' : feed hash packets filter d = Finished (rs, f, d') -> Forall typed rs.
Proof.
  revert filter d rs. induction packets as [|p packets IH]; intros filter d rs; cbn [feed]; [by intros [= <- _ _]|].
  unfold drain_all. match goal with |- context [drain hash ?n ?a ?b] => destruct (drain hash n a b) as [[[rs1 f1] d1]| |] eqn:Ed end;
    cbn [mbind run_bind]; [|done|done].
  destruct (feed hash packets f1 d1) as [[[rs2 f2] d2]| |] eqn:Ef; cbn [mbind run_bind]; [|done|done]. intros [= <- <- <-].
  apply Forall_app. split; [by eapply drain_typed|by eapply IH].
Qed.

Context `{!BitVecLaws _}.

(** C35. Whatever bytes arrive on a channel, and however they are cut into
    packets, every message that is handed out is one the types and formats can
    hold. It can be sent on: written by a node on any protocol and read by a
    peer that fits, the messages arrive as they are, in order. *)
Theorem received_messages_typed (packets : list (list byte)) (filter : option NetworkFilter) (p : ProtocolInfo) :
  filter_ok filter ->
  exists rs filter' d, feed hash packets filter (md_new p) = Finished (rs, filter', d) /\
    Forall wf_message (omap parsed rs) /\
    forall ps pr packets',
      compatible ps pr -> concat packets' = concat (wire ps <$> omap parsed rs) ->
      exists d', feed hash packets' None (md_new pr) = Finished (received ps <$> omap parsed rs, None, d').
Proof.
  intros Hf. destruct (feed_concat hash packets filter (md_new p) Hf) as [_ (rs & f & d & E & _)];
    [by intros ?|unfold quiet, md_new, HEADER_SIZE; cbn; lia|].
  exists rs, f, d. split; [done|]. assert (Forall wf_message (omap parsed rs)) as Hw.
  { pose proof (feed_typed _ _ _ _ _ _ E) as Ht. apply Forall_forall. intros m (r & Hr & Em)%list_elem_of_omap.
    rewrite Forall_forall in Ht. by apply (Ht r). }
  split; [done|]. intros ps pr packets' Hc Hp.
  apply (feed_wire hash ps pr (omap parsed rs) MsgTelemetryReq [] (wire ps MsgTelemetryReq)); try done.
  by rewrite app_nil_r.
Qed.
End stream.

(** Four messages in two packets. *)
Lemma received_messages_typed_witness :
  exists rs filter' d,
    @feed model_crypto model_bitvec (fun _ => 7) [take 40 sample_bytes; drop 40 sample_bytes] (Some (nf_with_size 4))
      (md_new protocol_info_default) = Finished (rs, filter', d) /\
    Forall (@wf_message model_crypto) (omap parsed rs).
Proof.
  assert (filter_ok (Some (nf_with_size 4))) as Hf by (by vm_compute).
  destruct (@received_messages_typed model_crypto model_bitvec (fun _ => 7) model_bitvec_laws
    [take 40 sample_bytes; drop 40 sample_bytes] (Some (nf_with_size 4)) protocol_info_default Hf) as (rs & f & d & E & Hw & _).
  exact (ex_intro _ rs (ex_intro _ f (ex_intro _ d (conj E Hw)))).
Defined.
