(* ===== verification/Handshake.v ===== *)
(** * The node id handshake (network_protocol/src/syn_cookies.rs,
    handshake_process.rs)

    A node proves its identity by signing a cookie that the other side made
    for the endpoint of the connection. Cookies are kept in one shared store
    with a limit per IP address. Random bytes, the time and the order of hash
    maps are arguments; a panic is [None]. *)

From S2P Require Import Prelude Types Blocks Votes Election Messages MessageCodec.

(** ** SynCookies (syn_cookies.rs) *)

Record SynCookieInfo := mkSynCookieInfo {
  sci_cookie : Cookie;
  sci_created_at : Z;
}.

Record SynCookies := mkSynCookies {
  sc_cookies : gmap SocketAddrV6 SynCookieInfo;
  sc_cookies_per_ip : gmap Z Z;
  sc_max_cookies_per_ip : Z;
}.

Definition syn_cookies_new (max_cookies_per_ip : Z) : SynCookies := mkSynCookies ∅ ∅ max_cookies_per_ip.

(** [random] is the fresh cookie, [now] the time. *)
Definition sc_assign (random : Cookie) (now : Z) (endpoint : SocketAddrV6) (s : SynCookies)
    : option Cookie * SynCookies :=
  match sc_cookies s !! endpoint with
  | Some _ => (None, s)
  | None =>
      let ip_cookies := default 0 (sc_cookies_per_ip s !! sa_ip endpoint) in
      if ip_cookies <? sc_max_cookies_per_ip s then
        (Some random,
         mkSynCookies (<[endpoint := mkSynCookieInfo random now]> (sc_cookies s))
           (<[sa_ip endpoint := ip_cookies + 1]> (sc_cookies_per_ip s)) (sc_max_cookies_per_ip s))
      else
        (None,
         mkSynCookies (sc_cookies s) (<[sa_ip endpoint := ip_cookies]> (sc_cookies_per_ip s))
           (sc_max_cookies_per_ip s))
  end.

(** [None] is the panic for a count that is already zero. *)
Definition dec_cookie_count (ip : Z) (s : SynCookies) : option SynCookies :=
  let ip_cookies := default 0 (sc_cookies_per_ip s !! ip) in
  if 0 <? ip_cookies then
    Some (mkSynCookies (sc_cookies s) (<[ip := ip_cookies - 1]> (sc_cookies_per_ip s)) (sc_max_cookies_per_ip s))
  else None.

Definition sc_remove (endpoint : SocketAddrV6) (s : SynCookies) : SynCookies :=
  mkSynCookies (delete endpoint (sc_cookies s)) (sc_cookies_per_ip s) (sc_max_cookies_per_ip s).

(** [cookie]: the cookie of an endpoint, which is used up by this. *)
Definition sc_cookie (endpoint : SocketAddrV6) (s : SynCookies) : option (option Cookie * SynCookies) :=
  match sc_cookies s !! endpoint with
  | Some info =>
      s ← dec_cookie_count (sa_ip endpoint) (sc_remove endpoint s);
      Some (Some (sci_cookie info), s)
  | None => Some (None, s)
  end.

(** [validate]; [false] is the error. *)
Definition sc_validate `{Crypto} (endpoint : SocketAddrV6) (node_id : Account) (signature : Signature)
    (s : SynCookies) : option (bool * SynCookies) :=
  match sc_cookies s !! endpoint with
  | Some info =>
      if verify node_id (sci_cookie info) signature then
        s ← dec_cookie_count (sa_ip endpoint) (sc_remove endpoint s);
        Some (true, s)
      else Some (false, s)
  | None => Some (true, s)
  end.

Definition exceeds_cutoff (cutoff now : Z) (info : SynCookieInfo) : bool :=
  cutoff <? Z.max 0 (now - sci_created_at info).

Fixpoint sc_remove_all (endpoints : list SocketAddrV6) (s : SynCookies) : option SynCookies :=
  match endpoints with
  | [] => Some s
  | endpoint :: endpoints =>
      s ← dec_cookie_count (sa_ip endpoint) (sc_remove endpoint s);
      sc_remove_all endpoints s
  end.

Definition sc_purge `{HashOrder} (cutoff now : Z) (s : SynCookies) : option SynCookies :=
  let removed_endpoints :=
    (filter (fun e => exceeds_cutoff cutoff now e.2) (hash_iter (sc_cookies s))).*1 in
  sc_remove_all removed_endpoints s.

(** ** HandshakeProcess (handshake_process.rs) *)

Inductive HandshakeResponseError :=
  | OwnNodeId | InvalidGenesis | MissingCookie | InvalidSignature | EmptyResponse | MultipleQueries.

#[global] Instance HandshakeResponseError_eq_dec : EqDecision HandshakeResponseError.
Proof. solve_decision. Defined.

Record HandshakeProcess := mkHandshakeProcess {
  hp_genesis_hash : BlockHash;
  hp_node_id_key : Z;
  hp_handshake_received : bool;
}.

Definition handshake_process_new (genesis_hash : BlockHash) (node_id_key : Z) : HandshakeProcess :=
  mkHandshakeProcess genesis_hash node_id_key false.

(** The random bytes of one call: a cookie and a salt. *)
Record Randomness := mkRandomness {
  rnd_cookie : Cookie;
  rnd_salt : list byte;
}.

Section handshake.
Context `{Crypto}.

Definition prepare_query (rnd : Randomness) (now : Z) (peer : SocketAddrV6) (s : SynCookies)
    : option NodeIdHandshakeQuery * SynCookies :=
  let '(cookie, s) := sc_assign (rnd_cookie rnd) now peer s in
  (mkNodeIdHandshakeQuery <$> cookie, s).

Definition prepare_response (rnd : Randomness) (hp : HandshakeProcess) (query : NodeIdHandshakeQuery) (v2 : bool)
    : NodeIdHandshakeResponse :=
  if v2 then response_new_v2 (rnd_salt rnd) (query_cookie query) (hp_node_id_key hp) (hp_genesis_hash hp)
  else response_new_v1 (query_cookie query) (hp_node_id_key hp).

(** [Err] when no cookie could be made. *)
Definition initiate_handshake (rnd : Randomness) (now : Z) (peer : SocketAddrV6) (s : SynCookies)
    : result unit NodeIdHandshake * SynCookies :=
  let '(query, s) := prepare_query rnd now peer s in
  (match query with
   | None => Err tt
   | Some query => Ok (mkNodeIdHandshake (Some query) None true)
   end, s).

Definition create_response (rnd : Randomness) (now : Z) (hp : HandshakeProcess) (query : NodeIdHandshakeQuery)
    (v2 : bool) (peer : SocketAddrV6) (s : SynCookies) : NodeIdHandshake * SynCookies :=
  let response := prepare_response rnd hp query v2 in
  let '(own_query, s) := prepare_query rnd now peer s in
  (mkNodeIdHandshake own_query (Some response)
     (bool_decide (is_Some own_query) || bool_decide (is_Some (resp_v2 response))), s).

Definition verify_response (hp : HandshakeProcess) (response : NodeIdHandshakeResponse) (peer : SocketAddrV6)
    (s : SynCookies) : option (result HandshakeResponseError unit * SynCookies) :=
  if resp_node_id response =? public_key (hp_node_id_key hp) then Some (Err OwnNodeId, s)
  else if match resp_v2 response with
          | Some v2 => negb (v2_genesis v2 =? hp_genesis_hash hp)
          | None => false
          end then Some (Err InvalidGenesis, s)
  else
    '(cookie, s) ← sc_cookie peer s;
    match cookie with
    | None => Some (Err MissingCookie, s)
    | Some cookie =>
        Some (if response_validate response cookie then Ok tt else Err InvalidSignature, s)
    end.

(** The node id of the peer, if it has proved it, and our answer. *)
Definition process_handshake (rnd : Randomness) (now : Z) (hp : HandshakeProcess) (message : NodeIdHandshake)
    (peer : SocketAddrV6) (s : SynCookies)
    : option (result HandshakeResponseError (option NodeId * option NodeIdHandshake) * HandshakeProcess * SynCookies) :=
  if negb (bool_decide (is_Some (nh_query message))) && negb (bool_decide (is_Some (nh_response message))) then
    Some (Err EmptyResponse, hp, s)
  else if bool_decide (is_Some (nh_query message)) && hp_handshake_received hp then
    Some (Err MultipleQueries, hp, s)
  else
    let hp := mkHandshakeProcess (hp_genesis_hash hp) (hp_node_id_key hp) true in
    let '(our_response, s) :=
      match nh_query message with
      | Some query =>
          let '(r, s) := create_response rnd now hp query (nh_is_v2 message) peer s in (Some r, s)
      | None => (None, s)
      end in
    match nh_response message with
    | Some their_response =>
        '(r, s) ← verify_response hp their_response peer s;
        Some (match r with
              | Ok _ => Ok (Some (resp_node_id their_response), our_response)
              | Err e => Err e
              end, hp, s)
    | None => Some (Ok (None, our_response), hp, s)
    end.
End handshake.
