(* ===== verification/HandshakeTheorems.v ===== *)
(** * What the handshake proves (network_protocol/src/syn_cookies.rs,
    handshake_process.rs)

    The cookie store is consistent and bounded under any sequence of
    operations; a node id is accepted only with a signature on a cookie that
    was made for this endpoint, and every cookie is good for one acceptance. *)

From S2P Require Import Prelude Types Blocks Votes Election Messages MessageCodec Handshake.

(** ** The cookie store *)

Definition cookies_of_ip (ip : Z) (m : gmap SocketAddrV6 SynCookieInfo) : gset SocketAddrV6 :=
  filter (fun e => sa_ip e = ip) (dom m).

(** The counters agree with the cookies, and none is above the limit. *)
Record cookies_ok (s : SynCookies) : Prop := {
  co_count : forall ip, default 0 (sc_cookies_per_ip s !! ip) = Z.of_nat (size (cookies_of_ip ip (sc_cookies s)));
  co_limit : forall ip, default 0 (sc_cookies_per_ip s !! ip) <= Z.max 0 (sc_max_cookies_per_ip s);
}.

Lemma cookies_ok_new n : cookies_ok (syn_cookies_new n).
Proof.
  split; intros ip; cbn [syn_cookies_new sc_cookies_per_ip]; rewrite lookup_empty; cbn [default]; [|cbn; lia].
  assert (cookies_of_ip ip (sc_cookies (syn_cookies_new n)) = ∅) as -> by (unfold cookies_of_ip; cbn; set_solver).
  by rewrite size_empty.
Qed.

Lemma cookies_of_ip_insert ip e i m :
  m !! e = None ->
  Z.of_nat (size (cookies_of_ip ip (<[e := i]> m))) =
  Z.of_nat (size (cookies_of_ip ip m)) + if decide (sa_ip e = ip) then 1 else 0.
Proof.
  intros Hm. unfold cookies_of_ip. cbn. rewrite dom_insert_L, filter_union_L by apply _.
  assert (e ∉ dom m) by (by apply not_elem_of_dom).
  rewrite size_union by set_solver. destruct (decide (sa_ip e = ip)).
  - assert (filter (fun e0 => sa_ip e0 = ip) {[e]} = ({[e]} : gset SocketAddrV6)) as -> by set_solver.
    rewrite size_singleton. lia.
  - assert (filter (fun e0 => sa_ip e0 = ip) {[e]} = (∅ : gset SocketAddrV6)) as -> by set_solver.
    rewrite size_empty. lia.
Qed.

Lemma cookies_of_ip_delete ip e m :
  is_Some (m !! e) ->
  Z.of_nat (size (cookies_of_ip ip (delete e m))) =
  Z.of_nat (size (cookies_of_ip ip m)) - if decide (sa_ip e = ip) then 1 else 0.
Proof.
  intros [i Hi]. pose proof (cookies_of_ip_insert ip e i (delete e m) (lookup_delete_eq _ _)) as E.
  rewrite insert_delete_id in E by done. lia.
Qed.

(** A cookie leaves the store together with its count. *)
Lemma remove_cookie_ok e s :
  cookies_ok s -> is_Some (sc_cookies s !! e) ->
  exists s', dec_cookie_count (sa_ip e) (sc_remove e s) = Some s' /\ cookies_ok s' /\
    sc_cookies s' = delete e (sc_cookies s) /\ sc_max_cookies_per_ip s' = sc_max_cookies_per_ip s.
Proof.
  intros [Hc Hl] He. destruct s as [m p n]. unfold dec_cookie_count, sc_remove.
  cbn [sc_cookies sc_cookies_per_ip sc_max_cookies_per_ip] in *.
  assert (0 < default 0 (p !! sa_ip e)) as Hpos.
  { rewrite Hc. assert (e ∈ cookies_of_ip (sa_ip e) m) as Hin.
    { apply elem_of_filter. split; [done|]. by apply elem_of_dom. }
    destruct (decide (size (cookies_of_ip (sa_ip e) m) = 0%nat)) as [E|]; [|lia].
    apply size_empty_inv in E. set_solver. }
  apply Z.ltb_lt in Hpos as Hb. rewrite Hb. eexists. split; [done|]. split; [|done]. split; intros ip; cbn.
  - rewrite cookies_of_ip_delete, <- (Hc ip) by done. destruct (decide (sa_ip e = ip)) as [<-|].
    + by rewrite lookup_insert_eq.
    + rewrite lookup_insert_ne by done. lia.
  - specialize (Hl ip). destruct (decide (sa_ip e = ip)) as [<-|]; [rewrite lookup_insert_eq; cbn; lia|by rewrite lookup_insert_ne].
Qed.

Lemma sc_assign_ok rnd now e s :
  cookies_ok s -> cookies_ok (sc_assign rnd now e s).2.
Proof.
  intros [Hc Hl]. unfold sc_assign. destruct s as [m p n]. cbn [sc_cookies sc_cookies_per_ip sc_max_cookies_per_ip] in *.
  destruct (m !! e) eqn:E; [by split|]. destruct (Z.ltb_spec (default 0 (p !! sa_ip e)) n); cbn [snd].
  - split; intros ip; cbn.
    + rewrite cookies_of_ip_insert, <- (Hc ip) by done.
      destruct (decide (sa_ip e = ip)) as [<-|]; [by rewrite lookup_insert_eq|rewrite lookup_insert_ne by done; lia].
    + specialize (Hl ip). destruct (decide (sa_ip e = ip)) as [<-|]; [rewrite lookup_insert_eq; cbn; lia|by rewrite lookup_insert_ne].
  - assert (forall ip, default 0 (<[sa_ip e := default 0 (p !! sa_ip e)]> p !! ip) = default 0 (p !! ip)) as Ep.
    { intros ip. destruct (decide (sa_ip e = ip)) as [<-|]; [by rewrite lookup_insert_eq|by rewrite lookup_insert_ne]. }
    split; intros ip; cbn; rewrite Ep; [apply Hc|apply Hl].
Qed.

Lemma sc_cookie_ok e s :
  cookies_ok s ->
  exists s', sc_cookie e s = Some (sci_cookie <$> sc_cookies s !! e, s') /\ cookies_ok s' /\
    sc_cookies s' = delete e (sc_cookies s).
Proof.
  intros Hs. unfold sc_cookie. destruct (sc_cookies s !! e) as [i|] eqn:E; cbn.
  - destruct (remove_cookie_ok e s Hs) as (s' & -> & Hs' & Em & _); [by eexists|]. by exists s'.
  - exists s. split_and!; [done|done|]. by rewrite delete_id.
Qed.

Lemma sc_remove_all_ok l s :
  cookies_ok s -> NoDup l -> (forall e, e ∈ l -> is_Some (sc_cookies s !! e)) ->
  exists s', sc_remove_all l s = Some s' /\ cookies_ok s' /\ sc_cookies s' = foldr delete (sc_cookies s) (rev l).
Proof.
  intros Hs Hl. revert s Hs. induction Hl as [|e l Hel _ IH]; intros s Hs Hin; [by exists s|]. cbn [sc_remove_all].
  destruct (remove_cookie_ok e s Hs) as (s1 & -> & Hs1 & Em & _); [apply Hin; by left|]. cbn [mbind option_bind].
  destruct (IH s1 Hs1) as (s2 & -> & Hs2 & Em2).
  { intros e' He'. rewrite Em, lookup_delete_ne by (by intros ->). apply Hin. by right. }
  exists s2. split_and!; [done|done|]. rewrite Em2, Em. cbn [rev]. by rewrite foldr_app.
Qed.

(** ** Authentication *)

(** What can happen to the cookie store: the operations of all channels, with
    arbitrary messages of the peers, in any order. *)
Inductive HsEvent :=
  | HsInitiate (rnd : Randomness) (now : Z) (peer : SocketAddrV6)
  | HsProcess (rnd : Randomness) (now : Z) (hp : HandshakeProcess) (message : NodeIdHandshake) (peer : SocketAddrV6)
  | HsPurge (cutoff now : Z).

Section authentication.
Context `{Crypto} `{HO : HashOrder} `{!HashOrderLaws HO}.

Definition hs_step (s : SynCookies) (ev : HsEvent) : option SynCookies :=
  match ev with
  | HsInitiate rnd now peer => Some (initiate_handshake rnd now peer s).2
  | HsProcess rnd now hp message peer => snd <$> process_handshake rnd now hp message peer s
  | HsPurge cutoff now => sc_purge cutoff now s
  end.

Fixpoint hs_run (evs : list HsEvent) (s : SynCookies) : option SynCookies :=
  match evs with
  | [] => Some s
  | ev :: evs => s ← hs_step s ev; hs_run evs s
  end.

(** The node id a step accepts, and the cookie its signature is checked with. *)
Definition hs_accepts (s : SynCookies) (ev : HsEvent) : option (SocketAddrV6 * Cookie * NodeId) :=
  match ev with
  | HsProcess rnd now hp message peer =>
      match process_handshake rnd now hp message peer s with
      | Some (Ok (Some node_id, _), _, _) =>
          Some (peer, match sc_cookies s !! peer with Some i => sci_cookie i | None => rnd_cookie rnd end, node_id)
      | _ => None
      end
  | _ => None
  end.

Fixpoint hs_accepted (evs : list HsEvent) (s : SynCookies) : list (SocketAddrV6 * Cookie * NodeId) :=
  match evs with
  | [] => []
  | ev :: evs =>
      match hs_accepts s ev with Some a => [a] | None => [] end ++
      match hs_step s ev with Some s => hs_accepted evs s | None => [] end
  end.

(** The random cookie a step draws for an endpoint. *)
Definition hs_draw (ev : HsEvent) : option (SocketAddrV6 * Cookie) :=
  match ev with
  | HsInitiate rnd _ peer | HsProcess rnd _ _ _ peer => Some (peer, rnd_cookie rnd)
  | HsPurge _ _ => None
  end.

Definition hs_draws (evs : list HsEvent) : list (SocketAddrV6 * Cookie) := omap hs_draw evs.

Lemma sc_assign_cookies rnd now e s :
  sc_cookies (sc_assign rnd now e s).2 = sc_cookies s \/
  (sc_cookies s !! e = None /\
   sc_cookies (sc_assign rnd now e s).2 = <[e := mkSynCookieInfo rnd now]> (sc_cookies s)).
Proof.
  unfold sc_assign. destruct (sc_cookies s !! e); [by left|].
  destruct (_ <? _); [by right|by left].
Qed.

Lemma initiate_handshake_store rnd now peer s :
  (initiate_handshake rnd now peer s).2 = (sc_assign (rnd_cookie rnd) now peer s).2.
Proof.
  unfold initiate_handshake, prepare_query. by destruct (sc_assign (rnd_cookie rnd) now peer s).
Qed.

Lemma create_response_store rnd now hp query v2 peer s :
  (create_response rnd now hp query v2 peer s).2 = (sc_assign (rnd_cookie rnd) now peer s).2.
Proof.
  unfold create_response, prepare_query. by destruct (sc_assign (rnd_cookie rnd) now peer s).
Qed.

(** A response is only right with the pending cookie of its endpoint, and
    checking it takes the cookie out of the store. *)
Lemma verify_response_ok hp response peer s :
  cookies_ok s ->
  exists r s', verify_response hp response peer s = Some (r, s') /\ cookies_ok s' /\
    (sc_cookies s' = sc_cookies s \/ sc_cookies s' = delete peer (sc_cookies s)) /\
    (r = Ok tt -> exists i, sc_cookies s !! peer = Some i /\ sc_cookies s' = delete peer (sc_cookies s) /\
      response_validate response (sci_cookie i) = true /\
      resp_node_id response <> public_key (hp_node_id_key hp) /\
      forall v2, resp_v2 response = Some v2 -> v2_genesis v2 = hp_genesis_hash hp).
Proof using.
  intros Hs. unfold verify_response.
  destruct (Z.eqb_spec (resp_node_id response) (public_key (hp_node_id_key hp))); [by eexists _, s; split_and!; [done|done|by left|]|].
  destruct (match resp_v2 response with Some v2 => negb (v2_genesis v2 =? hp_genesis_hash hp) | None => false end) eqn:Eg;
    [by eexists _, s; split_and!; [done|done|by left|]|].
  destruct (sc_cookie_ok peer s Hs) as (s' & -> & Hs' & Em). cbn [mbind option_bind].
  destruct (sc_cookies s !! peer) as [i|] eqn:Ei; cbn [fmap option_fmap option_map];
    [|by eexists _, s'; split_and!; [done|done|by right|]].
  eexists _, s'. split_and!; [done|done|by right|].
  destruct (response_validate response (sci_cookie i)) eqn:Ev; [|done]. intros _. exists i. split_and!; try done.
  intros v2 Ev2. rewrite Ev2 in Eg. by destruct (Z.eqb_spec (v2_genesis v2) (hp_genesis_hash hp)).
Qed.

#[local] Instance byte_eq_dec : EqDecision byte := Byte.byte_eq_dec.

(** One when the cookie [c] is pending for the endpoint [e]. *)
Definition stored_at (s : SynCookies) (e : SocketAddrV6) (c : Cookie) : nat :=
  if decide (sci_cookie <$> sc_cookies s !! e = Some c) then 1 else 0.

Definition times {A} `{EqDecision A} (x : A) (l : list A) : nat := length (filter (fun y => y = x) l).

Definition opt_list {A} (o : option A) : list A := match o with Some x => [x] | None => [] end.

(** A step uses what was pending or what it has drawn itself. *)
Definition accounted (s s' : SynCookies) (ev : HsEvent) : Prop :=
  forall e c, (times (e, c) (opt_list (fst <$> hs_accepts s ev)) + stored_at s' e c <=
               stored_at s e c + times (e, c) (opt_list (hs_draw ev)))%nat.

Lemma times_draw_assign rnd now peer s e c :
  (stored_at (sc_assign (rnd_cookie rnd) now peer s).2 e c <=
   stored_at s e c + times (e, c) [(peer, rnd_cookie rnd)])%nat.
Proof.
  unfold stored_at. destruct (sc_assign_cookies (rnd_cookie rnd) now peer s) as [->|[Hn ->]]; [lia|].
  unfold times. rewrite filter_cons. destruct (decide (e = peer)) as [->|Hne].
  - rewrite lookup_insert_eq, Hn. cbn [fmap option_fmap option_map sci_cookie].
    destruct (decide (Some (rnd_cookie rnd) = Some c)) as [[= <-]|]; [|lia].
    destruct (decide ((peer, rnd_cookie rnd) = (peer, rnd_cookie rnd))); [cbn; lia|done].
  - rewrite lookup_insert_ne by done. lia.
Qed.

Lemma stored_at_delete s s' peer e c :
  sc_cookies s' = delete peer (sc_cookies s) -> (stored_at s' e c <= stored_at s e c)%nat.
Proof.
  intros E. unfold stored_at. rewrite E. destruct (decide (peer = e)) as [->|].
  - rewrite lookup_delete_eq, decide_False by done. lia.
  - by rewrite lookup_delete_ne.
Qed.

(** The store at the time a response is checked. *)
Definition queried (rnd : Randomness) (now : Z) (message : NodeIdHandshake) (peer : SocketAddrV6) (s : SynCookies)
    : SynCookies :=
  match nh_query message with Some _ => (sc_assign (rnd_cookie rnd) now peer s).2 | None => s end.

Lemma queried_ok rnd now message peer s : cookies_ok s -> cookies_ok (queried rnd now message peer s).
Proof. intros. unfold queried. case_match; [by apply sc_assign_ok|done]. Qed.

Lemma queried_stored rnd now message peer s e c :
  (stored_at (queried rnd now message peer s) e c <= stored_at s e c + times (e, c) [(peer, rnd_cookie rnd)])%nat.
Proof. unfold queried. case_match; [apply times_draw_assign|lia]. Qed.

Lemma queried_cookie rnd now message peer s i :
  sc_cookies (queried rnd now message peer s) !! peer = Some i ->
  sci_cookie i = match sc_cookies s !! peer with Some i => sci_cookie i | None => rnd_cookie rnd end.
Proof.
  unfold queried. case_match; [|by intros ->].
  destruct (sc_assign_cookies (rnd_cookie rnd) now peer s) as [->|[-> ->]]; [by intros ->|].
  rewrite lookup_insert_eq. by intros [= <-].
Qed.

(** One message: no panic, and acceptance only of a proved node id. *)
Lemma process_ok rnd now hp message peer s :
  cookies_ok s ->
  exists r hp' s', process_handshake rnd now hp message peer s = Some (r, hp', s') /\ cookies_ok s' /\
    ((sc_cookies s' = sc_cookies s \/ sc_cookies s' = sc_cookies (queried rnd now message peer s) \/
      sc_cookies s' = delete peer (sc_cookies (queried rnd now message peer s))) /\
     forall node_id ours, r = Ok (Some node_id, ours) ->
      exists response i, nh_response message = Some response /\ node_id = resp_node_id response /\
        sc_cookies (queried rnd now message peer s) !! peer = Some i /\
        sc_cookies s' = delete peer (sc_cookies (queried rnd now message peer s)) /\
        response_validate response (sci_cookie i) = true /\ node_id <> public_key (hp_node_id_key hp) /\
        forall v2, resp_v2 response = Some v2 -> v2_genesis v2 = hp_genesis_hash hp).
Proof using.
  intros Hs. unfold process_handshake.
  destruct (_ && _); [eexists _, _, s; split_and!; [done|done|by left|done]|].
  destruct (_ && _); [eexists _, _, s; split_and!; [done|done|by left|done]|].
  set (hp' := mkHandshakeProcess _ _ _).
  destruct (match nh_query message with Some query => _ | None => _ end) as [ours s1] eqn:Eq.
  assert (s1 = queried rnd now message peer s) as ->.
  { unfold queried. destruct (nh_query message) as [q|]; [|by simplify_eq].
    pose proof (create_response_store rnd now hp' q (nh_is_v2 message) peer s) as E.
    destruct (create_response rnd now hp' q (nh_is_v2 message) peer s). by simplify_eq. }
  pose proof (queried_ok rnd now message peer s Hs) as Hq.
  destruct (nh_response message) as [response|]; [|eexists _, _, _; split_and!; [done|done|by right; left|done]].
  destruct (verify_response_ok hp' response peer _ Hq) as (r & s' & -> & Hs' & Hst & Hr). cbn [mbind option_bind].
  eexists _, _, s'. split_and!; [done|done|destruct Hst as [->| ->]; auto|].
  destruct r as [[]|e]; [|done]. destruct (Hr eq_refl) as (i & Hi & Em & Hv & Hne & Hg).
  intros node_id ours' [= <- <-]. by exists response, i.
Qed.

Lemma sc_purge_ok cutoff now s :
  cookies_ok s ->
  exists s', sc_purge cutoff now s = Some s' /\ cookies_ok s' /\ forall e c, (stored_at s' e c <= stored_at s e c)%nat.
Proof.
  intros Hs. unfold sc_purge. set (l := (filter _ (hash_iter (sc_cookies s))).*1).
  assert (NoDup l) as Hnd.
  { eapply sublist_NoDup; [|apply fmap_sublist, sublist_filter].
    rewrite (hash_iter_perm (sc_cookies s)). apply NoDup_fst_map_to_list. }
  destruct (sc_remove_all_ok l s Hs Hnd) as (s' & -> & Hs' & Em).
  { intros e ([e' i] & -> & [_ He]%list_elem_of_filter)%list_elem_of_fmap.
    rewrite (hash_iter_perm (sc_cookies s)), elem_of_map_to_list in He. by eexists. }
  exists s'. split_and!; [done|done|]. intros e c. unfold stored_at. rewrite Em. clear Em.
  assert (foldr delete (sc_cookies s) (rev l) !! e = sc_cookies s !! e \/ foldr delete (sc_cookies s) (rev l) !! e = None) as [->| ->].
  { induction (rev l) as [|e' l' IH]; [by left|]. cbn. destruct (decide (e' = e)) as [->|].
    - right. apply lookup_delete_eq.
    - by rewrite lookup_delete_ne. }
  - lia.
  - rewrite decide_False by done. lia.
Qed.

Lemma hs_step_ok s ev :
  cookies_ok s -> exists s', hs_step s ev = Some s' /\ cookies_ok s' /\ accounted s s' ev.
Proof.
  intros Hs. destruct ev as [rnd now peer|rnd now hp message peer|cutoff now]; cbn [hs_step].
  - rewrite initiate_handshake_store. eexists. split_and!; [done|by apply sc_assign_ok|].
    intros e c. apply times_draw_assign.
  - destruct (process_ok rnd now hp message peer s Hs) as (r & hp' & s' & E & Hs' & Hst & Hr).
    rewrite E. exists s'. split_and!; [done|done|]. intros e c. cbn [hs_accepts hs_draw opt_list]. rewrite E.
    pose proof (queried_stored rnd now message peer s e c) as Hq. set (q := queried rnd now message peer s) in *.
    assert (stored_at s' e c <= stored_at s e c + times (e, c) [(peer, rnd_cookie rnd)])%nat as Hle.
    { destruct Hst as [E'|[E'|E']]; [unfold stored_at; rewrite E'; lia|unfold stored_at in *; by rewrite E'|].
      pose proof (stored_at_delete q s' peer e c E'). lia. }
    destruct r as [[[id|] ours]|]; try exact Hle. destruct (Hr id ours eq_refl) as (response & i & _ & _ & Hi & Ed & _).
    rewrite <- (queried_cookie _ _ _ _ _ _ Hi). cbn [fmap option_fmap option_map fst opt_list].
    unfold times at 1. rewrite filter_cons. destruct (decide ((peer, sci_cookie i) = (e, c))) as [[= <- <-]|]; [|exact Hle].
    enough (stored_at s' peer (sci_cookie i) = 0%nat /\ stored_at q peer (sci_cookie i) = 1%nat) by (rewrite filter_nil; cbn [length]; lia).
    unfold stored_at. split.
    + by rewrite Ed, lookup_delete_eq, decide_False.
    + by rewrite Hi, decide_True.
  - destruct (sc_purge_ok cutoff now s Hs) as (s' & E & Hs' & Hle). exists s'. split_and!; [done|done|].
    intros e c. specialize (Hle e c). cbn [hs_accepts hs_draw opt_list fmap option_fmap option_map].
    unfold times. cbn. lia.
Qed.

Lemma times_app {A} `{EqDecision A} (x : A) l k : times x (l ++ k) = (times x l + times x k)%nat.
Proof using. unfold times. by rewrite filter_app, length_app. Qed.

Lemma hs_run_ok evs s :
  cookies_ok s ->
  exists s', hs_run evs s = Some s' /\ cookies_ok s' /\
    forall e c, (times (e, c) (fst <$> hs_accepted evs s) + stored_at s' e c <=
                 stored_at s e c + times (e, c) (hs_draws evs))%nat.
Proof.
  revert s. induction evs as [|ev evs IH]; intros s Hs; [exists s; split_and!; try done; cbn; lia|].
  destruct (hs_step_ok s ev Hs) as (s1 & E & Hs1 & Ha). cbn [hs_run hs_accepted]. rewrite E. cbn [mbind option_bind].
  destruct (IH s1 Hs1) as (s2 & -> & Hs2 & Hle). exists s2. split_and!; [done|done|]. intros e c.
  specialize (Ha e c). specialize (Hle e c). rewrite fmap_app, times_app.
  assert (hs_draws (ev :: evs) = opt_list (hs_draw ev) ++ hs_draws evs) as ->
    by (unfold hs_draws; cbn; by destruct (hs_draw ev)).
  rewrite times_app. assert (fst <$> opt_list (hs_accepts s ev) = opt_list (fst <$> hs_accepts s ev)) as Ef
    by (by destruct (hs_accepts s ev)).
  unfold opt_list in Ef at 1. rewrite Ef. lia.
Qed.

(** C27. Whatever the peers send and in whatever order the channels work: the
    cookie store never panics, its counters are exact and no IP address holds
    more cookies than allowed; a node id is accepted on a connection only
    with its own signature over a cookie this node made for this very
    endpoint, never this node's own id nor another genesis block; and no
    cookie lets more responses pass than it was drawn for, so with cookies
    that do not repeat a recorded response cannot be replayed. *)
Theorem node_id_authenticated (max_cookies : Z) (evs : list HsEvent) :
  exists s, hs_run evs (syn_cookies_new max_cookies) = Some s /\ cookies_ok s /\
    (forall e c, (times (e, c) (fst <$> hs_accepted evs (syn_cookies_new max_cookies)) <=
                  times (e, c) (hs_draws evs))%nat) /\
    forall rnd now hp message peer e c node_id,
      hs_accepts s (HsProcess rnd now hp message peer) = Some (e, c, node_id) ->
      exists response, nh_response message = Some response /\ e = peer /\ node_id = resp_node_id response /\
        verify node_id (data_to_sign (resp_v2 response) c) (resp_signature response) = true /\
        node_id <> public_key (hp_node_id_key hp) /\
        forall v2, resp_v2 response = Some v2 -> v2_genesis v2 = hp_genesis_hash hp.
Proof.
  destruct (hs_run_ok evs (syn_cookies_new max_cookies) (cookies_ok_new _)) as (s & E & Hs & Hle).
  exists s. split_and!; [done|done| |].
  - intros e c. specialize (Hle e c). unfold stored_at in Hle at 2. cbn [syn_cookies_new sc_cookies] in Hle.
    rewrite lookup_empty, (decide_False (P := (_ = Some c))) in Hle by done. lia.
  - intros rnd now hp message peer e c node_id Ha. cbn [hs_accepts] in Ha.
    destruct (process_ok rnd now hp message peer s Hs) as (r & hp' & s' & Ep & _ & _ & Hr). rewrite Ep in Ha.
    destruct r as [[[id|] ours]|]; try done. destruct (Hr id ours eq_refl) as (response & i & Hresp & -> & Hi & _ & Hv & Hne & Hg).
    injection Ha as <- <- <-. exists response. rewrite <- (queried_cookie _ _ _ _ _ _ Hi). split_and!; try done.
Qed.
End authentication.

(** ** Two honest nodes find together *)

Section honest.
Context `{Crypto} `{!CryptoLaws _}.

Lemma response_new_v2_valid salt cookie key genesis :
  response_validate (response_new_v2 salt cookie key genesis) cookie = true.
Proof. unfold response_validate. cbn. apply verify_sign. Qed.

Lemma sc_assign_fresh rnd now e s :
  sc_cookies s !! e = None -> default 0 (sc_cookies_per_ip s !! sa_ip e) < sc_max_cookies_per_ip s ->
  exists s', sc_assign rnd now e s = (Some rnd, s') /\ sc_cookies s' !! e = Some (mkSynCookieInfo rnd now).
Proof using.
  intros He Hl. unfold sc_assign. rewrite He. apply Z.ltb_lt in Hl. rewrite Hl. eexists. split; [done|].
  cbn. apply lookup_insert_eq.
Qed.

(** A correct response is accepted while its cookie is pending. *)
Lemma verify_response_accepts hp salt key peer i s :
  cookies_ok s -> sc_cookies s !! peer = Some i -> public_key key <> public_key (hp_node_id_key hp) ->
  exists s', verify_response hp (response_new_v2 salt (sci_cookie i) key (hp_genesis_hash hp)) peer s = Some (Ok tt, s') /\
    cookies_ok s'.
Proof.
  intros Hs Hi Hne. unfold verify_response. cbn [resp_node_id resp_v2 response_new_v2 response_sign].
  destruct (Z.eqb_spec (public_key key) (public_key (hp_node_id_key hp))); [done|]. cbn [v2_genesis].
  rewrite Z.eqb_refl. cbn [negb]. destruct (sc_cookie_ok peer s Hs) as (s' & -> & Hs' & _). rewrite Hi.
  cbn [mbind option_bind fmap option_fmap option_map]. exists s'.
  pose proof (response_new_v2_valid salt (sci_cookie i) key (hp_genesis_hash hp)) as Hv.
  unfold response_new_v2, response_sign in Hv |- *. by rewrite Hv.
Qed.

(** Two nodes with different keys and the same genesis block that both
    still have room for a cookie of the other side complete the handshake:
    the initiator's query is answered with a response and a query, the
    initiator accepts the other node's id and answers, and this answer makes
    the other node accept the initiator's id. *)
Theorem handshake_completes (genesis key_a key_b : Z) (addr_a addr_b : SocketAddrV6) (rnd1 rnd2 rnd3 rnd4 : Randomness)
    (now : Z) (sa sb : SynCookies) :
  public_key key_a <> public_key key_b -> cookies_ok sa -> cookies_ok sb ->
  sc_cookies sa !! addr_b = None -> default 0 (sc_cookies_per_ip sa !! sa_ip addr_b) < sc_max_cookies_per_ip sa ->
  sc_cookies sb !! addr_a = None -> default 0 (sc_cookies_per_ip sb !! sa_ip addr_a) < sc_max_cookies_per_ip sb ->
  let hp_a := handshake_process_new genesis key_a in
  let hp_b := handshake_process_new genesis key_b in
  exists m1 m2 m3 sa1 sb1 hp_a' hp_b' hp_b'' sa2 sb2,
    initiate_handshake rnd1 now addr_b sa = (Ok m1, sa1) /\
    process_handshake rnd2 now hp_b m1 addr_a sb = Some (Ok (None, Some m2), hp_b', sb1) /\
    process_handshake rnd3 now hp_a m2 addr_b sa1 = Some (Ok (Some (public_key key_b), Some m3), hp_a', sa2) /\
    process_handshake rnd4 now hp_b' m3 addr_a sb1 = Some (Ok (Some (public_key key_a), None), hp_b'', sb2).
Proof.
  intros Hk Hsa Hsb Ha Hla Hb Hlb hp_a hp_b.
  destruct (sc_assign_fresh (rnd_cookie rnd1) now addr_b sa Ha Hla) as (sa1 & Ea & Hca).
  destruct (sc_assign_fresh (rnd_cookie rnd2) now addr_a sb Hb Hlb) as (sb1 & Eb & Hcb).
  pose proof (sc_assign_ok (rnd_cookie rnd1) now addr_b sa Hsa) as Hsa1. rewrite Ea in Hsa1.
  pose proof (sc_assign_ok (rnd_cookie rnd2) now addr_a sb Hsb) as Hsb1. rewrite Eb in Hsb1. cbn [snd] in *.
  set (hp_a' := mkHandshakeProcess genesis key_a true). set (hp_b' := mkHandshakeProcess genesis key_b true).
  destruct (verify_response_accepts hp_a' (rnd_salt rnd2) key_b addr_b _ sa1 Hsa1 Hca ltac:(cbn; congruence)) as (sa2 & Eva & _).
  destruct (verify_response_accepts hp_b' (rnd_salt rnd3) key_a addr_a _ sb1 Hsb1 Hcb Hk) as (sb2 & Evb & _).
  eexists _, _, _, sa1, sb1, hp_a', hp_b', hp_b', sa2, sb2. split_and!.
  - unfold initiate_handshake, prepare_query. by rewrite Ea.
  - unfold process_handshake, create_response, prepare_query. cbn -[prepare_response]. by rewrite Eb.
  - unfold process_handshake, create_response, prepare_query. cbn -[prepare_response verify_response].
    assert (sc_assign (rnd_cookie rnd3) now addr_b sa1 = (None, sa1)) as -> by (unfold sc_assign; by rewrite Hca).
    cbn -[verify_response response_new_v2]. cbn -[verify_response response_new_v2] in Eva.
    fold hp_a'. by rewrite Eva.
  - unfold process_handshake. cbn -[verify_response response_new_v2].
    cbn -[verify_response response_new_v2] in Evb. fold hp_b'. by rewrite Evb.
Qed.
End honest.

(** ** Examples *)

Definition sample_addr_a : SocketAddrV6 := mkSocketAddrV6 0xffff0a000001 7075 0 0.
Definition sample_addr_b : SocketAddrV6 := mkSocketAddrV6 0xffff0a000002 7075 0 0.
Definition sample_rnd (n : Z) : Randomness := mkRandomness (replicate 32 (byte_of n)) (replicate 32 (byte_of (n + 1))).

Definition sample_events : list HsEvent :=
  [HsInitiate (sample_rnd 1) 0 sample_addr_b;
   HsProcess (sample_rnd 2) 5 (handshake_process_new 99 7)
     (mkNodeIdHandshake None (Some (@response_new_v2 model_crypto [] (rnd_cookie (sample_rnd 1)) 8 99)) true) sample_addr_b;
   HsInitiate (sample_rnd 3) 6 sample_addr_b;
   HsPurge 10 20].

Lemma node_id_authenticated_witness :
  exists s, @hs_run model_crypto trie_order sample_events (syn_cookies_new 10) = Some s /\ cookies_ok s.
Proof.
  destruct (@node_id_authenticated model_crypto trie_order trie_order_laws 10 sample_events) as (s & E & Hs & _).
  exact (ex_intro _ s (conj E Hs)).
Defined.

Lemma handshake_completes_witness :
  exists m1 sa1, @initiate_handshake (sample_rnd 1) 0 sample_addr_b (syn_cookies_new 10) = (Ok m1, sa1) /\
  exists m2 m3 hp_b' hp_a' sb1 sa2,
    @process_handshake model_crypto (sample_rnd 2) 0 (handshake_process_new 99 8) m1 sample_addr_a (syn_cookies_new 10)
      = Some (Ok (None, Some m2), hp_b', sb1) /\
    @process_handshake model_crypto (sample_rnd 3) 0 (handshake_process_new 99 7) m2 sample_addr_b sa1
      = Some (Ok (Some 8, Some m3), hp_a', sa2).
Proof.
  assert (@public_key model_crypto 7 <> @public_key model_crypto 8) as Hk by (by vm_compute).
  assert (cookies_ok (syn_cookies_new 10)) as Hs by apply cookies_ok_new.
  assert (sc_cookies (syn_cookies_new 10) !! sample_addr_b = None) as Hb by (by vm_compute).
  assert (sc_cookies (syn_cookies_new 10) !! sample_addr_a = None) as Ha by (by vm_compute).
  assert (default 0 (sc_cookies_per_ip (syn_cookies_new 10) !! sa_ip sample_addr_b) < 10) as Hlb by (by vm_compute).
  assert (default 0 (sc_cookies_per_ip (syn_cookies_new 10) !! sa_ip sample_addr_a) < 10) as Hla by (by vm_compute).
  destruct (@handshake_completes model_crypto model_crypto_laws 99 7 8 sample_addr_a sample_addr_b
    (sample_rnd 1) (sample_rnd 2) (sample_rnd 3) (sample_rnd 4) 0 _ _ Hk Hs Hs Hb Hlb Ha Hla)
    as (m1 & m2 & m3 & sa1 & sb1 & hp_a' & hp_b' & hp_b'' & sa2 & sb2 & E1 & E2 & E3 & _).
  exists m1, sa1. split; [exact E1|]. exists m2, m3, hp_b', hp_a', sb1, sa2. split; [exact E2|exact E3].
Defined.
