(* ===== verification/Peers.v ===== *)
(** * Addresses, connection attempts and excluded peers
    (network/src/utils.rs, attempt_container.rs, peer_exclusion.rs)

    IPv6 addresses are the 128-bit numbers of their octets, times the [i128]
    nanoseconds of [Timestamp]. A panic is [None]. *)

From S2P Require Import Prelude Types Election Messages Collections.

(** ** Addresses (utils.rs) *)

Abbreviation Ipv6Addr := Z (only parsing).

Definition octets (ip : Ipv6Addr) : list byte := to_be_bytes 16 ip.

(** The first twelve octets are those of [::ffff:0:0/96]. *)
Definition is_ipv4_mapped (ip : Ipv6Addr) : bool :=
  bool_decide (u8_of <$> take 12 (octets ip) = [0; 0; 0; 0; 0; 0; 0; 0; 0; 0; 0xff; 0xff]).

Definition fill_remaining_bits (ip : Ipv6Addr) (prefix_bits filler : Z) : Ipv6Addr :=
  let index := Z.to_nat (prefix_bits / 8) in
  from_be_bytes (take index (octets ip) ++ replicate (16 - index) (byte_of filler)).

Definition first_ipv6_subnet_address (ip : Ipv6Addr) (prefix_bits : Z) : Ipv6Addr :=
  fill_remaining_bits ip prefix_bits 0.

Definition IPV6_SUBNET_PREFIX_LENGTH : Z := 32.
Definition IPV4_SUBNET_PREFIX_LENGTH : Z := (128 - 32) + 24.

Definition map_address_to_subnetwork (ip : Ipv6Addr) : Ipv6Addr :=
  if is_ipv4_mapped ip then first_ipv6_subnet_address ip IPV4_SUBNET_PREFIX_LENGTH
  else first_ipv6_subnet_address ip IPV6_SUBNET_PREFIX_LENGTH.

Definition ipv4_address_or_ipv6_subnet (ip : Ipv6Addr) : Ipv6Addr :=
  if is_ipv4_mapped ip then ip else first_ipv6_subnet_address ip 48.

(** [Ipv4Addr::new(a, b, c, d).to_ipv6_mapped()] and [Ipv6Addr::new] *)
Definition ipv4 (a b c d : Z) : Ipv6Addr :=
  0xffff00000000 + a * 2 ^ 24 + b * 2 ^ 16 + c * 2 ^ 8 + d.
Definition ipv6 (a b c d e f g h : Z) : Ipv6Addr :=
  fold_left (fun acc x => acc * 2 ^ 16 + x) [a; b; c; d; e; f; g; h] 0.

Definition LOCALHOST : Ipv6Addr := 1.
Definition UNSPECIFIED : Ipv6Addr := 0.

Definition in_range (ip : Ipv6Addr) (r : Ipv6Addr * Ipv6Addr) : bool := (r.1 <=? ip) && (ip <=? r.2).

(** The ranges that are never peers: RFC 1700, RFC 5737, IPv4 multicast, RFC
    6890, RFC 6666, RFC 3849 and IPv6 multicast. *)
Definition RESERVED : list (Ipv6Addr * Ipv6Addr) :=
  [(ipv4 0 0 0 0, ipv4 0 0xff 0xff 0xff);
   (ipv4 0xc0 0x00 0x02 0x00, ipv4 0xc0 0x00 0x02 0xff);
   (ipv4 0xc6 0x33 0x64 0x00, ipv4 0xc6 0x33 0x64 0xff);
   (ipv4 0xcb 0x00 0x71 0x00, ipv4 0xcb 0x00 0x71 0xff);
   (ipv4 0xe0 0x00 0x00 0x00, ipv4 0xef 0xff 0xff 0xff);
   (ipv4 0xf0 0x00 0x00 0x00, ipv4 0xff 0xff 0xff 0xff);
   (ipv6 0x100 0 0 0 0 0 0 0, ipv6 0x100 0 0 0 0xffff 0xffff 0xffff 0xffff);
   (ipv6 0x2001 0xdb8 0 0 0 0 0 0, ipv6 0x2001 0xdb8 0xffff 0xffff 0xffff 0xffff 0xffff 0xffff);
   (ipv6 0xff00 0 0 0 0 0 0 0, ipv6 0xff00 0xffff 0xffff 0xffff 0xffff 0xffff 0xffff 0xffff)].

(** The local ranges: RFC 1918, RFC 6598 and RFC 4193. *)
Definition RESERVED_LOCAL : list (Ipv6Addr * Ipv6Addr) :=
  [(ipv4 0x0a 0 0 0, ipv4 0x0a 0xff 0xff 0xff);
   (ipv4 0xac 0x10 0x00 0x00, ipv4 0xac 0x1f 0xff 0xff);
   (ipv4 0xc0 0xa8 0x00 0x00, ipv4 0xc0 0xa8 0xff 0xff);
   (ipv4 0x64 0x40 0x00 0x00, ipv4 0x64 0x7f 0xff 0xff);
   (ipv6 0xfc00 0 0 0 0 0 0 0, ipv6 0xfd00 0xffff 0xffff 0xffff 0xffff 0xffff 0xffff 0xffff)].

Definition reserved_address (endpoint : SocketAddrV6) (allow_local_peers : bool) : bool :=
  if sa_port endpoint =? 0 then true
  else if existsb (in_range (sa_ip endpoint)) RESERVED then true
  else if negb allow_local_peers && existsb (in_range (sa_ip endpoint)) RESERVED_LOCAL then true
  else false.

(** [impl Sub for Timestamp]: the difference is cast to [u64] nanoseconds. *)
Definition timestamp_sub (a b : Timestamp) : Duration := wrap 64 (a - b).

(** ** AttemptContainer (attempt_container.rs) *)

Inductive ChannelDirection := Inbound | Outbound.

#[global] Instance ChannelDirection_eq_dec : EqDecision ChannelDirection.
Proof. solve_decision. Defined.

Record Attempt := mkAttempt {
  at_endpoint : SocketAddrV6;
  at_address : Ipv6Addr;
  at_subnetwork : Ipv6Addr;
  at_start : Timestamp;
  at_direction : ChannelDirection;
}.

Definition attempt_new (endpoint : SocketAddrV6) (direction : ChannelDirection) (start : Timestamp) : Attempt :=
  mkAttempt endpoint (ipv4_address_or_ipv6_subnet (sa_ip endpoint)) (map_address_to_subnetwork (sa_ip endpoint))
    start direction.

Record AttemptContainer := mkAttemptContainer {
  ac_by_endpoint : gmap SocketAddrV6 Attempt;
  ac_by_address : gmap Ipv6Addr (list SocketAddrV6);
  ac_by_subnetwork : gmap Ipv6Addr (list SocketAddrV6);
}.

Definition attempts_empty : AttemptContainer := mkAttemptContainer ∅ ∅ ∅.

Definition attempts_insert (endpoint : SocketAddrV6) (direction : ChannelDirection) (start : Timestamp)
    (c : AttemptContainer) : bool * AttemptContainer :=
  match ac_by_endpoint c !! endpoint with
  | Some _ => (false, c)
  | None =>
      let attempt := attempt_new endpoint direction start in
      (true, mkAttemptContainer (<[endpoint := attempt]> (ac_by_endpoint c))
               (index_push (at_address attempt) endpoint (ac_by_address c))
               (index_push (at_subnetwork attempt) endpoint (ac_by_subnetwork c)))
  end.

Definition attempts_remove (endpoint : SocketAddrV6) (c : AttemptContainer) : option AttemptContainer :=
  match ac_by_endpoint c !! endpoint with
  | None => Some c
  | Some attempt =>
      by_address ← index_remove (at_address attempt) endpoint (ac_by_address c);
      by_subnetwork ← index_remove (at_subnetwork attempt) endpoint (ac_by_subnetwork c);
      Some (mkAttemptContainer (delete endpoint (ac_by_endpoint c)) by_address by_subnetwork)
  end.

Definition attempts_count_by_subnetwork (subnet : Ipv6Addr) (c : AttemptContainer) : nat :=
  match ac_by_subnetwork c !! subnet with Some entries => length entries | None => 0 end.

Definition attempts_count_by_address (address : Ipv6Addr) (c : AttemptContainer) : nat :=
  match ac_by_address c !! address with Some entries => length entries | None => 0 end.

(** [min_by_key]: the first of the smallest. *)
Fixpoint min_by_start (l : list Attempt) : option Attempt :=
  match l with
  | [] => None
  | a :: l => match min_by_start l with
              | None => Some a
              | Some b => Some (if at_start a <=? at_start b then a else b)
              end
  end.

Definition get_oldest `{HashOrder} (c : AttemptContainer) : option (Timestamp * SocketAddrV6) :=
  (fun a => (at_start a, at_endpoint a)) <$>
    min_by_start (filter (fun a => at_direction a = Outbound) (hash_iter (ac_by_endpoint c)).*2).

(** The loop removes an attempt in each round. *)
Fixpoint attempts_purge_loop `{HashOrder} (fuel : nat) (now : Timestamp) (timeout : Duration) (c : AttemptContainer)
    : run AttemptContainer :=
  match fuel with
  | O => Running
  | S fuel =>
      match get_oldest c with
      | None => Finished c
      | Some (time, endpoint) =>
          if timestamp_sub now time <? timeout then Finished c
          else c ← unwrap (attempts_remove endpoint c); attempts_purge_loop fuel now timeout c
      end
  end.

Definition attempts_purge `{HashOrder} (now : Timestamp) (timeout : Duration) (c : AttemptContainer)
    : run AttemptContainer :=
  attempts_purge_loop (S (size (ac_by_endpoint c))) now timeout c.

(** ** PeerExclusion (peer_exclusion.rs) *)

Record Peer := mkPeer {
  pe_exclude_until : Timestamp;
  pe_address : SocketAddrV6;
  pe_score : Z;
}.

Definition SCORE_LIMIT : Z := 2.
Definition EXCLUDE_TIME : Duration := secs (60 * 60).
Definition EXCLUDE_REMOVE : Duration := secs (60 * 60 * 24).

Definition peer_new (address : SocketAddrV6) (now : Timestamp) : Peer := mkPeer (now + EXCLUDE_TIME) address 1.

Definition exclusion_duration_factor (new_score : Z) : Z :=
  if new_score <=? SCORE_LIMIT then 1 else wrap 32 (wrap 32 new_score * 2).

Definition exclusion_end (new_score : Z) (now : Timestamp) : Timestamp :=
  now + EXCLUDE_TIME * exclusion_duration_factor new_score.

Definition peer_score_up (now : Timestamp) (p : Peer) : Peer :=
  let score := wrap 64 (pe_score p + 1) in mkPeer (exclusion_end score now) (pe_address p) score.

Definition peer_is_excluded (now : Timestamp) (p : Peer) : bool :=
  (SCORE_LIMIT <=? pe_score p) && (now <? pe_exclude_until p).

Definition peer_has_expired (now : Timestamp) (p : Peer) : bool :=
  pe_exclude_until p + EXCLUDE_REMOVE * wrap 32 (pe_score p) <? now.

(** [PeersOrderedByExclusionDate]: the entries of the [BTreeMap], by time. *)
Abbreviation ExclusionDates := (list (Timestamp * list Ipv6Addr)) (only parsing).

Fixpoint dates_insert (ip : Ipv6Addr) (until : Timestamp) (l : ExclusionDates) : ExclusionDates :=
  match l with
  | [] => [(until, [ip])]
  | (t, ips) :: l' =>
      if until <? t then (until, [ip]) :: l
      else if until =? t then (t, ips ++ [ip]) :: l'
      else (t, ips) :: dates_insert ip until l'
  end.

(** [None] is [unwrap] on a missing date. *)
Fixpoint dates_remove (ip : Ipv6Addr) (until : Timestamp) (l : ExclusionDates) : option ExclusionDates :=
  match l with
  | [] => None
  | (t, ips) :: l' =>
      if until =? t then
        Some (match filter (fun x => x <> ip) ips with [] => l' | ips => (t, ips) :: l' end)
      else l'' ← dates_remove ip until l'; Some ((t, ips) :: l'')
  end.

(** The last address of the first date; the inner [None] is [unwrap] on an
    empty list. *)
Definition dates_pop (l : ExclusionDates) : option (option Ipv6Addr * ExclusionDates) :=
  match l with
  | [] => Some (None, [])
  | (t, ips) :: l' =>
      ip ← last ips;
      Some (Some ip, match removelast ips with [] => l' | ips => (t, ips) :: l' end)
  end.

Record PeerExclusion := mkPeerExclusion {
  px_ordered_by_date : ExclusionDates;
  px_by_ip : gmap Ipv6Addr Peer;
  px_max_size : nat;
  px_perma_bans : gset SocketAddrV6;
}.

Definition peer_exclusion_with_max_size (max_size : nat) : PeerExclusion := mkPeerExclusion [] ∅ max_size ∅.

(** Drops the peers whose exclusion ends first until there is room. *)
Fixpoint clean_old_peers (fuel : nat) (x : PeerExclusion) : run PeerExclusion :=
  match fuel with
  | O => Running
  | S fuel =>
      if (1 <? size (px_by_ip x))%nat && (px_max_size x <=? size (px_by_ip x))%nat then
        '(ip, dates) ← unwrap (dates_pop (px_ordered_by_date x));
        ip ← unwrap ip;
        clean_old_peers fuel (mkPeerExclusion dates (delete ip (px_by_ip x)) (px_max_size x) (px_perma_bans x))
      else Finished x
  end.

Definition peer_exclusion_insert (p : Peer) (x : PeerExclusion) : PeerExclusion :=
  mkPeerExclusion (dates_insert (sa_ip (pe_address p)) (pe_exclude_until p) (px_ordered_by_date x))
    (<[sa_ip (pe_address p) := p]> (px_by_ip x)) (px_max_size x) (px_perma_bans x).

Definition peer_misbehaved (endpoint : SocketAddrV6) (now : Timestamp) (x : PeerExclusion) : run (Z * PeerExclusion) :=
  match px_by_ip x !! sa_ip endpoint with
  | Some peer =>
      let peer' := peer_score_up now peer in
      dates ← (if pe_exclude_until peer' =? pe_exclude_until peer then Finished (px_ordered_by_date x)
               else
                 dates ← unwrap (dates_remove (sa_ip (pe_address peer')) (pe_exclude_until peer) (px_ordered_by_date x));
                 Finished (dates_insert (sa_ip (pe_address peer')) (pe_exclude_until peer') dates));
      Finished (pe_score peer',
                mkPeerExclusion dates (<[sa_ip endpoint := peer']> (px_by_ip x)) (px_max_size x) (px_perma_bans x))
  | None =>
      x ← clean_old_peers (S (size (px_by_ip x))) x;
      let peer := peer_new endpoint now in
      Finished (pe_score peer, peer_exclusion_insert peer x)
  end.

Definition perma_ban (peer_addr : SocketAddrV6) (x : PeerExclusion) : PeerExclusion :=
  mkPeerExclusion (px_ordered_by_date x) (px_by_ip x) (px_max_size x) ({[peer_addr]} ∪ px_perma_bans x).

Definition peer_exclusion_remove (endpoint : SocketAddrV6) (x : PeerExclusion) : option PeerExclusion :=
  match px_by_ip x !! sa_ip endpoint with
  | Some item =>
      dates ← dates_remove (sa_ip (pe_address item)) (pe_exclude_until item) (px_ordered_by_date x);
      Some (mkPeerExclusion dates (delete (sa_ip endpoint) (px_by_ip x)) (px_max_size x) (px_perma_bans x))
  | None => Some x
  end.

Definition is_excluded (peer_addr : SocketAddrV6) (now : Timestamp) (x : PeerExclusion) : option (bool * PeerExclusion) :=
  if bool_decide (peer_addr ∈ px_perma_bans x) then Some (true, x)
  else match px_by_ip x !! sa_ip peer_addr with
       | Some peer =>
           x ← (if peer_has_expired now peer then peer_exclusion_remove (pe_address peer) x else Some x);
           Some (peer_is_excluded now peer, x)
       | None => Some (false, x)
       end.
