(* ===== verification/PeersSafe.v ===== *)
(** * The indexes of attempts and excluded peers stay consistent
    (network/src/attempt_container.rs, peer_exclusion.rs) *)

From S2P Require Import Prelude Types Election Messages Collections Peers.

(** ** Exclusion dates *)

Definition dates_of (e : Timestamp * list Ipv6Addr) : list (Timestamp * Ipv6Addr) := pair e.1 <$> e.2.

(** The pairs of date and address a [PeersOrderedByExclusionDate] holds. *)
Definition flat (l : list (Timestamp * list Ipv6Addr)) : list (Timestamp * Ipv6Addr) := concat (dates_of <$> l).

Definition by_date (a b : Timestamp * list Ipv6Addr) : Prop := a.1 < b.1.

Record dates_ok (l : list (Timestamp * list Ipv6Addr)) : Prop := {
  do_sorted : StronglySorted by_date l;
  do_non_empty : Forall (fun e => e.2 <> []) l;
}.

Arguments flat : simpl never.

Lemma flat_cons t ips l : flat ((t, ips) :: l) = (pair t <$> ips) ++ flat l.
Proof. done. Qed.

Lemma dates_insert_flat ip t l : flat (dates_insert ip t l) ≡ₚ (t, ip) :: flat l.
Proof.
  induction l as [|[t' ips] l IH]; [done|]. cbn [dates_insert].
  destruct (t <? t'); [done|]. destruct (Z.eqb_spec t t') as [->|].
  - rewrite !flat_cons, fmap_app, <- (assoc_L (++)). symmetry. apply Permutation_middle.
  - rewrite !flat_cons, IH. by rewrite <- Permutation_middle.
Qed.

Lemma dates_insert_first ip t l e : e ∈ dates_insert ip t l -> e.1 = t \/ exists e', e' ∈ l /\ e'.1 = e.1.
Proof.
  induction l as [|[t' ips] l IH]; cbn [dates_insert]; [intros ->%list_elem_of_singleton; by left|].
  destruct (t <? t'); [intros [->|]%elem_of_cons; [by left|right; by eexists]|].
  destruct (Z.eqb_spec t t') as [->|]; intros [->|He]%elem_of_cons; [by left|right; eexists; split; [by right|done]|..].
  - right. eexists. split; [by left|done].
  - destruct (IH He) as [?|(e' & ? & ?)]; [by left|right; eexists; split; [by right|done]].
Qed.

Lemma dates_insert_ok ip t l : dates_ok l -> dates_ok (dates_insert ip t l).
Proof.
  intros [Hs Hn]. split.
  - clear Hn. induction Hs as [|[t' ips] l Hs IH Hall]; cbn [dates_insert]; [by repeat constructor|].
    destruct (Z.ltb_spec t t'); [|destruct (Z.eqb_spec t t') as [->|]].
    + constructor; [by constructor|]. constructor; [done|]. eapply Forall_impl; [exact Hall|].
      unfold by_date. cbn. lia.
    + by constructor.
    + constructor; [done|]. apply Forall_forall. intros e [E|(e' & He' & E)]%dates_insert_first; unfold by_date; cbn; [lia|].
      rewrite Forall_forall in Hall. specialize (Hall e' He'). unfold by_date in Hall. cbn in Hall. lia.
  - clear Hs. induction Hn as [|[t' ips] l Hi Hn IH]; cbn [dates_insert]; [by repeat constructor|].
    destruct (t <? t'); [by repeat constructor|]. destruct (t =? t'); constructor; try done.
    cbn. intros E. by apply app_eq_nil in E as [_ ?].
Qed.

Lemma dates_ok_cons e l : dates_ok (e :: l) -> dates_ok l.
Proof. intros [Hs Hn]. apply StronglySorted_inv in Hs as [? _]. apply Forall_cons in Hn as [_ ?]. by split. Qed.

Lemma elem_of_flat t ip l : (t, ip) ∈ flat l <-> exists ips, (t, ips) ∈ l /\ ip ∈ ips.
Proof.
  induction l as [|[t' ips] l IH].
  { split; [by intros ?%elem_of_nil|]. by intros (? & ?%elem_of_nil & _). }
  rewrite flat_cons, elem_of_app, list_elem_of_fmap, IH. split.
  - intros [(y & [= -> ->] & Hy)|(ips' & He & Hi)]; eexists; (split; [|done]); [by left|by right].
  - intros (ips' & [[= -> ->]|He]%elem_of_cons & Hi); [left; by exists ip|right; by exists ips'].
Qed.

Lemma dates_remove_ok ip t l :
  dates_ok l -> NoDup (flat l) -> (t, ip) ∈ flat l ->
  exists l', dates_remove ip t l = Some l' /\ dates_ok l' /\ flat l ≡ₚ (t, ip) :: flat l'.
Proof.
  induction l as [|[t' ips] l IH]; intros Hok Hnd Hin; [by apply elem_of_nil in Hin|].
  pose proof (dates_ok_cons _ _ Hok) as Hok'. destruct Hok as [Hs Hn]. cbn [dates_remove].
  apply StronglySorted_inv in Hs as [Hs Hall]. apply Forall_cons in Hn as [Hne Hn].
  rewrite flat_cons in Hnd, Hin |- *. apply NoDup_app in Hnd as (Hnd1 & Hdis & Hnd2).
  destruct (Z.eqb_spec t t') as [->|Hne'].
  - assert (ip ∈ ips) as Hip.
    { apply elem_of_app in Hin as [(y & [= ->] & Hy)%list_elem_of_fmap|Hin]; [done|].
      apply elem_of_flat in Hin as (ips' & He & _). rewrite Forall_forall in Hall. specialize (Hall _ He).
      unfold by_date in Hall. cbn in Hall. lia. }
    pose proof (filter_ne_perm ip ips (NoDup_fmap_1 _ _ Hnd1) Hip) as Hp.
    exists (match filter (fun x => x <> ip) ips with [] => l | ips => (t', ips) :: l end). split; [done|].
    set (k := filter (fun x => x <> ip) ips) in *. clearbody k. rewrite Hp.
    destruct k as [|a k]; [by split|]. split; [|done].
    split; constructor; try done.
  - assert ((t, ip) ∈ flat l) as Hin'.
    { apply elem_of_app in Hin as [(y & [= -> ->] & _)%list_elem_of_fmap|Hin]; done. }
    destruct (IH Hok' Hnd2 Hin') as (l' & -> & [Hs' Hn'] & Hp). exists ((t', ips) :: l'). split; [done|]. split.
    + split; constructor; try done. rewrite Forall_forall in *. intros [t2 ips2] He.
      destruct ips2 as [|a ips2]; [by specialize (Hn' _ He)|].
      assert ((t2, a) ∈ flat l) as Ha.
      { rewrite Hp. right. apply elem_of_flat. eexists. split; [done|by left]. }
      apply elem_of_flat in Ha as (ips3 & He3 & _). specialize (Hall _ He3). done.
    + rewrite flat_cons, Hp. by rewrite <- Permutation_middle.
Qed.

Lemma dates_pop_ok l :
  dates_ok l -> l <> [] ->
  exists t ip l', dates_pop l = Some (Some ip, l') /\ dates_ok l' /\ flat l ≡ₚ (t, ip) :: flat l' /\
    forall t' ip', (t', ip') ∈ flat l -> t <= t'.
Proof.
  intros Hok Hl. destruct l as [|[t ips] l]; [done|]. pose proof (dates_ok_cons _ _ Hok) as Hok'.
  destruct Hok as [Hs Hn]. apply StronglySorted_inv in Hs as [Hs Hall]. apply Forall_cons in Hn as [Hne Hn]. cbn in Hne.
  destruct ips as [|ip ips _] using rev_ind; [done|]. exists t, ip. cbn [dates_pop].
  rewrite last_snoc, removelast_last. cbn [mbind option_bind]. eexists. split; [done|].
  assert (forall t' ip', (t', ip') ∈ flat ((t, ips ++ [ip]) :: l) -> t <= t') as Hmin.
  { intros t' ip' (ips' & [[= -> ->]|He]%elem_of_cons & _)%elem_of_flat; [lia|].
    rewrite Forall_forall in Hall. specialize (Hall _ He). unfold by_date in Hall. cbn in Hall. lia. }
  rewrite flat_cons, fmap_app in *. destruct ips as [|a k]; [by split|]. split; [split; constructor; done|]. split; [|done].
  rewrite flat_cons, <- (assoc_L (++)). symmetry. apply Permutation_middle.
Qed.

(** ** PeerExclusion *)

Definition until_of (e : Ipv6Addr * Peer) : Timestamp * Ipv6Addr := (pe_exclude_until e.2, e.1).

(** The ordered index lists every excluded address once, under the date of
    its peer. *)
Record exclusion_ok (x : PeerExclusion) : Prop := {
  xo_dates : dates_ok (px_ordered_by_date x);
  xo_index : flat (px_ordered_by_date x) ≡ₚ until_of <$> map_to_list (px_by_ip x);
  xo_address : map_Forall (fun ip p => sa_ip (pe_address p) = ip) (px_by_ip x);
}.

Lemma until_nodup (m : gmap Ipv6Addr Peer) : NoDup (until_of <$> map_to_list m).
Proof.
  apply (NoDup_fmap_1 snd). rewrite <- list_fmap_compose.
  change (snd ∘ until_of) with (fst : Ipv6Addr * Peer -> Ipv6Addr). apply NoDup_fst_map_to_list.
Qed.

Lemma exclusion_index x ip p :
  exclusion_ok x -> px_by_ip x !! ip = Some p -> (pe_exclude_until p, ip) ∈ flat (px_ordered_by_date x).
Proof.
  intros Hx E. rewrite (xo_index _ Hx). apply list_elem_of_fmap. exists (ip, p). split; [done|]. by apply elem_of_map_to_list.
Qed.

Lemma exclusion_nodup x : exclusion_ok x -> NoDup (flat (px_ordered_by_date x)).
Proof. intros Hx. rewrite (xo_index _ Hx). apply until_nodup. Qed.

Lemma until_delete (m : gmap Ipv6Addr Peer) ip p l :
  m !! ip = Some p -> (pe_exclude_until p, ip) :: l ≡ₚ until_of <$> map_to_list m ->
  l ≡ₚ until_of <$> map_to_list (delete ip m).
Proof. intros E Hp. rewrite <- (map_to_list_delete m ip p E) in Hp. cbn in Hp. by apply Permutation_cons_inv in Hp. Qed.

Lemma exclusion_remove x ip p :
  exclusion_ok x -> px_by_ip x !! ip = Some p ->
  exists dates, dates_remove ip (pe_exclude_until p) (px_ordered_by_date x) = Some dates /\
    exclusion_ok (mkPeerExclusion dates (delete ip (px_by_ip x)) (px_max_size x) (px_perma_bans x)).
Proof.
  intros Hx E. destruct (dates_remove_ok ip (pe_exclude_until p) (px_ordered_by_date x)) as (l & -> & Hl & Hp);
    [apply Hx|by apply exclusion_nodup|by apply exclusion_index|].
  exists l. split; [done|]. split; cbn; [done|..].
  - eapply until_delete; [exact E|]. by rewrite <- Hp, (xo_index _ Hx).
  - apply map_Forall_delete, Hx.
Qed.

Lemma exclusion_insert x p :
  exclusion_ok x -> px_by_ip x !! sa_ip (pe_address p) = None ->
  exclusion_ok (peer_exclusion_insert p x).
Proof.
  intros Hx E. split; cbn.
  - apply dates_insert_ok, Hx.
  - rewrite dates_insert_flat, (map_to_list_insert _ _ _ E). cbn. by rewrite (xo_index _ Hx).
  - apply map_Forall_insert_2; [done|apply Hx].
Qed.

Lemma peer_exclusion_remove_ok e x :
  exclusion_ok x ->
  exists x', peer_exclusion_remove e x = Some x' /\ exclusion_ok x' /\ px_by_ip x' = delete (sa_ip e) (px_by_ip x) /\
    px_max_size x' = px_max_size x /\ px_perma_bans x' = px_perma_bans x.
Proof.
  intros Hx. unfold peer_exclusion_remove. destruct (px_by_ip x !! sa_ip e) as [p|] eqn:E.
  - destruct (exclusion_remove x _ p Hx E) as (l & Hl & Hok). rewrite (xo_address _ Hx _ _ E), Hl. by eexists.
  - exists x. split; [done|]. split; [done|]. by rewrite delete_id.
Qed.

(** What [clean_old_peers] promises: while there is no room, a peer whose
    exclusion ends first is forgotten. *)
Inductive evicts (max_size : nat) : gmap Ipv6Addr Peer -> gmap Ipv6Addr Peer -> Prop :=
| EvictsDone m : (size m <= 1 \/ size m < max_size)%nat -> evicts max_size m m
| EvictsFirst m m' ip p :
    (1 < size m)%nat -> (max_size <= size m)%nat -> m !! ip = Some p ->
    map_Forall (fun _ p' => pe_exclude_until p <= pe_exclude_until p') m ->
    evicts max_size (delete ip m) m' -> evicts max_size m m'.

Lemma evicts_subseteq n m m' : evicts n m m' -> m' ⊆ m.
Proof. induction 1; [done|]. etrans; [done|]. apply delete_subseteq. Qed.

Lemma exclusion_pop x :
  exclusion_ok x -> px_by_ip x <> ∅ ->
  exists ip p l, dates_pop (px_ordered_by_date x) = Some (Some ip, l) /\ px_by_ip x !! ip = Some p /\
    map_Forall (fun _ p' => pe_exclude_until p <= pe_exclude_until p') (px_by_ip x) /\
    exclusion_ok (mkPeerExclusion l (delete ip (px_by_ip x)) (px_max_size x) (px_perma_bans x)).
Proof.
  intros Hx Hne. destruct (dates_pop_ok (px_ordered_by_date x)) as (t & ip & l & -> & Hl & Hp & Hmin); [apply Hx|..].
  { intros E. pose proof (xo_index _ Hx) as Hi. rewrite E in Hi. symmetry in Hi.
    by apply Permutation_nil_r, fmap_nil_inv, map_to_list_empty_iff in Hi. }
  assert (exists p, px_by_ip x !! ip = Some p /\ pe_exclude_until p = t) as (p & Ep & <-).
  { assert ((t, ip) ∈ until_of <$> map_to_list (px_by_ip x)) as ([ip' p] & [= -> ->] & He)%list_elem_of_fmap
      by (rewrite <- (xo_index _ Hx), Hp; by left).
    exists p. split; [by apply elem_of_map_to_list|done]. }
  exists ip, p, l. split; [done|]. split; [done|]. split.
  - intros ip' p' E'. eapply Hmin. by apply exclusion_index.
  - split; cbn; [done|eapply until_delete; [exact Ep|by rewrite <- Hp, (xo_index _ Hx)]|apply map_Forall_delete, Hx].
Qed.

Lemma clean_old_peers_ok fuel x :
  exclusion_ok x -> (size (px_by_ip x) < fuel)%nat ->
  exists x', clean_old_peers fuel x = Finished x' /\ exclusion_ok x' /\
    evicts (px_max_size x) (px_by_ip x) (px_by_ip x') /\
    px_max_size x' = px_max_size x /\ px_perma_bans x' = px_perma_bans x.
Proof.
  revert x. induction fuel as [|fuel IH]; intros x Hx Hf; [lia|]. cbn [clean_old_peers].
  destruct ((1 <? size (px_by_ip x)) && (px_max_size x <=? size (px_by_ip x)))%nat eqn:Eb.
  2:{ exists x. do 2 (split; [done|]). split; [|done]. constructor.
      apply andb_false_iff in Eb as [Eb%Nat.ltb_ge|Eb%Nat.leb_gt]; lia. }
  apply andb_prop in Eb as [E1%Nat.ltb_lt E2%Nat.leb_le].
  destruct (exclusion_pop x Hx) as (ip & p & l & -> & Ep & Hmin & Hok).
  { intros E. rewrite E, map_size_empty in E1. lia. }
  cbn [unwrap mbind run_bind]. apply IH in Hok as (x' & -> & Hok' & Hev & Hr).
  - exists x'. do 2 (split; [done|]). split; [by eapply EvictsFirst|done].
  - cbn. rewrite map_size_delete, Ep. cbn. lia.
Qed.

Lemma peer_misbehaved_new e now x :
  exclusion_ok x -> px_by_ip x !! sa_ip e = None ->
  exists x' m, peer_misbehaved e now x = Finished (1, x') /\ exclusion_ok x' /\
    evicts (px_max_size x) (px_by_ip x) m /\ px_by_ip x' = <[sa_ip e := peer_new e now]> m /\
    px_max_size x' = px_max_size x /\ px_perma_bans x' = px_perma_bans x.
Proof.
  intros Hx E. unfold peer_misbehaved. rewrite E.
  destruct (clean_old_peers_ok (S (size (px_by_ip x))) x Hx ltac:(lia)) as (x1 & -> & Hx1 & Hev & Hm & Hb).
  eexists _, (px_by_ip x1). split; [done|]. split; [|done].
  apply exclusion_insert; [done|]. cbn. eapply lookup_weaken_None; [exact E|by eapply evicts_subseteq].
Qed.

Lemma peer_misbehaved_known e now x p :
  exclusion_ok x -> px_by_ip x !! sa_ip e = Some p ->
  exists x', peer_misbehaved e now x = Finished (pe_score (peer_score_up now p), x') /\ exclusion_ok x' /\
    px_by_ip x' = <[sa_ip e := peer_score_up now p]> (px_by_ip x) /\
    px_max_size x' = px_max_size x /\ px_perma_bans x' = px_perma_bans x.
Proof.
  intros Hx E. pose proof (xo_address _ Hx _ _ E) as Ha. cbn in Ha. unfold peer_misbehaved. rewrite E.
  destruct (Z.eqb_spec (pe_exclude_until (peer_score_up now p)) (pe_exclude_until p)) as [Et|Et].
  - eexists. split; [done|]. split; [|done]. split; cbn -[peer_score_up]; [apply Hx|..].
    + rewrite (xo_index _ Hx), <- (insert_delete_id _ _ _ E) at 1. rewrite <- (insert_delete_eq _ _ (peer_score_up now p)).
      rewrite !map_to_list_insert by apply lookup_delete_eq. cbn -[peer_score_up]. unfold until_of at 1 3.
      cbn -[peer_score_up]. by rewrite Et.
    + apply map_Forall_insert_2; [done|apply Hx].
  - destruct (exclusion_remove x _ p Hx E) as (l & Hl & Hok).
    change (pe_address (peer_score_up now p)) with (pe_address p). rewrite Ha, Hl. cbn [unwrap mbind run_bind].
    eexists. split; [done|]. split; [|done].
    pose proof (exclusion_insert _ (peer_score_up now p) Hok) as Hi. unfold peer_exclusion_insert in Hi.
    change (pe_address (peer_score_up now p)) with (pe_address p) in Hi. rewrite Ha in Hi.
    cbn [px_by_ip px_ordered_by_date px_max_size px_perma_bans] in Hi.
    rewrite insert_delete_eq in Hi. apply Hi, lookup_delete_eq.
Qed.

Lemma is_excluded_ok e now x :
  exclusion_ok x ->
  exists b x', is_excluded e now x = Some (b, x') /\ exclusion_ok x' /\ px_max_size x' = px_max_size x /\
    px_perma_bans x' = px_perma_bans x /\
    if bool_decide (e ∈ px_perma_bans x) then b = true /\ x' = x
    else match px_by_ip x !! sa_ip e with
         | Some p => b = peer_is_excluded now p /\
             px_by_ip x' = if peer_has_expired now p then delete (sa_ip e) (px_by_ip x) else px_by_ip x
         | None => b = false /\ x' = x
         end.
Proof.
  intros Hx. unfold is_excluded. case_bool_decide; [by exists true, x|].
  destruct (px_by_ip x !! sa_ip e) as [p|] eqn:E; [|by exists false, x].
  destruct (peer_has_expired now p); [|by eexists _, x].
  destruct (peer_exclusion_remove_ok (pe_address p) x Hx) as (x' & -> & Hok & Hd & Hm & Hb).
  eexists _, x'. split; [done|]. rewrite (xo_address _ Hx _ _ E) in Hd. done.
Qed.

(** ** Abstract exclusions

    The promise of [PeerExclusion] to the network: a table of misbehaving
    addresses and the banned endpoints, without the index by date. *)
Record Exclusions := mkExclusions {
  ex_peers : gmap Ipv6Addr Peer;
  ex_bans : gset SocketAddrV6;
}.

Inductive ExclusionOp :=
| Misbehaved (e : SocketAddrV6) (now : Timestamp)
| PermaBan (e : SocketAddrV6)
| Query (e : SocketAddrV6) (now : Timestamp).

Inductive ExclusionOut := Score (score : Z) | Banned | Answer (excluded : bool).

Inductive ex_step (max_size : nat) (s : Exclusions) : ExclusionOp -> ExclusionOut -> Exclusions -> Prop :=
| ExKnown e now p :
    ex_peers s !! sa_ip e = Some p ->
    ex_step max_size s (Misbehaved e now) (Score (pe_score (peer_score_up now p)))
      (mkExclusions (<[sa_ip e := peer_score_up now p]> (ex_peers s)) (ex_bans s))
| ExNew e now m :
    ex_peers s !! sa_ip e = None -> evicts max_size (ex_peers s) m ->
    ex_step max_size s (Misbehaved e now) (Score 1)
      (mkExclusions (<[sa_ip e := peer_new e now]> m) (ex_bans s))
| ExBan e : ex_step max_size s (PermaBan e) Banned (mkExclusions (ex_peers s) ({[e]} ∪ ex_bans s))
| ExQueryBanned e now : e ∈ ex_bans s -> ex_step max_size s (Query e now) (Answer true) s
| ExQueryKnown e now p :
    e ∉ ex_bans s -> ex_peers s !! sa_ip e = Some p ->
    ex_step max_size s (Query e now) (Answer (peer_is_excluded now p))
      (mkExclusions (if peer_has_expired now p then delete (sa_ip e) (ex_peers s) else ex_peers s) (ex_bans s))
| ExQueryUnknown e now :
    e ∉ ex_bans s -> ex_peers s !! sa_ip e = None -> ex_step max_size s (Query e now) (Answer false) s.

Inductive ex_steps (max_size : nat) : Exclusions -> list ExclusionOp -> list ExclusionOut -> Exclusions -> Prop :=
| ExNil s : ex_steps max_size s [] [] s
| ExCons s op out s' ops outs s'' :
    ex_step max_size s op out s' -> ex_steps max_size s' ops outs s'' ->
    ex_steps max_size s (op :: ops) (out :: outs) s''.

(** *** The implementation *)

Definition px_do (op : ExclusionOp) (x : PeerExclusion) : run (ExclusionOut * PeerExclusion) :=
  match op with
  | Misbehaved e now => '(score, x) ← peer_misbehaved e now x; Finished (Score score, x)
  | PermaBan e => Finished (Banned, perma_ban e x)
  | Query e now => '(b, x) ← unwrap (is_excluded e now x); Finished (Answer b, x)
  end.

Fixpoint px_run (ops : list ExclusionOp) (x : PeerExclusion) : run (list ExclusionOut * PeerExclusion) :=
  match ops with
  | [] => Finished ([], x)
  | op :: ops =>
      '(out, x) ← px_do op x;
      '(outs, x) ← px_run ops x;
      Finished (out :: outs, x)
  end.

Definition exclusions (x : PeerExclusion) : Exclusions := mkExclusions (px_by_ip x) (px_perma_bans x).

Lemma evicts_size n m m' : evicts n m m' -> (size m' <= 1 \/ size m' < n)%nat.
Proof. by induction 1. Qed.

Lemma px_do_refines op x :
  exclusion_ok x ->
  exists out x', px_do op x = Finished (out, x') /\ exclusion_ok x' /\ px_max_size x' = px_max_size x /\
    ex_step (px_max_size x) (exclusions x) op out (exclusions x') /\
    (size (px_by_ip x) <= max 2 (px_max_size x) -> size (px_by_ip x') <= max 2 (px_max_size x))%nat.
Proof.
  intros Hx. destruct op as [e now|e|e now]; cbn [px_do].
  - destruct (px_by_ip x !! sa_ip e) as [p|] eqn:E.
    + destruct (peer_misbehaved_known e now x p Hx E) as (x' & -> & Hok & Hm & Hmax & Hb).
      eexists _, x'. split; [done|]. do 2 (split; [done|]). unfold exclusions. rewrite Hm, Hb, map_size_insert, E.
      split; [by apply (ExKnown _ (mkExclusions _ _))|done].
    + destruct (peer_misbehaved_new e now x Hx E) as (x' & m & -> & Hok & Hev & Hm & Hmax & Hb).
      eexists _, x'. split; [done|]. do 2 (split; [done|]). unfold exclusions. rewrite Hm, Hb. split.
      * by apply (ExNew _ (mkExclusions _ _)).
      * intros _. apply evicts_size in Hev. rewrite map_size_insert. destruct (m !! sa_ip e); cbn; lia.
  - exists Banned, (perma_ban e x). split; [done|]. split; [destruct Hx; by split|]. split; [done|].
    split; [apply (ExBan _ (exclusions x))|done].
  - destruct (is_excluded_ok e now x Hx) as (b & x' & -> & Hok & Hmax & Hb & Hcase).
    eexists _, x'. split; [done|]. do 2 (split; [done|]). unfold exclusions. rewrite Hb.
    case_bool_decide; [destruct Hcase as [-> ->]; split; [by constructor|done]|].
    destruct (px_by_ip x !! sa_ip e) as [p|] eqn:E; destruct Hcase as [-> Hcase].
    + rewrite Hcase. split; [by apply (ExQueryKnown _ (mkExclusions _ _))|].
      destruct (peer_has_expired now p); [|done]. rewrite map_size_delete. destruct (px_by_ip x !! sa_ip e); cbn; lia.
    + rewrite Hcase. split; [by apply ExQueryUnknown|done].
Qed.

Lemma px_run_refines ops x :
  exclusion_ok x -> (size (px_by_ip x) <= max 2 (px_max_size x))%nat ->
  exists outs x', px_run ops x = Finished (outs, x') /\ ex_steps (px_max_size x) (exclusions x) ops outs (exclusions x') /\
    (size (px_by_ip x') <= max 2 (px_max_size x))%nat.
Proof.
  revert x. induction ops as [|op ops IH]; intros x Hx Hs; [by eexists _, x; repeat split; [constructor|]|].
  destruct (px_do_refines op x Hx) as (out & x1 & E1 & Hx1 & Hm & Hstep & Hsize).
  destruct (IH x1 Hx1) as (outs & x2 & E2 & Hsteps & Hs2); [rewrite Hm; auto|].
  exists (out :: outs), x2. cbn. rewrite E1. cbn. rewrite E2. rewrite Hm in *. split; [done|].
  split; [by econstructor|done].
Qed.

Lemma exclusion_new_ok n : exclusion_ok (peer_exclusion_with_max_size n).
Proof. split; [split; constructor|done|done]. Qed.

(** C33. [PeerExclusion] implements its abstract specification: for every
    sequence of misbehaviour reports, bans and queries it returns, never
    panics on its index by date, and its answers are those of a plain table
    of peers from which, when there is no room, one whose exclusion ends
    first is forgotten; the table never outgrows its limit. *)
Theorem peer_exclusion_refines max_size ops :
  exists outs x, px_run ops (peer_exclusion_with_max_size max_size) = Finished (outs, x) /\
    ex_steps max_size (mkExclusions ∅ ∅) ops outs (exclusions x) /\
    (size (px_by_ip x) <= max 2 max_size)%nat.
Proof. apply (px_run_refines ops (peer_exclusion_with_max_size max_size)); [apply exclusion_new_ok|]. cbn [px_by_ip peer_exclusion_with_max_size px_max_size]. rewrite map_size_empty. lia. Qed.

(** ** AttemptContainer *)

Record attempts_ok (c : AttemptContainer) : Prop := {
  ao_attempt : map_Forall (fun e a => a = attempt_new e (at_direction a) (at_start a)) (ac_by_endpoint c);
  ao_address : index_ok at_address (ac_by_endpoint c) (ac_by_address c);
  ao_subnetwork : index_ok at_subnetwork (ac_by_endpoint c) (ac_by_subnetwork c);
}.

Lemma attempts_insert_ok e d start c : attempts_ok c -> attempts_ok (attempts_insert e d start c).2.
Proof.
  intros [Ha Hb Hs]. unfold attempts_insert. destruct (ac_by_endpoint c !! e) eqn:E; [by split|].
  split; cbn -[attempt_new]; [by apply map_Forall_insert_2|by apply index_push_ok|by apply index_push_ok].
Qed.

Lemma attempts_remove_ok e c :
  attempts_ok c ->
  exists c', attempts_remove e c = Some c' /\ attempts_ok c' /\ ac_by_endpoint c' = delete e (ac_by_endpoint c).
Proof.
  intros [Ha Hb Hs]. unfold attempts_remove. destruct (ac_by_endpoint c !! e) as [a|] eqn:E.
  - destruct (index_remove_ok _ _ _ e a Hb E) as (i1 & -> & H1).
    destruct (index_remove_ok _ _ _ e a Hs E) as (i2 & -> & H2).
    eexists. split; [done|]. split; [|done]. split; [by apply map_Forall_delete|done|done].
  - exists c. split; [done|]. split; [by split|]. by rewrite delete_id.
Qed.

Lemma min_by_start_elem l a : min_by_start l = Some a -> a ∈ l /\ Forall (fun b => at_start a <= at_start b) l.
Proof.
  revert a. induction l as [|b l IH]; [done|]. cbn. intros a. destruct (min_by_start l) as [c|] eqn:E.
  - destruct (IH c eq_refl) as [Hc Hl]. destruct (Z.leb_spec (at_start b) (at_start c)) as [Hle|Hgt]; intros [= <-].
    + split; [by left|]. constructor; [lia|]. eapply Forall_impl; [exact Hl|]. cbn. lia.
    + split; [by right|]. constructor; [lia|done].
  - intros [= <-]. split; [by left|]. constructor; [lia|]. destruct l as [|x l]; [done|]. cbn in E. by destruct (min_by_start l).
Qed.

Section purge.
Context `{HL : HashOrderLaws}.

Lemma get_oldest_known c t e :
  attempts_ok c -> get_oldest c = Some (t, e) ->
  exists a, ac_by_endpoint c !! e = Some a /\ at_direction a = Outbound /\ at_start a = t /\
    map_Forall (fun _ b => at_direction b = Outbound -> t <= at_start b) (ac_by_endpoint c).
Proof using HL.
  intros Hc (a & Hm & Hte)%fmap_Some. apply min_by_start_elem in Hm as [Ha Hmin]. injection Hte as -> ->.
  assert (forall b, b ∈ (hash_iter (ac_by_endpoint c)).*2 <-> exists k, ac_by_endpoint c !! k = Some b) as Hiter.
  { intros b. rewrite hash_iter_perm, list_elem_of_fmap. split.
    - intros ([k b'] & -> & Hk). exists k. by apply elem_of_map_to_list.
    - intros (k & Hk). exists (k, b). split; [done|]. by apply elem_of_map_to_list. }
  apply list_elem_of_filter in Ha as [Hd Ha]. apply Hiter in Ha as (k & Hk).
  pose proof (ao_attempt _ Hc _ _ Hk) as Heq. cbn in Heq. assert (at_endpoint a = k) as -> by (by rewrite Heq).
  exists a. repeat split; [done..|]. intros k' b Hb Hout. rewrite Forall_forall in Hmin. apply Hmin, list_elem_of_filter.
  split; [done|]. apply Hiter. by eexists.
Qed.

(** Purging returns; it forgets outbound attempts only. *)
Lemma attempts_purge_loop_ok fuel now timeout c :
  attempts_ok c -> (size (ac_by_endpoint c) < fuel)%nat ->
  exists c', attempts_purge_loop fuel now timeout c = Finished c' /\ attempts_ok c' /\
    ac_by_endpoint c' ⊆ ac_by_endpoint c /\
    map_Forall (fun e a => ac_by_endpoint c' !! e = None -> at_direction a = Outbound) (ac_by_endpoint c).
Proof using HL.
  revert c. induction fuel as [|fuel IH]; intros c Hc Hf; [lia|]. cbn [attempts_purge_loop].
  assert (map_Forall (fun e a => ac_by_endpoint c !! e = None -> at_direction a = Outbound) (ac_by_endpoint c)) as Hid.
  { intros e a E E'. congruence. }
  destruct (get_oldest c) as [[t e]|] eqn:Eo; [|by exists c].
  destruct (timestamp_sub now t <? timeout); [by exists c|].
  destruct (get_oldest_known c t e Hc Eo) as (a & Ea & Hd & _).
  destruct (attempts_remove_ok e c Hc) as (c1 & -> & Hc1 & E1). cbn [unwrap mbind run_bind].
  destruct (IH c1 Hc1) as (c' & -> & Hok & Hsub & Hall).
  - assert (size (ac_by_endpoint c) <> 0%nat) by (intros H0%map_size_empty_inv; by rewrite H0, lookup_empty in Ea).
    rewrite E1, map_size_delete, Ea. cbn. lia.
  - exists c'. split; [done|]. split; [done|]. rewrite E1 in Hsub, Hall. split.
    + etrans; [exact Hsub|]. apply delete_subseteq.
    + intros e' b Eb Hn. destruct (decide (e' = e)) as [->|Hne]; [congruence|].
      apply (Hall e' b); [by rewrite lookup_delete_ne|done].
Qed.

Lemma attempts_purge_ok now timeout c :
  attempts_ok c ->
  exists c', attempts_purge now timeout c = Finished c' /\ attempts_ok c' /\ ac_by_endpoint c' ⊆ ac_by_endpoint c /\
    map_Forall (fun e a => ac_by_endpoint c' !! e = None -> at_direction a = Outbound) (ac_by_endpoint c).
Proof using HL. intros Hc. apply attempts_purge_loop_ok; [done|lia]. Qed.
End purge.
