(* ===== verification/Channel.v ===== *)
(** * Channels: rate limits, write queues and the writing task
    (network/src/token_bucket.rs, bandwidth_limiter.rs, write_queue.rs,
    channel.rs, tcp_channel_adapter.rs)

    [f64] is the binary64 of the specification of floats; [async] functions
    are one poll of their loops; the traffic counters are left out. *)

From Stdlib Require Import SpecFloat.
From S2P Require Import Prelude Types Election Messages Floats FairQueue Peers.

(** ** TokenBucket (token_bucket.rs) *)

Record TokenBucket := mkTokenBucket {
  tb_last_refill : option Timestamp;
  tb_current_size : Z;
  tb_max_token_count : Z;
  tb_smallest_size : Z;
  tb_refill_rate : Z;
}.

Definition UNLIMITED : Z := 1000000000.

(** The receiver's fields are all overwritten. *)
Definition reset_with (max_token_count refill_rate : Z) : TokenBucket :=
  let '(max_token_count, refill_rate) :=
    if (max_token_count =? 0) || (refill_rate =? 0) then (UNLIMITED, UNLIMITED) else (max_token_count, refill_rate) in
  mkTokenBucket None max_token_count max_token_count max_token_count refill_rate.

Definition with_refill_rate (max_tokens refill_rate : Z) : TokenBucket := reset_with max_tokens refill_rate.

Definition with_burst_ratio (limit : Z) (limit_burst_ratio : spec_float) : TokenBucket :=
  with_refill_rate (f64_as_usize (f64_mul (f64_of_int limit) limit_burst_ratio)) limit.

Definition token_bucket_new (limit : Z) : TokenBucket := with_burst_ratio limit (f64_of_int 1).

Definition token_bucket_reset (b : TokenBucket) : TokenBucket := reset_with (tb_max_token_count b) (tb_refill_rate b).

Definition set_limit (new_limit : Z) (b : TokenBucket) : TokenBucket :=
  mkTokenBucket (tb_last_refill b) (tb_current_size b) new_limit (tb_smallest_size b) new_limit.

Definition tokens_to_add (refill_rate : Z) (last_refill now : Timestamp) : Z :=
  f64_as_usize (f64_mul (f64_div (f64_of_int (elapsed last_refill now)) (f64_of_int 1000000000)) (f64_of_int refill_rate)).

Definition refill (now : Timestamp) (b : TokenBucket) : TokenBucket :=
  match tb_last_refill b with
  | None => mkTokenBucket (Some now) (tb_current_size b) (tb_max_token_count b) (tb_smallest_size b) (tb_refill_rate b)
  | Some last_refill =>
      let tokens := tokens_to_add (tb_refill_rate b) last_refill now in
      if 0 <? tokens then
        mkTokenBucket (Some now) (Z.min (wrap 64 (tb_current_size b + tokens)) (tb_max_token_count b))
          (tb_max_token_count b) (tb_smallest_size b) (tb_refill_rate b)
      else b
  end.

Definition try_consume (tokens_required : Z) (now : Timestamp) (b : TokenBucket) : bool * TokenBucket :=
  let b := refill now b in
  let possible := tokens_required <=? tb_current_size b in
  let current_size :=
    if possible then tb_current_size b - tokens_required
    else if tokens_required =? UNLIMITED then 0 else tb_current_size b in
  (possible || (tb_refill_rate b =? UNLIMITED),
   mkTokenBucket (tb_last_refill b) current_size (tb_max_token_count b) (Z.min (tb_smallest_size b) current_size)
     (tb_refill_rate b)).

Definition largest_burst (b : TokenBucket) : Z := tb_max_token_count b - tb_smallest_size b.

(** ** TrafficType (lib.rs) *)

Inductive TrafficType :=
| Generic | BootstrapServer | BootstrapRequests | BlockBroadcast | BlockBroadcastInitial | BlockBroadcastRpc
| ConfirmationRequests | TrafficKeepalive | TrafficVote | VoteRebroadcast | VoteReply | RepCrawler | Telemetry.

#[global] Instance TrafficType_eq_dec : EqDecision TrafficType.
Proof. solve_decision. Defined.

Definition traffic_index (t : TrafficType) : Z :=
  match t with
  | Generic => 0 | BootstrapServer => 1 | BootstrapRequests => 2 | BlockBroadcast => 3 | BlockBroadcastInitial => 4
  | BlockBroadcastRpc => 5 | ConfirmationRequests => 6 | TrafficKeepalive => 7 | TrafficVote => 8 | VoteRebroadcast => 9
  | VoteReply => 10 | RepCrawler => 11 | Telemetry => 12
  end.

(** The derived order. *)
Definition traffic_cmp (a b : TrafficType) : comparison := traffic_index a ?= traffic_index b.

(** ** BandwidthLimiter (bandwidth_limiter.rs) *)

Record BandwidthLimiterConfig := mkBandwidthLimiterConfig {
  generic_limit : Z;
  generic_burst_ratio : spec_float;
  bootstrap_limit : Z;
  bootstrap_burst_ratio : spec_float;
}.

Definition limiter_config_default : BandwidthLimiterConfig :=
  mkBandwidthLimiterConfig (10 * 1024 * 1024) (f64_of_int 3) (5 * 1024 * 1024) (f64_of_int 1).

Record BandwidthLimiter := mkBandwidthLimiter {
  limiter_generic : TokenBucket;
  limiter_bootstrap : TokenBucket;
}.

Definition limiter_new (c : BandwidthLimiterConfig) : BandwidthLimiter :=
  mkBandwidthLimiter (with_burst_ratio (generic_limit c) (generic_burst_ratio c))
    (with_burst_ratio (bootstrap_limit c) (bootstrap_burst_ratio c)).

Definition should_pass (buffer_size : Z) (limit_type : TrafficType) (now : Timestamp) (l : BandwidthLimiter)
    : bool * BandwidthLimiter :=
  match limit_type with
  | BootstrapServer =>
      let '(pass, b) := try_consume buffer_size now (limiter_bootstrap l) in
      (pass, mkBandwidthLimiter (limiter_generic l) b)
  | _ =>
      let '(pass, b) := try_consume buffer_size now (limiter_generic l) in
      (pass, mkBandwidthLimiter b (limiter_bootstrap l))
  end.

(** ** WriteQueue (write_queue.rs) *)

Abbreviation Buffer := (list byte) (only parsing).

Record WriteQueue := mkWriteQueue {
  wq_queue : @FairQueue TrafficType Buffer;
  wq_max_size : nat;
  wq_closed : bool;
}.

Definition write_priority (traffic_type : TrafficType) : nat :=
  match traffic_type with BlockBroadcast | VoteRebroadcast => 1 | _ => 4 end.

Definition write_queue_new (max_size : nat) : WriteQueue := mkWriteQueue fair_queue_new max_size false.

Definition wq_push (traffic_type : TrafficType) (buffer : Buffer) (w : WriteQueue) : bool * WriteQueue :=
  let '(added, q) := fq_push traffic_cmp (fun _ => wq_max_size w) write_priority (wq_queue w) traffic_type buffer in
  (added, mkWriteQueue q (wq_max_size w) (wq_closed w)).

Definition wq_free_capacity (traffic_type : TrafficType) (w : WriteQueue) : nat :=
  fq_free_capacity traffic_cmp (fun _ => wq_max_size w) (wq_queue w) traffic_type.

(** One turn of the loop of an asynchronous function. *)
Inductive Poll (A : Type) := Ready (a : A) | Pending.
Arguments Ready {A} _.
Arguments Pending {A}.

Definition wq_insert (buffer : Buffer) (traffic_type : TrafficType) (w : WriteQueue) : Poll () * WriteQueue :=
  if wq_closed w then (Ready (), w)
  else if (0 <? wq_free_capacity traffic_type w)%nat then (Ready (), (wq_push traffic_type buffer w).2)
  else (Pending, w).

Definition wq_try_insert (buffer : Buffer) (traffic_type : TrafficType) (w : WriteQueue) : bool * WriteQueue :=
  if wq_closed w then (false, w) else wq_push traffic_type buffer w.

Definition wq_len (w : WriteQueue) : nat := fq_len (wq_queue w).

(** The queue has a source for each traffic type at most, which bounds the
    turns of [next]. *)
Definition wq_pop (w : WriteQueue) : run (Poll (option (TrafficType * Buffer)) * WriteQueue) :=
  if wq_closed w then Finished (Ready None, w)
  else
    '(result, q) ← fq_next traffic_cmp (S (length (fq_queues (wq_queue w)))) (wq_queue w);
    let w := mkWriteQueue q (wq_max_size w) (wq_closed w) in
    Finished (match result with Some entry => Ready (Some entry) | None => Pending end, w).

Definition wq_close (w : WriteQueue) : WriteQueue := mkWriteQueue (wq_queue w) (wq_max_size w) true.

(** ** Channel (channel.rs) *)

Inductive ChannelMode := Undefined | Realtime.

#[global] Instance ChannelMode_eq_dec : EqDecision ChannelMode.
Proof. solve_decision. Defined.

Abbreviation ChannelId := Z (only parsing).

Record Channel := mkChannel {
  ch_channel_id : ChannelId;
  ch_local_addr : SocketAddrV6;
  ch_peer_addr : SocketAddrV6;
  ch_node_id : option PublicKey;
  ch_peering_addr : option SocketAddrV6;
  ch_protocol_version : Z;
  ch_direction : ChannelDirection;
  ch_last_activity : Z;
  ch_last_bootstrap_attempt : Z;
  ch_timeout_seconds : Z;
  ch_timed_out : bool;
  ch_closed : bool;
  ch_mode : ChannelMode;
  ch_write_queue : WriteQueue;
  ch_cancelled : bool;
}.

Definition MAX_QUEUE_SIZE : nat := 64.
Definition DEFAULT_TIMEOUT : Z := 120.

(** [as i64] *)
Definition wrap_i64 (z : Z) : Z := wrap 64 (z + 2 ^ 63) - 2 ^ 63.

(** [Timestamp::millis] *)
Definition millis (t : Timestamp) : Z := wrap_i64 (Z.quot t 1000000).

Definition channel_new (channel_id : ChannelId) (local_addr peer_addr : SocketAddrV6) (direction : ChannelDirection)
    (protocol_version : Z) (now : Timestamp) : Channel :=
  mkChannel channel_id local_addr peer_addr None
    (match direction with Outbound => Some peer_addr | Inbound => None end)
    protocol_version direction (millis now) 0 DEFAULT_TIMEOUT false false Undefined
    (write_queue_new MAX_QUEUE_SIZE) false.

Definition peering_addr_or_peer_addr (c : Channel) : SocketAddrV6 := default (ch_peer_addr c) (ch_peering_addr c).

Definition channel_address (c : Channel) : Ipv6Addr := ipv4_address_or_ipv6_subnet (sa_ip (ch_peer_addr c)).
Definition channel_subnetwork (c : Channel) : Ipv6Addr := map_address_to_subnetwork (sa_ip (ch_peer_addr c)).

Definition set_protocol_version (version : Z) (c : Channel) : Channel :=
  mkChannel (ch_channel_id c) (ch_local_addr c) (ch_peer_addr c) (ch_node_id c) (ch_peering_addr c) version
    (ch_direction c) (ch_last_activity c) (ch_last_bootstrap_attempt c) (ch_timeout_seconds c) (ch_timed_out c)
    (ch_closed c) (ch_mode c) (ch_write_queue c) (ch_cancelled c).

Definition last_activity (c : Channel) : Timestamp := ch_last_activity c * 1000000.

Definition set_last_activity (now : Timestamp) (c : Channel) : Channel :=
  mkChannel (ch_channel_id c) (ch_local_addr c) (ch_peer_addr c) (ch_node_id c) (ch_peering_addr c)
    (ch_protocol_version c) (ch_direction c) (millis now) (ch_last_bootstrap_attempt c) (ch_timeout_seconds c)
    (ch_timed_out c) (ch_closed c) (ch_mode c) (ch_write_queue c) (ch_cancelled c).

Definition channel_timeout (c : Channel) : Duration := secs (ch_timeout_seconds c).

(** [as_secs] *)
Definition set_timeout (value : Duration) (c : Channel) : Channel :=
  mkChannel (ch_channel_id c) (ch_local_addr c) (ch_peer_addr c) (ch_node_id c) (ch_peering_addr c)
    (ch_protocol_version c) (ch_direction c) (ch_last_activity c) (ch_last_bootstrap_attempt c) (value / 10 ^ 9)
    (ch_timed_out c) (ch_closed c) (ch_mode c) (ch_write_queue c) (ch_cancelled c).

Definition set_timed_out (value : bool) (c : Channel) : Channel :=
  mkChannel (ch_channel_id c) (ch_local_addr c) (ch_peer_addr c) (ch_node_id c) (ch_peering_addr c)
    (ch_protocol_version c) (ch_direction c) (ch_last_activity c) (ch_last_bootstrap_attempt c) (ch_timeout_seconds c)
    value (ch_closed c) (ch_mode c) (ch_write_queue c) (ch_cancelled c).

Definition is_alive (c : Channel) : bool := negb (ch_closed c).

Definition channel_close (c : Channel) : Channel :=
  if ch_closed c then c
  else
    mkChannel (ch_channel_id c) (ch_local_addr c) (ch_peer_addr c) (ch_node_id c) (ch_peering_addr c)
      (ch_protocol_version c) (ch_direction c) (ch_last_activity c) (ch_last_bootstrap_attempt c) 0
      (ch_timed_out c) true (ch_mode c) (wq_close (ch_write_queue c)) true.

Definition set_node_id (node_id : PublicKey) (c : Channel) : Channel :=
  mkChannel (ch_channel_id c) (ch_local_addr c) (ch_peer_addr c) (Some node_id) (ch_peering_addr c)
    (ch_protocol_version c) (ch_direction c) (ch_last_activity c) (ch_last_bootstrap_attempt c) (ch_timeout_seconds c)
    (ch_timed_out c) (ch_closed c) (ch_mode c) (ch_write_queue c) (ch_cancelled c).

Definition channel_set_peering_addr (peering_addr : SocketAddrV6) (c : Channel) : Channel :=
  mkChannel (ch_channel_id c) (ch_local_addr c) (ch_peer_addr c) (ch_node_id c) (Some peering_addr)
    (ch_protocol_version c) (ch_direction c) (ch_last_activity c) (ch_last_bootstrap_attempt c) (ch_timeout_seconds c)
    (ch_timed_out c) (ch_closed c) (ch_mode c) (ch_write_queue c) (ch_cancelled c).

Definition set_mode (mode : ChannelMode) (c : Channel) : Channel :=
  mkChannel (ch_channel_id c) (ch_local_addr c) (ch_peer_addr c) (ch_node_id c) (ch_peering_addr c)
    (ch_protocol_version c) (ch_direction c) (ch_last_activity c) (ch_last_bootstrap_attempt c) (ch_timeout_seconds c)
    (ch_timed_out c) (ch_closed c) mode (ch_write_queue c) (ch_cancelled c).

Definition last_bootstrap_attempt (c : Channel) : Timestamp := ch_last_bootstrap_attempt c * 1000000.

Definition set_last_bootstrap_attempt (now : Timestamp) (c : Channel) : Channel :=
  mkChannel (ch_channel_id c) (ch_local_addr c) (ch_peer_addr c) (ch_node_id c) (ch_peering_addr c)
    (ch_protocol_version c) (ch_direction c) (ch_last_activity c) (millis now) (ch_timeout_seconds c)
    (ch_timed_out c) (ch_closed c) (ch_mode c) (ch_write_queue c) (ch_cancelled c).

Definition with_write_queue (w : WriteQueue) (c : Channel) : Channel :=
  mkChannel (ch_channel_id c) (ch_local_addr c) (ch_peer_addr c) (ch_node_id c) (ch_peering_addr c)
    (ch_protocol_version c) (ch_direction c) (ch_last_activity c) (ch_last_bootstrap_attempt c) (ch_timeout_seconds c)
    (ch_timed_out c) (ch_closed c) (ch_mode c) w (ch_cancelled c).

Definition channel_free_capacity (traffic_type : TrafficType) (c : Channel) : nat :=
  wq_free_capacity traffic_type (ch_write_queue c).

Definition should_drop (traffic_type : TrafficType) (c : Channel) : bool :=
  (channel_free_capacity traffic_type c =? 0)%nat.

(** The limiter is shared by the channels of a network. *)
Definition channel_send (buffer : Buffer) (traffic_type : TrafficType) (now : Timestamp) (c : Channel)
    (l : BandwidthLimiter) : bool * Channel * BandwidthLimiter :=
  if ch_closed c then (false, c, l)
  else if should_drop traffic_type c then (false, c, l)
  else
    let '(pass, l) := should_pass (Z.of_nat (length buffer)) traffic_type now l in
    if negb pass then (false, c, l)
    else let '(inserted, w) := wq_try_insert buffer traffic_type (ch_write_queue c) in
         (inserted, with_write_queue w c, l).

Definition channel_pop (c : Channel) : run (Poll (option (TrafficType * Buffer)) * Channel) :=
  '(r, w) ← wq_pop (ch_write_queue c);
  Finished (r, with_write_queue w c).

Definition check_timeout (now : Timestamp) (c : Channel) : bool * Channel :=
  if negb (is_alive c) then (true, c)
  else
    let has_timed_out := channel_timeout c <? timestamp_sub now (last_activity c) in
    (has_timed_out, if has_timed_out then channel_close (set_timed_out true c) else c).

Definition read_succeeded (now : Timestamp) (c : Channel) : Channel := set_last_activity now c.

Definition read_failed (c : Channel) : Channel := channel_close c.

(** ** The writing task (tcp_channel_adapter.rs)

    The task pops an entry and writes what is left of it whenever the socket
    is writable; a cancelled channel ends it at either point, but [select!]
    may also take the other branch first. *)

Inductive Writer :=
| Popping
| Writing (buffer : Buffer) (written : nat)
| Ended.

Inductive WriteResult := Wrote (n : nat) | WouldBlock | WriteError.

(** What the task is woken by: new entries, the socket, cancellation. *)
Inductive WriterEvent :=
| Enqueued
| Writable (r : WriteResult) (now : Timestamp)
| CancelSeen.

(** The socket takes the first [n] bytes of what it is offered. *)
Definition try_write (n : nat) (offered : Buffer) : Buffer := take n offered.

Definition writer_pop (c : Channel) : run (Writer * Channel) :=
  '(r, c) ← channel_pop c;
  Finished (match r with
            | Pending => (Popping, c)
            | Ready (Some (_, buffer)) => (Writing buffer 0, c)
            | Ready None => (Ended, channel_close c)
            end).

Definition writer_write (buffer : Buffer) (written : nat) (r : WriteResult) (now : Timestamp) (c : Channel)
    : Buffer * Writer * Channel :=
  match r with
  | Wrote n =>
      let sent := try_write n (drop written buffer) in
      let written := (written + length sent)%nat in
      if (length buffer <=? written)%nat then (sent, Popping, set_last_activity now c)
      else (sent, Writing buffer written, c)
  | WouldBlock => ([], Writing buffer written, c)
  | WriteError => ([], Ended, channel_close c)
  end.

(** The bytes the socket took, the task and the channel after an event. *)
Definition writer_step (w : Writer) (e : WriterEvent) (c : Channel) : run (Buffer * Writer * Channel) :=
  match w, e with
  | Ended, _ => Finished ([], Ended, c)
  | _, CancelSeen => Finished ([], if ch_cancelled c then Ended else w, c)
  | Popping, Enqueued => '(w, c) ← writer_pop c; Finished ([], w, c)
  | Writing buffer written, Writable r now => Finished (writer_write buffer written r now c)
  | _, _ => Finished ([], w, c)
  end.

(** ** MessageSender (node/src/transport/message_sender.rs) *)

Definition try_send `{BitVec} (m : Message) (traffic_type : TrafficType) (now : Timestamp) (s : MessageSerializer)
    (c : Channel) (l : BandwidthLimiter) : bool * MessageSerializer * Channel * BandwidthLimiter :=
  let '(buffer, s) := serializer_serialize m s in
  let '(sent, c, l) := channel_send buffer traffic_type now c l in
  (sent, s, c, l).
