(* ===== verification/ChannelTheorems.v ===== *)
(** * What a channel promises

    From [try_send] over the write queue and the writing task to the
    deserializer of the peer: the messages that were accepted arrive complete
    and, for each traffic type, in order. *)

From S2P Require Import Prelude Types Blocks Election Ordered FairQueue Messages MessageCodec.
From S2P Require Import MessageStream FilterTheorems StreamTheorems Peers.
From S2P Require Import Channel.

(** ** Write queues *)

Lemma traffic_index_inj a b : traffic_index a = traffic_index b -> a = b.
Proof. by destruct a, b. Qed.

Lemma traffic_cmp_laws : cmp_laws traffic_cmp.
Proof.
  unfold traffic_cmp. split.
  - intros x y. rewrite Z.compare_eq_iff. split; [apply traffic_index_inj|by intros ->].
  - intros x y. apply Z.compare_antisym.
  - intros x y z. apply Z.lt_trans.
Qed.

Definition wq_ok (w : WriteQueue) : Prop := fq_ok traffic_cmp (wq_queue w).

(** The buffers of a traffic type that wait. *)
Definition waiting (w : WriteQueue) (t : TrafficType) : list Buffer := requests_of traffic_cmp (wq_queue w) t.

Lemma for_traffic {A} t' t (l : list A) : for_source traffic_cmp t' t l = if bool_decide (t' = t) then l else [].
Proof.
  unfold for_source. case_bool_decide as E; [subst; by rewrite (proj2 (cmp_eq _ traffic_cmp_laws t t))|].
  destruct (traffic_cmp t' t) eqn:Ec; [by apply (cmp_eq _ traffic_cmp_laws) in Ec|done|done].
Qed.

Lemma wq_push_spec t b w added w' :
  wq_ok w -> wq_push t b w = (added, w') ->
  wq_ok w' /\ wq_closed w' = wq_closed w /\
  forall t', waiting w' t' = waiting w t' ++ (if added && bool_decide (t' = t) then [b] else []).
Proof.
  intros Hw E. unfold wq_push in E.
  pose proof (fq_push_ok traffic_cmp traffic_cmp_laws (fun _ => wq_max_size w) write_priority (wq_queue w) t b Hw) as Hok.
  destruct (fq_push traffic_cmp _ write_priority (wq_queue w) t b) as [a q] eqn:Eq. injection E as -> <-.
  split; [done|]. split; [done|]. intros t'. unfold waiting. cbn [wq_queue].
  rewrite (fq_push_requests _ traffic_cmp_laws _ _ _ _ _ _ _ t' Eq). rewrite for_traffic. by destruct added.
Qed.

(** [pop] takes the oldest buffer of a traffic type, and waits only when there
    is none. *)
Definition popped (w : WriteQueue) (r : Poll (option (TrafficType * Buffer))) (w' : WriteQueue) : Prop :=
  match r with
  | Ready (Some (t, b)) => forall t', waiting w t' = (if bool_decide (t' = t) then [b] else []) ++ waiting w' t'
  | Ready None => wq_closed w = true /\ w' = w
  | Pending => w' = w /\ forall t, waiting w t = []
  end.

Lemma wq_pop_spec w :
  wq_ok w -> exists r w', wq_pop w = Finished (r, w') /\ wq_ok w' /\ wq_closed w' = wq_closed w /\ popped w r w'.
Proof.
  intros Hw. unfold wq_pop. destruct (wq_closed w) eqn:Ec; [by exists (Ready None), w|].
  destruct (decide (fq_total_len (wq_queue w) = 0%nat)) as [E0|E0].
  - unfold fq_next. rewrite E0. cbn [Nat.eqb mbind run_bind mret run_ret]. exists Pending, w. destruct w as [q n c]. cbn in *. subst c.
    split; [done|]. split; [done|]. split; [done|]. split; [done|]. intros t. by apply (no_requests _ traffic_cmp_laws).
  - destruct (fq_next_ok traffic_cmp traffic_cmp_laws (wq_queue w) (S (length (fq_queues (wq_queue w)))) Hw ltac:(lia) ltac:(lia))
      as (k & x & f' & -> & Hs & _).
    eexists _, _. split; [done|]. split; [apply (sv_ok _ _ _ _ _ Hs)|]. split; [done|]. intros t'.
    unfold waiting. cbn [wq_queue]. by rewrite (served_requests _ traffic_cmp_laws _ _ _ _ t' Hs), for_traffic.
Qed.

(** ** The link from a sender to the peer

    The sending side of a connection: the message sender, the channel, the
    limiter, the writing task and the bytes the socket has taken, with the
    messages [try_send] has accepted. *)

Section link.
Context `{Crypto} `{BitVec}.

Record Link := mkLink {
  lk_serializer : MessageSerializer;
  lk_channel : Channel;
  lk_limiter : BandwidthLimiter;
  lk_writer : Writer;
  lk_sent : list byte;
  lk_accepted : list (TrafficType * Message);
}.

Inductive LinkEvent :=
| Send (m : Message) (t : TrafficType) (now : Timestamp)
| WriterWakes (e : WriterEvent)
| Received (now : Timestamp)
| Checkup (now : Timestamp)
| Close.

Definition on_channel (f : Channel -> Channel) (lk : Link) : Link :=
  mkLink (lk_serializer lk) (f (lk_channel lk)) (lk_limiter lk) (lk_writer lk) (lk_sent lk) (lk_accepted lk).

Definition link_step (e : LinkEvent) (lk : Link) : run Link :=
  match e with
  | Send m t now =>
      let '(sent, s, c, l) := try_send m t now (lk_serializer lk) (lk_channel lk) (lk_limiter lk) in
      Finished (mkLink s c l (lk_writer lk) (lk_sent lk) (lk_accepted lk ++ if sent then [(t, m)] else []))
  | WriterWakes e =>
      '(bytes, w, c) ← writer_step (lk_writer lk) e (lk_channel lk);
      Finished (mkLink (lk_serializer lk) c (lk_limiter lk) w (lk_sent lk ++ bytes) (lk_accepted lk))
  | Received now => Finished (on_channel (read_succeeded now) lk)
  | Checkup now => Finished (on_channel (fun c => (check_timeout now c).2) lk)
  | Close => Finished (on_channel channel_close lk)
  end.

Fixpoint link_run (es : list LinkEvent) (lk : Link) : run Link :=
  match es with
  | [] => Finished lk
  | e :: es => lk ← link_step e lk; link_run es lk
  end.

Definition link_new (s : MessageSerializer) (c : Channel) (l : BandwidthLimiter) : Link :=
  mkLink s c l Popping [] [].

Definition event_messages (e : LinkEvent) : list Message := match e with Send m _ _ => [m] | _ => [] end.

Definition of_type (t : TrafficType) (l : list (TrafficType * Message)) : list Message :=
  snd <$> filter (fun p => p.1 = t) l.

Lemma of_type_app t l k : of_type t (l ++ k) = of_type t l ++ of_type t k.
Proof. unfold of_type. by rewrite filter_app, fmap_app. Qed.

Lemma of_type_one t t' m : of_type t' [(t, m)] = if bool_decide (t' = t) then [m] else [].
Proof. unfold of_type. cbn. rewrite decide_bool_decide. cbn. case_bool_decide; case_bool_decide; congruence || done. Qed.

(** What an entry the task is writing contributes to the bytes sent. *)
Definition partly_sent (ps : ProtocolInfo) (inflight : list (TrafficType * Message)) (part : list byte) : Prop :=
  (inflight = [] /\ part = []) \/
  exists t m suffix, inflight = [(t, m)] /\ wire ps m = part ++ suffix /\ suffix <> [].

Definition writer_at (ps : ProtocolInfo) (w : Writer) (inflight : list (TrafficType * Message)) (part : list byte) : Prop :=
  match w with
  | Popping => inflight = []
  | Writing b n => exists t m, inflight = [(t, m)] /\ b = wire ps m /\ part = take n b /\ (n < length b)%nat
  | Ended => True
  end.

Record link_state (ps : ProtocolInfo) (lk : Link) (delivered inflight : list (TrafficType * Message))
    (queue : TrafficType -> list Message) (part : list byte) : Prop := {
  ls_protocol : ms_protocol (lk_serializer lk) = ps;
  ls_queue_ok : wq_ok (ch_write_queue (lk_channel lk));
  ls_waiting : forall t, waiting (ch_write_queue (lk_channel lk)) t = wire ps <$> queue t;
  ls_order : forall t, of_type t (lk_accepted lk) = of_type t delivered ++ of_type t inflight ++ queue t;
  ls_sent : lk_sent lk = concat (wire ps <$> delivered.*2) ++ part;
  ls_part : partly_sent ps inflight part;
  ls_writer : writer_at ps (lk_writer lk) inflight part;
}.

Definition link_ok (ps : ProtocolInfo) (lk : Link) : Prop :=
  exists delivered inflight queue part, link_state ps lk delivered inflight queue part.

(** Changes of the channel that leave the entries of its queue alone. *)
Lemma link_on_channel ps f lk :
  (forall c, wq_queue (ch_write_queue (f c)) = wq_queue (ch_write_queue c)) -> link_ok ps lk -> link_ok ps (on_channel f lk).
Proof.
  intros Hf (dl & fl & q & part & [Hp Hok Hw Ho Hs Hpt Hwr]). exists dl, fl, q, part.
  split; try done; cbn; unfold wq_ok, waiting in *; by rewrite Hf.
Qed.

Lemma channel_close_queue c : wq_queue (ch_write_queue (channel_close c)) = wq_queue (ch_write_queue c).
Proof. unfold channel_close. by destruct (ch_closed c). Qed.

Lemma check_timeout_queue now c : wq_queue (ch_write_queue (check_timeout now c).2) = wq_queue (ch_write_queue c).
Proof.
  unfold check_timeout. destruct (negb (is_alive c)); [done|]. cbn. case_match; [|done]. by rewrite channel_close_queue.
Qed.

Lemma channel_send_queue b t now c l sent c' l' :
  wq_ok (ch_write_queue c) -> channel_send b t now c l = (sent, c', l') ->
  wq_ok (ch_write_queue c') /\
  forall t', waiting (ch_write_queue c') t' = waiting (ch_write_queue c) t' ++ (if sent && bool_decide (t' = t) then [b] else []).
Proof.
  intros Hw. assert (forall t', waiting (ch_write_queue c) t' = waiting (ch_write_queue c) t' ++ []) as Hid
    by (intros; by rewrite app_nil_r).
  unfold channel_send. destruct (ch_closed c); [by intros [= <- <- <-]|].
  destruct (should_drop t c); [by intros [= <- <- <-]|].
  destruct (should_pass _ t now l) as [pass l1]. destruct (negb pass); [by intros [= <- <- <-]|].
  unfold wq_try_insert. destruct (wq_closed (ch_write_queue c)); [by intros [= <- <- <-]|].
  destruct (wq_push t b (ch_write_queue c)) as [added w] eqn:E. intros [= <- <- <-].
  destruct (wq_push_spec _ _ _ _ _ Hw E) as (? & _ & ?). done.
Qed.

Lemma link_send ps m t now lk : link_ok ps lk -> exists lk', link_step (Send m t now) lk = Finished lk' /\ link_ok ps lk'.
Proof.
  intros (dl & fl & q & part & [Hp Hok Hw Ho Hs Hpt Hwr]). cbn [link_step]. unfold try_send.
  pose proof (serializer_wire m (lk_serializer lk)) as Ew. rewrite Hp in Ew.
  destruct (serializer_serialize m (lk_serializer lk)) as [b s] eqn:Es. cbn in Ew. subst b.
  assert (ms_protocol s = ps) as Hps by (unfold serializer_serialize in Es; by simplify_eq).
  destruct (channel_send (wire ps m) t now (lk_channel lk) (lk_limiter lk)) as [[sent c] l] eqn:Ec.
  destruct (channel_send_queue _ _ _ _ _ _ _ _ Hok Ec) as [Hok' Hw']. eexists. split; [done|].
  exists dl, fl, (fun t' => q t' ++ (if sent && bool_decide (t' = t) then [m] else [])), part.
  split; cbn [lk_serializer lk_channel lk_accepted lk_sent lk_writer]; try done; intros t'.
  - rewrite Hw', Hw, fmap_app. by destruct (sent && bool_decide (t' = t)).
  - rewrite of_type_app, Ho, <- !(assoc_L (++)). do 3 f_equal. destruct sent; [|done]. by rewrite of_type_one.
Qed.

Lemma wire_nonempty ps m : (0 < length (wire ps m))%nat.
Proof. unfold wire. rewrite length_app, length_header. unfold HEADER_SIZE. lia. Qed.

Lemma link_pop ps lk :
  lk_writer lk = Popping -> link_ok ps lk ->
  exists lk', link_step (WriterWakes Enqueued) lk = Finished lk' /\ link_ok ps lk'.
Proof.
  intros Ew (dl & fl & q & part & [Hp Hok Hw Ho Hs Hpt Hwr]). rewrite Ew in Hwr. cbn in Hwr. subst fl.
  destruct Hpt as [[_ ->]|(? & ? & ? & [=] & _)].
  cbn [link_step]. rewrite Ew. cbn [writer_step]. unfold writer_pop, channel_pop.
  destruct (wq_pop_spec _ Hok) as (r & w & -> & Hok' & Hc & Hpop). cbn [mbind run_bind].
  destruct r as [[[t b]|]|]; (eexists; split; [done|]); cbn [popped] in Hpop; rewrite app_nil_r.
  - assert (exists m ms, q t = m :: ms /\ b = wire ps m) as (m & ms & Eq & ->).
    { specialize (Hpop t). rewrite bool_decide_true, Hw in Hpop by done. destruct (q t) as [|m ms]; [done|].
      injection Hpop as <- _. by exists m, ms. }
    exists dl, [(t, m)], (fun t' => if bool_decide (t' = t) then ms else q t'), [].
    split; cbn [lk_serializer lk_channel lk_accepted lk_sent lk_writer]; try done.
    + intros t'. specialize (Hpop t'). rewrite Hw in Hpop. case_bool_decide as Ht; [subst t'|done].
      rewrite Eq in Hpop. injection Hpop as Hpop. symmetry. exact Hpop.
    + intros t'. rewrite Ho, of_type_one. cbn. case_bool_decide as Ht; [subst t'; by rewrite Eq|done].
    + right. exists t, m, (wire ps m). split; [done|]. split; [done|].
      intros E. pose proof (wire_nonempty ps m) as Hn. rewrite E in Hn. cbn in Hn. lia.
    + exists t, m. repeat split. apply wire_nonempty.
  - destruct Hpop as [_ ->]. exists dl, [], q, [].
    split; cbn [lk_serializer lk_channel lk_accepted lk_sent lk_writer]; try done; [| |by left];
      unfold wq_ok, waiting in *; by rewrite channel_close_queue.
  - destruct Hpop as [-> _]. exists dl, [], q, []. split; try done. by left.
Qed.

Lemma link_write ps b n r now lk :
  lk_writer lk = Writing b n -> link_ok ps lk ->
  exists lk', link_step (WriterWakes (Writable r now)) lk = Finished lk' /\ link_ok ps lk'.
Proof.
  intros Ew (dl & fl & q & part & [Hp Hok Hw Ho Hs Hpt Hwr]). rewrite Ew in Hwr. destruct Hwr as (t & m & -> & -> & -> & Hn).
  cbn [link_step]. rewrite Ew. cbn [writer_step mbind run_bind]. unfold writer_write, try_write.
  destruct r as [k| |].
  - set (sent := take k (drop n (wire ps m))).
    assert (take (n + length sent) (wire ps m) = take n (wire ps m) ++ sent) as Et.
    { unfold sent. by rewrite length_take, <- take_take_drop, <- (take_take (drop n (wire ps m))), (take_ge (drop n (wire ps m)) (length _)). }
    destruct (Nat.leb_spec (length (wire ps m)) (n + length sent)) as [Hge|Hlt]; (eexists; split; [done|]).
    + exists (dl ++ [(t, m)]), [], q, []. split; cbn [lk_serializer lk_channel lk_accepted lk_sent lk_writer]; try done; [| |by left].
      * intros t'. by rewrite Ho, of_type_app, <- (assoc_L (++)).
      * rewrite Hs, fmap_app, fmap_app, concat_app, <- !(assoc_L (++)). cbn. f_equal. rewrite !app_nil_r, <- Et. by rewrite take_ge.
    + exists dl, [(t, m)], q, (take (n + length sent) (wire ps m)).
      split; cbn [lk_serializer lk_channel lk_accepted lk_sent lk_writer]; try done.
      * by rewrite Hs, Et, (assoc_L (++)).
      * right. exists t, m, (drop (n + length sent) (wire ps m)). rewrite take_drop. split; [done|]. split; [done|].
        intros E%(f_equal length). rewrite length_drop in E. cbn in E. lia.
      * by exists t, m.
  - eexists. split; [done|]. exists dl, [(t, m)], q, (take n (wire ps m)). split; cbn; rewrite ?app_nil_r; try done. by exists t, m.
  - eexists. split; [done|]. exists dl, [(t, m)], q, (take n (wire ps m)).
    split; cbn; rewrite ?app_nil_r; try done; unfold wq_ok, waiting in *; by rewrite channel_close_queue.
Qed.

Lemma link_step_ok ps e lk : link_ok ps lk -> exists lk', link_step e lk = Finished lk' /\ link_ok ps lk'.
Proof.
  intros Hok. destruct e as [m t now|e|now|now|].
  - by apply link_send.
  - assert (forall w, (w = lk_writer lk \/ w = Ended) ->
      link_ok ps (mkLink (lk_serializer lk) (lk_channel lk) (lk_limiter lk) w (lk_sent lk ++ []) (lk_accepted lk))) as Hstay.
    { intros w Hw. destruct Hok as (dl & fl & q & part & [? ? ? ? ? ? Hwr]). exists dl, fl, q, part.
      split; cbn; rewrite ?app_nil_r; try done. by destruct Hw as [->| ->]. }
    destruct (lk_writer lk) as [|b n|] eqn:Ew, e as [|r now|];
      [by apply link_pop|..|by eapply link_write|idtac|idtac|idtac|idtac];
      cbn [link_step]; rewrite Ew; cbn [writer_step mbind run_bind]; (eexists; split; [done|]); apply Hstay;
      try destruct (ch_cancelled (lk_channel lk)); auto.
  - eexists. split; [done|]. by apply link_on_channel.
  - eexists. split; [done|]. apply link_on_channel; [|done]. apply check_timeout_queue.
  - eexists. split; [done|]. apply link_on_channel; [|done]. apply channel_close_queue.
Qed.

Lemma link_run_ok ps es lk : link_ok ps lk -> exists lk', link_run es lk = Finished lk' /\ link_ok ps lk'.
Proof.
  revert lk. induction es as [|e es IH]; intros lk Hok; [by exists lk|].
  destruct (link_step_ok ps e lk Hok) as (lk1 & E1 & Hok1). cbn [link_run]. rewrite E1. by apply IH.
Qed.

(** Accepted messages come from the events. *)
Lemma link_step_accepted e lk lk' p :
  link_step e lk = Finished lk' -> p ∈ lk_accepted lk' -> p ∈ lk_accepted lk \/ p.2 ∈ event_messages e.
Proof.
  destruct e as [m t now|e|now|now|]; cbn [link_step event_messages].
  - destruct (try_send _ _ _ _ _ _) as [[[sent s] c] l]. intros [= <-]. cbn. intros [?|Hp]%elem_of_app; [by left|right].
    destruct sent; [|by apply elem_of_nil in Hp]. apply list_elem_of_singleton in Hp as ->. by left.
  - destruct (writer_step _ _ _) as [[[b w] c]| |]; cbn; [|done|done]. intros [= <-]. by left.
  - intros [= <-]. by left.
  - intros [= <-]. by left.
  - intros [= <-]. by left.
Qed.

Lemma link_run_accepted (P : Message -> Prop) es lk lk' :
  link_run es lk = Finished lk' -> Forall P (lk_accepted lk).*2 -> Forall P (es ≫= event_messages) ->
  Forall P (lk_accepted lk').*2.
Proof.
  revert lk. induction es as [|e es IH]; intros lk; cbn [link_run]; [by intros [= <-]|].
  destruct (link_step e lk) as [lk1| |] eqn:E; cbn; [|done|done]. intros Hr Ha [He Hes]%Forall_app.
  apply (IH lk1 Hr); [|done]. rewrite Forall_fmap, Forall_forall in Ha |- *. rewrite Forall_forall in He.
  intros p Hp. destruct (link_step_accepted _ _ _ _ E Hp) as [Hp'|Hp']; [by apply Ha|by apply He].
Qed.

Lemma elem_of_of_type t m l : m ∈ of_type t l <-> (t, m) ∈ l.
Proof.
  unfold of_type. rewrite list_elem_of_fmap. split.
  - intros ([t' m'] & -> & [Ht Hp]%list_elem_of_filter). cbn in *. by subst.
  - intros Hp. exists (t, m). split; [done|]. by apply list_elem_of_filter.
Qed.

Context (hash : list byte -> Z) `{!BitVecLaws _}.

(** C11. What a channel accepts reaches the peer. For every sequence of sends
    of well-formed messages, wake-ups of the writing task (whatever the socket
    takes of each write), reads, checkups and closing, the sending side neither
    panics nor loops. Whichever way the bytes the socket took are cut into
    packets, and whatever others do to the peer's duplicate filter between
    them, the deserializer of a compatible peer gives exactly one result for
    each message written completely, in order: the message itself, or, for a
    publish or confirm-ack message and a peer with a filter, the error for a
    duplicate, which it gives only if the digest of the message was in the
    filter at the start, was entered by others or belongs to an earlier message
    (or is the zero of an empty entry). For each traffic type these messages are
    the first ones that [try_send] accepted, in order; the others are the at
    most one the task is writing and those in the queue. *)
Theorem channel_delivers ps pr s c l es filter seen :
  ms_protocol s = ps -> compatible ps pr -> ch_write_queue c = write_queue_new MAX_QUEUE_SIZE ->
  Forall wf_message (es ≫= event_messages) -> filter_ok filter -> seen_by seen filter ->
  exists lk, link_run es (link_new s c l) = Finished lk /\
  exists delivered inflight queue,
    (forall packets, concat packets.*2 = lk_sent lk ->
       exists rs filter' d, feed_shared hash packets filter (md_new pr) = Finished (rs, filter', d) /\
         arrivals hash (bool_decide (is_Some filter)) ps (seen ++ applied (concat packets.*1)) delivered.*2 rs) /\
    (forall t, of_type t (lk_accepted lk) = of_type t delivered ++ of_type t inflight ++ queue t) /\
    (length inflight <= 1)%nat /\ (lk_writer lk = Popping -> inflight = []) /\
    (forall t, waiting (ch_write_queue (lk_channel lk)) t = wire ps <$> queue t).
Proof.
  intros Hs Hc Hq Hwf Hf Hseen.
  assert (link_ok ps (link_new s c l)) as Hnew.
  { exists [], [], (fun _ => []), []. split; cbn; try done; [| |by left]; rewrite Hq; [apply fair_queue_new_ok|done]. }
  destruct (link_run_ok ps es _ Hnew) as (lk & E & dl & fl & q & part & [_ _ Hw Ho Hsent Hpt Hwr]). exists lk. split; [done|].
  assert (Forall wf_message (lk_accepted lk).*2) as Hacc by (by eapply link_run_accepted).
  assert (forall p, p ∈ dl ++ fl -> wf_message p.2) as Hall.
  { intros [t m] Hp. rewrite Forall_fmap, Forall_forall in Hacc. apply (Hacc (t, m)), elem_of_of_type. rewrite Ho, (assoc_L (++)), <- of_type_app.
    apply elem_of_app. left. by apply elem_of_of_type. }
  exists dl, fl, q. split; [|split; [done|]; split; [|split; [by intros Ew; rewrite Ew in Hwr|done]]].
  - intros packets Hp. rewrite Hsent in Hp.
    assert (Forall wf_message dl.*2) as Hdl.
    { apply Forall_fmap, Forall_forall. intros p Hp'. apply Hall, elem_of_app. by left. }
    destruct Hpt as [[-> ->]|(t & m & suffix & -> & Em & Hne)].
    + apply (feed_shared_wire hash ps pr dl.*2 MsgTelemetryReq [] (wire ps MsgTelemetryReq)); try done.
    + apply (feed_shared_wire hash ps pr dl.*2 m part suffix); try done. apply (Hall (t, m)), elem_of_app. right. by left.
  - destruct Hpt as [[-> _]|(t & m & ? & -> & _)]; cbn; lia.
Qed.
End link.

(** ** Example

    A block published twice and three requests; the socket takes the first
    message in two parts and the beginning of the last one. *)

Definition sample_endpoint : SocketAddrV6 := mkSocketAddrV6 (ipv4 192 168 0 1) 7075 0 0.
Definition sample_channel : Channel := channel_new 1 sample_endpoint sample_endpoint Inbound 20 0.
Definition sample_limiter : BandwidthLimiter := limiter_new limiter_config_default.

Definition sample_publish : Message :=
  let h := mkReceiveHashables 1 2 in
  MsgPublish (mkPublish (LegacyReceive (mkReceiveBlock 3 5 h (@receive_hashables_hash model_crypto h))) 0 false).

Definition sample_link_events : list LinkEvent :=
  [Send sample_publish BlockBroadcast 4; Send sample_publish BlockBroadcast 4; Send MsgTelemetryReq Telemetry 5;
   Send (MsgConfirmReq (mkConfirmReq [(1, 2)])) ConfirmationRequests 6;
   WriterWakes Enqueued; WriterWakes (Writable (Wrote 3) 7); WriterWakes (Writable WouldBlock 8);
   WriterWakes (Writable (Wrote 500) 9); WriterWakes Enqueued; WriterWakes (Writable (Wrote 500) 10);
   WriterWakes Enqueued; WriterWakes (Writable (Wrote 500) 11); WriterWakes Enqueued; WriterWakes (Writable (Wrote 500) 12);
   Send MsgTelemetryReq Telemetry 13; WriterWakes Enqueued; WriterWakes (Writable (Wrote 4) 14)].

Lemma channel_delivers_witness :
  exists lk, @link_run model_bitvec sample_link_events (link_new sample_serializer sample_channel sample_limiter) = Finished lk /\
  exists delivered inflight queue,
    (forall packets, concat packets.*2 = lk_sent lk ->
       exists rs filter' d, @feed_shared model_crypto model_bitvec (fun _ => 7) packets (Some (nf_with_size 4)) (md_new protocol_info_default)
         = Finished (rs, filter', d) /\
         arrivals (fun _ => 7) true protocol_info_default (applied (concat packets.*1)) delivered.*2 rs) /\
    (forall t, of_type t (lk_accepted lk) = of_type t delivered ++ of_type t inflight ++ queue t).
Proof.
  assert (compatible protocol_info_default protocol_info_default) as Hc by (by vm_compute).
  assert (Forall (@wf_message model_crypto) (sample_link_events ≫= event_messages)) as Hw.
  { repeat constructor; try (by vm_compute). cbn. intros [? ?]. done. }
  assert (filter_ok (Some (nf_with_size 4))) as Hf by (by vm_compute).
  assert (seen_by [] (Some (nf_with_size 4))) as Hs by (repeat constructor).
  destruct (@channel_delivers model_crypto model_bitvec (fun _ => 7) model_bitvec_laws protocol_info_default
    protocol_info_default sample_serializer sample_channel sample_limiter sample_link_events (Some (nf_with_size 4)) []
    eq_refl Hc eq_refl Hw Hf Hs) as (lk & E & dl & fl & q & Hd & Ho & _).
  exact (ex_intro _ lk (conj E (ex_intro _ dl (ex_intro _ fl (ex_intro _ q (conj Hd Ho)))))).
Defined.
