(* ===== verification/Network.v ===== *)
(** * The network: channels, attempts and limits (network/src/network.rs)

    The channels are shared ([Arc<Channel>]) with the tasks that read and
    write them; here they are the values of one map and the tasks change them
    there ([on_channel_id]). A [HashMap] is iterated in an unspecified order;
    [rand]'s shuffling is a permutation. A panic is [None] or [Panicked]. The
    counters of [NetworkStats] and the observers are left out. *)

From S2P Require Import Prelude Types Election Messages Collections Peers Channel.

(** ** NetworkConfig *)

Record NetworkConfig := mkNetworkConfig {
  peer_reachout : Duration;
  cached_peer_reachout : Duration;
  max_inbound_connections : Z;
  max_outbound_connections : Z;
  max_peers_per_ip : Z;
  max_peers_per_subnetwork : Z;
  max_attempts_per_ip : Z;
  allow_local_peers : bool;
  protocol_info : ProtocolInfo;
  listening_port : Z;
  limiter : BandwidthLimiterConfig;
  minimum_fanout : Z;
}.

Definition network_config_default_for (network : Networks) : NetworkConfig :=
  let is_dev := bool_decide (network = NanoDevNetwork) in
  mkNetworkConfig
    (if is_dev then 10 * 10 ^ 6 else 250 * 10 ^ 6)
    (secs 1)
    (if is_dev then 128 else 2048)
    (if is_dev then 128 else 2048)
    (match network with NanoDevNetwork | NanoBetaNetwork => 256 | _ => 4 end)
    (match network with NanoDevNetwork | NanoBetaNetwork => 256 | _ => 16 end)
    (if is_dev then 128 else 1)
    true
    (protocol_info_default_for network)
    (match network with NanoDevNetwork => 44000 | NanoBetaNetwork => 54000 | NanoTestNetwork => 17076 | _ => 7075 end)
    limiter_config_default
    2.

Inductive NetworkError :=
| MaxConnections | MaxConnectionsPerSubnetwork | MaxConnectionsPerIp | PeerExcluded | InvalidIp
| DuplicateConnection | Cancelled.

(** ** Network *)

Record Network := mkNetwork {
  nw_next_channel_id : Z;
  nw_channels : gmap ChannelId Channel;
  nw_stopped : bool;
  nw_attempts : AttemptContainer;
  nw_config : NetworkConfig;
  nw_excluded_peers : PeerExclusion;
  nw_bandwidth_limiter : BandwidthLimiter;
  nw_loopback : Channel;
}.

Definition LOOPBACK : ChannelId := 0.
Definition TEST_INSTANT : Timestamp := 1000 * 1000 * 1000 * 60 * 60 * 24 * 365.
Definition MAX_EXCLUDED_PEERS : nat := 5000.

Definition create_loopback_channel (config : NetworkConfig) : Channel :=
  let localhost := mkSocketAddrV6 LOCALHOST 0 0 0 in
  set_mode Realtime
    (channel_new LOOPBACK localhost localhost Outbound (version_using (protocol_info config)) TEST_INSTANT).

Definition network_new (config : NetworkConfig) : Network :=
  mkNetwork 1 ∅ false attempts_empty config (peer_exclusion_with_max_size MAX_EXCLUDED_PEERS)
    (limiter_new (limiter config)) (create_loopback_channel config).

Definition with_channels (channels : gmap ChannelId Channel) (n : Network) : Network :=
  mkNetwork (nw_next_channel_id n) channels (nw_stopped n) (nw_attempts n) (nw_config n) (nw_excluded_peers n)
    (nw_bandwidth_limiter n) (nw_loopback n).

Definition with_attempts (attempts : AttemptContainer) (n : Network) : Network :=
  mkNetwork (nw_next_channel_id n) (nw_channels n) (nw_stopped n) attempts (nw_config n) (nw_excluded_peers n)
    (nw_bandwidth_limiter n) (nw_loopback n).

Definition with_excluded (x : PeerExclusion) (n : Network) : Network :=
  mkNetwork (nw_next_channel_id n) (nw_channels n) (nw_stopped n) (nw_attempts n) (nw_config n) x
    (nw_bandwidth_limiter n) (nw_loopback n).

(** A change of a channel through one of its shared handles. *)
Definition on_channel_id (id : ChannelId) (f : Channel -> Channel) (n : Network) : Network :=
  with_channels (alter f id (nw_channels n)) n.

(** [self.channels.values().filter(..).count()] *)
Definition count_channels (P : Channel -> bool) (n : Network) : Z :=
  Z.of_nat (size (filter (fun e : ChannelId * Channel => P e.2 = true) (nw_channels n))).

Definition same_direction (direction : ChannelDirection) (c : Channel) : bool :=
  is_alive c && bool_decide (ch_direction c = direction).

Definition count_by_direction (direction : ChannelDirection) (n : Network) : Z :=
  count_channels (same_direction direction) n.

Definition same_ip (ip : Ipv6Addr) (c : Channel) : bool := is_alive c && (channel_address c =? ip).
Definition count_by_ip (ip : Ipv6Addr) (n : Network) : Z := count_channels (same_ip ip) n.

Definition same_subnet (subnet : Ipv6Addr) (c : Channel) : bool := is_alive c && (channel_subnetwork c =? subnet).
Definition count_by_subnet (subnet : Ipv6Addr) (n : Network) : Z := count_channels (same_subnet subnet) n.

Definition count_by_mode (mode : ChannelMode) (n : Network) : Z :=
  count_channels (fun c => is_alive c && bool_decide (ch_mode c = mode)) n.

Definition max_connections (direction : ChannelDirection) (n : Network) : Z :=
  match direction with
  | Inbound => max_inbound_connections (nw_config n)
  | Outbound => max_outbound_connections (nw_config n)
  end.

Definition is_inbound_slot_available (n : Network) : bool :=
  count_by_direction Inbound n <? max_inbound_connections (nw_config n).

Definition network_perma_ban (peer_addr : SocketAddrV6) (n : Network) : Network :=
  with_excluded (perma_ban peer_addr (nw_excluded_peers n)) n.

Definition network_is_excluded (peer_addr : SocketAddrV6) (now : Timestamp) (n : Network) : option (bool * Network) :=
  '(b, x) ← is_excluded peer_addr now (nw_excluded_peers n);
  Some (b, with_excluded x n).

Definition max_ip_connections (endpoint : SocketAddrV6) (n : Network) : bool :=
  max_peers_per_ip (nw_config n) <=?
    count_by_ip (sa_ip endpoint) n + Z.of_nat (attempts_count_by_address (sa_ip endpoint) (nw_attempts n)).

Definition max_subnetwork_connections (peer : SocketAddrV6) (n : Network) : bool :=
  if is_ipv4_mapped (sa_ip peer) then false
  else
    let subnet := map_address_to_subnetwork (sa_ip peer) in
    max_peers_per_subnetwork (nw_config n) <=?
      count_by_subnet subnet n + Z.of_nat (attempts_count_by_subnetwork subnet (nw_attempts n)).

Definition not_a_peer (endpoint : SocketAddrV6) (allow_local_peers : bool) (n : Network) : bool :=
  (sa_ip endpoint =? UNSPECIFIED) || reserved_address endpoint allow_local_peers ||
  bool_decide (endpoint = mkSocketAddrV6 LOCALHOST (listening_port (nw_config n)) 0 0).

Definition has_remote_addr (remote_addr : SocketAddrV6) (c : Channel) : bool :=
  is_alive c && bool_decide (ch_peer_addr c = remote_addr).
Definition has_peering_addr (peering_addr : SocketAddrV6) (c : Channel) : bool :=
  is_alive c && bool_decide (ch_peering_addr c = Some peering_addr).

(** Only the number of the channels found matters below. *)
Definition validate_new_connection (peer : SocketAddrV6) (direction : ChannelDirection) (now : Timestamp) (n : Network)
    : option (result NetworkError () * Network) :=
  if max_connections direction n <=? count_by_direction direction n then Some (Err MaxConnections, n)
  else
    '(excluded, n) ← network_is_excluded peer now n;
    Some (
      if excluded : bool then (Err PeerExcluded, n)
      else if max_peers_per_ip (nw_config n) <=? count_by_ip (sa_ip peer) n then (Err MaxConnectionsPerIp, n)
      else if max_ip_connections peer n then (Err MaxConnectionsPerIp, n)
      else if max_subnetwork_connections peer n then (Err MaxConnectionsPerSubnetwork, n)
      else if not_a_peer peer (allow_local_peers (nw_config n)) n then (Err InvalidIp, n)
      else match direction with
           | Outbound =>
               if 0 <? count_channels (has_remote_addr peer) n then (Err DuplicateConnection, n)
               else if 0 <? count_channels (has_peering_addr peer) n then (Err DuplicateConnection, n)
               else (Ok (), n)
           | Inbound => (Ok (), n)
           end).

Definition remove_attempt (remote : SocketAddrV6) (n : Network) : option Network :=
  attempts ← attempts_remove remote (nw_attempts n);
  Some (with_attempts attempts n).

Definition add_outbound_attempt (peer : SocketAddrV6) (now : Timestamp) (n : Network)
    : option (result NetworkError () * Network) :=
  let n := with_attempts (attempts_insert peer Outbound now (nw_attempts n)).2 n in
  '(r, n) ← validate_new_connection peer Outbound now n;
  match r with
  | Err e => n ← remove_attempt peer n; Some (Err e, n)
  | Ok _ => Some (Ok (), n)
  end.

Definition add_new_channel (local_addr peer_addr : SocketAddrV6) (direction : ChannelDirection) (now : Timestamp)
    (n : Network) : option (result NetworkError Channel * Network) :=
  '(r, n) ← validate_new_connection peer_addr direction now n;
  match r with
  | Err e => Some (Err e, n)
  | Ok _ =>
      let channel_id := nw_next_channel_id n in
      let channel := channel_new channel_id local_addr peer_addr direction (version_min (protocol_info (nw_config n))) now in
      Some (Ok channel,
            mkNetwork (wrap 64 (channel_id + 1)) (<[channel_id := channel]> (nw_channels n)) (nw_stopped n)
              (nw_attempts n) (nw_config n) (nw_excluded_peers n) (nw_bandwidth_limiter n) (nw_loopback n))
  end.

Definition set_listening_port (port : Z) (n : Network) : Network :=
  let c := nw_config n in
  mkNetwork (nw_next_channel_id n) (nw_channels n) (nw_stopped n) (nw_attempts n)
    (mkNetworkConfig (peer_reachout c) (cached_peer_reachout c) (max_inbound_connections c) (max_outbound_connections c)
       (max_peers_per_ip c) (max_peers_per_subnetwork c) (max_attempts_per_ip c) (allow_local_peers c) (protocol_info c)
       port (limiter c) (minimum_fanout c))
    (nw_excluded_peers n) (nw_bandwidth_limiter n) (nw_loopback n).

Definition network_get (channel_id : ChannelId) (n : Network) : option Channel :=
  if channel_id =? LOOPBACK then Some (nw_loopback n) else nw_channels n !! channel_id.

Definition network_remove (channel_id : ChannelId) (n : Network) : Network :=
  with_channels (delete channel_id (nw_channels n)) n.

Definition network_set_node_id (channel_id : ChannelId) (node_id : PublicKey) (n : Network) : Network :=
  on_channel_id channel_id (set_node_id node_id) n.

Definition set_peering_addr (channel_id : ChannelId) (peering_addr : SocketAddrV6) (n : Network) : Network :=
  on_channel_id channel_id (channel_set_peering_addr peering_addr) n.

(** Sending through a channel uses up the shared limiter. *)
Definition network_send (channel_id : ChannelId) (buffer : list byte) (t : TrafficType) (now : Timestamp) (n : Network)
    : bool * Network :=
  match nw_channels n !! channel_id with
  | None => (false, n)
  | Some c =>
      let '(sent, c, l) := channel_send buffer t now c (nw_bandwidth_limiter n) in
      (sent, mkNetwork (nw_next_channel_id n) (<[channel_id := c]> (nw_channels n)) (nw_stopped n) (nw_attempts n)
               (nw_config n) (nw_excluded_peers n) l (nw_loopback n))
  end.

Section iteration.
Context `{HashOrder}.

Definition channel_values (n : Network) : list Channel := (hash_iter (nw_channels n)).*2.

Definition find_channel (P : Channel -> bool) (n : Network) : option Channel :=
  head (filter (fun c => P c = true) (channel_values n)).

Definition find_node_id (node_id : PublicKey) (n : Network) : option Channel :=
  find_channel (fun c => bool_decide (ch_node_id c = Some node_id) && is_alive c) n.

Definition find_realtime_channel_by_remote_addr (endpoint : SocketAddrV6) (n : Network) : option Channel :=
  find_channel (fun c => bool_decide (ch_mode c = Realtime) && is_alive c && bool_decide (ch_peer_addr c = endpoint)) n.

Definition find_realtime_channel_by_peering_addr (peering_addr : SocketAddrV6) (n : Network) : option Channel :=
  find_channel (fun c => bool_decide (ch_mode c = Realtime) && is_alive c &&
                         bool_decide (ch_peering_addr c = Some peering_addr)) n.

Definition find_channels_by_remote_addr (remote_addr : SocketAddrV6) (n : Network) : list Channel :=
  filter (fun c => has_remote_addr remote_addr c = true) (channel_values n).

Definition find_channels_by_peering_addr (peering_addr : SocketAddrV6) (n : Network) : list Channel :=
  filter (fun c => has_peering_addr peering_addr c = true) (channel_values n).

Definition is_realtime (c : Channel) : bool := is_alive c && bool_decide (ch_mode c = Realtime).

(** [channels()] *)
Definition realtime_channels (n : Network) : list Channel := filter (fun c => is_realtime c = true) (channel_values n).

Definition available_channels (traffic_type : TrafficType) (n : Network) : list Channel :=
  filter (fun c => should_drop traffic_type c = false) (realtime_channels n).

(** [Ord for SocketAddrV6] *)
Definition addr_cmp (a b : SocketAddrV6) : comparison :=
  match sa_ip a ?= sa_ip b with
  | Eq => match sa_port a ?= sa_port b with
          | Eq => match sa_flowinfo a ?= sa_flowinfo b with
                  | Eq => sa_scope_id a ?= sa_scope_id b
                  | o => o
                  end
          | o => o
          end
  | o => o
  end.

Definition sorted_channels (n : Network) : list Channel :=
  sort_by (fun a b => match addr_cmp (ch_peer_addr a) (ch_peer_addr b) with Gt => false | _ => true end)
    (realtime_channels n).

Definition iter_by_last_bootstrap_attempt (n : Network) : list Channel :=
  sort_by (fun a b => last_bootstrap_attempt a <=? last_bootstrap_attempt b)
    (filter (fun c => is_alive c = true) (channel_values n)).

Definition NULL_ENDPOINT : SocketAddrV6 := mkSocketAddrV6 UNSPECIFIED 0 0 0.

Definition bootstrap_candidate (version_min : Z) (c : Channel) : bool :=
  bool_decide (ch_mode c = Realtime) && (version_min <=? ch_protocol_version c) &&
  match ch_peering_addr c with Some _ => true | None => false end.

Definition bootstrap_peer (now : Timestamp) (n : Network) : SocketAddrV6 * Network :=
  match head (filter (fun c => bootstrap_candidate (version_min (protocol_info (nw_config n))) c = true)
                (iter_by_last_bootstrap_attempt n)) with
  | Some c => (default NULL_ENDPOINT (ch_peering_addr c),
               on_channel_id (ch_channel_id c) (set_last_bootstrap_attempt now) n)
  | None => (NULL_ENDPOINT, n)
  end.

(** *** Purging *)

Definition close_idle (now : Timestamp) (cutoff_period : Duration) (c : Channel) : Channel :=
  if cutoff_period <=? timestamp_sub now (last_activity c) then channel_close c else c.

Definition close_old_protocol (min_version : Z) (c : Channel) : Channel :=
  if ch_protocol_version c <? min_version then channel_close c else c.

Definition close_idle_channels (now : Timestamp) (cutoff_period : Duration) (n : Network) : Network :=
  with_channels (close_idle now cutoff_period <$> nw_channels n) n.

Definition close_old_protocol_versions (min_version : Z) (n : Network) : Network :=
  with_channels (close_old_protocol min_version <$> nw_channels n) n.

Definition remove_dead_channels (n : Network) : list Channel * Network :=
  let dead_channels := filter (fun c => is_alive c = false) (channel_values n) in
  (dead_channels, with_channels (foldl (fun m c => delete (ch_channel_id c) m) (nw_channels n) dead_channels) n).

Definition network_purge (now : Timestamp) (cutoff_period : Duration) (n : Network) : run (list Channel * Network) :=
  let n := close_idle_channels now cutoff_period n in
  let n := close_old_protocol_versions (version_min (protocol_info (nw_config n))) n in
  let '(purged_channels, n) := remove_dead_channels n in
  attempts ← attempts_purge now cutoff_period (nw_attempts n);
  Finished (purged_channels, with_attempts attempts n).

(** *** Misbehaviour, stopping, realtime connections *)

Definition network_peer_misbehaved (channel_id : ChannelId) (now : Timestamp) (n : Network) : run Network :=
  match nw_channels n !! channel_id with
  | None => Finished n
  | Some channel =>
      '(_, x) ← peer_misbehaved (ch_peer_addr channel) now (nw_excluded_peers n);
      Finished (on_channel_id channel_id channel_close (with_excluded x n))
  end.

(** The closed channels are dropped from the map. *)
Definition network_stop (n : Network) : bool * Network :=
  if nw_stopped n then (false, n)
  else (true, mkNetwork (nw_next_channel_id n) ∅ true (nw_attempts n) (nw_config n) (nw_excluded_peers n)
                (nw_bandwidth_limiter n) (channel_close (nw_loopback n))).

Definition upgrade_to_realtime_connection (channel_id : ChannelId) (node_id : PublicKey) (n : Network)
    : option Channel * Network :=
  if nw_stopped n then (None, n)
  else match nw_channels n !! channel_id with
       | None => (None, n)
       | Some channel =>
           let duplicate := match find_node_id node_id n with
                            | Some other => channel_address other =? channel_address channel
                            | None => false
                            end in
           if duplicate then (None, n)
           else let channel := set_mode Realtime (set_node_id node_id channel) in
                (Some channel, with_channels (<[channel_id := channel]> (nw_channels n)) n)
       end.

Definition idle_channels (min_idle_time : Duration) (now : Timestamp) (n : Network) : list Channel :=
  filter (fun c => bool_decide (ch_mode c = Realtime) && (min_idle_time <=? timestamp_sub now (last_activity c)) = true)
    (channel_values n).

(** [shuffle] of rand. *)
Context (shuffle : list Channel -> list Channel).

Definition shuffled_channels (traffic_type : TrafficType) (n : Network) : list Channel :=
  shuffle (available_channels traffic_type n).

(** Fills a slice of the given length. *)
Definition random_fill_realtime (len : nat) (n : Network) : list SocketAddrV6 :=
  let peers := shuffle (filter (fun c => bool_decide (is_Some (ch_peering_addr c)) = true) (realtime_channels n)) in
  let peers := take len peers in
  (fun i => match peers !! i with
            | Some c => default NULL_ENDPOINT (ch_peering_addr c)
            | None => NULL_ENDPOINT
            end) <$> seq 0 len.
End iteration.

Record ChannelsInfo := mkChannelsInfo {
  ci_total : Z;
  ci_realtime : Z;
  ci_inbound : Z;
  ci_outbound : Z;
}.

Definition channels_info (n : Network) : ChannelsInfo :=
  mkChannelsInfo (count_channels (fun _ => true) n)
    (count_channels (fun c => bool_decide (ch_mode c = Realtime)) n)
    (count_channels (fun c => bool_decide (ch_direction c = Inbound)) n)
    (count_channels (fun c => bool_decide (ch_direction c = Outbound)) n).
