(* ===== verification/NetworkTheorems.v ===== *)
(** * What the network guarantees

    Whatever peers do, the network neither panics nor loops, and the numbers of
    live connections stay within the configured limits. *)

From S2P Require Import Prelude Types Election Messages Collections Peers PeersSafe Channel Network.

(** ** Subnetworks

    The subnetwork of an IPv6 address is never that of an IPv4 one. *)

Lemma length_octets ip : length (octets ip) = 16%nat.
Proof. apply length_to_be_bytes. Qed.

Definition MAPPED_PREFIX : list Z := [0; 0; 0; 0; 0; 0; 0; 0; 0; 0; 0xff; 0xff].

Lemma octets_fill ip prefix_bits filler :
  (Z.to_nat (prefix_bits / 8) <= 16)%nat ->
  octets (fill_remaining_bits ip prefix_bits filler) =
    take (Z.to_nat (prefix_bits / 8)) (octets ip) ++ replicate (16 - Z.to_nat (prefix_bits / 8)) (byte_of filler).
Proof.
  intros Hn. unfold fill_remaining_bits. set (l := take _ _ ++ _).
  assert (length l = 16%nat) as Hl by (unfold l; rewrite length_app, length_take, length_replicate, length_octets; lia).
  unfold octets. rewrite <- Hl. by rewrite to_from_be_bytes.
Qed.

(** An address whose octets from the sixth on are zero is not IPv4. *)
Lemma subnet_not_mapped ip bits : 0 <= bits < 80 -> is_ipv4_mapped (first_ipv6_subnet_address ip bits) = false.
Proof.
  intros Hb. apply bool_decide_eq_false. unfold first_ipv6_subnet_address.
  assert (bits / 8 < 10) by (apply Z.div_lt_upper_bound; lia). assert (0 <= bits / 8) by (apply Z.div_pos; lia).
  rewrite octets_fill by lia. intros E. apply (f_equal (fun l => l !! 10%nat)) in E. cbn [lookup list_lookup] in E.
  rewrite list_lookup_fmap, lookup_take_lt, lookup_app_r in E by (rewrite ?length_take, ?length_octets; lia).
  rewrite lookup_replicate_2 in E by (rewrite ?length_take, ?length_octets; lia). done.
Qed.

Lemma mapped_subnet_mapped ip : is_ipv4_mapped ip = true -> is_ipv4_mapped (map_address_to_subnetwork ip) = true.
Proof.
  intros E. unfold map_address_to_subnetwork. rewrite E. unfold is_ipv4_mapped in *. rewrite bool_decide_eq_true in *.
  unfold first_ipv6_subnet_address. rewrite octets_fill by (by apply Nat.leb_le).
  rewrite take_app_le by (rewrite length_take, length_octets; by apply Nat.leb_le). by rewrite take_take.
Qed.

Lemma subnet_kind ip : is_ipv4_mapped (map_address_to_subnetwork ip) = is_ipv4_mapped ip.
Proof.
  destruct (is_ipv4_mapped ip) eqn:E; [by apply mapped_subnet_mapped|]. unfold map_address_to_subnetwork. rewrite E.
  by apply subnet_not_mapped.
Qed.

Lemma address_kind ip : is_ipv4_mapped (ipv4_address_or_ipv6_subnet ip) = is_ipv4_mapped ip.
Proof.
  unfold ipv4_address_or_ipv6_subnet. destruct (is_ipv4_mapped ip) eqn:E; [done|]. by apply subnet_not_mapped.
Qed.

(** ** Counting live channels *)

(** A predicate on live channels that only looks at what never changes. *)
Definition static (P : Channel -> bool) : Prop :=
  exists Q : ChannelDirection -> SocketAddrV6 -> bool, forall c, P c = is_alive c && Q (ch_direction c) (ch_peer_addr c).

Lemma static_direction d : static (same_direction d).
Proof. by exists (fun d' _ => bool_decide (d' = d)). Qed.
Lemma static_ip ip : static (same_ip ip).
Proof. by exists (fun _ e => ipv4_address_or_ipv6_subnet (sa_ip e) =? ip). Qed.
Lemma static_subnet s : static (same_subnet s).
Proof. by exists (fun _ e => map_address_to_subnetwork (sa_ip e) =? s). Qed.
#[local] Hint Resolve static_direction static_ip static_subnet : core.

(** The live channels of [m'] are live in [m], with the same peer. *)
Definition calmer (m' m : gmap ChannelId Channel) : Prop :=
  forall id c', m' !! id = Some c' -> is_alive c' = true ->
    exists c, m !! id = Some c /\ is_alive c = true /\ ch_direction c = ch_direction c' /\ ch_peer_addr c = ch_peer_addr c'.

(** A change of a channel that does not revive it. *)
Definition tame (f : Channel -> Channel) : Prop :=
  forall c, ch_channel_id (f c) = ch_channel_id c /\ ch_direction (f c) = ch_direction c /\
    ch_peer_addr (f c) = ch_peer_addr c /\ (is_alive (f c) = true -> is_alive c = true).

Lemma calmer_refl m : calmer m m.
Proof. intros id c E Ha. by exists c. Qed.

Lemma calmer_trans m1 m2 m3 : calmer m1 m2 -> calmer m2 m3 -> calmer m1 m3.
Proof.
  intros H1 H2 id c E Ha. destruct (H1 id c E Ha) as (c1 & E1 & Ha1 & Hd1 & Hp1).
  destruct (H2 id c1 E1 Ha1) as (c2 & E2 & Ha2 & Hd2 & Hp2). exists c2. repeat split; [done|done|congruence|congruence].
Qed.

Lemma calmer_sub m' m : m' ⊆ m -> calmer m' m.
Proof. intros Hs id c E Ha. exists c. split; [by eapply lookup_weaken|done]. Qed.

Lemma calmer_fmap f m : tame f -> calmer (f <$> m) m.
Proof.
  intros Hf id c E Ha. rewrite lookup_fmap in E. destruct (m !! id) as [c0|] eqn:E0; [|done]. injection E as <-.
  destruct (Hf c0) as (_ & Hd & Hp & Hal). exists c0. auto.
Qed.

Lemma calmer_alter f id m : tame f -> calmer (alter f id m) m.
Proof.
  intros Hf k c E Ha. destruct (decide (k = id)) as [->|Hne]; [|rewrite lookup_alter_ne in E by done; by exists c].
  rewrite lookup_alter_eq in E. destruct (m !! id) as [c0|] eqn:E0; [|done]. injection E as <-.
  destruct (Hf c0) as (_ & Hd & Hp & Hal). exists c0. auto.
Qed.

Lemma calmer_insert f id c m : tame f -> m !! id = Some c -> calmer (<[id := f c]> m) m.
Proof.
  intros Hf E. replace (<[id := f c]> m) with (alter f id m); [by apply calmer_alter|].
  apply map_eq. intros k. destruct (decide (k = id)) as [->|]; [by rewrite lookup_alter_eq, lookup_insert_eq, E|].
  by rewrite lookup_alter_ne, lookup_insert_ne.
Qed.

Definition selected (P : Channel -> bool) (m : gmap ChannelId Channel) : gmap ChannelId Channel :=
  filter (fun e : ChannelId * Channel => P e.2 = true) m.

Lemma selected_lookup P m id c : selected P m !! id = Some c <-> m !! id = Some c /\ P c = true.
Proof. unfold selected. by rewrite map_lookup_filter_Some. Qed.

Lemma selected_size P m' m :
  (forall id c', m' !! id = Some c' -> P c' = true -> exists c, m !! id = Some c /\ P c = true) ->
  (size (selected P m') <= size (selected P m))%nat.
Proof.
  intros Hs. rewrite <- !(size_dom (D := gset ChannelId)). apply subseteq_size. intros id. rewrite !elem_of_dom.
  intros (c' & [E Hp]%selected_lookup). destruct (Hs id c' E Hp) as (c & ? & ?). exists c. by apply selected_lookup.
Qed.

Lemma calmer_count P n' n :
  static P -> calmer (nw_channels n') (nw_channels n) -> count_channels P n' <= count_channels P n.
Proof.
  intros [Q HQ] Hc. unfold count_channels. apply inj_le, selected_size. intros id c' E Hp.
  rewrite HQ in Hp. apply andb_true_iff in Hp as [Ha Hq]. destruct (Hc id c' E Ha) as (c & Ec & Hac & Hd & Hpa).
  exists c. split; [done|]. by rewrite HQ, Hac, Hd, Hpa.
Qed.

(** A new channel counts once, where it counts at all. *)
Lemma count_insert P n n' id c :
  nw_channels n' = <[id := c]> (nw_channels n) ->
  count_channels P n' <= count_channels P n + (if P c then 1 else 0).
Proof.
  intros En. unfold count_channels. fold (selected P (nw_channels n')) (selected P (nw_channels n)). rewrite En.
  destruct (P c) eqn:Ep.
  - assert (size (selected P (<[id := c]> (nw_channels n))) <= S (size (selected P (nw_channels n))))%nat; [|lia].
    rewrite <- !(size_dom (D := gset ChannelId)). etrans; [apply (subseteq_size _ ({[id]} ∪ dom (selected P (nw_channels n))))|].
    + intros k. rewrite elem_of_union, elem_of_singleton, !elem_of_dom. intros (c' & [E Hp]%selected_lookup).
      destruct (decide (k = id)) as [->|]; [by left|right]. rewrite lookup_insert_ne in E by done. exists c'. by apply selected_lookup.
    + rewrite size_union_alt, size_singleton. assert (size (dom (selected P (nw_channels n)) ∖ {[id]}) <= size (dom (selected P (nw_channels n))))%nat; [|lia].
      apply subseteq_size. set_solver.
  - apply Z.le_trans with (Z.of_nat (size (selected P (nw_channels n)))); [|lia]. apply inj_le, selected_size.
    intros k c' E Hp. destruct (decide (k = id)) as [->|]; [rewrite lookup_insert_eq in E; congruence|].
    rewrite lookup_insert_ne in E by done. by exists c'.
Qed.

(** ** The invariant *)

(** The limits: per direction, per IPv4 address and per IPv6 subnetwork. *)
Record within_limits (n : Network) : Prop := {
  wl_direction : forall d, count_by_direction d n <= max_connections d n;
  wl_ip : forall ip, is_ipv4_mapped ip = true -> count_by_ip ip n <= max_peers_per_ip (nw_config n);
  wl_subnet : forall subnet, is_ipv4_mapped subnet = false ->
    count_by_subnet subnet n <= max_peers_per_subnetwork (nw_config n);
}.

Definition ids_ok (m : gmap ChannelId Channel) : Prop := map_Forall (fun id c => ch_channel_id c = id) m.

Record network_ok (n : Network) : Prop := {
  no_excluded : exclusion_ok (nw_excluded_peers n);
  no_attempts : attempts_ok (nw_attempts n);
  no_ids : ids_ok (nw_channels n);
  no_limits : within_limits n;
}.

(** The parts of the configuration the limits depend on. *)
Definition same_limits (n' n : Network) : Prop :=
  max_inbound_connections (nw_config n') = max_inbound_connections (nw_config n) /\
  max_outbound_connections (nw_config n') = max_outbound_connections (nw_config n) /\
  max_peers_per_ip (nw_config n') = max_peers_per_ip (nw_config n) /\
  max_peers_per_subnetwork (nw_config n') = max_peers_per_subnetwork (nw_config n).

Lemma calmer_limits n' n :
  same_limits n' n -> calmer (nw_channels n') (nw_channels n) -> within_limits n -> within_limits n'.
Proof.
  intros (Hi & Ho & Hip & Hs) Hc [H1 H2 H3].
  assert (forall P, static P -> count_channels P n' <= count_channels P n) as Hle by (intros; by apply calmer_count).
  split.
  - intros d. etrans; [by apply Hle|]. etrans; [apply (H1 d)|]. unfold max_connections. by rewrite Hi, Ho.
  - intros ip E. rewrite Hip. etrans; [by apply Hle|]. by apply H2.
  - intros s E. rewrite Hs. etrans; [by apply Hle|]. by apply H3.
Qed.

Lemma calmer_network n' n :
  network_ok n -> nw_attempts n' = nw_attempts n -> nw_excluded_peers n' = nw_excluded_peers n -> same_limits n' n ->
  ids_ok (nw_channels n') -> calmer (nw_channels n') (nw_channels n) ->
  network_ok n'.
Proof.
  intros [Hx Ha Hi Hl] Ea Ex Hs Hi' Hc. split; [by rewrite Ex|by rewrite Ea|done|by eapply calmer_limits].
Qed.

Lemma ids_alter f id m :
  tame f -> ids_ok m -> ids_ok (alter f id m).
Proof.
  intros Hf Hm k c E. destruct (decide (k = id)) as [->|]; [|rewrite lookup_alter_ne in E by done; by apply Hm].
  rewrite lookup_alter_eq in E. destruct (m !! id) as [c0|] eqn:E0; [|done]. injection E as <-.
  destruct (Hf c0) as [-> _]. by apply Hm.
Qed.

Lemma ids_fmap f m :
  tame f -> ids_ok m -> ids_ok (f <$> m).
Proof.
  intros Hf Hm k c E. rewrite lookup_fmap in E. destruct (m !! k) as [c0|] eqn:E0; [|done]. injection E as <-.
  destruct (Hf c0) as [-> _]. by apply Hm.
Qed.

Lemma on_channel_ok id f n : tame f -> network_ok n -> network_ok (on_channel_id id f n).
Proof.
  intros Hf Hn. eapply calmer_network; [done..| |]; [apply ids_alter; [done|apply Hn]|by apply calmer_alter].
Qed.

Lemma with_excluded_ok x n : exclusion_ok x -> network_ok n -> network_ok (with_excluded x n).
Proof. intros Hx [? ? ? [? ? ?]]. split; [done..|by split]. Qed.

Lemma with_attempts_ok a n : attempts_ok a -> network_ok n -> network_ok (with_attempts a n).
Proof. intros Ha [? ? ? [? ? ?]]. split; [done..|by split]. Qed.

(** ** Tame changes of channels *)

Lemma tame_id (f : Channel -> Channel) :
  (forall c, ch_channel_id (f c) = ch_channel_id c /\ ch_direction (f c) = ch_direction c /\
     ch_peer_addr (f c) = ch_peer_addr c /\ ch_closed (f c) = ch_closed c) -> tame f.
Proof. intros Hf c. destruct (Hf c) as (? & ? & ? & E). unfold is_alive. by rewrite E. Qed.

Lemma tame_close : tame channel_close.
Proof. intros c. unfold channel_close. by destruct (ch_closed c) eqn:E; repeat split. Qed.

Lemma tame_compose f g : tame f -> tame g -> tame (fun c => f (g c)).
Proof.
  intros Hf Hg c. destruct (Hf (g c)) as (E1 & E2 & E3 & E4), (Hg c) as (F1 & F2 & F3 & F4).
  repeat split; [congruence..|auto].
Qed.

Lemma tame_if (P : Channel -> bool) f : tame f -> tame (fun c => if P c then f c else c).
Proof. intros Hf c. destruct (P c); [apply Hf|done]. Qed.

#[local] Hint Resolve tame_close : core.

Lemma tame_check_timeout now : tame (fun c => (check_timeout now c).2).
Proof.
  intros c. unfold check_timeout. destruct (negb (is_alive c)); [done|]. cbn. case_match; [|done].
  destruct (tame_close (set_timed_out true c)) as (? & ? & ? & ?). by repeat split.
Qed.

Lemma channel_send_tame b t now c l sent c' l' :
  channel_send b t now c l = (sent, c', l') -> c' = c \/ exists w, c' = with_write_queue w c.
Proof.
  unfold channel_send. destruct (ch_closed c); [intros [= <- <- <-]; by left|].
  destruct (should_drop t c); [intros [= <- <- <-]; by left|]. destruct (should_pass _ t now l) as [pass l1].
  destruct (negb pass); [intros [= <- <- <-]; by left|]. destruct (wq_try_insert _ _ _) as [i w].
  intros [= <- <- <-]. right. by exists w.
Qed.

(** ** New connections *)

(** There is room for a channel to the peer. *)
Definition has_room (peer : SocketAddrV6) (d : ChannelDirection) (n : Network) : Prop :=
  count_by_direction d n < max_connections d n /\
  count_by_ip (sa_ip peer) n < max_peers_per_ip (nw_config n) /\
  (is_ipv4_mapped (sa_ip peer) = false ->
     count_by_subnet (map_address_to_subnetwork (sa_ip peer)) n < max_peers_per_subnetwork (nw_config n)).

Lemma validate_ok peer d now n :
  network_ok n ->
  exists r n', validate_new_connection peer d now n = Some (r, n') /\ network_ok n' /\
    nw_attempts n' = nw_attempts n /\ same_limits n' n /\ (r = Ok () -> has_room peer d n').
Proof.
  intros Hn. unfold validate_new_connection. destruct (Z.leb_spec (max_connections d n) (count_by_direction d n)) as [|Hd].
  { by exists (Err MaxConnections), n. }
  unfold network_is_excluded. destruct (is_excluded_ok peer now (nw_excluded_peers n) (no_excluded _ Hn)) as (b & x & -> & Hx & _).
  cbn [mbind option_bind]. set (n' := with_excluded x n). assert (network_ok n') as Hn' by (by apply with_excluded_ok).
  match goal with |- exists r n0, Some ?t = _ /\ _ => assert (t.2 = n' /\ (t.1 = Ok () -> has_room peer d n')) as [E Hr] end.
  2:{ eexists _, _. split; [f_equal; apply surjective_pairing|]. rewrite E. done. }
  destruct b; [done|].
  destruct (Z.leb_spec (max_peers_per_ip (nw_config n')) (count_by_ip (sa_ip peer) n')) as [|Hip]; [done|].
  destruct (max_ip_connections peer n'); [done|].
  destruct (max_subnetwork_connections peer n') eqn:Es; [done|]. destruct (not_a_peer _ _ _); [done|].
  assert (has_room peer d n') as Hroom.
  { split; [done|]. split; [done|]. intros E4. unfold max_subnetwork_connections in Es. rewrite E4 in Es.
    apply Z.leb_gt in Es. lia. }
  destruct d; [done|]. by repeat case_match.
Qed.

Lemma add_new_channel_ok local peer d now n :
  network_ok n -> exists r n', add_new_channel local peer d now n = Some (r, n') /\ network_ok n' /\ same_limits n' n.
Proof.
  intros Hn. unfold add_new_channel. destruct (validate_ok peer d now n Hn) as (r & n1 & -> & Hn1 & _ & Hs & Hr).
  cbn [mbind option_bind]. destruct r as [[]|e]; [|by exists (Err e), n1]. destruct (Hr eq_refl) as (Hd & Hip & Hsub). clear Hr.
  eexists _, _. split; [done|]. split; [|done]. destruct Hn1 as [Hx Ha Hi [H1 H2 H3]].
  set (c := channel_new _ _ _ _ _ _). set (n2 := mkNetwork _ _ _ _ _ _ _ _).
  pose proof (fun P => count_insert P n1 n2 (nw_next_channel_id n1) c eq_refl) as Hc.
  split; [done|done|by apply map_Forall_insert_2|]. split.
  - intros d'. specialize (Hc (same_direction d')). specialize (H1 d').
    change (max_connections d' n2) with (max_connections d' n1). unfold count_by_direction in *.
    destruct (same_direction d' c) eqn:E; [|lia]. apply bool_decide_eq_true in E. cbn in E. subst d'. lia.
  - intros ip E4. specialize (Hc (same_ip ip)). specialize (H2 ip E4). change (nw_config n2) with (nw_config n1). unfold count_by_ip in *.
    destruct (same_ip ip c) eqn:E; [|lia]. apply Z.eqb_eq in E. unfold channel_address in E. cbn in E.
    rewrite <- E, address_kind in E4. unfold ipv4_address_or_ipv6_subnet in E. rewrite E4 in E. subst ip. lia.
  - intros s E4. specialize (Hc (same_subnet s)). specialize (H3 s E4). change (nw_config n2) with (nw_config n1). unfold count_by_subnet in *.
    destruct (same_subnet s c) eqn:E; [|lia]. apply Z.eqb_eq in E. unfold channel_subnetwork in E. cbn in E.
    rewrite <- E, subnet_kind in E4. specialize (Hsub E4). rewrite E in Hsub. lia.
Qed.

(** ** Runs of the network *)

(** What the tasks of a connection do to its channel. *)
Inductive ChannelOp :=
| ChClose
| ChCheckTimeout (now : Timestamp)
| ChActivity (now : Timestamp)
| ChSetTimeout (value : Duration)
| ChSetVersion (version : Z)
| ChSetMode (mode : ChannelMode)
| ChQueue (w : WriteQueue).

Definition channel_do (op : ChannelOp) : Channel -> Channel :=
  match op with
  | ChClose => channel_close
  | ChCheckTimeout now => fun c => (check_timeout now c).2
  | ChActivity now => set_last_activity now
  | ChSetTimeout value => set_timeout value
  | ChSetVersion version => set_protocol_version version
  | ChSetMode mode => set_mode mode
  | ChQueue w => with_write_queue w
  end.

Inductive NetworkOp :=
| OpAttempt (peer : SocketAddrV6) (now : Timestamp)
| OpRemoveAttempt (peer : SocketAddrV6)
| OpAdd (local peer : SocketAddrV6) (d : ChannelDirection) (now : Timestamp)
| OpRemove (id : ChannelId)
| OpSetNodeId (id : ChannelId) (node_id : PublicKey)
| OpSetPeeringAddr (id : ChannelId) (addr : SocketAddrV6)
| OpSetPort (port : Z)
| OpBan (peer : SocketAddrV6)
| OpIsExcluded (peer : SocketAddrV6) (now : Timestamp)
| OpMisbehaved (id : ChannelId) (now : Timestamp)
| OpPurge (now : Timestamp) (cutoff : Duration)
| OpStop
| OpUpgrade (id : ChannelId) (node_id : PublicKey)
| OpBootstrapPeer (now : Timestamp)
| OpSend (id : ChannelId) (buffer : list byte) (t : TrafficType) (now : Timestamp)
| OpChannel (id : ChannelId) (op : ChannelOp).

Section runs.
Context `{HL : HashOrderLaws}.

Definition network_do (op : NetworkOp) (n : Network) : run Network :=
  match op with
  | OpAttempt peer now => '(_, n) ← unwrap (add_outbound_attempt peer now n); Finished n
  | OpRemoveAttempt peer => unwrap (remove_attempt peer n)
  | OpAdd local peer d now => '(_, n) ← unwrap (add_new_channel local peer d now n); Finished n
  | OpRemove id => Finished (network_remove id n)
  | OpSetNodeId id node_id => Finished (network_set_node_id id node_id n)
  | OpSetPeeringAddr id addr => Finished (set_peering_addr id addr n)
  | OpSetPort port => Finished (set_listening_port port n)
  | OpBan peer => Finished (network_perma_ban peer n)
  | OpIsExcluded peer now => '(_, n) ← unwrap (network_is_excluded peer now n); Finished n
  | OpMisbehaved id now => network_peer_misbehaved id now n
  | OpPurge now cutoff => '(_, n) ← network_purge now cutoff n; Finished n
  | OpStop => Finished (network_stop n).2
  | OpUpgrade id node_id => Finished (upgrade_to_realtime_connection id node_id n).2
  | OpBootstrapPeer now => Finished (bootstrap_peer now n).2
  | OpSend id buffer t now => Finished (network_send id buffer t now n).2
  | OpChannel id op => Finished (on_channel_id id (channel_do op) n)
  end.

Fixpoint network_run (ops : list NetworkOp) (n : Network) : run Network :=
  match ops with
  | [] => Finished n
  | op :: ops => n ← network_do op n; network_run ops n
  end.

Lemma channel_do_tame op : tame (channel_do op).
Proof. destruct op; cbn; try (by apply tame_id); [apply tame_close|apply tame_check_timeout]. Qed.

Lemma add_outbound_attempt_ok peer now n :
  network_ok n -> exists r n', add_outbound_attempt peer now n = Some (r, n') /\ network_ok n' /\ same_limits n' n.
Proof.
  intros Hn. unfold add_outbound_attempt.
  set (n1 := with_attempts _ n). assert (network_ok n1) as Hn1 by (apply with_attempts_ok; [apply attempts_insert_ok, Hn|done]).
  destruct (validate_ok peer Outbound now n1 Hn1) as (r & n2 & -> & Hn2 & _ & Hs & _). cbn [mbind option_bind].
  destruct r as [[]|e]; [by eexists _, n2|]. unfold remove_attempt.
  destruct (attempts_remove_ok peer (nw_attempts n2) (no_attempts _ Hn2)) as (a & -> & Ha & _). cbn [mbind option_bind].
  eexists _, _. split; [done|]. split; [by apply with_attempts_ok|done].
Qed.

Lemma channel_misbehaved_ok id now n :
  network_ok n -> exists n', network_peer_misbehaved id now n = Finished n' /\ network_ok n' /\ same_limits n' n.
Proof.
  intros Hn. unfold network_peer_misbehaved. destruct (nw_channels n !! id) as [c|]; [|by exists n].
  assert (exists s x, peer_misbehaved (ch_peer_addr c) now (nw_excluded_peers n) = Finished (s, x) /\ exclusion_ok x)
    as (s & x & -> & Hx).
  { pose proof (no_excluded _ Hn) as Hx. destruct (px_by_ip (nw_excluded_peers n) !! sa_ip (ch_peer_addr c)) as [p|] eqn:E.
    - destruct (peer_misbehaved_known _ now _ p Hx E) as (x & ? & ? & _). eauto.
    - destruct (peer_misbehaved_new _ now _ Hx E) as (x & m & ? & ? & _). eauto. }
  eexists. split; [done|]. split; [|done]. apply on_channel_ok; [done|by apply with_excluded_ok].
Qed.

Lemma foldl_delete_sub (l : list Channel) (m : gmap ChannelId Channel) :
  foldl (fun m c => delete (ch_channel_id c) m) m l ⊆ m.
Proof. revert m. induction l as [|c l IH]; intros m; [done|]. cbn. etrans; [apply IH|]. apply delete_subseteq. Qed.

Lemma fmap_channels_ok f n : tame f -> network_ok n -> network_ok (with_channels (f <$> nw_channels n) n).
Proof.
  intros Hf Hn. eapply calmer_network; [done..| |]; [apply ids_fmap; [done|apply Hn]|by apply calmer_fmap].
Qed.

Lemma sub_channels_ok m n : m ⊆ nw_channels n -> network_ok n -> network_ok (with_channels m n).
Proof.
  intros Hm Hn. eapply calmer_network; [done..| |by apply calmer_sub].
  intros id c E. apply (no_ids _ Hn). by eapply lookup_weaken.
Qed.

Lemma network_purge_ok now cutoff n :
  network_ok n -> exists dead n', network_purge now cutoff n = Finished (dead, n') /\ network_ok n' /\ same_limits n' n.
Proof using HL.
  intros Hn. unfold network_purge.
  assert (network_ok (close_idle_channels now cutoff n)) as Hn1 by (apply fmap_channels_ok; [by apply tame_if|done]).
  set (n2 := close_old_protocol_versions _ (close_idle_channels now cutoff n)).
  assert (network_ok n2) as Hn2 by (apply fmap_channels_ok; [by apply tame_if|done]).
  assert (same_limits n2 n) as Hs by done. clearbody n2. unfold remove_dead_channels.
  set (n3 := with_channels _ n2). assert (network_ok n3) as Hn3 by (apply sub_channels_ok; [apply foldl_delete_sub|done]).
  destruct (attempts_purge_ok now cutoff (nw_attempts n3) (no_attempts _ Hn3)) as (a & -> & Ha & _).
  eexists _, _. split; [done|]. split; [by apply with_attempts_ok|done].
Qed.

Lemma network_send_ok id b t now n : network_ok n -> network_ok (network_send id b t now n).2.
Proof.
  intros Hn. unfold network_send. destruct (nw_channels n !! id) as [c|] eqn:E; [|done].
  destruct (channel_send b t now c (nw_bandwidth_limiter n)) as [[sent c'] l] eqn:Es.
  pose proof (no_ids _ Hn _ _ E) as Hid. cbn in Hid. subst id.
  assert (exists f, tame f /\ c' = f c) as (f & Hf & ->).
  { apply channel_send_tame in Es as [->|[w ->]]; [by exists (fun c => c)|]. exists (with_write_queue w). split; [by apply tame_id|done]. }
  eapply calmer_network; [done..| |]; cbn; [|by apply calmer_insert].
  apply map_Forall_insert_2; [|apply Hn]. by destruct (Hf c) as [-> _].
Qed.

Lemma upgrade_realtime_ok id node_id n : network_ok n -> network_ok (upgrade_to_realtime_connection id node_id n).2.
Proof.
  intros Hn. unfold upgrade_to_realtime_connection. destruct (nw_stopped n); [done|].
  destruct (nw_channels n !! id) as [c|] eqn:E; [|done].
  destruct (match find_node_id node_id n with Some other => _ | None => false end); [done|]. cbn [snd].
  pose proof (no_ids _ Hn _ _ E) as Hid. cbn in Hid.
  assert (tame (fun c => set_mode Realtime (set_node_id node_id c))) as Hf by (by apply tame_id).
  eapply calmer_network; [done..| |]; cbn; [|by apply (calmer_insert (fun c => set_mode Realtime (set_node_id node_id c)))].
  by apply map_Forall_insert_2; [|apply Hn].
Qed.

Lemma network_do_ok op n : network_ok n -> exists n', network_do op n = Finished n' /\ network_ok n' /\ same_limits n' n.
Proof using HL.
  intros Hn. destruct op as [peer now|peer|local peer d now|id|id k|id a|port|peer|peer now|id now|now cutoff| |id k|now|id b t now|id op];
    cbn [network_do].
  - destruct (add_outbound_attempt_ok peer now n Hn) as (r & n' & -> & ? & ?). by exists n'.
  - unfold remove_attempt. destruct (attempts_remove_ok peer (nw_attempts n) (no_attempts _ Hn)) as (a & -> & Ha & _).
    eexists. split; [done|]. split; [by apply with_attempts_ok|done].
  - destruct (add_new_channel_ok local peer d now n Hn) as (r & n' & -> & ? & ?). by exists n'.
  - eexists. split; [done|]. split; [|done]. apply sub_channels_ok; [apply delete_subseteq|done].
  - eexists. split; [done|]. split; [|done]. by apply on_channel_ok; [apply tame_id|].
  - eexists. split; [done|]. split; [|done]. by apply on_channel_ok; [apply tame_id|].
  - eexists. split; [done|]. split; [|done]. destruct Hn as [? ? ? [H1 H2 H3]]. split; [done..|]. by split.
  - eexists. split; [done|]. split; [|done]. apply with_excluded_ok; [|done]. destruct (no_excluded _ Hn). by split.
  - unfold network_is_excluded. destruct (is_excluded_ok peer now _ (no_excluded _ Hn)) as (r & x & -> & Hx & _).
    eexists. split; [done|]. split; [by apply with_excluded_ok|done].
  - by apply channel_misbehaved_ok.
  - destruct (network_purge_ok now cutoff n Hn) as (dead & n' & -> & ? & ?). by exists n'.
  - eexists. split; [done|]. unfold network_stop. destruct (nw_stopped n); [done|]. split; [|done].
    eapply calmer_network; [done..| |]; [by apply map_Forall_empty|]. by intros id c E.
  - eexists. split; [done|]. split; [by apply upgrade_realtime_ok|]. unfold upgrade_to_realtime_connection. by repeat case_match.
  - eexists. split; [done|]. unfold bootstrap_peer. destruct (head _) as [c|]; [|done]. split; [|done].
    by apply on_channel_ok; [apply tame_id|].
  - eexists. split; [done|]. split; [by apply network_send_ok|]. unfold network_send. by repeat case_match.
  - eexists. split; [done|]. split; [|done]. apply on_channel_ok; [apply channel_do_tame|done].
Qed.

Lemma network_run_ok ops n : network_ok n -> exists n', network_run ops n = Finished n' /\ network_ok n' /\ same_limits n' n.
Proof using HL.
  revert n. induction ops as [|op ops IH]; intros n Hn; [by exists n|]. cbn [network_run].
  destruct (network_do_ok op n Hn) as (n1 & -> & Hn1 & Hs1). cbn [mbind run_bind].
  destruct (IH n1 Hn1) as (n2 & -> & Hn2 & Hs2). exists n2. split; [done|]. split; [done|].
  unfold same_limits in *. intuition congruence.
Qed.

Lemma attempts_empty_ok : attempts_ok attempts_empty.
Proof. split; [by apply map_Forall_empty|apply index_empty_ok..]. Qed.

Definition config_ok (c : NetworkConfig) : Prop :=
  0 <= max_inbound_connections c /\ 0 <= max_outbound_connections c /\ 0 <= max_peers_per_ip c /\
  0 <= max_peers_per_subnetwork c.

Lemma network_new_ok c : config_ok c -> network_ok (network_new c).
Proof.
  intros (? & ? & ? & ?). assert (forall P, count_channels P (network_new c) = 0) as Hz by done.
  split; [apply exclusion_new_ok|apply attempts_empty_ok|by apply map_Forall_empty|].
  split; [intros []|intros ip _|intros s _];
    unfold count_by_direction, count_by_ip, count_by_subnet; by rewrite Hz.
Qed.

(** C28. The network withstands its peers. For every configuration and every
    sequence of connection attempts, accepted connections, misbehaviour,
    purges, handshakes, sends and changes of the channels by their tasks, no
    operation panics or loops, and afterwards the live channels are within the
    limits: at most [max_inbound_connections] and [max_outbound_connections],
    at most [max_peers_per_ip] to an IPv4 address and at most
    [max_peers_per_subnetwork] to an IPv6 subnetwork. *)
Theorem connection_limits config ops :
  config_ok config ->
  exists n, network_run ops (network_new config) = Finished n /\
    count_by_direction Inbound n <= max_inbound_connections config /\
    count_by_direction Outbound n <= max_outbound_connections config /\
    (forall ip, is_ipv4_mapped ip = true -> count_by_ip ip n <= max_peers_per_ip config) /\
    (forall ip, is_ipv4_mapped ip = false ->
       count_by_subnet (map_address_to_subnetwork ip) n <= max_peers_per_subnetwork config).
Proof using HL.
  intros Hc. destruct (network_run_ok ops _ (network_new_ok config Hc)) as (n & E & [_ _ _ [H1 H2 H3]] & Hi & Ho & Hip & Hs).
  cbn in Hi, Ho, Hip, Hs. exists n. split; [done|]. rewrite <- Hi, <- Ho, <- Hip, <- Hs.
  split; [apply (H1 Inbound)|]. split; [apply (H1 Outbound)|]. split; [done|].
  intros ip E4. apply H3. by rewrite subnet_kind.
Qed.
End runs.

(** ** Where the checks fall short *)

(** The first address of a subnetwork is its own. *)
Lemma subnet_idempotent ip bits :
  (Z.to_nat (bits / 8) <= 16)%nat ->
  first_ipv6_subnet_address (first_ipv6_subnet_address ip bits) bits = first_ipv6_subnet_address ip bits.
Proof.
  intros Hb. unfold first_ipv6_subnet_address at 1, fill_remaining_bits. unfold first_ipv6_subnet_address at 1.
  rewrite octets_fill by done. rewrite take_app_le by (rewrite length_take, length_octets; lia). rewrite take_take.
  by rewrite Nat.min_id.
Qed.

Lemma address_not_base ip ip' :
  is_ipv4_mapped ip = false -> first_ipv6_subnet_address ip 48 <> ip -> ipv4_address_or_ipv6_subnet ip' <> ip.
Proof.
  intros E4 Hne E. pose proof (address_kind ip') as Hk. rewrite E, E4 in Hk. unfold ipv4_address_or_ipv6_subnet in E.
  rewrite <- Hk in E. rewrite <- E in Hne. by rewrite subnet_idempotent in Hne by (by apply Nat.leb_le).
Qed.

(** The limit per address does not apply to IPv6: the code looks for the
    address of the peer among the /48 networks of the channels and attempts,
    so unless it is the first address of its network it finds none, however
    many connections the peer has. *)
Theorem ip_limit_ignores_ipv6 `{HashOrderLaws} config ops n peer :
  config_ok config -> network_run ops (network_new config) = Finished n ->
  is_ipv4_mapped (sa_ip peer) = false -> first_ipv6_subnet_address (sa_ip peer) 48 <> sa_ip peer ->
  count_by_ip (sa_ip peer) n = 0 /\ max_ip_connections peer n = (max_peers_per_ip config <=? 0).
Proof.
  intros Hc Er E4 Hne. destruct (network_run_ok ops _ (network_new_ok config Hc)) as (n' & E & Hn & _ & _ & Hip & _).
  assert (n' = n) as -> by congruence. cbn in Hip.
  assert (count_by_ip (sa_ip peer) n = 0) as Hz.
  { unfold count_by_ip, count_channels. rewrite (proj2 (map_size_empty_iff _)); [done|].
    apply map_empty. intros id. apply eq_None_not_Some. intros (c & [_ Hs]%selected_lookup).
    unfold same_ip in Hs. apply andb_true_iff in Hs as [_ Ea%Z.eqb_eq]. by eapply address_not_base. }
  split; [done|]. unfold max_ip_connections. rewrite Hz, Hip. f_equal. unfold attempts_count_by_address.
  destruct (ao_address _ (no_attempts _ Hn) (sa_ip peer)) as (_ & Hnil & He).
  destruct (ac_by_address (nw_attempts n) !! sa_ip peer) as [l|] eqn:El; [|done]. cbn in He.
  destruct l as [|e l]; [done|]. destruct (proj1 (He e)) as (a & Ea & Eb); [by left|].
  pose proof (ao_attempt _ (no_attempts _ Hn) _ _ Ea) as Hat. cbn in Hat. rewrite Hat in Eb. cbn in Eb.
  by apply address_not_base in Eb.
Qed.

(** Five connections from one IPv6 address, where four are allowed. *)
Definition sample_local : SocketAddrV6 := mkSocketAddrV6 (ipv4 192 168 0 1) 7075 0 0.
Definition sample_ipv6 : Z := ipv6 0x2a01 0x4f8 1 2 3 4 5 6.
Definition sample_inbound : list NetworkOp :=
  (fun port => OpAdd sample_local (mkSocketAddrV6 sample_ipv6 port 0 0) Inbound (secs 1)) <$> [1000; 1001; 1002; 1003; 1004].
Definition live_config : NetworkConfig := network_config_default_for NanoLiveNetwork.

Lemma ip_limit_ignores_ipv6_witness :
  exists n, @network_run trie_order sample_inbound (network_new live_config) = Finished n /\
    count_channels (fun c => is_alive c && (sa_ip (ch_peer_addr c) =? sample_ipv6)) n = 5 /\
    max_peers_per_ip live_config = 4 /\ count_by_ip sample_ipv6 n = 0.
Proof.
  assert (config_ok live_config) as Hc by (by vm_compute).
  assert (match @network_run trie_order sample_inbound (network_new live_config) with
          | Finished n => count_channels (fun c => is_alive c && (sa_ip (ch_peer_addr c) =? sample_ipv6)) n
          | _ => 0 end = 5) as H5 by (by vm_compute).
  destruct (@network_run trie_order sample_inbound (network_new live_config)) as [n| |] eqn:E; [|done..].
  destruct (@ip_limit_ignores_ipv6 trie_order trie_order_laws live_config sample_inbound n
    (mkSocketAddrV6 sample_ipv6 1000 0 0) Hc E) as [Hz _]; [by vm_compute|by vm_compute|].
  exact (ex_intro _ n (conj eq_refl (conj H5 (conj eq_refl Hz)))).
Defined.

Lemma connection_limits_witness :
  exists n, @network_run trie_order (OpAttempt sample_local 0 :: sample_inbound) (network_new live_config) = Finished n /\
    count_by_direction Inbound n <= 2048.
Proof.
  assert (config_ok live_config) as Hc by (by vm_compute).
  destruct (@connection_limits trie_order trie_order_laws live_config (OpAttempt sample_local 0 :: sample_inbound) Hc)
    as (n & E & Hin & _).
  exact (ex_intro _ n (conj E Hin)).
Defined.

(** *** Node ids *)

(** Two realtime channels of one node from one address. *)
Definition same_node (node_id : PublicKey) (address : Ipv6Addr) (c : Channel) : bool :=
  is_alive c && bool_decide (ch_mode c = Realtime) && bool_decide (ch_node_id c = Some node_id) &&
  (channel_address c =? address).

Definition node_connects (id : ChannelId) (ip : Ipv6Addr) (port : Z) : list NetworkOp :=
  [OpAdd sample_local (mkSocketAddrV6 ip port 0 0) Inbound (secs 1); OpUpgrade id 77].

(** Node 77 connects from one address, from another one and again from the
    first one. *)
Definition duplicate_node_ops : list NetworkOp :=
  node_connects 1 (ipv4 50 0 0 1) 1000 ++ node_connects 2 (ipv4 60 0 0 1) 1001 ++ node_connects 3 (ipv4 50 0 0 1) 1002.

(** "We allow duplicate node ids, but only if they come from different IP
    addresses" does not hold: [find_node_id] returns one channel of the node,
    so when the map happens to yield the one at another address first, a
    second connection from the same address is accepted. *)
Theorem duplicate_node_id_accepted :
  exists order, HashOrderLaws order /\
  exists n, @network_run order duplicate_node_ops (network_new live_config) = Finished n /\
    count_channels (same_node 77 (ipv4 50 0 0 1)) n = 2.
Proof.
  exists trie_order. split; [apply trie_order_laws|].
  assert (match @network_run trie_order duplicate_node_ops (network_new live_config) with
          | Finished n => count_channels (same_node 77 (ipv4 50 0 0 1)) n
          | _ => 0 end = 2) as H2 by (by vm_compute).
  destruct (@network_run trie_order duplicate_node_ops (network_new live_config)) as [n| |]; [exact (ex_intro _ n (conj eq_refl H2))|done..].
Qed.

(** *** Timeouts *)

(** A channel that has just been active is closed for inactivity when its
    activity is recorded after the clock was read: the difference of the two
    times is negative and its cast to [u64] is huge. *)
Theorem fresh_activity_times_out now c :
  is_alive c = true -> 0 <= ch_timeout_seconds c < 2 ^ 32 ->
  0 <= now < last_activity c -> last_activity c < 2 ^ 63 ->
  (check_timeout now c).1 = true /\ is_alive (check_timeout now c).2 = false.
Proof.
  intros Ha Ht Hn Hl. unfold check_timeout. rewrite Ha. cbn [negb].
  assert (channel_timeout c < timestamp_sub now (last_activity c)) as Hlt%Z.ltb_lt.
  { unfold channel_timeout, secs, timestamp_sub, wrap. rewrite <- (Z.mod_add _ 1) by done. rewrite Z.mod_small; lia. }
  rewrite Hlt. split; [done|]. cbn [snd]. unfold is_alive in Ha. apply negb_true_iff in Ha.
  unfold channel_close. cbn [ch_closed set_timed_out]. by rewrite Ha.
Qed.

(** The clock is read two milliseconds before the peer is heard of. *)
Definition active_channel : Channel :=
  read_succeeded 5002000000 (channel_new 1 sample_local sample_local Inbound 20 (secs 1)).

Lemma fresh_activity_times_out_witness :
  (check_timeout (secs 5) active_channel).1 = true /\ (check_timeout (secs 6) active_channel).1 = false.
Proof.
  destruct (fresh_activity_times_out (secs 5) active_channel) as [Hf _]; [by vm_compute..|].
  split; [exact Hf|by vm_compute].
Defined.

(** *** Reserved addresses *)

(** The multicast group of all nodes passes for the address of a peer: the
    range of reserved IPv6 multicast addresses ends at [ff00:ffff:...]. *)
Theorem multicast_not_reserved allow_local_peers :
  reserved_address (mkSocketAddrV6 (ipv6 0xff02 0 0 0 0 0 0 1) 7075 0 0) allow_local_peers = false.
Proof. by destruct allow_local_peers; vm_compute. Qed.
