(* ===== verification/Receiver.v ===== *)
(** * Receiving: from the socket to the message queue
    (network_protocol/src/inbound_message_queue.rs, latest_keepalives.rs,
    nano_data_receiver.rs, nano_data_receiver_factory.rs and the reading task
    of network/src/tcp_network_adapter.rs)

    What the receivers of all channels share is the [World]. A channel that
    has left the network's map is closed (nothing else removes channels). The
    random values of the handshakes and the choice of [rand] are arguments;
    loops have fuel. The assertions of debug builds are left out. *)

From S2P Require Import Prelude Types Election FairQueue Messages MessageStream Handshake Peers.
From S2P Require Import Channel Network.

(** ** LatestKeepalives (latest_keepalives.rs) *)

Record LatestKeepalives := mkLatestKeepalives {
  lks_entries : gmap ChannelId Keepalive;
  lks_max_len : nat;
}.

Definition keepalives_with_max_len (max_len : nat) : LatestKeepalives := mkLatestKeepalives ∅ max_len.

(** [choose] of rand: one of the keys, if there is one. *)
Abbreviation Chooser := (list ChannelId -> option ChannelId) (only parsing).

Definition pop_random `{HashOrder} (choose : Chooser) (k : LatestKeepalives) : option Keepalive * LatestKeepalives :=
  match choose (hash_iter (lks_entries k)).*1 with
  | Some channel_id => (lks_entries k !! channel_id, mkLatestKeepalives (delete channel_id (lks_entries k)) (lks_max_len k))
  | None => (None, k)
  end.

Fixpoint keepalives_make_room `{HashOrder} (fuel : nat) (choose : Chooser) (k : LatestKeepalives) : run LatestKeepalives :=
  match fuel with
  | O => Running
  | S fuel =>
      if (lks_max_len k <=? size (lks_entries k))%nat then keepalives_make_room fuel choose (pop_random choose k).2
      else Finished k
  end.

Definition keepalives_insert `{HashOrder} (choose : Chooser) (channel_id : ChannelId) (keepalive : Keepalive)
    (k : LatestKeepalives) : run LatestKeepalives :=
  k ← keepalives_make_room (S (size (lks_entries k))) choose k;
  Finished (mkLatestKeepalives (<[channel_id := keepalive]> (lks_entries k)) (lks_max_len k)).

Definition keepalives_get (channel_id : ChannelId) (k : LatestKeepalives) : option Keepalive := lks_entries k !! channel_id.

Definition keepalives_remove (channel_id : ChannelId) (k : LatestKeepalives) : LatestKeepalives :=
  mkLatestKeepalives (delete channel_id (lks_entries k)) (lks_max_len k).

Definition keepalives_cleanup (dead_channel_ids : list ChannelId) (k : LatestKeepalives) : LatestKeepalives :=
  foldl (fun k id => keepalives_remove id k) k dead_channel_ids.

(** ** InboundMessageQueue (inbound_message_queue.rs)

    The channel of an entry is the key of its queue. *)

Record InboundMessageQueue := mkInboundMessageQueue {
  imq_queue : @FairQueue ChannelId Message;
  imq_max_queue : nat;
  imq_stopped : bool;
}.

Definition inbound_queue_new (max_queue : nat) : InboundMessageQueue := mkInboundMessageQueue fair_queue_new max_queue false.

Definition imq_put (message : Message) (channel_id : ChannelId) (q : InboundMessageQueue) : bool * InboundMessageQueue :=
  let '(added, f) := fq_push Z.compare (fun _ => imq_max_queue q) (fun _ => 1%nat) (imq_queue q) channel_id message in
  (added, mkInboundMessageQueue f (imq_max_queue q) (imq_stopped q)).

Definition imq_next_batch (max_batch_size : nat) (q : InboundMessageQueue)
    : run (list (ChannelId * Message) * InboundMessageQueue) :=
  '(batch, f) ← fq_next_batch Z.compare (S (length (fq_queues (imq_queue q)))) (imq_queue q) max_batch_size;
  Finished (batch, mkInboundMessageQueue f (imq_max_queue q) (imq_stopped q)).

Definition imq_size (q : InboundMessageQueue) : nat := fq_len (imq_queue q).

Definition imq_stop (q : InboundMessageQueue) : InboundMessageQueue :=
  mkInboundMessageQueue (imq_queue q) (imq_max_queue q) true.

Definition imq_cleanup (dead_channel_ids : list ChannelId) (q : InboundMessageQueue) : InboundMessageQueue :=
  mkInboundMessageQueue (foldl (fq_remove Z.compare) (imq_queue q) dead_channel_ids) (imq_max_queue q) (imq_stopped q).

(** ** NanoDataReceiver (nano_data_receiver.rs) *)

Inductive ReceiveResult := Continue | Abort | Pause.

#[global] Instance ReceiveResult_eq_dec : EqDecision ReceiveResult.
Proof. solve_decision. Defined.

Inductive HandshakeStatus := StatusAbort | StatusAbortOwnNodeId | StatusHandshake | StatusRealtime (node_id : NodeId).

(** What the receivers share. *)
Record World := mkWorld {
  wd_network : Network;
  wd_cookies : SynCookies;
  wd_filter : option NetworkFilter;
  wd_keepalives : LatestKeepalives;
  wd_inbound : InboundMessageQueue;
}.

Definition with_network (n : Network) (w : World) : World :=
  mkWorld n (wd_cookies w) (wd_filter w) (wd_keepalives w) (wd_inbound w).
Definition with_cookies (s : SynCookies) (w : World) : World :=
  mkWorld (wd_network w) s (wd_filter w) (wd_keepalives w) (wd_inbound w).
Definition with_filter (f : option NetworkFilter) (w : World) : World :=
  mkWorld (wd_network w) (wd_cookies w) f (wd_keepalives w) (wd_inbound w).
Definition with_keepalives (k : LatestKeepalives) (w : World) : World :=
  mkWorld (wd_network w) (wd_cookies w) (wd_filter w) k (wd_inbound w).
Definition with_inbound (q : InboundMessageQueue) (w : World) : World :=
  mkWorld (wd_network w) (wd_cookies w) (wd_filter w) (wd_keepalives w) q.

Record NanoDataReceiver := mkNanoDataReceiver {
  nr_channel_id : ChannelId;
  nr_peer_addr : SocketAddrV6;
  nr_handshake_process : HandshakeProcess;
  nr_serializer : MessageSerializer;
  nr_message_deserializer : MessageDeserializer;
  nr_first_message : bool;
  nr_node_id : NodeId;
  nr_retry_enqueue : option Message;
}.

Definition receiver_new (channel : Channel) (hp : HandshakeProcess) (protocol : ProtocolInfo) : NanoDataReceiver :=
  mkNanoDataReceiver (ch_channel_id channel) (ch_peer_addr channel) hp (mkMessageSerializer protocol []) (md_new protocol)
    true 0 None.

Definition with_handshake (hp : HandshakeProcess) (r : NanoDataReceiver) : NanoDataReceiver :=
  mkNanoDataReceiver (nr_channel_id r) (nr_peer_addr r) hp (nr_serializer r) (nr_message_deserializer r)
    (nr_first_message r) (nr_node_id r) (nr_retry_enqueue r).
Definition with_serializer (s : MessageSerializer) (r : NanoDataReceiver) : NanoDataReceiver :=
  mkNanoDataReceiver (nr_channel_id r) (nr_peer_addr r) (nr_handshake_process r) s (nr_message_deserializer r)
    (nr_first_message r) (nr_node_id r) (nr_retry_enqueue r).
Definition with_deserializer (d : MessageDeserializer) (r : NanoDataReceiver) : NanoDataReceiver :=
  mkNanoDataReceiver (nr_channel_id r) (nr_peer_addr r) (nr_handshake_process r) (nr_serializer r) d
    (nr_first_message r) (nr_node_id r) (nr_retry_enqueue r).
Definition with_first_message (b : bool) (r : NanoDataReceiver) : NanoDataReceiver :=
  mkNanoDataReceiver (nr_channel_id r) (nr_peer_addr r) (nr_handshake_process r) (nr_serializer r)
    (nr_message_deserializer r) b (nr_node_id r) (nr_retry_enqueue r).
Definition with_node_id (id : NodeId) (r : NanoDataReceiver) : NanoDataReceiver :=
  mkNanoDataReceiver (nr_channel_id r) (nr_peer_addr r) (nr_handshake_process r) (nr_serializer r)
    (nr_message_deserializer r) (nr_first_message r) id (nr_retry_enqueue r).
Definition with_retry (m : option Message) (r : NanoDataReceiver) : NanoDataReceiver :=
  mkNanoDataReceiver (nr_channel_id r) (nr_peer_addr r) (nr_handshake_process r) (nr_serializer r)
    (nr_message_deserializer r) (nr_first_message r) (nr_node_id r) m.

Section receiver.
Context `{Crypto} `{BitVec} `{HashOrder}.
(** The digest of the duplicate filter. *)
Context (hash : list byte -> Z).

(** The mode is that of the shared channel. *)
Definition receiver_mode (r : NanoDataReceiver) (w : World) : ChannelMode :=
  match nw_channels (wd_network w) !! nr_channel_id r with Some c => ch_mode c | None => Undefined end.

Definition receiver_send (buffer : list byte) (t : TrafficType) (now : Timestamp) (r : NanoDataReceiver) (w : World)
    : bool * World :=
  let '(sent, n) := network_send (nr_channel_id r) buffer t now (wd_network w) in
  (sent, with_network n w).

Definition close_receiver_channel (r : NanoDataReceiver) (w : World) : World :=
  with_network (on_channel_id (nr_channel_id r) channel_close (wd_network w)) w.

Definition receiver_initiate_handshake (rnd : Randomness) (time : Z) (now : Timestamp) (r : NanoDataReceiver) (w : World)
    : NanoDataReceiver * World :=
  let '(result, s) := initiate_handshake rnd time (nr_peer_addr r) (wd_cookies w) in
  let w := with_cookies s w in
  match result with
  | Ok handshake =>
      let '(data, ser) := serializer_serialize (MsgNodeIdHandshake handshake) (nr_serializer r) in
      let '(enqueued, w) := receiver_send data Generic now r w in
      (with_serializer ser r, if enqueued then w else close_receiver_channel r w)
  | Err _ => (r, close_receiver_channel r w)
  end.

Definition ensure_handshake (direction : ChannelDirection) (rnd : Randomness) (time : Z) (now : Timestamp)
    (r : NanoDataReceiver) (w : World) : NanoDataReceiver * World :=
  match direction with
  | Outbound => receiver_initiate_handshake rnd time now r w
  | Inbound => (r, w)
  end.

(** [create_receiver_for] of the factory. *)
Definition create_receiver_for (channel : Channel) (genesis_hash : BlockHash) (node_id_key : Z) (protocol : ProtocolInfo)
    (rnd : Randomness) (time : Z) (now : Timestamp) (w : World) : NanoDataReceiver * World :=
  ensure_handshake (ch_direction channel) rnd time now
    (receiver_new channel (handshake_process_new genesis_hash node_id_key) protocol) w.

Definition try_enqueue (message : Message) (r : NanoDataReceiver) (w : World) : bool * World :=
  let '(added, q) := imq_put message (nr_channel_id r) (wd_inbound w) in
  (added, with_inbound q w).

(** In a release build: the debug assertion that [retry_enqueue] is empty is
    not executed (nothing ever clears it, so it would fail at the second
    pause). *)
Definition queue_realtime (message : Message) (r : NanoDataReceiver) (w : World)
    : ReceiveResult * NanoDataReceiver * World :=
  let '(enqueued, w) := try_enqueue message r w in
  if enqueued then (Continue, r, w) else (Pause, with_retry (Some message) r, w).

Definition process_realtime (choose : Chooser) (message : Message) (r : NanoDataReceiver) (w : World)
    : run (ReceiveResult * NanoDataReceiver * World) :=
  if is_obsolete message then Finished (Continue, r, w)
  else
    w ← (match message with
         | MsgKeepalive keepalive =>
             k ← keepalives_insert choose (nr_channel_id r) keepalive (wd_keepalives w);
             Finished (with_keepalives k w)
         | _ => Finished w
         end);
    Finished (queue_realtime message r w).

Definition to_realtime_connection (r : NanoDataReceiver) (node_id : NodeId) (w : World) : bool * World :=
  match receiver_mode r w with
  | Undefined =>
      let '(result, n) := upgrade_to_realtime_connection (nr_channel_id r) node_id (wd_network w) in
      (bool_decide (is_Some result), with_network n w)
  | Realtime => (false, w)
  end.

(** The status after an abort is never [AbortOwnNodeId]. *)
Definition handshake_status (rnd : Randomness) (time : Z) (message : Message) (r : NanoDataReceiver) (w : World)
    : option (HandshakeStatus * option NodeIdHandshake * NanoDataReceiver * World) :=
  match message with
  | MsgNodeIdHandshake payload =>
      '(result, hp, s) ← process_handshake rnd time (nr_handshake_process r) payload (nr_peer_addr r) (wd_cookies w);
      let r := with_handshake hp r in
      let w := with_cookies s w in
      Some (match result with
            | Ok (Some node_id, response) => (StatusRealtime node_id, response, r, w)
            | Ok (None, response) => (StatusHandshake, response, r, w)
            | Err _ => (StatusAbort, None, r, w)
            end)
  | _ => Some (StatusAbort, None, r, w)
  end.

Definition process_undefined (rnd : Randomness) (time : Z) (now : Timestamp) (message : Message) (r : NanoDataReceiver)
    (w : World) : option (ReceiveResult * NanoDataReceiver * World) :=
  '(status, response, r, w) ← handshake_status rnd time message r w;
  let '(status, r, w) :=
    match response with
    | Some response =>
        let '(buffer, ser) := serializer_serialize (MsgNodeIdHandshake response) (nr_serializer r) in
        let '(enqueued, w) := receiver_send buffer Generic now r w in
        (if enqueued then status else StatusAbort, with_serializer ser r, w)
    | None => (status, r, w)
    end in
  Some (match status with
        | StatusAbort => (Abort, r, w)
        | StatusAbortOwnNodeId =>
            (Abort, r,
             match c ← nw_channels (wd_network w) !! nr_channel_id r; ch_peering_addr c with
             | Some peering_addr => with_network (network_perma_ban peering_addr (wd_network w)) w
             | None => w
             end)
        | StatusHandshake => (Continue, r, w)
        | StatusRealtime node_id => (Pause, with_node_id node_id r, w)
        end).

Definition process_message (choose : Chooser) (rnd : Randomness) (time : Z) (now : Timestamp) (message : Message)
    (r : NanoDataReceiver) (w : World) : run (ReceiveResult * NanoDataReceiver * World) :=
  match receiver_mode r w with
  | Undefined => unwrap (process_undefined rnd time now message r w)
  | Realtime => process_realtime choose message r w
  end.

(** One parsed message, or an error, of the loop of [receive]. *)
Definition handle_result (choose : Chooser) (rnd : Randomness) (time : Z) (now : Timestamp)
    (result : result ParseMessageError DeserializedMessage) (r : NanoDataReceiver) (w : World)
    : run (ReceiveResult * NanoDataReceiver * World) :=
  match result with
  | Ok msg =>
      let w := if nr_first_message r
               then with_network (on_channel_id (nr_channel_id r)
                                    (set_protocol_version (version_using (dm_protocol msg))) (wd_network w)) w
               else w in
      process_message choose rnd time now (dm_message msg) (with_first_message false r) w
  | Err DuplicatePublishMessage | Err DuplicateConfirmAckMessage => Finished (Continue, r, w)
  | Err _ => Finished (Abort, r, w)
  end.

(** Each message has its own random values. *)
Fixpoint receive_loop (fuel : nat) (choose : Chooser) (rnd : nat -> Randomness) (time : Z) (now : Timestamp)
    (r : NanoDataReceiver) (w : World) : run (ReceiveResult * NanoDataReceiver * World) :=
  match fuel with
  | O => Running
  | S fuel =>
      '(result, f, d) ← unwrap (try_deserialize hash (wd_filter w) (nr_message_deserializer r));
      let r := with_deserializer d r in
      let w := with_filter f w in
      match result with
      | None => Finished (Continue, r, w)
      | Some result =>
          '(res, r, w) ← handle_result choose (rnd fuel) time now result r w;
          match res with
          | Continue => receive_loop fuel choose rnd time now r w
          | _ => Finished (res, r, w)
          end
      end
  end.

Definition receive (choose : Chooser) (rnd : nat -> Randomness) (time : Z) (now : Timestamp) (data : list byte)
    (r : NanoDataReceiver) (w : World) : run (ReceiveResult * NanoDataReceiver * World) :=
  let d := md_push data (nr_message_deserializer r) in
  receive_loop (drain_fuel d) choose rnd time now (with_deserializer d r) w.

(** [&self]: the receiver does not change. *)
Definition try_unpause (r : NanoDataReceiver) (w : World) : ReceiveResult * World :=
  match receiver_mode r w with
  | Undefined =>
      let queue_len := match nw_channels (wd_network w) !! nr_channel_id r with
                       | Some c => wq_len (ch_write_queue c)
                       | None => 0%nat
                       end in
      if (0 <? queue_len)%nat then (Pause, w)
      else let '(ok, w) := to_realtime_connection r (nr_node_id r) w in
           if ok then (Continue, w) else (Abort, w)
  | Realtime =>
      match nr_retry_enqueue r with
      | Some message => let '(ok, w) := try_enqueue message r w in if ok then (Continue, w) else (Pause, w)
      | None => (Continue, w)
      end
  end.

(** ** The reading task (tcp_network_adapter.rs) *)

Inductive ReaderTask := Reading | Paused | ReaderEnded.

(** The packets from the socket, the polls while paused, and the end of the
    channel. A paused task does not read from the socket. *)
Inductive ReaderEvent :=
| Packet (choose : Chooser) (rnd : nat -> Randomness) (time : Z) (now : Timestamp) (data : list byte)
| Poll5ms
| ChannelCancelled.

(** The end of the task drops the receiver, which closes the channel. *)
Definition after_receive (result : ReceiveResult) (r : NanoDataReceiver) (w : World)
    : ReaderTask * NanoDataReceiver * World :=
  match result with
  | Continue => (Reading, r, w)
  | Abort => (ReaderEnded, r, close_receiver_channel r w)
  | Pause => (Paused, r, w)
  end.

Definition receiver_closed (r : NanoDataReceiver) (w : World) : bool :=
  match nw_channels (wd_network w) !! nr_channel_id r with Some c => ch_closed c | None => true end.

Definition reader_step (e : ReaderEvent) (t : ReaderTask) (r : NanoDataReceiver) (w : World)
    : run (ReaderTask * NanoDataReceiver * World) :=
  match t, e with
  | Reading, Packet choose rnd time now data =>
      '(result, r, w) ← receive choose rnd time now data r w;
      Finished (after_receive result r w)
  | Paused, Poll5ms => let '(result, w) := try_unpause r w in Finished (after_receive result r w)
  | ReaderEnded, _ => Finished (ReaderEnded, r, w)
  | _, ChannelCancelled => Finished (if receiver_closed r w then after_receive Abort r w else (t, r, w))
  | _, _ => Finished (t, r, w)
  end.
End receiver.
