(* ===== verification/ReceiverTheorems.v ===== *)
(** * What receiving guarantees

    A connection in realtime mode: every message parsed from the bytes of the
    peer reaches the queue of its channel once and in the order of the stream,
    however the reading task is paused in between and whatever the other
    channels do to the queue and to the duplicate filter. *)

From S2P Require Import Prelude Types Election Ordered FairQueue Messages MessageCodec.
From S2P Require Import MessageStream FilterTheorems StreamTheorems Handshake.
From S2P Require Import Peers Channel Network NetworkTheorems Receiver.

Section reading.
Context `{Crypto} `{BitVec} (hash : list byte -> Z).

(** ** Keepalives *)

Definition chooser_ok (choose : list ChannelId -> option ChannelId) : Prop :=
  forall l, l <> [] -> exists x, choose l = Some x /\ x ∈ l.

Definition keepalives_ok (k : LatestKeepalives) : Prop :=
  (0 < lks_max_len k)%nat /\ (size (lks_entries k) <= lks_max_len k)%nat.

Context `{HL : HashOrderLaws}.

Lemma keepalives_make_room_ok fuel choose k :
  chooser_ok choose -> (0 < lks_max_len k)%nat -> (size (lks_entries k) < fuel)%nat ->
  exists k', keepalives_make_room fuel choose k = Finished k' /\ (size (lks_entries k') < lks_max_len k)%nat /\
    lks_max_len k' = lks_max_len k.
Proof using HL.
  intros Hc Hm. revert k Hm. induction fuel as [|fuel IH]; intros k Hm Hf; [lia|]. cbn [keepalives_make_room].
  destruct (Nat.leb_spec (lks_max_len k) (size (lks_entries k))) as [Hge|Hlt]; [|by exists k].
  unfold pop_random. assert (forall x, x ∈ (hash_iter (lks_entries k)).*1 <-> is_Some (lks_entries k !! x)) as Hkeys.
  { intros x. rewrite hash_iter_perm, list_elem_of_fmap. split.
    - intros ([x' v] & -> & E%elem_of_map_to_list). by exists v.
    - intros [v E]. exists (x, v). split; [done|]. by apply elem_of_map_to_list. }
  destruct (Hc (hash_iter (lks_entries k)).*1) as (x & -> & Hx).
  { intros E. apply (f_equal length) in E. rewrite length_fmap, hash_iter_perm, length_map_to_list in E. cbn in E. lia. }
  apply Hkeys in Hx as [v Ev]. cbn [snd].
  destruct (IH (mkLatestKeepalives (delete x (lks_entries k)) (lks_max_len k))) as (k' & -> & Hk); [done| |by exists k'].
  cbn [lks_entries]. rewrite map_size_delete, Ev. cbn. lia.
Qed.

Lemma keepalives_insert_ok choose id ka k :
  chooser_ok choose -> keepalives_ok k ->
  exists k', keepalives_insert choose id ka k = Finished k' /\ keepalives_ok k' /\ keepalives_get id k' = Some ka.
Proof using HL.
  intros Hc [Hm Hs]. unfold keepalives_insert.
  destruct (keepalives_make_room_ok (S (size (lks_entries k))) choose k Hc Hm ltac:(lia)) as (k1 & -> & Hk1 & Hm1).
  eexists. split; [done|]. split; [|apply lookup_insert_eq]. split; cbn [lks_max_len lks_entries]; [lia|].
  rewrite map_size_insert. destruct (lks_entries k1 !! id); cbn; lia.
Qed.

(** ** One message *)

(** What is queued for a parsed message. *)
Definition deliverable (r : result ParseMessageError DeserializedMessage) : option Message :=
  match r with
  | Ok m => if is_obsolete (dm_message m) then None else Some (dm_message m)
  | Err _ => None
  end.

Definition inbox (id : ChannelId) (w : World) : list Message := requests_of Z.compare (imq_queue (wd_inbound w)) id.

(** A receiver in realtime mode, and the parts of the world it relies on. *)
Record realtime_ok (r : NanoDataReceiver) (w : World) : Prop := {
  ro_mode : receiver_mode r w = Realtime;
  ro_queue : fq_ok Z.compare (imq_queue (wd_inbound w));
  ro_keepalives : keepalives_ok (wd_keepalives w);
}.

(** Handling leaves the identity of the receiver, its deserializer and the
    filter alone. *)
Record same_stream (r r' : NanoDataReceiver) (w w' : World) : Prop := {
  ss_id : nr_channel_id r' = nr_channel_id r;
  ss_deserializer : nr_message_deserializer r' = nr_message_deserializer r;
  ss_filter : wd_filter w' = wd_filter w;
}.

Definition handled (r : NanoDataReceiver) (w : World) (m : option Message) (res : ReceiveResult)
    (r' : NanoDataReceiver) (w' : World) : Prop :=
  match m with
  | None => res <> Pause /\ inbox (nr_channel_id r) w' = inbox (nr_channel_id r) w
  | Some m =>
      (res = Continue /\ inbox (nr_channel_id r) w' = inbox (nr_channel_id r) w ++ [m]) \/
      (res = Pause /\ inbox (nr_channel_id r) w' = inbox (nr_channel_id r) w /\ nr_retry_enqueue r' = Some m)
  end.

Lemma for_channel {A} (id' id : Z) (l : list A) : for_source Z.compare id' id l = if bool_decide (id' = id) then l else [].
Proof.
  unfold for_source. case_bool_decide as E; [subst; by rewrite Z.compare_refl|].
  destruct (Z.compare_spec id' id); done.
Qed.

Lemma imq_put_ok m id q added q' :
  fq_ok Z.compare (imq_queue q) -> imq_put m id q = (added, q') ->
  fq_ok Z.compare (imq_queue q') /\
  forall id', requests_of Z.compare (imq_queue q') id' =
    requests_of Z.compare (imq_queue q) id' ++ (if added && bool_decide (id' = id) then [m] else []).
Proof.
  intros Hq. unfold imq_put.
  pose proof (fq_push_ok Z.compare Z_cmp_laws (fun _ => imq_max_queue q) (fun _ => 1%nat) (imq_queue q) id m Hq) as Hok.
  destruct (fq_push Z.compare _ _ (imq_queue q) id m) as [a f] eqn:E. intros [= <- <-]. split; [done|]. intros id'. cbn [imq_queue].
  rewrite (fq_push_requests _ Z_cmp_laws _ _ _ _ _ _ _ id' E), for_channel. by destruct a.
Qed.

Lemma queue_realtime_ok m r w res r' w' :
  realtime_ok r w -> queue_realtime m r w = (res, r', w') ->
  realtime_ok r' w' /\ same_stream r r' w w' /\ handled r w (Some m) res r' w'.
Proof.
  intros [Hm Hq Hk]. unfold queue_realtime, try_enqueue. destruct (imq_put m (nr_channel_id r) (wd_inbound w)) as [added q] eqn:E.
  destruct (imq_put_ok _ _ _ _ _ Hq E) as [Hq' Hr]. specialize (Hr (nr_channel_id r)). rewrite bool_decide_true in Hr by done.
  destruct added; intros [= <- <- <-].
  - split; [by split|]. split; [by split|]. left. split; [done|]. exact Hr.
  - split; [by split|]. split; [by split|]. right. split; [done|]. split; [|done]. cbn in Hr. by rewrite app_nil_r in Hr.
Qed.

Lemma handle_result_ok choose rnd time now rr r w :
  chooser_ok choose -> realtime_ok r w ->
  exists res r' w', handle_result choose rnd time now rr r w = Finished (res, r', w') /\
    realtime_ok r' w' /\ same_stream r r' w w' /\ handled r w (deliverable rr) res r' w'.
Proof using HL.
  intros Hc Hr. destruct rr as [msg|e].
  2:{ assert (exists res, handle_result choose rnd time now (Err e) r w = Finished (res, r, w) /\ res <> Pause) as (res & E & Hres)
        by (destruct e; eexists; done). by exists res, r, w. }
  cbn [handle_result]. set (w1 := if nr_first_message r then _ else w). set (r1 := with_first_message false r).
  assert (realtime_ok r1 w1 /\ same_stream r r1 w w1 /\ forall id, inbox id w1 = inbox id w) as (Hr1 & Hs1 & Hi1).
  { destruct Hr as [Hm Hq Hk]. unfold w1. destruct (nr_first_message r); [|by split; [split|split; [split|]]].
    split; [|by split; [split|]]. split; [|done|done]. unfold receiver_mode in *. cbn. rewrite lookup_alter_eq.
    by destruct (nw_channels (wd_network w) !! nr_channel_id r). }
  clearbody w1. unfold process_message. rewrite (ro_mode _ _ Hr1). unfold process_realtime. cbn [deliverable].
  destruct (is_obsolete (dm_message msg)).
  { exists Continue, r1, w1. split; [done|]. split; [done|]. split; [done|]. split; [done|apply Hi1]. }
  assert (exists w2, (match dm_message msg with
    | MsgKeepalive keepalive => k ← keepalives_insert choose (nr_channel_id r1) keepalive (wd_keepalives w1); Finished (with_keepalives k w1)
    | _ => Finished w1 end) = Finished w2 /\ realtime_ok r1 w2 /\ wd_filter w2 = wd_filter w1 /\ wd_inbound w2 = wd_inbound w1)
    as (w2 & -> & Hr2 & Hf2 & Hi2).
  { destruct (dm_message msg) as [ka| | | | | | | | | | | |]; try (by exists w1).
    destruct (keepalives_insert_ok choose (nr_channel_id r1) ka (wd_keepalives w1) Hc (ro_keepalives _ _ Hr1)) as (k & -> & Hk & _).
    eexists. split; [done|]. split; [|done]. by destruct Hr1; split. }
  cbn [mbind run_bind]. destruct (queue_realtime (dm_message msg) r1 w2) as [[res r'] w'] eqn:Eq.
  destruct (queue_realtime_ok _ _ _ _ _ _ Hr2 Eq) as (Hr' & [Hid Hd Hf] & Hh). exists res, r', w'. split; [done|]. split; [done|].
  destruct Hs1 as [Hid1 Hd1 Hf1]. split; [split; congruence|]. unfold handled in *. rewrite Hid1 in Hh.
  assert (inbox (nr_channel_id r) w2 = inbox (nr_channel_id r) w) as <-; [|done].
  rewrite <- Hi1. unfold inbox. by rewrite Hi2.
Qed.

(** ** A packet *)

(** What has been read of the bytes [bytes]: the same uses of the filter give
    the same results on the bytes in one piece. *)
Record reads (f0 : option NetworkFilter) (p : ProtocolInfo) (bytes : list byte) (h : list FilterUse)
    (consumed : list (result ParseMessageError DeserializedMessage)) (r : NanoDataReceiver) (w : World) : Prop := {
  rs_start : filter_ok f0;
  rs_filter : filter_ok (wd_filter w);
  rs_header : header_valid (nr_message_deserializer r);
  rs_stream : exists d, replay hash h f0 (md_push bytes (md_new p)) = Some (consumed, wd_filter w, d) /\
    same_reading hash d (nr_message_deserializer r);
}.

Lemma reads_wait f0 p bytes h consumed r w d :
  reads f0 p bytes h consumed r w -> waits hash (wd_filter w) (nr_message_deserializer r) d ->
  reads f0 p bytes h consumed (with_deserializer d r) w.
Proof.
  intros [Hf0 Hf Hh (d0 & E & Hs)] Hw. pose proof Hw as (_ & _ & Hv & _). split; [done|done|done|].
  exists d0. split; [done|]. intros data f. rewrite (Hs data f). apply (waits_same _ _ _ _ Hw).
Qed.

Lemma reads_yield f0 p bytes h consumed r w rr f d :
  reads f0 p bytes h consumed r w -> yields hash (wd_filter w) (nr_message_deserializer r) rr f d ->
  reads f0 p bytes (h ++ [OwnRead]) (consumed ++ [rr]) (with_deserializer d r) (with_filter f w).
Proof.
  intros [Hf0 Hf Hh (d0 & E & Hs)] (_ & Hf1 & Hv & _ & _ & Hy). split; [done|done|done|]. exists d. split; [|by intros ?].
  eapply replay_app; [exact E|]. cbn [replay]. rewrite (same_try _ _ _ _ Hs).
  specialize (Hy []). rewrite !md_push_nil in Hy. by rewrite Hy.
Qed.

Lemma reads_push f0 p bytes h consumed r w data :
  reads f0 p bytes h consumed r w ->
  reads f0 p (bytes ++ data) h consumed (with_deserializer (md_push data (nr_message_deserializer r)) r) w.
Proof.
  intros [Hf0 Hf Hh (d0 & E & Hs)]. split; [done|done|done|]. exists (md_push data d0). split; [|by apply same_push].
  rewrite <- md_push_push. apply (replay_push hash h f0 (md_push bytes (md_new p))); [done|by intros ?|done].
Qed.

Lemma reads_others f0 p bytes h consumed r w op :
  reads f0 p bytes h consumed r w ->
  exists f, shared_step op (wd_filter w) = Some f /\ reads f0 p bytes (h ++ [Others op]) consumed r (with_filter f w).
Proof.
  intros [Hf0 Hf Hh (d0 & E & Hs)]. destruct (seen_some (wd_filter w)) as [seen Hseen].
  destruct (shared_step_ok seen op _ Hf Hseen) as (f & Ef & Hf' & _). exists f. split; [done|]. split; [done|done|done|].
  exists d0. split; [|done]. rewrite <- (app_nil_r consumed). eapply replay_app; [exact E|]. cbn [replay]. by rewrite Ef.
Qed.

(** Handling a message does not read. *)
Lemma reads_same f0 p bytes h consumed r r' w w' :
  same_stream r r' w w' -> reads f0 p bytes h consumed r w -> reads f0 p bytes h consumed r' w'.
Proof. intros [_ Hd Hf] [? ? ? ?]. split; rewrite ?Hd, ?Hf; done. Qed.

(** The message a paused task holds. *)
Definition held (res : ReceiveResult) (r : NanoDataReceiver) (pending : list Message) : Prop :=
  match res with Pause => exists m, nr_retry_enqueue r = Some m /\ pending = [m] | _ => pending = [] end.

Lemma receive_loop_ok fuel choose rnd time now f0 p bytes h consumed r w :
  chooser_ok choose -> realtime_ok r w -> reads f0 p bytes h consumed r w ->
  (rounds (nr_message_deserializer r) < fuel)%nat ->
  exists res r' w' h' more pending, receive_loop hash fuel choose rnd time now r w = Finished (res, r', w') /\
    realtime_ok r' w' /\ reads f0 p bytes h' (consumed ++ more) r' w' /\ others h' = others h /\
    nr_channel_id r' = nr_channel_id r /\ held res r' pending /\
    inbox (nr_channel_id r) w' ++ pending = inbox (nr_channel_id r) w ++ omap deliverable more.
Proof using HL.
  intros Hc. revert h consumed r w. induction fuel as [|fuel IH]; intros h consumed r w Hr Hreads Hfuel; [lia|].
  cbn [receive_loop]. destruct (try_total hash _ _ (rs_filter _ _ _ _ _ _ _ Hreads) (rs_header _ _ _ _ _ _ _ Hreads)) as [(d & Hw)|(rr & f1 & d1 & Hy)].
  - pose proof Hw as (-> & _). cbn [unwrap mbind run_bind].
    eexists Continue, _, _, h, [], []. split; [done|]. rewrite !app_nil_r. split; [by destruct Hr; split|]. split; [|done].
    by apply (reads_wait _ _ _ _ _ _ _ d) in Hreads; [destruct Hreads; split|].
  - pose proof Hy as (Hd & _ & _ & _ & _ & E). specialize (E []). rewrite !md_push_nil in E. rewrite E. cbn [unwrap mbind run_bind].
    apply (reads_yield _ _ _ _ _ _ _ _ _ _ Hreads) in Hy as Hreads1. set (r1 := with_deserializer d1 r) in *. set (w1 := with_filter f1 w) in *.
    assert (realtime_ok r1 w1) as Hr1 by (by destruct Hr; split).
    destruct (handle_result_ok choose (rnd fuel) time now rr r1 w1 Hc Hr1) as (res & r2 & w2 & -> & Hr2 & Hss & Hhd).
    pose proof (reads_same _ _ _ _ _ _ _ _ _ Hss Hreads1) as Hreads2. destruct Hss as [Hid Hdd _].
    unfold handled in Hhd. change (nr_channel_id r1) with (nr_channel_id r) in Hhd, Hid.
    change (inbox (nr_channel_id r) w1) with (inbox (nr_channel_id r) w) in Hhd.
    assert (others (h ++ [OwnRead]) = others h) as Ho by (by rewrite others_app, app_nil_r).
    cbn [mbind run_bind]. destruct res.
    + destruct (IH _ _ r2 w2 Hr2 Hreads2) as (res & r3 & w3 & h3 & more & pending & -> & Hr3 & Hreads3 & Ho3 & Hid3 & Hheld & Hi).
      { rewrite Hdd. cbn. lia. }
      exists res, r3, w3, h3, (rr :: more), pending. split; [done|]. split; [done|]. rewrite (cons_middle rr), (assoc_L (++)).
      split; [done|]. split; [congruence|]. split; [congruence|]. split; [done|]. rewrite Hid in Hi. rewrite Hi. cbn [omap list_omap].
      destruct (deliverable rr) as [m|].
      * destruct Hhd as [[_ ->]|[? _]]; [|done]. by rewrite <- (assoc_L (++)).
      * destruct Hhd as [_ ->]. done.
    + exists Abort, r2, w2, (h ++ [OwnRead]), [rr], []. do 6 (split; [done|]).
      cbn [omap list_omap]. destruct (deliverable rr) as [m|]; [by destruct Hhd as [[? _]|[? _]]|].
      destruct Hhd as [_ Hhd]. by rewrite Hhd.
    + destruct (deliverable rr) as [m|] eqn:Em; [|by destruct Hhd].
      destruct Hhd as [[? _]|(_ & Hi & Hm)]; [done|]. exists Pause, r2, w2, (h ++ [OwnRead]), [rr], [m].
      do 5 (split; [done|]). split; [by exists m|]. cbn [omap list_omap]. rewrite Em. by rewrite Hi.
Qed.

(** ** Connections

    The reading task of a channel, the message processor that takes batches
    from the queue, and the other channels, which fill the queue and use the
    duplicate filter (as the epoch timer and the block processor do); with the
    bytes the task has read, the messages of the channel the processor has
    taken and what the others did to the filter. A packet is handled in one
    step. *)

Record Connection := mkConnection {
  cn_task : ReaderTask;
  cn_receiver : NanoDataReceiver;
  cn_world : World;
  cn_bytes : list byte;
  cn_taken : list Message;
  cn_others : list FilterOp;
}.

Inductive ConnectionEvent :=
| ReaderWakes (e : ReaderEvent)
| ProcessorTakes (max_batch_size : nat)
| OtherChannel (id : ChannelId) (m : Message)
| FilterUsed (op : FilterOp).

Definition bytes_read (t : ReaderTask) (e : ReaderEvent) : list byte :=
  match t, e with Reading, Packet _ _ _ _ data => data | _, _ => [] end.

Definition connection_step (e : ConnectionEvent) (c : Connection) : run Connection :=
  match e with
  | ReaderWakes e =>
      '(t, r, w) ← reader_step hash e (cn_task c) (cn_receiver c) (cn_world c);
      Finished (mkConnection t r w (cn_bytes c ++ bytes_read (cn_task c) e) (cn_taken c) (cn_others c))
  | ProcessorTakes n =>
      '(batch, q) ← imq_next_batch n (wd_inbound (cn_world c));
      Finished (mkConnection (cn_task c) (cn_receiver c) (with_inbound q (cn_world c)) (cn_bytes c)
                  (cn_taken c ++ from_source Z.compare (nr_channel_id (cn_receiver c)) batch) (cn_others c))
  | OtherChannel id m =>
      Finished (if id =? nr_channel_id (cn_receiver c) then c
                else mkConnection (cn_task c) (cn_receiver c) (with_inbound (imq_put m id (wd_inbound (cn_world c))).2 (cn_world c))
                       (cn_bytes c) (cn_taken c) (cn_others c))
  | FilterUsed op =>
      f ← unwrap (shared_step op (wd_filter (cn_world c)));
      Finished (mkConnection (cn_task c) (cn_receiver c) (with_filter f (cn_world c)) (cn_bytes c) (cn_taken c) (cn_others c ++ [op]))
  end.

Fixpoint connection_run (es : list ConnectionEvent) (c : Connection) : run Connection :=
  match es with
  | [] => Finished c
  | e :: es => c ← connection_step e c; connection_run es c
  end.

Definition task_held (t : ReaderTask) (r : NanoDataReceiver) (pending : list Message) : Prop :=
  match t with
  | Reading => pending = []
  | Paused => exists m, nr_retry_enqueue r = Some m /\ pending = [m]
  | ReaderEnded => (length pending <= 1)%nat
  end.

Record connection_state (f0 : option NetworkFilter) (p : ProtocolInfo) (c : Connection) (h : list FilterUse)
    (consumed : list (result ParseMessageError DeserializedMessage)) (pending : list Message) : Prop := {
  cs_realtime : realtime_ok (cn_receiver c) (cn_world c);
  cs_reads : reads f0 p (cn_bytes c) h consumed (cn_receiver c) (cn_world c);
  cs_others : others h = cn_others c;
  cs_held : task_held (cn_task c) (cn_receiver c) pending;
  cs_order : omap deliverable consumed = cn_taken c ++ inbox (nr_channel_id (cn_receiver c)) (cn_world c) ++ pending;
}.

Definition connection_ok (f0 : option NetworkFilter) (p : ProtocolInfo) (c : Connection) : Prop :=
  exists h consumed pending, connection_state f0 p c h consumed pending.

Definition event_ok (e : ConnectionEvent) : Prop :=
  match e with ReaderWakes (Packet choose _ _ _ _) => chooser_ok choose | _ => True end.

Lemma close_realtime r w : realtime_ok r w -> realtime_ok r (close_receiver_channel r w).
Proof.
  intros [Hm Hq Hk]. split; [|done|done]. unfold receiver_mode in *. cbn. rewrite lookup_alter_eq.
  destruct (nw_channels (wd_network w) !! nr_channel_id r) as [c|]; [|done]. cbn. unfold channel_close. by destruct (ch_closed c).
Qed.

(** What a result of the receiver means for the connection. *)
Lemma after_receive_ok f0 p bytes taken h consumed pending res r w :
  realtime_ok r w -> reads f0 p bytes h consumed r w -> held res r pending ->
  omap deliverable consumed = taken ++ inbox (nr_channel_id r) w ++ pending ->
  connection_ok f0 p (let '(t, r, w) := after_receive res r w in mkConnection t r w bytes taken (others h)).
Proof.
  intros Hr Hreads Hp Ho. exists h, consumed, pending. destruct res; cbn in Hp; subst.
  - by split.
  - split; cbn [cn_receiver cn_world cn_task cn_bytes cn_taken]; [by apply close_realtime|by destruct Hreads; split|done|cbn; lia|done].
  - by split.
Qed.

Lemma packet_ok f0 p c choose rnd time now data :
  cn_task c = Reading -> chooser_ok choose -> connection_ok f0 p c ->
  exists c', connection_step (ReaderWakes (Packet choose rnd time now data)) c = Finished c' /\ connection_ok f0 p c'.
Proof using HL.
  intros Et Hc (h & consumed & pending & [Hr Hreads Hot Hp Ho]). rewrite Et in Hp. cbn in Hp. subst pending.
  cbn [connection_step]. rewrite Et. cbn [reader_step bytes_read]. unfold receive.
  apply (reads_push _ _ _ _ _ _ _ data) in Hreads.
  set (d := md_push data (nr_message_deserializer (cn_receiver c))) in *. set (r := with_deserializer d (cn_receiver c)) in *.
  destruct (receive_loop_ok (drain_fuel d) choose rnd time now f0 p (cn_bytes c ++ data) h consumed r (cn_world c) Hc)
    as (res & r' & w' & h' & more & pending & -> & Hr' & Hreads' & Ho' & Hid & Hheld & Hi);
    [by destruct Hr; split|done|apply rounds_drain_fuel|].
  cbn [mbind run_bind]. change (nr_channel_id r) with (nr_channel_id (cn_receiver c)) in Hi, Hid.
  pose proof (after_receive_ok f0 p _ (cn_taken c) _ _ pending res r' w' Hr' Hreads' Hheld) as Hok. rewrite Ho', Hot in Hok.
  destruct (after_receive res r' w') as [[t r2] w2]. eexists. split; [done|]. apply Hok.
  rewrite omap_app, Ho, Hid, app_nil_r, Hi. by rewrite <- (assoc_L (++)).
Qed.

Lemma poll_ok f0 p c :
  cn_task c = Paused -> connection_ok f0 p c ->
  exists c', connection_step (ReaderWakes Poll5ms) c = Finished c' /\ connection_ok f0 p c'.
Proof.
  intros Et (h & consumed & pending & [Hr [] Hot Hp Ho]). rewrite Et in Hp. destruct Hp as (m & Em & ->).
  cbn [connection_step]. rewrite Et. cbn [reader_step bytes_read]. unfold try_unpause. rewrite (ro_mode _ _ Hr), Em. unfold try_enqueue.
  destruct (imq_put m (nr_channel_id (cn_receiver c)) (wd_inbound (cn_world c))) as [added q] eqn:E.
  destruct (imq_put_ok _ _ _ _ _ (ro_queue _ _ Hr) E) as [Hq Hi]. specialize (Hi (nr_channel_id (cn_receiver c))).
  rewrite bool_decide_true in Hi by done. rewrite app_nil_r.
  assert (realtime_ok (cn_receiver c) (with_inbound q (cn_world c))) as Hr' by (by destruct Hr; split).
  destruct added; (eexists; split; [done|]); exists h, consumed.
  - exists []. split; cbn; [done|by split|done|done|]. rewrite Ho, app_nil_r. unfold inbox at 2. cbn. by rewrite Hi.
  - exists [m]. split; cbn; [done|by split|done|by exists m|]. rewrite Ho. unfold inbox at 2. cbn. by rewrite Hi, app_nil_r.
Qed.

Lemma takes_ok f0 p c n :
  connection_ok f0 p c -> exists c', connection_step (ProcessorTakes n) c = Finished c' /\ connection_ok f0 p c'.
Proof.
  intros (h & consumed & pending & [Hr [] Hot Hp Ho]). cbn [connection_step]. unfold imq_next_batch, fq_next_batch.
  set (q := imq_queue (wd_inbound (cn_world c))). unfold fq_len.
  destruct (fq_take_ok Z.compare Z_cmp_laws (min (fq_total_len q) n) q (S (length (fq_queues q))) (ro_queue _ _ Hr)) as (items & f' & E & _);
    [apply Nat.lt_succ_diag_r|apply Nat.le_min_l|].
  destruct (fq_take_requests Z.compare Z_cmp_laws _ _ _ _ _ (nr_channel_id (cn_receiver c)) (ro_queue _ _ Hr)
    (Nat.lt_succ_diag_r _) (Nat.le_min_l _ _) E) as [Hok Hreq].
  rewrite E. cbn [mbind run_bind]. eexists. split; [done|]. exists h, consumed, pending.
  split; cbn [cn_receiver cn_world cn_bytes cn_task cn_taken]; [by destruct Hr; split|by split|done|done|].
  rewrite Ho, <- !(assoc_L (++)). f_equal.
  unfold inbox at 1. rewrite Hreq. by rewrite <- (assoc_L (++)).
Qed.

Lemma other_ok f0 p c id m :
  connection_ok f0 p c -> exists c', connection_step (OtherChannel id m) c = Finished c' /\ connection_ok f0 p c'.
Proof.
  intros Hok. cbn [connection_step]. destruct (Z.eqb_spec id (nr_channel_id (cn_receiver c))) as [|Hne]; [by exists c|].
  eexists. split; [done|]. destruct Hok as (h & consumed & pending & [Hr [] Hot Hp Ho]). exists h, consumed, pending.
  destruct (imq_put m id (wd_inbound (cn_world c))) as [added q] eqn:E.
  destruct (imq_put_ok _ _ _ _ _ (ro_queue _ _ Hr) E) as [Hq Hi]. specialize (Hi (nr_channel_id (cn_receiver c))).
  rewrite bool_decide_false, andb_false_r, app_nil_r in Hi by done.
  split; cbn [cn_receiver cn_world cn_bytes cn_task cn_taken snd]; [by destruct Hr; split|by split|done|done|].
  rewrite Ho. unfold inbox. cbn. by rewrite Hi.
Qed.

Lemma filter_used_ok f0 p c op :
  connection_ok f0 p c -> exists c', connection_step (FilterUsed op) c = Finished c' /\ connection_ok f0 p c'.
Proof.
  intros (h & consumed & pending & [Hr Hreads Hot Hp Ho]). cbn [connection_step].
  destruct (reads_others _ _ _ _ _ _ _ op Hreads) as (f & -> & Hreads'). cbn [unwrap mbind run_bind]. eexists. split; [done|].
  exists (h ++ [Others op]), consumed, pending. split; cbn [cn_receiver cn_world cn_bytes cn_task cn_taken cn_others];
    [by destruct Hr; split|done|by rewrite others_app, Hot|done|done].
Qed.

Lemma same_connection f0 p c :
  connection_ok f0 p c ->
  connection_ok f0 p (mkConnection (cn_task c) (cn_receiver c) (cn_world c) (cn_bytes c ++ []) (cn_taken c) (cn_others c)).
Proof. rewrite app_nil_r. by destruct c. Qed.

Lemma cancelled_ok f0 p c :
  cn_task c <> ReaderEnded -> connection_ok f0 p c ->
  exists c', connection_step (ReaderWakes ChannelCancelled) c = Finished c' /\ connection_ok f0 p c'.
Proof.
  intros Ht Hok. cbn [connection_step].
  assert (reader_step hash ChannelCancelled (cn_task c) (cn_receiver c) (cn_world c) = Finished (
    if receiver_closed (cn_receiver c) (cn_world c)
    then (ReaderEnded, cn_receiver c, close_receiver_channel (cn_receiver c) (cn_world c))
    else (cn_task c, cn_receiver c, cn_world c))) as -> by (by destruct (cn_task c)).
  assert (bytes_read (cn_task c) ChannelCancelled = []) as -> by (by destruct (cn_task c)).
  destruct (receiver_closed _ _); cbn [mbind run_bind]; (eexists; split; [done|]); [|by apply same_connection].
  destruct Hok as (h & consumed & pending & [Hr [] Hot Hp Ho]). exists h, consumed, pending.
  split; cbn [cn_receiver cn_world cn_task cn_bytes cn_taken]; rewrite ?app_nil_r; [by apply close_realtime|by split|done| |done].
  destruct (cn_task c); cbn in Hp |- *; [subst; cbn; lia| |done]. destruct Hp as (m & _ & ->). cbn. lia.
Qed.

Lemma connection_step_ok f0 p e c :
  event_ok e -> connection_ok f0 p c -> exists c', connection_step e c = Finished c' /\ connection_ok f0 p c'.
Proof using HL.
  intros He Hok. destruct e as [e|n|id m|op]; [|by apply takes_ok|by apply other_ok|by apply filter_used_ok].
  pose proof (same_connection f0 p c Hok) as Hsame.
  destruct (cn_task c) eqn:Et, e as [choose rnd time now data| |];
    [by apply packet_ok|..|by apply cancelled_ok; [rewrite Et|]|idtac|by apply poll_ok|by apply cancelled_ok; [rewrite Et|]
    |idtac|idtac|idtac]; cbn [connection_step]; rewrite Et; cbn [reader_step mbind run_bind bytes_read]; by eexists.
Qed.

Lemma connection_run_ok f0 p es c :
  Forall event_ok es -> connection_ok f0 p c -> exists c', connection_run es c = Finished c' /\ connection_ok f0 p c'.
Proof using HL.
  intros He. revert c. induction He as [|e es He _ IH]; intros c Hok; [by exists c|]. cbn [connection_run].
  destruct (connection_step_ok f0 p e c He Hok) as (c1 & -> & Hok1). by apply IH.
Qed.

Lemma connection_new_ok f0 p r w :
  realtime_ok r w -> filter_ok f0 -> wd_filter w = f0 -> nr_message_deserializer r = md_new p ->
  inbox (nr_channel_id r) w = [] -> connection_ok f0 p (mkConnection Reading r w [] [] []).
Proof.
  intros Hr Hf Ef Ed Hi. exists [], [], []. split; cbn; [done| |done|done|by rewrite Hi].
  split; [done|by rewrite Ef|rewrite Ed; by intros ?|]. exists (md_new p). rewrite Ed, Ef, md_push_nil. done.
Qed.

(** What is still to be read. *)
Lemma reads_rest f0 p bytes h consumed r w :
  reads f0 p bytes h consumed r w ->
  exists rest f d0 d, replay hash h f0 (md_push bytes (md_new p)) = Some (consumed, wd_filter w, d0) /\
    drain_all hash (wd_filter w) d0 = Finished (rest, f, d) /\
    drain_all hash (wd_filter w) (nr_message_deserializer r) = Finished (rest, f, d) /\
    (others h = [] -> drain_all hash f0 (md_push bytes (md_new p)) = Finished (consumed ++ rest, f, d)).
Proof using.
  intros [Hf0 Hf Hv (d0 & E & Hs)].
  destruct (drain_total hash _ _ _ Hf Hv (rounds_drain_fuel (nr_message_deserializer r))) as (rest & f & d & Er & _).
  assert (header_valid (md_push bytes (md_new p))) as Hv1 by (by intros ?).
  destruct (replay_push hash h f0 _ _ _ _ Hf0 Hv1 E) as (_ & Hv0 & _).
  exists rest, f, d0, d. split; [done|].
  assert (forall n f0 D rs f1 d1, filter_ok f0 -> header_valid D -> drain hash n f0 D = Finished (rs, f1, d1) ->
    drain_all hash f0 D = Finished (rs, f1, d1)) as Hall.
  { intros n g D rs f1 d1 Hg HD E1. destruct (drain_total hash _ _ _ Hg HD (rounds_drain_fuel D)) as (rs2 & f2 & d2 & E2 & _).
    unfold drain_all. rewrite E2. by rewrite (drain_det hash _ _ _ _ _ _ E2 E1). }
  assert (drain hash (drain_fuel (nr_message_deserializer r)) (wd_filter w) d0 = Finished (rest, f, d)) as E0.
  { rewrite <- Er. apply drain_try_eq. by apply same_try. }
  split; [by eapply Hall|]. split; [exact Er|]. intros Ho. eapply Hall; [done|done|]. by eapply replay_drain.
Qed.

(** C12. A connection in realtime mode loses and reorders nothing (in a release
    build: [queue_realtime] has a debug assertion that no message is held). For
    every sequence of packets, polls, batches of the message processor, messages
    of other channels and uses of the shared duplicate filter by others,
    receiving neither panics nor loops. The results read so far are those the
    bytes read so far give in one piece, with the same uses of the filter by
    others, in the same order, in between; the messages among them (all results
    but errors and obsolete messages, which are dropped) are, in order, those
    the processor has taken, those in the queue of the channel and the one
    held by a paused task; the rest of the bytes is still in the buffer of the
    deserializer. If nobody else uses the filter, the results and the rest are
    what the deserializer gives for all the bytes. *)
Theorem receiver_in_order f0 p r w es :
  realtime_ok r w -> filter_ok f0 -> wd_filter w = f0 -> nr_message_deserializer r = md_new p ->
  inbox (nr_channel_id r) w = [] -> Forall event_ok es ->
  exists c, connection_run es (mkConnection Reading r w [] [] []) = Finished c /\
  exists h consumed rest pending f d0 d,
    replay hash h f0 (md_push (cn_bytes c) (md_new p)) = Some (consumed, wd_filter (cn_world c), d0) /\
    others h = cn_others c /\
    drain_all hash (wd_filter (cn_world c)) d0 = Finished (rest, f, d) /\
    drain_all hash (wd_filter (cn_world c)) (nr_message_deserializer (cn_receiver c)) = Finished (rest, f, d) /\
    (cn_others c = [] -> drain_all hash f0 (md_push (cn_bytes c) (md_new p)) = Finished (consumed ++ rest, f, d)) /\
    omap deliverable consumed = cn_taken c ++ inbox (nr_channel_id (cn_receiver c)) (cn_world c) ++ pending /\
    task_held (cn_task c) (cn_receiver c) pending.
Proof using HL.
  intros Hr Hf Ef Ed Hi He. destruct (connection_run_ok f0 p es (mkConnection Reading r w [] [] []) He)
    as (c & E & h & consumed & pending & [_ Hreads Hot Hp Ho]); [by apply connection_new_ok|].
  exists c. split; [done|]. destruct (reads_rest _ _ _ _ _ _ _ Hreads) as (rest & f & d0 & d & E1 & E2 & E3 & E4). rewrite Hot in E4.
  by exists h, consumed, rest, pending, f, d0, d.
Qed.
End reading.

(** ** Example

    Three messages in one packet, and room for one message in the queue. *)

Definition sample_requests : list Message :=
  (fun i => MsgConfirmReq (mkConfirmReq [(i, i + 1)])) <$> [10; 20; 30].
Definition sample_packet : list byte := concat (@serialize_all model_bitvec sample_requests sample_serializer).

Definition realtime_world : World :=
  mkWorld
    (with_channels {[1 := set_mode Realtime (channel_new 1 sample_local sample_local Inbound 20 0)]} (network_new live_config))
    (syn_cookies_new 10) (Some (nf_with_size 4)) (keepalives_with_max_len 1000) (inbound_queue_new 1).

Definition sample_receiver : NanoDataReceiver :=
  receiver_new (channel_new 1 sample_local sample_local Inbound 20 0) (handshake_process_new 7 8) protocol_info_default.

Definition sample_randomness (n : nat) : Randomness := mkRandomness (replicate 32 (byte_of (Z.of_nat n))) [].

Definition packet_event : ConnectionEvent := ReaderWakes (Packet head sample_randomness 0 0 sample_packet).

Definition paused_events : list ConnectionEvent :=
  [packet_event; ProcessorTakes 5; ReaderWakes Poll5ms; FilterUsed (OpApply 9); OtherChannel 2 MsgBulkPush; ProcessorTakes 5].

Definition sample_run : run Connection :=
  @connection_run model_crypto model_bitvec (fun _ => 7) trie_order paused_events
    (mkConnection Reading sample_receiver realtime_world [] [] []).

Lemma realtime_world_ok : realtime_ok sample_receiver realtime_world.
Proof. split; [by vm_compute|apply fair_queue_new_ok|]. split; apply Nat.leb_le; by vm_compute. Qed.

Lemma head_chooser : chooser_ok head.
Proof. intros [|x l] Hl; [done|]. exists x. split; [done|by left]. Qed.

Lemma receiver_in_order_witness :
  exists c, sample_run = Finished c /\
  exists h consumed pending d,
    @replay model_crypto model_bitvec (fun _ => 7) h (Some (nf_with_size 4)) (md_push (cn_bytes c) (md_new protocol_info_default))
      = Some (consumed, wd_filter (cn_world c), d) /\
    others h = [OpApply 9] /\
    omap deliverable consumed = cn_taken c ++ inbox 1 (cn_world c) ++ pending.
Proof.
  assert (Forall event_ok paused_events) as He by (repeat constructor; apply head_chooser).
  assert (inbox 1 realtime_world = []) as Hi by (by vm_compute).
  assert (filter_ok (Some (nf_with_size 4))) as Hf by (by vm_compute).
  destruct (@receiver_in_order model_crypto model_bitvec (fun _ => 7) trie_order trie_order_laws (Some (nf_with_size 4))
    protocol_info_default sample_receiver realtime_world paused_events realtime_world_ok Hf eq_refl eq_refl Hi He)
    as (c & E & h & consumed & rest & pending & f & d0 & d & E1 & E2 & _ & _ & _ & Ho & _).
  assert ((nr_channel_id (cn_receiver c), cn_others c) = (1, [OpApply 9])) as [= Hid Hot].
  { assert (match sample_run with Finished c => (nr_channel_id (cn_receiver c), cn_others c) | _ => (0, []) end = (1, [OpApply 9]))
      as H1 by (by vm_compute).
    unfold sample_run in H1. rewrite E in H1. exact H1. }
  rewrite Hid in Ho. rewrite Hot in E2.
  exact (ex_intro _ c (conj E (ex_intro _ h (ex_intro _ consumed (ex_intro _ pending (ex_intro _ d0 (conj E1 (conj E2 Ho)))))))).
Defined.

(** Everything but another packet. *)
Definition no_packet (e : ConnectionEvent) : Prop :=
  match e with ReaderWakes (Packet _ _ _ _ _) => False | _ => True end.

Record stuck (r : NanoDataReceiver) (taken : list Message) (c : Connection) : Prop := {
  sk_task : cn_task c <> Paused;
  sk_receiver : cn_receiver c = r;
  sk_taken : cn_taken c = taken;
  sk_inbox : inbox (nr_channel_id r) (cn_world c) = [];
  sk_queue : fq_ok Z.compare (imq_queue (wd_inbound (cn_world c)));
  sk_filter : filter_ok (wd_filter (cn_world c));
}.

Lemma stuck_step `{Crypto} `{BitVec} `{HashOrder} hash r taken e c :
  no_packet e -> stuck r taken c -> exists c', connection_step hash e c = Finished c' /\ stuck r taken c'.
Proof.
  intros He [Ht Hr Hk Hi Hq Hf]. destruct e as [[| |]|n|id m|op]; [done|..].
  - cbn [connection_step]. destruct (cn_task c); [|done|]; cbn; (eexists; split; [done|]); by split.
  - cbn [connection_step]. destruct (cn_task c) eqn:Et; [|done|]; cbn [reader_step mbind run_bind];
      [destruct (receiver_closed _ _)|]; (eexists; split; [done|]); by split.
  - cbn [connection_step]. unfold imq_next_batch, fq_next_batch, fq_len.
    set (q := imq_queue (wd_inbound (cn_world c))) in *.
    destruct (fq_take_ok Z.compare Z_cmp_laws (min (fq_total_len q) n) q (S (length (fq_queues q))) Hq) as (items & f' & E & _);
      [apply Nat.lt_succ_diag_r|apply Nat.le_min_l|].
    destruct (fq_take_requests Z.compare Z_cmp_laws _ _ _ _ _ (nr_channel_id r) Hq (Nat.lt_succ_diag_r _) (Nat.le_min_l _ _) E)
      as [Hok Hreq].
    rewrite E. cbn [mbind run_bind]. eexists. split; [done|]. unfold inbox in Hi. fold q in Hi. rewrite Hi in Hreq.
    symmetry in Hreq. apply app_eq_nil in Hreq as [Hb Hrest].
    split; cbn [cn_task cn_receiver cn_taken cn_world]; try done. by rewrite Hr, Hb, app_nil_r.
  - cbn [connection_step]. rewrite Hr. destruct (Z.eqb_spec id (nr_channel_id r)) as [|Hne]; (eexists; split; [done|]); [by split|].
    destruct (imq_put m id (wd_inbound (cn_world c))) as [added q] eqn:E. destruct (imq_put_ok _ _ _ _ _ Hq E) as [Hq' Hp].
    split; cbn; try done. unfold inbox. cbn. rewrite Hp, bool_decide_false, andb_false_r, app_nil_r by done. exact Hi.
  - cbn [connection_step]. destruct (seen_some (wd_filter (cn_world c))) as [seen Hs].
    destruct (shared_step_ok seen op _ Hf Hs) as (f & -> & Hf' & _). eexists. split; [done|]. by split.
Qed.

Lemma stuck_run `{Crypto} `{BitVec} `{HashOrder} hash r taken es c :
  Forall no_packet es -> stuck r taken c -> exists c', connection_run hash es c = Finished c' /\ stuck r taken c'.
Proof.
  intros He. revert c. induction He as [|e es He _ IH]; intros c Hc; [by exists c|]. cbn [connection_run].
  destruct (stuck_step hash r taken e c He Hc) as (c1 & -> & Hc1). by apply IH.
Qed.

(** A message can stay unread although the task is not paused: when the
    queue of a channel was full, the messages of the packet behind the one
    held back remain in the buffer after [try_unpause] has returned
    [Continue], because the task reads on only when the peer sends more. Here
    all three messages have arrived, the queue is empty and the task is not
    paused, but whatever happens other than another packet, the third one is
    never delivered. *)
Theorem unpaused_messages_wait :
  exists c, sample_run = Finished c /\ cn_task c = Reading /\ cn_bytes c = sample_packet /\
    forall es, Forall no_packet es ->
      exists c', @connection_run model_crypto model_bitvec (fun _ => 7) trie_order es c = Finished c' /\
        cn_taken c' ++ inbox 1 (cn_world c') = take 2 sample_requests.
Proof.
  pose proof (connection_run_ok (H := model_crypto) (H0 := model_bitvec) (HL := trie_order_laws) (fun _ => 7) (Some (nf_with_size 4)) protocol_info_default
    paused_events (mkConnection Reading sample_receiver realtime_world [] [] [])) as Hrun.
  destruct Hrun as (c & E & h & consumed & pending & Hok); [repeat constructor; apply head_chooser|..].
  { apply connection_new_ok; [apply realtime_world_ok|by vm_compute|done|done|by vm_compute]. }
  assert (match sample_run with
          | Finished c => (cn_task c, cn_bytes c, cn_taken c, inbox 1 (cn_world c), nr_channel_id (cn_receiver c))
          | _ => (Paused, [], [], [], 0)
          end = (Reading, sample_packet, take 2 sample_requests, [], 1)) as Hc by (by vm_compute).
  change sample_run with (@connection_run model_crypto model_bitvec (fun _ => 7) trie_order paused_events
    (mkConnection Reading sample_receiver realtime_world [] [] [])) in Hc |- *.
  rewrite E in Hc. injection Hc as Ht Hb Hk Hi Hid. exists c. split; [exact E|]. split; [done|]. split; [done|].
  intros es Hes. destruct (@stuck_run model_crypto model_bitvec trie_order (fun _ => 7) (cn_receiver c) (take 2 sample_requests) es c Hes) as (c' & E' & [_ Hr' Hk' Hi' _ _]).
  - split; [by rewrite Ht|done|done|by rewrite Hid|apply (cs_realtime _ _ _ _ _ _ _ Hok)|].
    by destruct (cs_reads _ _ _ _ _ _ _ Hok).
  - exists c'. split; [exact E'|]. rewrite Hid in Hi'. by rewrite Hk', Hi', app_nil_r.
Qed.
