(* ===== verification/VoteCache.v ===== *)
(** * The cache of votes without an election
    (node/src/consensus/vote_cache.rs)

    For each block hash the cache keeps the votes of the heaviest voters, in
    entries that are indexed by their age and by their tally. [Instant] is a
    number of nanoseconds; one reading of the clock stands for those that one
    call makes for one hash. A panic is [None]. Statistics and assertions of
    debug builds are left out. *)

From S2P Require Import Prelude Types Votes Election Collections.

Record VoteCacheConfig := mkVoteCacheConfig {
  vcc_max_size : nat;
  vcc_max_voters : nat;
  vcc_age_cutoff : Duration;
}.

Definition vote_cache_config_default : VoteCacheConfig := mkVoteCacheConfig (1024 * 64) 64 (secs (15 * 60)).

(** ** OrderedVoters *)

Record VoterEntry := mkVoterEntry {
  ve_representative : PublicKey;
  ve_weight : Amount;
  ve_vote : Vote;
}.

Definition final_weight (e : VoterEntry) : Amount := if vote_is_final (ve_vote e) then ve_weight e else amount_ZERO.

Record OrderedVoters := mkOrderedVoters {
  ov_by_representative : gmap PublicKey VoterEntry;
  ov_by_weight : gmap Amount (list PublicKey);
}.

Definition voters_default : OrderedVoters := mkOrderedVoters ∅ ∅.

Definition remove_by_weight (weight : Amount) (representative : PublicKey) (m : gmap Amount (list PublicKey))
    : gmap Amount (list PublicKey) :=
  match m !! weight with
  | None => m
  | Some accounts =>
      let m := delete weight m in
      if (1 <? length accounts)%nat then <[weight := filter (fun a => a <> representative) accounts]> m else m
  end.

Definition voters_insert (entry : VoterEntry) (v : OrderedVoters) : OrderedVoters :=
  let rep := ve_representative entry in
  let by_weight := match ov_by_representative v !! rep with
                   | Some existing => remove_by_weight (ve_weight existing) rep (ov_by_weight v)
                   | None => ov_by_weight v
                   end in
  mkOrderedVoters (<[rep := entry]> (ov_by_representative v)) (index_push (ve_weight entry) rep by_weight).

Definition voters_iter `{HashOrder} (v : OrderedVoters) : list VoterEntry := (hash_iter (ov_by_representative v)).*2.

Definition voters_find (representative : PublicKey) (v : OrderedVoters) : option VoterEntry :=
  ov_by_representative v !! representative.

Definition voters_first (v : OrderedVoters) : option VoterEntry :=
  first ← btm_first Z.compare (ov_by_weight v);
  rep ← head first.2;
  ov_by_representative v !! rep.

Definition voters_modify (representative : PublicKey) (vote : Vote) (new_weight : Amount) (v : OrderedVoters)
    : OrderedVoters :=
  match ov_by_representative v !! representative with
  | None => v
  | Some entry =>
      let old_weight := ve_weight entry in
      mkOrderedVoters
        (<[representative := mkVoterEntry (ve_representative entry) new_weight vote]> (ov_by_representative v))
        (if old_weight =? new_weight then ov_by_weight v
         else index_push new_weight representative (remove_by_weight old_weight representative (ov_by_weight v)))
  end.

Definition min_weight (v : OrderedVoters) : option Amount := fst <$> btm_first Z.compare (ov_by_weight v).

(** [pop_first] takes all representatives of the lowest weight. *)
Definition remove_lowest_weight (v : OrderedVoters) : OrderedVoters :=
  match btm_first Z.compare (ov_by_weight v) with
  | Some (weight, reps) =>
      mkOrderedVoters (foldl (fun m rep => delete rep m) (ov_by_representative v) reps) (delete weight (ov_by_weight v))
  | None => v
  end.

Definition voters_len (v : OrderedVoters) : nat := size (ov_by_representative v).
Definition voters_is_empty (v : OrderedVoters) : bool := bool_decide (ov_by_representative v = ∅).

(** ** CacheEntry *)

Record CacheEntry := mkCacheEntry {
  ce_id : Z;
  ce_hash : BlockHash;
  ce_voters : OrderedVoters;
  ce_last_vote : Timestamp;
  ce_tally : Amount;
  ce_final_tally : Amount;
}.

Definition cache_entry_new (id : Z) (hash : BlockHash) (now : Timestamp) : CacheEntry :=
  mkCacheEntry id hash voters_default now amount_ZERO amount_ZERO.

Definition calculate_tally `{HashOrder} (v : OrderedVoters) : Amount * Amount :=
  fold_left (fun '(tally, final_tally) voter =>
               (amount_add tally (ve_weight voter),
                if vote_is_final (ve_vote voter) then amount_add final_tally (ve_weight voter) else final_tally))
    (voters_iter v) (amount_ZERO, amount_ZERO).

Definition entry_votes `{HashOrder} (e : CacheEntry) : list Vote := ve_vote <$> voters_iter (ce_voters e).

(** [None] is the [expect] on an entry without voters. *)
Definition vote_impl (vote : Vote) (rep_weight : Amount) (max_voters : nat) (v : OrderedVoters)
    : option (bool * OrderedVoters) :=
  let representative := vote_voter vote in
  match voters_find representative v with
  | Some existing =>
      Some (if vote_timestamp (ve_vote existing) <? vote_timestamp vote then
              (negb (vote_is_final (ve_vote existing)) && vote_is_final vote,
               voters_modify representative vote rep_weight v)
            else (false, v))
  | None =>
      should_add ← (if (voters_len v <? max_voters)%nat then Some true
                    else min ← min_weight v; Some (min <? rep_weight));
      Some (if should_add : bool then
              let v := voters_insert (mkVoterEntry representative rep_weight vote) v in
              (true, if (max_voters <=? voters_len v)%nat then remove_lowest_weight v else v)
            else (false, v))
  end.

Definition entry_vote `{HashOrder} (vote : Vote) (rep_weight : Amount) (max_voters : nat) (now : Timestamp)
    (e : CacheEntry) : option (bool * CacheEntry) :=
  '(updated, v) ← vote_impl vote rep_weight max_voters (ce_voters e);
  let e := mkCacheEntry (ce_id e) (ce_hash e) v (ce_last_vote e) (ce_tally e) (ce_final_tally e) in
  Some (updated : bool,
        if updated then
          let '(tally, final_tally) := calculate_tally v in
          mkCacheEntry (ce_id e) (ce_hash e) v now tally final_tally
        else e).

Definition entry_size (e : CacheEntry) : nat := voters_len (ce_voters e).

(** ** CacheEntryCollection *)

Record CacheEntryCollection := mkCacheEntryCollection {
  cc_sequential : gmap Z BlockHash;
  cc_by_hash : gmap BlockHash CacheEntry;
  cc_by_tally : gmap Amount (gset BlockHash);
}.

Definition collection_default : CacheEntryCollection := mkCacheEntryCollection ∅ ∅ ∅.

Definition collection_contains (hash : BlockHash) (c : CacheEntryCollection) : bool :=
  bool_decide (is_Some (cc_by_hash c !! hash)).

Definition collection_insert (entry : CacheEntry) (c : CacheEntryCollection) : CacheEntryCollection :=
  mkCacheEntryCollection (<[ce_id entry := ce_hash entry]> (cc_sequential c))
    (<[ce_hash entry := entry]> (cc_by_hash c))
    (set_index_insert (ce_tally entry) (ce_hash entry) (cc_by_tally c)).

(** [None] is [unwrap] on a missing tally. *)
Definition remove_by_tally (hash : BlockHash) (tally : Amount) (m : gmap Amount (gset BlockHash))
    : option (gmap Amount (gset BlockHash)) :=
  hashes ← m !! tally;
  Some (if (size hashes =? 1)%nat then delete tally m else <[tally := hashes ∖ {[hash]}]> m).

Definition update_tally (hash : BlockHash) (old_tally new_tally : Amount) (m : gmap Amount (gset BlockHash))
    : option (gmap Amount (gset BlockHash)) :=
  if old_tally =? new_tally then Some m
  else m ← remove_by_tally hash old_tally m; Some (set_index_insert new_tally hash m).

(** The closure may panic. *)
Definition modify_by_hash (hash : BlockHash) (f : CacheEntry -> option CacheEntry) (c : CacheEntryCollection)
    : option (bool * CacheEntryCollection) :=
  match cc_by_hash c !! hash with
  | None => Some (false, c)
  | Some entry =>
      entry' ← f entry;
      by_tally ← update_tally (ce_hash entry') (ce_tally entry) (ce_tally entry') (cc_by_tally c);
      Some (true, mkCacheEntryCollection (cc_sequential c) (<[hash := entry']> (cc_by_hash c)) by_tally)
  end.

Definition collection_pop_front (c : CacheEntryCollection) : option (option CacheEntry * CacheEntryCollection) :=
  match btm_first Z.compare (cc_sequential c) with
  | None => Some (None, c)
  | Some (id, front_hash) =>
      entry ← cc_by_hash c !! front_hash;
      by_tally ← remove_by_tally front_hash (ce_tally entry) (cc_by_tally c);
      Some (Some entry,
            mkCacheEntryCollection (delete id (cc_sequential c)) (delete front_hash (cc_by_hash c)) by_tally)
  end.

Definition remove_by_hash (hash : BlockHash) (c : CacheEntryCollection)
    : option (option CacheEntry * CacheEntryCollection) :=
  match cc_by_hash c !! hash with
  | None => Some (None, c)
  | Some entry =>
      by_tally ← remove_by_tally hash (ce_tally entry) (cc_by_tally c);
      Some (Some entry,
            mkCacheEntryCollection (delete (ce_id entry) (cc_sequential c)) (delete hash (cc_by_hash c)) by_tally)
  end.

Definition collection_iter `{HashOrder} (c : CacheEntryCollection) : list CacheEntry := (hash_iter (cc_by_hash c)).*2.

(** The hashes [iter_by_tally_desc] visits; the entries are looked up on the
    way, with [unwrap]. *)
Definition hashes_by_tally_desc `{HashOrder} (c : CacheEntryCollection) : list BlockHash := index_iter desc (cc_by_tally c).

Definition collection_len (c : CacheEntryCollection) : nat := size (cc_sequential c).
Definition collection_is_empty (c : CacheEntryCollection) : bool := bool_decide (cc_sequential c = ∅).

(** ** VoteCache *)

Record TopEntry := mkTopEntry {
  te_hash : BlockHash;
  te_tally : Amount;
  te_final_tally : Amount;
}.

Record VoteCache := mkVoteCache {
  vc_config : VoteCacheConfig;
  vc_cache : CacheEntryCollection;
  vc_next_id : Z;
  vc_last_cleanup : Timestamp;
}.

Definition vote_cache_new (config : VoteCacheConfig) (now : Timestamp) : VoteCache :=
  mkVoteCache config collection_default 0 now.

Definition with_cache (cache : CacheEntryCollection) (c : VoteCache) : VoteCache :=
  mkVoteCache (vc_config c) cache (vc_next_id c) (vc_last_cleanup c).

Definition vote_cache_contains (hash : BlockHash) (c : VoteCache) : bool := collection_contains hash (vc_cache c).
Definition vote_cache_size (c : VoteCache) : nat := collection_len (vc_cache c).
Definition vote_cache_empty (c : VoteCache) : bool := collection_is_empty (vc_cache c).

Section cache.
Context `{HashOrder}.

Definition insert_impl (vote : Vote) (hash : BlockHash) (rep_weight : Amount) (now : Timestamp) (c : VoteCache)
    : option VoteCache :=
  let max_voters := vcc_max_voters (vc_config c) in
  '(cache_entry_exists, cache) ←
    modify_by_hash hash (fun existing => snd <$> entry_vote vote rep_weight max_voters now existing) (vc_cache c);
  if cache_entry_exists : bool then Some (with_cache cache c)
  else
    let id := vc_next_id c in
    '(_, cache_entry) ← entry_vote vote rep_weight max_voters now (cache_entry_new id hash now);
    let cache := collection_insert cache_entry cache in
    cache ← (if (vcc_max_size (vc_config c) <? collection_len cache)%nat then snd <$> collection_pop_front cache
             else Some cache);
    Some (mkVoteCache (vc_config c) cache (wrap 64 (id + 1)) (vc_last_cleanup c)).

(** The loop over the hashes, with the time of each turn. *)
Fixpoint insert_hashes (vote : Vote) (rep_weight : Amount) (now : nat -> Timestamp) (hashes : list BlockHash)
    (c : VoteCache) : option VoteCache :=
  match hashes with
  | [] => Some c
  | hash :: hashes =>
      c ← insert_impl vote hash rep_weight (now O) c;
      insert_hashes vote rep_weight (fun n => now (S n)) hashes c
  end.

Definition cacheable (code : result VoteError ()) : bool :=
  match code with Ok () | Err Indeterminate => true | _ => false end.

Definition vote_cache_insert (vote : Vote) (rep_weight : Amount) (results : gmap BlockHash (result VoteError ()))
    (now : nat -> Timestamp) (c : VoteCache) : option VoteCache :=
  if bool_decide (results = ∅) then insert_hashes vote rep_weight now (vote_hashes vote) c
  else insert_hashes vote rep_weight now (filter (fun r => cacheable r.2 = true) (hash_iter results)).*1 c.

Definition vote_cache_find (hash : BlockHash) (c : VoteCache) : list Vote :=
  default [] (entry_votes <$> cc_by_hash (vc_cache c) !! hash).

Definition vote_cache_erase (hash : BlockHash) (c : VoteCache) : option (bool * VoteCache) :=
  '(removed, cache) ← remove_by_hash hash (vc_cache c);
  Some (bool_decide (is_Some removed), with_cache cache c).

Definition vote_cache_clear (c : VoteCache) : VoteCache := with_cache collection_default c.

(** [Instant::elapsed] saturates at zero. *)
Definition instant_elapsed (t now : Timestamp) : Duration := Z.max 0 (now - t).

Fixpoint remove_all (hashes : list BlockHash) (c : CacheEntryCollection) : option CacheEntryCollection :=
  match hashes with
  | [] => Some c
  | hash :: hashes => '(_, c) ← remove_by_hash hash c; remove_all hashes c
  end.

Definition vote_cache_cleanup (now : Timestamp) (c : VoteCache) : option VoteCache :=
  let to_delete := ce_hash <$> filter (fun i => vcc_age_cutoff (vc_config c) <= instant_elapsed (ce_last_vote i) now)
                                 (collection_iter (vc_cache c)) in
  cache ← remove_all to_delete (vc_cache c);
  Some (with_cache cache c).

(** The loop over the entries by tally, up to the first one below. *)
Fixpoint top_entries (min_tally : Amount) (hashes : list BlockHash) (by_hash : gmap BlockHash CacheEntry)
    : option (list TopEntry) :=
  match hashes with
  | [] => Some []
  | hash :: hashes =>
      entry ← by_hash !! hash;
      if ce_tally entry <? min_tally then Some []
      else
        results ← top_entries min_tally hashes by_hash;
        Some (mkTopEntry (ce_hash entry) (ce_tally entry) (ce_final_tally entry) :: results)
  end.

(** The comparison of [top]: it compares the final tally of [b] with itself. *)
Definition top_cmp (a b : TopEntry) : comparison :=
  match Z.compare (te_final_tally b) (te_final_tally b) with
  | Eq => Z.compare (te_tally b) (te_tally a)
  | res => res
  end.

Definition vote_cache_top (min_tally : Amount) (now : Timestamp) (c : VoteCache) : option (list TopEntry * VoteCache) :=
  c ← (if vcc_age_cutoff (vc_config c) / 2 <=? instant_elapsed (vc_last_cleanup c) now then
         c ← vote_cache_cleanup now c;
         Some (mkVoteCache (vc_config c) (vc_cache c) (vc_next_id c) now)
       else Some c);
  results ← top_entries min_tally (hashes_by_tally_desc (vc_cache c)) (cc_by_hash (vc_cache c));
  Some (sort_by (fun a b => match top_cmp a b with Gt => false | _ => true end) results, c).
End cache.
