(* ===== verification/VoteCacheTheorems.v ===== *)
(** * The vote cache keeps the newest vote of each voter
    (node/src/consensus/vote_cache.rs) *)

From S2P Require Import Prelude Types Votes Election Collections VoteCache.

(** ** Voters *)

Record voters_ok (v : OrderedVoters) : Prop := {
  vo_rep : map_Forall (fun rep e => ve_representative e = rep /\ vote_voter (ve_vote e) = rep) (ov_by_representative v);
  vo_index : index_ok ve_weight (ov_by_representative v) (ov_by_weight v);
}.

Lemma voters_default_ok : voters_ok voters_default.
Proof. split; [done|apply index_empty_ok]. Qed.

Lemma remove_by_weight_ok m idx rep e :
  index_ok ve_weight m idx -> m !! rep = Some e ->
  index_ok ve_weight (delete rep m) (remove_by_weight (ve_weight e) rep idx).
Proof.
  intros Hi E. destruct (index_remove_ok ve_weight m idx rep e Hi E) as (idx' & E' & Hi').
  enough (remove_by_weight (ve_weight e) rep idx = idx') as -> by done. revert E'. unfold index_remove, remove_by_weight.
  destruct (idx !! ve_weight e) as [l|]; [|done]. cbn [mbind option_bind]. intros [= <-].
  destruct (1 <? length l)%nat; [|done]. by rewrite insert_delete_eq.
Qed.

Lemma voters_insert_ok v w vote :
  voters_ok v -> voters_find (vote_voter vote) v = None ->
  voters_ok (voters_insert (mkVoterEntry (vote_voter vote) w vote) v).
Proof.
  intros [Hr Hi] E. unfold voters_insert, voters_find in *. cbn. rewrite E. split; cbn.
  - by apply map_Forall_insert_2.
  - by apply (index_push_ok ve_weight _ _ _ (mkVoterEntry (vote_voter vote) w vote)).
Qed.

Lemma voters_modify_ok v w vote e :
  voters_ok v -> voters_find (vote_voter vote) v = Some e ->
  let v' := voters_modify (vote_voter vote) vote w v in
  voters_ok v' /\
  ov_by_representative v' = <[vote_voter vote := mkVoterEntry (vote_voter vote) w vote]> (ov_by_representative v).
Proof.
  intros [Hr Hi] E. unfold voters_modify, voters_find in *. rewrite E. cbn. destruct (Hr _ _ E) as [-> _].
  split; [|done]. split; cbn; [by apply map_Forall_insert_2|].
  destruct (Z.eqb_spec (ve_weight e) w) as [<-|Hw]; [by eapply index_update|].
  rewrite <- insert_delete_eq.
  apply (index_push_ok ve_weight _ _ _ (mkVoterEntry (vote_voter vote) w vote)); [|apply lookup_delete_eq].
  by apply remove_by_weight_ok.
Qed.

(** The voters of the lowest weight go, all of them. *)
Lemma remove_lowest_weight_ok v :
  voters_ok v -> ov_by_representative v <> ∅ ->
  exists low, min_weight v = Some low /\ voters_ok (remove_lowest_weight v) /\
    ov_by_representative (remove_lowest_weight v) = filter (fun '(_, e) => ve_weight e <> low) (ov_by_representative v) /\
    (voters_len (remove_lowest_weight v) < voters_len v)%nat /\
    map_Forall (fun _ e => low <= ve_weight e) (ov_by_representative v).
Proof.
  intros [Hr Hi] Hne. unfold min_weight, remove_lowest_weight, voters_len.
  assert (forall rep e, ov_by_representative v !! rep = Some e ->
            exists reps, ov_by_weight v !! ve_weight e = Some reps /\ rep ∈ reps) as Hin.
  { intros rep e E. destruct (Hi (ve_weight e)) as (_ & _ & He). assert (rep ∈ default [] (ov_by_weight v !! ve_weight e)) as Hx
      by (apply He; by eexists). destruct (ov_by_weight v !! ve_weight e) as [l|]; [by exists l|by apply elem_of_nil in Hx]. }
  destruct (btm_first Z.compare (ov_by_weight v)) as [[low reps]|] eqn:Ef.
  2: { apply btm_first_None in Ef. apply map_choose in Hne as (rep & e & E). destruct (Hin _ _ E) as (l & El & _).
       by rewrite Ef, lookup_empty in El. }
  exists low. split; [done|]. pose proof (btm_first_lookup _ _ _ _ Ef) as El. destruct (Hi low) as (_ & Hnil & He).
  rewrite El in Hnil, He. cbn [default from_option] in He.
  assert (foldl (fun m rep => delete rep m) (ov_by_representative v) reps =
          filter (fun '(_, e) => ve_weight e <> low) (ov_by_representative v)) as Hf.
  { apply map_eq. intros rep. rewrite foldl_delete_lookup, map_lookup_filter. unfold id. destruct (ov_by_representative v !! rep) as [e|] eqn:E; cbn.
    - destruct (decide (rep ∈ reps)) as [Hd|Hd].
      + apply He in Hd as (e' & E' & Ew). simplify_eq. by rewrite option_guard_False by (by intros ?).
      + rewrite option_guard_True; [done|]. intros Ew. apply Hd, He. by eexists.
    - by destruct (decide (rep ∈ reps)). }
  cbn. rewrite Hf. split; [|split; [done|split]].
  - split; cbn; [intros rep e [E _]%map_lookup_filter_Some; by apply Hr|]. intros k. destruct (decide (k = low)) as [->|Hk].
    + rewrite lookup_delete_eq. split; [constructor|]. split; [done|]. intros rep. split; [by intros ?%elem_of_nil|].
      by intros (e & [_ Hx]%map_lookup_filter_Some & Ew).
    + rewrite lookup_delete_ne by done. destruct (Hi k) as (? & ? & Hx). split; [done|]. split; [done|]. intros rep. rewrite Hx.
      split; intros (e & E & Ew); exists e; [|by apply map_lookup_filter_Some in E as [? _]].
      split; [|done]. apply map_lookup_filter_Some. split; [done|congruence].
  - destruct reps as [|rep reps]; [done|]. destruct (proj1 (He rep)) as (e & E & Ew); [by left|].
    apply map_subset_size. split; [apply map_filter_subseteq|]. intros Hsub.
    eapply lookup_weaken in E; [|exact Hsub]. by apply map_lookup_filter_Some in E as [_ ?].
  - intros rep e E. destruct (Hin _ _ E) as (l & El' & _).
    exact (btm_first_least _ _ _ _ _ _ Z_key_order Ef El').
Qed.

(** No timestamp is greater than that of a final vote. *)
Lemma final_is_newest v v' : vote_is_final v = true -> vote_timestamp v' <= vote_timestamp v.
Proof.
  unfold vote_is_final, vote_timestamp, unix_timestamp. intros E. rewrite E.
  apply Z.eqb_eq in E as ->. destruct (vote_timestamp_is_final (vote_ts v')) eqn:E'; [by apply Z.eqb_eq in E' as ->|].
  assert (Z.land (vote_ts v') TIMESTAMP_MASK <= TIMESTAMP_MASK); [|unfold TIMESTAMP_MASK, FINAL, u64_max in *; lia].
  by apply land_le.
Qed.

(** ** One vote *)

(** What a vote leaves of the voters: an entry is as it was, unless the vote
    is a newer one of its voter, or it is the vote. *)
Definition after_vote (vote : Vote) (w : Amount) (v v' : OrderedVoters) : Prop :=
  map_Forall (fun rep e =>
    (voters_find rep v = Some e /\ (rep = vote_voter vote -> vote_timestamp vote <= vote_timestamp (ve_vote e))) \/
    e = mkVoterEntry (vote_voter vote) w vote) (ov_by_representative v').

(** With the weights of the voters unchanged, the sums change with [updated] only. *)
Definition same_sums (v v' : OrderedVoters) : Prop :=
  map_sum ve_weight (ov_by_representative v') = map_sum ve_weight (ov_by_representative v) /\
  map_sum final_weight (ov_by_representative v') = map_sum final_weight (ov_by_representative v).

Record vote_done (vote : Vote) (w : Amount) (max_voters : nat) (v : OrderedVoters) (updated : bool) (v' : OrderedVoters)
    : Prop := {
  vd_ok : voters_ok v';
  vd_len : (voters_len v' < max_voters)%nat;
  vd_after : after_vote vote w v v';
  vd_same : updated = false -> (forall e, voters_find (vote_voter vote) v = Some e -> ve_weight e = w) -> same_sums v v';
}.

Lemma vote_known max_voters vote w v e :
  voters_ok v -> (voters_len v < max_voters)%nat -> voters_find (vote_voter vote) v = Some e ->
  vote_timestamp (ve_vote e) < vote_timestamp vote ->
  vote_done vote w max_voters v (negb (vote_is_final (ve_vote e)) && vote_is_final vote)
    (voters_modify (vote_voter vote) vote w v).
Proof.
  intros Hok Hl E Hlt. destruct (voters_modify_ok v w vote e Hok E) as [Hok' Ev]. unfold voters_find in E. split.
  - done.
  - unfold voters_len in *. rewrite Ev, map_size_insert, E. done.
  - unfold after_vote. rewrite Ev. intros rep e' [[<- <-]|[Hne Ee]]%lookup_insert_Some; [by right|]. left. by split; [|intros ->].
  - intros Hu Hw. specialize (Hw _ E). unfold same_sums. rewrite Ev, !map_sum_insert, E. cbn.
    destruct (vote_is_final (ve_vote e)) eqn:Ef; [pose proof (final_is_newest _ vote Ef); lia|]. cbn in Hu.
    unfold final_weight. cbn. rewrite Hu, Ef. lia.
Qed.

Lemma vote_new_voter max_voters vote w v :
  voters_ok v -> (voters_len v < max_voters)%nat -> voters_find (vote_voter vote) v = None ->
  let v1 := voters_insert (mkVoterEntry (vote_voter vote) w vote) v in
  vote_done vote w max_voters v true (if (max_voters <=? voters_len v1)%nat then remove_lowest_weight v1 else v1).
Proof.
  intros Hok Hl E v1. pose proof (voters_insert_ok v w vote Hok E) as Hok1. fold v1 in Hok1.
  assert (ov_by_representative v1 = <[vote_voter vote := mkVoterEntry (vote_voter vote) w vote]> (ov_by_representative v)) as Ev by done.
  unfold voters_find in E.
  assert (voters_len v1 = S (voters_len v)) as Hl1 by (unfold voters_len; by rewrite Ev, map_size_insert, E).
  assert (after_vote vote w v v1) as Ha.
  { unfold after_vote. rewrite Ev. intros rep e [[<- <-]|[Hne Ee]]%lookup_insert_Some; [by right|]. left. by split. }
  destruct (Nat.leb_spec max_voters (voters_len v1)); [|by split].
  destruct (remove_lowest_weight_ok v1 Hok1) as (low & _ & Hok2 & Er & Hlen & _); [by rewrite Ev; apply insert_non_empty|].
  split; [done|lia| |done]. unfold after_vote. rewrite Er. intros rep e [Ee _]%map_lookup_filter_Some. by apply Ha.
Qed.

Lemma vote_impl_ok max_voters vote w v :
  voters_ok v -> (voters_len v < max_voters)%nat ->
  exists u v', vote_impl vote w max_voters v = Some (u, v') /\ vote_done vote w max_voters v u v'.
Proof.
  intros Hok Hl. unfold vote_impl. destruct (voters_find (vote_voter vote) v) as [e|] eqn:E.
  - destruct (Z.ltb_spec (vote_timestamp (ve_vote e)) (vote_timestamp vote)) as [Hlt|Hge].
    + eexists _, _. split; [done|]. by apply vote_known.
    + eexists _, _. split; [done|]. split; [done|done| |by split]. intros rep e' E'. left. split; [done|].
      intros ->. unfold voters_find in E. simplify_eq. done.
  - rewrite (proj2 (Nat.ltb_lt _ _) Hl). cbn [mbind option_bind]. eexists _, _. split; [done|]. by apply vote_new_voter.
Qed.

(** ** Entries *)

Definition sum_of {A} (f : A -> Z) (l : list A) : Z := foldr (fun x acc => f x + acc) 0 l.

#[global] Instance sum_of_perm {A} (f : A -> Z) : Proper ((≡ₚ) ==> (=)) (sum_of f).
Proof. unfold sum_of. induction 1; cbn [foldr]; lia. Qed.

Lemma sum_of_map {K V} `{Countable K} (f : V -> Z) (m : gmap K V) : sum_of f (map_to_list m).*2 = map_sum f m.
Proof.
  unfold map_sum, sum_of. rewrite map_fold_foldr. induction (map_to_list m) as [|[k v] l IH]; [done|]. cbn in *. by rewrite IH.
Qed.

(** The votes in the order they were handed to the cache, with their hash and weight. *)
Abbreviation Insertions := (list (BlockHash * Vote * Amount)) (only parsing).

(** The entry of a voter holds a vote of the trace, and no newer one of the
    voter came after it. *)
Definition newest (tr : Insertions) (hash : BlockHash) (e : VoterEntry) : Prop :=
  exists pre post, tr = pre ++ (hash, ve_vote e, ve_weight e) :: post /\
    Forall (fun i => i.1.1 = hash -> vote_voter i.1.2 = vote_voter (ve_vote e) ->
              vote_timestamp i.1.2 <= vote_timestamp (ve_vote e)) post.

(** Every voter has one weight. *)
Definition steady_weights (tr : Insertions) : Prop :=
  exists weight, Forall (fun i => i.2 = weight (vote_voter i.1.2)) tr.

Definition exact_tallies (e : CacheEntry) : Prop :=
  ce_tally e = wrap 128 (map_sum ve_weight (ov_by_representative (ce_voters e))) /\
  ce_final_tally e = wrap 128 (map_sum final_weight (ov_by_representative (ce_voters e))).

Record entry_ok (max_voters : nat) (tr : Insertions) (e : CacheEntry) : Prop := {
  ek_voters : voters_ok (ce_voters e);
  ek_len : (voters_len (ce_voters e) < max_voters)%nat;
  ek_newest : map_Forall (fun _ => newest tr (ce_hash e)) (ov_by_representative (ce_voters e));
  ek_tally : steady_weights tr -> exact_tallies e;
}.

Lemma steady_prefix tr x : steady_weights (tr ++ [x]) -> steady_weights tr.
Proof. intros (w & [? _]%Forall_app). by exists w. Qed.

Lemma newest_snoc tr hash e hash' vote w :
  newest tr hash e ->
  (hash' = hash -> vote_voter vote = vote_voter (ve_vote e) -> vote_timestamp vote <= vote_timestamp (ve_vote e)) ->
  newest (tr ++ [(hash', vote, w)]) hash e.
Proof.
  intros (pre & post & -> & Hp) Hv. exists pre, (post ++ [(hash', vote, w)]). split; [by rewrite <- (assoc_L (++))|].
  apply Forall_app. split; [done|]. by apply Forall_singleton.
Qed.

Lemma newest_last tr hash vote w rep : newest (tr ++ [(hash, vote, w)]) hash (mkVoterEntry rep w vote).
Proof. by exists tr, []. Qed.

Lemma steady_known tr hash e vote w :
  steady_weights (tr ++ [(hash, vote, w)]) -> newest tr hash e -> vote_voter (ve_vote e) = vote_voter vote -> ve_weight e = w.
Proof.
  intros (wt & [Hf Hw]%Forall_app) (pre & post & -> & _) Ev. apply Forall_cons in Hw as [Hw _]. cbn in Hw.
  apply Forall_app in Hf as [_ Hc]. apply Forall_cons in Hc as [Hc _]. cbn in Hc. congruence.
Qed.

Lemma entry_other max_voters tr e hash vote w :
  entry_ok max_voters tr e -> hash <> ce_hash e -> entry_ok max_voters (tr ++ [(hash, vote, w)]) e.
Proof.
  intros [Hv Hl Hn Ht] Hh. split; [done..| |].
  - intros rep x E. by apply newest_snoc; [apply (Hn _ _ E)|].
  - intros Hs. by eapply Ht, steady_prefix.
Qed.

Lemma cache_entry_new_ok max_voters tr id hash now :
  (0 < max_voters)%nat -> entry_ok max_voters tr (cache_entry_new id hash now).
Proof. intros Hm. split; [apply voters_default_ok|done|done|done]. Qed.

Section entries.
Context `{HL : HashOrderLaws}.

Lemma calculate_tally_sum v :
  calculate_tally v = (wrap 128 (map_sum ve_weight (ov_by_representative v)),
                       wrap 128 (map_sum final_weight (ov_by_representative v))).
Proof using HL.
  rewrite <- !sum_of_map, <- (fmap_Permutation snd _ _ (hash_iter_perm (ov_by_representative v))).
  fold (voters_iter v). unfold calculate_tally.
  enough (forall a b, fold_left (fun '(t, ft) e => (amount_add t (ve_weight e),
              if vote_is_final (ve_vote e) then amount_add ft (ve_weight e) else ft)) (voters_iter v) (wrap 128 a, wrap 128 b) =
            (wrap 128 (a + sum_of ve_weight (voters_iter v)), wrap 128 (b + sum_of final_weight (voters_iter v)))) as Hg
    by exact (Hg 0 0).
  induction (voters_iter v) as [|e l IH]; intros a b; [cbn; by rewrite !Z.add_0_r|].
  cbn [fold_left]. transitivity (fold_left (fun '(t, ft) e => (amount_add t (ve_weight e),
      if vote_is_final (ve_vote e) then amount_add ft (ve_weight e) else ft)) l
      (wrap 128 (a + ve_weight e), wrap 128 (b + final_weight e))).
  - f_equal. unfold amount_add, final_weight, amount_ZERO. rewrite !wrap_add_l by done. f_equal.
    destruct (vote_is_final (ve_vote e)); [done|by rewrite Z.add_0_r].
  - rewrite IH. unfold sum_of. cbn [foldr]. f_equal; f_equal; lia.
Qed.

(** The votes of an entry are those of its voters. *)
Lemma entry_votes_ok (P : VoterEntry -> Prop) n e :
  voters_ok (ce_voters e) -> (voters_len (ce_voters e) < n)%nat -> map_Forall (fun _ => P) (ov_by_representative (ce_voters e)) ->
  NoDup (vote_voter <$> entry_votes e) /\ (length (entry_votes e) < n)%nat /\
  forall v, v ∈ entry_votes e -> exists w, P (mkVoterEntry (vote_voter v) w v).
Proof using HL.
  intros Hv Hl Hp. unfold entry_votes, voters_iter. rewrite hash_iter_perm, !length_fmap, length_map_to_list.
  split; [|split; [done|]].
  - rewrite <- !list_fmap_compose. rewrite (list_fmap_ext _ fst (map_to_list _)).
    + apply NoDup_fst_map_to_list.
    + intros i [rep x] Hx. cbn. apply list_elem_of_lookup_2, elem_of_map_to_list, (vo_rep _ Hv) in Hx. tauto.
  - intros v Hin. apply list_elem_of_fmap in Hin as (x & -> & ([rep y] & -> & Hy)%list_elem_of_fmap).
    rewrite hash_iter_perm in Hy. apply elem_of_map_to_list in Hy. cbn.
    exists (ve_weight y). destruct (vo_rep _ Hv _ _ Hy) as [E1 E2]. specialize (Hp _ _ Hy). rewrite E2, <- E1. by destruct y.
Qed.

Lemma entry_vote_ok max_voters tr vote w now e :
  entry_ok max_voters tr e ->
  exists u e', entry_vote vote w max_voters now e = Some (u, e') /\
    entry_ok max_voters (tr ++ [(ce_hash e, vote, w)]) e' /\ ce_hash e' = ce_hash e /\ ce_id e' = ce_id e.
Proof using HL.
  intros [Hv Hl Hn Ht]. unfold entry_vote.
  destruct (vote_impl_ok max_voters vote w _ Hv Hl) as (u & v' & -> & [Hok Hlen Ha Hs]). cbn [mbind option_bind].
  assert (map_Forall (fun _ => newest (tr ++ [(ce_hash e, vote, w)]) (ce_hash e)) (ov_by_representative v')) as Hn'.
  { intros rep x E. destruct (Ha _ _ E) as [[Ex Hx]| ->]; [|apply newest_last].
    apply newest_snoc; [by apply (Hn rep)|]. intros _ Hr. apply Hx. by destruct (vo_rep _ Hv _ _ Ex) as [_ <-]. }
  exists u. destruct u; [rewrite calculate_tally_sum|]; eexists; split; try done; split; try done; split; try done.
  intros Hst. cbn. destruct Hs as [E1 E2]; [done| |].
  - intros x Ex. eapply steady_known; [done|by apply (Hn _ _ Ex)|]. by destruct (vo_rep _ Hv _ _ Ex).
  - destruct (Ht (steady_prefix _ _ Hst)) as [T1 T2]. split; cbn; congruence.
Qed.
End entries.

(** ** The collection of entries *)

Record collection_ok (P : CacheEntry -> Prop) (c : CacheEntryCollection) : Prop := {
  co_entry : map_Forall (fun h e => ce_hash e = h /\ P e) (cc_by_hash c);
  co_seq : forall id h, cc_sequential c !! id = Some h <-> exists e, cc_by_hash c !! h = Some e /\ ce_id e = id;
  co_tally : set_index_ok ce_tally (cc_by_hash c) (cc_by_tally c);
}.

Lemma collection_default_ok P : collection_ok P collection_default.
Proof.
  split; cbn; [done| |apply set_index_empty]. intros id h. rewrite lookup_empty. split; [done|].
  intros (e & E & _). by rewrite lookup_empty in E.
Qed.

Lemma collection_weaken (P Q : CacheEntry -> Prop) c :
  collection_ok P c -> map_Forall (fun _ e => P e -> Q e) (cc_by_hash c) -> collection_ok Q c.
Proof. intros [He Hs Ht] Hw. split; [|done..]. intros h e E. destruct (He _ _ E). split; [done|]. by apply (Hw h e). Qed.

Lemma remove_by_tally_ok m idx h e :
  set_index_ok ce_tally m idx -> m !! h = Some e ->
  exists idx', remove_by_tally h (ce_tally e) idx = Some idx' /\ set_index_ok ce_tally (delete h m) idx'.
Proof.
  intros Hi E. destruct (set_index_lookup ce_tally _ _ _ _ Hi E) as (s & Es & _).
  exists (set_index_without (ce_tally e) h s idx). unfold remove_by_tally. rewrite Es. split; [done|].
  by apply set_index_without_ok.
Qed.

(** Two entries never share an id. *)
Lemma collection_ids P c h h' e e' :
  collection_ok P c -> cc_by_hash c !! h = Some e -> cc_by_hash c !! h' = Some e' -> ce_id e = ce_id e' -> h = h'.
Proof.
  intros Hc E E' Hid. assert (cc_sequential c !! ce_id e = Some h) by (apply (co_seq _ _ Hc); by exists e).
  assert (cc_sequential c !! ce_id e = Some h') by (apply (co_seq _ _ Hc); by exists e'). congruence.
Qed.

Lemma collection_delete P c h e :
  collection_ok P c -> cc_by_hash c !! h = Some e ->
  exists by_tally, remove_by_tally h (ce_tally e) (cc_by_tally c) = Some by_tally /\
    collection_ok P (mkCacheEntryCollection (delete (ce_id e) (cc_sequential c)) (delete h (cc_by_hash c)) by_tally).
Proof.
  intros Hc E. destruct (remove_by_tally_ok _ _ h e (co_tally _ _ Hc) E) as (i & Ei & Hi). exists i. split; [done|].
  split; cbn; [by apply map_Forall_delete, (co_entry _ _ Hc)| |done]. intros id h'.
  rewrite lookup_delete_Some, (co_seq _ _ Hc). split.
  - intros (Hne & e' & E' & Hid). exists e'. split; [|done]. rewrite lookup_delete_ne; [done|]. intros <-. congruence.
  - intros (e' & [Hne E']%lookup_delete_Some & Hid). split; [|by exists e'].
    intros <-. apply Hne. by eapply collection_ids.
Qed.

Lemma remove_by_hash_ok P c h :
  collection_ok P c ->
  exists r c', remove_by_hash h c = Some (r, c') /\ collection_ok P c' /\
    cc_by_hash c' = delete h (cc_by_hash c) /\ cc_sequential c' ⊆ cc_sequential c.
Proof.
  intros Hc. unfold remove_by_hash. destruct (cc_by_hash c !! h) as [e|] eqn:E.
  - destruct (collection_delete P c h e Hc E) as (i & -> & Hi). cbn [mbind option_bind]. eexists _, _.
    split; [done|]. split; [done|]. split; [done|]. apply delete_subseteq.
  - exists None, c. split; [done|]. split; [done|]. by rewrite delete_id.
Qed.

Lemma pop_front_ok P c :
  collection_ok P c -> (0 < collection_len c)%nat ->
  exists r c', collection_pop_front c = Some (r, c') /\ collection_ok P c' /\
    S (collection_len c') = collection_len c /\ cc_by_hash c' ⊆ cc_by_hash c.
Proof.
  intros Hc Hl. unfold collection_pop_front, collection_len in *.
  destruct (btm_first Z.compare (cc_sequential c)) as [[id h]|] eqn:E.
  - apply btm_first_lookup in E as Hid. destruct (proj1 (co_seq _ _ Hc id h) Hid) as (e & Ee & <-). rewrite Ee.
    cbn [mbind option_bind]. destruct (collection_delete P c h e Hc Ee) as (i & -> & Hi). cbn [mbind option_bind].
    eexists _, _. split; [done|]. split; [done|]. cbn. split; [|apply delete_subseteq].
    rewrite map_size_delete, Hid. cbn. lia.
  - apply btm_first_None in E. rewrite E, map_size_empty in Hl. lia.
Qed.

Lemma modify_by_hash_ok (P Q : CacheEntry -> Prop) c h e e' f :
  collection_ok P c -> cc_by_hash c !! h = Some e -> f e = Some e' ->
  (forall x, ce_hash x <> h -> P x -> Q x) -> Q e' -> ce_hash e' = ce_hash e -> ce_id e' = ce_id e ->
  exists c', modify_by_hash h f c = Some (true, c') /\ collection_ok Q c' /\ cc_sequential c' = cc_sequential c /\
    cc_by_hash c' = <[h := e']> (cc_by_hash c).
Proof.
  intros Hc E Ef Ho Hp Hh Hid. unfold modify_by_hash. rewrite E, Ef. cbn [mbind option_bind].
  destruct (co_entry _ _ Hc h e E) as [Eh _]. rewrite Hh, Eh.
  assert (exists i, update_tally h (ce_tally e) (ce_tally e') (cc_by_tally c) = Some i /\
            set_index_ok ce_tally (<[h := e']> (cc_by_hash c)) i) as (i & -> & Hi).
  { unfold update_tally. destruct (Z.eqb_spec (ce_tally e) (ce_tally e')) as [Et|].
    - eexists. split; [done|]. by eapply set_index_update; [apply (co_tally _ _ Hc)|..].
    - destruct (remove_by_tally_ok _ _ h e (co_tally _ _ Hc) E) as (i & -> & Hi). eexists. split; [done|].
      rewrite <- insert_delete_eq. by apply (set_index_insert_ok ce_tally); [|apply lookup_delete_eq]. }
  cbn [mbind option_bind]. eexists. split; [done|]. split; [|done]. split; cbn; [| |done].
  - intros h' x [[<- <-]|[Hne Ex]]%lookup_insert_Some; [split; congruence|].
    destruct (co_entry _ _ Hc _ _ Ex) as [<- Hx]. split; [done|]. by apply Ho.
  - intros id h'. rewrite (co_seq _ _ Hc). destruct (decide (h' = h)) as [->|]; [|by rewrite lookup_insert_ne].
    rewrite lookup_insert_eq, E. split; intros (x & [= <-] & <-); by eexists.
Qed.

Lemma collection_insert_ok P c e :
  collection_ok P c -> cc_by_hash c !! ce_hash e = None -> cc_sequential c !! ce_id e = None -> P e ->
  collection_ok P (collection_insert e c).
Proof.
  intros Hc En Ei Hp. split; cbn.
  - apply map_Forall_insert_2; [done|apply (co_entry _ _ Hc)].
  - intros id h. rewrite lookup_insert_Some, (co_seq _ _ Hc). split.
    + intros [[<- <-]|(Hne & x & Ex & Hid)]; [exists e; by rewrite lookup_insert_eq|].
      exists x. split; [|done]. rewrite lookup_insert_ne; [done|]. intros <-. congruence.
    + intros (x & [[<- <-]|[Hne Ex]]%lookup_insert_Some & Hid); [by left|]. right. split; [|by exists x].
      intros <-. assert (cc_sequential c !! ce_id x = Some h) by (apply (co_seq _ _ Hc); by exists x). congruence.
  - by apply (set_index_insert_ok ce_tally); [apply (co_tally _ _ Hc)|].
Qed.

Lemma remove_all_ok P hs c :
  collection_ok P c ->
  exists c', remove_all hs c = Some c' /\ collection_ok P c' /\ cc_sequential c' ⊆ cc_sequential c /\
    forall h, cc_by_hash c' !! h = if decide (h ∈ hs) then None else cc_by_hash c !! h.
Proof.
  revert c. induction hs as [|h hs IH]; intros c Hc; cbn [remove_all]; [by exists c|].
  destruct (remove_by_hash_ok P c h Hc) as (r & c1 & -> & Hc1 & E1 & Hs1). cbn [mbind option_bind].
  destruct (IH c1 Hc1) as (c' & -> & Hc' & Hs' & E'). exists c'. split; [done|]. split; [done|].
  split; [by etrans|]. intros h'. rewrite E', E1. destruct (decide (h' = h)) as [->|Hne].
  - rewrite lookup_delete_eq, (decide_True (P := (h ∈ h :: hs))) by (by left). by destruct (decide _).
  - rewrite lookup_delete_ne by done. destruct (decide (h' ∈ hs)); [by rewrite decide_True by (by right)|].
    by rewrite decide_False by (by intros [?|?]%elem_of_cons).
Qed.

(** ** The entries by tally *)

Lemma sort_by_id {A} (le : A -> A -> bool) l : StronglySorted (fun x y => le x y = true) l -> sort_by le l = l.
Proof.
  unfold sort_by. induction 1 as [|x l Hs IH Hall]; [done|]. cbn. rewrite IH. destruct l as [|y l]; [done|]. cbn.
  apply Forall_cons in Hall as [-> _]. done.
Qed.

Lemma sorted_weaken {A} (R S : A -> A -> Prop) l :
  (forall x y, R x y -> S x y) -> StronglySorted R l -> StronglySorted S l.
Proof. intros Hi. induction 1 as [|x l Hs IH Hall]; constructor; [done|]. eapply Forall_impl; [exact Hall|apply Hi]. Qed.

Section top.
Context `{HL : HashOrderLaws}.

Definition heavier (c : CacheEntryCollection) : BlockHash -> BlockHash -> Prop := in_key_order ce_tally desc (cc_by_hash c).

Definition top_of (e : CacheEntry) : TopEntry := mkTopEntry (ce_hash e) (ce_tally e) (ce_final_tally e).

(** [top] names every entry with enough tally, once. *)
Record top_ok (min_tally : Amount) (c : CacheEntryCollection) (l : list TopEntry) : Prop := {
  to_nodup : NoDup (te_hash <$> l);
  to_all : forall t, t ∈ l <-> exists h e, cc_by_hash c !! h = Some e /\ min_tally <= ce_tally e /\ t = top_of e;
}.

Lemma top_entries_ok min_tally c hs :
  StronglySorted (heavier c) hs -> NoDup hs ->
  Forall (fun h => exists e, cc_by_hash c !! h = Some e /\ ce_hash e = h) hs ->
  exists l, top_entries min_tally hs (cc_by_hash c) = Some l /\
    StronglySorted (fun a b => te_tally b <= te_tally a) l /\ NoDup (te_hash <$> l) /\
    forall t, t ∈ l <-> exists h e, h ∈ hs /\ cc_by_hash c !! h = Some e /\ min_tally <= ce_tally e /\ t = top_of e.
Proof.
  induction 1 as [|h hs Hs IH Hall]; intros Hnd Hf; cbn [top_entries].
  { exists []. split; [done|]. split; [constructor|]. split; [constructor|]. intros t. split; [by intros ?%elem_of_nil|].
    by intros (h & e & ?%elem_of_nil & _). }
  apply NoDup_cons in Hnd as [Hn Hnd]. apply Forall_cons in Hf as [(e & E & Eh) Hf]. rewrite E. cbn [mbind option_bind].
  assert (forall h' e', h' ∈ hs -> cc_by_hash c !! h' = Some e' -> ce_tally e' <= ce_tally e) as Hle.
  { intros h' e' Hh E'. rewrite Forall_forall in Hall. exact (Hall _ Hh _ _ E E'). }
  destruct (Z.ltb_spec (ce_tally e) min_tally) as [Hlt|Hge].
  - exists []. split; [done|]. split; [constructor|]. split; [constructor|]. intros t. split; [by intros ?%elem_of_nil|].
    intros (h' & e' & [->|Hh]%elem_of_cons & E' & Hm & _); [simplify_eq; lia|]. specialize (Hle _ _ Hh E'). lia.
  - destruct (IH Hnd Hf) as (l & -> & H1 & H2 & H3). cbn [mbind option_bind]. eexists. split; [done|]. split; [|split].
    + constructor; [done|]. apply Forall_forall. intros t (h' & e' & Hh & E' & _ & ->)%H3. by apply (Hle h').
    + cbn. apply NoDup_cons. split; [|done]. intros (t & Et & (h' & e' & Hh & E' & _ & ->)%H3)%list_elem_of_fmap.
      rewrite Forall_forall in Hf. destruct (Hf _ Hh) as (e2 & E2 & Eh2). cbn in Et. simplify_eq. congruence.
    + intros t. rewrite elem_of_cons, H3. split.
      * intros [->|(h' & e' & Hh & Hx)]; [exists h, e; split; [by left|done]|exists h', e'; split; [by right|done]].
      * intros (h' & e' & [->|Hh]%elem_of_cons & E' & Hm & ->); [left; by simplify_eq|right; by exists h', e'].
Qed.

Lemma top_cmp_tally a b : top_cmp a b = Z.compare (te_tally b) (te_tally a).
Proof. unfold top_cmp. by rewrite Z.compare_refl. Qed.

Lemma top_results_ok P min_tally c :
  collection_ok P c ->
  exists l, top_entries min_tally (hashes_by_tally_desc c) (cc_by_hash c) = Some l /\
    top_ok min_tally c (sort_by (fun a b => match top_cmp a b with Gt => false | _ => true end) l).
Proof using HL.
  intros Hc. destruct (index_iter_ok ce_tally desc _ _ desc_key_order (co_tally _ _ Hc)) as (Hs & Hnd & Hin).
  destruct (top_entries_ok min_tally c _ Hs Hnd) as (l & El & H1 & H2 & H3).
  { apply Forall_forall. intros h (e & E)%Hin. exists e. by destruct (co_entry _ _ Hc h e E). }
  exists l. split; [done|]. rewrite sort_by_id.
  - split; [done|]. intros t. rewrite H3. split; intros (h & e & Hx); exists h, e; [tauto|].
    split; [apply Hin; by eexists; apply Hx|done].
  - eapply sorted_weaken; [|exact H1]. cbn. intros a b Hle. rewrite top_cmp_tally.
    destruct (Z.compare_spec (te_tally b) (te_tally a)); [done|done|lia].
Qed.
End top.

(** ** Runs of the cache *)

Inductive CacheOp :=
| OpInsert (vote : Vote) (rep_weight : Amount) (results : gmap BlockHash (result VoteError ())) (now : nat -> Timestamp)
| OpErase (hash : BlockHash)
| OpClear
| OpTop (min_tally : Amount) (now : Timestamp).

Section runs.
Context `{HL : HashOrderLaws}.

Definition cache_step (op : CacheOp) (c : VoteCache) : option VoteCache :=
  match op with
  | OpInsert vote w results now => vote_cache_insert vote w results now c
  | OpErase hash => snd <$> vote_cache_erase hash c
  | OpClear => Some (vote_cache_clear c)
  | OpTop min_tally now => snd <$> vote_cache_top min_tally now c
  end.

Fixpoint cache_run (ops : list CacheOp) (c : VoteCache) : option VoteCache :=
  match ops with [] => Some c | op :: ops => c ← cache_step op c; cache_run ops c end.

(** What an operation hands to the cache. *)
Definition insertions (op : CacheOp) : list (BlockHash * Vote * Amount) :=
  match op with
  | OpInsert vote w results _ =>
      (fun h => (h, vote, w)) <$>
        (if bool_decide (results = ∅) then vote_hashes vote
         else (filter (fun r => cacheable r.2 = true) (hash_iter results)).*1)
  | _ => []
  end.

Record cache_ok (config : VoteCacheConfig) (tr : list (BlockHash * Vote * Amount)) (c : VoteCache) : Prop := {
  ca_config : vc_config c = config;
  ca_entries : collection_ok (fun e => entry_ok (vcc_max_voters config) tr e /\ ce_id e < vc_next_id c) (vc_cache c);
  ca_size : (vote_cache_size c <= vcc_max_size config)%nat;
  ca_next : 0 <= vc_next_id c <= Z.of_nat (length tr);
}.

Lemma insert_known_ok config tr vote h w now c e :
  cache_ok config tr c -> cc_by_hash (vc_cache c) !! h = Some e ->
  exists c', insert_impl vote h w now c = Some c' /\ cache_ok config (tr ++ [(h, vote, w)]) c'.
Proof using HL.
  intros [<- Hc Hs Hn] E. destruct (co_entry _ _ Hc h e E) as [Eh [He Hid]]. unfold insert_impl.
  destruct (entry_vote_ok _ tr vote w now e He) as (u & e' & Ev & He' & Hh & Hi). rewrite Eh in He'.
  destruct (modify_by_hash_ok _ (fun e => entry_ok (vcc_max_voters (vc_config c)) (tr ++ [(h, vote, w)]) e /\ ce_id e < vc_next_id c)
      (vc_cache c) h e e' (fun x => snd <$> entry_vote vote w (vcc_max_voters (vc_config c)) now x) Hc E)
    as (cache & -> & Hok & Hseq & _); [by rewrite Ev| |split; [done|lia]|done|done|].
  { intros x Hne [Hx Hix]. split; [|done]. by apply entry_other; [|intros ->]. }
  cbn [mbind option_bind]. eexists. split; [done|]. split; [done|done| |cbn; rewrite length_app; cbn; lia].
  unfold vote_cache_size, collection_len in *. cbn. by rewrite Hseq.
Qed.

Lemma insert_entry_ok config tr vote h w now c :
  (0 < vcc_max_voters config)%nat -> (length tr < Z.to_nat (2 ^ 64 - 1))%nat ->
  cache_ok config tr c -> cc_by_hash (vc_cache c) !! h = None ->
  exists c', insert_impl vote h w now c = Some c' /\ cache_ok config (tr ++ [(h, vote, w)]) c'.
Proof using HL.
  intros Hm Hlen [<- Hc Hs Hn] E. unfold insert_impl, modify_by_hash. rewrite E. cbn [mbind option_bind].
  destruct (entry_vote_ok _ tr vote w now _ (cache_entry_new_ok _ tr (vc_next_id c) h now Hm)) as (u & e' & -> & He' & Hh & Hi).
  cbn [mbind option_bind cache_entry_new ce_hash ce_id] in *.
  set (P := fun e => entry_ok (vcc_max_voters (vc_config c)) (tr ++ [(h, vote, w)]) e /\ ce_id e < vc_next_id c + 1).
  assert (collection_ok P (collection_insert e' (vc_cache c))) as Hins.
  { apply collection_insert_ok; [|by rewrite Hh| |split; [done|lia]].
    - eapply collection_weaken; [exact Hc|]. intros h' x Ex [Hx Hix]. split; [|lia]. apply entry_other; [done|].
      destruct (co_entry _ _ Hc _ _ Ex) as [-> _]. congruence.
    - rewrite Hi. destruct (cc_sequential (vc_cache c) !! vc_next_id c) as [h'|] eqn:El; [|done].
      apply (co_seq _ _ Hc) in El as (x & Ex & Hx). destruct (co_entry _ _ Hc _ _ Ex) as [_ [_ ?]]. lia. }
  assert (collection_len (collection_insert e' (vc_cache c)) <= S (vote_cache_size c))%nat as Hl.
  { unfold collection_len, vote_cache_size, collection_len. cbn. rewrite map_size_insert.
    destruct (cc_sequential (vc_cache c) !! ce_id e'); unfold id; lia. }
  assert (wrap 64 (vc_next_id c + 1) = vc_next_id c + 1) as Hw by (apply wrap_small; unfold in_u; lia).
  assert (exists cache, (if (vcc_max_size (vc_config c) <? collection_len (collection_insert e' (vc_cache c)))%nat
            then snd <$> collection_pop_front (collection_insert e' (vc_cache c))
            else Some (collection_insert e' (vc_cache c))) = Some cache /\ collection_ok P cache /\
            (collection_len cache <= vcc_max_size (vc_config c))%nat) as (cache & -> & Hok & Hsz).
  { destruct (Nat.ltb_spec (vcc_max_size (vc_config c)) (collection_len (collection_insert e' (vc_cache c)))); [|by eexists].
    destruct (pop_front_ok P _ Hins) as (r & c' & -> & Hc' & Hl' & _); [lia|]. exists c'. split; [done|]. split; [done|]. lia. }
  cbn [mbind option_bind]. eexists. split; [done|]. rewrite Hw.
  split; cbn; [done|exact Hok|exact Hsz|rewrite length_app; cbn; lia].
Qed.

Lemma insert_hashes_ok config vote w hs now tr c :
  (0 < vcc_max_voters config)%nat -> Z.of_nat (length tr + length hs) < 2 ^ 64 -> cache_ok config tr c ->
  exists c', insert_hashes vote w now hs c = Some c' /\ cache_ok config (tr ++ ((fun h => (h, vote, w)) <$> hs)) c'.
Proof using HL.
  intros Hm. revert now tr c. induction hs as [|h hs IH]; intros now tr c Hl Hc; cbn [insert_hashes].
  { exists c. by rewrite app_nil_r. }
  assert (exists c', insert_impl vote h w (now 0%nat) c = Some c' /\ cache_ok config (tr ++ [(h, vote, w)]) c') as (c1 & -> & Hc1).
  { destruct (cc_by_hash (vc_cache c) !! h) as [e|] eqn:E; [by eapply insert_known_ok|].
    apply insert_entry_ok; [done| |done|done]. cbn in Hl. lia. }
  cbn [mbind option_bind]. destruct (IH (fun n => now (S n)) (tr ++ [(h, vote, w)]) c1) as (c' & -> & Hc'); [|done|].
  { rewrite length_app. cbn in Hl |- *. lia. }
  exists c'. split; [done|]. by rewrite fmap_cons, cons_middle, (assoc_L (++)).
Qed.

(** Removing entries keeps the rest as it is. *)
Lemma cache_shrink config tr c cache t :
  cache_ok config tr c ->
  collection_ok (fun e => entry_ok (vcc_max_voters config) tr e /\ ce_id e < vc_next_id c) cache ->
  cc_sequential cache ⊆ cc_sequential (vc_cache c) ->
  cache_ok config tr (mkVoteCache (vc_config c) cache (vc_next_id c) t).
Proof.
  intros [Hcf Hc Hs Hn] Hok Hsub. split; [done|done| |done]. etrans; [|exact Hs]. by apply map_subseteq_size.
Qed.

(** The entries that went had no vote for the time of the cutoff. *)
Definition expired_only (config : VoteCacheConfig) (now : Timestamp) (c c' : VoteCache) : Prop :=
  forall h, cc_by_hash (vc_cache c') !! h = cc_by_hash (vc_cache c) !! h \/
    cc_by_hash (vc_cache c') !! h = None /\
    exists e, cc_by_hash (vc_cache c) !! h = Some e /\ vcc_age_cutoff config <= instant_elapsed (ce_last_vote e) now.

Lemma vote_cache_cleanup_ok config tr now c :
  cache_ok config tr c ->
  exists c', vote_cache_cleanup now c = Some c' /\ cache_ok config tr c' /\ expired_only config now c c'.
Proof using HL.
  intros Hok. unfold vote_cache_cleanup. rewrite (ca_config _ _ _ Hok).
  set (hs := ce_hash <$> _). destruct (remove_all_ok _ hs _ (ca_entries _ _ _ Hok)) as (cache & -> & Hc & Hsub & E).
  cbn [mbind option_bind]. eexists. split; [done|]. split; [by apply cache_shrink|]. intros h. cbn. rewrite E.
  destruct (decide (h ∈ hs)) as [Hh|]; [right|by left]. split; [done|]. subst hs. unfold collection_iter in Hh.
  apply list_elem_of_fmap in Hh as (e & -> & [Ha He]%list_elem_of_filter). exists e. split; [|done].
  rewrite hash_iter_perm in He. apply list_elem_of_fmap in He as ([h' e'] & -> & E2%elem_of_map_to_list).
  cbn. by destruct (co_entry _ _ (ca_entries _ _ _ Hok) _ _ E2) as [-> _].
Qed.

Lemma vote_cache_top_ok config tr min_tally now c :
  cache_ok config tr c ->
  exists l c', vote_cache_top min_tally now c = Some (l, c') /\ cache_ok config tr c' /\
    top_ok min_tally (vc_cache c') l /\ expired_only config now c c'.
Proof using HL.
  intros Hok. unfold vote_cache_top.
  assert (exists c', (if vcc_age_cutoff (vc_config c) / 2 <=? instant_elapsed (vc_last_cleanup c) now then
             c ← vote_cache_cleanup now c; Some (mkVoteCache (vc_config c) (vc_cache c) (vc_next_id c) now)
           else Some c) = Some c' /\ cache_ok config tr c' /\ expired_only config now c c') as (c1 & -> & Hok1 & Hold).
  { destruct (_ <=? _); [|exists c; split; [done|]; split; [done|]; by left].
    destruct (vote_cache_cleanup_ok config tr now c Hok) as (c' & -> & Hc' & E). cbn [mbind option_bind].
    eexists. split; [done|]. split; [apply cache_shrink; [done|apply (ca_entries _ _ _ Hc')|done]|]. exact E. }
  cbn [mbind option_bind]. destruct (top_results_ok _ min_tally _ (ca_entries _ _ _ Hok1)) as (l & -> & Hl).
  cbn [mbind option_bind]. eexists _, c1. by split.
Qed.

Lemma cache_step_ok config op tr c :
  (0 < vcc_max_voters config)%nat -> Z.of_nat (length tr + length (insertions op)) < 2 ^ 64 -> cache_ok config tr c ->
  exists c', cache_step op c = Some c' /\ cache_ok config (tr ++ insertions op) c'.
Proof using HL.
  intros Hm Hl Hok. destruct op as [vote w results now|hash| |min_tally now]; cbn [cache_step insertions] in *.
  - unfold vote_cache_insert. rewrite length_fmap in Hl. by destruct (bool_decide _); apply insert_hashes_ok.
  - rewrite app_nil_r. unfold vote_cache_erase.
    destruct (remove_by_hash_ok _ _ hash (ca_entries _ _ _ Hok)) as (r & cache & -> & Hc & _ & Hs). cbn.
    eexists. split; [done|]. by apply cache_shrink.
  - rewrite app_nil_r. eexists. split; [done|]. apply cache_shrink; [done|apply collection_default_ok|apply map_empty_subseteq].
  - rewrite app_nil_r. destruct (vote_cache_top_ok config tr min_tally now c Hok) as (l & c' & -> & Hc' & _). by exists c'.
Qed.

Lemma cache_run_ok config ops tr c :
  (0 < vcc_max_voters config)%nat -> Z.of_nat (length (tr ++ (ops ≫= insertions))) < 2 ^ 64 -> cache_ok config tr c ->
  exists c', cache_run ops c = Some c' /\ cache_ok config (tr ++ (ops ≫= insertions)) c'.
Proof using HL.
  intros Hm. revert tr c. induction ops as [|op ops IH]; intros tr c Hl Hok; cbn [cache_run mbind list_bind] in *.
  { exists c. by rewrite app_nil_r. }
  rewrite (assoc_L (++)) in Hl |- *. destruct (cache_step_ok config op tr c Hm) as (c1 & -> & Hok1); [|done|].
  { rewrite <- length_app. rewrite length_app in Hl. lia. }
  by apply IH.
Qed.

(** C26. Whatever is done with a vote cache for at least one voter per hash, it
    never panics and holds at most [max_size] hashes, for fewer than 2^64
    votes handed in. For each hash it has at most one vote of a voter, of
    fewer than [max_voters] voters: a vote that was handed to the cache for the
    hash, and since then no newer one of the voter was. As long as no voter
    changes its weight, the tallies of an entry are the sums of the weights of
    its (final) votes. The list of [top] names exactly the entries with the
    minimal tally or more, each once; only entries that got no vote for
    the time of the cutoff are dropped on the way. *)
Theorem vote_cache_correct config t0 ops :
  (0 < vcc_max_voters config)%nat -> Z.of_nat (length (ops ≫= insertions)) < 2 ^ 64 ->
  exists c, cache_run ops (vote_cache_new config t0) = Some c /\
    (vote_cache_size c <= vcc_max_size config)%nat /\
    (forall h, NoDup (vote_voter <$> vote_cache_find h c) /\
       (length (vote_cache_find h c) < vcc_max_voters config)%nat /\
       forall v, v ∈ vote_cache_find h c -> exists w, newest (ops ≫= insertions) h (mkVoterEntry (vote_voter v) w v)) /\
    (steady_weights (ops ≫= insertions) -> forall h e, cc_by_hash (vc_cache c) !! h = Some e -> exact_tallies e) /\
    forall min_tally now, exists l c',
      vote_cache_top min_tally now c = Some (l, c') /\ top_ok min_tally (vc_cache c') l /\ expired_only config now c c'.
Proof using HL.
  intros Hm Hl. destruct (cache_run_ok config ops [] (vote_cache_new config t0) Hm Hl) as (c & E & Hok).
  { split; cbn; [done|apply collection_default_ok|apply Nat.le_0_l|lia]. }
  cbn [app] in Hok. exists c. split; [done|]. split; [apply Hok|]. split; [|split].
  - intros h. unfold vote_cache_find. destruct (cc_by_hash (vc_cache c) !! h) as [e|] eqn:Ee; cbn;
      [|split; [constructor|]; split; [done|by intros v ?%elem_of_nil]].
    destruct (co_entry _ _ (ca_entries _ _ _ Hok) _ _ Ee) as [Eh [[Hv Hlen Hn _] _]].
    rewrite Eh in Hn. by apply entry_votes_ok.
  - intros Hs h e Ee. by destruct (co_entry _ _ (ca_entries _ _ _ Hok) _ _ Ee) as [_ [[_ _ _ Ht] _]]; apply Ht.
  - intros min_tally now. destruct (vote_cache_top_ok config _ min_tally now c Hok) as (l & c' & H1 & _ & H2). by exists l, c'.
Qed.
End runs.

(** ** Where the eviction of voters falls short *)

Section equal_weights.
Context `{HL : HashOrderLaws}.

Definition voters_of (h : BlockHash) (c : VoteCache) : OrderedVoters :=
  default voters_default (ce_voters <$> cc_by_hash (vc_cache c) !! h).

(** A vote changes the voters of its hash as [vote_impl] says, if the hash is
    known or the cache empty. *)
Lemma insert_impl_voters config tr vote h w now c c' u v :
  (0 < vcc_max_size config)%nat -> cache_ok config tr c ->
  is_Some (cc_by_hash (vc_cache c) !! h) \/ vc_cache c = collection_default ->
  vote_impl vote w (vcc_max_voters config) (voters_of h c) = Some (u, v) -> insert_impl vote h w now c = Some c' ->
  voters_of h c' = v /\ is_Some (cc_by_hash (vc_cache c') !! h).
Proof using HL.
  intros Hm [Hcf Hc _ _] Hk Hv. unfold insert_impl. rewrite Hcf. unfold voters_of in Hv |- *.
  destruct Hk as [[e Ee]|Hd].
  - unfold modify_by_hash. rewrite Ee in Hv |- *. cbn [default from_option fmap option_fmap option_map] in Hv. unfold id in Hv.
    unfold entry_vote. rewrite Hv. cbn [mbind option_bind fmap option_fmap option_map snd].
    destruct (update_tally _ _ _ _); [|done]. cbn [mbind option_bind]. intros [= <-]. cbn. rewrite lookup_insert_eq. cbn.
    split; [|done]. by destruct u; [destruct (calculate_tally v)|].
  - rewrite Hd in Hv |- *. unfold modify_by_hash. cbn [collection_default cc_by_hash] in *. rewrite lookup_empty in Hv |- *.
    cbn [mbind option_bind]. unfold entry_vote. cbn [cache_entry_new ce_voters default from_option fmap option_fmap option_map] in *.
    rewrite Hv. cbn [mbind option_bind]. set (e' := if u then _ else _).
    assert (ce_hash e' = h /\ ce_voters e' = v) as [Eh Ev] by (subst e'; by destruct u; [destruct (calculate_tally v)|]).
    assert (collection_len (collection_insert e' (mkCacheEntryCollection ∅ ∅ ∅)) = 1%nat) as Hl.
    { unfold collection_len. cbn [collection_insert cc_sequential]. by rewrite map_size_insert, lookup_empty, map_size_empty. }
    change collection_default with (mkCacheEntryCollection ∅ ∅ ∅). rewrite Hl.
    destruct (Nat.ltb_spec (vcc_max_size config) 1); [lia|]. cbn [mbind option_bind]. intros [= <-].
    cbn [vc_cache collection_insert cc_by_hash]. rewrite Eh, lookup_insert_eq. cbn. by split.
Qed.

(** The voters are these, with one weight. *)
Definition equal_voters (w : Amount) (reps : list PublicKey) (v : OrderedVoters) : Prop :=
  map_Forall (fun _ e => ve_weight e = w) (ov_by_representative v) /\ dom (ov_by_representative v) = list_to_set reps.

Lemma vote_equal max_voters w reps vote v :
  voters_ok v -> equal_voters w reps v -> NoDup (vote_voter vote :: reps) -> (length reps < max_voters)%nat ->
  exists v', vote_impl vote w max_voters v = Some (true, v') /\
    ((S (length reps) < max_voters)%nat -> equal_voters w (vote_voter vote :: reps) v') /\
    (S (length reps) = max_voters -> ov_by_representative v' = ∅).
Proof.
  intros Hok [Hw Hd] [Hn Hnd]%NoDup_cons Hl.
  assert (voters_len v = length reps) as Hlen by (unfold voters_len; by rewrite <- size_dom, Hd, size_list_to_set).
  assert (voters_find (vote_voter vote) v = None) as E by (apply not_elem_of_dom; by rewrite Hd, elem_of_list_to_set).
  unfold vote_impl. rewrite E, Hlen, (proj2 (Nat.ltb_lt _ _) Hl). cbn [mbind option_bind].
  pose proof (voters_insert_ok v w vote Hok E) as Hok1. set (v1 := voters_insert _ v) in *. unfold voters_find in E.
  assert (ov_by_representative v1 = <[vote_voter vote := mkVoterEntry (vote_voter vote) w vote]> (ov_by_representative v)) as Ev by done.
  assert (map_Forall (fun _ e => ve_weight e = w) (ov_by_representative v1)) as Hw1 by (rewrite Ev; by apply map_Forall_insert_2).
  assert (voters_len v1 = S (length reps)) as -> by (unfold voters_len in *; by rewrite Ev, map_size_insert, E, Hlen).
  eexists. split; [done|]. destruct (Nat.leb_spec max_voters (S (length reps))) as [Hle|Hgt]; split; intros Hx; try lia.
  - destruct (remove_lowest_weight_ok v1 Hok1) as (low & Hlow & _ & -> & _ & _); [by rewrite Ev; apply insert_non_empty|].
    apply map_empty. intros rep. apply map_lookup_filter_None. right. intros e Ee Hne. apply Hne. rewrite (Hw1 _ _ Ee).
    unfold min_weight in Hlow. apply fmap_Some in Hlow as ([low' l] & Hf%btm_first_lookup & ->).
    destruct (vo_index _ Hok1 low') as (_ & Hnil & He). rewrite Hf in Hnil, He. destruct l as [|r l]; [done|].
    destruct (proj1 (He r)) as (x & Ex & <-); [by left|]. symmetry. by apply (Hw1 _ _ Ex).
  - split; [done|]. rewrite Ev, dom_insert_L, Hd. done.
Qed.

Lemma equal_run config h w now votes reps tr c :
  (0 < vcc_max_size config)%nat -> (0 < vcc_max_voters config)%nat -> cache_ok config tr c ->
  Z.of_nat (length tr + length votes) < 2 ^ 64 -> equal_voters w reps (voters_of h c) -> voters_ok (voters_of h c) ->
  is_Some (cc_by_hash (vc_cache c) !! h) \/ vc_cache c = collection_default ->
  (length reps + length votes = vcc_max_voters config)%nat -> votes <> [] ->
  NoDup ((vote_voter <$> votes) ++ reps) -> Forall (fun v => vote_hashes v = [h]) votes ->
  exists c', cache_run ((fun v => OpInsert v w ∅ now) <$> votes) c = Some c' /\ vote_cache_find h c' = [].
Proof using HL.
  intros Hms Hmv. revert reps tr c. induction votes as [|vote votes IH]; [done|].
  intros reps tr c Hok Hl He Hv Hk Hlen _ [Hn Hnd]%NoDup_cons [Hh Hf]%Forall_cons. cbn [length] in *. rewrite fmap_cons.
  destruct (vote_equal (vcc_max_voters config) w reps vote _ Hv He) as (v' & Ev & Hless & Hfull); [|lia|].
  { apply NoDup_app in Hnd as (_ & _ & Hr). apply NoDup_cons. split; [|done]. intros Hx. apply Hn, elem_of_app. by right. }
  assert (insertions (OpInsert vote w ∅ now) = [(h, vote, w)]) as Hi by (cbn [insertions]; by rewrite bool_decide_true, Hh).
  destruct (cache_step_ok config (OpInsert vote w ∅ now) tr c Hmv) as (c1 & E1 & Hok1); [rewrite Hi; cbn; lia|done|].
  rewrite Hi in Hok1.
  assert (voters_of h c1 = v' /\ is_Some (cc_by_hash (vc_cache c1) !! h)) as [Ev1 Hk1].
  { cbn [cache_step] in E1. unfold vote_cache_insert in E1. rewrite bool_decide_true, Hh in E1 by done. cbn [insert_hashes] in E1.
    destruct (insert_impl vote h w (now 0%nat) c) eqn:Ei; [|done]. injection E1 as ->.
    by apply (insert_impl_voters config tr vote h w (now 0%nat) c c1 true v'). }
  cbn [cache_run]. rewrite E1. cbn [mbind option_bind]. destruct Hk1 as [e1 Ee1].
  destruct votes as [|vote2 votes].
  - exists c1. split; [done|]. cbn in Hlen. unfold voters_of in Ev1. unfold vote_cache_find. rewrite Ee1 in Ev1 |- *.
    cbn in Ev1 |- *. unfold entry_votes, voters_iter. rewrite Ev1, Hfull by lia. apply Permutation_nil.
    by rewrite hash_iter_perm, map_to_list_empty.
  - assert (voters_ok (voters_of h c1)) as Hv1.
    { unfold voters_of. rewrite Ee1. by destruct (co_entry _ _ (ca_entries _ _ _ Hok1) _ _ Ee1) as [_ [[? _ _ _] _]]. }
    apply (IH (vote_voter vote :: reps) _ c1 Hok1); [|rewrite Ev1; apply Hless; cbn in Hlen; lia|done|left; by exists e1|cbn in *; lia|done| |done].
    + rewrite length_app. cbn in *. lia.
    + rewrite <- Permutation_middle. by constructor.
Qed.

(** A full entry loses every voter of the lowest weight, not one of them.
    As many votes of equal weight as an entry may have, each for the same
    hash and of its own voter, leave the cache without any vote for the hash. *)
Theorem equal_weights_forgotten config t0 h w now votes :
  (0 < vcc_max_size config)%nat -> votes <> [] -> length votes = vcc_max_voters config ->
  Z.of_nat (length votes) < 2 ^ 64 -> NoDup (vote_voter <$> votes) -> Forall (fun v => vote_hashes v = [h]) votes ->
  exists c, cache_run ((fun v => OpInsert v w ∅ now) <$> votes) (vote_cache_new config t0) = Some c /\
    vote_cache_find h c = [].
Proof using HL.
  intros Hms Hne Hl H64 Hnd Hf. apply (equal_run config h w now votes [] []); try done.
  - rewrite <- Hl. by destruct votes; [|apply Nat.lt_0_succ].
  - split; cbn; [done|apply collection_default_ok|apply Nat.le_0_l|lia].
  - apply voters_default_ok.
  - by right.
  - by rewrite app_nil_r.
Qed.
End equal_weights.

(** ** Example *)

Definition cached_vote (voter timestamp : Z) : Vote := mkVote timestamp voter 0 [7].

Definition sample_cache_config : VoteCacheConfig := mkVoteCacheConfig 2 3 (secs 10).

(** A vote, a newer one of the same voter, another voter, and a look at the top. *)
Definition sample_cache_ops : list CacheOp :=
  [OpInsert (cached_vote 1 16) 5 ∅ (fun _ => 0); OpInsert (cached_vote 1 32) 5 {[7 := Ok ()]} (fun _ => 1);
   OpInsert (cached_vote 2 16) 6 {[7 := Err Replay; 8 := Err Indeterminate]} (fun _ => 2); OpTop 1 (secs 6); OpErase 9].

Lemma vote_cache_correct_witness :
  exists c, @cache_run trie_order sample_cache_ops (vote_cache_new sample_cache_config 0) = Some c /\
    (vote_cache_size c <= 2)%nat.
Proof.
  destruct (@vote_cache_correct trie_order trie_order_laws sample_cache_config 0 sample_cache_ops) as (c & E & Hs & _).
  - cbn. lia.
  - by vm_compute.
  - by exists c.
Defined.

Lemma equal_weights_forgotten_witness :
  exists c, @cache_run trie_order ((fun v => OpInsert v 5 ∅ (fun _ => 0)) <$> [cached_vote 1 16; cached_vote 2 16; cached_vote 3 16])
      (vote_cache_new sample_cache_config 0) = Some c /\
    @vote_cache_find trie_order 7 c = [].
Proof.
  apply (@equal_weights_forgotten trie_order trie_order_laws sample_cache_config 0 7 5 (fun _ => 0)
           [cached_vote 1 16; cached_vote 2 16; cached_vote 3 16]).
  - cbn. lia.
  - done.
  - done.
  - by vm_compute.
  - by apply (bool_decide_unpack (NoDup _)); vm_compute.
  - by repeat constructor.
Defined.
