(* ===== verification/Candidates.v ===== *)
(** * The accounts to bootstrap next
    (node/src/bootstrap/state/candidate_accounts)

    Accounts with a priority are asked for blocks, the highest priority first;
    accounts that wait for a block of another chain are blocked. A
    [BTreeMap<PriorityKeyDesc, _>] is a map from priorities, listed in
    descending order; that equal keys are the same floats is part of the
    invariant. Loops that are not structural have fuel, a panic is [Panicked].
    Assertions of debug builds are left out. *)

From Stdlib Require Import SpecFloat.
From S2P Require Import Prelude Types Election Collections Floats.

(** ** Priority (priority.rs) *)

Abbreviation Priority := spec_float (only parsing).

Section priority.
Context `{OrderedFloat}.

Definition priority_le (a b : Priority) : bool := match ordered_cmp a b with Gt => false | _ => true end.

(** [std::cmp::min] *)
Definition priority_min (a b : Priority) : Priority := if priority_le a b then a else b.

(** [PriorityKeyDesc] *)
Definition priority_desc (a b : Priority) : comparison := ordered_cmp b a.
End priority.

Definition PRIORITY_ZERO : Priority := S754_zero false.

(** ** PriorityContainer (priority_container.rs) *)

Record PriorityEntry := mkPriorityEntry {
  pr_account : Account;
  pr_priority : Priority;
  pr_fails : nat;
  pr_last_request : option Timestamp;
}.

Definition priority_entry_new (account : Account) (priority : Priority) : PriorityEntry :=
  mkPriorityEntry account priority 0 None.

Record PriorityContainer := mkPriorityContainer {
  pc_by_account : gmap Account PriorityEntry;
  pc_by_priority : gmap Priority (gset Account);
}.

Inductive ChangePriorityResult := Updated | Deleted | NotFound.

Definition pc_default : PriorityContainer := mkPriorityContainer ∅ ∅.
Definition pc_len (c : PriorityContainer) : nat := size (pc_by_account c).
Definition pc_is_empty (c : PriorityContainer) : bool := bool_decide (pc_by_account c = ∅).
Definition pc_get (account : Account) (c : PriorityContainer) : option PriorityEntry := pc_by_account c !! account.
Definition pc_contains (account : Account) (c : PriorityContainer) : bool := bool_decide (is_Some (pc_by_account c !! account)).

Definition pc_insert (entry : PriorityEntry) (c : PriorityContainer) : bool * PriorityContainer :=
  if pc_contains (pr_account entry) c then (false, c)
  else (true, mkPriorityContainer (<[pr_account entry := entry]> (pc_by_account c))
                (set_index_insert (pr_priority entry) (pr_account entry) (pc_by_priority c))).

(** [None] is [unwrap] on a missing priority. *)
Definition remove_priority (account : Account) (priority : Priority) (m : gmap Priority (gset Account))
    : option (gmap Priority (gset Account)) :=
  ids ← m !! priority;
  Some (if (1 <? size ids)%nat then <[priority := ids ∖ {[account]}]> m else delete priority m).

Definition pc_remove_account (account : Account) (c : PriorityContainer) : option (PriorityEntry * PriorityContainer) :=
  entry ← pc_by_account c !! account;
  by_priority ← remove_priority account (pr_priority entry) (pc_by_priority c);
  Some (entry, mkPriorityContainer (delete account (pc_by_account c)) by_priority).

Definition pc_remove (account : Account) (c : PriorityContainer) : option (option PriorityEntry * PriorityContainer) :=
  match pc_by_account c !! account with
  | None => Some (None, c)
  | Some entry =>
      by_priority ← remove_priority account (pr_priority entry) (pc_by_priority c);
      Some (Some entry, mkPriorityContainer (delete account (pc_by_account c)) by_priority)
  end.

Definition change_priority_internal (account : Account) (old_prio new_prio : Priority) (m : gmap Priority (gset Account))
    : option (gmap Priority (gset Account)) :=
  m ← remove_priority account old_prio m; Some (set_index_insert new_prio account m).

Definition pc_set_last_request (account : Account) (timestamp : option Timestamp) (c : PriorityContainer) : PriorityContainer :=
  mkPriorityContainer
    (alter (fun e => mkPriorityEntry (pr_account e) (pr_priority e) (pr_fails e) timestamp) account (pc_by_account c))
    (pc_by_priority c).

Section priority_container.
Context `{OrderedFloat} `{HashOrder}.

(** The closure says whether to keep the entry, and changes it. *)
Definition pc_modify (account : Account) (f : PriorityEntry -> bool * PriorityEntry) (c : PriorityContainer)
    : option (ChangePriorityResult * PriorityContainer) :=
  match pc_by_account c !! account with
  | None => Some (NotFound, c)
  | Some entry =>
      let old_prio := pr_priority entry in
      let '(keep, entry) := f entry in
      let by_account := <[account := entry]> (pc_by_account c) in
      if keep then
        by_priority ← (if decide (ordered_cmp (pr_priority entry) old_prio <> Eq)
                       then change_priority_internal account old_prio (pr_priority entry) (pc_by_priority c)
                       else Some (pc_by_priority c));
        Some (Updated, mkPriorityContainer by_account by_priority)
      else
        '(_, c) ← pc_remove_account account (mkPriorityContainer by_account (pc_by_priority c));
        Some (Deleted, c)
  end.

Definition pop_lowest_prio (c : PriorityContainer) : option (option PriorityEntry * PriorityContainer) :=
  match btm_last priority_desc (pc_by_priority c) with
  | None => Some (None, c)
  | Some (_, v) =>
      lowest_prio_account ← head (set_iter v);
      '(entry, c) ← pc_remove_account lowest_prio_account c;
      Some (Some entry, c)
  end.

(** The accounts in the order of the iterators. *)
Definition accounts_by_priority (c : PriorityContainer) : list Account := index_iter priority_desc (pc_by_priority c).

(** [find] looks the accounts up on the way, with [unwrap]. *)
Fixpoint find_entry (P : PriorityEntry -> bool) (accounts : list Account) (m : gmap Account PriorityEntry)
    : option (option PriorityEntry) :=
  match accounts with
  | [] => Some None
  | account :: accounts =>
      entry ← m !! account;
      if P entry then Some (Some entry) else find_entry P accounts m
  end.

Definition cooled_down (cutoff : Timestamp) (filter : Account -> bool) (entry : PriorityEntry) : bool :=
  match pr_last_request entry with
  | Some ts => if cutoff <? ts then false else filter (pr_account entry)
  | None => filter (pr_account entry)
  end.

Definition pc_next_priority (cutoff : Timestamp) (filter : Account -> bool) (c : PriorityContainer)
    : option (option PriorityEntry) :=
  find_entry (cooled_down cutoff filter) (accounts_by_priority c) (pc_by_account c).
End priority_container.

(** ** BlockingContainer (blocking_container.rs) *)

Record BlockingEntry := mkBlockingEntry {
  bl_account : Account;
  bl_dependency : BlockHash;
  bl_dependency_account : Account;
  bl_added : Timestamp;
}.

Record BlockingContainer := mkBlockingContainer {
  bc_by_account : gmap Account BlockingEntry;
  bc_sequenced : list Account;
  bc_by_dependency : gmap BlockHash (list Account);
  bc_by_dependency_account : gmap Account (list Account);
  bc_by_timestamp : gmap Timestamp (list Account);
}.

Definition bc_default : BlockingContainer := mkBlockingContainer ∅ [] ∅ ∅ ∅.
Definition bc_len (c : BlockingContainer) : nat := length (bc_sequenced c).
Definition bc_get (account : Account) (c : BlockingContainer) : option BlockingEntry := bc_by_account c !! account.
Definition bc_contains (account : Account) (c : BlockingContainer) : bool := bool_decide (is_Some (bc_by_account c !! account)).

(** [range(start..)] *)
Definition dep_accounts_from (start : Account) (c : BlockingContainer) : list (list Account) :=
  (filter (fun e => start <= e.1) (btm_entries Z.compare (bc_by_dependency_account c))).*2.

Definition known_dependencies (c : BlockingContainer) : nat := sum_list_with length (dep_accounts_from 1 c).

Definition unique_blocking_accounts (c : BlockingContainer) : nat :=
  let known := size (bc_by_dependency_account c) in
  if decide (is_Some (bc_by_dependency_account c !! 0)) then (known - 1)%nat else known.

Definition bc_insert (entry : BlockingEntry) (c : BlockingContainer) : bool * BlockingContainer :=
  let account := bl_account entry in
  if bc_contains account c then (false, c)
  else (true, mkBlockingContainer (<[account := entry]> (bc_by_account c)) (bc_sequenced c ++ [account])
                (index_push (bl_dependency entry) account (bc_by_dependency c))
                (index_push (bl_dependency_account entry) account (bc_by_dependency_account c))
                (index_push (bl_added entry) account (bc_by_timestamp c))).

Definition count_by_dependency_account (dep_account : Account) (c : BlockingContainer) : nat :=
  default 0%nat (length <$> bc_by_dependency_account c !! dep_account).

(** The first entry that passes; the accounts are looked up on the way. *)
Fixpoint find_blocking (P : BlockHash -> bool) (accounts : list Account) (m : gmap Account BlockingEntry)
    : option (option BlockHash) :=
  match accounts with
  | [] => Some None
  | account :: accounts =>
      entry ← m !! account;
      if P (bl_dependency entry) then Some (Some (bl_dependency entry)) else find_blocking P accounts m
  end.

Definition bc_next (filter : BlockHash -> bool) (c : BlockingContainer) : option (option BlockHash) :=
  match bc_by_dependency_account c !! 0 with
  | None => Some None
  | Some accounts => find_blocking filter accounts (bc_by_account c)
  end.

Definition iter_by_insertion_order (c : BlockingContainer) : option (list BlockingEntry) :=
  mapM (fun account => bc_by_account c !! account) (bc_sequenced c).

Definition remove_indexes (entry : BlockingEntry) (c : BlockingContainer) : option BlockingContainer :=
  by_dependency ← index_remove (bl_dependency entry) (bl_account entry) (bc_by_dependency c);
  by_dependency_account ← index_remove (bl_dependency_account entry) (bl_account entry) (bc_by_dependency_account c);
  by_timestamp ← index_remove (bl_added entry) (bl_account entry) (bc_by_timestamp c);
  Some (mkBlockingContainer (bc_by_account c) (filter (fun i => i <> bl_account entry) (bc_sequenced c))
          by_dependency by_dependency_account by_timestamp).

Definition bc_remove_account (account : Account) (c : BlockingContainer) : option (option BlockingEntry * BlockingContainer) :=
  match bc_by_account c !! account with
  | None => Some (None, c)
  | Some entry =>
      c ← remove_indexes entry (mkBlockingContainer (delete account (bc_by_account c)) (bc_sequenced c) (bc_by_dependency c)
                                  (bc_by_dependency_account c) (bc_by_timestamp c));
      Some (Some entry, c)
  end.

(** The stack holds its top first; [extend_from_slice] puts the last
    dependent on top. *)
Fixpoint remove_dependents_loop (fuel : nat) (stack : list Account) (removed : nat) (c : BlockingContainer)
    : run (nat * BlockingContainer) :=
  match fuel with
  | O => Running
  | S fuel =>
      match stack with
      | [] => Finished (removed, c)
      | a :: stack =>
          '(entry, c) ← unwrap (bc_remove_account a c);
          match entry with
          | None => remove_dependents_loop fuel stack removed c
          | Some entry =>
              let dependents := default [] (bc_by_dependency_account c !! bl_account entry) in
              remove_dependents_loop fuel (reverse dependents ++ stack) (S removed) c
          end
      end
  end.

(** Every account is put on the stack at most once. *)
Definition remove_account_and_dependents (account : Account) (c : BlockingContainer) : run (nat * BlockingContainer) :=
  remove_dependents_loop (S (S (size (bc_by_account c)))) [account] 0 c.

Definition remove_oldest (c : BlockingContainer) : run (nat * BlockingContainer) :=
  match head (bc_sequenced c) with
  | None => Finished (0%nat, c)
  | Some oldest => remove_account_and_dependents oldest c
  end.

Fixpoint remove_each (accounts : list Account) (removed : nat) (c : BlockingContainer) : run (nat * BlockingContainer) :=
  match accounts with
  | [] => Finished (removed, c)
  | account :: accounts =>
      '(n, c) ← remove_account_and_dependents account c;
      remove_each accounts (removed + n) c
  end.

Fixpoint remove_older_loop (fuel : nat) (cutoff : Timestamp) (removed : nat) (c : BlockingContainer)
    : run (nat * BlockingContainer) :=
  match fuel with
  | O => Running
  | S fuel =>
      match btm_first Z.compare (bc_by_timestamp c) with
      | None => Finished (removed, c)
      | Some (timestamp, accounts) =>
          if cutoff <=? timestamp then Finished (removed, c)
          else '(removed, c) ← remove_each accounts removed c; remove_older_loop fuel cutoff removed c
      end
  end.

(** Each turn removes an account. *)
Definition remove_older_than (cutoff : Timestamp) (c : BlockingContainer) : run (nat * BlockingContainer) :=
  remove_older_loop (S (size (bc_by_account c))) cutoff 0 c.

(** One turn of the loop of [modify_dependency_account]. *)
Definition set_dependency_account (account new_dependency_account : Account) (c : BlockingContainer)
    : option (bool * BlockingContainer) :=
  entry ← bc_by_account c !! account;
  if bl_dependency_account entry =? new_dependency_account then Some (false, c)
  else
    let old_dependency_account := bl_dependency_account entry in
    let entry := mkBlockingEntry (bl_account entry) (bl_dependency entry) new_dependency_account (bl_added entry) in
    old ← bc_by_dependency_account c !! old_dependency_account;
    let by_dependency_account :=
      if (length old =? 1)%nat then delete old_dependency_account (bc_by_dependency_account c)
      else <[old_dependency_account := filter (fun a => a <> bl_account entry) old]> (bc_by_dependency_account c) in
    Some (true, mkBlockingContainer (<[account := entry]> (bc_by_account c)) (bc_sequenced c) (bc_by_dependency c)
                  (index_push new_dependency_account (bl_account entry) by_dependency_account) (bc_by_timestamp c)).

Fixpoint set_dependency_accounts (accounts : list Account) (new_dependency_account : Account) (updated : nat)
    (c : BlockingContainer) : option (nat * BlockingContainer) :=
  match accounts with
  | [] => Some (updated, c)
  | account :: accounts =>
      '(changed, c) ← set_dependency_account account new_dependency_account c;
      set_dependency_accounts accounts new_dependency_account (if changed : bool then S updated else updated) c
  end.

Definition modify_dependency_account (dependency : BlockHash) (new_dependency_account : Account) (c : BlockingContainer)
    : option (nat * BlockingContainer) :=
  match bc_by_dependency c !! dependency with
  | None => Some (0%nat, c)
  | Some accounts => set_dependency_accounts accounts new_dependency_account 0 c
  end.

(** ** CandidateAccounts (candidate_accounts.rs) *)

Record CandidateAccountsConfig := mkCandidateAccountsConfig {
  cac_consideration_count : nat;
  cac_priorities_max : nat;
  cac_blocking_max : nat;
  cac_blocking_decay : Duration;
  cac_cooldown : Duration;
}.

Definition candidates_config_default : CandidateAccountsConfig :=
  mkCandidateAccountsConfig 4 (256 * 1024) (256 * 1024) (secs (60 * 60)) (secs 3).

Inductive PriorityUpResult := UpInserted | UpUpdated | UpInvalidAccount | UpAccountBlocked.
Inductive PriorityDownResult := Deprioritized | Erased | AccountNotFound | DownInvalidAccount.

Record CandidateAccounts := mkCandidateAccounts {
  cn_config : CandidateAccountsConfig;
  cn_priorities : PriorityContainer;
  cn_blocking : BlockingContainer;
}.

Definition PRIORITY_INITIAL : Priority := f64_of_int 1.
Definition PRIORITY_INCREASE : Priority := f64_of_int 2.
Definition PRIORITY_DIVIDE : spec_float := f64_of_int 2.
Definition PRIORITY_MAX : Priority := f64_of_int 128.
(** The float next to 0.15 *)
Definition PRIORITY_CUTOFF : Priority := f64_div (f64_of_int 15) (f64_of_int 100).
Definition MAX_FAILS : nat := 3.

Definition candidates_new (config : CandidateAccountsConfig) : CandidateAccounts :=
  mkCandidateAccounts config pc_default bc_default.

Definition candidates_blocked (account : Account) (c : CandidateAccounts) : bool := bc_contains account (cn_blocking c).
Definition candidates_prioritized (account : Account) (c : CandidateAccounts) : bool := pc_contains account (cn_priorities c).
Definition priority_full (c : CandidateAccounts) : bool :=
  (cac_priorities_max (cn_config c) <=? pc_len (cn_priorities c))%nat.
Definition priority_half_full (c : CandidateAccounts) : bool :=
  (cac_priorities_max (cn_config c) / 2 <? pc_len (cn_priorities c))%nat.
Definition blocked_half_full (c : CandidateAccounts) : bool :=
  (cac_blocking_max (cn_config c) / 2 <? bc_len (cn_blocking c))%nat.

Definition candidates_priority (account : Account) (c : CandidateAccounts) : Priority :=
  if candidates_blocked account c then PRIORITY_ZERO
  else match pc_get account (cn_priorities c) with Some existing => pr_priority existing | None => PRIORITY_ZERO end.

Definition last_request (account : Account) (c : CandidateAccounts) : option Timestamp :=
  e ← pc_get account (cn_priorities c); pr_last_request e.

Definition with_priorities (p : PriorityContainer) (c : CandidateAccounts) : CandidateAccounts :=
  mkCandidateAccounts (cn_config c) p (cn_blocking c).
Definition with_blocking (b : BlockingContainer) (c : CandidateAccounts) : CandidateAccounts :=
  mkCandidateAccounts (cn_config c) (cn_priorities c) b.

Definition set_last_request (account : Account) (now : Timestamp) (c : CandidateAccounts) : CandidateAccounts :=
  with_priorities (pc_set_last_request account (Some now) (cn_priorities c)) c.
Definition reset_last_request (account : Account) (c : CandidateAccounts) : CandidateAccounts :=
  with_priorities (pc_set_last_request account None (cn_priorities c)) c.

Definition candidates_clear (c : CandidateAccounts) : CandidateAccounts :=
  mkCandidateAccounts (cn_config c) pc_default bc_default.

(** Sets a priority unless there is one, or the account is blocked. *)
Definition priority_set_impl (account : Account) (priority : Priority) (blocking : BlockingContainer)
    (priorities : PriorityContainer) : bool * PriorityContainer :=
  if (account =? 0) || bc_contains account blocking || pc_contains account priorities then (false, priorities)
  else (true, (pc_insert (priority_entry_new account priority) priorities).2).

Definition priority_erase (account : Account) (c : CandidateAccounts) : run (bool * CandidateAccounts) :=
  if account =? 0 then Finished (false, c)
  else
    '(removed, p) ← unwrap (pc_remove account (cn_priorities c));
    Finished (bool_decide (is_Some removed), with_priorities p c).

Definition decay_blocking (now : Timestamp) (c : CandidateAccounts) : run (nat * CandidateAccounts) :=
  '(n, b) ← remove_older_than (now - cac_blocking_decay (cn_config c)) (cn_blocking c);
  Finished (n, with_blocking b c).

Section candidates.
Context `{OrderedFloat} `{HashOrder}.

Definition higher_priority (priority : Priority) : Priority := priority_min (f64_add priority PRIORITY_INCREASE) PRIORITY_MAX.

Fixpoint trim_priorities (fuel : nat) (max : nat) (p : PriorityContainer) : run PriorityContainer :=
  match fuel with
  | O => Running
  | S fuel =>
      if negb (pc_is_empty p) && (max <? pc_len p)%nat then
        '(_, p) ← unwrap (pop_lowest_prio p); trim_priorities fuel max p
      else Finished p
  end.

Fixpoint trim_blocking (fuel : nat) (max : nat) (b : BlockingContainer) : run BlockingContainer :=
  match fuel with
  | O => Running
  | S fuel => if (max <? bc_len b)%nat then '(_, b) ← remove_oldest b; trim_blocking fuel max b else Finished b
  end.

(** Each turn of the loops removes an account. *)
Definition trim_overflow (c : CandidateAccounts) : run CandidateAccounts :=
  p ← trim_priorities (S (pc_len (cn_priorities c))) (cac_priorities_max (cn_config c)) (cn_priorities c);
  b ← trim_blocking (S (bc_len (cn_blocking c))) (cac_blocking_max (cn_config c)) (cn_blocking c);
  Finished (mkCandidateAccounts (cn_config c) p b).

Definition priority_up (account : Account) (c : CandidateAccounts) : run (PriorityUpResult * CandidateAccounts) :=
  if account =? 0 then Finished (UpInvalidAccount, c)
  else if candidates_blocked account c then Finished (UpAccountBlocked, c)
  else
    '(updated, p) ← unwrap (pc_modify account
        (fun e => (true, mkPriorityEntry (pr_account e) (higher_priority (pr_priority e)) 0 (pr_last_request e)))
        (cn_priorities c));
    match updated with
    | Updated | Deleted => Finished (UpUpdated, with_priorities p c)
    | NotFound =>
        let '(_, p) := pc_insert (priority_entry_new account PRIORITY_INITIAL) p in
        c ← trim_overflow (with_priorities p c);
        Finished (UpInserted, c)
    end.

(** The closure of [priority_down]. *)
Definition lower_entry (e : PriorityEntry) : bool * PriorityEntry :=
  let new_priority := f64_div (pr_priority e) PRIORITY_DIVIDE in
  if (MAX_FAILS <=? pr_fails e)%nat || f64_ge (f64_of_int (Z.of_nat (pr_fails e))) (pr_priority e) ||
     priority_le new_priority PRIORITY_CUTOFF then (false, e)
  else (true, mkPriorityEntry (pr_account e) new_priority (S (pr_fails e)) (pr_last_request e)).

Definition priority_down (account : Account) (c : CandidateAccounts) : run (PriorityDownResult * CandidateAccounts) :=
  if account =? 0 then Finished (DownInvalidAccount, c)
  else
    '(change_result, p) ← unwrap (pc_modify account lower_entry (cn_priorities c));
    Finished (match change_result with Updated => Deprioritized | Deleted => Erased | NotFound => AccountNotFound end,
              with_priorities p c).

Definition priority_set (account : Account) (priority : Priority) (c : CandidateAccounts) : run (bool * CandidateAccounts) :=
  let '(inserted, p) := priority_set_impl account priority (cn_blocking c) (cn_priorities c) in
  c ← trim_overflow (with_priorities p c);
  Finished (inserted, c).

Definition priority_set_initial (account : Account) (c : CandidateAccounts) : run (bool * CandidateAccounts) :=
  priority_set account PRIORITY_INITIAL c.

Definition candidates_block (account : Account) (dependency : BlockHash) (now : Timestamp) (c : CandidateAccounts)
    : run (bool * CandidateAccounts) :=
  '(removed, p) ← unwrap (pc_remove account (cn_priorities c));
  match removed with
  | None => Finished (false, with_priorities p c)
  | Some _ =>
      let '(_, b) := bc_insert (mkBlockingEntry account dependency 0 now) (cn_blocking c) in
      c ← trim_overflow (mkCandidateAccounts (cn_config c) p b);
      Finished (true, c)
  end.

Definition candidates_unblock (account : Account) (hash : option BlockHash) (c : CandidateAccounts)
    : run (bool * CandidateAccounts) :=
  if account =? 0 then Finished (false, c)
  else match bc_get account (cn_blocking c) with
       | None => Finished (false, c)
       | Some existing =>
           let hash_matches := match hash with Some hash => hash =? bl_dependency existing | None => true end in
           if hash_matches then
             let '(_, p) := pc_insert (priority_entry_new account PRIORITY_INITIAL) (cn_priorities c) in
             '(_, b) ← unwrap (bc_remove_account account (cn_blocking c));
             c ← trim_overflow (mkCandidateAccounts (cn_config c) p b);
             Finished (true, c)
           else Finished (false, c)
       end.

Definition dependency_update (dependency : BlockHash) (dependency_account : Account) (c : CandidateAccounts)
    : run (nat * CandidateAccounts) :=
  '(updated, b) ← unwrap (modify_dependency_account dependency dependency_account (cn_blocking c));
  let c := with_blocking b c in
  if (0 <? updated)%nat && negb (priority_full c) then
    let '(inserted, p) := priority_set_impl dependency_account PRIORITY_INITIAL (cn_blocking c) (cn_priorities c) in
    c ← (if inserted : bool then trim_overflow (with_priorities p c) else Finished (with_priorities p c));
    Finished (updated, c)
  else Finished (updated, c).

Record PriorityResult := mkPriorityResult {
  prr_account : Account;
  prr_priority : Priority;
  prr_fails : nat;
}.

Definition priority_result_default : PriorityResult := mkPriorityResult 0 PRIORITY_ZERO 0.

Definition candidates_next_priority (now : Timestamp) (filter : Account -> bool) (c : CandidateAccounts)
    : option PriorityResult :=
  if pc_is_empty (cn_priorities c) then Some priority_result_default
  else
    let cutoff := now - cac_cooldown (cn_config c) in
    entry ← pc_next_priority cutoff filter (cn_priorities c);
    Some (match entry with
          | None => priority_result_default
          | Some entry => mkPriorityResult (pr_account entry) (pr_priority entry) (pr_fails entry)
          end).

Definition candidates_next_blocking (filter : BlockHash -> bool) (c : CandidateAccounts) : option BlockHash :=
  if (bc_len (cn_blocking c) =? 0)%nat then Some 0
  else hash ← bc_next filter (cn_blocking c); Some (default 0 hash).

(** The loop over the blocked accounts with a known dependency account. *)
Fixpoint sync_loop (accounts : list Account) (inserted : nat) (c : CandidateAccounts) : option (nat * CandidateAccounts) :=
  match accounts with
  | [] => Some (inserted, c)
  | account :: accounts =>
      entry ← bc_by_account (cn_blocking c) !! account;
      if priority_full c then Some (inserted, c)
      else
        let '(set, p) := priority_set_impl (bl_dependency_account entry) PRIORITY_INITIAL (cn_blocking c) (cn_priorities c) in
        sync_loop accounts (if set : bool then S inserted else inserted) (with_priorities p c)
  end.

Definition sync_dependencies (c : CandidateAccounts) : run (nat * CandidateAccounts) :=
  '(inserted, c) ← unwrap (sync_loop (mjoin (dep_accounts_from 1 (cn_blocking c))) 0 c);
  c ← trim_overflow c;
  Finished (inserted, c).
End candidates.
