(* ===== verification/CandidatesTheorems.v ===== *)
(** * The candidate accounts stay consistent and bounded
    (node/src/bootstrap/state/candidate_accounts) *)

From Stdlib Require Import SpecFloat.
From S2P Require Import Prelude Types Election Collections Floats Candidates.

(** ** Priorities *)

Record priorities_ok (p : PriorityContainer) : Prop := {
  po_entry : map_Forall (fun a e => pr_account e = a /\ a <> 0 /\ unsigned (pr_priority e) = true) (pc_by_account p);
  po_index : set_index_ok pr_priority (pc_by_account p) (pc_by_priority p);
}.

Lemma pc_default_ok : priorities_ok pc_default.
Proof. split; [done|apply set_index_empty]. Qed.

Lemma remove_priority_ok m idx a e :
  set_index_ok pr_priority m idx -> m !! a = Some e ->
  exists idx', remove_priority a (pr_priority e) idx = Some idx' /\ set_index_ok pr_priority (delete a m) idx'.
Proof.
  intros Hi E. destruct (set_index_lookup pr_priority _ _ _ _ Hi E) as (s & Es & Hs).
  exists (set_index_without (pr_priority e) a s idx). unfold remove_priority. rewrite Es. cbn [mbind option_bind].
  split; [|by apply set_index_without_ok]. unfold set_index_without.
  assert (size s <> 0%nat) by (intros ->%size_empty_inv%leibniz_equiv; by apply elem_of_empty in Hs).
  destruct (Nat.ltb_spec 1 (size s)), (Nat.eqb_spec (size s) 1); try done; lia.
Qed.

Lemma pc_insert_ok a p prio :
  priorities_ok p -> a <> 0 -> unsigned prio = true ->
  priorities_ok (pc_insert (priority_entry_new a prio) p).2 /\
  (pc_by_account (pc_insert (priority_entry_new a prio) p).2 =
   if decide (is_Some (pc_by_account p !! a)) then pc_by_account p
   else <[a := priority_entry_new a prio]> (pc_by_account p)).
Proof.
  intros [He Hi] Ha Hu. unfold pc_insert, pc_contains. cbn [pr_account priority_entry_new].
  destruct (decide (is_Some (pc_by_account p !! a))) as [Hs|Hs].
  - rewrite bool_decide_true by done. done.
  - rewrite bool_decide_false by done. cbn. split; [|done]. split; cbn.
    + by apply map_Forall_insert_2.
    + apply (set_index_insert_ok pr_priority _ _ a (priority_entry_new a prio)); [done|]. by apply eq_None_not_Some.
Qed.

Lemma pc_remove_ok a p :
  priorities_ok p ->
  exists p', pc_remove a p = Some (pc_by_account p !! a, p') /\ priorities_ok p' /\ pc_by_account p' = delete a (pc_by_account p).
Proof.
  intros [He Hi]. unfold pc_remove. destruct (pc_by_account p !! a) as [e|] eqn:E.
  - destruct (remove_priority_ok _ _ a e Hi E) as (i & -> & Hi'). eexists. split; [done|]. split; [|done].
    split; [by apply map_Forall_delete|done].
  - exists p. split; [done|]. split; [done|]. by rewrite delete_id.
Qed.

Lemma pc_remove_account_ok a p e :
  priorities_ok p -> pc_by_account p !! a = Some e ->
  exists p', pc_remove_account a p = Some (e, p') /\ priorities_ok p' /\ pc_by_account p' = delete a (pc_by_account p).
Proof.
  intros Hp E. destruct (pc_remove_ok a p Hp) as (p' & Er & Hp' & Ed). exists p'. split; [|done].
  unfold pc_remove in Er. unfold pc_remove_account. rewrite E in Er |- *. cbn [mbind option_bind].
  destruct (remove_priority _ _ _); [|done]. by injection Er as <-.
Qed.

Section priorities.
Context `{OL : OrderedFloatLaws} `{HL : HashOrderLaws}.

(** A change of an entry is kept, or the entry is gone. *)
Lemma pc_modify_ok a f p :
  priorities_ok p ->
  (forall e, unsigned (pr_priority e) = true ->
     pr_account (f e).2 = pr_account e /\ unsigned (pr_priority (f e).2) = true /\ ((f e).1 = false -> (f e).2 = e)) ->
  exists r p', pc_modify a f p = Some (r, p') /\ priorities_ok p' /\
    (r = NotFound -> p' = p /\ pc_by_account p !! a = None) /\
    pc_by_account p' = partial_alter (fun o => e ← o; if (f e).1 then Some (f e).2 else None) a (pc_by_account p).
Proof using OL.
  intros Hp Hf. unfold pc_modify. destruct (pc_by_account p !! a) as [e|] eqn:E.
  2: { eexists _, p. split; [done|]. split; [done|]. split; [done|]. apply map_eq. intros k.
       destruct (decide (k = a)) as [->|]; [by rewrite lookup_partial_alter_eq, E|by rewrite lookup_partial_alter_ne]. }
  destruct (po_entry _ Hp _ _ E) as (Ea & Hn & Hu). specialize (Hf e Hu). destruct (f e) as [keep e'] eqn:Ef. cbn [fst snd] in Hf.
  destruct Hf as (Ha' & Hu' & Hd). destruct keep.
  - assert (exists i, (if decide (ordered_cmp (pr_priority e') (pr_priority e) <> Eq)
                       then change_priority_internal a (pr_priority e) (pr_priority e') (pc_by_priority p)
                       else Some (pc_by_priority p)) = Some i /\ set_index_ok pr_priority (<[a := e']> (pc_by_account p)) i)
      as (i & -> & Hi).
    { destruct (decide (ordered_cmp (pr_priority e') (pr_priority e) <> Eq)) as [Hne|Heq].
      - unfold change_priority_internal. destruct (remove_priority_ok _ _ a e (po_index _ Hp) E) as (i & -> & Hi).
        eexists. split; [done|]. rewrite <- insert_delete_eq. by apply (set_index_insert_ok pr_priority); [|apply lookup_delete_eq].
      - eexists. split; [done|]. eapply set_index_update; [apply (po_index _ Hp)|done|]. apply ordered_eq; [done|done|].
        by destruct (ordered_cmp _ _); [|destruct Heq..]. }
    eexists _, _. split; [done|]. split; [split; cbn; [|done]|].
    + apply map_Forall_insert_2; [by rewrite Ha'|apply (po_entry _ Hp)].
    + split; [done|]. cbn. apply map_eq. intros k. destruct (decide (k = a)) as [->|].
      * by rewrite lookup_insert_eq, lookup_partial_alter_eq, E; cbn; rewrite Ef.
      * by rewrite lookup_insert_ne, lookup_partial_alter_ne.
  - rewrite (Hd eq_refl), insert_id by done.
    destruct (pc_remove_account_ok a (mkPriorityContainer (pc_by_account p) (pc_by_priority p)) e) as (p' & -> & Hp' & Ed);
      [by destruct p|done|].
    eexists _, _. split; [done|]. split; [done|]. split; [done|]. rewrite Ed. cbn. apply map_eq. intros k.
    destruct (decide (k = a)) as [->|].
    + by rewrite lookup_delete_eq, lookup_partial_alter_eq, E; cbn; rewrite Ef.
    + by rewrite lookup_delete_ne, lookup_partial_alter_ne.
Qed.

Lemma pop_lowest_prio_ok p :
  priorities_ok p -> pc_by_account p <> ∅ ->
  exists a e p', pop_lowest_prio p = Some (Some e, p') /\ priorities_ok p' /\ pc_by_account p !! a = Some e /\
    pc_by_account p' = delete a (pc_by_account p).
Proof using HL.
  intros Hp Hne. unfold pop_lowest_prio. destruct (btm_last priority_desc (pc_by_priority p)) as [[k s]|] eqn:El.
  - apply btm_last_lookup in El. destruct (po_index _ Hp k) as [Hs He]. rewrite El in Hs, He. cbn in He.
    destruct (set_iter s) as [|a l] eqn:Ei.
    + exfalso. apply Hs. f_equal. apply leibniz_equiv, elements_empty_inv, Permutation_nil. by rewrite <- Ei, set_iter_perm.
    + cbn [head mbind option_bind]. destruct (proj1 (He a)) as (e & E & _).
      { apply elem_of_set_iter. rewrite Ei. by left. }
      destruct (pc_remove_account_ok a p e Hp E) as (p' & -> & Hp' & Ed). by exists a, e, p'.
  - apply btm_last_None in El. apply map_choose in Hne as (a & e & E).
    destruct (set_index_lookup pr_priority _ _ _ _ (po_index _ Hp) E) as (s & Es & _). by rewrite El, lookup_empty in Es.
Qed.
End priorities.

(** ** Blocked accounts *)

Record blocking_ok (b : BlockingContainer) : Prop := {
  bo_entry : map_Forall (fun a e => bl_account e = a /\ a <> 0) (bc_by_account b);
  bo_seq : bc_sequenced b ≡ₚ (map_to_list (bc_by_account b)).*1;
  bo_dependency : index_ok bl_dependency (bc_by_account b) (bc_by_dependency b);
  bo_dependency_account : index_ok bl_dependency_account (bc_by_account b) (bc_by_dependency_account b);
  bo_timestamp : index_ok bl_added (bc_by_account b) (bc_by_timestamp b);
}.

Lemma bc_default_ok : blocking_ok bc_default.
Proof. split; try apply index_empty_ok; [done|]. cbn. by rewrite map_to_list_empty. Qed.

Lemma bc_len_size b : blocking_ok b -> bc_len b = size (bc_by_account b).
Proof. intros Hb. unfold bc_len. by rewrite (bo_seq _ Hb), length_fmap, length_map_to_list. Qed.

Lemma bc_insert_ok b e :
  blocking_ok b -> bl_account e <> 0 -> bc_by_account b !! bl_account e = None ->
  blocking_ok (bc_insert e b).2 /\ bc_by_account (bc_insert e b).2 = <[bl_account e := e]> (bc_by_account b).
Proof.
  intros [H1 H2 H3 H4 H5] Hn E. unfold bc_insert, bc_contains. rewrite bool_decide_false by (rewrite E; by intros [??]).
  cbn. split; [|done]. split; cbn.
  - by apply map_Forall_insert_2.
  - rewrite map_to_list_insert, H2 by done. cbn. by rewrite Permutation_app_comm.
  - by apply (index_push_ok bl_dependency).
  - by apply (index_push_ok bl_dependency_account).
  - by apply (index_push_ok bl_added).
Qed.

Lemma bc_remove_account_ok a b :
  blocking_ok b ->
  exists b', bc_remove_account a b = Some (bc_by_account b !! a, b') /\ blocking_ok b' /\
    bc_by_account b' = delete a (bc_by_account b).
Proof.
  intros [H1 H2 H3 H4 H5]. unfold bc_remove_account. destruct (bc_by_account b !! a) as [e|] eqn:E.
  2: { exists b. split; [done|]. split; [done|]. by rewrite delete_id. }
  destruct (H1 _ _ E) as [Ea Hn]. unfold remove_indexes. cbn. rewrite Ea.
  destruct (index_remove_ok bl_dependency _ _ a e H3 E) as (i3 & -> & Hi3).
  destruct (index_remove_ok bl_dependency_account _ _ a e H4 E) as (i4 & -> & Hi4).
  destruct (index_remove_ok bl_added _ _ a e H5 E) as (i5 & -> & Hi5). cbn. eexists. split; [done|]. split; [|done].
  split; cbn; [by apply map_Forall_delete| |done|done|done].
  assert (a ∈ bc_sequenced b) as Hin.
  { rewrite H2. apply list_elem_of_fmap. exists (a, e). split; [done|]. by apply elem_of_map_to_list. }
  apply (Permutation_cons_inv (a := a)). rewrite <- (filter_ne_perm a (bc_sequenced b)); [|rewrite H2; apply NoDup_fst_map_to_list|done].
  rewrite H2. by rewrite <- (map_to_list_delete (bc_by_account b) a e E).
Qed.

(** The accounts whose dependency is blocked, too. *)
Definition dependent (m : gmap Account BlockingEntry) : gset Account :=
  dom (filter (fun '(_, e) => is_Some (m !! bl_dependency_account e)) m).

Lemma elem_of_dependent m x : x ∈ dependent m <-> exists e, m !! x = Some e /\ is_Some (m !! bl_dependency_account e).
Proof.
  unfold dependent. rewrite elem_of_dom. unfold is_Some at 1. by setoid_rewrite map_lookup_filter_Some.
Qed.

(** With an account go the dependents of which it was the dependency. *)
Lemma dependent_delete m a (l : list Account) :
  is_Some (m !! a) -> NoDup l ->
  (forall x, x ∈ l <-> exists e, delete a m !! x = Some e /\ bl_dependency_account e = a) ->
  (size (dependent (delete a m)) + length l <= size (dependent m))%nat.
Proof.
  intros Ha Hnd Hl. rewrite <- (size_list_to_set (C := gset Account) l) by done. rewrite <- size_union.
  - apply subseteq_size. intros x. rewrite elem_of_union, elem_of_list_to_set, Hl, !elem_of_dependent.
    intros [(e & [Hne E]%lookup_delete_Some & [e' [_ E']%lookup_delete_Some])|(e & [Hne E]%lookup_delete_Some & Ed)]; exists e.
    + split; [done|]. by exists e'.
    + split; [done|]. by rewrite Ed.
  - intros x. rewrite elem_of_dependent, elem_of_list_to_set, Hl.
    intros (e & E & [e' [Hne _]%lookup_delete_Some]) (e2 & E2 & Ed). by simplify_eq.
Qed.

(** What goes when the accounts [P] are removed: these, and whatever depends on
    an account that goes. *)
Inductive goes (P : Account -> Prop) (m : gmap Account BlockingEntry) : Account -> Prop :=
  | goes_first a e : m !! a = Some e -> P a -> goes P m a
  | goes_dependent a e : m !! a = Some e -> goes P m (bl_dependency_account e) -> goes P m a.

Record removed (P : Account -> Prop) (m m' : gmap Account BlockingEntry) : Prop := {
  rm_sub : m' ⊆ m;
  rm_goes : forall a, is_Some (m !! a) -> m' !! a = None -> goes P m a;
  rm_gone : forall a, P a -> m' !! a = None;
  rm_closed : forall a e, m' !! a = Some e -> is_Some (m !! bl_dependency_account e) -> is_Some (m' !! bl_dependency_account e);
}.

Lemma goes_mono (P Q : Account -> Prop) m1 m2 a :
  (forall x, is_Some (m1 !! x) -> P x -> Q x) -> m1 ⊆ m2 -> goes P m1 a -> goes Q m2 a.
Proof.
  intros HP Hs. induction 1 as [a e E Ha|a e E _ IH].
  - apply (goes_first _ _ a e); [by eapply lookup_weaken|]. apply HP; [by exists e|done].
  - apply (goes_dependent _ _ a e); [by eapply lookup_weaken|done].
Qed.

(** Exactly those stay that do not go. *)
Lemma removed_exact P m m' a e : removed P m m' -> m' !! a = Some e <-> m !! a = Some e /\ ~ goes P m a.
Proof.
  intros [Hs Hg Hp Hc]. split.
  - intros E. pose proof (lookup_weaken _ _ _ _ E Hs) as Em. split; [done|]. intros Ha. revert e E Em.
    induction Ha as [a e' E' Ha|a e' E' Hd IH]; intros e E Em; [by rewrite Hp in E|].
    assert (e' = e) as -> by congruence.
    destruct (Hc a e E) as [d Ed]; [destruct Hd; by eexists|].
    by apply (IH d Ed), (lookup_weaken _ _ _ _ Ed Hs).
  - intros [E Hn]. destruct (m' !! a) as [e'|] eqn:E'; [|by destruct Hn; apply Hg].
    by rewrite (lookup_weaken _ _ _ _ E' Hs) in E.
Qed.

Lemma removed_nothing m : removed (fun a => a ∈ []) m m.
Proof. split; [done|..]; [by intros a [? ->]|by intros a ?%elem_of_nil|done]. Qed.

Lemma removed_widen (P Q : Account -> Prop) m m' :
  (forall a, is_Some (m !! a) -> P a -> Q a) -> (forall a, Q a -> m' !! a = None) -> removed P m m' -> removed Q m m'.
Proof.
  intros HP HQ [Hs Hg Hp Hc]. split; try done. intros a Ha En. eapply goes_mono; [exact HP|done|by apply Hg].
Qed.

Lemma removed_then (P Q : Account -> Prop) m m1 m2 :
  removed P m m1 -> removed Q m1 m2 -> removed (fun a => P a \/ Q a) m m2.
Proof.
  intros [Hs1 Hg1 Hp1 Hc1] [Hs2 Hg2 Hp2 Hc2]. split.
  - by etrans.
  - intros a Ha En. destruct (m1 !! a) as [e|] eqn:E1.
    + eapply goes_mono; [|exact Hs1|apply Hg2; [by eexists|done]]. auto.
    + apply (goes_mono P _ m m); [auto|done|by apply Hg1].
  - intros a [Ha|Ha]; [|by apply Hp2]. eapply lookup_weaken_None; [|exact Hs2]. by apply Hp1.
  - intros a e E Hd. apply (Hc2 a e E), (Hc1 a e); [by eapply lookup_weaken|done].
Qed.

(** One account is taken off, and its dependents [l] are next. *)
Lemma removed_cons a e (l stack : list Account) m m' :
  m !! a = Some e -> (forall x, x ∈ l <-> exists e, delete a m !! x = Some e /\ bl_dependency_account e = a) ->
  removed (fun x => x ∈ reverse l ++ stack) (delete a m) m' -> removed (fun x => x ∈ a :: stack) m m'.
Proof.
  intros E Hl [Hs Hg Hp Hc].
  assert (goes (fun x => x ∈ a :: stack) m a) as Ha by (apply (goes_first _ _ a e); [done|by left]). split.
  - etrans; [exact Hs|apply delete_subseteq].
  - intros x Hx En. destruct (decide (x = a)) as [->|Hne]; [done|].
    assert (goes (fun x => x ∈ reverse l ++ stack) (delete a m) x) as Hgo by (apply Hg; [by rewrite lookup_delete_ne|done]).
    clear Hx En Hne. induction Hgo as [x ex Ex Hin|x ex Ex _ IH]; apply lookup_delete_Some in Ex as [Hne Ex].
    + apply elem_of_app in Hin as [Hin|Hin]; [|apply (goes_first _ _ x ex); [done|by right]].
      apply elem_of_reverse, Hl in Hin as (ex' & [_ Ex']%lookup_delete_Some & Ed).
      assert (ex' = ex) as -> by congruence. apply (goes_dependent _ _ x ex); [done|by rewrite Ed].
    + by apply (goes_dependent _ _ x ex).
  - intros x [->|Hx]%elem_of_cons; [|apply Hp, elem_of_app; by right].
    eapply lookup_weaken_None; [|exact Hs]. apply lookup_delete_eq.
  - intros x ex Ex Hd. destruct (decide (bl_dependency_account ex = a)) as [Ed|Hne].
    + exfalso. assert (x ∈ l) as Hx by (apply Hl; exists ex; split; [by eapply lookup_weaken|done]).
      rewrite Hp in Ex; [done|]. apply elem_of_app. left. by apply elem_of_reverse.
    + apply (Hc x ex Ex). by rewrite lookup_delete_ne.
Qed.

(** The accounts of the stack are removed, and what depends on them. *)
Lemma remove_dependents_loop_ok fuel stack count b :
  blocking_ok b -> (length stack + size (dependent (bc_by_account b)) < fuel)%nat ->
  exists n b', remove_dependents_loop fuel stack count b = Finished (n, b') /\ blocking_ok b' /\
    removed (fun a => a ∈ stack) (bc_by_account b) (bc_by_account b') /\
    (n + size (bc_by_account b') = count + size (bc_by_account b))%nat.
Proof.
  revert stack count b. induction fuel as [|fuel IH]; intros stack count b Hb Hf; [lia|]. cbn [remove_dependents_loop].
  destruct stack as [|a stack]; [exists count, b; split_and!; try done; apply removed_nothing|]. cbn [length] in Hf.
  destruct (bc_remove_account_ok a b Hb) as (b1 & -> & Hb1 & E1). cbn [unwrap mbind run_bind].
  destruct (bc_by_account b !! a) as [e|] eqn:E.
  - destruct (bo_entry _ Hb _ _ E) as [Ea _]. rewrite Ea. destruct (bo_dependency_account _ Hb1 a) as (Hnd & _ & Hd).
    set (l := default [] (bc_by_dependency_account b1 !! a)) in *. rewrite E1 in Hd.
    pose proof (dependent_delete (bc_by_account b) a l (ex_intro _ e E) Hnd Hd) as Hs. rewrite <- E1 in Hs.
    destruct (IH (reverse l ++ stack) (S count) b1 Hb1) as (n & b' & -> & Hb' & Hrm & Hn).
    { rewrite length_app, length_reverse. lia. }
    exists n, b'. split; [done|]. split; [done|]. rewrite E1 in Hrm, Hn. split; [by eapply removed_cons|].
    rewrite map_size_delete, E in Hn. assert (size (bc_by_account b) <> 0%nat); [|lia].
    intros H0%map_size_empty_inv. by rewrite H0, lookup_empty in E.
  - rewrite delete_id in E1 by done. destruct (IH stack count b1 Hb1) as (n & b' & -> & Hb' & Hrm & Hn); [rewrite E1; lia|].
    exists n, b'. rewrite E1 in Hrm, Hn. split_and!; try done.
    eapply removed_widen; [|..|exact Hrm]; [intros x _ ?; by right|]. intros x [->|Hx]%elem_of_cons; [|by apply Hrm].
    eapply lookup_weaken_None; [done|apply Hrm].
Qed.

Lemma remove_account_and_dependents_ok a b :
  blocking_ok b ->
  exists n b', remove_account_and_dependents a b = Finished (n, b') /\ blocking_ok b' /\
    removed (fun x => x ∈ [a]) (bc_by_account b) (bc_by_account b') /\
    (n + size (bc_by_account b') = size (bc_by_account b))%nat.
Proof.
  intros Hb. apply (remove_dependents_loop_ok (S (S (size (bc_by_account b)))) [a] 0 b Hb).
  cbn. assert (size (dependent (bc_by_account b)) <= size (bc_by_account b))%nat; [|lia].
  unfold dependent. rewrite size_dom. apply map_size_filter.
Qed.

Lemma remove_each_ok accounts count b :
  blocking_ok b ->
  exists n b', remove_each accounts count b = Finished (n, b') /\ blocking_ok b' /\
    removed (fun a => a ∈ accounts) (bc_by_account b) (bc_by_account b') /\
    (n + size (bc_by_account b') = count + size (bc_by_account b))%nat.
Proof.
  revert count b. induction accounts as [|a accounts IH]; intros count b Hb; cbn [remove_each].
  { exists count, b. split_and!; try done. apply removed_nothing. }
  destruct (remove_account_and_dependents_ok a b Hb) as (n1 & b1 & -> & Hb1 & Hr1 & Hn1). cbn [mbind run_bind].
  destruct (IH (count + n1)%nat b1 Hb1) as (n & b' & -> & Hb' & Hr & Hn). exists n, b'. split; [done|]. split; [done|].
  split; [|lia]. pose proof (removed_then _ _ _ _ _ Hr1 Hr) as Hboth. eapply removed_widen; [| |exact Hboth].
  - intros x _ [->%list_elem_of_singleton|Hx]; [by left|by right].
  - intros x [->|Hx]%elem_of_cons; apply Hboth; [left; by apply list_elem_of_singleton|by right].
Qed.

Lemma size_lt {K A} `{Countable K} (m m' : gmap K A) k :
  m' ⊆ m -> is_Some (m !! k) -> m' !! k = None -> (size m' < size m)%nat.
Proof.
  intros Hs [a E] En. apply map_subset_size. split; [done|]. intros Hs'. by rewrite (lookup_weaken _ _ _ _ E Hs') in En.
Qed.

Lemma index_first {K B A} `{Countable K} `{Countable B} (key : A -> K) m (idx : gmap K (list B)) k l :
  index_ok key m idx -> idx !! k = Some l -> exists x l', l = x :: l' /\ exists a, m !! x = Some a /\ key a = k.
Proof.
  intros Hi E. destruct (Hi k) as (_ & Hn & He). rewrite E in Hn, He. destruct l as [|x l]; [done|]. exists x, l. split; [done|].
  apply He. by left.
Qed.

(** Blocked before the cutoff. *)
Definition outdated (cutoff : Timestamp) (m : gmap Account BlockingEntry) (a : Account) : Prop :=
  exists e, m !! a = Some e /\ bl_added e < cutoff.

(** The first timestamp is not before the cutoff, or there is none. *)
Lemma none_outdated cutoff b :
  blocking_ok b -> match btm_first Z.compare (bc_by_timestamp b) with Some (t, _) => cutoff <= t | None => True end ->
  forall a, ~ outdated cutoff (bc_by_account b) a.
Proof.
  intros Hb Hf a (e & E & Hlt). destruct (bo_timestamp _ Hb (bl_added e)) as (_ & _ & He).
  assert (a ∈ default [] (bc_by_timestamp b !! bl_added e)) as Ha by (apply He; by eexists).
  destruct (bc_by_timestamp b !! bl_added e) as [l'|] eqn:El; [|by apply elem_of_nil in Ha].
  destruct (btm_first Z.compare (bc_by_timestamp b)) as [[t l]|] eqn:Ef.
  - pose proof (btm_first_least _ _ _ _ _ _ Z_key_order Ef El) as Hge. change (t <= bl_added e) in Hge. lia.
  - apply btm_first_None in Ef. by rewrite Ef, lookup_empty in El.
Qed.

Lemma removed_older cutoff t (l : list Account) m m1 m2 :
  t < cutoff -> (forall a, a ∈ l -> exists e, m !! a = Some e /\ bl_added e = t) ->
  removed (fun a => a ∈ l) m m1 -> removed (outdated cutoff m1) m1 m2 -> removed (outdated cutoff m) m m2.
Proof.
  intros Ht Hl H1 H2. eapply removed_widen; [| |exact (removed_then _ _ _ _ _ H1 H2)].
  - intros a _ [Ha|(e & E & Hlt)].
    + destruct (Hl a Ha) as (e & E & <-). by exists e.
    + exists e. split; [eapply lookup_weaken; [done|apply H1]|done].
  - intros a (e & E & Hlt). destruct (m1 !! a) as [e1|] eqn:E1; [|eapply lookup_weaken_None; [done|apply H2]].
    apply (rm_gone _ _ _ H2). exists e1. split; [done|].
    rewrite (lookup_weaken _ _ _ _ E1 (rm_sub _ _ _ H1)) in E. by injection E as ->.
Qed.

(** What was added before the cutoff goes, with what depends on it. *)
Lemma remove_older_loop_ok fuel cutoff count b :
  blocking_ok b -> (size (bc_by_account b) < fuel)%nat ->
  exists n b', remove_older_loop fuel cutoff count b = Finished (n, b') /\ blocking_ok b' /\
    removed (outdated cutoff (bc_by_account b)) (bc_by_account b) (bc_by_account b') /\
    (n + size (bc_by_account b') = count + size (bc_by_account b))%nat.
Proof.
  assert (forall m, (forall a, ~ outdated cutoff m a) -> removed (outdated cutoff m) m m) as Hnone.
  { intros m Hm. split; [done|by intros a [? ->]|by intros a ?%Hm|done]. }
  revert count b. induction fuel as [|fuel IH]; intros count b Hb Hf; [lia|]. cbn [remove_older_loop].
  pose proof (none_outdated cutoff b Hb) as Hno.
  destruct (btm_first Z.compare (bc_by_timestamp b)) as [[t l]|] eqn:Ef.
  - destruct (Z.leb_spec cutoff t) as [Hle|Hlt]; [exists count, b; split_and!; try done; by apply Hnone, Hno|].
    destruct (remove_each_ok l count b Hb) as (n1 & b1 & -> & Hb1 & Hr1 & Hn1). cbn [mbind run_bind].
    destruct (index_first bl_added _ _ t l (bo_timestamp _ Hb) (btm_first_lookup _ _ _ _ Ef)) as (a & l' & El & e & Ea & _).
    assert (a ∈ l) as Ha by (rewrite El; by left).
    pose proof (size_lt _ _ a (rm_sub _ _ _ Hr1) (ex_intro _ e Ea) (rm_gone _ _ _ Hr1 a Ha)).
    destruct (IH n1 b1 Hb1) as (n & b' & -> & Hb' & Hr & Hn); [lia|]. exists n, b'. split_and!; try done; [|lia].
    eapply removed_older; [exact Hlt| |done|done]. intros x Hx. destruct (bo_timestamp _ Hb t) as (_ & _ & He).
    apply He. by rewrite (btm_first_lookup _ _ _ _ Ef).
  - exists count, b. split_and!; try done. by apply Hnone, Hno.
Qed.

Lemma remove_oldest_ok b :
  blocking_ok b -> (0 < bc_len b)%nat ->
  exists n b', remove_oldest b = Finished (n, b') /\ blocking_ok b' /\ bc_by_account b' ⊆ bc_by_account b /\
    (bc_len b' < bc_len b)%nat.
Proof.
  intros Hb Hl. unfold remove_oldest. destruct (head (bc_sequenced b)) as [a|] eqn:Eh.
  2: { apply head_None in Eh. unfold bc_len in Hl. rewrite Eh in Hl. cbn in Hl. lia. }
  destruct (remove_account_and_dependents_ok a b Hb) as (n & b' & -> & Hb' & Hr & _). exists n, b'.
  split; [done|]. split; [done|]. split; [apply Hr|]. rewrite !bc_len_size by done.
  apply (size_lt _ _ a); [apply Hr| |apply Hr; by apply list_elem_of_singleton].
  apply head_Some_elem_of in Eh. rewrite (bo_seq _ Hb) in Eh. apply list_elem_of_fmap in Eh as ([a' e] & -> & E%elem_of_map_to_list).
  by exists e.
Qed.

(** Another account is known to hold the dependency. *)
Lemma set_dependency_account_ok a d b :
  blocking_ok b -> is_Some (bc_by_account b !! a) ->
  exists u b', set_dependency_account a d b = Some (u, b') /\ blocking_ok b' /\
    dom (bc_by_account b') = dom (bc_by_account b).
Proof.
  intros Hb [e E]. unfold set_dependency_account. rewrite E. cbn [mbind option_bind].
  destruct (bl_dependency_account e =? d); [by eexists _, b|]. destruct Hb as [H1 H2 H3 H4 H5].
  destruct (H1 _ _ E) as [Ea Hn]. cbn [bl_account]. rewrite Ea.
  set (e' := mkBlockingEntry a (bl_dependency e) d (bl_added e)).
  destruct (index_remove_ok bl_dependency_account _ _ a e H4 E) as (i & Ei & Hi). unfold index_remove in Ei.
  destruct (bc_by_dependency_account b !! bl_dependency_account e) as [old|] eqn:Eo; [|done]. cbn [mbind option_bind] in Ei |- *.
  assert (old <> []) as Hold by (intros ->; by destruct (H4 (bl_dependency_account e)) as (_ & ? & _)).
  assert ((if (length old =? 1)%nat then delete (bl_dependency_account e) (bc_by_dependency_account b)
           else <[bl_dependency_account e := filter (fun x => x <> a) old]> (bc_by_dependency_account b)) = i) as ->.
  { injection Ei as <-. destruct old as [|? [|]]; done. }
  eexists _, _. split; [done|]. split; [|cbn; rewrite dom_insert_L; apply elem_of_dom_2 in E; set_solver].
  split; cbn.
  - by apply map_Forall_insert_2.
  - rewrite H2, <- (insert_delete_id (bc_by_account b) a e E) at 1. rewrite <- (insert_delete_eq _ a e').
    by rewrite !map_to_list_insert by apply lookup_delete_eq.
  - by eapply index_update.
  - rewrite <- insert_delete_eq. apply (index_push_ok bl_dependency_account _ _ a e'); [done|apply lookup_delete_eq].
  - by eapply index_update.
Qed.

Lemma set_dependency_accounts_ok accounts d updated b :
  blocking_ok b -> Forall (fun a => is_Some (bc_by_account b !! a)) accounts ->
  exists n b', set_dependency_accounts accounts d updated b = Some (n, b') /\ blocking_ok b' /\
    dom (bc_by_account b') = dom (bc_by_account b).
Proof.
  revert updated b. induction accounts as [|a accounts IH]; intros updated b Hb Hf; cbn [set_dependency_accounts]; [by eexists _, b|].
  apply Forall_cons in Hf as [Ha Hf]. destruct (set_dependency_account_ok a d b Hb Ha) as (u & b1 & -> & Hb1 & E1).
  cbn [mbind option_bind]. destruct (IH (if u then S updated else updated) b1 Hb1) as (n & b' & -> & Hb' & E').
  { eapply Forall_impl; [exact Hf|]. cbn. intros x. by rewrite <- !elem_of_dom, E1. }
  exists n, b'. by rewrite E', E1.
Qed.

Lemma modify_dependency_account_ok h d b :
  blocking_ok b ->
  exists n b', modify_dependency_account h d b = Some (n, b') /\ blocking_ok b' /\ dom (bc_by_account b') = dom (bc_by_account b).
Proof.
  intros Hb. unfold modify_dependency_account. destruct (bc_by_dependency b !! h) as [l|] eqn:E; [|by eexists _, b].
  apply set_dependency_accounts_ok; [done|]. apply Forall_forall. intros a Ha. destruct (bo_dependency _ Hb h) as (_ & _ & He).
  rewrite E in He. apply He in Ha as (e & Ee & _). by exists e.
Qed.

(** ** Candidate accounts *)

(** The invariant but for the bounds, which [trim_overflow] restores. *)
Record untrimmed (config : CandidateAccountsConfig) (c : CandidateAccounts) : Prop := {
  un_config : cn_config c = config;
  un_priorities : priorities_ok (cn_priorities c);
  un_blocking : blocking_ok (cn_blocking c);
  un_disjoint : forall a, is_Some (bc_by_account (cn_blocking c) !! a) -> pc_by_account (cn_priorities c) !! a = None;
}.

Record candidates_ok (config : CandidateAccountsConfig) (c : CandidateAccounts) : Prop := {
  ca_untrimmed : untrimmed config c;
  ca_priorities_max : (pc_len (cn_priorities c) <= cac_priorities_max config)%nat;
  ca_blocking_max : (bc_len (cn_blocking c) <= cac_blocking_max config)%nat;
}.

(** Fewer accounts are fine. *)
Lemma candidates_shrink config c p b :
  candidates_ok config c -> priorities_ok p -> blocking_ok b ->
  dom (pc_by_account p) ⊆ dom (pc_by_account (cn_priorities c)) ->
  dom (bc_by_account b) ⊆ dom (bc_by_account (cn_blocking c)) ->
  candidates_ok config (mkCandidateAccounts (cn_config c) p b).
Proof.
  intros [[Hc Hp Hb Hd] Hpm Hbm] Hp' Hb' Hsp Hsb. split.
  - split; [done|done|done|]. cbn. intros a Ha. apply not_elem_of_dom. intros Hx%Hsp.
    apply elem_of_dom, Hsb, elem_of_dom, Hd, not_elem_of_dom in Ha. done.
  - cbn. unfold pc_len in *. rewrite <- !size_dom in *. apply subseteq_size in Hsp. lia.
  - cbn in *. rewrite !bc_len_size in * by done. rewrite <- !size_dom in *. apply subseteq_size in Hsb. lia.
Qed.

(** An account that is neither zero nor blocked may get a priority. *)
Lemma untrimmed_insert config c a :
  untrimmed config c -> a <> 0 -> bc_by_account (cn_blocking c) !! a = None ->
  untrimmed config (with_priorities (pc_insert (priority_entry_new a PRIORITY_INITIAL) (cn_priorities c)).2 c).
Proof.
  intros [Hc Hp Hb Hd] Ha Hn. destruct (pc_insert_ok a (cn_priorities c) PRIORITY_INITIAL Hp Ha eq_refl) as [Hp' E].
  split; cbn [with_priorities cn_config cn_priorities cn_blocking]; [done..|]. intros x Hx. rewrite E. destruct (decide _); [by apply Hd|].
  rewrite lookup_insert_ne; [by apply Hd|]. intros <-. rewrite Hn in Hx. by destruct Hx.
Qed.

Lemma priority_set_impl_ok config c a :
  untrimmed config c ->
  untrimmed config (with_priorities (priority_set_impl a PRIORITY_INITIAL (cn_blocking c) (cn_priorities c)).2 c).
Proof.
  intros Hc. unfold priority_set_impl, bc_contains. destruct (Z.eqb_spec a 0); [by destruct Hc; split|].
  destruct (bool_decide_reflect (is_Some (bc_by_account (cn_blocking c) !! a))) as [|Hn]; [by destruct Hc; split|].
  destruct (pc_contains a (cn_priorities c)); [by destruct Hc; split|]. cbn [orb snd]. apply untrimmed_insert; [done|done|].
  by apply eq_None_not_Some.
Qed.

Section candidates.
Context `{OL : OrderedFloatLaws} `{HL : HashOrderLaws}.

Lemma trim_priorities_ok fuel max p :
  priorities_ok p -> (pc_len p < fuel)%nat ->
  exists p', trim_priorities fuel max p = Finished p' /\ priorities_ok p' /\ pc_by_account p' ⊆ pc_by_account p /\
    (pc_len p' <= max)%nat.
Proof using HL.
  revert p. induction fuel as [|fuel IH]; intros p Hp Hf; [lia|]. cbn [trim_priorities]. unfold pc_is_empty, pc_len in *.
  destruct (bool_decide_reflect (pc_by_account p = ∅)) as [He|Hne]; cbn [negb andb].
  { exists p. rewrite He, map_size_empty. split; [done|]. split; [done|]. split; [done|lia]. }
  destruct (Nat.ltb_spec max (size (pc_by_account p))) as [Hlt|]; [|by exists p].
  destruct (pop_lowest_prio_ok p Hp Hne) as (a & e & p1 & -> & Hp1 & Ea & E1). cbn [unwrap mbind run_bind].
  destruct (IH p1 Hp1) as (p' & -> & Hp' & Hs & Hm).
  - rewrite E1, map_size_delete, Ea. lia.
  - exists p'. split; [done|]. split; [done|]. split; [|done]. rewrite E1 in Hs. etrans; [exact Hs|apply delete_subseteq].
Qed.

Lemma trim_blocking_ok fuel max b :
  blocking_ok b -> (bc_len b < fuel)%nat ->
  exists b', trim_blocking fuel max b = Finished b' /\ blocking_ok b' /\ bc_by_account b' ⊆ bc_by_account b /\
    (bc_len b' <= max)%nat.
Proof.
  revert b. induction fuel as [|fuel IH]; intros b Hb Hf; [lia|]. cbn [trim_blocking].
  destruct (Nat.ltb_spec max (bc_len b)) as [Hlt|]; [|by exists b].
  destruct (remove_oldest_ok b Hb) as (n & b1 & -> & Hb1 & Hs1 & Hl1); [lia|]. cbn [mbind run_bind].
  destruct (IH b1 Hb1) as (b' & -> & Hb' & Hs & Hm); [lia|]. exists b'. split; [done|]. split; [done|]. split; [by etrans|done].
Qed.

Lemma trim_overflow_ok config c :
  untrimmed config c -> exists c', trim_overflow c = Finished c' /\ candidates_ok config c'.
Proof using HL.
  intros [Hc Hp Hb Hd]. unfold trim_overflow. rewrite Hc.
  destruct (trim_priorities_ok _ (cac_priorities_max config) _ Hp (Nat.lt_succ_diag_r _)) as (p & -> & Hp' & Hsp & Hpm).
  destruct (trim_blocking_ok _ (cac_blocking_max config) _ Hb (Nat.lt_succ_diag_r _)) as (b & -> & Hb' & Hsb & Hbm).
  eexists. split; [done|]. split; [|done|done]. split; [done|done|done|]. cbn. intros a [e Ea].
  eapply lookup_weaken_None; [|exact Hsp]. apply Hd. exists e. by eapply lookup_weaken.
Qed.

(** ** Operations *)

Lemma modify_dom a f p r p' :
  pc_modify a f p = Some (r, p') ->
  pc_by_account p' = partial_alter (fun o => e ← o; if (f e).1 then Some (f e).2 else None) a (pc_by_account p) ->
  dom (pc_by_account p') ⊆ dom (pc_by_account p).
Proof.
  intros _ ->. intros x. rewrite !elem_of_dom. destruct (decide (x = a)) as [->|]; [|by rewrite lookup_partial_alter_ne].
  rewrite lookup_partial_alter_eq. destruct (pc_by_account p !! a); [by eexists|by intros [??]].
Qed.

Lemma unsigned_min a b : unsigned a = true -> unsigned b = true -> unsigned (priority_min a b) = true.
Proof. unfold priority_min. by destruct (priority_le a b). Qed.

Lemma priority_up_ok config a c :
  candidates_ok config c -> exists r c', priority_up a c = Finished (r, c') /\ candidates_ok config c'.
Proof using OL HL.
  intros Hc. unfold priority_up, candidates_blocked, bc_contains. destruct (Z.eqb_spec a 0) as [|Ha]; [by eexists _, c|].
  destruct (bool_decide_reflect (is_Some (bc_by_account (cn_blocking c) !! a))) as [|Hn]; [by eexists _, c|].
  pose proof (ca_untrimmed _ _ Hc) as [Hcf Hp Hb Hd].
  destruct (pc_modify_ok a (fun e => (true, mkPriorityEntry (pr_account e) (higher_priority (pr_priority e)) 0 (pr_last_request e)))
              (cn_priorities c) Hp) as (r & p & Em & Hp' & Hnf & Ep).
  { intros e Hu. split; [done|]. split; [|done]. by apply unsigned_min; [apply unsigned_add|]. }
  rewrite Em. cbn [unwrap mbind run_bind].
  assert (candidates_ok config (with_priorities p c)) as Hu by (apply candidates_shrink; [done..|by eapply modify_dom|done]).
  destruct r; [by eexists _, _|by eexists _, _|]. destruct (Hnf eq_refl) as [-> _].
  destruct (pc_insert (priority_entry_new a PRIORITY_INITIAL) (cn_priorities c)) as [i p1] eqn:Ei.
  destruct (trim_overflow_ok config (with_priorities p1 c)) as (c' & -> & Hc'); [|by eexists _, c'].
  change p1 with ((i, p1).2). rewrite <- Ei. apply untrimmed_insert; [apply Hc|done|by apply eq_None_not_Some].
Qed.

Lemma priority_down_ok config a c :
  candidates_ok config c -> exists r c', priority_down a c = Finished (r, c') /\ candidates_ok config c'.
Proof using OL HL.
  intros Hc. unfold priority_down. destruct (Z.eqb_spec a 0); [by eexists _, c|]. pose proof (ca_untrimmed _ _ Hc) as [_ Hp Hb _].
  destruct (pc_modify_ok a lower_entry (cn_priorities c) Hp) as (r & p & Em & Hp' & _ & Ep).
  { intros e Hu. unfold lower_entry. destruct (_ || _); [done|]. cbn. split; [done|]. split; [by apply unsigned_div|done]. }
  rewrite Em. eexists _, _. split; [done|]. apply candidates_shrink; [done..|by eapply modify_dom|done].
Qed.

Lemma priority_set_ok config a c :
  candidates_ok config c -> exists r c', priority_set_initial a c = Finished (r, c') /\ candidates_ok config c'.
Proof using HL.
  intros Hc. unfold priority_set_initial, priority_set. pose proof (priority_set_impl_ok config c a (ca_untrimmed _ _ Hc)) as Hu.
  destruct (priority_set_impl a PRIORITY_INITIAL (cn_blocking c) (cn_priorities c)) as [i p].
  cbn [snd] in Hu. destruct (trim_overflow_ok config _ Hu) as (c' & -> & Hc'). by eexists _, c'.
Qed.

Lemma priority_erase_ok config a c :
  candidates_ok config c -> exists r c', priority_erase a c = Finished (r, c') /\ candidates_ok config c'.
Proof.
  intros Hc. unfold priority_erase. destruct (a =? 0); [by eexists _, c|]. pose proof (ca_untrimmed _ _ Hc) as [_ Hp Hb _].
  destruct (pc_remove_ok a _ Hp) as (p & -> & Hp' & E). eexists _, _. split; [done|].
  apply candidates_shrink; [done..| |done]. rewrite E, dom_delete_L. set_solver.
Qed.

Lemma candidates_block_ok config a h now c :
  candidates_ok config c -> exists r c', candidates_block a h now c = Finished (r, c') /\ candidates_ok config c'.
Proof using OL HL.
  intros Hc. unfold candidates_block. pose proof (ca_untrimmed _ _ Hc) as [Hcf Hp Hb Hd].
  destruct (pc_remove_ok a _ Hp) as (p & -> & Hp' & E). cbn [unwrap mbind run_bind].
  destruct (pc_by_account (cn_priorities c) !! a) as [e|] eqn:Ea.
  2: { eexists _, _. split; [done|]. apply candidates_shrink; [done..| |done]. rewrite E, dom_delete_L. set_solver. }
  destruct (po_entry _ Hp _ _ Ea) as (_ & Hn & _). set (entry := mkBlockingEntry a h 0 now).
  assert (bc_by_account (cn_blocking c) !! a = None) as Hna.
  { apply eq_None_not_Some. intros Hx%Hd. congruence. }
  destruct (bc_insert_ok (cn_blocking c) entry Hb Hn Hna) as [Hb' Eb]. destruct (bc_insert entry (cn_blocking c)) as [i b].
  cbn [snd] in Hb', Eb. destruct (trim_overflow_ok config (mkCandidateAccounts (cn_config c) p b)) as (c' & -> & Hc'); [|by eexists _, c'].
  split; [done|done|done|]. cbn. rewrite E, Eb. intros x Hx. destruct (decide (x = a)) as [->|]; [apply lookup_delete_eq|].
  rewrite lookup_delete_ne by done. cbn in Hx. rewrite lookup_insert_ne in Hx by done. by apply Hd.
Qed.

Lemma candidates_unblock_ok config a h c :
  candidates_ok config c -> exists r c', candidates_unblock a h c = Finished (r, c') /\ candidates_ok config c'.
Proof using OL HL.
  intros Hc. unfold candidates_unblock, bc_get. destruct (Z.eqb_spec a 0) as [|Ha]; [by eexists _, c|].
  pose proof (ca_untrimmed _ _ Hc) as [Hcf Hp Hb Hd].
  destruct (bc_by_account (cn_blocking c) !! a) as [e|] eqn:Ea; [|by eexists _, c].
  destruct (match h with Some h => _ | None => true end); [|by eexists _, c].
  destruct (bc_remove_account_ok a _ Hb) as (b & -> & Hb' & Eb). cbn [unwrap mbind run_bind].
  assert (untrimmed config (mkCandidateAccounts (cn_config c) (cn_priorities c) b)) as Hu.
  { split; [done|done|done|]. cbn. rewrite Eb. intros x [y [_ Hy]%lookup_delete_Some]. apply Hd. by exists y. }
  apply (untrimmed_insert config _ a) in Hu; [|done|cbn; rewrite Eb; apply lookup_delete_eq].
  cbn [cn_priorities cn_config cn_blocking with_priorities] in Hu.
  destruct (pc_insert (priority_entry_new a PRIORITY_INITIAL) (cn_priorities c)) as [i p].
  destruct (trim_overflow_ok config _ Hu) as (c' & E' & Hc'). unfold with_priorities in E'.
  cbn [snd cn_config cn_blocking] in E'. rewrite E'. by eexists _, c'.
Qed.

(** What was blocked before the cutoff goes, with what depends on it. *)
Lemma decay_blocking_ok config now c :
  candidates_ok config c ->
  exists n c', decay_blocking now c = Finished (n, c') /\ candidates_ok config c' /\
    cn_priorities c' = cn_priorities c /\ (n + bc_len (cn_blocking c') = bc_len (cn_blocking c))%nat /\
    removed (outdated (now - cac_blocking_decay config) (bc_by_account (cn_blocking c)))
      (bc_by_account (cn_blocking c)) (bc_by_account (cn_blocking c')).
Proof.
  intros Hc. unfold decay_blocking, remove_older_than. pose proof (ca_untrimmed _ _ Hc) as [Hcf Hp Hb Hd]. rewrite Hcf.
  destruct (remove_older_loop_ok _ (now - cac_blocking_decay config) 0 _ Hb (Nat.lt_succ_diag_r _)) as (n & b & -> & Hb' & Hr & Hn).
  eexists _, _. split; [done|]. split; [|split; [done|]; split; [by rewrite !bc_len_size|done]].
  apply candidates_shrink; [done..|]. by apply subseteq_dom, Hr.
Qed.

Lemma set_last_request_ok config a t c :
  candidates_ok config c -> candidates_ok config (with_priorities (pc_set_last_request a t (cn_priorities c)) c).
Proof.
  intros Hc. pose proof (ca_untrimmed _ _ Hc) as [Hcf Hp Hb Hd]. apply candidates_shrink; [done| |done| |done].
  - destruct Hp as [He Hi]. split; cbn.
    + intros x e. rewrite lookup_alter_Some. intros [(<- & e' & E' & ->)|[_ E']]; cbn; by apply (He _ _ E').
    + destruct (pc_by_account (cn_priorities c) !! a) as [e|] eqn:E; [|by rewrite alter_id by naive_solver].
      rewrite <- (insert_id (pc_by_account (cn_priorities c)) a e E) at 1. rewrite alter_insert_eq. by eapply set_index_update.
  - cbn. by rewrite dom_alter_L.
Qed.

Lemma dependency_update_ok config h a c :
  candidates_ok config c -> exists n c', dependency_update h a c = Finished (n, c') /\ candidates_ok config c'.
Proof using OL HL.
  intros Hc. unfold dependency_update. pose proof (ca_untrimmed _ _ Hc) as [Hcf Hp Hb Hd].
  destruct (modify_dependency_account_ok h a _ Hb) as (n & b & -> & Hb' & Eb). cbn [unwrap mbind run_bind].
  assert (candidates_ok config (with_blocking b c)) as Hc1 by (apply candidates_shrink; [done..|by rewrite Eb]).
  destruct (_ && _); [|by eexists _, _].
  pose proof (priority_set_impl_ok config _ a (ca_untrimmed _ _ Hc1)) as Hu.
  destruct (priority_set_impl a PRIORITY_INITIAL (cn_blocking (with_blocking b c)) (cn_priorities (with_blocking b c))) as [i p] eqn:Es.
  cbn [snd] in Hu. destruct i.
  - destruct (trim_overflow_ok config _ Hu) as (c' & -> & Hc'). by eexists _, c'.
  - eexists _, _. split; [done|]. unfold priority_set_impl in Es. destruct (_ || _) in Es; [|done]. by injection Es as <-.
Qed.

Lemma sync_loop_ok config accounts n c :
  untrimmed config c -> Forall (fun a => is_Some (bc_by_account (cn_blocking c) !! a)) accounts ->
  exists n' c', sync_loop accounts n c = Some (n', c') /\ untrimmed config c'.
Proof.
  revert n c. induction accounts as [|a accounts IH]; intros n c Hc Hf; cbn [sync_loop]; [by eexists _, c|].
  apply Forall_cons in Hf as [[e Ea] Hf]. rewrite Ea. cbn [mbind option_bind]. destruct (priority_full c); [by eexists _, c|].
  pose proof (priority_set_impl_ok config c (bl_dependency_account e) Hc) as Hu.
  destruct (priority_set_impl _ _ _ _) as [i p]. by apply IH.
Qed.

Lemma sync_dependencies_ok config c :
  candidates_ok config c -> exists n c', sync_dependencies c = Finished (n, c') /\ candidates_ok config c'.
Proof using OL HL.
  intros Hc. unfold sync_dependencies. pose proof (ca_untrimmed _ _ Hc) as Hu.
  destruct (sync_loop_ok config (mjoin (dep_accounts_from 1 (cn_blocking c))) 0 c Hu) as (n & c1 & -> & Hc1).
  - apply Forall_forall. intros a (l & Ha & Hl)%list_elem_of_join. unfold dep_accounts_from in Hl.
    apply list_elem_of_fmap in Hl as ([k l'] & -> & [_ E%elem_of_btm_entries]%list_elem_of_filter).
    destruct (bo_dependency_account _ (un_blocking _ _ Hu) k) as (_ & _ & He). rewrite E in He.
    apply He in Ha as (e & Ee & _). by exists e.
  - cbn [unwrap mbind run_bind]. destruct (trim_overflow_ok config c1 Hc1) as (c' & -> & Hc'). by eexists _, c'.
Qed.

(** ** What is chosen *)

(** The chosen entry passes, and none that passes has a higher priority. *)
Definition best_entry (P : PriorityEntry -> bool) (m : gmap Account PriorityEntry) (r : option PriorityEntry) : Prop :=
  match r with
  | None => map_Forall (fun _ e => P e = false) m
  | Some e => m !! pr_account e = Some e /\ P e = true /\
      map_Forall (fun _ e' => P e' = true -> priority_le (pr_priority e') (pr_priority e) = true) m
  end.

Lemma find_entry_ok P m l :
  StronglySorted (in_key_order pr_priority priority_desc m) l -> Forall (fun a => is_Some (m !! a)) l ->
  map_Forall (fun a e => pr_account e = a) m -> map_Forall (fun a e => P e = true -> a ∈ l) m ->
  exists r, find_entry P l m = Some r /\ best_entry P m r.
Proof using OL.
  intros Hs. revert Hs. induction 1 as [|a l Hs IH Hall]; intros Hf Ha Hin; cbn [find_entry].
  - exists None. split; [done|]. intros a e E. destruct (P e) eqn:Ep; [|done]. by apply (Hin _ _ E), elem_of_nil in Ep.
  - apply Forall_cons in Hf as [[e E] Hf]. rewrite E. cbn [mbind option_bind]. destruct (P e) eqn:Ep.
    + exists (Some e). split; [done|]. split; [by rewrite (Ha _ _ E)|]. split; [done|]. intros x e' Ex Hp.
      rewrite Forall_forall in Hall. unfold priority_le. apply (Hin _ _ Ex), elem_of_cons in Hp as [->|Hx].
      * simplify_eq. by rewrite ordered_refl.
      * specialize (Hall _ Hx e e' E Ex). unfold priority_desc in Hall. by destruct (ordered_cmp _ _).
    + apply IH; [done|done|]. intros x e' Ex Hp. specialize (Hin _ _ Ex Hp). apply elem_of_cons in Hin as [->|]; [congruence|done].
Qed.

Lemma pc_next_priority_ok cutoff filter p :
  priorities_ok p -> exists r, pc_next_priority cutoff filter p = Some r /\ best_entry (cooled_down cutoff filter) (pc_by_account p) r.
Proof using OL HL.
  intros [He Hi]. destruct (index_iter_ok pr_priority priority_desc _ _ ordered_key_order Hi) as (Hs & _ & Hin).
  apply find_entry_ok; [done| | |].
  - apply Forall_forall. intros a. apply Hin.
  - intros a e E. by destruct (He _ _ E).
  - intros a e E _. apply Hin. by exists e.
Qed.

(** A dependency of an account whose source is not known yet. *)
Lemma next_blocking_ok filter c :
  blocking_ok (cn_blocking c) ->
  exists h, candidates_next_blocking filter c = Some h /\
    (h <> 0 -> exists a e, bc_by_account (cn_blocking c) !! a = Some e /\ bl_dependency e = h /\
                 bl_dependency_account e = 0 /\ filter h = true).
Proof.
  intros Hb. unfold candidates_next_blocking. destruct (_ =? _)%nat; [by exists 0|]. unfold bc_next.
  destruct (bo_dependency_account _ Hb 0) as (_ & _ & He). destruct (bc_by_dependency_account (cn_blocking c) !! 0) as [l|]; [|by exists 0].
  cbn in He. assert (forall a, a ∈ l -> exists e, bc_by_account (cn_blocking c) !! a = Some e /\ bl_dependency_account e = 0) as Hl
    by (intros a; apply He). clear He.
  induction l as [|a l IH]; cbn [find_blocking]; [by exists 0|]. destruct (Hl a) as (e & E & Ed); [by left|].
  rewrite E. cbn [mbind option_bind]. destruct (filter (bl_dependency e)) eqn:Ef.
  - exists (bl_dependency e). split; [done|]. intros _. by exists a, e.
  - apply IH. intros x Hx. apply Hl. by right.
Qed.
End candidates.

(** ** Runs *)

Inductive CandidateOp :=
| CandUp (account : Account)
| CandDown (account : Account)
| CandSetInitial (account : Account)
| CandErase (account : Account)
| CandBlock (account : Account) (dependency : BlockHash) (now : Timestamp)
| CandUnblock (account : Account) (hash : option BlockHash)
| CandDecay (now : Timestamp)
| CandSetLastRequest (account : Account) (now : Timestamp)
| CandResetLastRequest (account : Account)
| CandDependency (dependency : BlockHash) (dependency_account : Account)
| CandSync
| CandClear.

Section runs.
Context `{OL : OrderedFloatLaws} `{HL : HashOrderLaws}.

Definition candidate_step (op : CandidateOp) (c : CandidateAccounts) : run CandidateAccounts :=
  match op with
  | CandUp a => '(_, c) ← priority_up a c; Finished c
  | CandDown a => '(_, c) ← priority_down a c; Finished c
  | CandSetInitial a => '(_, c) ← priority_set_initial a c; Finished c
  | CandErase a => '(_, c) ← priority_erase a c; Finished c
  | CandBlock a h now => '(_, c) ← candidates_block a h now c; Finished c
  | CandUnblock a h => '(_, c) ← candidates_unblock a h c; Finished c
  | CandDecay now => '(_, c) ← decay_blocking now c; Finished c
  | CandSetLastRequest a now => Finished (set_last_request a now c)
  | CandResetLastRequest a => Finished (reset_last_request a c)
  | CandDependency h a => '(_, c) ← dependency_update h a c; Finished c
  | CandSync => '(_, c) ← sync_dependencies c; Finished c
  | CandClear => Finished (candidates_clear c)
  end.

Fixpoint candidate_run (ops : list CandidateOp) (c : CandidateAccounts) : run CandidateAccounts :=
  match ops with [] => Finished c | op :: ops => c ← candidate_step op c; candidate_run ops c end.

Lemma candidates_empty_ok config : candidates_ok config (candidates_new config).
Proof.
  split; [split; [done|apply pc_default_ok|apply bc_default_ok|by intros a _]|apply Nat.le_0_l|apply Nat.le_0_l].
Qed.

Lemma candidate_step_ok config op c :
  candidates_ok config c -> exists c', candidate_step op c = Finished c' /\ candidates_ok config c'.
Proof using OL HL.
  intros Hc. destruct op; cbn [candidate_step].
  - destruct (priority_up_ok config account c Hc) as (r & c' & -> & ?). by exists c'.
  - destruct (priority_down_ok config account c Hc) as (r & c' & -> & ?). by exists c'.
  - destruct (priority_set_ok config account c Hc) as (r & c' & -> & ?). by exists c'.
  - destruct (priority_erase_ok config account c Hc) as (r & c' & -> & ?). by exists c'.
  - destruct (candidates_block_ok config account dependency now c Hc) as (r & c' & -> & ?). by exists c'.
  - destruct (candidates_unblock_ok config account hash c Hc) as (r & c' & -> & ?). by exists c'.
  - destruct (decay_blocking_ok config now c Hc) as (r & c' & -> & ? & _). by exists c'.
  - eexists. split; [done|]. by apply set_last_request_ok.
  - eexists. split; [done|]. by apply set_last_request_ok.
  - destruct (dependency_update_ok config dependency dependency_account c Hc) as (r & c' & -> & ?). by exists c'.
  - destruct (sync_dependencies_ok config c Hc) as (r & c' & -> & ?). by exists c'.
  - eexists. split; [done|]. unfold candidates_clear. rewrite (un_config _ _ (ca_untrimmed _ _ Hc)). apply candidates_empty_ok.
Qed.

Lemma candidate_run_ok config ops c :
  candidates_ok config c -> exists c', candidate_run ops c = Finished c' /\ candidates_ok config c'.
Proof using OL HL.
  revert c. induction ops as [|op ops IH]; intros c Hc; cbn [candidate_run]; [by exists c|].
  destruct (candidate_step_ok config op c Hc) as (c1 & -> & Hc1). by apply IH.
Qed.

(** C31. Whatever is done with the candidate accounts, nothing panics and every
    loop ends. No account is blocked and prioritised at once, the zero account
    is neither, and both containers keep their limits. The next account to ask
    is one that passes the filter and has cooled down, and no such account has
    a higher priority; none is returned only if there is none. The next
    dependency to look for belongs to a blocked account whose dependency
    account is unknown. Decay unblocks exactly the accounts blocked before the
    cutoff and those that depend, directly or through others, on an account it
    unblocks, leaves everything else as it is, and reports how many it
    removed. *)
Theorem candidates_correct config ops :
  exists c, candidate_run ops (candidates_new config) = Finished c /\
    (pc_len (cn_priorities c) <= cac_priorities_max config)%nat /\
    (bc_len (cn_blocking c) <= cac_blocking_max config)%nat /\
    (forall a, candidates_blocked a c = true -> candidates_prioritized a c = false) /\
    candidates_blocked 0 c = false /\ candidates_prioritized 0 c = false /\
    (forall now filter, exists r,
       pc_next_priority (now - cac_cooldown config) filter (cn_priorities c) = Some r /\
       best_entry (cooled_down (now - cac_cooldown config) filter) (pc_by_account (cn_priorities c)) r /\
       candidates_next_priority now filter c =
         Some (from_option (fun e => mkPriorityResult (pr_account e) (pr_priority e) (pr_fails e)) priority_result_default r)) /\
    (forall filter, exists h, candidates_next_blocking filter c = Some h /\
       (h <> 0 -> exists a e, bc_by_account (cn_blocking c) !! a = Some e /\ bl_dependency e = h /\
                    bl_dependency_account e = 0 /\ filter h = true)) /\
    forall now, exists n c', decay_blocking now c = Finished (n, c') /\
      cn_priorities c' = cn_priorities c /\ (n + bc_len (cn_blocking c') = bc_len (cn_blocking c))%nat /\
      forall a e, bc_by_account (cn_blocking c') !! a = Some e <->
        bc_by_account (cn_blocking c) !! a = Some e /\
        ~ goes (outdated (now - cac_blocking_decay config) (bc_by_account (cn_blocking c))) (bc_by_account (cn_blocking c)) a.
Proof using OL HL.
  destruct (candidate_run_ok config ops _ (candidates_empty_ok config)) as (c & E & Hc). exists c. split; [done|].
  split; [apply Hc|]. split; [apply Hc|]. pose proof (ca_untrimmed _ _ Hc) as [Hcf Hp Hb Hd].
  unfold candidates_blocked, candidates_prioritized, bc_contains, pc_contains. split_and!.
  - intros a Ha%bool_decide_eq_true. apply bool_decide_false. rewrite (Hd _ Ha). by intros [??].
  - apply bool_decide_false. intros [e Ee]. by destruct (bo_entry _ Hb _ _ Ee).
  - apply bool_decide_false. intros [e Ee]. by destruct (po_entry _ Hp _ _ Ee) as (_ & ? & _).
  - intros now filter. destruct (pc_next_priority_ok (now - cac_cooldown config) filter _ Hp) as (r & Er & Hr).
    exists r. split; [done|]. split; [done|]. unfold candidates_next_priority, pc_is_empty. rewrite Hcf, Er.
    destruct (bool_decide_reflect (pc_by_account (cn_priorities c) = ∅)) as [He|]; [|by destruct r].
    rewrite He in Hr. destruct r as [e|]; [|done]. destruct Hr as [Hr _]. by rewrite lookup_empty in Hr.
  - intros filter. by apply next_blocking_ok.
  - intros now. destruct (decay_blocking_ok config now c Hc) as (n & c' & H1 & _ & H2 & H3 & H4). exists n, c'.
    split_and!; try done. intros a e. by apply removed_exact.
Qed.
End runs.

(** ** Example *)

Definition sample_candidates_config : CandidateAccountsConfig := mkCandidateAccountsConfig 4 3 2 (secs 60) (secs 3).

Definition sample_candidate_ops : list CandidateOp :=
  [CandUp 1; CandUp 2; CandUp 2; CandUp 3; CandBlock 1 100 (secs 5); CandDependency 100 4; CandDown 3; CandUp 5;
   CandSetLastRequest 2 (secs 7); CandSync; CandUnblock 1 (Some 100)].

Lemma candidates_correct_witness :
  exists c, @candidate_run model_ordered_float trie_order sample_candidate_ops (candidates_new sample_candidates_config) = Finished c /\
    (pc_len (cn_priorities c) <= 3)%nat.
Proof.
  destruct (@candidates_correct model_ordered_float model_ordered_float_laws trie_order trie_order_laws
              sample_candidates_config sample_candidate_ops) as (c & E & Hp & _). exact (ex_intro _ c (conj E Hp)).
Defined.
