(* ===== verification/Text.v ===== *)
(** * Text forms of accounts, node ids, hashes and amounts
    (types/src/account.rs, node_id.rs, u256_struct.rs, amount.rs)

    A [str] is the list of its characters, as their code points. The 512-bit
    integers of the crate primitive_types and the decoder of the crate hex are
    parameters with their documented laws. *)

From stdpp Require Import strings.
From S2P Require Import Prelude Types.

Abbreviation char := Z (only parsing).
Abbreviation str := (list Z) (only parsing).

Definition chars (s : string) : str := (fun c => Z.of_N (Ascii.N_of_ascii c)) <$> String.list_ascii_of_string s.

(** [str::len]: bytes of the UTF-8 form. *)
Definition utf8_len (c : char) : nat :=
  if c <? 0x80 then 1 else if c <? 0x800 then 2 else if c <? 0x10000 then 3 else 4.
Definition str_len (s : str) : nat := sum_list_with utf8_len s.

Definition starts_with (prefix s : str) : bool := bool_decide (take (length prefix) s = prefix).

#[global] Instance byte_eq_decision : EqDecision byte := Byte.byte_eq_dec.

(** ** U512 *)

Class U512 := {
  u512_shl : Z -> Z -> Z;
  u512_shr : Z -> Z -> Z;
  u512_or : Z -> Z -> Z;
  u512_add : Z -> Z -> Z;
  u512_byte : Z -> nat -> Z;
}.

(** Bits that are shifted out are lost; the sum is that of the integers as
    long as it fits. *)
Class U512Laws (U : U512) := {
  u512_shl_spec : forall x n, in_u 512 x -> 0 <= n < 512 -> u512_shl x n = wrap 512 (Z.shiftl x n);
  u512_shr_spec : forall x n, in_u 512 x -> 0 <= n < 512 -> u512_shr x n = Z.shiftr x n;
  u512_or_spec : forall x y, in_u 512 x -> in_u 512 y -> u512_or x y = Z.lor x y;
  u512_add_spec : forall x y, in_u 512 x -> in_u 512 y -> in_u 512 (x + y) -> u512_add x y = x + y;
  u512_byte_spec : forall x i, in_u 512 x -> (i < 64)%nat -> u512_byte x i = wrap 8 (Z.shiftr x (8 * Z.of_nat i));
}.

Definition model_u512 : U512 := {|
  u512_shl x n := wrap 512 (Z.shiftl x n);
  u512_shr x n := Z.shiftr x n;
  u512_or x y := Z.lor x y;
  u512_add x y := wrap 512 (x + y);
  u512_byte x i := wrap 8 (Z.shiftr x (8 * Z.of_nat i));
|}.

Lemma model_u512_laws : U512Laws model_u512.
Proof. split; try done. intros x y _ _ H. by apply wrap_small. Qed.

(** ** Accounts (account.rs) *)

Definition ACCOUNT_LOOKUP : str := chars "13456789abcdefghijkmnopqrstuwxyz".

Definition ACCOUNT_REVERSE : str :=
  chars "~0~1234567~~~~~~~~~~~~~~~~~~~~~~~~~~~~~~~~~~~~~~~89:;<=>?@AB~CDEFGHIJK~LMNO~~~~~".

(** [None] is an index out of range. *)
Definition account_encode (value : Z) : option char := ACCOUNT_LOOKUP !! Z.to_nat value.

Definition TILDE : Z := 0x7e.

Definition account_decode (value : Z) : option Z :=
  result ← ACCOUNT_REVERSE !! Z.to_nat (value - 0x30);
  Some (if result =? TILDE then result else result - 0x30).

Section account.
Context `{Crypto} `{U512}.

Definition account_checksum (account : Account) : list byte := blake2b 5 (u256_serialize account).

(** The loop that takes five bits at a time, the lowest first. *)
Fixpoint encode_digits (n : nat) (number : Z) : option str :=
  match n with
  | O => Some []
  | S n =>
      let r := Z.land (u512_byte number 0) 0x1f in
      c ← account_encode r;
      rest ← encode_digits n (u512_shr number 5);
      Some (c :: rest)
  end.

Definition encode_account (account : Account) : option str :=
  let number := u512_or (u512_shl account 40) (from_le_bytes (account_checksum account)) in
  digits ← encode_digits 60 number;
  Some (reverse (digits ++ chars "_onan")).

(** *** EncodedAccountStr *)

Definition has_xrb_prefix (s : str) : bool := starts_with (chars "xrb_") s || starts_with (chars "xrb-") s.
Definition has_nano_prefix (s : str) : bool := starts_with (chars "nano_") s || starts_with (chars "nano-") s.
Definition has_node_id_prefix (s : str) : bool := starts_with (chars "node_") s.

Definition has_valid_prefix (s : str) : bool := has_xrb_prefix s || has_nano_prefix s || has_node_id_prefix s.

Definition is_length_valid (s : str) : bool :=
  if has_xrb_prefix s && negb (length s =? 64)%nat then false
  else if has_nano_prefix s && negb (length s =? 65)%nat then false
  else true.

Definition prefix_len (s : str) : nat := if has_xrb_prefix s then 4 else 5.

Definition is_first_digit_valid (s : str) : bool :=
  match s !! prefix_len s with
  | Some c => (c =? 0x31) || (c =? 0x33)
  | None => false
  end.

Definition is_valid (s : str) : bool :=
  (4 <? str_len s)%nat && has_valid_prefix s && is_length_valid s && is_first_digit_valid s.

(** The outer [None] is a panic. *)
Definition decode_byte (character : char) : option (option Z) :=
  if (character <? 0x80) && (0x30 <=? character) then
    byte ← account_decode character;
    Some (if byte =? TILDE then None else Some byte)
  else Some None.

Fixpoint decode_digits (cs : str) (number : Z) : option (option Z) :=
  match cs with
  | [] => Some (Some number)
  | character :: cs =>
      byte ← decode_byte character;
      match byte with
      | None => Some None
      | Some byte => decode_digits cs (u512_add (u512_shl number 5) byte)
      end
  end.

Definition to_u512 (s : str) : option (option Z) :=
  if is_valid s then decode_digits (drop (prefix_len s) s) 0 else Some None.

(** *** EncodedAccountU512 *)

(** The lower 32 of the 64 bytes. *)
Definition account_bytes (number : Z) : Account := wrap 256 (u512_shr number 40).

Definition checksum_bytes (number : Z) : list byte := (fun i => byte_of (u512_byte number i)) <$> seq 0 5.

Definition to_account (number : Z) : option Account :=
  let account := account_bytes number in
  if decide (account_checksum account = checksum_bytes number) then Some account else None.

(** [Account::parse]; the outer [None] is a panic. *)
Definition account_parse (source : str) : option (option Account) :=
  number ← to_u512 source;
  Some (number ≫= to_account).

(** ** Node ids (node_id.rs) *)

Definition node_id_display (id : Account) : option str :=
  result ← encode_account id;
  Some (chars "node" ++ drop 4 result).

Definition node_id_from_str (s : str) : option (option Account) :=
  if starts_with (chars "node_") s then account_parse (chars "nano_" ++ drop 5 s) else Some None.
End account.

(** ** Hexadecimal digits *)

(** [{:X}] of a digit *)
Definition hex_digit (d : Z) : char := if d <? 10 then 0x30 + d else 0x41 + (d - 10).

(** [char::to_digit] *)
Definition to_digit (radix : Z) (c : char) : option Z :=
  d ← (if (0x30 <=? c) && (c <=? 0x39) then Some (c - 0x30)
       else if (0x61 <=? c) && (c <=? 0x7a) then Some (c - 0x61 + 10)
       else if (0x41 <=? c) && (c <=? 0x5a) then Some (c - 0x41 + 10)
       else None);
  if d <? radix then Some d else None.

(** The crate hex: two digits for each byte of the slice, nothing else. *)
Inductive hex_pairs : str -> list byte -> Prop :=
| hex_nil : hex_pairs [] []
| hex_cons c1 c2 s d1 d2 bs :
    to_digit 16 c1 = Some d1 -> to_digit 16 c2 = Some d2 -> hex_pairs s bs ->
    hex_pairs (c1 :: c2 :: s) (byte_of (16 * d1 + d2) :: bs).

Class Hex := hex_decode_to_slice : nat -> str -> option (list byte).
Class HexLaws (X : Hex) := {
  hex_decode_some : forall s bs, hex_pairs s bs -> hex_decode_to_slice (length bs) s = Some bs;
  hex_decode_only : forall n s bs, hex_decode_to_slice n s = Some bs -> hex_pairs s bs /\ length bs = n;
}.

Fixpoint model_hex_pairs (n : nat) (s : str) : option (list byte) :=
  match n, s with
  | O, [] => Some []
  | S n, c1 :: c2 :: s =>
      d1 ← to_digit 16 c1; d2 ← to_digit 16 c2; bs ← model_hex_pairs n s; Some (byte_of (16 * d1 + d2) :: bs)
  | _, _ => None
  end.
Definition model_hex : Hex := model_hex_pairs.

Lemma model_hex_laws : HexLaws model_hex.
Proof.
  split; unfold hex_decode_to_slice, model_hex.
  - induction 1 as [|c1 c2 s d1 d2 bs E1 E2 Hp IH]; [done|]. cbn. by rewrite E1, E2; cbn; rewrite IH.
  - induction n as [|n IH]; intros [|c1 [|c2 s]] bs; try done; cbn; [intros [= <-]; split; [constructor|done]|].
    destruct (to_digit 16 c1) as [d1|] eqn:E1; [|done]. cbn. destruct (to_digit 16 c2) as [d2|] eqn:E2; [|done]. cbn.
    destruct (model_hex_pairs n s) as [l|] eqn:E; [|done]. cbn. intros [= <-]. destruct (IH _ _ E) as [Hp <-].
    split; [by constructor|done].
Qed.

(** *** 32 bytes (u256_struct.rs) *)

(** [{:02X}] *)
Definition byte_hex (b : byte) : str := [hex_digit (u8_of b / 16); hex_digit (u8_of b mod 16)].

Definition encode_hex (x : u256) : str := mjoin (byte_hex <$> u256_serialize x).

Definition decode_32_bytes_hex `{Hex} (s : str) : option (list byte) :=
  if (str_len s =? 0)%nat || (64 <? str_len s)%nat then None
  else
    let sanitized := if (str_len s <? 64)%nat then replicate (64 - str_len s) 0x30 ++ s else s in
    hex_decode_to_slice 32 sanitized.

Definition decode_hex `{Hex} (s : str) : option u256 := from_be_bytes <$> decode_32_bytes_hex s.

(** ** Amounts (amount.rs) *)

Inductive IntErrorKind := Empty | InvalidDigit | PosOverflow.

(** The digits of a number, the highest first; [n] bounds how many. *)
Fixpoint digits_of (n : nat) (radix : Z) (z : Z) (acc : str) : str :=
  match n with
  | O => acc
  | S n =>
      let acc := hex_digit (z mod radix) :: acc in
      if z / radix =? 0 then acc else digits_of n radix (z / radix) acc
  end.

(** [to_string] of [u128], and [{:032X}] *)
Definition to_string_dec (a : Amount) : str := digits_of 128 10 a [].
Definition amount_encode_hex (a : Amount) : str :=
  let digits := digits_of 128 16 a [] in replicate (32 - length digits) 0x30 ++ digits.

(** [u128::from_str_radix]: a sign [+] is skipped. *)
Fixpoint parse_digits (radix : Z) (s : str) (result : Z) : Prelude.result IntErrorKind Z :=
  match s with
  | [] => Ok result
  | c :: s =>
      match to_digit radix c with
      | None => Err InvalidDigit
      | Some d =>
          if 2 ^ 128 <=? result * radix then Err PosOverflow
          else if 2 ^ 128 <=? result * radix + d then Err PosOverflow
          else parse_digits radix s (result * radix + d)
      end
  end.

Definition from_str_radix (radix : Z) (s : str) : Prelude.result IntErrorKind Z :=
  match s with
  | [] => Err Empty
  | [c] => if (c =? 0x2b) || (c =? 0x2d) then Err InvalidDigit else parse_digits radix s 0
  | c :: s' => parse_digits radix (if c =? 0x2b then s' else s) 0
  end.

Definition decode_dec (s : str) : Prelude.result IntErrorKind Amount := from_str_radix 10 s.
Definition amount_decode_hex (s : str) : option Amount :=
  match from_str_radix 16 s with Ok value => Some value | Err _ => None end.
