(* ===== verification/TextTheorems.v ===== *)
(** * The text forms are exact

    Numbers as digits in a base, the tables of the account alphabet, then the
    text of accounts and node ids (round trip, canonical form, no panic) and
    that of hashes and amounts. *)

From stdpp Require Import strings.
From S2P Require Import Prelude Types Text.

(** ** Digits in a base *)

(** The value of digits, the highest first, after the value [x]. *)
Definition horner (r : Z) (ds : list Z) (x : Z) : Z := fold_left (fun x d => x * r + d) ds x.

(** The lowest [n] digits, the lowest first. *)
Fixpoint le_digits (r : Z) (n : nat) (x : Z) : list Z :=
  match n with O => [] | S n => x mod r :: le_digits r n (x / r) end.

Definition digits (r : Z) (ds : list Z) : Prop := Forall (fun d => 0 <= d < r) ds.

Section digits.
Context (r : Z) (Hr : 2 <= r).

Lemma le_digits_ok n x : digits r (le_digits r n x).
Proof using Hr. revert x. induction n as [|n IH]; intros x; constructor; [apply Z.mod_pos_bound; lia | apply IH]. Qed.

Lemma length_le_digits n x : length (le_digits r n x) = n.
Proof using. clear Hr. revert x. by induction n as [|n IH]; intros x; cbn; [|rewrite IH]. Qed.

Lemma horner_app ds es x : horner r (ds ++ es) x = horner r es (horner r ds x).
Proof using. apply fold_left_app. Qed.

Lemma horner_shift ds x : horner r ds x = x * r ^ Z.of_nat (length ds) + horner r ds 0.
Proof using Hr.
  revert x. induction ds as [|d ds IH]; intros x; [cbn; lia|].
  change (horner r ds (x * r + d) = x * r ^ Z.of_nat (S (length ds)) + horner r ds (0 * r + d)).
  rewrite (IH (x * r + d)), (IH (0 * r + d)), Nat2Z.inj_succ, Z.pow_succ_r by lia. ring.
Qed.

Lemma horner_bound ds x : digits r ds -> 0 <= x -> x <= horner r ds x /\ horner r ds x < (x + 1) * r ^ Z.of_nat (length ds).
Proof using Hr.
  intros Hd. revert x. induction Hd as [|d ds Hd _ IH]; intros x Hx; [cbn; lia|].
  change (x <= horner r ds (x * r + d) /\ horner r ds (x * r + d) < (x + 1) * r ^ Z.of_nat (S (length ds))).
  destruct (IH (x * r + d) ltac:(nia)) as [H1 H2].
  assert (0 < r ^ Z.of_nat (length ds)) by (apply Z.pow_pos_nonneg; lia).
  rewrite Nat2Z.inj_succ, Z.pow_succ_r by lia. split; [nia|].
  eapply Z.lt_le_trans; [apply H2|]. rewrite Z.mul_assoc. apply Z.mul_le_mono_nonneg_r; nia.
Qed.

Lemma horner_le_digits n x : horner r (rev (le_digits r n x)) 0 = x mod r ^ Z.of_nat n.
Proof using Hr.
  revert x. induction n as [|n IH]; intros x; [cbn; by rewrite Z.mod_1_r|].
  cbn [le_digits rev]. rewrite horner_app, IH. cbn [horner fold_left].
  rewrite Nat2Z.inj_succ, Z.pow_succ_r by lia.
  rewrite Z.rem_mul_r by (try apply Z.pow_nonzero; lia). lia.
Qed.

Lemma le_digits_horner ds : digits r ds -> le_digits r (length ds) (horner r ds 0) = rev ds.
Proof using Hr.
  induction ds as [|d ds IH] using rev_ind; intros Hd; [done|].
  apply Forall_app in Hd as [Hds Hd]. apply Forall_cons in Hd as [Hd _].
  rewrite length_app, Nat.add_comm, horner_app, rev_app_distr. cbn [length Nat.add le_digits horner fold_left rev app].
  rewrite Z.add_comm, Z_mod_plus_full, Z.mod_small, Z_div_plus_full, Z.div_small by lia.
  by rewrite Z.add_0_l, IH.
Qed.
End digits.

Lemma byte_of_wrap z : byte_of (wrap 8 z) = byte_of z.
Proof. apply byte.unsigned_inj. unfold byte_of. rewrite !byte.unsigned_of_Z. unfold byte.wrap, wrap. by rewrite Z.mod_mod. Qed.

Lemma from_le_bytes_inj bs bs' : length bs = length bs' -> from_le_bytes bs = from_le_bytes bs' -> bs = bs'.
Proof.
  unfold from_le_bytes. intros Hl E. rewrite <- (split_le_combine bs), <- (split_le_combine bs'). by rewrite Hl, E.
Qed.

(** ** The account alphabet *)

Definition is_digit (d : Z) (c : Z) : Prop :=
  0 <= d < 32 /\ account_encode d = Some c /\ decode_byte c = Some (Some d).

(** Every digit has a character, which no other digit has. *)
Lemma encode_is_digit d : 0 <= d < 32 -> exists c, is_digit d c.
Proof.
  intros Hd.
  assert (Hall : Forall (fun d => exists c, account_encode d = Some c /\ decode_byte c = Some (Some d)) (seqZ 0 32)).
  { rewrite Forall_forall. intros d' Hd'. apply elem_of_seqZ in Hd'.
    assert (Hb : forallb (fun d => match account_encode d with
                     | Some c => match decode_byte c with Some (Some e) => e =? d | _ => false end
                     | None => false end) (seqZ 0 32) = true) by (by vm_compute).
    rewrite forallb_forall in Hb. specialize (Hb d' ltac:(apply list_elem_of_In, elem_of_seqZ; lia)).
    repeat case_match; try done. exists z. split; [done|]. apply Z.eqb_eq in Hb. by subst. }
  rewrite Forall_forall in Hall. destruct (Hall d) as [c Hc]; [apply elem_of_seqZ; lia|]. by exists c.
Qed.

(** A character is rejected or is that of a digit: the look-up never fails. *)
Lemma decode_byte_cases c : decode_byte c = Some None \/ exists d, is_digit d c.
Proof.
  destruct (decide (0x30 <= c < 0x80)) as [Hc|Hc].
  - assert (Hb : forallb (fun c => match decode_byte c with
                     | Some None => true
                     | Some (Some d) => (0 <=? d) && (d <? 32) && bool_decide (account_encode d = Some c)
                     | None => false end) (seqZ 0x30 0x50) = true) by (by vm_compute).
    rewrite forallb_forall in Hb. specialize (Hb c ltac:(apply list_elem_of_In, elem_of_seqZ; lia)).
    destruct (decode_byte c) as [[d|]|] eqn:E; [|by left|done]. right. exists d.
    rewrite !andb_true_iff, Z.leb_le, Z.ltb_lt, bool_decide_eq_true in Hb. unfold is_digit. intuition lia.
  - left. unfold decode_byte. by replace ((c <? 0x80) && (0x30 <=? c)) with false by lia.
Qed.

Lemma is_digit_char d c c' : is_digit d c -> is_digit d c' -> c = c'.
Proof. intros (_ & H1 & _) (_ & H2 & _). congruence. Qed.

Lemma is_digit_value d d' c : is_digit d c -> is_digit d' c -> d = d'.
Proof. intros (_ & _ & H1) (_ & _ & H2). congruence. Qed.

Lemma Forall2_is_digit_char ds cs cs' : Forall2 is_digit ds cs -> Forall2 is_digit ds cs' -> cs' = cs.
Proof.
  intros H. revert cs'. induction H as [|d c ds cs Hc _ IH]; intros cs' H; inversion H; subst; [done|].
  f_equal; [by eapply is_digit_char | by apply IH].
Qed.

Lemma Forall2_is_digit_value ds ds' cs : Forall2 is_digit ds cs -> Forall2 is_digit ds' cs -> ds = ds'.
Proof.
  intros H. revert ds'. induction H as [|d c ds cs Hc _ IH]; intros ds' H; inversion H; subst; [done|].
  f_equal; [by eapply is_digit_value | by apply IH].
Qed.

Lemma is_digits ds cs : Forall2 is_digit ds cs -> digits 32 ds.
Proof. induction 1 as [|d c ds cs [Hd _] _ IH]; by constructor. Qed.

Lemma digits_text ds : digits 32 ds -> exists cs, Forall2 is_digit ds cs.
Proof.
  induction 1 as [|d ds Hd _ [cs IH]]; [by exists []|].
  destruct (encode_is_digit d Hd) as [c Hc]. exists (c :: cs). by constructor.
Qed.

(** The first two digits are those a number of 296 bits starts with. *)
Lemma first_digit d c : is_digit d c -> (c =? 0x31) || (c =? 0x33) = true <-> d < 2.
Proof.
  intros Hd. split.
  - intros [->%Z.eqb_eq| ->%Z.eqb_eq]%orb_true_iff; destruct Hd as (_ & _ & E); vm_compute in E; injection E as <-; lia.
  - intros H. assert (d = 0 \/ d = 1) as [-> | ->] by (destruct Hd; lia);
      destruct Hd as (_ & E & _); vm_compute in E; by injection E as <-.
Qed.

(** ** Accounts and node ids *)

Section account.
Context `{C : Crypto} {CL : CryptoLaws C} `{U : U512} {UL : U512Laws U}.

(** The number an account's text spells: the account, then the checksum. *)
Definition account_number (a : Account) : Z := a * 2 ^ 40 + from_le_bytes (account_checksum a).

Lemma checksum_in_u a : in_u 40 (from_le_bytes (account_checksum a)).
Proof using CL. pose proof (from_le_bytes_in_u (account_checksum a)) as H. unfold account_checksum in *. by rewrite blake2b_length in H. Qed.

Lemma account_number_lt a : wf_u256 a -> 0 <= account_number a < 2 ^ 296.
Proof using CL. pose proof (checksum_in_u a). unfold wf_u256, in_u, account_number in *. lia. Qed.

Lemma encode_number a :
  wf_u256 a -> u512_or (u512_shl a 40) (from_le_bytes (account_checksum a)) = account_number a.
Proof using CL UL.
  intros Ha. pose proof (checksum_in_u a) as Hc. pose proof (account_number_lt a Ha) as Hn. unfold wf_u256, in_u, account_number in *.
  assert (Hs : in_u 512 (Z.shiftl a 40)) by (unfold in_u; rewrite Z.shiftl_mul_pow2 by lia; lia).
  rewrite u512_shl_spec, (wrap_small _ _ Hs) by (unfold in_u; lia).
  rewrite u512_or_spec by (unfold in_u in *; lia).
  rewrite <- Z.add_lor_land, Z.shiftl_mul_pow2 by lia.
  enough (Z.land (a * 2 ^ 40) (from_le_bytes (account_checksum a)) = 0) by lia.
  rewrite <- Z.shiftl_mul_pow2 by lia. apply Z.bits_inj'. intros n Hn'. rewrite Z.land_spec, Z.bits_0.
  destruct (decide (n < 40)) as [H|H]; [by rewrite Z.shiftl_spec_low|].
  rewrite andb_comm. rewrite (Z.bits_above_log2 _ n); [done|lia|].
  destruct (decide (from_le_bytes (account_checksum a) = 0)) as [->|]; [cbn; lia|].
  apply Z.log2_lt_pow2; [lia|]. eapply Z.lt_le_trans; [apply Hc|]. apply Z.pow_le_mono_r; lia.
Qed.

Lemma encode_digits_spec n x cs :
  in_u 512 x -> Forall2 is_digit (le_digits 32 n x) cs -> encode_digits n x = Some cs.
Proof using UL.
  revert x cs. induction n as [|n IH]; intros x cs Hx Hcs; inversion Hcs as [|d c ds cs' (_ & Hc & _) Htl]; subst; [done|].
  cbn [encode_digits]. rewrite u512_byte_spec, u512_shr_spec by (done || lia).
  replace (Z.land _ _) with (x mod 32).
  - rewrite Hc. cbn. rewrite Z.shiftr_div_pow2 by lia. rewrite (IH (x / 2 ^ 5) cs'); [done| |done].
    unfold in_u in *. split; [apply Z.div_pos; lia|]. apply Z.div_lt_upper_bound; lia.
  - change 0x1f with (Z.ones 5). rewrite Z.land_ones by lia. unfold wrap. change (8 * Z.of_nat 0) with 0.
    rewrite Z.shiftr_0_r. symmetry. apply Z.mod_mod_divide. by exists 8.
Qed.

Lemma wrap_horner ds x : wrap 512 (horner 32 ds (wrap 512 x)) = wrap 512 (horner 32 ds x).
Proof using.
  rewrite (horner_shift 32 ltac:(lia) ds (wrap _ _)), (horner_shift 32 ltac:(lia) ds x). unfold wrap.
  rewrite <- (Zplus_mod_idemp_l (_ * _)), Zmult_mod_idemp_l. by rewrite Zplus_mod_idemp_l.
Qed.

(** Digits beyond the 512 bits of the number are lost. *)
Lemma decode_digits_spec ds cs x :
  in_u 512 x -> Forall2 is_digit ds cs -> decode_digits cs x = Some (Some (wrap 512 (horner 32 ds x))).
Proof using UL.
  intros Hx Hd. revert x Hx. induction Hd as [|d c ds cs (Hd & _ & Hc) _ IH]; intros x Hx; [cbn; by rewrite wrap_small|].
  cbn [decode_digits]. rewrite Hc. cbn [mbind option_bind].
  rewrite u512_shl_spec, Z.shiftl_mul_pow2 by (done || lia).
  assert (Hw : in_u 512 (wrap 512 (x * 2 ^ 5) + d)).
  { pose proof (wrap_in_u 512 (x * 2 ^ 5) ltac:(lia)). unfold wrap, in_u in *.
    replace (2 ^ 512) with (2 ^ 507 * 2 ^ 5) in * by reflexivity. rewrite Z.mul_mod_distr_r in * by lia.
    pose proof (Z.mod_pos_bound x (2 ^ 507)). lia. }
  rewrite u512_add_spec; [|by apply wrap_in_u|unfold in_u in *; lia|done]. rewrite IH by done. do 2 f_equal.
  rewrite <- (wrap_small _ _ Hw), wrap_add_l, wrap_horner by lia. done.
Qed.

Lemma decode_digits_total cs x :
  decode_digits cs x = Some None \/ exists ds, Forall2 is_digit ds cs.
Proof using.
  revert x. induction cs as [|c cs IH]; intros x; [right; by exists []|].
  destruct (decode_byte_cases c) as [E|[d Hd]]; [left; cbn; by rewrite E|].
  pose proof Hd as (_ & _ & E). cbn. rewrite E. cbn.
  destruct (IH (u512_add (u512_shl x 5) d)) as [H|[ds H]]; [by left|]. right. exists (d :: ds). by constructor.
Qed.

Lemma checksum_bytes_spec x : in_u 512 x -> checksum_bytes x = to_le_bytes 5 x.
Proof using UL.
  intros Hx. unfold checksum_bytes. cbn [seq fmap list_fmap].
  rewrite !u512_byte_spec by (done || lia). rewrite !byte_of_wrap. unfold to_le_bytes, byte_of, le_split.
  rewrite !Z.shiftr_shiftr, Z.shiftr_0_r by lia. done.
Qed.

(** The lower 296 bits decide: 256 of the account, 40 of its checksum. *)
Lemma to_account_spec x a : in_u 512 x -> to_account x = Some a <-> wf_u256 a /\ x mod 2 ^ 296 = account_number a.
Proof using CL UL.
  intros Hx. unfold to_account, account_bytes. rewrite checksum_bytes_spec, u512_shr_spec, Z.shiftr_div_pow2 by (done || lia).
  assert (Hsplit : x mod 2 ^ 296 = wrap 256 (x / 2 ^ 40) * 2 ^ 40 + x mod 2 ^ 40).
  { unfold wrap. replace (2 ^ 296) with (2 ^ 40 * 2 ^ 256) by reflexivity. rewrite Z.rem_mul_r by lia. lia. }
  pose proof (wrap_in_u 256 (x / 2 ^ 40) ltac:(lia)) as Hw. set (w := wrap 256 (x / 2 ^ 40)) in *.
  assert (Hle : from_le_bytes (to_le_bytes 5 x) = x mod 2 ^ 40).
  { unfold from_le_bytes, to_le_bytes. rewrite le_combine_split. done. }
  pose proof (checksum_in_u a) as Hc. pose proof (Z.mod_pos_bound x (2 ^ 40) ltac:(lia)) as Hm. split.
  - case_decide as E; [|done]. intros [= <-]. split; [done|]. unfold account_number. by rewrite E, Hle.
  - intros [Ha E]. rewrite Hsplit in E. unfold account_number, wf_u256, in_u in *.
    assert (w = a) as -> by lia. rewrite decide_True; [done|].
    apply from_le_bytes_inj; [unfold account_checksum; by rewrite blake2b_length, length_to_le_bytes|]. rewrite Hle. lia.
Qed.

Definition account_digits (a : Account) : list Z := rev (le_digits 32 60 (account_number a)).

Lemma length_account_digits a : length (account_digits a) = 60%nat.
Proof using. unfold account_digits. by rewrite length_rev, length_le_digits. Qed.

Lemma account_digits_value a : wf_u256 a -> horner 32 (account_digits a) 0 = account_number a.
Proof using CL.
  intros Ha. unfold account_digits. rewrite horner_le_digits by lia. apply Z.mod_small.
  pose proof (account_number_lt a Ha). change (32 ^ Z.of_nat 60) with (2 ^ 300). lia.
Qed.

(** The leading digit carries one bit. *)
Lemma leading_digit ds : digits 32 ds -> length ds = 60%nat -> horner 32 ds 0 < 2 ^ 296 <-> exists d ds', ds = d :: ds' /\ d < 2.
Proof using.
  intros Hds Hl. destruct ds as [|d ds]; [done|]. apply Forall_cons in Hds as [Hd Hds]. injection Hl as Hl.
  change (horner 32 (d :: ds) 0) with (horner 32 ds (0 * 32 + d)). rewrite horner_shift, Hl by lia.
  destruct (horner_bound 32 ltac:(lia) ds 0 Hds ltac:(lia)) as [H1 H2]. rewrite Hl in H2.
  change (32 ^ Z.of_nat 59) with (2 ^ 295) in *. split.
  - intros H. exists d, ds. split; [done|]. lia.
  - intros (? & ? & [= <- <-] & H). lia.
Qed.

Lemma encode_account_spec a :
  wf_u256 a -> exists cs, Forall2 is_digit (account_digits a) cs /\ encode_account a = Some (chars "nano_" ++ cs).
Proof using CL UL.
  intros Ha. destruct (digits_text (le_digits 32 60 (account_number a))) as [cs Hcs]; [apply le_digits_ok; lia|].
  exists (reverse cs). split.
  - unfold account_digits. rewrite rev_alt. by apply Forall2_reverse.
  - unfold encode_account. rewrite encode_number by done.
    rewrite (encode_digits_spec 60 _ cs); [|pose proof (account_number_lt a Ha); unfold in_u; lia|done].
    cbn [mbind option_bind]. by rewrite reverse_app.
Qed.

(** *** Prefixes *)

Definition short_prefixes : list str := [chars "nano_"; chars "nano-"; chars "xrb_"; chars "xrb-"].
Definition prefixes : list str := chars "node_" :: short_prefixes.

Lemma starts_with_app p s : starts_with p s = true -> exists cs, s = p ++ cs.
Proof using. intros E%bool_decide_eq_true. exists (drop (length p) s). by rewrite <- E at 1; rewrite take_drop. Qed.

Lemma valid_prefix_app s : has_valid_prefix s = true -> exists p cs, p ∈ prefixes /\ s = p ++ cs.
Proof using.
  unfold has_valid_prefix, has_xrb_prefix, has_nano_prefix, has_node_id_prefix. rewrite !orb_true_iff.
  intros [[[E|E]|[E|E]]|E]; apply starts_with_app in E as [cs ->]; do 2 eexists; (split; [|done]);
    unfold prefixes, short_prefixes; rewrite !elem_of_cons; tauto.
Qed.

Lemma length_le_str_len s : (length s <= str_len s)%nat.
Proof using.
  induction s as [|c s IH]; [done|]. unfold str_len in *. cbn [length sum_list_with].
  enough (1 <= utf8_len c)%nat by lia. unfold utf8_len. repeat case_match; lia.
Qed.

Definition leading_ok (cs : str) : bool := match cs with c :: _ => (c =? 0x31) || (c =? 0x33) | [] => false end.

(** What is checked of the text after the prefix: its length, except after
    [node_], and its first character. *)
Lemma valid_text p cs :
  p ∈ prefixes ->
  is_valid (p ++ cs) = (bool_decide (p = chars "node_") || (length cs =? 60)%nat) && leading_ok cs
  /\ prefix_len (p ++ cs) = length p
  /\ has_node_id_prefix (p ++ cs) = bool_decide (p = chars "node_").
Proof using.
  unfold prefixes, short_prefixes. rewrite !elem_of_cons, elem_of_nil.
  intros Hp. destruct cs as [|c cs].
  { by destruct Hp as [->|[->|[->|[->|[->|[]]]]]]. }
  assert (Hl : (4 <? str_len (p ++ c :: cs))%nat = true).
  { apply Nat.ltb_lt. eapply Nat.lt_le_trans; [|apply length_le_str_len]. rewrite length_app. cbn [length].
    destruct Hp as [->|[->|[->|[->|[->|[]]]]]]; cbn; lia. }
  unfold is_valid. rewrite Hl. clear Hl.
  destruct Hp as [->|[->|[->|[->|[->|[]]]]]]; (split; [|by split]); (apply f_equal2; [|done]); try reflexivity;
    (transitivity (if negb (length cs =? 59)%nat then false else true); [reflexivity|by destruct (length cs =? 59)%nat eqn:E; cbn; rewrite E]).
Qed.

(** *** Parsing *)

Lemma account_parse_total s : exists r, account_parse s = Some r.
Proof using UL.
  unfold account_parse, to_u512. destruct (is_valid s); [|by eexists].
  destruct (decode_digits_total (drop (prefix_len s) s) 0) as [->|[ds Hds]]; [by eexists|].
  rewrite (decode_digits_spec ds) by done. by eexists.
Qed.

(** A text that parses is a prefix and digits whose lower 296 bits spell the account. *)
Lemma account_parse_some p cs a :
  p ∈ prefixes ->
  account_parse (p ++ cs) = Some (Some a) <->
  (p = chars "node_" \/ length cs = 60%nat) /\ leading_ok cs = true /\
  exists ds, Forall2 is_digit ds cs /\ wf_u256 a /\ horner 32 ds 0 mod 2 ^ 296 = account_number a.
Proof using CL UL.
  intros Hp. destruct (valid_text p cs Hp) as (Hv & Hl & _). unfold account_parse, to_u512.
  rewrite Hv, Hl, drop_app_length. clear Hv Hl.
  assert (Hb : (bool_decide (p = chars "node_") || (length cs =? 60)%nat = true) <-> p = chars "node_" \/ length cs = 60%nat)
    by (by rewrite orb_true_iff, bool_decide_eq_true, Nat.eqb_eq).
  rewrite <- Hb. clear Hb. destruct (bool_decide _ || _), (leading_ok cs); cbn [andb mbind option_bind];
    try (split; [done|]; intros (?&?&?); done).
  destruct (decode_digits_total cs 0) as [E|[ds Hds]].
  - rewrite E. split; [done|]. intros (_ & _ & ds & Hds & _). by rewrite (decode_digits_spec ds) in E.
  - rewrite (decode_digits_spec ds) by done. cbn [mbind option_bind].
    assert (Hm : wrap 512 (horner 32 ds 0) mod 2 ^ 296 = horner 32 ds 0 mod 2 ^ 296)
      by (apply Z.mod_mod_divide; by exists (2 ^ 216)).
    split.
    + intros [= E]. apply to_account_spec in E; [|by apply wrap_in_u]. rewrite Hm in E. by repeat split; eauto.
    + intros (_ & _ & ds' & Hds' & E). f_equal. apply to_account_spec; [by apply wrap_in_u|].
      rewrite Hm. by rewrite (Forall2_is_digit_value ds ds' cs).
Qed.

Lemma account_text a cs :
  wf_u256 a -> Forall2 is_digit (account_digits a) cs -> length cs = 60%nat /\ leading_ok cs = true.
Proof using CL.
  intros Ha Hcs. pose proof (length_account_digits a) as Hl. rewrite (Forall2_length _ _ _ Hcs) in Hl. split; [done|].
  destruct (proj1 (leading_digit (account_digits a) (is_digits _ _ Hcs) (length_account_digits a))) as (d & ds & E & Hd).
  { rewrite account_digits_value by done. by apply account_number_lt. }
  rewrite E in Hcs. inversion Hcs as [|? c ? cs' Hc _]; subst. cbn. by apply (first_digit d c).
Qed.

Lemma parse_encoded p a cs :
  p ∈ prefixes -> wf_u256 a -> Forall2 is_digit (account_digits a) cs -> account_parse (p ++ cs) = Some (Some a).
Proof using CL UL.
  intros Hp Ha Hcs. destruct (account_text a cs Ha Hcs) as [Hl Hf]. apply account_parse_some; [done|].
  split; [by right|]. split; [done|]. exists (account_digits a). rewrite account_digits_value by done.
  split; [done|]. split; [done|]. apply Z.mod_small. by apply account_number_lt.
Qed.

Lemma parsed_text_canonical p cs a :
  p ∈ prefixes -> length cs = 60%nat -> account_parse (p ++ cs) = Some (Some a) ->
  wf_u256 a /\ encode_account a = Some (chars "nano_" ++ cs).
Proof using CL UL.
  intros Hp Hl (_ & Hf & ds & Hds & Ha & E)%account_parse_some; [|done]. split; [done|].
  destruct (encode_account_spec a Ha) as (cs' & Hcs' & ->). do 2 f_equal.
  enough (account_digits a = ds) as Eds by (rewrite Eds in Hcs'; by apply (Forall2_is_digit_char ds)).
  pose proof (is_digits _ _ Hds) as Hd. pose proof (Forall2_length _ _ _ Hds) as Hld. rewrite Hl in Hld.
  assert (Hlt : horner 32 ds 0 < 2 ^ 296).
  { apply leading_digit; [done..|]. destruct Hds as [|d c ds cs Hc _]; [done|]. exists d, ds. split; [done|]. by apply (first_digit d c). }
  destruct (horner_bound 32 ltac:(lia) ds 0 Hd ltac:(lia)) as [H0 _].
  rewrite Z.mod_small in E by lia. unfold account_digits. rewrite <- E, <- Hld, le_digits_horner by (done || lia).
  apply rev_involutive.
Qed.

Lemma node_id_canonical s a : node_id_from_str s = Some (Some a) -> wf_u256 a /\ node_id_display a = Some s.
Proof using CL UL.
  unfold node_id_from_str. destruct (starts_with (chars "node_") s) eqn:E; [|done].
  apply starts_with_app in E as [cs ->]. change (drop 5 (chars "node_" ++ cs)) with cs. intros Hp.
  assert (Hn : chars "nano_" ∈ prefixes) by (right; left).
  destruct (proj1 (account_parse_some _ _ _ Hn) Hp) as ([Hl|Hl] & _); [done|].
  destruct (parsed_text_canonical _ _ _ Hn Hl Hp) as [Ha He]. split; [done|].
  unfold node_id_display. by rewrite He.
Qed.

Lemma node_id_parses a : wf_u256 a -> exists s, node_id_display a = Some s /\ node_id_from_str s = Some (Some a).
Proof using CL UL.
  intros Ha. destruct (encode_account_spec a Ha) as (cs & Hcs & E). unfold node_id_display. rewrite E.
  exists (chars "node_" ++ cs). split; [done|]. apply (parse_encoded (chars "nano_") a cs); [right; left|done|done].
Qed.

(** After the prefix [node_] the length is not checked: any digits may come
    before the sixty of the account, the first of them [1] or [3]. *)
Lemma node_prefix_any_length a e ds junk :
  wf_u256 a -> encode_account a = Some e -> Forall2 is_digit ds junk -> leading_ok junk = true ->
  account_parse (chars "node_" ++ junk ++ drop 5 e) = Some (Some a).
Proof using CL UL.
  intros Ha E Hj Hf. destruct (encode_account_spec a Ha) as (cs & Hcs & E'). rewrite E in E'. injection E' as ->.
  change (drop 5 (chars "nano_" ++ cs)) with cs. apply account_parse_some; [left|]. split; [by left|].
  split; [by destruct junk|]. exists (ds ++ account_digits a). split; [by apply Forall2_app|]. split; [done|].
  rewrite horner_app, horner_shift, length_account_digits, account_digits_value by (done || lia).
  change (32 ^ Z.of_nat 60) with (2 ^ 4 * 2 ^ 296). rewrite Z.mul_assoc, Z.add_comm, Z_mod_plus_full.
  apply Z.mod_small. by apply account_number_lt.
Qed.

(** C36. The text form of accounts and node ids is exact. [Account::parse] and
    [NodeId::from_str] never panic, whatever the text. Every account has a
    text of 65 characters, which parses to it, and so do its digits after the
    other prefixes. A text that parses, unless its prefix is [node_], carries
    exactly the digits of the account's own text, so that one wrong or
    missing character is never silently accepted as the same account. Node
    ids have one text each: the one they are displayed as. *)
Theorem account_text_correct :
  (forall s, (exists r, account_parse s = Some r) /\ exists r, node_id_from_str s = Some r)
  /\ (forall a, wf_u256 a -> exists e, encode_account a = Some e /\ length e = 65%nat /\
       forall p, p ∈ prefixes -> account_parse (p ++ drop 5 e) = Some (Some a))
  /\ (forall s a, account_parse s = Some (Some a) -> has_node_id_prefix s = false ->
       wf_u256 a /\ encode_account a = Some (chars "nano_" ++ drop (prefix_len s) s))
  /\ (forall a, wf_u256 a -> exists s, node_id_display a = Some s /\ node_id_from_str s = Some (Some a))
  /\ (forall s a, node_id_from_str s = Some (Some a) -> wf_u256 a /\ node_id_display a = Some s).
Proof using CL UL.
  split_and!; eauto using node_id_canonical, node_id_parses.
  - intros s. split; [apply account_parse_total|]. unfold node_id_from_str.
    destruct (starts_with _ _); [apply account_parse_total|by eexists].
  - intros a Ha. destruct (encode_account_spec a Ha) as (cs & Hcs & E). exists (chars "nano_" ++ cs).
    split; [done|]. split; [cbn; by rewrite (proj1 (account_text a cs Ha Hcs))|].
    intros p Hp. by apply parse_encoded.
  - intros s a Hs Hn. destruct (has_valid_prefix s) eqn:Hv.
    + apply valid_prefix_app in Hv as (p & cs & Hp & ->). destruct (valid_text p cs Hp) as (_ & -> & Hnode).
      rewrite Hn in Hnode. symmetry in Hnode. apply bool_decide_eq_false in Hnode. rewrite drop_app_length.
      destruct (proj1 (account_parse_some _ _ _ Hp) Hs) as ([?|Hl] & _); [done|]. by apply (parsed_text_canonical p).
    + unfold account_parse, to_u512, is_valid in Hs. by rewrite Hv, andb_false_r in Hs.
Qed.
End account.

Lemma account_text_correct_witness :
  exists e, @encode_account model_crypto model_u512 12345 = Some e /\ @account_parse model_crypto model_u512 e = Some (Some 12345).
Proof.
  destruct (@account_text_correct model_crypto model_crypto_laws model_u512 model_u512_laws) as (_ & H & _).
  destruct (H 12345 ltac:(unfold wf_u256, in_u; lia)) as (e & He & _ & Hp). exists e. split; [exact He|].
  specialize (Hp (chars "nano_") ltac:(right; left)). vm_compute in He. injection He as <-. exact Hp.
Defined.

(** ** Amounts and hashes *)

Section radix.
Context (r : Z) (Hr : 2 <= r <= 16).

Lemma to_digit_hex_digit d : 0 <= d < r -> to_digit r (hex_digit d) = Some d.
Proof using Hr.
  intros Hd. unfold to_digit, hex_digit.
  destruct (d <? 10) eqn:E.
  - replace ((0x30 <=? 0x30 + d) && (0x30 + d <=? 0x39)) with true by lia. cbn.
    replace (0x30 + d - 0x30) with d by lia. by replace (d <? r) with true by lia.
  - replace ((0x30 <=? 0x41 + (d - 10)) && (0x41 + (d - 10) <=? 0x39)) with false by lia.
    replace ((0x61 <=? 0x41 + (d - 10)) && (0x41 + (d - 10) <=? 0x7a)) with false by lia.
    replace ((0x41 <=? 0x41 + (d - 10)) && (0x41 + (d - 10) <=? 0x5a)) with true by lia. cbn.
    replace (0x41 + (d - 10) - 0x41 + 10) with d by lia. by replace (d <? r) with true by lia.
Qed.

Lemma to_digit_range c d : to_digit r c = Some d -> 0 <= d < r.
Proof using. unfold to_digit. repeat case_match; cbn; try done; repeat case_match; try done; intros [= <-]; lia. Qed.

Lemma hex_digit_not_sign d : 0 <= d -> (hex_digit d =? 0x2b) || (hex_digit d =? 0x2d) = false.
Proof using. unfold hex_digit. case_match; lia. Qed.

Lemma digits_of_spec n z acc :
  0 <= z < r ^ Z.of_nat n -> (0 < n)%nat ->
  exists d ds, digits_of n r z acc = (hex_digit <$> d :: ds) ++ acc /\ digits r (d :: ds) /\ horner r (d :: ds) 0 = z.
Proof using Hr.
  revert z acc. induction n as [|n IH]; intros z acc Hz Hn; [lia|]. cbn [digits_of].
  pose proof (Z.mod_pos_bound z r ltac:(lia)) as Hm. pose proof (Z.div_mod z r ltac:(lia)) as Hdm.
  destruct (z / r =? 0) eqn:E.
  - exists (z mod r), []. split; [done|]. split; [by apply Forall_singleton|]. cbn. apply Z.eqb_eq in E. lia.
  - apply Z.eqb_neq in E. rewrite Nat2Z.inj_succ, Z.pow_succ_r in Hz by lia.
    pose proof (Z.div_pos z r ltac:(lia) ltac:(lia)). pose proof (Z.div_lt_upper_bound z r _ ltac:(lia) (proj2 Hz)).
    destruct (IH (z / r) (hex_digit (z mod r) :: acc)) as (d & ds & -> & Hds & Hv); [lia|destruct n; [cbn in *; lia|lia]|].
    exists d, (ds ++ [z mod r]). split; [by rewrite !fmap_cons, fmap_app, <- !app_comm_cons, <- app_assoc|].
    split; [apply (Forall_app_2 _ (d :: ds)); [done|by apply Forall_singleton]|].
    rewrite app_comm_cons, horner_app, Hv. cbn. lia.
Qed.

Lemma digits_of_length n k z acc :
  0 <= z < r ^ Z.of_nat k -> (0 < k)%nat -> (length (digits_of n r z acc) <= k + length acc)%nat.
Proof using Hr.
  revert k z acc. induction n as [|n IH]; intros k z acc Hz Hk; [cbn; lia|]. cbn [digits_of].
  destruct (z / r =? 0) eqn:E; [cbn; lia|]. apply Z.eqb_neq in E. destruct k as [|k]; [lia|].
  rewrite Nat2Z.inj_succ, Z.pow_succ_r in Hz by lia.
  pose proof (Z.div_pos z r ltac:(lia) ltac:(lia)). pose proof (Z.div_lt_upper_bound z r _ ltac:(lia) (proj2 Hz)).
  specialize (IH k (z / r) (hex_digit (z mod r) :: acc) ltac:(lia)). cbn [length] in *.
  destruct k as [|k]; [cbn in *; lia|]. lia.
Qed.

(** Digits of a number that fits are read back. *)
Lemma parse_digits_spec ds x :
  digits r ds -> 0 <= x -> horner r ds x < 2 ^ 128 -> parse_digits r (hex_digit <$> ds) x = Ok (horner r ds x).
Proof using Hr.
  intros Hds. revert x. induction Hds as [|d ds Hd Hds IH]; intros x Hx Hlt; [done|].
  change (horner r (d :: ds) x) with (horner r ds (x * r + d)) in *. cbn [fmap list_fmap parse_digits].
  rewrite to_digit_hex_digit by done. destruct (horner_bound r ltac:(lia) ds (x * r + d) Hds ltac:(nia)) as [H1 _].
  replace (2 ^ 128 <=? x * r) with false by lia. replace (2 ^ 128 <=? x * r + d) with false by lia. apply IH; nia.
Qed.

Lemma from_str_radix_digits d ds :
  digits r (d :: ds) -> horner r (d :: ds) 0 < 2 ^ 128 ->
  from_str_radix r (hex_digit <$> d :: ds) = Ok (horner r (d :: ds) 0).
Proof using Hr.
  intros Hds Hlt. pose proof (Forall_cons_1 _ _ _ Hds) as [[Hd _] _]. pose proof (hex_digit_not_sign d Hd) as Hs.
  rewrite <- parse_digits_spec by (done || lia). cbn [fmap list_fmap].
  destruct ds as [|d' ds]; unfold from_str_radix; cbn [fmap list_fmap]; [by rewrite Hs|].
  apply orb_false_iff in Hs as [-> _]. done.
Qed.

Lemma from_str_radix_padded k d ds :
  digits r (d :: ds) -> horner r (d :: ds) 0 < 2 ^ 128 ->
  from_str_radix r (hex_digit <$> replicate k 0 ++ d :: ds) = Ok (horner r (d :: ds) 0).
Proof using Hr.
  intros Hds Hlt.
  assert (Hz : forall k, digits r (replicate k 0)) by (intros k'; apply Forall_replicate; lia).
  assert (E : forall k, horner r (replicate k 0 ++ d :: ds) 0 = horner r (d :: ds) 0).
  { intros k'. rewrite horner_app. f_equal. induction k' as [|k' IH]; [done|]. exact IH. }
  destruct k as [|k]; [by apply from_str_radix_digits|]. rewrite <- (E (S k)). cbn [replicate app].
  rewrite <- (E (S k)) in Hlt. apply from_str_radix_digits; [|exact Hlt].
  apply (Forall_app_2 _ (replicate (S k) 0) (d :: ds)); [apply (Hz (S k))|done].
Qed.

Lemma parse_digits_in_u s x v : in_u 128 x -> parse_digits r s x = Ok v -> in_u 128 v.
Proof using Hr.
  revert x. induction s as [|c s IH]; intros x Hx; cbn; [by intros [= <-]|].
  destruct (to_digit r c) as [d|] eqn:E; [|done]. apply to_digit_range in E. unfold in_u in *.
  repeat case_match; try done. apply IH. nia.
Qed.

Lemma from_str_radix_in_u s v : from_str_radix r s = Ok v -> in_u 128 v.
Proof using Hr.
  assert (H0 : in_u 128 0) by (unfold in_u; lia).
  unfold from_str_radix. repeat case_match; try done; by apply parse_digits_in_u.
Qed.
End radix.

Lemma byte_hex_pair b : to_digit 16 (hex_digit (u8_of b / 16)) = Some (u8_of b / 16) /\ to_digit 16 (hex_digit (u8_of b mod 16)) = Some (u8_of b mod 16)
  /\ byte_of (16 * (u8_of b / 16) + u8_of b mod 16) = b.
Proof.
  pose proof (u8_of_in_u b) as Hb. unfold in_u in Hb. rewrite <- Z.div_mod by lia. split_and!.
  - apply to_digit_hex_digit; [lia|]. split; [apply Z.div_pos; lia|apply Z.div_lt_upper_bound; lia].
  - apply to_digit_hex_digit; [lia|]. apply Z.mod_pos_bound. lia.
  - unfold byte_of, u8_of. apply byte.of_Z_unsigned.
Qed.

Lemma encode_hex_pairs bs : hex_pairs (mjoin (byte_hex <$> bs)) bs /\ str_len (mjoin (byte_hex <$> bs)) = (2 * length bs)%nat.
Proof.
  induction bs as [|b bs [IH1 IH2]]; [by split; [constructor|]|]. destruct (byte_hex_pair b) as (H1 & H2 & H3).
  assert (Hlen : forall d, utf8_len (hex_digit d) = 1%nat \/ 16 <= d \/ d < 0).
  { intros d. unfold utf8_len, hex_digit. repeat case_match; lia. }
  assert (Hd : forall d, to_digit 16 (hex_digit d) = Some d -> utf8_len (hex_digit d) = 1%nat).
  { intros d Hd%to_digit_range. destruct (Hlen d) as [?|?]; [done|lia]. }
  split.
  - rewrite <- H3 at 2. cbn. by constructor.
  - transitivity (utf8_len (hex_digit (u8_of b / 16)) + (utf8_len (hex_digit (u8_of b mod 16)) + str_len (mjoin (byte_hex <$> bs))))%nat;
      [done|]. rewrite (Hd _ H1), (Hd _ H2), IH2. cbn [length]. lia.
Qed.

(** Amounts and 32-byte values survive their text forms: the decimal
    and the padded hexadecimal text of an amount, and the hexadecimal text of
    a hash, key or account are read back as the value they were written from;
    and whatever text is read, an amount that results fits in 128 bits and a
    hash in 256. *)
Theorem numbers_text_roundtrip `{X : Hex} {XL : HexLaws X} :
  (forall a, wf_amount a -> decode_dec (to_string_dec a) = Ok a)
  /\ (forall a, wf_amount a -> length (amount_encode_hex a) = 32%nat /\ amount_decode_hex (amount_encode_hex a) = Some a)
  /\ (forall x, wf_u256 x -> decode_hex (encode_hex x) = Some x)
  /\ (forall s a, decode_dec s = Ok a \/ amount_decode_hex s = Some a -> wf_amount a)
  /\ (forall s x, decode_hex s = Some x -> wf_u256 x).
Proof.
  split_and!.
  - intros a Ha. destruct (digits_of_spec 10 ltac:(lia) 128 a []) as (d & ds & E & Hds & Hv); [unfold wf_amount, in_u in *; lia|lia|].
    unfold decode_dec, to_string_dec. rewrite E, app_nil_r, from_str_radix_digits; [by rewrite Hv|lia|done|].
    rewrite Hv. apply Ha.
  - intros a Ha. destruct (digits_of_spec 16 ltac:(lia) 128 a []) as (d & ds & E & Hds & Hv); [unfold wf_amount, in_u in *; lia|lia|].
    pose proof (digits_of_length 16 ltac:(lia) 128 32 a [] Ha ltac:(lia)) as Hl.
    unfold amount_decode_hex, amount_encode_hex. rewrite E, app_nil_r in *. split.
    { rewrite length_app, length_replicate. cbn [length] in *. lia. }
    rewrite <- (fmap_replicate hex_digit _ 0), <- fmap_app. rewrite from_str_radix_padded; [by rewrite Hv|lia|done|].
    rewrite Hv. apply Ha.
  - intros x Hx. unfold decode_hex, encode_hex, decode_32_bytes_hex. destruct (encode_hex_pairs (u256_serialize x)) as [Hp ->].
    unfold u256_serialize in *. rewrite length_to_be_bytes. cbn [Nat.mul Nat.eqb Nat.ltb Nat.leb orb Nat.add].
    pose proof (hex_decode_some _ _ Hp) as E. rewrite length_to_be_bytes in E. rewrite E. cbn. f_equal. by apply from_to_be_bytes.
  - intros s a [E|E].
    + by apply (from_str_radix_in_u 10) in E.
    + unfold amount_decode_hex in E. destruct (from_str_radix 16 s) eqn:E'; [|done]. injection E as ->.
      by apply (from_str_radix_in_u 16) in E'.
  - intros s x. unfold decode_hex, decode_32_bytes_hex. case_match; [done|]. intros (bs & E & ->)%fmap_Some.
    destruct (hex_decode_only _ _ _ E) as [_ Hl]. pose proof (from_be_bytes_in_u bs) as Hb. by rewrite Hl in Hb.
Qed.

Lemma numbers_text_roundtrip_witness :
  @decode_hex model_hex (encode_hex (2 ^ 255 + 7)) = Some (2 ^ 255 + 7) /\ decode_dec (to_string_dec (10 ^ 30)) = Ok (10 ^ 30).
Proof.
  destruct (@numbers_text_roundtrip model_hex model_hex_laws) as (H1 & _ & H2 & _).
  split; [apply H2 | apply H1]; unfold wf_u256, wf_amount, in_u; lia.
Defined.
