(* ===== verification/OnlineReps.v ===== *)
(** * Representatives that are online, and the quorum
    (node/src/representatives: online_reps, online_weight_sampler.rs,
    online_weight_calculation.rs; store_lmdb/src/online_weight_store.rs)

    The weight cache is shared with the ledger, which changes it at any time:
    an operation takes the weights it reads as arguments, one for each time it
    locks the cache. Of a channel only its id and the address of the peer are
    used here. The 256-bit integers of the crate primitive_types are
    parameters. A [SystemTime] is its distance from the Unix epoch in
    nanoseconds, an [Instant] a [Timestamp]. *)

From S2P Require Import Prelude Types Store RepWeights Election Collections ActiveElections.

(** ** U256 *)

Class U256Arith := {
  u256_add : Z -> Z -> Z;
  u256_mul : Z -> Z -> Z;
  u256_div : Z -> Z -> Z;
  u256_as_u128 : Z -> option Z;
}.

(** A sum or product that fits and a quotient are those of the integers; a
    value is converted if it fits. *)
Class U256Laws (U : U256Arith) := {
  u256_add_spec : forall x y, in_u 256 x -> in_u 256 y -> in_u 256 (x + y) -> u256_add x y = x + y;
  u256_mul_spec : forall x y, in_u 256 x -> in_u 256 y -> in_u 256 (x * y) -> u256_mul x y = x * y;
  u256_div_spec : forall x y, in_u 256 x -> in_u 256 y -> y <> 0 -> u256_div x y = x / y;
  u256_as_u128_spec : forall x, in_u 128 x -> u256_as_u128 x = Some x;
}.

Definition model_u256 : U256Arith := {|
  u256_add x y := wrap 256 (x + y);
  u256_mul x y := wrap 256 (x * y);
  u256_div x y := x / y;
  u256_as_u128 x := if decide (in_u 128 x) then Some x else None;
|}.

Lemma model_u256_laws : U256Laws model_u256.
Proof. split; cbn; [by intros; apply wrap_small|by intros; apply wrap_small|done|]. intros x Hx. by rewrite decide_True. Qed.

(** ** online_container.rs *)

Record OnlineContainer := mkOnlineContainer {
  oc_by_time : gmap Timestamp (list PublicKey);
  oc_by_account : gmap PublicKey Timestamp;
}.

Definition oc_new : OnlineContainer := mkOnlineContainer ∅ ∅.

Definition oc_iter `{HashOrder} (c : OnlineContainer) : list PublicKey := (hash_iter (oc_by_account c)).*1.

Definition oc_insert (rep : PublicKey) (now : Timestamp) (c : OnlineContainer) : option (bool * OnlineContainer) :=
  match oc_by_account c !! rep with
  | Some old_time =>
      by_time ← index_take old_time rep (oc_by_time c);
      Some (false, mkOnlineContainer (index_push now rep by_time) (<[rep := now]> (oc_by_account c)))
  | None => Some (true, mkOnlineContainer (index_push now rep (oc_by_time c)) (<[rep := now]> (oc_by_account c)))
  end.

Fixpoint oc_trim_loop (fuel : nat) (upper_bound : Timestamp) (trimmed : list (PublicKey * Timestamp)) (c : OnlineContainer)
    : run (list (PublicKey * Timestamp) * OnlineContainer) :=
  match fuel with
  | O => Running
  | S fuel =>
      match btm_first Z.compare (oc_by_time c) with
      | None => Finished (trimmed, c)
      | Some (time, accounts) =>
          if upper_bound <=? time then Finished (trimmed, c)
          else
            let by_account := foldl (fun m account => delete account m) (oc_by_account c) accounts in
            oc_trim_loop fuel upper_bound (trimmed ++ ((fun account => (account, time)) <$> accounts))
              (mkOnlineContainer (delete time (oc_by_time c)) by_account)
      end
  end.

(** Every turn takes one time out. *)
Definition oc_trim (upper_bound : Timestamp) (c : OnlineContainer) : run (list (PublicKey * Timestamp) * OnlineContainer) :=
  oc_trim_loop (S (size (oc_by_time c))) upper_bound [] c.

Definition oc_len (c : OnlineContainer) : nat := size (oc_by_account c).

(** ** peered_rep.rs, peered_container.rs *)

Record RepChannel := mkRepChannel {
  rch_channel_id : Z;
  rch_peer_addr : Z * Z;
}.

Record PeeredRep := mkPeeredRep {
  prp_account : PublicKey;
  prp_channel : RepChannel;
  prp_last_request : Timestamp;
}.

Definition prp_channel_id (r : PeeredRep) : Z := rch_channel_id (prp_channel r).

Inductive InsertResult := Inserted | InsertUpdated | ChannelChanged (old : Z * Z).

Record PeeredContainer := mkPeeredContainer {
  pec_by_account : gmap PublicKey PeeredRep;
  pec_by_channel_id : gmap Z (list PublicKey);
}.

Definition pec_new : PeeredContainer := mkPeeredContainer ∅ ∅.

Definition remove_channel_id (account : PublicKey) (channel_id : Z) (m : gmap Z (list PublicKey))
    : option (gmap Z (list PublicKey)) := index_take channel_id account m.

Definition update_or_insert (account : PublicKey) (channel : RepChannel) (now : Timestamp) (c : PeeredContainer)
    : option (InsertResult * PeeredContainer) :=
  match pec_by_account c !! account with
  | Some rep =>
      if negb (prp_channel_id rep =? rch_channel_id channel) then
        by_channel ← remove_channel_id account (prp_channel_id rep) (pec_by_channel_id c);
        Some (ChannelChanged (rch_peer_addr (prp_channel rep)),
              mkPeeredContainer (<[account := mkPeeredRep (prp_account rep) channel (prp_last_request rep)]> (pec_by_account c))
                (index_push (rch_channel_id channel) account by_channel))
      else Some (InsertUpdated, c)
  | None =>
      Some (Inserted, mkPeeredContainer (<[account := mkPeeredRep account channel now]> (pec_by_account c))
                        (index_push (rch_channel_id channel) account (pec_by_channel_id c)))
  end.

Definition pec_iter `{HashOrder} (c : PeeredContainer) : list PeeredRep := (hash_iter (pec_by_account c)).*2.
Definition pec_accounts `{HashOrder} (c : PeeredContainer) : list PublicKey := (hash_iter (pec_by_account c)).*1.

Definition accounts_by_channel (channel_id : Z) (c : PeeredContainer) : list PublicKey :=
  default [] (pec_by_channel_id c !! channel_id).

Definition iter_by_channel (channel_id : Z) (c : PeeredContainer) : option (list PeeredRep) :=
  mapM (fun account => pec_by_account c !! account) (accounts_by_channel channel_id c).

Fixpoint modify_reps (modify : PeeredRep -> PeeredRep) (accounts : list PublicKey) (m : gmap PublicKey PeeredRep)
    : option (gmap PublicKey PeeredRep) :=
  match accounts with
  | [] => Some m
  | account :: accounts => rep ← m !! account; modify_reps modify accounts (<[account := modify rep]> m)
  end.

Definition modify_by_channel (channel_id : Z) (modify : PeeredRep -> PeeredRep) (c : PeeredContainer) : option PeeredContainer :=
  match pec_by_channel_id c !! channel_id with
  | Some rep_accounts =>
      by_account ← modify_reps modify rep_accounts (pec_by_account c);
      Some (mkPeeredContainer by_account (pec_by_channel_id c))
  | None => Some c
  end.

Definition pec_len (c : PeeredContainer) : nat := size (pec_by_account c).

Definition pec_remove (channel_id : Z) (c : PeeredContainer) : list PublicKey * PeeredContainer :=
  match pec_by_channel_id c !! channel_id with
  | None => ([], c)
  | Some accounts =>
      (accounts, mkPeeredContainer (foldl (fun m account => delete account m) (pec_by_account c) accounts)
                   (delete channel_id (pec_by_channel_id c)))
  end.

(** ** online_reps/mod.rs *)

Definition ONLINE_WEIGHT_QUORUM : Z := 67.
Definition DEFAULT_ONLINE_WEIGHT_MINIMUM : Amount := nano 60000000.

Record OnlineReps := mkOnlineReps {
  or_online_reps : OnlineContainer;
  or_peered_reps : PeeredContainer;
  or_trended_weight : Amount;
  or_online_weight : Amount;
  or_online_weight_minimum : Amount;
  or_representative_weight_minimum : Amount;
  or_trim_counter : Z;
}.

Definition online_reps_new (online_weight_minimum representative_weight_minimum : Amount) : OnlineReps :=
  mkOnlineReps oc_new pec_new amount_ZERO amount_ZERO online_weight_minimum representative_weight_minimum 0.

Definition or_with_online (c : OnlineContainer) (o : OnlineReps) : OnlineReps :=
  mkOnlineReps c (or_peered_reps o) (or_trended_weight o) (or_online_weight o) (or_online_weight_minimum o)
    (or_representative_weight_minimum o) (or_trim_counter o).
Definition or_with_peered (c : PeeredContainer) (o : OnlineReps) : OnlineReps :=
  mkOnlineReps (or_online_reps o) c (or_trended_weight o) (or_online_weight o) (or_online_weight_minimum o)
    (or_representative_weight_minimum o) (or_trim_counter o).
Definition or_with_online_weight (w : Amount) (o : OnlineReps) : OnlineReps :=
  mkOnlineReps (or_online_reps o) (or_peered_reps o) (or_trended_weight o) w (or_online_weight_minimum o)
    (or_representative_weight_minimum o) (or_trim_counter o).

Definition trended_or_minimum_weight (o : OnlineReps) : Amount := Z.max (or_trended_weight o) (or_online_weight_minimum o).

Definition set_trended (trended : Amount) (o : OnlineReps) : OnlineReps :=
  mkOnlineReps (or_online_reps o) (or_peered_reps o) trended (or_online_weight o) (or_online_weight_minimum o)
    (or_representative_weight_minimum o) (or_trim_counter o).

Definition minimum_principal_weight (o : OnlineReps) : Amount := trended_or_minimum_weight o / 1000.

Definition is_principal_rep (weights : RepWeights) (channel_id : Z) (o : OnlineReps) : bool :=
  existsb (fun account => minimum_principal_weight o <=? weight_of weights account) (accounts_by_channel channel_id (or_peered_reps o)).

Section hash_order.
Context `{HashOrder} `{U256Arith}.

Definition peered_weight (weights : RepWeights) (o : OnlineReps) : Amount :=
  foldl (fun result account => amount_add result (weight_of weights account)) amount_ZERO (pec_accounts (or_peered_reps o)).

Definition peered_reps_count (o : OnlineReps) : nat := pec_len (or_peered_reps o).

(** [None]: [as_u128] of a value that does not fit. *)
Definition quorum_delta (o : OnlineReps) : option Amount :=
  let weight := Z.max (or_online_weight o) (trended_or_minimum_weight o) in
  u256_as_u128 (u256_div (u256_mul weight ONLINE_WEIGHT_QUORUM) 100).

Definition quorum_specs (o : OnlineReps) : option QuorumSpecs :=
  delta ← quorum_delta o; Some (mkQuorumSpecs (trended_or_minimum_weight o) delta).

Definition on_rep_request (channel_id : Z) (now : Timestamp) (o : OnlineReps) : option OnlineReps :=
  c ← modify_by_channel channel_id (fun rep => mkPeeredRep (prp_account rep) (prp_channel rep) now) (or_peered_reps o);
  Some (or_with_peered c o).

(** Iterators are lazy: only the first account is looked up. *)
Definition last_request_elapsed (channel_id : Z) (now : Timestamp) (o : OnlineReps) : option (option Duration) :=
  match accounts_by_channel channel_id (or_peered_reps o) with
  | [] => Some None
  | account :: _ =>
      rep ← pec_by_account (or_peered_reps o) !! account;
      Some (Some (elapsed (prp_last_request rep) now))
  end.

Record PeeredRepInfo := mkPeeredRepInfo {
  pri_rep_key : PublicKey;
  pri_channel : RepChannel;
  pri_weight : Amount;
}.

Definition representatives_filter (weights : RepWeights) (min_weight : Amount) (o : OnlineReps) : list PeeredRepInfo :=
  let reps_with_weight :=
    filter (fun r => min_weight < r.2) ((fun rep => (rep, weight_of weights (prp_account rep))) <$> pec_iter (or_peered_reps o)) in
  (fun r => mkPeeredRepInfo (prp_account r.1) (prp_channel r.1) r.2) <$> sort_by (fun a b => b.2 <=? a.2) reps_with_weight.

Definition peered_reps (weights : RepWeights) (o : OnlineReps) : list PeeredRepInfo :=
  representatives_filter weights amount_ZERO o.
Definition peered_principal_reps (weights : RepWeights) (o : OnlineReps) : list PeeredRepInfo :=
  representatives_filter weights (minimum_principal_weight o) o.

Definition calculate_online_weight (weights : RepWeights) (o : OnlineReps) : OnlineReps :=
  or_with_online_weight
    (foldl (fun current account => amount_add current (weight_of weights account)) amount_ZERO (oc_iter (or_online_reps o))) o.

(** The weights are read twice: for the representative, and for the sum. *)
Definition vote_observed (weights weights' : RepWeights) (rep_account : PublicKey) (now : Timestamp) (o : OnlineReps)
    : option (bool * OnlineReps) :=
  if weight_of weights rep_account <? or_representative_weight_minimum o then Some (false, o)
  else
    '(new_insert, c) ← oc_insert rep_account now (or_online_reps o);
    let o := or_with_online c o in
    Some (true, if new_insert : bool then calculate_online_weight weights' o else o).

(** [now.checked_sub(..).unwrap_or_default()] on [i128] *)
Definition trim_bound (now : Timestamp) : Timestamp :=
  let t := now - secs (60 * 10) in if (- 2 ^ 127 <=? t) && (t <? 2 ^ 127) then t else 0.

Definition online_reps_trim (weights : RepWeights) (now : Timestamp) (o : OnlineReps) : run OnlineReps :=
  '(trimmed, c) ← oc_trim (trim_bound now) (or_online_reps o);
  let o := mkOnlineReps c (or_peered_reps o) (or_trended_weight o) (or_online_weight o) (or_online_weight_minimum o)
             (or_representative_weight_minimum o) (wrap 64 (or_trim_counter o + 1)) in
  Finished (match trimmed with [] => o | _ => calculate_online_weight weights o end).

Definition vote_observed_directly (weights weights' : RepWeights) (rep_account : PublicKey) (channel : RepChannel)
    (now : Timestamp) (o : OnlineReps) : option (InsertResult * OnlineReps) :=
  '(is_rep, o) ← vote_observed weights weights' rep_account now o;
  if is_rep : bool then
    '(r, c) ← update_or_insert rep_account channel now (or_peered_reps o);
    Some (r, or_with_peered c o)
  else Some (InsertUpdated, o).

Definition remove_peer (channel_id : Z) (o : OnlineReps) : list PublicKey * OnlineReps :=
  let '(removed, c) := pec_remove channel_id (or_peered_reps o) in (removed, or_with_peered c o).

(** cleanup.rs *)
Definition reps_clean_up_dead_channels (dead_channel_ids : list Z) (o : OnlineReps) : OnlineReps :=
  foldl (fun o channel_id => (remove_peer channel_id o).2) o dead_channel_ids.

Record ConsensusParams := mkConsensusParams { cp_rep_weights : RepWeights; cp_quorum_weight : Amount }.

Definition get_consensus_params (weights : RepWeights) (o : OnlineReps) : option ConsensusParams :=
  quorum_weight ← quorum_delta o; Some (mkConsensusParams weights quorum_weight).

(** ** online_weight_sampler.rs *)

(** The table of samples, by time in seconds; its keys are big-endian, so that
    the cursor goes through them in order. *)
Abbreviation OnlineWeightTable := (gmap Z Amount) (only parsing).

Definition NANOS : Z := 10 ^ 9.
Definition system_time_as_seconds (time : Z) : option Z := if time <? 0 then None else Some (time / NANOS).

Definition load_samples (t : OnlineWeightTable) : list Amount := (btm_entries Z.compare t).*2.

Definition medium_weight (items : list Amount) : option Amount :=
  match items with
  | [] => Some amount_ZERO
  | _ => sort_by Z.leb items !! Nat.div (length items) 2
  end.

Definition calculate_trend (t : OnlineWeightTable) : option (Amount * nat) :=
  let samples := load_samples t in
  trended ← medium_weight samples;
  Some (trended, length samples).

Fixpoint take_while {A} (P : A -> bool) (l : list A) : list A :=
  match l with
  | [] => []
  | x :: l => if P x then x :: take_while P l else []
  end.

Definition old_samples (cutoff : Duration) (now : Z) (t : OnlineWeightTable) : option (list Z) :=
  timestamp_cutoff ← system_time_as_seconds (now - cutoff);
  Some (take_while (fun ts => ts <? timestamp_cutoff) (btm_entries Z.compare t).*1).

Definition future_samples (now : Z) (t : OnlineWeightTable) : option (list Z) :=
  timestamp_now ← system_time_as_seconds now;
  Some (take_while (fun ts => timestamp_now <? ts) (btm_entries desc t).*1).

Definition samples_to_delete (cutoff : Duration) (now : Z) (t : OnlineWeightTable) : option (list Z) :=
  old ← old_samples cutoff now t;
  future ← future_samples now t;
  Some (old ++ future).

Context `{LmdbEngine}.

Fixpoint delete_samples (times : list Z) (t : OnlineWeightTable) : option OnlineWeightTable :=
  match times with
  | [] => Some t
  | time :: times => t ← table_del t time; delete_samples times t
  end.

Definition sanitize_samples (cutoff : Duration) (now : Z) (t : OnlineWeightTable) : option OnlineWeightTable :=
  to_delete ← samples_to_delete cutoff now t; delete_samples to_delete t.

Definition insert_new_sample (current_online_weight : Amount) (now : Z) (t : OnlineWeightTable) : option OnlineWeightTable :=
  time ← system_time_as_seconds now; Some (<[time := current_online_weight]> t).

Definition add_sample (cutoff : Duration) (current_online_weight : Amount) (now : Z) (t : OnlineWeightTable)
    : option OnlineWeightTable :=
  t ← sanitize_samples cutoff now t; insert_new_sample current_online_weight now t.

(** ** online_weight_calculation.rs *)

Record WeightCalculation := mkWeightCalculation {
  wc_online : OnlineReps;
  wc_samples : OnlineWeightTable;
  wc_cutoff : Duration;
  wc_first_run : bool;
  wc_last_sample : Timestamp;
}.

(** The clocks and the weights, as a tick reads them. *)
Record TickInput := mkTickInput {
  ti_system : Z;
  ti_elapsed_at : Timestamp;
  ti_instant : Timestamp;
  ti_now : Timestamp;
  ti_trim_weights : RepWeights;
  ti_weights : RepWeights;
}.

Definition calculate_trended_weight (w : WeightCalculation) : option WeightCalculation :=
  '(trended, _) ← calculate_trend (wc_samples w);
  Some (mkWeightCalculation (set_trended trended (wc_online w)) (wc_samples w) (wc_cutoff w) (wc_first_run w) (wc_last_sample w)).

Definition calculation_tick (i : TickInput) (w : WeightCalculation) : run WeightCalculation :=
  if wc_first_run w then
    samples ← unwrap (sanitize_samples (wc_cutoff w) (ti_system i) (wc_samples w));
    w ← unwrap (calculate_trended_weight (mkWeightCalculation (wc_online w) samples (wc_cutoff w) true (ti_instant i)));
    Finished (mkWeightCalculation (wc_online w) (wc_samples w) (wc_cutoff w) false (wc_last_sample w))
  else
    online ← online_reps_trim (ti_trim_weights i) (ti_now i) (wc_online w);
    let online := calculate_online_weight (ti_weights i) online in
    if secs 60 <? Z.max 0 (ti_elapsed_at i - wc_last_sample w) then
      samples ← unwrap (add_sample (wc_cutoff w) (or_online_weight online) (ti_system i) (wc_samples w));
      w ← unwrap (calculate_trended_weight (mkWeightCalculation online samples (wc_cutoff w) false (wc_last_sample w)));
      Finished (mkWeightCalculation (wc_online w) (wc_samples w) (wc_cutoff w) false (ti_instant i))
    else Finished (mkWeightCalculation online (wc_samples w) (wc_cutoff w) false (wc_last_sample w)).
End hash_order.
