(* ===== verification/OnlineRepsTheorems.v ===== *)
(** * The quorum follows the weight that is online

    The indexes of both containers agree with their maps; the representatives
    online are those whose votes were observed in the last ten minutes; samples
    outside the time window are deleted, the trend is a median, and the quorum
    is 67% of the largest of the online, the trended and the minimal weight. *)

From S2P Require Import Prelude Types Store RepWeights Election Collections ActiveElections.
From S2P Require Import OnlineReps.

(** ** Sums of weights *)

Definition rep_sum (w : RepWeights) (l : list PublicKey) : Z := foldr (fun r s => weight_of w r + s) 0 l.

(** What the ledger guarantees of the weights: together they are at most the
    supply. *)
Definition weights_ok (w : RepWeights) : Prop := map_Forall (fun _ x => 0 <= x) w /\ map_sum (fun x => x) w < 2 ^ 128.

Lemma weight_of_nonneg w r : map_Forall (fun _ x => 0 <= x) w -> 0 <= weight_of w r.
Proof. intros Hw. unfold weight_of. destruct (w !! r) as [x|] eqn:E; cbn; [by apply (Hw r)|lia]. Qed.

Lemma rep_sum_cons w r l : rep_sum w (r :: l) = weight_of w r + rep_sum w l.
Proof. done. Qed.

Lemma rep_sum_perm w l l' : l ≡ₚ l' -> rep_sum w l = rep_sum w l'.
Proof. unfold rep_sum. induction 1; cbn; lia. Qed.

Lemma rep_sum_nonneg w l : map_Forall (fun _ x => 0 <= x) w -> 0 <= rep_sum w l.
Proof. intros Hw. induction l as [|r l IH]; [done|]. rewrite rep_sum_cons. pose proof (weight_of_nonneg w r Hw). lia. Qed.

Lemma rep_sum_delete w r l : r ∉ l -> rep_sum (delete r w) l = rep_sum w l.
Proof.
  induction l as [|x l IH]; [done|]. intros [Hx Hl]%not_elem_of_cons. rewrite !rep_sum_cons, IH by done.
  unfold weight_of. by rewrite lookup_delete_ne.
Qed.

(** Representatives that are counted once have at most the whole weight. *)
Lemma rep_sum_le w l : map_Forall (fun _ x => 0 <= x) w -> NoDup l -> rep_sum w l <= map_sum (fun x => x) w.
Proof.
  intros Hw Hnd. revert w Hw. induction Hnd as [|r l Hr Hnd IH]; intros w Hw; [by apply (map_sum_nonneg (fun x : Amount => x))|].
  rewrite rep_sum_cons, <- (rep_sum_delete w r l Hr). specialize (IH (delete r w) ltac:(by apply map_Forall_delete)).
  unfold weight_of. destruct (w !! r) as [x|] eqn:E; cbn.
  - rewrite (map_sum_delete _ _ _ _ E) in IH. lia.
  - rewrite delete_id in IH |- * by done. lia.
Qed.

Lemma sum_weights w l acc :
  weights_ok w -> NoDup l -> 0 <= acc -> acc + rep_sum w l < 2 ^ 128 ->
  foldl (fun s account => amount_add s (weight_of w account)) acc l = acc + rep_sum w l.
Proof.
  intros [Hw _] Hnd. revert acc. induction Hnd as [|r l Hr Hnd IH]; intros acc Ha Hl; [cbn in *; lia|]. rewrite rep_sum_cons in *.
  cbn [foldl].
  pose proof (weight_of_nonneg w r Hw). pose proof (rep_sum_nonneg w l Hw).
  rewrite IH; unfold amount_add; rewrite wrap_small; unfold in_u; lia.
Qed.

(** ** online_container.rs *)

Definition online_ok (c : OnlineContainer) : Prop := index_ok (fun t => t) (oc_by_account c) (oc_by_time c).

Lemma oc_insert_ok rep now c :
  online_ok c -> exists c', oc_insert rep now c = Some (bool_decide (oc_by_account c !! rep = None), c') /\
    online_ok c' /\ oc_by_account c' = <[rep := now]> (oc_by_account c).
Proof.
  intros Hc. unfold oc_insert. destruct (oc_by_account c !! rep) as [old|] eqn:E.
  - destruct (index_move_ok (fun t => t) _ _ rep old now Hc E) as (idx & -> & Hok). cbn. eexists. split; [done|]. done.
  - eexists. split; [done|]. split; [|done]. by apply (index_push_ok (fun t => t)).
Qed.

Lemma foldl_delete_filter {V} (l : list PublicKey) (m : gmap PublicKey V) :
  foldl (fun m a => delete a m) m l = filter (fun e => e.1 ∉ l) m.
Proof.
  revert m. induction l as [|a l IH]; intros m; cbn.
  - symmetry. apply map_filter_id. intros i x _ ?%elem_of_nil. done.
  - rewrite IH. apply map_eq. intros i. apply option_eq. intros x. rewrite !map_lookup_filter_Some. cbn.
    rewrite not_elem_of_cons, lookup_delete_Some. intuition congruence.
Qed.

(** Taking the elements of one key away. *)
Lemma index_delete_key {K A} `{Countable K} (key : A -> K) (m : gmap PublicKey A) (idx : gmap K (list PublicKey)) k l :
  index_ok key m idx -> idx !! k = Some l ->
  let m' := foldl (fun m a => delete a m) m l in
  index_ok key m' (delete k idx) /\ forall r a, m' !! r = Some a <-> m !! r = Some a /\ key a <> k.
Proof.
  intros Hi Ek. cbn zeta. rewrite foldl_delete_filter.
  assert (Hm : forall r a, filter (fun e : PublicKey * A => e.1 ∉ l) m !! r = Some a <-> m !! r = Some a /\ key a <> k).
  { intros r a. rewrite map_lookup_filter_Some. cbn. destruct (Hi k) as (_ & _ & He). rewrite Ek in He. cbn in He.
    split; intros [Ea Hn]; (split; [done|]).
    - intros Hk. apply Hn, He. by exists a.
    - intros (b & Eb & Hb)%He. congruence. }
  split; [|done]. intros k'. destruct (decide (k' = k)) as [->|Hk].
  - rewrite lookup_delete_eq. split; [constructor|]. split; [done|]. intros r. split; [by intros ?%elem_of_nil|].
    intros (a & [_ Hne]%Hm & E). done.
  - rewrite lookup_delete_ne by done. destruct (Hi k') as (Hnd & Hne & He). split; [done|]. split; [done|].
    intros r. rewrite He. split; intros (a & Ea & E); exists a; (split; [|done]).
    + apply Hm. split; [done|]. congruence.
    + by apply Hm in Ea as [? _].
Qed.

Definition seen_since (bound : Timestamp) (m : gmap PublicKey Timestamp) : gmap PublicKey Timestamp :=
  filter (fun e => bound <= e.2) m.

Lemma oc_trim_loop_ok fuel bound trimmed c :
  online_ok c -> (size (oc_by_time c) < fuel)%nat ->
  exists ext c', oc_trim_loop fuel bound trimmed c = Finished (trimmed ++ ext, c') /\ online_ok c' /\
    oc_by_account c' = seen_since bound (oc_by_account c) /\ (ext = [] -> c' = c).
Proof.
  revert trimmed c. induction fuel as [|fuel IH]; intros trimmed c Hc Hf; [lia|]. cbn [oc_trim_loop].
  destruct (btm_first Z.compare (oc_by_time c)) as [[time accounts]|] eqn:Ef.
  - pose proof (btm_first_lookup _ _ _ _ Ef) as Et. destruct (Z.leb_spec bound time) as [Hb|Hb].
    + exists [], c. rewrite app_nil_r. split; [done|]. split; [done|]. split; [|done]. symmetry. apply map_filter_id.
      intros r t Er. cbn. destruct (Hc t) as (_ & _ & He).
      assert (Hin : r ∈ default [] (oc_by_time c !! t)) by (apply He; by exists t).
      destruct (oc_by_time c !! t) as [l|] eqn:El; [|by apply elem_of_nil in Hin].
      pose proof (btm_first_least _ _ _ _ _ _ Z_key_order Ef El) as Hle. rewrite Z.compare_ngt_iff in Hle. lia.
    + destruct (index_delete_key (fun t => t) _ _ _ _ Hc Et) as [Hok Hm]. cbn zeta in Hok, Hm.
      set (m := foldl (fun m a => delete a m) (oc_by_account c) accounts) in *.
      destruct (IH (trimmed ++ ((fun a => (a, time)) <$> accounts)) (mkOnlineContainer (delete time (oc_by_time c)) m))
        as (ext & c' & -> & Hok' & Hseen & _); [done| |].
      { cbn. rewrite map_size_delete_Some by (by eexists).
        assert (size (oc_by_time c) <> 0%nat) by (intros Hz%map_size_empty_inv; by rewrite Hz, lookup_empty in Et). lia. }
      eexists _, c'. rewrite <- app_assoc. split; [done|]. split; [done|]. split.
      * rewrite Hseen. cbn. unfold seen_since. apply map_eq. intros r. apply option_eq. intros t.
        rewrite !map_lookup_filter_Some, Hm. cbn. intuition lia.
      * destruct (Hc time) as (_ & Hne & _). rewrite Et in Hne. by destruct accounts.
  - exists [], c. rewrite app_nil_r. split; [done|]. split; [done|]. split; [|done]. symmetry. apply map_filter_id.
    intros r t Er. cbn. destruct (Hc t) as (_ & _ & He). apply btm_first_None in Ef. rewrite Ef, lookup_empty in He. cbn in He.
    assert (r ∈ @nil PublicKey) as []%elem_of_nil. apply He. by exists t.
Qed.

Lemma oc_trim_ok bound c :
  online_ok c -> exists trimmed c', oc_trim bound c = Finished (trimmed, c') /\ online_ok c' /\
    oc_by_account c' = seen_since bound (oc_by_account c) /\ (trimmed = [] -> c' = c).
Proof. intros Hc. apply (oc_trim_loop_ok _ bound [] c Hc). lia. Qed.

(** ** peered_container.rs *)

Definition peered_ok (c : PeeredContainer) : Prop :=
  index_ok prp_channel_id (pec_by_account c) (pec_by_channel_id c) /\
  map_Forall (fun account rep => prp_account rep = account) (pec_by_account c).

(** The specification of the peered representatives: the channel over which a
    representative was heard first, or last if it was another one, and the time
    of the last request. *)
Abbreviation Peers := (gmap PublicKey (RepChannel * Timestamp)).

Definition peer_rep (a : PublicKey) (p : RepChannel * Timestamp) : PeeredRep := mkPeeredRep a p.1 p.2.

Definition peers_agree (peers : Peers) (c : PeeredContainer) : Prop :=
  forall a, pec_by_account c !! a = peer_rep a <$> peers !! a.

Definition peers_vote (a : PublicKey) (channel : RepChannel) (now : Timestamp) (peers : Peers) : Peers :=
  match peers !! a with
  | Some (old, t) => if rch_channel_id old =? rch_channel_id channel then peers else <[a := (channel, t)]> peers
  | None => <[a := (channel, now)]> peers
  end.

Definition peers_request (id : Z) (now : Timestamp) (peers : Peers) : Peers :=
  (fun p => if rch_channel_id p.1 =? id then (p.1, now) else p) <$> peers.

Definition peers_without (ids : list Z) (peers : Peers) : Peers := filter (fun e => rch_channel_id e.2.1 ∉ ids) peers.

Lemma peers_agree_insert peers c a p idx :
  peers_agree peers c -> peers_agree (<[a := p]> peers) (mkPeeredContainer (<[a := peer_rep a p]> (pec_by_account c)) idx).
Proof.
  intros Hp x. cbn. destruct (decide (x = a)) as [->|Hne]; [by rewrite !lookup_insert_eq|].
  rewrite !lookup_insert_ne by done. apply Hp.
Qed.

Lemma update_or_insert_ok account channel now peers c :
  peered_ok c -> peers_agree peers c -> exists r c', update_or_insert account channel now c = Some (r, c') /\ peered_ok c' /\
    peers_agree (peers_vote account channel now peers) c'.
Proof.
  intros [Hi Ha] Hp. unfold update_or_insert, peers_vote. pose proof (Hp account) as Ep.
  destruct (pec_by_account c !! account) as [rep|] eqn:E; destruct (peers !! account) as [[old t]|] eqn:Es; try discriminate Ep; cbn in Ep.
  - injection Ep as ->. unfold prp_channel_id, peer_rep. cbn [prp_channel prp_account prp_last_request fst snd].
    destruct (Z.eqb_spec (rch_channel_id old) (rch_channel_id channel)) as [Hid|Hid]; cbn [negb]; [by eexists _, c|].
    destruct (index_move_ok prp_channel_id _ _ account (peer_rep account (old, t)) (peer_rep account (channel, t)) Hi E)
      as (idx & Et & Hok). unfold remove_channel_id. unfold prp_channel_id, peer_rep in Et. cbn in Et. rewrite Et. cbn.
    eexists _, _. split; [done|]. split; [split; [done|]|].
    + by apply map_Forall_insert_2.
    + by apply (peers_agree_insert _ _ _ (channel, t)).
  - eexists _, _. split; [done|]. split; [split|].
    + by apply (index_push_ok prp_channel_id _ _ account (mkPeeredRep account channel now)).
    + by apply map_Forall_insert_2.
    + by apply (peers_agree_insert _ _ _ (channel, now)).
Qed.

Lemma modify_reps_ok modify l m idx :
  (forall rep, prp_channel_id (modify rep) = prp_channel_id rep /\ prp_account (modify rep) = prp_account rep) ->
  index_ok prp_channel_id m idx -> map_Forall (fun account rep => prp_account rep = account) m ->
  NoDup l -> Forall (fun r => is_Some (m !! r)) l ->
  exists m', modify_reps modify l m = Some m' /\ index_ok prp_channel_id m' idx /\
    map_Forall (fun account rep => prp_account rep = account) m' /\
    forall r, m' !! r = if decide (r ∈ l) then modify <$> m !! r else m !! r.
Proof.
  intros Hmod Hi Ha Hnd. revert m Hi Ha. induction Hnd as [|r l Hr Hnd IH]; intros m Hi Ha Hl; [by exists m|].
  apply Forall_cons in Hl as [[rep Er] Hl]. destruct (Hmod rep) as [H1 H2]. cbn [modify_reps]. rewrite Er. cbn [mbind option_bind].
  destruct (IH (<[r := modify rep]> m)) as (m' & E & H3 & H4 & H5).
  - by apply (index_update prp_channel_id _ _ r rep).
  - apply map_Forall_insert_2; [|done]. rewrite H2. by apply (Ha r).
  - eapply Forall_impl; [exact Hl|]. intros x Hx. rewrite lookup_insert_is_Some. destruct (decide (r = x)); [by left|by right].
  - exists m'. split_and!; try done. intros x. rewrite H5. destruct (decide (x = r)) as [->|Hne].
    + rewrite decide_False, decide_True, lookup_insert_eq, Er by (done || by left). done.
    + rewrite lookup_insert_ne by done. by repeat case_decide; set_solver.
Qed.

Lemma on_request_ok cid now peers c :
  peered_ok c -> peers_agree peers c ->
  exists c', modify_by_channel cid (fun rep => mkPeeredRep (prp_account rep) (prp_channel rep) now) c = Some c' /\ peered_ok c' /\
    peers_agree (peers_request cid now peers) c'.
Proof.
  intros [Hi Ha] Hp. unfold modify_by_channel. destruct (Hi cid) as (Hnd & _ & He).
  assert (forall a p, peers !! a = Some p -> a ∈ default [] (pec_by_channel_id c !! cid) <-> rch_channel_id p.1 = cid) as Hin.
  { intros a p E. rewrite He, (Hp a), E. cbn. split; [by intros (? & [= <-] & <-)|by eexists]. }
  destruct (pec_by_channel_id c !! cid) as [l|] eqn:E; cbn [default from_option id] in *.
  - destruct (modify_reps_ok (fun rep => mkPeeredRep (prp_account rep) (prp_channel rep) now) l (pec_by_account c) (pec_by_channel_id c))
      as (m' & -> & H1 & H2 & H3); try done.
    { apply Forall_forall. intros r (rep & Er & _)%He. by exists rep. }
    cbn. eexists. split; [done|]. split; [done|]. intros a. cbn. rewrite H3, (Hp a). unfold peers_request. rewrite lookup_fmap.
    destruct (peers !! a) as [p|] eqn:Ep; cbn; [|by case_decide]. specialize (Hin a p Ep).
    destruct (Z.eqb_spec (rch_channel_id p.1) cid); case_decide; tauto.
  - exists c. split; [done|]. split; [done|]. intros a. rewrite (Hp a). unfold peers_request. rewrite lookup_fmap.
    destruct (peers !! a) as [p|] eqn:Ep; cbn; [|done]. specialize (Hin a p Ep).
    destruct (Z.eqb_spec (rch_channel_id p.1) cid) as [Hid|]; [|done]. by apply Hin, elem_of_nil in Hid.
Qed.

Lemma pec_remove_ok id peers c :
  peered_ok c -> peers_agree peers c -> peered_ok (pec_remove id c).2 /\ peers_agree (peers_without [id] peers) (pec_remove id c).2.
Proof.
  intros [Hi Ha] Hp. unfold pec_remove.
  assert (forall m : gmap PublicKey PeeredRep, (forall r rep, m !! r = Some rep <-> pec_by_account c !! r = Some rep /\ prp_channel_id rep <> id) ->
    forall r, m !! r = peer_rep r <$> peers_without [id] peers !! r) as Hw.
  { intros m Hm r. apply option_eq. intros rep. rewrite Hm, (Hp r). unfold peers_without. split.
    - intros [(p & E & ->)%fmap_Some Hne]. apply fmap_Some. exists p. split; [|done]. apply map_lookup_filter_Some.
      split; [done|]. apply not_elem_of_cons. split; [done|apply not_elem_of_nil].
    - intros (p & [E Hn]%map_lookup_filter_Some & ->)%fmap_Some. apply not_elem_of_cons in Hn as [Hn _]. by rewrite E. }
  destruct (pec_by_channel_id c !! id) as [l|] eqn:E; cbn.
  - destruct (index_delete_key prp_channel_id _ _ _ _ Hi E) as [Hok Hm]. cbn zeta in Hok, Hm. split; [split; [done|]|exact (Hw _ Hm)].
    intros r rep Hr. apply Hm in Hr as [Hr _]. by apply (Ha r).
  - split; [done|]. intros r. apply Hw. intros r' rep. split; [|by intros [? _]]. intros Er. split; [done|]. intros <-.
    destruct (Hi (prp_channel_id rep)) as (_ & _ & He). rewrite E in He. cbn in He.
    assert (r' ∈ @nil PublicKey) as []%elem_of_nil. apply He. by exists rep.
Qed.

(** ** online_weight_sampler.rs *)

Lemma take_while_elem {A} (R : A -> A -> Prop) (P : A -> bool) l x :
  StronglySorted R l -> (forall a b, R a b -> P b = true -> P a = true) ->
  x ∈ take_while P l <-> x ∈ l /\ P x = true.
Proof.
  intros Hs HR. induction Hs as [|y l Hs IH Hall]; cbn; [rewrite elem_of_nil; tauto|].
  destruct (P y) eqn:Ey; rewrite !elem_of_cons, ?elem_of_nil, ?IH; [naive_solver|].
  split; [done|]. intros [[->|Hx] Px]; [congruence|]. rewrite Forall_forall in Hall. specialize (HR _ _ (Hall _ Hx) Px). congruence.
Qed.

Lemma take_while_NoDup {A} (P : A -> bool) l : NoDup l -> NoDup (take_while P l).
Proof.
  assert (Hsub : forall l x, x ∈ take_while P l -> x ∈ l).
  { clear l. intros l x. induction l as [|y l IH]; cbn; [done|]. case_match; [|by intros ?%elem_of_nil].
    rewrite !elem_of_cons. tauto. }
  induction 1 as [|x l Hx Hnd IH]; cbn; [constructor|]. case_match; constructor; [|done]. intros ?%Hsub. done.
Qed.

Lemma btm_keys cmp (t : gmap Z Amount) :
  key_order cmp -> StronglySorted (fun a b => cmp a b <> Gt) (btm_entries cmp t).*1 /\ NoDup (btm_entries cmp t).*1 /\
    forall k, k ∈ (btm_entries cmp t).*1 <-> is_Some (t !! k).
Proof.
  intros Ho. split; [|split].
  - pose proof (btm_entries_sorted cmp t Ho) as Hs. induction Hs as [|e l Hs IH Hall]; constructor; [done|].
    apply Forall_fmap. exact Hall.
  - rewrite btm_entries_perm. apply NoDup_fst_map_to_list.
  - intros k. rewrite list_elem_of_fmap. split.
    + intros ([k' v] & -> & E%elem_of_btm_entries). by exists v.
    + intros [v E]. exists (k, v). split; [done|]. by apply elem_of_btm_entries.
Qed.

Section sampler.
Context `{LmdbEngine}.

Lemma delete_samples_ok ts (t : gmap Z Amount) :
  NoDup ts -> Forall (fun k => is_Some (t !! k)) ts -> delete_samples ts t = Some (filter (fun e => e.1 ∉ ts) t).
Proof.
  intros Hnd. revert t. induction Hnd as [|k ts Hk Hnd IH]; intros t Ht; cbn.
  - f_equal. symmetry. apply map_filter_id. intros ? ? _. apply not_elem_of_nil.
  - apply Forall_cons in Ht as [[v Ev] Ht]. rewrite (table_del_present _ _ _ Ev). cbn. rewrite IH.
    + f_equal. apply map_eq. intros i. apply option_eq. intros x. rewrite !map_lookup_filter_Some. cbn.
      rewrite not_elem_of_cons, lookup_delete_Some. intuition congruence.
    + rewrite Forall_forall in Ht |- *. intros x Hx. rewrite lookup_delete_ne; [by apply Ht|]. by intros ->.
Qed.

(** Samples from the window of time that ends now. *)
Definition in_window (cutoff : Duration) (now : Z) (ts : Z) : Prop := (now - cutoff) / NANOS <= ts <= now / NANOS.

#[global] Instance in_window_dec cutoff now ts : Decision (in_window cutoff now ts).
Proof. unfold in_window. apply _. Defined.

Lemma sanitize_samples_ok cutoff now (t : gmap Z Amount) :
  0 <= cutoff <= now -> sanitize_samples cutoff now t = Some (filter (fun e => in_window cutoff now e.1) t).
Proof.
  intros Hc. unfold sanitize_samples, samples_to_delete, old_samples, future_samples, system_time_as_seconds.
  replace (now - cutoff <? 0) with false by lia. replace (now <? 0) with false by lia. cbn [mbind option_bind].
  destruct (btm_keys Z.compare t Z_key_order) as (Hs1 & Hn1 & Hk1). destruct (btm_keys desc t desc_key_order) as (Hs2 & Hn2 & Hk2).
  assert (H1 : forall k, k ∈ take_while (fun ts => ts <? (now - cutoff) / NANOS) (btm_entries Z.compare t).*1 <-> is_Some (t !! k) /\ k < (now - cutoff) / NANOS).
  { intros k. rewrite (take_while_elem _ _ _ _ Hs1); [by rewrite Hk1, Z.ltb_lt|]. intros a b. rewrite Z.compare_ngt_iff. lia. }
  assert (H2 : forall k, k ∈ take_while (fun ts => now / NANOS <? ts) (btm_entries desc t).*1 <-> is_Some (t !! k) /\ now / NANOS < k).
  { intros k. rewrite (take_while_elem _ _ _ _ Hs2); [by rewrite Hk2, Z.ltb_lt|]. intros a b. unfold desc. rewrite Z.compare_ngt_iff. lia. }
  assert (Hle : (now - cutoff) / NANOS <= now / NANOS) by (apply Z.div_le_mono; unfold NANOS; lia).
  rewrite delete_samples_ok.
  - f_equal. apply map_filter_ext. intros k x Ek. cbn. rewrite not_elem_of_app, H1, H2. unfold in_window.
    assert (is_Some (t !! k)) by (by eexists). split; [intros [Ha Hb]|]; [|intros; split; lia].
    destruct (decide (k < (now - cutoff) / NANOS)); [by destruct Ha|]. destruct (decide (now / NANOS < k)); [by destruct Hb|]. lia.
  - apply NoDup_app. split; [by apply take_while_NoDup|]. split; [|by apply take_while_NoDup].
    intros k [_ Ha]%H1 [_ Hb]%H2. lia.
  - apply Forall_forall. intros k. rewrite elem_of_app, H1, H2. tauto.
Qed.

Lemma add_sample_ok cutoff x now (t : gmap Z Amount) :
  0 <= cutoff <= now ->
  add_sample cutoff x now t = Some (<[now / NANOS := x]> (filter (fun e => in_window cutoff now e.1) t)).
Proof.
  intros Hc. unfold add_sample. rewrite sanitize_samples_ok by done. cbn. unfold insert_new_sample, system_time_as_seconds.
  by replace (now <? 0) with false by lia.
Qed.
End sampler.

(** *** The median *)

Definition at_most (m : Amount) (l : list Amount) : nat := length (filter (fun x => x <= m) l).
Definition at_least (m : Amount) (l : list Amount) : nat := length (filter (fun x => m <= x) l).

(** More than half of the values are at most the median, and at least half of
    them at least. *)
Definition median (l : list Amount) (m : Amount) : Prop :=
  m ∈ l /\ (length l < 2 * at_most m l)%nat /\ (length l <= 2 * at_least m l)%nat.

Lemma sorted_split {A} (R : A -> A -> Prop) l i x :
  Reflexive R -> StronglySorted R l -> l !! i = Some x ->
  Forall (fun y => R y x) (take (S i) l) /\ Forall (R x) (drop i l).
Proof.
  intros HR Hs. revert i. induction Hs as [|y l Hs IH Hall]; intros [|i] E; cbn in E |- *; try done.
  - injection E as ->. split; [by repeat constructor|by constructor].
  - destruct (IH i E) as [H1 H2]. split; [|done]. constructor; [|done].
    rewrite Forall_forall in Hall. apply Hall. by apply list_elem_of_lookup_2 with i.
Qed.

Lemma filter_all {A} (P : A -> Prop) `{forall x, Decision (P x)} l : Forall P l -> filter P l = l.
Proof. induction 1 as [|x l Hx _ IH]; [done|]. rewrite filter_cons, decide_True by done. by rewrite IH. Qed.

Lemma medium_weight_median l : l <> [] -> exists m, medium_weight l = Some m /\ median l m.
Proof.
  intros Hl. assert (Hlen : (0 < length l)%nat) by (destruct l; [done|cbn; lia]).
  assert (E : medium_weight l = sort_by Z.leb l !! Nat.div (length l) 2) by (by destruct l). rewrite E. clear E.
  pose proof (sort_by_perm Z.leb l) as Hp. set (s := sort_by Z.leb l) in *.
  assert (Hs : StronglySorted (fun a b => (a <=? b) = true) s) by (apply sort_by_sorted; intros; lia).
  pose proof (Permutation_length Hp) as Hls. pose proof (Nat.div_mod (length l) 2 ltac:(lia)) as Hdm.
  pose proof (Nat.mod_upper_bound (length l) 2 ltac:(lia)) as Hmod. set (i := Nat.div (length l) 2) in *.
  destruct (s !! i) as [m|] eqn:Em; [|apply lookup_ge_None in Em; lia]. exists m. split; [done|].
  destruct (sorted_split (fun a b => (a <=? b) = true) s i m) as [H1 H2]; [intros x; lia|done|done|].
  split; [rewrite <- Hp; by apply list_elem_of_lookup_2 with i|]. unfold at_most, at_least. rewrite <- Hp. split.
  - rewrite <- (take_drop (S i) s) at 2. rewrite filter_app, length_app, filter_all.
    + rewrite length_take. lia.
    + eapply Forall_impl; [exact H1|]. cbn. lia.
  - rewrite <- (take_drop i s) at 2. rewrite filter_app, length_app, (filter_all _ (drop i s)).
    + rewrite length_drop. lia.
    + eapply Forall_impl; [exact H2|]. cbn. lia.
Qed.

(** ** The whole component *)

Definition trend_ok (samples : gmap Z Amount) (trended : Amount) : Prop :=
  (samples = ∅ /\ trended = 0) \/ median (load_samples samples) trended.

Lemma calculate_trend_ok (t : gmap Z Amount) :
  map_Forall (fun _ x => in_u 128 x) t ->
  exists m, calculate_trend t = Some (m, length (load_samples t)) /\ trend_ok t m /\ in_u 128 m.
Proof.
  intros Ht. unfold calculate_trend. destruct (decide (load_samples t = [])) as [E|E].
  - rewrite E. exists 0. split; [done|]. split; [|unfold in_u; lia]. left. split; [|done].
    unfold load_samples in E. apply fmap_nil_inv in E. apply map_to_list_empty_iff, Permutation_nil.
    by rewrite <- E, btm_entries_perm.
  - destruct (medium_weight_median _ E) as (m & -> & Hm). exists m. split; [done|]. split; [by right|].
    destruct Hm as [Hin _]. unfold load_samples in Hin. apply list_elem_of_fmap in Hin as ([k x] & -> & Hx%elem_of_btm_entries).
    by apply (Ht k).
Qed.

Inductive RepsOp :=
| OpVote (w w' : RepWeights) (rep : PublicKey) (now : Timestamp)
| OpVoteDirectly (w w' : RepWeights) (rep : PublicKey) (channel : RepChannel) (now : Timestamp)
| OpRepRequest (channel_id : Z) (now : Timestamp)
| OpRemovePeer (channel_id : Z)
| OpDeadChannels (ids : list Z)
| OpTick (i : TickInput).

Definition wc_with_online (o : OnlineReps) (w : WeightCalculation) : WeightCalculation :=
  mkWeightCalculation o (wc_samples w) (wc_cutoff w) (wc_first_run w) (wc_last_sample w).

Definition calculation_new (minimum rep_minimum : Amount) (samples : gmap Z Amount) (cutoff : Duration) (now : Timestamp)
    : WeightCalculation :=
  mkWeightCalculation (online_reps_new minimum rep_minimum) samples cutoff true now.

Section component.
Context `{HL : HashOrderLaws} `{UL : U256Laws} `{LE : LmdbEngine}.

Definition reps_step (op : RepsOp) (w : WeightCalculation) : run WeightCalculation :=
  match op with
  | OpVote wt wt' rep now => '(_, o) ← unwrap (vote_observed wt wt' rep now (wc_online w)); Finished (wc_with_online o w)
  | OpVoteDirectly wt wt' rep channel now =>
      '(_, o) ← unwrap (vote_observed_directly wt wt' rep channel now (wc_online w)); Finished (wc_with_online o w)
  | OpRepRequest id now => o ← unwrap (on_rep_request id now (wc_online w)); Finished (wc_with_online o w)
  | OpRemovePeer id => Finished (wc_with_online (remove_peer id (wc_online w)).2 w)
  | OpDeadChannels ids => Finished (wc_with_online (reps_clean_up_dead_channels ids (wc_online w)) w)
  | OpTick i => calculation_tick i w
  end.

Fixpoint reps_run (ops : list RepsOp) (w : WeightCalculation) : run WeightCalculation :=
  match ops with
  | [] => Finished w
  | op :: ops => w ← reps_step op w; reps_run ops w
  end.

(** The specification: whether a tick is the first one, when a representative
    was seen last, the weights of the last count, the peered representatives,
    the samples and the time of the last one. *)
Record RepsSpec := mkRepsSpec {
  sp_first : bool;
  sp_seen : gmap PublicKey Timestamp;
  sp_weights : RepWeights;
  sp_peers : Peers;
  sp_samples : gmap Z Amount;
  sp_last_sample : Timestamp;
}.

(** The online weight: what the representatives seen had at the last count. *)
Definition sp_online_weight (s : RepsSpec) : Z := rep_sum (sp_weights s) (map_to_list (sp_seen s)).*1.

(** A vote with enough weight is seen; a representative that was not online
    makes the weight be counted again. *)
Definition spec_vote (rep_minimum : Amount) (wt wt' : RepWeights) (rep : PublicKey) (now : Timestamp) (s : RepsSpec) : RepsSpec :=
  if weight_of wt rep <? rep_minimum then s
  else mkRepsSpec (sp_first s) (<[rep := now]> (sp_seen s))
         (if decide (sp_seen s !! rep = None) then wt' else sp_weights s) (sp_peers s) (sp_samples s) (sp_last_sample s).

Definition with_peers (peers : Peers) (s : RepsSpec) : RepsSpec :=
  mkRepsSpec (sp_first s) (sp_seen s) (sp_weights s) peers (sp_samples s) (sp_last_sample s).

(** The first tick only drops samples outside the window of time. Each other
    one drops the representatives that were silent for ten minutes and counts;
    when the last sample is more than a minute old, the weight is sampled. *)
Definition spec_tick (cutoff : Duration) (i : TickInput) (s : RepsSpec) : RepsSpec :=
  let recent := filter (fun e : Z * Amount => in_window cutoff (ti_system i) e.1) (sp_samples s) in
  if sp_first s then mkRepsSpec false (sp_seen s) (sp_weights s) (sp_peers s) recent (ti_instant i)
  else
    let s := mkRepsSpec false (seen_since (trim_bound (ti_now i)) (sp_seen s)) (ti_weights i) (sp_peers s) (sp_samples s) (sp_last_sample s) in
    if secs 60 <? Z.max 0 (ti_elapsed_at i - sp_last_sample s)
    then mkRepsSpec false (sp_seen s) (sp_weights s) (sp_peers s) (<[ti_system i / NANOS := sp_online_weight s]> recent) (ti_instant i)
    else s.

Definition spec_step (rep_minimum : Amount) (cutoff : Duration) (op : RepsOp) (s : RepsSpec) : RepsSpec :=
  match op with
  | OpVote wt wt' rep now => spec_vote rep_minimum wt wt' rep now s
  | OpVoteDirectly wt wt' rep channel now =>
      let s' := spec_vote rep_minimum wt wt' rep now s in
      if weight_of wt rep <? rep_minimum then s' else with_peers (peers_vote rep channel now (sp_peers s)) s'
  | OpRepRequest id now => with_peers (peers_request id now (sp_peers s)) s
  | OpRemovePeer id => with_peers (peers_without [id] (sp_peers s)) s
  | OpDeadChannels ids => with_peers (peers_without ids (sp_peers s)) s
  | OpTick i => spec_tick cutoff i s
  end.

Definition reps_spec (rep_minimum : Amount) (cutoff : Duration) (samples : gmap Z Amount) (t0 : Timestamp) (ops : list RepsOp) : RepsSpec :=
  foldl (fun s op => spec_step rep_minimum cutoff op s) (mkRepsSpec true ∅ ∅ ∅ samples t0) ops.

(** The weights are those of a ledger, and the clock is past the cutoff. *)
Definition op_ok (cutoff : Duration) (op : RepsOp) : Prop :=
  match op with
  | OpVote wt wt' _ _ | OpVoteDirectly wt wt' _ _ _ => weights_ok wt /\ weights_ok wt'
  | OpTick i => weights_ok (ti_trim_weights i) /\ weights_ok (ti_weights i) /\ cutoff <= ti_system i
  | _ => True
  end.

Definition counted (wt : RepWeights) (o : OnlineReps) : Prop :=
  weights_ok wt /\ or_online_weight o = rep_sum wt (map_to_list (oc_by_account (or_online_reps o))).*1.

Record reps_ok (minimum rep_minimum : Amount) (s : RepsSpec) (cutoff : Duration) (w : WeightCalculation) : Prop := {
  rok_online : online_ok (or_online_reps (wc_online w));
  rok_seen : oc_by_account (or_online_reps (wc_online w)) = sp_seen s;
  rok_peered : peered_ok (or_peered_reps (wc_online w));
  rok_peers : peers_agree (sp_peers s) (or_peered_reps (wc_online w));
  rok_counted : counted (sp_weights s) (wc_online w);
  rok_minimum : or_online_weight_minimum (wc_online w) = minimum;
  rok_rep_minimum : or_representative_weight_minimum (wc_online w) = rep_minimum;
  rok_trended : in_u 128 (or_trended_weight (wc_online w));
  rok_cutoff : wc_cutoff w = cutoff;
  rok_first : wc_first_run w = sp_first s;
  rok_samples : wc_samples w = sp_samples s;
  rok_last : wc_last_sample w = sp_last_sample s;
  rok_range : map_Forall (fun _ x => in_u 128 x) (sp_samples s);
  rok_trend : sp_first s = false -> trend_ok (sp_samples s) (or_trended_weight (wc_online w));
}.

Lemma calculate_online_weight_ok wt o :
  weights_ok wt -> or_online_weight (calculate_online_weight wt o) = rep_sum wt (map_to_list (oc_by_account (or_online_reps o))).*1.
Proof using HL.
  intros Hw. cbn. pose proof (NoDup_fst_map_to_list (oc_by_account (or_online_reps o))) as Hnd.
  assert (Hp : oc_iter (or_online_reps o) ≡ₚ (map_to_list (oc_by_account (or_online_reps o))).*1)
    by (unfold oc_iter; by rewrite hash_iter_perm).
  pose proof Hw as [Hpos Hlt]. pose proof (rep_sum_le wt _ Hpos Hnd).
  rewrite sum_weights; [by rewrite (rep_sum_perm _ _ _ Hp)|done|by rewrite Hp|done|].
  rewrite (rep_sum_perm _ _ _ Hp). unfold amount_ZERO. lia.
Qed.

Lemma calculate_counted wt o : weights_ok wt -> counted wt (calculate_online_weight wt o).
Proof using HL. intros Hw. split; [done|]. exact (calculate_online_weight_ok wt o Hw). Qed.

Lemma vote_observed_ok wt wt' rep now o s :
  weights_ok wt' -> online_ok (or_online_reps o) -> oc_by_account (or_online_reps o) = sp_seen s -> counted (sp_weights s) o ->
  exists o', vote_observed wt wt' rep now o = Some (negb (weight_of wt rep <? or_representative_weight_minimum o), o') /\
    let s' := spec_vote (or_representative_weight_minimum o) wt wt' rep now s in
    online_ok (or_online_reps o') /\ oc_by_account (or_online_reps o') = sp_seen s' /\ counted (sp_weights s') o' /\
    or_peered_reps o' = or_peered_reps o /\ or_trended_weight o' = or_trended_weight o /\
    or_online_weight_minimum o' = or_online_weight_minimum o /\
    or_representative_weight_minimum o' = or_representative_weight_minimum o.
Proof using HL.
  intros Hw Ho Es Hc. unfold vote_observed, spec_vote. destruct (weight_of wt rep <? _); cbn [negb]; [by exists o|].
  destruct (oc_insert_ok rep now _ Ho) as (c & -> & Hok & Hb). cbn [mbind option_bind]. rewrite <- Es. cbn [sp_seen sp_weights].
  case_bool_decide as E; eexists; (split; [done|]); (split; [done|]); (split; [done|]); (split; [|done]).
  - rewrite decide_True by done. by apply calculate_counted.
  - rewrite decide_False by done. destruct Hc as [Hw' E']. split; [done|]. cbn. rewrite E', Hb. apply rep_sum_perm.
    destruct (oc_by_account (or_online_reps o) !! rep) as [t|] eqn:Et; [|done].
    rewrite <- (insert_delete_eq _ rep now), <- (insert_delete_id _ _ _ Et) at 1.
    rewrite !map_to_list_insert by apply lookup_delete_eq. done.
Qed.

Lemma online_reps_trim_ok wt now o :
  weights_ok wt -> online_ok (or_online_reps o) ->
  exists o', online_reps_trim wt now o = Finished o' /\ online_ok (or_online_reps o') /\
    or_peered_reps o' = or_peered_reps o /\ or_trended_weight o' = or_trended_weight o /\
    or_online_weight_minimum o' = or_online_weight_minimum o /\
    or_representative_weight_minimum o' = or_representative_weight_minimum o /\
    oc_by_account (or_online_reps o') = seen_since (trim_bound now) (oc_by_account (or_online_reps o)).
Proof using HL.
  intros Hw Ho. unfold online_reps_trim.
  destruct (oc_trim_ok (trim_bound now) _ Ho) as (trimmed & c & -> & Hok & Hs & Hn). cbn [mbind run_bind].
  destruct trimmed as [|e l]; [specialize (Hn eq_refl) as ->|]; by eexists.
Qed.

Lemma remove_peer_ok id peers o : peered_ok (or_peered_reps o) -> peers_agree peers (or_peered_reps o) ->
  exists c, (remove_peer id o).2 = or_with_peered c o /\ peered_ok c /\ peers_agree (peers_without [id] peers) c.
Proof using.
  intros Hp Ha. unfold remove_peer. pose proof (pec_remove_ok id _ _ Hp Ha) as [H1 H2].
  destruct (pec_remove id (or_peered_reps o)) as [l c]. by exists c.
Qed.

Lemma dead_channels_ok ids peers o : peered_ok (or_peered_reps o) -> peers_agree peers (or_peered_reps o) ->
  exists c, reps_clean_up_dead_channels ids o = or_with_peered c o /\ peered_ok c /\ peers_agree (peers_without ids peers) c.
Proof using.
  unfold reps_clean_up_dead_channels. revert peers o. induction ids as [|id ids IH]; intros peers o Hp Ha; cbn [foldl].
  - exists (or_peered_reps o). split; [by destruct o|]. split; [done|]. unfold peers_without. rewrite map_filter_id; [done|].
    intros ? ? _. apply not_elem_of_nil.
  - destruct (remove_peer_ok id peers o Hp Ha) as (c & -> & Hc & Hr).
    destruct (IH (peers_without [id] peers) (or_with_peered c o) Hc Hr) as (c' & -> & Hc' & Hr').
    exists c'. split; [done|]. split; [done|]. intros a. rewrite Hr'. do 2 f_equal. unfold peers_without. rewrite map_filter_filter.
    apply map_filter_ext. intros i x _. cbn. rewrite !not_elem_of_cons. pose proof (not_elem_of_nil (rch_channel_id x.1)). tauto.
Qed.

Lemma calculate_trended_weight_ok w :
  map_Forall (fun _ x => in_u 128 x) (wc_samples w) ->
  exists m, calculate_trended_weight w = Some (wc_with_online (set_trended m (wc_online w)) w) /\
    trend_ok (wc_samples w) m /\ in_u 128 m.
Proof using.
  intros Hs. unfold calculate_trended_weight. destruct (calculate_trend_ok _ Hs) as (m & -> & Ht & Hm). by exists m.
Qed.

Lemma counted_in_u wt o : counted wt o -> in_u 128 (or_online_weight o).
Proof using.
  intros ([Hpos Hlt] & ->). pose proof (rep_sum_le wt _ Hpos (NoDup_fst_map_to_list (oc_by_account (or_online_reps o)))).
  pose proof (rep_sum_nonneg wt (map_to_list (oc_by_account (or_online_reps o))).*1 Hpos). unfold in_u. lia.
Qed.

Lemma map_Forall_window cutoff now (t : gmap Z Amount) :
  map_Forall (fun _ x => in_u 128 x) t -> map_Forall (fun _ x => in_u 128 x) (filter (fun e => in_window cutoff now e.1) t).
Proof using. intros Ht k x [Ex _]%map_lookup_filter_Some. by apply (Ht k). Qed.

Lemma tick_ok minimum rep_minimum s cutoff i w :
  0 <= cutoff -> op_ok cutoff (OpTick i) -> reps_ok minimum rep_minimum s cutoff w ->
  exists w', calculation_tick i w = Finished w' /\ reps_ok minimum rep_minimum (spec_tick cutoff i s) cutoff w'.
Proof using HL.
  intros Hcut (Hw1 & Hw2 & Hsys) [H1 H2 H3 H4 H5 H6 H7 H8 H9 H10 H11 H12 H13 H14]. unfold calculation_tick, spec_tick.
  rewrite H10, H9, H11, H12. destruct (sp_first s) eqn:Ef.
  - rewrite sanitize_samples_ok by lia. cbn [mbind run_bind unwrap].
    destruct (calculate_trended_weight_ok (mkWeightCalculation (wc_online w)
      (filter (fun e => in_window cutoff (ti_system i) e.1) (sp_samples s)) cutoff true (ti_instant i))) as (m & -> & Ht & Hm);
      [by apply map_Forall_window|]. cbn. eexists. split; [done|]. split; cbn; try done. by apply map_Forall_window.
  - destruct (online_reps_trim_ok (ti_trim_weights i) (ti_now i) _ Hw1 H1) as (o & -> & T1 & T3 & T4 & T5 & T6 & T7).
    cbn [mbind run_bind]. pose proof (calculate_counted (ti_weights i) o Hw2) as Hc. rewrite H2 in T7.
    set (s1 := mkRepsSpec false (seen_since (trim_bound (ti_now i)) (sp_seen s)) (ti_weights i) (sp_peers s) (sp_samples s) (sp_last_sample s)).
    assert (or_online_weight (calculate_online_weight (ti_weights i) o) = sp_online_weight s1) as Ew
      by (rewrite (proj2 Hc); cbn; unfold sp_online_weight; cbn; by rewrite T7).
    change (sp_last_sample s1) with (sp_last_sample s). rewrite Ew.
    case_match.
    + rewrite add_sample_ok by lia. cbn [mbind run_bind unwrap].
      assert (map_Forall (fun _ x => in_u 128 x) (<[ti_system i / NANOS := sp_online_weight s1]>
          (filter (fun e => in_window cutoff (ti_system i) e.1) (sp_samples s)))) as Hr.
      { apply map_Forall_insert_2; [rewrite <- Ew; by eapply counted_in_u|by apply map_Forall_window]. }
      destruct (calculate_trended_weight_ok (mkWeightCalculation (calculate_online_weight (ti_weights i) o)
        (<[ti_system i / NANOS := sp_online_weight s1]>
          (filter (fun e => in_window cutoff (ti_system i) e.1) (sp_samples s))) cutoff false (sp_last_sample s)))
        as (m & E & Ht & Hm); [exact Hr|].
      rewrite E. cbn [mbind run_bind unwrap]. eexists. split; [done|].
      split; cbn -[calculate_online_weight]; try done; cbn; rewrite ?T3; try done; congruence.
    + eexists. split; [done|]. split; cbn -[calculate_online_weight]; try done; cbn; rewrite ?T3, ?T4; try done; try congruence.
Qed.

Lemma reps_step_ok minimum rep_minimum s cutoff op w :
  0 <= cutoff -> op_ok cutoff op -> reps_ok minimum rep_minimum s cutoff w ->
  exists w', reps_step op w = Finished w' /\ reps_ok minimum rep_minimum (spec_step rep_minimum cutoff op s) cutoff w'.
Proof using HL.
  intros Hcut Hop Hok. destruct op as [wt wt' rep now|wt wt' rep ch now|id now|id|ids|i]; [| | | | |by apply tick_ok].
  all: destruct Hok as [H1 H2 H3 H4 H5 H6 H7 H8 H9 H10 H11 H12 H13 H14]; cbn [reps_step spec_step] in *.
  - destruct (vote_observed_ok wt wt' rep now _ s (proj2 Hop) H1 H2 H5) as (o & -> & V1 & V2 & V3 & V4 & V5 & V6 & V7).
    rewrite H7 in *. cbn. eexists. split; [done|]. unfold spec_vote in *.
    destruct (_ <? _); split; cbn in *; rewrite ?V4, ?V5; try done; congruence.
  - unfold vote_observed_directly.
    destruct (vote_observed_ok wt wt' rep now _ s (proj2 Hop) H1 H2 H5) as (o & -> & V1 & V2 & V3 & V4 & V5 & V6 & V7).
    rewrite H7 in *. cbn [mbind option_bind]. unfold spec_vote in *. destruct (weight_of wt rep <? rep_minimum); cbn [negb].
    + cbn. eexists. split; [done|]. split; cbn in *; rewrite ?V4, ?V5; try done; congruence.
    + rewrite V4. destruct (update_or_insert_ok rep ch now _ _ H3 H4) as (r & c & -> & Hok & Hag). cbn. eexists. split; [done|].
      split; cbn in *; rewrite ?V5; try done; congruence.
  - unfold on_rep_request. destruct (on_request_ok id now _ _ H3 H4) as (c & -> & Hc & Ha). cbn. by eexists.
  - destruct (remove_peer_ok id _ _ H3 H4) as (c & -> & Hc & Ha). by eexists.
  - destruct (dead_channels_ok ids _ _ H3 H4) as (c & -> & Hc & Ha). by eexists.
Qed.

Lemma reps_run_ok minimum rep_minimum cutoff ops s w :
  0 <= cutoff -> Forall (op_ok cutoff) ops -> reps_ok minimum rep_minimum s cutoff w ->
  exists w', reps_run ops w = Finished w' /\
    reps_ok minimum rep_minimum (foldl (fun s op => spec_step rep_minimum cutoff op s) s ops) cutoff w'.
Proof using HL.
  intros Hcut Hops. revert s w. induction Hops as [|op ops Hop _ IH]; intros s w Hok; [by exists w|].
  destruct (reps_step_ok minimum rep_minimum s cutoff op w Hcut Hop Hok) as (w1 & E & Hok1). cbn. rewrite E. cbn. by apply IH.
Qed.

(** The peered representatives with more (not: at least) the given weight,
    heaviest first. *)
Lemma representatives_filter_ok wt minimum o :
  StronglySorted (fun a b => pri_weight b <= pri_weight a) (representatives_filter wt minimum o) /\
  forall info, info ∈ representatives_filter wt minimum o <->
    exists r rep, pec_by_account (or_peered_reps o) !! r = Some rep /\ minimum < weight_of wt (prp_account rep) /\
      info = mkPeeredRepInfo (prp_account rep) (prp_channel rep) (weight_of wt (prp_account rep)).
Proof using HL.
  unfold representatives_filter. set (l := filter _ _). split.
  - assert (Hs : StronglySorted (fun a b : PeeredRep * Amount => (b.2 <=? a.2) = true) (sort_by (fun a b => b.2 <=? a.2) l))
      by (apply sort_by_sorted; intros; lia).
    induction Hs as [|x k Hs IH Hall]; constructor; [done|]. apply Forall_fmap. eapply Forall_impl; [exact Hall|].
    cbn. intros y Hy. apply Z.leb_le, Hy.
  - intros info. rewrite list_elem_of_fmap. setoid_rewrite sort_by_perm. unfold l. setoid_rewrite list_elem_of_filter.
    setoid_rewrite list_elem_of_fmap. unfold pec_iter. setoid_rewrite list_elem_of_fmap. setoid_rewrite hash_iter_perm. split.
    + intros ([rep w] & -> & Hw & rep' & [= -> ->] & [r rep''] & -> & E%elem_of_map_to_list). cbn in *. eauto.
    + intros (r & rep & E%elem_of_map_to_list & Hw & ->). exists (rep, weight_of wt (prp_account rep)). split; [done|].
      split; [done|]. exists rep. split; [done|]. by exists (r, rep).
Qed.

(** The weight the quorum is a share of. *)
Definition quorum_base (o : OnlineReps) : Z := Z.max (or_online_weight o) (Z.max (or_trended_weight o) (or_online_weight_minimum o)).

Lemma quorum_delta_eq o : 0 <= quorum_base o < 2 ^ 128 -> quorum_delta o = Some (quorum_base o * 67 / 100).
Proof using UL.
  intros Hb. unfold quorum_delta, trended_or_minimum_weight, ONLINE_WEIGHT_QUORUM. fold (quorum_base o).
  rewrite u256_mul_spec, u256_div_spec by (unfold in_u; lia). apply u256_as_u128_spec.
  unfold in_u. split; [apply Z.div_pos; lia|]. apply Z.div_lt_upper_bound; lia.
Qed.

(** If the base is at least three quarters of the whole weight, two quorums
    overlap. *)
Lemma quorum_majority base total : 400 <= total -> 3 * total <= 4 * base -> total < 2 * (base * 67 / 100).
Proof using. intros H1 H2. pose proof (Z.mod_pos_bound (base * 67) 100 ltac:(lia)). pose proof (Z.div_mod (base * 67) 100 ltac:(lia)). lia. Qed.

(** C24. The quorum follows the weight that is online. For every sequence of
    observed votes, requests, dead channels and ticks of the sampler, with
    weights whose sum is a supply and a clock past the cutoff, nothing panics,
    every loop ends, and the containers implement their specification
    ([reps_spec]). The representatives online are those whose votes were
    observed, with enough weight, and not more than ten minutes before the last
    tick that trimmed. The online weight is the sum of their weights at the last
    count, and they are counted whenever a new one appears and at every tick but
    the first. Every peered representative has the channel its votes came
    over and its last request, and the index by channel agrees. The trend is the
    median of the samples, taken once a minute and kept for the time of the
    cutoff. The quorum is 67% of the largest of the online, the trended and the
    minimal weight, rounded down, and any two quorums overlap as soon as that
    weight is three quarters of the weight that votes. *)
Theorem quorum_follows_online_weight minimum rep_minimum samples cutoff t0 ops :
  in_u 128 minimum -> map_Forall (fun _ x => in_u 128 x) samples -> 0 <= cutoff -> Forall (op_ok cutoff) ops ->
  let s := reps_spec rep_minimum cutoff samples t0 ops in
  exists w, reps_run ops (calculation_new minimum rep_minimum samples cutoff t0) = Finished w /\
    let o := wc_online w in
    oc_by_account (or_online_reps o) = sp_seen s /\ or_online_weight o = sp_online_weight s /\
    (forall a, pec_by_account (or_peered_reps o) !! a = peer_rep a <$> sp_peers s !! a) /\
    (forall id a, a ∈ accounts_by_channel id (or_peered_reps o) <->
       exists p, sp_peers s !! a = Some p /\ rch_channel_id p.1 = id) /\
    wc_samples w = sp_samples s /\ (sp_first s = false -> trend_ok (sp_samples s) (or_trended_weight o)) /\
    exists q, quorum_delta o = Some q /\ q = quorum_base o * 67 / 100 /\
      forall total, 400 <= total -> 3 * total <= 4 * quorum_base o -> total < 2 * q.
Proof using HL UL.
  intros Hmin Hs Hcut Hops s.
  destruct (reps_run_ok minimum rep_minimum cutoff ops (mkRepsSpec true ∅ ∅ ∅ samples t0)
    (calculation_new minimum rep_minimum samples cutoff t0) Hcut Hops)
    as (w & E & [H1 H2 H3 H4 H5 H6 H7 H8 H9 H10 H11 H12 H13 H14]).
  { split; cbn; try done; [apply index_empty_ok|]. split; [apply index_empty_ok|apply map_Forall_empty]. }
  fold (reps_spec rep_minimum cutoff samples t0 ops) in *. fold s in H2, H4, H5, H11, H14. exists w. cbn zeta. split_and!; try done.
  - unfold sp_online_weight. rewrite <- H2. apply H5.
  - intros id a. destruct H3 as [Hi _]. destruct (Hi id) as (_ & _ & He). unfold accounts_by_channel. rewrite He, (H4 a). split.
    + intros (rep & (p & Ep & ->)%fmap_Some & Hid). by exists p.
    + intros (p & -> & Hid). by eexists.
  - exists (quorum_base (wc_online w) * 67 / 100). pose proof (counted_in_u _ _ H5). unfold in_u in *. split.
    + apply quorum_delta_eq. unfold quorum_base. rewrite H6. lia.
    + split; [done|]. intros total. apply quorum_majority.
Qed.
End component.

Definition sample_rep_weights : RepWeights := <[1 := nano 70000000]> (<[2 := nano 50000000]> ∅).
Definition sample_reps_ops : list RepsOp :=
  [OpVote sample_rep_weights sample_rep_weights 1 (secs 1); OpVoteDirectly sample_rep_weights sample_rep_weights 2 (mkRepChannel 5 (1, 2)) (secs 500);
   OpTick (mkTickInput (secs 100000) 0 0 (secs 500) sample_rep_weights sample_rep_weights);
   OpTick (mkTickInput (secs 100061) (secs 61) (secs 61) (secs 700) sample_rep_weights sample_rep_weights)].

Lemma sample_rep_weights_ok : weights_ok sample_rep_weights.
Proof. split; [|by vm_compute]. unfold sample_rep_weights. repeat apply map_Forall_insert_2; [by vm_compute..|]. apply map_Forall_empty. Qed.

(** The first representative has been silent for too long; the quorum is that
    of the minimal weight. *)
Lemma quorum_follows_online_weight_witness :
  sp_seen (reps_spec 0 (secs 86400) ∅ 0 sample_reps_ops) = {[2 := secs 500]} /\
  exists w, @reps_run trie_order {| del_missing_is_error := true; no_overwrite_is_error := true |} sample_reps_ops
      (calculation_new (nano 60000000) 0 ∅ (secs 86400) 0) = Finished w /\
    or_online_weight (wc_online w) = nano 50000000 /\ @quorum_delta model_u256 (wc_online w) = Some (nano 40200000).
Proof.
  split; [by vm_compute|].
  destruct (@quorum_follows_online_weight trie_order trie_order_laws model_u256 model_u256_laws
    {| del_missing_is_error := true; no_overwrite_is_error := true |}
    (nano 60000000) 0 ∅ (secs 86400) 0 sample_reps_ops) as (w & E & _).
  - by vm_compute.
  - apply map_Forall_empty.
  - by vm_compute.
  - pose proof sample_rep_weights_ok as Hw. unfold sample_reps_ops. rewrite !Forall_cons, Forall_nil.
    repeat (split; try exact Hw; try by vm_compute).
  - vm_compute in E. injection E as <-. eexists. split; [by vm_compute|]. by split; vm_compute.
Defined.
