(* ===== verification/VoteGeneration.v ===== *)
(** * Generation of the node's own votes
    (node/src/consensus/vote_generation: vote_spacing.rs, local_vote_history.rs,
    request_aggregator_impl.rs, vote_generator.rs)

    A generator is the thread of one kind of votes, final or not. Its clocks are
    sequences of readings: [clock n] is the answer of the [n]th call, and the
    state counts the calls. The votes it hands out, to the broadcaster or to
    the channel of a request, are collected in the order they are made, with
    the reading of the clock. *)

From S2P Require Import Prelude Types Blocks Store Sets FinalVotes Votes Election Collections.
From S2P Require Import Messages.

(** ** vote_spacing.rs *)

Record SpacingEntry := mkSpacingEntry {
  se_root : Root;
  se_hash : BlockHash;
  se_timestamp : Timestamp;
}.

Record EntryContainer := mkEntryContainer {
  ec_entries : gmap Z SpacingEntry;
  ec_by_root : gmap Root (gset Z);
  ec_by_time : gmap Timestamp (list Z);
  ec_next_id : Z;
}.

Definition ec_new : EntryContainer := mkEntryContainer ∅ ∅ ∅ 0.

(** [insert] with [create_id] *)
Definition ec_insert (entry : SpacingEntry) (c : EntryContainer) : EntryContainer :=
  let id := ec_next_id c in
  mkEntryContainer (<[id := entry]> (ec_entries c)) (set_index_insert (se_root entry) id (ec_by_root c))
    (index_push (se_timestamp entry) id (ec_by_time c)) (wrap 64 (ec_next_id c + 1)).

(** [entries.remove(id).unwrap()] and the index by root *)
Definition ec_remove_entry (id : Z) (c : EntryContainer) : option EntryContainer :=
  entry ← ec_entries c !! id;
  ids ← ec_by_root c !! se_root entry;
  let ids : gset Z := (ids : gset Z) ∖ {[id]} in
  Some (mkEntryContainer (delete id (ec_entries c))
          (if decide (ids = ∅) then delete (se_root entry) (ec_by_root c) else <[se_root entry := ids]> (ec_by_root c))
          (ec_by_time c) (ec_next_id c)).

Fixpoint ec_remove_entries (ids : list Z) (c : EntryContainer) : option EntryContainer :=
  match ids with
  | [] => Some c
  | id :: ids => c ← ec_remove_entry id c; ec_remove_entries ids c
  end.

(** The loop over [by_time], which stays as it is until the end. *)
Fixpoint ec_trim_loop (cutoff : Timestamp) (by_time : list (Timestamp * list Z)) (to_remove : list Timestamp) (c : EntryContainer)
    : option (list Timestamp * EntryContainer) :=
  match by_time with
  | [] => Some (to_remove, c)
  | (timestamp, ids) :: by_time =>
      if cutoff <? timestamp then Some (to_remove, c)
      else c ← ec_remove_entries ids c; ec_trim_loop cutoff by_time (to_remove ++ [timestamp]) c
  end.

Definition ec_trim (cutoff : Timestamp) (c : EntryContainer) : option EntryContainer :=
  '(to_remove, c) ← ec_trim_loop cutoff (btm_entries Z.compare (ec_by_time c)) [] c;
  Some (mkEntryContainer (ec_entries c) (ec_by_root c) (foldl (fun m timestamp => delete timestamp m) (ec_by_time c) to_remove)
          (ec_next_id c)).

Definition remove_from_time_index (time : Timestamp) (id : Z) (m : gmap Timestamp (list Z)) : gmap Timestamp (list Z) :=
  match m !! time with
  | Some ids => if (length ids =? 1)%nat then delete time m else <[time := filter (fun x => x <> id) ids]> m
  | None => m
  end.

Definition change_time_for_entry (time : Timestamp) (c : EntryContainer) (id : Z) : EntryContainer :=
  match ec_entries c !! id with
  | Some entry =>
      mkEntryContainer (<[id := mkSpacingEntry (se_root entry) (se_hash entry) time]> (ec_entries c)) (ec_by_root c)
        (index_push time id (remove_from_time_index (se_timestamp entry) id (ec_by_time c))) (ec_next_id c)
  | None => c
  end.

Record VoteSpacing := mkVoteSpacing {
  vs_delay : Duration;
  vs_recent : EntryContainer;
}.

Definition vote_spacing_new (delay : Duration) : VoteSpacing := mkVoteSpacing delay ec_new.

Section hash_order.
Context `{HashOrder}.

Definition change_time_for_root (root : Root) (time : Timestamp) (c : EntryContainer) : bool * EntryContainer :=
  match ec_by_root c !! root with
  | Some ids => (true, foldl (change_time_for_entry time) c (set_iter ids))
  | None => (false, c)
  end.

(** [all] over the entries of the ids; an id without entry panics. *)
Fixpoint all_entries (P : SpacingEntry -> bool) (ids : list Z) (entries : gmap Z SpacingEntry) : option bool :=
  match ids with
  | [] => Some true
  | id :: ids => entry ← entries !! id; if P entry then all_entries P ids entries else Some false
  end.

Definition votable (root : Root) (hash : BlockHash) (now : Timestamp) (v : VoteSpacing) : option bool :=
  all_entries (fun item => (hash =? se_hash item) || (vs_delay v <=? elapsed (se_timestamp item) now))
    (set_iter (default ∅ (ec_by_root (vs_recent v) !! root))) (ec_entries (vs_recent v)).

Definition spacing_flag (root : Root) (hash : BlockHash) (now : Timestamp) (v : VoteSpacing) : option VoteSpacing :=
  recent ← ec_trim (now - vs_delay v) (vs_recent v);
  let '(changed, recent) := change_time_for_root root now recent in
  Some (mkVoteSpacing (vs_delay v) (if changed : bool then recent else ec_insert (mkSpacingEntry root hash now) recent)).

(** ** local_vote_history.rs *)

Record LocalVote := mkLocalVote {
  lv_root : Root;
  lv_hash : BlockHash;
  lv_vote : Vote;
}.

Record LocalVoteHistory := mkLocalVoteHistory {
  lvh_history : gmap Z LocalVote;
  lvh_by_root : gmap Root (gset Z);
  lvh_max_cache : nat;
}.

Definition history_new (max_cache : nat) : LocalVoteHistory := mkLocalVoteHistory ∅ ∅ max_cache.

(** One turn of [clean]: the oldest vote goes. *)
Fixpoint history_clean (fuel : nat) (h : LocalVoteHistory) : run LocalVoteHistory :=
  match fuel with
  | O => Running
  | S fuel =>
      if (lvh_max_cache h <? size (lvh_history h))%nat then
        '(id, vote) ← unwrap (btm_first Z.compare (lvh_history h));
        let by_root :=
          match lvh_by_root h !! lv_root vote with
          | Some ids =>
              if decide (ids ∖ {[id]} = ∅) then delete (lv_root vote) (lvh_by_root h)
              else <[lv_root vote := ids ∖ {[id]}]> (lvh_by_root h)
          | None => lvh_by_root h
          end in
        history_clean fuel (mkLocalVoteHistory (delete id (lvh_history h)) by_root (lvh_max_cache h))
      else Finished h
  end.

(** What the loop over the votes of the root finds: the ids to delete, and
    whether the vote is to be added. *)
Fixpoint history_scan (hash : BlockHash) (vote : Vote) (ids : list Z) (history : gmap Z LocalVote) : option (list Z * bool) :=
  match ids with
  | [] => Some ([], true)
  | i :: ids =>
      current ← history !! i;
      '(to_delete, add_vote) ← history_scan hash vote ids history;
      Some (if negb (lv_hash current =? hash)
               || ((vote_voter vote =? vote_voter (lv_vote current)) && (vote_timestamp (lv_vote current) <=? vote_timestamp vote))
            then (i :: to_delete, add_vote)
            else if (vote_voter vote =? vote_voter (lv_vote current)) && (vote_timestamp vote <? vote_timestamp (lv_vote current))
            then (to_delete, false)
            else (to_delete, add_vote))
  end.

Definition remove_ids (l : list Z) (m : gmap Z LocalVote) : gmap Z LocalVote := foldl (fun m i => delete i m) m l.

Definition history_add (root : Root) (hash : BlockHash) (vote : Vote) (h : LocalVoteHistory) : run LocalVoteHistory :=
  h ← history_clean (S (size (lvh_history h))) h;
  '(add_vote, h) ←
    match lvh_by_root h !! root with
    | Some ids =>
        '(to_delete, add_vote) ← unwrap (history_scan hash vote (set_iter ids) (lvh_history h));
        let ids' := ids ∖ list_to_set to_delete in
        let remove_root := match to_delete with [] => false | _ => bool_decide (ids' = ∅) end in
        Finished (add_vote : bool,
          mkLocalVoteHistory (remove_ids to_delete (lvh_history h))
            (if remove_root && negb add_vote then delete root (lvh_by_root h) else <[root := ids']> (lvh_by_root h))
            (lvh_max_cache h))
    | None => Finished (true, h)
    end;
  Finished (if add_vote : bool then
      let id := from_option (fun e => e.1 + 1) 0 (btm_last Z.compare (lvh_history h)) in
      mkLocalVoteHistory (<[id := mkLocalVote root hash vote]> (lvh_history h)) (set_index_insert root id (lvh_by_root h))
        (lvh_max_cache h)
    else h).

Definition history_erase (root : Root) (h : LocalVoteHistory) : LocalVoteHistory :=
  match lvh_by_root h !! root with
  | Some removed =>
      mkLocalVoteHistory (remove_ids (set_iter removed) (lvh_history h)) (delete root (lvh_by_root h)) (lvh_max_cache h)
  | None => h
  end.

Definition history_erase_batch (roots : list Root) (h : LocalVoteHistory) : LocalVoteHistory :=
  foldl (fun h root => history_erase root h) h roots.

Fixpoint matching_votes (hash : BlockHash) (is_final : bool) (ids : list Z) (history : gmap Z LocalVote) : option (list Vote) :=
  match ids with
  | [] => Some []
  | id :: ids =>
      entry ← history !! id;
      votes ← matching_votes hash is_final ids history;
      Some (if (lv_hash entry =? hash) && (negb is_final || vote_is_final (lv_vote entry)) then lv_vote entry :: votes else votes)
  end.

Definition history_votes (root : Root) (hash : BlockHash) (is_final : bool) (h : LocalVoteHistory) : option (list Vote) :=
  matching_votes hash is_final (set_iter (default ∅ (lvh_by_root h !! root))) (lvh_history h).

Definition history_exists (root : Root) (h : LocalVoteHistory) : bool := bool_decide (is_Some (lvh_by_root h !! root)).
Definition history_size (h : LocalVoteHistory) : nat := size (lvh_history h).

(** ** request_aggregator_impl.rs *)

Definition search_for_block (s : LmdbStore) (hash : BlockHash) (root : Root) : option SavedBlock :=
  match any_get_block s hash with
  | Some block => Some block
  | None =>
      if u256_is_zero root then None
      else
        match block_successor s root with
        | Some successor => any_get_block s successor
        | None =>
            match any_get_account s root with
            | Some info => any_get_block s (ai_open_block info)
            | None => None
            end
        end
  end.

Definition should_generate_final_vote (s : LmdbStore) (block : SavedBlock) : bool :=
  match st_final_vote s !! qualified_root block with
  | Some final_hash => final_hash =? block_hash block
  | None => confirmed_block_exists s (block_hash block)
  end.

(** [to_generate_final]; nothing is ever added to [to_generate]. *)
Definition aggregate (s : LmdbStore) (requests : list (BlockHash * Root)) : list SavedBlock :=
  omap (fun '(hash, root) =>
    block ← search_for_block s hash root;
    if should_generate_final_vote s block then Some block else None) requests.

(** ** vote_generator.rs *)

Definition MAX_REQUESTS : nat := 2048.

Record VoteRequest := mkVoteRequest {
  vr_candidates : list (Root * BlockHash);
  vr_channel : Z;
}.

(** A vote that was handed out: the reading of the clock, the roots and hashes
    it is for, and the channel it was sent to, or [None] for a broadcast. *)
Record MadeVote := mkMadeVote {
  mv_time : Timestamp;
  mv_pairs : list (Root * BlockHash);
  mv_vote : Vote;
  mv_channel : option Z;
}.

Record VoteGenerator := mkVoteGenerator {
  vg_candidates : list (Root * BlockHash);
  vg_requests : list VoteRequest;
  vg_next_broadcast : Timestamp;
  vg_spacing : VoteSpacing;
  vg_history : LocalVoteHistory;
  vg_readings : nat;
  vg_made : list MadeVote;
}.

Section generator.
Context `{Crypto} (is_final : bool) (vote_generator_delay : Duration).
Context (clock : nat -> Timestamp) (unix_now : nat -> UnixMillisTimestamp).

Definition generator_new (voting_delay : Duration) (max_cache : nat) (now : Timestamp) : VoteGenerator :=
  mkVoteGenerator [] [] now (vote_spacing_new voting_delay) (history_new max_cache) 0 [].

Definition vg_with_queues (candidates : list (Root * BlockHash)) (requests : list VoteRequest) (g : VoteGenerator) : VoteGenerator :=
  mkVoteGenerator candidates requests (vg_next_broadcast g) (vg_spacing g) (vg_history g) (vg_readings g) (vg_made g).
Definition vg_read (g : VoteGenerator) : VoteGenerator :=
  mkVoteGenerator (vg_candidates g) (vg_requests g) (vg_next_broadcast g) (vg_spacing g) (vg_history g) (S (vg_readings g)) (vg_made g).

(** [process_batch], with what the ledger has verified *)
Definition generator_process_batch (verified : list (Root * BlockHash)) (g : VoteGenerator) : VoteGenerator :=
  vg_with_queues (vg_candidates g ++ verified) (vg_requests g) g.

(** [generate], on the ledger that [any] reads *)
Definition generator_generate (c : LedgerConstants) (s : LmdbStore) (blocks : list SavedBlock) (channel : Z) (g : VoteGenerator)
    : nat * VoteGenerator :=
  let req_candidates := (fun b : SavedBlock => (root b, block_hash b)) <$> filter (fun b => dependents_confirmed c s b = true) blocks in
  let requests := vg_requests g ++ [mkVoteRequest req_candidates channel] in
  (length req_candidates, vg_with_queues (vg_candidates g) (drop (length requests - MAX_REQUESTS) requests) g).

(** The loops of [broadcast] and [reply] that fill one vote: candidates are
    taken until there are [MAX_HASHES] hashes or none is left. *)
Fixpoint collect_hashes (candidates : list (Root * BlockHash)) (taken : list (Root * BlockHash)) (g : VoteGenerator)
    : option (list (Root * BlockHash) * list (Root * BlockHash) * VoteGenerator) :=
  match candidates with
  | [] => Some (taken, [], g)
  | (root, hash) :: candidates =>
      '(taken, g) ←
        (if bool_decide (root ∈ taken.*1) then Some (taken, g)
         else
           ok ← votable root hash (clock (vg_readings g)) (vg_spacing g);
           Some (if ok : bool then taken ++ [(root, hash)] else taken, vg_read g));
      if (length taken =? MAX_HASHES)%nat then Some (taken, candidates, g) else collect_hashes candidates taken g
  end.

(** The inner loop of [vote]: history and spacing, for every hash *)
Fixpoint flag_hashes (vote : Vote) (now : Timestamp) (pairs : list (Root * BlockHash)) (spacing : VoteSpacing) (history : LocalVoteHistory)
    : run (VoteSpacing * LocalVoteHistory) :=
  match pairs with
  | [] => Finished (spacing, history)
  | (root, hash) :: pairs =>
      history ← history_add root hash vote history;
      spacing ← unwrap (spacing_flag root hash now spacing);
      flag_hashes vote now pairs spacing history
  end.

(** The votes of all representatives of the wallets, made before the first one
    is handed out. *)
Definition make_votes (rep_keys : list Z) (readings : nat) (hashes : list BlockHash) : option (list Vote) :=
  mapM (fun '(i, rep_key) =>
    vote_new rep_key (if is_final then TIMESTAMP_MAX else unix_now (readings + i)) (if is_final then DURATION_MAX else 9) hashes)
    (zip (seq 0 (length rep_keys)) rep_keys).

Fixpoint hand_out (pairs : list (Root * BlockHash)) (channel : option Z) (votes : list Vote) (g : VoteGenerator) : run VoteGenerator :=
  match votes with
  | [] => Finished g
  | vote :: votes =>
      let now := clock (vg_readings g) in
      '(spacing, history) ← flag_hashes vote now pairs (vg_spacing g) (vg_history g);
      hand_out pairs channel votes
        (mkVoteGenerator (vg_candidates g) (vg_requests g) (vg_next_broadcast g) spacing history (S (vg_readings g))
           (vg_made g ++ [mkMadeVote now pairs vote channel]))
  end.

Definition generator_vote (rep_keys : list Z) (pairs : list (Root * BlockHash)) (channel : option Z) (g : VoteGenerator)
    : run VoteGenerator :=
  votes ← unwrap (make_votes rep_keys (vg_readings g) pairs.*2);
  hand_out pairs channel votes g.

Definition broadcast (rep_keys : list Z) (g : VoteGenerator) : run VoteGenerator :=
  '(pairs, candidates, g) ← unwrap (collect_hashes (vg_candidates g) [] g);
  let g := vg_with_queues candidates (vg_requests g) g in
  match pairs with [] => Finished g | _ => generator_vote rep_keys pairs None g end.

(** [rep_keys n] and [stopped n] are what the [n]th round finds. *)
Fixpoint reply_loop (fuel : nat) (rep_keys : nat -> list Z) (stopped : nat -> bool) (n : nat) (channel : Z)
    (candidates : list (Root * BlockHash)) (g : VoteGenerator) : run VoteGenerator :=
  match fuel with
  | O => Running
  | S fuel =>
      match candidates with
      | [] => Finished g
      | _ =>
          if stopped n then Finished g
          else
            '(pairs, candidates, g) ← unwrap (collect_hashes candidates [] g);
            g ← match pairs with [] => Finished g | _ => generator_vote (rep_keys n) pairs (Some channel) g end;
            reply_loop fuel rep_keys stopped (S n) channel candidates g
      end
  end.

Definition reply (rep_keys : nat -> list Z) (stopped : nat -> bool) (request : VoteRequest) (g : VoteGenerator) : run VoteGenerator :=
  reply_loop (S (length (vr_candidates request))) rep_keys stopped 0 (vr_channel request) (vr_candidates request) g.

Definition should_broadcast (instant : Timestamp) (g : VoteGenerator) : bool :=
  if (HASHES_MAX <=? length (vg_candidates g))%nat then true
  else match vg_candidates g with [] => false | _ => vg_next_broadcast g <=? instant end.

(** One turn of [run] after the wait. *)
Definition run_turn (instant instant' : Timestamp) (rep_keys : list Z) (reply_keys : nat -> list Z) (stopped : nat -> bool)
    (g : VoteGenerator) : run VoteGenerator :=
  g ← (if should_broadcast instant g then
         g ← broadcast rep_keys g;
         Finished (mkVoteGenerator (vg_candidates g) (vg_requests g) (instant' + vote_generator_delay) (vg_spacing g)
                     (vg_history g) (vg_readings g) (vg_made g))
       else Finished g);
  match vg_requests g with
  | [] => Finished g
  | request :: requests => reply reply_keys stopped request (vg_with_queues (vg_candidates g) requests g)
  end.
End generator.
End hash_order.
