(* ===== verification/VoteSpacingTheorems.v ===== *)
(** * Vote spacing is a table of the last vote of every root

    The three maps of vote_spacing.rs implement a table from roots to the hash
    and the time of the last vote; what the table answers keeps votes for
    different blocks of one root apart. *)

From S2P Require Import Prelude Types Blocks Store Sets FinalVotes Votes Election Collections.
From S2P Require Import Messages VoteGeneration.

(** ** The specification *)

Abbreviation RecentVotes := (gmap Root (BlockHash * Timestamp)) (only parsing).

Definition votable_spec (delay : Duration) (m : RecentVotes) (root : Root) (hash : BlockHash) (now : Timestamp) : bool :=
  match m !! root with
  | Some (h, t) => (hash =? h) || (delay <=? elapsed t now)
  | None => true
  end.

(** Entries that are too old go; an entry that stays keeps its hash. *)
Definition flag_spec (delay : Duration) (root : Root) (hash : BlockHash) (now : Timestamp) (m : RecentVotes) : RecentVotes :=
  let m := filter (fun e => now - delay < e.2.2) m in
  <[root := (from_option fst hash (m !! root), now)]> m.

Record spacing_ok (n : Z) (c : EntryContainer) (m : RecentVotes) : Prop := {
  so_by_root : set_index_ok se_root (ec_entries c) (ec_by_root c);
  so_by_time : index_ok se_timestamp (ec_entries c) (ec_by_time c);
  so_unique : forall i j e f, ec_entries c !! i = Some e -> ec_entries c !! j = Some f -> se_root e = se_root f -> i = j;
  so_table : forall r h t, m !! r = Some (h, t) <-> exists i, ec_entries c !! i = Some (mkSpacingEntry r h t);
  so_ids : forall i e, ec_entries c !! i = Some e -> i < ec_next_id c;
  so_next : 0 <= ec_next_id c <= n;
}.

(** ** Trimming *)

(** One entry with its place in the index by root. *)
Lemma ec_remove_entry_ok id e c :
  set_index_ok se_root (ec_entries c) (ec_by_root c) -> ec_entries c !! id = Some e ->
  exists c', ec_remove_entry id c = Some c' /\ ec_entries c' = delete id (ec_entries c) /\
    set_index_ok se_root (ec_entries c') (ec_by_root c') /\ ec_by_time c' = ec_by_time c /\ ec_next_id c' = ec_next_id c.
Proof.
  intros Hi E. destruct (set_index_lookup se_root _ _ _ _ Hi E) as (s & Es & He).
  unfold ec_remove_entry. rewrite E. cbn [mbind option_bind]. rewrite Es. cbn [mbind option_bind].
  eexists. split; [done|]. split; [done|]. split; [|done]. cbn. rewrite set_index_without_empty by done.
  by apply (set_index_without_ok se_root).
Qed.

Lemma ec_remove_entries_ok ids c :
  set_index_ok se_root (ec_entries c) (ec_by_root c) -> NoDup ids -> Forall (fun i => is_Some (ec_entries c !! i)) ids ->
  exists c', ec_remove_entries ids c = Some c' /\ (forall i, ec_entries c' !! i = if decide (i ∈ ids) then None else ec_entries c !! i) /\
    set_index_ok se_root (ec_entries c') (ec_by_root c') /\ ec_by_time c' = ec_by_time c /\ ec_next_id c' = ec_next_id c.
Proof.
  intros Hi Hnd. revert c Hi. induction Hnd as [|id ids Hid Hnd IH]; intros c Hi Hall.
  - exists c. split; [done|]. split; [|done]. intros i. rewrite decide_False; [done|]. apply not_elem_of_nil.
  - apply Forall_cons in Hall as [[e E] Hall]. destruct (ec_remove_entry_ok id e c Hi E) as (c1 & E1 & Ee & Hi1 & Et & En).
    destruct (IH c1 Hi1) as (c2 & E2 & He2 & Hi2 & Et2 & En2).
    { rewrite Ee. rewrite Forall_forall in Hall |- *. intros i Hin. rewrite lookup_delete_ne; [by apply Hall|by intros ->]. }
    exists c2. cbn. rewrite E1. cbn. split; [done|]. split; [|split; [done|split; congruence]].
    intros i. rewrite He2, Ee. destruct (decide (i = id)) as [->|Hne].
    + rewrite lookup_delete_eq, (decide_True (P := id ∈ id :: ids)) by (by left). by destruct (decide _).
    + rewrite lookup_delete_ne by done. apply decide_ext. rewrite elem_of_cons. naive_solver.
Qed.

(** The entries of the times on the list go, those of later times stay. *)
Lemma ec_trim_loop_ok cutoff l to_remove c :
  set_index_ok se_root (ec_entries c) (ec_by_root c) -> StronglySorted (key_le Z.compare) l -> NoDup l.*1 ->
  Forall (fun e => NoDup e.2 /\ forall i, i ∈ e.2 <-> exists x, ec_entries c !! i = Some x /\ se_timestamp x = e.1) l ->
  (forall i x, ec_entries c !! i = Some x -> se_timestamp x ∈ l.*1) ->
  exists gone c', ec_trim_loop cutoff l to_remove c = Some (to_remove ++ gone, c') /\
    (forall t, t ∈ gone <-> t ∈ l.*1 /\ t <= cutoff) /\
    (forall i x, ec_entries c' !! i = Some x <-> ec_entries c !! i = Some x /\ cutoff < se_timestamp x) /\
    set_index_ok se_root (ec_entries c') (ec_by_root c') /\ ec_by_time c' = ec_by_time c /\ ec_next_id c' = ec_next_id c.
Proof.
  intros Hi Hs. revert to_remove c Hi. induction Hs as [|[t ids] l Hs IH Hall]; intros to_remove c Hi Hnd Hl Hcov.
  - exists [], c. rewrite app_nil_r. split; [done|]. split; [intros ?; cbn; rewrite elem_of_nil; tauto|]. split; [|done].
    intros i x. split; [|tauto]. intros E. by apply Hcov, elem_of_nil in E.
  - apply Forall_cons in Hl as [[Hnd1 Hin] Hl]. apply NoDup_cons in Hnd as [Ht Hnd]. cbn [fst snd] in *. cbn [ec_trim_loop].
    assert (Hlater : forall t', t' ∈ l.*1 -> t <= t').
    { intros t' ([t2 ids2] & -> & He)%list_elem_of_fmap. rewrite Forall_forall in Hall. specialize (Hall _ He).
      unfold key_le in Hall. rewrite Z.compare_ngt_iff in Hall. cbn in *. lia. }
    destruct (Z.ltb_spec cutoff t) as [Hc|Hc].
    + exists [], c. rewrite app_nil_r. split; [done|]. split; [|split; [|done]].
      * intros t'. rewrite elem_of_nil. split; [done|]. intros [[Et|Hin']%elem_of_cons Hle]; [cbn in Et; lia|].
        specialize (Hlater _ Hin'). lia.
      * intros i x. split; [|tauto]. intros E. split; [done|]. destruct (elem_of_cons l.*1 (se_timestamp x) t) as [H1 _].
        destruct (H1 (Hcov _ _ E)) as [Et|Hin']; [lia|]. specialize (Hlater _ Hin'). lia.
    + destruct (ec_remove_entries_ok ids c Hi Hnd1) as (c1 & -> & Ee & Hi1 & Et1 & En1).
      { apply Forall_forall. intros i (x & Ex & _)%Hin. by exists x. }
      cbn [mbind option_bind].
      assert (He1 : forall i x, ec_entries c1 !! i = Some x <-> ec_entries c !! i = Some x /\ se_timestamp x <> t).
      { intros i x. rewrite Ee. destruct (decide (i ∈ ids)) as [Hd|Hd].
        - split; [done|]. intros [Ex Hne]. apply Hin in Hd as (y & Ey & Hy). congruence.
        - split; [|tauto]. intros Ex. split; [done|]. intros Hx. apply Hd, Hin. eauto. }
      destruct (IH (to_remove ++ [t]) c1 Hi1 Hnd) as (gone & c2 & E2 & Hg & He2 & Hi2 & Et2 & En2).
      * rewrite Forall_forall in Hl |- *. intros e He. destruct (Hl e He) as [H1 H2]. split; [done|]. intros i. rewrite H2.
        assert (e.1 <> t) by (intros <-; apply Ht; by apply list_elem_of_fmap_2).
        setoid_rewrite He1. naive_solver.
      * intros i x [Ex Hne]%He1. apply Hcov in Ex. apply elem_of_cons in Ex. tauto.
      * exists (t :: gone), c2. rewrite E2, <- app_assoc. split; [done|]. split; [|split; [|split; [done|split; congruence]]].
        -- intros t'. rewrite fmap_cons, !elem_of_cons, Hg. cbn. split; [intros [->|[? ?]]; tauto|]. intros [[->|?] ?]; tauto.
        -- intros i x. rewrite He2, He1. split; [tauto|]. intros [? ?]. split; [|done]. split; [done|]. lia.
Qed.

Lemma ec_trim_ok n cutoff c m :
  spacing_ok n c m -> exists c', ec_trim cutoff c = Some c' /\ spacing_ok n c' (filter (fun e => cutoff < e.2.2) m).
Proof.
  intros [H1 H2 H3 H4 H5 H6]. unfold ec_trim.
  assert (Hkeys : forall t, t ∈ (btm_entries Z.compare (ec_by_time c)).*1 <-> is_Some (ec_by_time c !! t)).
  { intros t. rewrite list_elem_of_fmap. split.
    - intros ([t' l] & -> & E%elem_of_btm_entries). by exists l.
    - intros [l E]. exists (t, l). split; [done|]. by apply elem_of_btm_entries. }
  destruct (ec_trim_loop_ok cutoff (btm_entries Z.compare (ec_by_time c)) [] c H1) as (gone & c' & -> & Hg & He & Hi & Et & En).
  - apply btm_entries_sorted, Z_key_order.
  - rewrite btm_entries_perm. apply NoDup_fst_map_to_list.
  - apply Forall_forall. intros [t ids] E%elem_of_btm_entries. destruct (H2 t) as (Hnd & _ & Hin). rewrite E in *. done.
  - intros i x E. apply Hkeys. destruct (H2 (se_timestamp x)) as (_ & _ & Hin).
    assert (Hx : i ∈ default [] (ec_by_time c !! se_timestamp x)) by (apply Hin; eauto).
    destruct (ec_by_time c !! se_timestamp x); [by eexists|by apply elem_of_nil in Hx].
  - cbn. eexists. split; [done|]. split; cbn; try done.
    + intros t. rewrite foldl_delete_lookup, Et. destruct (decide (t ∈ gone)) as [Hd|Hd].
      * split; [constructor|]. split; [done|]. intros i. split; [by intros ?%elem_of_nil|].
        intros (x & [_ Hc]%He & Hx). apply Hg in Hd as [_ Hle]. lia.
      * destruct (H2 t) as (Hnd & Hne & Hin). split; [done|]. split; [done|]. intros i. rewrite Hin.
        split; intros (x & Ex & Hx); exists x; (split; [|done]); [|by apply He in Ex as [? _]].
        apply He. split; [done|]. rewrite Hx. destruct (decide (t <= cutoff)) as [Hle|]; [|lia]. destruct Hd. apply Hg.
        split; [|done]. apply Hkeys. assert (Hx' : i ∈ default [] (ec_by_time c !! t)) by (apply Hin; eauto).
        destruct (ec_by_time c !! t); [by eexists|by apply elem_of_nil in Hx'].
    + intros i j e f [Ei _]%He [Ej _]%He. by apply H3.
    + intros r h t. rewrite map_lookup_filter_Some, H4. cbn. split.
      * intros [(i & E) Hc]. exists i. by apply He.
      * intros (i & [E Hc]%He). eauto.
    + rewrite En. intros i e [E _]%He. by eapply H5.
    + by rewrite En.
Qed.

(** ** Flagging *)

Lemma ec_insert_ok n root hash now c m :
  spacing_ok n c m -> n + 1 < 2 ^ 64 -> m !! root = None ->
  spacing_ok (n + 1) (ec_insert (mkSpacingEntry root hash now) c) (<[root := (hash, now)]> m).
Proof.
  intros [H1 H2 H3 H4 H5 H6] Hn Hm. set (id := ec_next_id c) in *.
  assert (Hid : ec_entries c !! id = None).
  { destruct (ec_entries c !! id) as [e|] eqn:E; [|done]. specialize (H5 _ _ E). lia. }
  assert (Hroot : forall i e, ec_entries c !! i = Some e -> se_root e <> root).
  { intros i [r h t] E Hr. cbn in Hr. subst r. assert (m !! root = Some (h, t)) by (apply H4; eauto). congruence. }
  split; cbn; fold id.
  - by apply (set_index_insert_ok se_root _ _ id (mkSpacingEntry root hash now)).
  - by apply (index_push_ok se_timestamp _ _ id (mkSpacingEntry root hash now)).
  - intros i j e f. rewrite !lookup_insert_Some. intros [[<- <-]|[Hi Ei]] [[<- <-]|[Hj Ej]] Hr; cbn in *; try done.
    + by destruct (Hroot _ _ Ej).
    + by destruct (Hroot _ _ Ei).
    + by eapply H3.
  - intros r h t. rewrite lookup_insert_Some. split.
    + intros [[<- [= <- <-]]|[Hne E]]; [exists id; apply lookup_insert_eq|]. apply H4 in E as (i & E). exists i.
      rewrite lookup_insert_ne; [done|]. intros <-. congruence.
    + intros (i & [[<- [= <- <- <-]]|[Hne E]]%lookup_insert_Some); [by left|]. right. split; [|apply H4; eauto].
      intros <-. by apply Hroot in E.
  - rewrite wrap_small by (unfold in_u; lia). intros i e [[<- _]|[_ E]]%lookup_insert_Some; [lia|]. specialize (H5 _ _ E). lia.
  - rewrite wrap_small by (unfold in_u; lia). lia.
Qed.

Lemma remove_from_time_index_eq time id (m : gmap Timestamp (list Z)) m' :
  index_take time id m = Some m' -> remove_from_time_index time id m = m'.
Proof. unfold index_take, remove_from_time_index. destruct (m !! time); [|done]. by intros [= <-]. Qed.

Lemma change_time_ok n root now c m h t :
  spacing_ok n c m -> m !! root = Some (h, t) ->
  forall i, ec_entries c !! i = Some (mkSpacingEntry root h t) ->
  spacing_ok n (change_time_for_entry now c i) (<[root := (h, now)]> m).
Proof.
  intros [H1 H2 H3 H4 H5 H6] Hm i E. unfold change_time_for_entry. rewrite E. cbn [se_root se_hash se_timestamp].
  destruct (index_move_ok se_timestamp _ _ i _ (mkSpacingEntry root h now) H2 E) as (idx & Et & Hok).
  cbn in Et. rewrite (remove_from_time_index_eq _ _ _ _ Et). split; cbn; try done.
  - by apply (set_index_update se_root _ _ i (mkSpacingEntry root h t)).
  - intros j k e f. rewrite !lookup_insert_Some. intros [[<- <-]|[Hj Ej]] [[<- <-]|[Hk Ek]] Hr; cbn in *; try done.
    + by eapply (H3 _ _ _ _ E Ek).
    + by eapply (H3 _ _ _ _ Ej E).
    + by eapply H3.
  - intros r h' t'. rewrite lookup_insert_Some. split.
    + intros [[<- [= <- <-]]|[Hne E']]; [exists i; apply lookup_insert_eq|]. apply H4 in E' as (j & E'). exists j.
      rewrite lookup_insert_ne; [done|]. intros <-. congruence.
    + intros (j & [[<- [= <- <- <-]]|[Hne E']]%lookup_insert_Some); [by left|]. right. split; [|apply H4; eauto].
      intros <-. by destruct (H3 _ _ _ _ E E').
  - intros j e [[<- _]|[_ E']]%lookup_insert_Some; by eapply H5.
Qed.

Section spacing.
Context `{HL : HashOrderLaws}.

Lemma by_root_single n c m root :
  spacing_ok n c m -> (m !! root = None -> set_iter (default ∅ (ec_by_root c !! root)) = []) /\
  forall h t, m !! root = Some (h, t) -> exists i, set_iter (default ∅ (ec_by_root c !! root)) = [i] /\ ec_entries c !! i = Some (mkSpacingEntry root h t).
Proof using HL.
  intros [H1 H2 H3 H4 H5 H6]. destruct (H1 root) as [Hne Hin]. split.
  - intros E. apply elem_of_nil_inv. intros i Hi%elem_of_set_iter.
    apply Hin in Hi as ([r h t] & Ei & Er). cbn in Er. subst r.
    assert (m !! root = Some (h, t)) by (apply H4; eauto). congruence.
  - intros h t E. apply H4 in E as (i & Ei). exists i. split; [|done].
    assert (Hi : default ∅ (ec_by_root c !! root) = {[i]}).
    { apply leibniz_equiv. intros j. rewrite elem_of_singleton, Hin. split; [|intros ->; eauto].
      intros (x & Ex & Hx). by apply (H3 _ _ _ _ Ex Ei). }
    rewrite Hi. apply Permutation_singleton_r. rewrite set_iter_perm. by rewrite elements_singleton.
Qed.

Lemma votable_ok n v m root hash now :
  spacing_ok n (vs_recent v) m -> votable root hash now v = Some (votable_spec (vs_delay v) m root hash now).
Proof using HL.
  intros Hok. destruct (by_root_single n _ m root Hok) as [Hn Hs]. unfold votable, votable_spec.
  destruct (m !! root) as [[h t]|] eqn:E.
  - destruct (Hs h t eq_refl) as (i & -> & Ei). cbn. rewrite Ei. cbn. by destruct (_ || _).
  - by rewrite (Hn eq_refl).
Qed.

(** One flagged vote implements one step of the specification. *)
Lemma spacing_flag_ok n v m root hash now :
  spacing_ok n (vs_recent v) m -> n + 1 < 2 ^ 64 ->
  exists v', spacing_flag root hash now v = Some v' /\ vs_delay v' = vs_delay v /\
    spacing_ok (n + 1) (vs_recent v') (flag_spec (vs_delay v) root hash now m).
Proof using HL.
  intros Hok Hn. unfold spacing_flag, flag_spec. destruct (ec_trim_ok n (now - vs_delay v) _ m Hok) as (c & -> & Hc).
  cbn [mbind option_bind]. set (m' := filter _ m) in *. destruct (by_root_single n c m' root Hc) as [Hnone Hs].
  unfold change_time_for_root. destruct (ec_by_root c !! root) as [ids|] eqn:Er; cbn in Hnone, Hs.
  - assert (Hm : is_Some (m' !! root)).
    { destruct (m' !! root) eqn:E; [by eexists|]. destruct (so_by_root _ _ _ Hc root) as [Hne _]. destruct Hne.
      rewrite Er. f_equal. apply leibniz_equiv. apply elem_of_equiv_empty. intros i Hi%elem_of_set_iter.
      rewrite (Hnone eq_refl) in Hi. by apply elem_of_nil in Hi. }
    destruct Hm as [[h t] Em]. destruct (Hs h t Em) as (i & -> & Ei). cbn [foldl].
    eexists. split; [done|]. split; [done|]. rewrite Em. cbn.
    pose proof (change_time_ok n root now c m' h t Hc Em i Ei) as [? ? ? ? ? ?]. split; try done. lia.
  - eexists. split; [done|]. split; [done|]. cbn. destruct (m' !! root) as [[h t]|] eqn:Em.
    + destruct (Hs h t eq_refl) as (i & Hi & _). assert (i ∈ set_iter ∅) as []%elem_of_set_iter%elem_of_empty.
      rewrite Hi. by left.
    + by apply ec_insert_ok.
Qed.

Lemma spacing_new_ok delay : spacing_ok 0 (vs_recent (vote_spacing_new delay)) ∅.
Proof using.
  split; cbn; [apply set_index_empty|apply index_empty_ok| | | |lia].
  - intros i j e f E. by rewrite lookup_empty in E.
  - intros r h t. rewrite lookup_empty. split; [done|]. intros (i & E). by rewrite lookup_empty in E.
  - intros i e E. by rewrite lookup_empty in E.
Qed.
End spacing.
