(* ===== verification/VoteHistoryTheorems.v ===== *)
(** * The local vote history keeps one block per root and one vote per voter *)

From S2P Require Import Prelude Types Blocks Store Sets FinalVotes Votes Election Collections.
From S2P Require Import Messages VoteGeneration.
From S2P Require Import VoteSpacingTheorems.

(** [added] is what was ever added: root, hash and vote. *)
Record history_ok (added : list LocalVote) (h : LocalVoteHistory) : Prop := {
  ho_by_root : set_index_ok lv_root (lvh_history h) (lvh_by_root h);
  ho_one_hash : forall i j e f, lvh_history h !! i = Some e -> lvh_history h !! j = Some f ->
    lv_root e = lv_root f -> lv_hash e = lv_hash f;
  ho_one_voter : forall i j e f, lvh_history h !! i = Some e -> lvh_history h !! j = Some f ->
    lv_root e = lv_root f -> vote_voter (lv_vote e) = vote_voter (lv_vote f) -> i = j;
  ho_added : forall i e, lvh_history h !! i = Some e -> e ∈ added;
}.

Lemma history_new_ok max_cache : history_ok [] (history_new max_cache).
Proof.
  split; cbn; [apply set_index_empty| | |]; intros i; intros *; by rewrite lookup_empty.
Qed.

(** A part of the history, with its index, is a history. *)
Lemma history_ok_sub added h history by_root :
  history_ok added h -> history ⊆ lvh_history h -> set_index_ok lv_root history by_root ->
  history_ok added (mkLocalVoteHistory history by_root (lvh_max_cache h)).
Proof.
  intros [H1 H2 H3 H4] Hsub Hi. split; cbn; [done| | |].
  - intros i j e f Ei Ej. eapply H2; by eapply lookup_weaken.
  - intros i j e f Ei Ej. eapply H3; by eapply lookup_weaken.
  - intros i e Ei. eapply H4. by eapply lookup_weaken.
Qed.

Lemma history_clean_ok added fuel h :
  history_ok added h -> (size (lvh_history h) < fuel)%nat ->
  exists h', history_clean fuel h = Finished h' /\ history_ok added h' /\ lvh_max_cache h' = lvh_max_cache h /\
    (size (lvh_history h') <= lvh_max_cache h)%nat /\ lvh_history h' ⊆ lvh_history h.
Proof.
  revert h. induction fuel as [|fuel IH]; intros h Hok Hf; [lia|]. cbn [history_clean].
  destruct (Nat.ltb_spec (lvh_max_cache h) (size (lvh_history h))) as [Hs|Hs]; [|by exists h].
  destruct (btm_first Z.compare (lvh_history h)) as [[id vote]|] eqn:Ef.
  2:{ apply btm_first_None in Ef. rewrite Ef, map_size_empty in Hs. lia. }
  pose proof (btm_first_lookup _ _ _ _ Ef) as Ei. cbn [unwrap mbind run_bind].
  destruct (set_index_lookup lv_root _ _ _ _ (ho_by_root _ _ Hok) Ei) as (ids & Es & Hin). rewrite Es.
  rewrite set_index_without_empty by done.
  pose proof (set_index_without_ok lv_root _ _ _ _ _ (ho_by_root _ _ Hok) Ei Es) as Hi.
  pose proof (history_ok_sub added h _ _ Hok (delete_subseteq _ id) Hi) as Hok'.
  destruct (IH _ Hok') as (h' & E & H1 & H2 & H3 & H4).
  - cbn. rewrite map_size_delete_Some by (by eexists). lia.
  - exists h'. split; [done|]. split; [done|]. split; [done|]. split; [done|]. cbn in H4. etrans; [exact H4|apply delete_subseteq].
Qed.

(** Which votes of the root a new vote replaces, and which stand in its way. *)
Definition replaced (hash : BlockHash) (vote : Vote) (e : LocalVote) : bool :=
  negb (lv_hash e =? hash)
  || ((vote_voter vote =? vote_voter (lv_vote e)) && (vote_timestamp (lv_vote e) <=? vote_timestamp vote)).
Definition newer (vote : Vote) (e : LocalVote) : bool :=
  (vote_voter vote =? vote_voter (lv_vote e)) && (vote_timestamp vote <? vote_timestamp (lv_vote e)).

Lemma history_scan_ok hash vote ids history :
  Forall (fun i => is_Some (history !! i)) ids ->
  exists to_delete add_vote, history_scan hash vote ids history = Some (to_delete, add_vote) /\
    (forall i, i ∈ to_delete <-> i ∈ ids /\ exists e, history !! i = Some e /\ replaced hash vote e = true) /\
    (add_vote = true <-> forall i e, i ∈ ids -> history !! i = Some e -> replaced hash vote e = false -> newer vote e = false).
Proof.
  induction ids as [|i ids IH]; intros Hall.
  - exists [], true. split; [done|]. split; [|split; [|done]].
    + intros i. split; [by intros ?%elem_of_nil|]. intros [Hi _]. done.
    + intros _ i e Hi. by apply elem_of_nil in Hi.
  - apply Forall_cons in Hall as [[e E] Hall]. destruct (IH Hall) as (l & b & El & Hl & Hb). cbn [history_scan].
    rewrite E. cbn [mbind option_bind]. rewrite El. cbn [mbind option_bind]. fold (replaced hash vote e). fold (newer vote e).
    assert (Hcons : forall P : LocalVote -> Prop, (forall j f, j ∈ i :: ids -> history !! j = Some f -> P f) <->
      P e /\ forall j f, j ∈ ids -> history !! j = Some f -> P f).
    { intros P. split; [intros H; split; [by apply (H i e); [left|]|by intros; eapply H; [right|]]|].
      intros [Pe Pl] j f [->|Hj]%elem_of_cons Ej; [by replace f with e by congruence|by eapply Pl]. }
    assert (Hdel : forall j, (j ∈ i :: ids /\ exists f, history !! j = Some f /\ replaced hash vote f = true) <->
      (j = i /\ replaced hash vote e = true) \/ j ∈ l).
    { intros j. rewrite Hl, elem_of_cons. split.
      - intros [[->|Hj] (f & Ef & Hf)]; [left|right; eauto]. split; [done|]. by replace e with f by congruence.
      - intros [[-> He]|[Hj Hf]]; eauto. }
    setoid_rewrite (Hcons (fun f => replaced hash vote f = false -> newer vote f = false)).
    setoid_rewrite Hdel. destruct (replaced hash vote e) eqn:Er; [|destruct (newer vote e) eqn:En].
    + exists (i :: l), b. split; [done|]. split; [intros j; rewrite elem_of_cons; tauto|]. rewrite Hb. split; [by split|by intros [_ ?]].
    + exists l, false. split; [done|]. split; [intros j; split; [by right|intros [[_ ?]|?]; done]|].
      split; [done|]. intros [H _]. by specialize (H eq_refl).
    + exists l, b. split; [done|]. split; [intros j; split; [by right|intros [[_ ?]|?]; done]|].
      rewrite Hb. split; [by split|by intros [_ ?]].
Qed.

Lemma history_ok_added added added' h : (forall e, e ∈ added -> e ∈ added') -> history_ok added h -> history_ok added' h.
Proof. intros Hs [H1 H2 H3 H4]. split; eauto. Qed.

Lemma next_id_free (m : gmap Z LocalVote) : m !! from_option (fun e => e.1 + 1) 0 (btm_last Z.compare m) = None.
Proof.
  destruct (btm_last Z.compare m) as [[k v]|] eqn:E; cbn.
  - destruct (m !! (k + 1)) as [e|] eqn:Ee; [|done].
    pose proof (btm_last_greatest _ _ _ _ _ _ Z_key_order E Ee) as Hle. rewrite Z.compare_ngt_iff in Hle. lia.
  - apply btm_last_None in E. by rewrite E, lookup_empty.
Qed.

(** The vote goes to a root that has only votes of other voters, for the same
    hash. *)
Lemma history_insert_ok added root hash vote h by_root :
  history_ok added h ->
  (forall i e, lvh_history h !! i = Some e -> lv_root e = root -> lv_hash e = hash /\ vote_voter (lv_vote e) <> vote_voter vote) ->
  (forall k, k <> root -> by_root !! k = lvh_by_root h !! k) -> default ∅ (by_root !! root) = default ∅ (lvh_by_root h !! root) ->
  let id := from_option (fun e => e.1 + 1) 0 (btm_last Z.compare (lvh_history h)) in
  history_ok (added ++ [mkLocalVote root hash vote])
    (mkLocalVoteHistory (<[id := mkLocalVote root hash vote]> (lvh_history h)) (set_index_insert root id by_root) (lvh_max_cache h)).
Proof.
  intros [H1 H2 H3 H4] Hroot Hb1 Hb2. cbn zeta. set (id := from_option _ _ _).
  pose proof (next_id_free (lvh_history h)) as Hid. fold id in Hid.
  assert (Hidx : set_index_ok lv_root (<[id := mkLocalVote root hash vote]> (lvh_history h)) (set_index_insert root id by_root)).
  { pose proof (set_index_insert_ok lv_root _ _ id (mkLocalVote root hash vote) H1 Hid) as Hi.
    intros k. specialize (Hi k). unfold set_index_insert in *. cbn [lv_root] in *. destruct (decide (k = root)) as [->|Hk].
    - rewrite !lookup_insert_eq in *. by rewrite Hb2.
    - rewrite !lookup_insert_ne in * by done. by rewrite Hb1. }
  split; cbn; [done| | |].
  - intros i j e f. rewrite !lookup_insert_Some. intros [[<- <-]|[_ Ei]] [[<- <-]|[_ Ej]] Hr; cbn in *; try done.
    + symmetry. by apply (Hroot j f).
    + by apply (Hroot i e).
    + by apply (H2 i j).
  - intros i j e f. rewrite !lookup_insert_Some. intros [[<- <-]|[_ Ei]] [[<- <-]|[_ Ej]] Hr Hv; cbn in *; try done.
    + by destruct (Hroot j f Ej (eq_sym Hr)) as [_ []].
    + by destruct (Hroot i e Ei Hr) as [_ []].
    + by apply (H3 i j e f).
  - intros i e [[<- <-]|[_ Ei]]%lookup_insert_Some; apply elem_of_app; [right; by left|left; eauto].
Qed.

Section history.
Context `{HL : HashOrderLaws}.

Lemma remove_ids_lookup l m i : remove_ids l m !! i = if decide (i ∈ l) then None else m !! i.
Proof using. apply foldl_delete_lookup. Qed.

(** A new vote, with the index of its root as the scan left it. *)
Lemma history_new_vote_ok added root hash vote h1 h2 by_root :
  history_ok added h2 -> lvh_max_cache h2 = lvh_max_cache h1 -> (size (lvh_history h2) <= lvh_max_cache h1)%nat ->
  (forall i e, lvh_history h2 !! i = Some e -> lv_root e = root -> lv_hash e = hash /\ vote_voter (lv_vote e) <> vote_voter vote) ->
  (forall k, k <> root -> by_root !! k = lvh_by_root h2 !! k) -> default ∅ (by_root !! root) = default ∅ (lvh_by_root h2 !! root) ->
  let id := from_option (fun e => e.1 + 1) 0 (btm_last Z.compare (lvh_history h2)) in
  let h' := mkLocalVoteHistory (<[id := mkLocalVote root hash vote]> (lvh_history h2)) (set_index_insert root id by_root) (lvh_max_cache h1) in
  history_ok (added ++ [mkLocalVote root hash vote]) h' /\ lvh_max_cache h' = lvh_max_cache h1 /\
  (size (lvh_history h') <= S (lvh_max_cache h1))%nat /\
  (forall i e, lvh_history h' !! i = Some e -> lv_root e = root -> lv_hash e = hash).
Proof using.
  intros Hok2 Em Hs2 Hroot Hb1 Hb2. cbn zeta. rewrite <- Em. split; [by apply history_insert_ok|]. split; [done|]. cbn.
  split; [rewrite map_size_insert_None by apply next_id_free; lia|].
  intros i e [[_ <-]|[_ Ei]]%lookup_insert_Some Hr; [done|]. by apply (Hroot i e).
Qed.

Lemma remove_ids_sub l m : remove_ids l m ⊆ m.
Proof using. apply map_subseteq_spec. intros i e. rewrite remove_ids_lookup. by destruct (decide (i ∈ l)). Qed.

(** Unless a newer vote is wanted, a vote of the root stays. *)
Lemma history_scan_keeps hash vote (ids : gset Z) l (m : gmap Z LocalVote) :
  (forall i, i ∈ l <-> i ∈ set_iter ids /\ exists e, m !! i = Some e /\ replaced hash vote e = true) ->
  (false = true <-> forall i e, i ∈ set_iter ids -> m !! i = Some e -> replaced hash vote e = false -> newer vote e = false) ->
  ids ∖ list_to_set l <> ∅.
Proof using HL.
  intros Hl Hb Hemp. assert (Hall : forall i, i ∈ ids -> i ∈ l).
  { intros i Hi. destruct (decide (i ∈ l)) as [|Hn]; [done|]. assert (i ∈ (∅ : gset Z)) as []%elem_of_empty.
    rewrite <- Hemp. apply elem_of_difference. by rewrite elem_of_list_to_set. }
  assert (false = true) as [=]. apply Hb. intros i e Hi%elem_of_set_iter%Hall%Hl E He. destruct Hi as [_ (f & Ef & Hf)]. congruence.
Qed.

Lemma history_add_ok added root hash vote h :
  history_ok added h ->
  exists h', history_add root hash vote h = Finished h' /\ history_ok (added ++ [mkLocalVote root hash vote]) h' /\
    lvh_max_cache h' = lvh_max_cache h /\ (history_size h' <= S (lvh_max_cache h))%nat /\
    (forall i e, lvh_history h' !! i = Some e -> lv_root e = root -> lv_hash e = hash).
Proof using HL.
  intros Hok. unfold history_add.
  destruct (history_clean_ok added _ h Hok (Nat.lt_succ_diag_r _)) as (h1 & -> & Hok1 & Em & Hs & _). cbn [mbind run_bind].
  rewrite <- Em in Hs |- *. clear Em h Hok. unfold history_size.
  pose proof (history_new_vote_ok added root hash vote h1) as Hadd.
  destruct (lvh_by_root h1 !! root) as [ids|] eqn:Er.
  - assert (Hin : forall i, i ∈ ids <-> exists e, lvh_history h1 !! i = Some e /\ lv_root e = root).
    { destruct (ho_by_root _ _ Hok1 root) as [_ Hin]. by rewrite Er in Hin. }
    destruct (history_scan_ok hash vote (set_iter ids) (lvh_history h1)) as (l & b & -> & Hl & Hb).
    { apply Forall_forall. intros i (e & E & _)%elem_of_set_iter%Hin. by exists e. }
    cbn [unwrap mbind run_bind].
    assert (Hsub : (list_to_set l : gset Z) ⊆ ids) by (intros i [Hi%elem_of_set_iter _]%elem_of_list_to_set%Hl; done).
    assert (Hrem : forall i, remove_ids l (lvh_history h1) !! i = if decide (i ∈ (list_to_set l : gset Z)) then None else lvh_history h1 !! i).
    { intros i. rewrite remove_ids_lookup. apply decide_ext. by rewrite elem_of_list_to_set. }
    pose proof (set_index_remove_ok lv_root _ _ _ _ _ _ (ho_by_root _ _ Hok1) Er Hsub Hrem) as Hidx.
    pose proof (remove_ids_sub l (lvh_history h1)) as Hsubm.
    pose proof (history_ok_sub added h1 _ _ Hok1 Hsubm Hidx) as Hok2.
    assert (Hkept : forall i e, remove_ids l (lvh_history h1) !! i = Some e -> lv_root e = root ->
      replaced hash vote e = false /\ i ∈ ids /\ lvh_history h1 !! i = Some e).
    { intros i e. rewrite remove_ids_lookup. destruct (decide (i ∈ l)) as [Hd|Hd]; [done|]. intros E Hr.
      assert (i ∈ ids) by (apply Hin; eauto). split; [|done]. destruct (replaced hash vote e) eqn:Ee; [|done].
      destruct Hd. apply Hl. rewrite elem_of_set_iter. eauto. }
    assert (Hhash : forall e, replaced hash vote e = false -> lv_hash e = hash).
    { intros e. unfold replaced. destruct (Z.eqb_spec (lv_hash e) hash); [done|]. done. }
    pose proof (map_subseteq_size _ _ Hsubm) as Hsz. destruct b.
    + rewrite andb_false_r. eexists. split; [done|]. apply (Hadd _ (<[root := ids ∖ list_to_set l]> (lvh_by_root h1)) Hok2); [done|cbn; lia| | |]; cbn.
      * intros i e E Hr. destruct (Hkept i e E Hr) as (He & Hi & E1). split; [by apply Hhash|]. intros Hv.
        pose proof (proj1 Hb eq_refl i e ltac:(by apply elem_of_set_iter) E1 He) as Hn. unfold newer, replaced in *.
        rewrite Hv, Z.eqb_refl in *. cbn [andb] in *. destruct (lv_hash e =? hash); cbn in He; lia.
      * intros k Hk. case_decide; by rewrite ?lookup_insert_ne, ?lookup_delete_ne.
      * rewrite lookup_insert_eq. case_decide as Hd; [rewrite lookup_delete_eq; cbn; by rewrite Hd|by rewrite lookup_insert_eq].
    + pose proof (history_scan_keeps hash vote ids l (lvh_history h1) Hl Hb) as Hne.
      assert (match l with [] => false | _ => bool_decide (ids ∖ list_to_set l = ∅) end = false) as ->.
      { destruct l; [done|]. by apply bool_decide_eq_false. }
      cbn [andb]. rewrite decide_False in Hok2 by done. eexists. split; [done|]. cbn.
      split; [eapply history_ok_added; [|exact Hok2]; intros e He; apply elem_of_app; by left|]. split; [done|]. split; [lia|].
      intros i e E Hr. destruct (Hkept i e E Hr) as (He & _). by apply Hhash.
  - eexists. split; [done|]. cbn -[lvh_history]. eapply Hadd; try done. intros i e E Hr.
    destruct (ho_by_root _ _ Hok1 root) as [_ Hin]. rewrite Er in Hin. cbn in Hin.
    assert (i ∈ (∅ : gset Z)) as []%elem_of_empty. apply Hin. eauto.
Qed.

Lemma history_erase_ok added root h :
  history_ok added h -> history_ok added (history_erase root h) /\ lvh_by_root (history_erase root h) !! root = None.
Proof using HL.
  intros Hok. unfold history_erase. destruct (lvh_by_root h !! root) as [ids|] eqn:Er; [|done].
  split; [|apply lookup_delete_eq]. apply (history_ok_sub added h); [done|apply remove_ids_sub|].
  assert (Hrem : forall i, remove_ids (set_iter ids) (lvh_history h) !! i = if decide (i ∈ ids) then None else lvh_history h !! i).
  { intros i. rewrite remove_ids_lookup. apply decide_ext, elem_of_set_iter. }
  pose proof (set_index_remove_ok lv_root _ _ _ _ _ ids (ho_by_root _ _ Hok) Er ltac:(done) Hrem) as Hidx.
  by rewrite decide_True in Hidx by apply difference_diag_L.
Qed.

Lemma matching_votes_ok hash is_final ids history :
  Forall (fun i => is_Some (history !! i)) ids ->
  exists votes, matching_votes hash is_final ids history = Some votes /\
    forall vote, vote ∈ votes <-> exists i e, i ∈ ids /\ history !! i = Some e /\ lv_hash e = hash /\
      (is_final = true -> vote_is_final vote = true) /\ lv_vote e = vote.
Proof using.
  induction 1 as [|i ids [e E] _ (votes & Ev & Hv)]; cbn [matching_votes].
  { exists []. split; [done|]. intros v. split; [by intros ?%elem_of_nil|by intros (? & ? & ?%elem_of_nil & _)]. }
  rewrite E, Ev. cbn [mbind option_bind]. eexists. split; [done|]. intros vote.
  assert (Hhead : (lv_hash e =? hash) && (negb is_final || vote_is_final (lv_vote e)) = true <->
    lv_hash e = hash /\ (is_final = true -> vote_is_final (lv_vote e) = true)).
  { destruct is_final, (vote_is_final (lv_vote e)), (Z.eqb_spec (lv_hash e) hash); cbn; intuition congruence. }
  destruct (_ && _); [rewrite elem_of_cons|]; rewrite Hv; split.
  - intros [->|(j & f & ? & ?)]; [exists i, e|exists j, f]; rewrite elem_of_cons; [|tauto].
    destruct (proj1 Hhead eq_refl). auto.
  - intros (j & f & [->|Hj]%elem_of_cons & Ef & Hf & Hfin & <-); [left; congruence|right; eauto 10].
  - intros (j & f & ? & ?). exists j, f. rewrite elem_of_cons. tauto.
  - intros (j & f & [->|Hj]%elem_of_cons & Ef & Hf & Hfin & <-); [|eauto 10]. assert (f = e) as -> by congruence.
    specialize (proj2 Hhead (conj Hf Hfin)). discriminate.
Qed.

(** Votes for a block are found without a panic, and only votes for it are. *)
Lemma history_votes_ok added root hash is_final h :
  history_ok added h -> exists votes, history_votes root hash is_final h = Some votes /\
    forall vote, vote ∈ votes -> mkLocalVote root hash vote ∈ added /\ (is_final = true -> vote_is_final vote = true).
Proof using HL.
  intros Hok. unfold history_votes. destruct (ho_by_root _ _ Hok root) as [_ Hin].
  destruct (matching_votes_ok hash is_final (set_iter (default ∅ (lvh_by_root h !! root))) (lvh_history h)) as (votes & E & Hv).
  { apply Forall_forall. intros i (e & E & _)%elem_of_set_iter%Hin. by exists e. }
  exists votes. split; [done|]. intros vote (i & e & Hi%elem_of_set_iter%Hin & Ee & <- & Hf & <-)%Hv. split; [|done].
  destruct Hi as (e' & Ee' & <-). assert (e' = e) as -> by congruence. destruct e. by apply (ho_added _ _ Hok i).
Qed.
End history.
