(* ===== verification/VoteGenerationTheorems.v ===== *)
(** * What a vote generator hands out

    A turn of the generator never panics and ends; every vote is for at most
    255 hashes, of different roots, that were in its queues; and votes for
    different blocks of one root are at least the voting delay apart. *)

From S2P Require Import Prelude Types Blocks Store Sets FinalVotes Votes Election Collections.
From S2P Require Import Messages VoteGeneration.
From S2P Require Import VoteSpacingTheorems VoteHistoryTheorems.

(** The table does not object to a vote for the hash at this time. *)
Definition clear_for (delay : Duration) (now : Timestamp) (m : RecentVotes) (p : Root * BlockHash) : Prop :=
  forall g t, m !! p.1 = Some (g, t) -> g = p.2 \/ t + delay <= now.

(** Root, hash and time of everything that was voted for, in order. *)
Definition voted (made : list MadeVote) : list (Root * BlockHash * Timestamp) :=
  made ≫= fun v => (fun p => (p, mv_time v)) <$> mv_pairs v.

(** Votes for different hashes of one root are apart. *)
Definition spaced (delay : Duration) (l : list (Root * BlockHash * Timestamp)) : Prop :=
  forall i j r h1 t1 h2 t2, (i < j)%nat -> l !! i = Some (r, h1, t1) -> l !! j = Some (r, h2, t2) ->
    h1 <> h2 -> t1 + delay <= t2.

(** The table knows every vote that is not [delay] old. *)
Definition remembers (delay : Duration) (now : Timestamp) (m : RecentVotes) (l : list (Root * BlockHash * Timestamp)) : Prop :=
  forall r h t, (r, h, t) ∈ l -> t <= now /\ ((exists t', m !! r = Some (h, t') /\ t <= t') \/ t + delay <= now).

Lemma remembers_later delay now now' m l : now <= now' -> remembers delay now m l -> remembers delay now' m l.
Proof. intros Hle Hr r h t Hin. destruct (Hr r h t Hin) as [H1 [H2|H2]]; (split; [lia|]); [by left|right; lia]. Qed.

Lemma clear_later delay now now' m p : now <= now' -> clear_for delay now m p -> clear_for delay now' m p.
Proof. intros Hle Hc g t E. destruct (Hc g t E); [by left|right; lia]. Qed.

Lemma elapsed_small t now : 0 <= now - t < 2 ^ 63 -> elapsed t now = now - t.
Proof.
  intros H. unfold elapsed. replace ((- 2 ^ 127 <=? now - t) && (now - t <? 2 ^ 127)) with true by lia.
  apply wrap_small. unfold in_u. lia.
Qed.

(** ** Flagging the hashes of one vote *)

Lemma flag_spec_lookup delay root hash now m r :
  flag_spec delay root hash now m !! r =
    if decide (r = root) then Some (from_option fst hash (filter (fun e => now - delay < e.2.2) m !! root), now)
    else filter (fun e => now - delay < e.2.2) m !! r.
Proof. unfold flag_spec. case_decide as E; [subst; by rewrite lookup_insert_eq|by rewrite lookup_insert_ne]. Qed.

(** A hash the table does not object to is what the table then has. *)
Lemma flag_spec_same delay root hash now m :
  clear_for delay now m (root, hash) -> flag_spec delay root hash now m !! root = Some (hash, now).
Proof.
  intros Hc. rewrite flag_spec_lookup, decide_True by done. do 2 f_equal.
  destruct (filter _ m !! root) as [[g t]|] eqn:E; [|done]. apply map_lookup_filter_Some in E as [E Hlt]. cbn in *.
  destruct (Hc g t E) as [->|]; [done|cbn in *; lia].
Qed.

Lemma flag_spec_other delay root hash now m r g t :
  r <> root -> flag_spec delay root hash now m !! r = Some (g, t) <-> m !! r = Some (g, t) /\ now - delay < t.
Proof. intros Hne. rewrite flag_spec_lookup, decide_False by done. apply map_lookup_filter_Some. Qed.

Definition flag_all (delay : Duration) (now : Timestamp) (pairs : list (Root * BlockHash)) (m : RecentVotes) : RecentVotes :=
  foldl (fun m p => flag_spec delay p.1 p.2 now m) m pairs.

Lemma flag_all_lookup delay now pairs m :
  0 < delay -> NoDup pairs.*1 -> Forall (clear_for delay now m) pairs ->
  (forall r h, (r, h) ∈ pairs -> flag_all delay now pairs m !! r = Some (h, now)) /\
  (forall r g t, r ∉ pairs.*1 -> flag_all delay now pairs m !! r = Some (g, t) <-> m !! r = Some (g, t) /\ (pairs = [] \/ now - delay < t)).
Proof.
  intros Hd Hnd. revert m. induction pairs as [|[r h] pairs IH]; intros m Hc.
  { split; [by intros ? ? ?%elem_of_nil|]. intros r g t _. cbn. tauto. }
  apply NoDup_cons in Hnd as [Hr Hnd]. apply Forall_cons in Hc as [Hc Hcs]. cbn [fst snd] in *.
  destruct (IH Hnd (flag_spec delay r h now m)) as [IH1 IH2].
  { rewrite Forall_forall in Hcs |- *. intros [r' h'] Hin g t. cbn.
    assert (r' <> r) by (intros ->; apply Hr; by apply (list_elem_of_fmap_2 fst pairs (r, h'))).
    rewrite flag_spec_other by done. intros [E _]. by apply (Hcs _ Hin). }
  split.
  - intros r' h' [[= -> ->]|Hin]%elem_of_cons; [|by apply IH1]. cbn.
    apply (IH2 r h now Hr). split; [by apply flag_spec_same|]. right. lia.
  - intros r' g t [Hne Hnin]%not_elem_of_cons. cbn in Hne |- *. rewrite (IH2 r' g t Hnin), flag_spec_other by done.
    split; [intros [[? ?] _]; split; [done|by right]|]. intros [? [?|?]]; [done|]. split; [done|by right].
Qed.

(** ** The loops of the generator *)

(** At most 255 hashes are flagged for a reading of the clock. *)
Definition flags (readings : nat) : Z := 255 * Z.of_nat readings.
Definition READINGS_MAX : Z := 2 ^ 55.

Record gen_ok (delay : Duration) (clock : nat -> Timestamp) (m : RecentVotes) (g : VoteGenerator) : Prop := {
  go_delay : vs_delay (vg_spacing g) = delay;
  go_spacing : spacing_ok (flags (vg_readings g)) (vs_recent (vg_spacing g)) m;
  go_history : exists added, history_ok added (vg_history g);
  go_remembers : remembers delay (clock (vg_readings g)) m (voted (vg_made g));
  go_table : forall r h t, m !! r = Some (h, t) -> 0 <= t <= clock (vg_readings g);
  go_spaced : spaced delay (voted (vg_made g));
}.

Section generator.
Context `{HL : HashOrderLaws} `{Crypto} (is_final : bool) (vote_generator_delay delay : Duration).
Context (clock : nat -> Timestamp) (unix_now : nat -> UnixMillisTimestamp).
(** The clock is steady and runs for less than 292 years. *)
Hypothesis (clock_mono : forall i j, (i <= j)%nat -> clock i <= clock j).
Hypothesis (clock_range : forall i, 0 <= clock i < 2 ^ 63).
Hypothesis (delay_pos : 0 < delay).

Lemma flag_hashes_ok vote now pairs spacing history n m added :
  vs_delay spacing = delay -> spacing_ok n (vs_recent spacing) m -> history_ok added history ->
  n + Z.of_nat (length pairs) < 2 ^ 64 ->
  exists spacing' history' added', flag_hashes vote now pairs spacing history = Finished (spacing', history') /\
    vs_delay spacing' = delay /\ spacing_ok (n + Z.of_nat (length pairs)) (vs_recent spacing') (flag_all delay now pairs m) /\
    history_ok added' history'.
Proof using HL.
  revert spacing history n m added. induction pairs as [|[root hash] pairs IH]; intros spacing history n m added Hd Hs Hh Hn.
  - exists spacing, history, added. cbn. rewrite Z.add_0_r. done.
  - cbn [flag_hashes length] in *. destruct (history_add_ok added root hash vote history Hh) as (h1 & -> & Hh1 & _). cbn [mbind run_bind].
    destruct (spacing_flag_ok n spacing m root hash now Hs ltac:(lia)) as (s1 & -> & Hd1 & Hs1). cbn [unwrap mbind run_bind].
    destruct (IH s1 h1 (n + 1) (flag_spec (vs_delay spacing) root hash now m) _ ltac:(congruence) Hs1 Hh1 ltac:(lia))
      as (s2 & h2 & a2 & E & H1 & H2 & H3).
    exists s2, h2, a2. split; [done|]. split; [done|]. split; [|done]. cbn. rewrite Hd in H2.
    by replace (n + Z.of_nat (S (length pairs))) with (n + 1 + Z.of_nat (length pairs)) by lia.
Qed.

Lemma spaced_app l l' now :
  spaced delay l -> Forall (fun e => e.2 = now) l' ->
  (forall r h t h', (r, h, t) ∈ l -> (r, h', now) ∈ l' -> h <> h' -> t + delay <= now) ->
  NoDup l'.*1.*1 -> spaced delay (l ++ l').
Proof using.
  intros Hs Hnow Hap Hnd i j r h1 t1 h2 t2 Hij Ei Ej Hne. rewrite Forall_forall in Hnow.
  apply lookup_app_Some in Ej as [Ej|[Hj Ej]]; [|apply lookup_app_Some in Ei as [Ei|[Hi Ei]]].
  - rewrite lookup_app_l in Ei by (apply lookup_lt_Some in Ej; lia). by apply (Hs i j r h1 t1 h2 t2).
  - apply list_elem_of_lookup_2 in Ei, Ej. pose proof (Hnow _ Ej) as E2. cbn in E2. subst t2. by apply (Hap r h1 t1 h2).
  - assert (Ei' : l'.*1.*1 !! (i - length l)%nat = Some r) by (rewrite !list_lookup_fmap, Ei; done).
    assert (Ej' : l'.*1.*1 !! (j - length l)%nat = Some r) by (rewrite !list_lookup_fmap, Ej; done).
    pose proof (NoDup_lookup _ _ _ _ Hnd Ei' Ej'). lia.
Qed.

(** One vote, for hashes the table does not object to. *)
Lemma one_vote_ok now pairs vote channel g m spacing history added :
  now = clock (vg_readings g) -> gen_ok delay clock m g -> NoDup pairs.*1 -> Forall (clear_for delay now m) pairs ->
  (length pairs <= 255)%nat -> vs_delay spacing = delay ->
  spacing_ok (flags (vg_readings g) + Z.of_nat (length pairs)) (vs_recent spacing) (flag_all delay now pairs m) ->
  history_ok added history ->
  let g' := mkVoteGenerator (vg_candidates g) (vg_requests g) (vg_next_broadcast g) spacing history (S (vg_readings g))
              (vg_made g ++ [mkMadeVote now pairs vote channel]) in
  gen_ok delay clock (flag_all delay now pairs m) g' /\
  Forall (clear_for delay (clock (vg_readings g')) (flag_all delay now pairs m)) pairs.
Proof using clock_mono clock_range delay_pos.
  intros -> [H1 H2 H3 H4 H5 H6] Hnd Hc Hl Hd Hs Hh. cbn zeta.
  set (now := clock (vg_readings g)) in *. set (now' := clock (S (vg_readings g))).
  assert (Hle : now <= now') by (apply clock_mono; lia).
  destruct (flag_all_lookup delay now pairs m delay_pos Hnd Hc) as [F1 F2].
  assert (Hcl : forall r h t h', (r, h, t) ∈ voted (vg_made g) -> (r, h') ∈ pairs -> h <> h' -> t + delay <= now).
  { intros r h t h' Hin Hp Hne. rewrite Forall_forall in Hc. destruct (H4 r h t Hin) as [_ [(t' & E & Ht)|?]]; [|done].
    destruct (Hc _ Hp _ _ E) as [E'|?]; [by destruct Hne|lia]. }
  assert (Hv : voted (vg_made g ++ [mkMadeVote now pairs vote channel]) = voted (vg_made g) ++ ((fun p => (p, now)) <$> pairs)).
  { unfold voted. rewrite bind_app. cbn. by rewrite app_nil_r. }
  split; [split; cbn [vg_spacing vg_readings vg_made vg_history]; [done| |by eexists| | |]|].
  - destruct Hs as [? ? ? ? ? ?]. split; try done. unfold flags in *. lia.
  - rewrite Hv. intros r h t Hin. apply elem_of_app in Hin as [Hin|Hin].
    + destruct (H4 r h t Hin) as [Ht Hr]. split; [lia|]. destruct (decide (r ∈ pairs.*1)) as [Hp|Hp].
      * apply list_elem_of_fmap in Hp as ([r' h'] & -> & Hp). cbn in *. destruct (decide (h = h')) as [->|Hne].
        -- left. exists now. split; [by apply F1|done].
        -- right. specialize (Hcl _ _ _ _ Hin Hp Hne). lia.
      * destruct Hr as [(t' & E & Ht')|?]; [|right; lia]. destruct (decide (now - delay < t')).
        -- left. exists t'. split; [|done]. apply F2; [done|]. split; [done|by right].
        -- right. lia.
    + apply list_elem_of_fmap in Hin as ([r' h'] & [= -> -> ->] & Hp). split; [lia|]. left. exists now. split; [by apply F1|done].
  - intros r h t E. destruct (decide (r ∈ pairs.*1)) as [Hp|Hp].
    + apply list_elem_of_fmap in Hp as ([r' h'] & -> & Hp). cbn in E. rewrite (F1 _ _ Hp) in E. injection E as _ <-. split; [apply clock_range|done].
    + apply F2 in E as [E _]; [|done]. specialize (H5 _ _ _ E). lia.
  - rewrite Hv. apply (spaced_app _ _ now); [done| | |].
    + apply Forall_fmap, Forall_forall. done.
    + intros r h t h' Hin ([r2 h2] & [= -> ->] & Hp)%list_elem_of_fmap. by apply (Hcl r2 h t h2).
    + assert (((fun p => (p, now)) <$> pairs).*1 = pairs) as ->; [|done]. rewrite <- list_fmap_compose. exact (list_fmap_id pairs).
  - apply Forall_forall. intros [r h] Hp g' t. cbn. rewrite (F1 _ _ Hp). intros [= <- <-]. by left.
Qed.

Lemma hand_out_ok pairs channel votes g m :
  gen_ok delay clock m g -> NoDup pairs.*1 -> Forall (clear_for delay (clock (vg_readings g)) m) pairs -> (length pairs <= 255)%nat ->
  Z.of_nat (vg_readings g + length votes) < READINGS_MAX ->
  exists g' m', hand_out clock pairs channel votes g = Finished g' /\ gen_ok delay clock m' g' /\
    vg_readings g' = (vg_readings g + length votes)%nat /\ vg_candidates g' = vg_candidates g /\ vg_requests g' = vg_requests g /\
    exists times, vg_made g' = vg_made g ++ zip_with (fun t v => mkMadeVote t pairs v channel) times votes.
Proof using HL clock_mono clock_range delay_pos.
  revert g m. induction votes as [|vote votes IH]; intros g m Hg Hnd Hc Hl Hr.
  - exists g, m. cbn. rewrite Nat.add_0_r. split; [done|]. split; [done|]. split; [done|]. split; [done|]. split; [done|].
    exists []. by rewrite app_nil_r.
  - cbn [hand_out length] in *. pose proof Hg as [H1 H2 [added H3] H4 H5 H6]. unfold READINGS_MAX in *.
    destruct (flag_hashes_ok vote (clock (vg_readings g)) pairs _ _ _ m added H1 H2 H3) as (sp & hi & a & -> & D & S & Hi).
    { unfold flags. lia. }
    cbn [mbind run_bind].
    destruct (one_vote_ok (clock (vg_readings g)) pairs vote channel g m sp hi a eq_refl Hg Hnd Hc Hl D S Hi) as [Hg1 Hc1].
    destruct (IH _ _ Hg1 Hnd Hc1 Hl) as (g' & m' & E & I1 & I2 & I3 & I4 & times & I5); [cbn; lia|].
    exists g', m'. split; [done|]. split; [done|]. split; [cbn in I2; lia|]. split; [done|]. split; [done|].
    exists (clock (vg_readings g) :: times). cbn in I5 |- *. by rewrite I5, <- app_assoc.
Qed.

Lemma make_votes_ok rep_keys readings hashes :
  (length hashes <= 255)%nat ->
  exists votes, make_votes is_final unix_now rep_keys readings hashes = Some votes /\ length votes = length rep_keys /\
    Forall (fun v => vote_hashes v = hashes /\ (is_final = true -> vote_is_final v = true)) votes.
Proof using.
  intros Hl. unfold make_votes. set (f := fun '(i, rep_key) => vote_new rep_key _ _ hashes).
  assert (Hf : forall x, exists v, f x = Some v /\ vote_hashes v = hashes /\ (is_final = true -> vote_is_final v = true)).
  { intros [i key]. unfold f, vote_new. rewrite (proj2 (Nat.leb_le (length hashes) MAX_HASHES) Hl).
    eexists. split; [done|]. split; [done|]. by intros ->. }
  destruct (mapM_is_Some_2 f (zip (seq 0 (length rep_keys)) rep_keys)) as [votes E].
  { apply Forall_forall. intros x _. destruct (Hf x) as (v & E & _). by exists v. }
  exists votes. split; [done|]. apply mapM_Some_1 in E. split.
  - rewrite <- (Forall2_length _ _ _ E), length_zip_with, length_seq. lia.
  - eapply Forall2_Forall_r; [exact E|]. apply Forall_forall. intros x _ v Ev. destruct (Hf x) as (v' & Ev' & Hv). congruence.
Qed.

(** One candidate: taken if its root is new and it is votable. *)
Lemma collect_step_ok root hash taken g m :
  gen_ok delay clock m g -> NoDup taken.*1 -> Forall (clear_for delay (clock (vg_readings g)) m) taken -> (length taken < 255)%nat ->
  exists taken' g1,
    (if bool_decide (root ∈ taken.*1) then Some (taken, g)
     else ok ← votable root hash (clock (vg_readings g)) (vg_spacing g);
          Some (if ok : bool then taken ++ [(root, hash)] else taken, vg_read g)) = Some (taken', g1) /\
    gen_ok delay clock m g1 /\ NoDup taken'.*1 /\ Forall (clear_for delay (clock (vg_readings g1)) m) taken' /\
    (length taken' <= 255)%nat /\ (vg_readings g <= vg_readings g1 <= S (vg_readings g))%nat /\
    vg_candidates g1 = vg_candidates g /\ vg_requests g1 = vg_requests g /\ vg_made g1 = vg_made g /\
    forall p, p ∈ taken' -> p ∈ taken \/ p = (root, hash).
Proof using HL clock_mono clock_range.
  intros Hg Hnd Hc Hl. case_bool_decide as Hin.
  - exists taken, g. split; [done|]. split; [done|]. split; [done|]. split; [done|]. split; [lia|]. split; [lia|].
    split; [done|]. split; [done|]. split; [done|]. by left.
  - pose proof Hg as [H1 H2 H3 H4 H5 H6]. rewrite (votable_ok _ _ m root hash _ H2), H1. cbn [mbind option_bind].
    assert (Hle : clock (vg_readings g) <= clock (S (vg_readings g))) by (apply clock_mono; lia).
    assert (Hg1 : gen_ok delay clock m (vg_read g)).
    { split; cbn; try done.
      - destruct H2 as [? ? ? ? ? ?]. split; try done. unfold flags in *. lia.
      - by eapply remembers_later.
      - intros r h t E. specialize (H5 _ _ _ E). lia. }
    assert (Hc1 : Forall (clear_for delay (clock (vg_readings (vg_read g))) m) taken).
    { eapply Forall_impl; [exact Hc|]. intros p. by apply clear_later. }
    destruct (votable_spec delay m root hash (clock (vg_readings g))) eqn:Ev.
    + exists (taken ++ [(root, hash)]), (vg_read g). split; [done|]. split; [done|]. split; [|split; [|split; [|split; [cbn; lia|]]]].
      * rewrite fmap_app. apply NoDup_app. split; [done|]. split; [|apply NoDup_singleton].
        intros r Hr ->%list_elem_of_singleton. by apply Hin.
      * apply Forall_app_2; [done|]. apply Forall_cons_2; [|constructor]. eapply clear_later; [exact Hle|].
        intros h t E. cbn in E |- *. unfold votable_spec in Ev. rewrite E in Ev. apply orb_true_iff in Ev as [Ev|Ev]; [left; lia|].
        right. specialize (H5 _ _ _ E). pose proof (clock_range (vg_readings g)). rewrite elapsed_small in Ev by lia. lia.
      * rewrite length_app. cbn. lia.
      * split; [done|]. split; [done|]. split; [done|]. intros p [Hp|Hp%list_elem_of_singleton]%elem_of_app; tauto.
    + exists taken, (vg_read g). split; [done|]. split; [done|]. split; [done|]. split; [done|]. split; [lia|]. split; [cbn; lia|].
      split; [done|]. split; [done|]. split; [done|]. by left.
Qed.

(** Candidates that go into one vote: each was votable when it was taken. *)
Lemma collect_hashes_ok candidates taken g m :
  gen_ok delay clock m g -> NoDup taken.*1 -> Forall (clear_for delay (clock (vg_readings g)) m) taken -> (length taken < 255)%nat ->
  exists pairs rest g', collect_hashes clock candidates taken g = Some (pairs, rest, g') /\ gen_ok delay clock m g' /\
    NoDup pairs.*1 /\ Forall (clear_for delay (clock (vg_readings g')) m) pairs /\ (length pairs <= 255)%nat /\
    (vg_readings g <= vg_readings g' <= vg_readings g + length candidates - length rest)%nat /\
    (length rest <= length candidates)%nat /\ (candidates <> [] -> length rest < length candidates)%nat /\
    vg_candidates g' = vg_candidates g /\ vg_requests g' = vg_requests g /\ vg_made g' = vg_made g /\
    (forall p, p ∈ pairs -> p ∈ taken ++ candidates) /\ (forall p, p ∈ rest -> p ∈ candidates).
Proof using HL clock_mono clock_range.
  revert taken g. induction candidates as [|[root hash] candidates IH]; intros taken g Hg Hnd Hc Hl.
  - exists taken, [], g. split; [done|]. split; [done|]. split; [done|]. split; [done|]. split; [lia|]. split; [cbn; lia|].
    split; [done|]. split; [done|]. split; [done|]. split; [done|]. split; [done|]. split; [|done].
    intros p Hp. by rewrite app_nil_r.
  - cbn [collect_hashes].
    destruct (collect_step_ok root hash taken g m Hg Hnd Hc Hl) as (taken' & g1 & -> & G1 & G2 & G3 & G4 & G5 & G6 & G7 & G8 & G9). cbn [mbind option_bind].
    assert (Hsub : forall p l, p ∈ taken' ++ l -> (p ∈ l -> p ∈ candidates) -> p ∈ taken ++ (root, hash) :: candidates).
    { intros p l [Hp|Hp]%elem_of_app Hpl; rewrite elem_of_app, elem_of_cons; [destruct (G9 _ Hp)|]; tauto. }
    destruct (Nat.eqb_spec (length taken') MAX_HASHES) as [Hm|Hm]; unfold MAX_HASHES in Hm.
    + exists taken', candidates, g1. split; [done|]. split; [done|]. split; [done|]. split; [done|]. split; [lia|]. cbn [length].
      split; [lia|]. split; [lia|]. split; [lia|]. split; [done|]. split; [done|]. split; [done|]. split; [|by right].
      intros p Hp. apply (Hsub p []); [by rewrite app_nil_r|by intros ?%elem_of_nil].
    + destruct (IH taken' g1 G1 G2 G3 ltac:(lia)) as (pairs & rest & g2 & -> & I1 & I2 & I3 & I4 & I5 & I6 & I7 & I8 & I9 & I10 & I11 & I12).
      exists pairs, rest, g2. split; [done|]. split; [done|]. split; [done|]. split; [done|]. split; [lia|]. cbn [length].
      split; [lia|]. split; [lia|]. split; [lia|]. split; [congruence|]. split; [congruence|]. split; [congruence|].
      split; [intros p Hp; by apply (Hsub p candidates); [apply I11|]|]. intros p Hp. right. by apply I12.
Qed.

(** *** Whole turns *)

(** A vote is for the hashes of its pairs, all of which satisfy [P]. *)
Definition made_ok (P : Root * BlockHash -> Prop) (v : MadeVote) : Prop :=
  vote_hashes (mv_vote v) = (mv_pairs v).*2 /\ (length (mv_pairs v) <= 255)%nat /\
  (is_final = true -> vote_is_final (mv_vote v) = true) /\ Forall P (mv_pairs v).

Record queues_ok (P : Root * BlockHash -> Prop) (g : VoteGenerator) : Prop := {
  qo_candidates : Forall P (vg_candidates g);
  qo_requests : Forall (fun r => Forall P (vr_candidates r)) (vg_requests g);
  qo_made : Forall (made_ok P) (vg_made g);
}.

Lemma generator_vote_ok P rep_keys pairs channel g m :
  gen_ok delay clock m g -> queues_ok P g -> NoDup pairs.*1 -> Forall (clear_for delay (clock (vg_readings g)) m) pairs ->
  (length pairs <= 255)%nat -> Forall P pairs -> Z.of_nat (vg_readings g + length rep_keys) < READINGS_MAX ->
  exists g' m', generator_vote is_final clock unix_now rep_keys pairs channel g = Finished g' /\ gen_ok delay clock m' g' /\ queues_ok P g' /\
    vg_readings g' = (vg_readings g + length rep_keys)%nat /\ vg_candidates g' = vg_candidates g /\ vg_requests g' = vg_requests g.
Proof using HL clock_mono clock_range delay_pos.
  intros Hg [Q1 Q2 Q3] Hnd Hc Hl HP Hr. unfold generator_vote.
  destruct (make_votes_ok rep_keys (vg_readings g) pairs.*2) as (votes & -> & Hlen & Hv); [by rewrite length_fmap|].
  cbn [unwrap mbind run_bind].
  destruct (hand_out_ok pairs channel votes g m Hg Hnd Hc Hl) as (g' & m' & -> & H1 & H2 & H3 & H4 & times & H5); [by rewrite Hlen|].
  exists g', m'. split; [done|]. split; [done|]. split; [|split; [by rewrite H2, Hlen|done]]. split; [by rewrite H3|by rewrite H4|].
  rewrite H5. apply Forall_app_2; [done|]. clear -Hl HP Hv. revert times. induction Hv as [|v votes [Hh Hf] _ IH]; intros [|t times]; constructor; [|apply IH].
  done.
Qed.

Lemma broadcast_ok P rep_keys g m :
  gen_ok delay clock m g -> queues_ok P g ->
  Z.of_nat (vg_readings g + length (vg_candidates g) + length rep_keys) < READINGS_MAX ->
  exists g' m', broadcast is_final clock unix_now rep_keys g = Finished g' /\ gen_ok delay clock m' g' /\ queues_ok P g' /\
    (vg_readings g' <= vg_readings g + length (vg_candidates g) + length rep_keys)%nat /\ vg_requests g' = vg_requests g.
Proof using HL clock_mono clock_range delay_pos.
  intros Hg Hq Hr. unfold broadcast.
  destruct (collect_hashes_ok (vg_candidates g) [] g m Hg) as (pairs & rest & g1 & -> & C1 & C2 & C3 & C4 & C5 & C6 & C7 & C8 & C9 & C10 & C11 & C12);
    [constructor|constructor|cbn; lia|]. cbn [unwrap mbind run_bind].
  destruct Hq as [Q1 Q2 Q3]. rewrite Forall_forall in Q1. set (g2 := vg_with_queues rest (vg_requests g1) g1).
  assert (Hg2 : gen_ok delay clock m g2) by (by destruct C1).
  assert (Hq2 : queues_ok P g2).
  { split; cbn; [apply Forall_forall; intros p Hp; by apply Q1, C12|by rewrite C9|by rewrite C10]. }
  destruct pairs as [|p pairs]; [exists g2, m; cbn; split; [done|]; split; [done|]; split; [done|]; split; [lia|done]|].
  destruct (generator_vote_ok P rep_keys (p :: pairs) None g2 m Hg2 Hq2 C2 C3 C4) as (g' & m' & -> & H1 & H2 & H3 & H4 & H5).
  - apply Forall_forall. intros x Hx. by apply Q1, (C11 x).
  - cbn. lia.
  - exists g', m'. split; [done|]. split; [done|]. split; [done|]. split; [rewrite H3; cbn; lia|]. by rewrite H5.
Qed.

Lemma reply_loop_ok P K fuel rep_keys stopped n channel candidates g m :
  gen_ok delay clock m g -> queues_ok P g -> Forall P candidates -> (length candidates < fuel)%nat ->
  (forall i, length (rep_keys i) <= K)%nat -> Z.of_nat (vg_readings g + (1 + K) * length candidates) < READINGS_MAX ->
  exists g' m', reply_loop is_final clock unix_now fuel rep_keys stopped n channel candidates g = Finished g' /\
    gen_ok delay clock m' g' /\ queues_ok P g' /\ (vg_readings g' <= vg_readings g + (1 + K) * length candidates)%nat.
Proof using HL clock_mono clock_range delay_pos.
  revert n candidates g m. induction fuel as [|fuel IH]; intros n candidates g m Hg Hq HP Hf HK Hr; [lia|]. cbn [reply_loop].
  destruct candidates as [|p0 candidates0]; [exists g, m; cbn; split; [done|]; split; [done|]; split; [done|]; lia|].
  set (candidates := p0 :: candidates0) in *. destruct (stopped n); [exists g, m; split; [done|]; split; [done|]; split; [done|]; lia|].
  destruct (collect_hashes_ok candidates [] g m Hg) as (pairs & rest & g1 & -> & C1 & C2 & C3 & C4 & C5 & C6 & C7 & C8 & C9 & C10 & C11 & C12);
    [constructor|constructor|cbn; lia|]. cbn [unwrap mbind run_bind]. specialize (C7 ltac:(done)). specialize (HK n) as HKn.
  assert (Hq1 : queues_ok P g1) by (destruct Hq as [Q1 Q2 Q3]; split; congruence).
  rewrite Forall_forall in HP.
  assert (Hrest : Forall P rest) by (apply Forall_forall; intros p Hp; by apply HP, C12).
  assert (Hvote : exists g2 m2, match pairs with [] => Finished g1 | _ => generator_vote is_final clock unix_now (rep_keys n) pairs (Some channel) g1 end = Finished g2 /\
    gen_ok delay clock m2 g2 /\ queues_ok P g2 /\ (vg_readings g2 <= vg_readings g1 + K)%nat).
  { destruct pairs as [|p pairs]; [exists g1, m; split; [done|]; split; [done|]; split; [done|]; lia|].
    destruct (generator_vote_ok P (rep_keys n) (p :: pairs) (Some channel) g1 m C1 Hq1 C2 C3 C4) as (g2 & m2 & -> & V1 & V2 & V3 & _).
    - apply Forall_forall. intros x Hx. by apply HP, (C11 x).
    - nia.
    - exists g2, m2. split; [done|]. split; [done|]. split; [done|]. lia. }
  destruct Hvote as (g2 & m2 & -> & V1 & V2 & V3). cbn [mbind run_bind].
  destruct (IH (S n) rest g2 m2 V1 V2 Hrest ltac:(lia) HK) as (g' & m' & E & I1 & I2 & I3); [nia|].
  exists g', m'. split; [done|]. split; [done|]. split; [done|]. nia.
Qed.

(** What a turn can read: every candidate once, and every representative for
    each of them. *)
Definition work (K : nat) (g : VoteGenerator) : nat :=
  (1 + K) * (1 + length (vg_candidates g) + from_option (fun r => length (vr_candidates r)) O (head (vg_requests g))).

Lemma run_turn_ok P K instant instant' rep_keys reply_keys stopped g m :
  gen_ok delay clock m g -> queues_ok P g -> (length rep_keys <= K)%nat -> (forall i, length (reply_keys i) <= K)%nat ->
  Z.of_nat (vg_readings g + work K g) < READINGS_MAX ->
  exists g' m', run_turn is_final vote_generator_delay clock unix_now instant instant' rep_keys reply_keys stopped g = Finished g' /\
    gen_ok delay clock m' g' /\ queues_ok P g'.
Proof using HL clock_mono clock_range delay_pos.
  intros Hg Hq HK1 HK2 Hr. unfold run_turn, work in *.
  assert (Hb : exists g1 m1, (if should_broadcast instant g then
         g ← broadcast is_final clock unix_now rep_keys g;
         Finished (mkVoteGenerator (vg_candidates g) (vg_requests g) (instant' + vote_generator_delay) (vg_spacing g)
                     (vg_history g) (vg_readings g) (vg_made g))
       else Finished g) = Finished g1 /\ gen_ok delay clock m1 g1 /\ queues_ok P g1 /\
       (vg_readings g1 <= vg_readings g + length (vg_candidates g) + K)%nat /\ vg_requests g1 = vg_requests g).
  { destruct (should_broadcast instant g); [|exists g, m; split; [done|]; split; [done|]; split; [done|]; split; [lia|done]].
    destruct (broadcast_ok P rep_keys g m Hg Hq) as (g1 & m1 & -> & B1 & B2 & B3 & B4); [nia|]. cbn [mbind run_bind].
    eexists _, m1. split; [done|]. split; [by destruct B1|]. split; [by destruct B2|]. cbn. split; [lia|done]. }
  destruct Hb as (g1 & m1 & -> & B1 & B2 & B3 & B4). cbn [mbind run_bind]. rewrite B4 in *.
  destruct (vg_requests g) as [|request requests]; [by exists g1, m1|]. cbn in Hr. unfold reply.
  destruct B2 as [Q1 Q2 Q3]. rewrite B4 in Q2. apply Forall_cons in Q2 as [Q2 Q2'].
  destruct (reply_loop_ok P K (S (length (vr_candidates request))) reply_keys stopped 0 (vr_channel request) (vr_candidates request)
    (vg_with_queues (vg_candidates g1) requests g1) m1) as (g' & m' & E & R1 & R2 & _); [by destruct B1|by split|done|lia|done|cbn; nia|].
  by exists g', m'.
Qed.
End generator.
