(* ===== verification/VoteSafety.v ===== *)
(** * A node does not vote finally for two blocks of one root

    The ledger, the threads that verify candidates, the threads that answer
    requests for confirmation and the generator of final votes, as one
    transition system: the ledger may change at any time, what was verified or
    read from an older state of the ledger is still on its way, and turns of
    the generator come in between. A transaction that is refreshed while it
    verifies a batch is several steps, one for each part. *)

From S2P Require Import Prelude Types Blocks Codec Work Store RepWeights Sets Validation Insertion.
From S2P Require Import Effect Chains Money LedgerInv InsertSafe Batch Rollback RollbackSafe.
From S2P Require Import RollbackLoop Startup Sample Links Cementer CementSafe FinalVotes System.
From S2P Require Import Scenario.
From S2P Require Import Votes Election Collections Messages VoteGeneration.
From S2P Require Import VoteSpacingTheorems VoteHistoryTheorems VoteGenerationTheorems.

(** ** One block for each root *)

Lemma open_root (b : SavedBlock) : is_open b = true -> previous b = 0 -> root b = sv_account b.
Proof.
  unfold is_open, root, sv_account, account_field, previous.
  destruct (sv_block b) as [x|x|x|x|x]; cbn; try done. intros E%Z.eqb_eq _. unfold u256_is_zero. by rewrite E.
Qed.

Lemma same_root_same_block c min_weight s h1 (b1 : SavedBlock) h2 (b2 : SavedBlock) :
  ledger_inv c min_weight s -> st_block s !! h1 = Some b1 -> st_block s !! h2 = Some b2 ->
  qualified_root b1 = qualified_root b2 -> h1 = h2.
Proof.
  intros Hinv E1 E2 [= Hr Hp]. pose proof (li_blocks _ _ _ Hinv) as Hb. destruct (decide (previous b1 = 0)) as [H0|H0].
  - destruct (bk_open _ Hb _ _ E1 H0) as [Hh1 Ho1]. destruct (bk_open _ Hb _ _ E2 ltac:(congruence)) as [Hh2 Ho2].
    apply (bk_unique _ Hb _ _ _ _ E1 E2); [|lia]. rewrite <- !open_root by congruence. done.
  - destruct (bk_prev _ Hb _ _ E1 H0) as (p1 & P1 & A1 & L1). destruct (bk_prev _ Hb _ _ E2 ltac:(congruence)) as (p2 & P2 & A2 & L2).
    assert (p1 = p2) as <- by congruence. apply (bk_unique _ Hb _ _ _ _ E1 E2); [congruence|lia].
Qed.

(** ** Claimed hashes *)

Section claims.
Context `{Crypto} `{LmdbEngine} (c : LedgerConstants) (min_weight : Amount) (root_of : BlockHash -> QualifiedRoot).

(** Hashes do not collide: a hash has one root, whenever it is in the ledger. *)
Definition rooted (s : LmdbStore) : Prop :=
  forall h (b : SavedBlock), st_block s !! h = Some b -> qualified_root b = root_of h.

(** A hash is claimed if it is the final vote of its root, or confirmed while
    no other hash is. *)
Definition claimed (s : LmdbStore) (h : BlockHash) : Prop :=
  st_final_vote s !! root_of h = Some h \/
  exists b, st_block s !! h = Some b /\ confirmed s b /\ forall h', st_final_vote s !! root_of h = Some h' -> h' = h.

Lemma claimed_unique s h1 h2 :
  ledger_ok c min_weight s -> rooted s -> claimed s h1 -> claimed s h2 -> root_of h1 = root_of h2 -> h1 = h2.
Proof.
  intros [Hinv _ _] Hr [V1|(b1 & E1 & _ & U1)] [V2|(b2 & E2 & _ & U2)] Hroot.
  - congruence.
  - apply U2. congruence.
  - symmetry. apply U1. congruence.
  - apply (same_root_same_block c min_weight s h1 b1 h2 b2); [done..|]. by rewrite (Hr _ _ E1), (Hr _ _ E2).
Qed.

(** Where a final vote comes from. *)
Lemma verify_final_new s candidates q h :
  st_final_vote (verify_final c no_refresh s candidates).2 !! q = Some h ->
  st_final_vote s !! q = Some h \/ exists b : SavedBlock, st_block s !! h = Some b /\ qualified_root b = q.
Proof.
  revert s. induction candidates as [|[root hash] l IH]; intros s; cbn [verify_final]; [by left|].
  cbn [no_refresh default from_option id]. pose proof (should_vote_final_spec c s root hash) as Hs.
  destruct (should_vote_final c s root hash) as [ok s2] eqn:E2. destruct Hs as (_ & Ho & _).
  specialize (IH s2). destruct (verify_final c no_refresh s2 l) as [verified s3]. cbn in *. intros Hq.
  assert (Eb : st_block s2 = st_block s) by (unfold only_votes in Ho; by rewrite Ho).
  destruct (IH Hq) as [Hq2|(b & Hb & Hr)]; [|right; exists b; by rewrite <- Eb]. clear IH Hq.
  unfold should_vote_final, any_get_block, block_get in E2. destruct (u256_is_zero hash); [by injection E2 as _ <-; left|].
  destruct (st_block s !! hash) as [b|] eqn:Ebl; [|by injection E2 as _ <-; left].
  destruct (dependents_confirmed c s b); [|by injection E2 as _ <-; left].
  unfold final_vote_put in E2. destruct (st_final_vote s !! qualified_root b) as [h'|] eqn:Ev; [by injection E2 as _ <-; left|].
  injection E2 as _ <-. cbn in Hq2. apply lookup_insert_Some in Hq2 as [[<- <-]|[_ Hq2]]; [right; eauto|by left].
Qed.

Lemma step_votes s s' q h :
  ledger_step c min_weight s s' -> ledger_ok c min_weight s -> st_final_vote s' !! q = Some h ->
  st_final_vote s !! q = Some h \/ exists b : SavedBlock, st_block s' !! h = Some b /\ qualified_root b = q.
Proof.
  intros [s0 s1 Hw|s0 now fuel h0 p Hf E] Hok Hq;
    [destruct Hw as [snapshot s0 batch results s1 Hbt E|s0 fuel t max_blocks s1 new Ht Hm Hf E|s0 cand fin ver s1 E]|].
  - destruct (process_batch_ok c min_weight snapshot s0 batch Hok Hbt) as (r & s2 & E2 & [_ _ [_ [_ Ev]] _ _]).
    assert (s2 = s1) as -> by congruence. left. by rewrite <- Ev.
  - destruct (confirm_total c min_weight fuel s0 t max_blocks Hok Ht Hm Hf) as (s2 & new2 & E2 & _ & Hcm & _).
    assert (s2 = s1) as -> by congruence. left. by rewrite <- (cm_same _ _ _ _ _ Hcm).
  - unfold verify_votes in E. destruct fin; [|injection E as _ <-; by left].
    pose proof (verify_final_only c no_refresh s0 cand ltac:(done)) as Ho. pose proof (verify_final_new s0 cand q h) as Hn.
    rewrite E in Ho, Hn. cbn in Ho, Hn. unfold only_votes in Ho. destruct (Hn Hq) as [?|(b & Hb & Hr)]; [by left|].
    right. exists b. by rewrite Ho.
  - destruct Hok as [Hinv _ _]. destruct (roll_back_outcome c min_weight now s0 Hinv fuel h0 Hf) as (p' & Er' & [_ Hall _]).
    assert (p' = p) as -> by congruence. destruct (rolled_all_conf _ _ _ _ _ Hall) as [_ Ev]. left. by rewrite <- Ev.
Qed.

(** What is claimed stays claimed, whatever happens to the ledger. *)
Lemma claimed_step s s' h :
  ledger_step c min_weight s s' -> ledger_ok c min_weight s -> rooted s' -> claimed s h -> claimed s' h.
Proof.
  intros Hst Hok Hr Hcl. destruct (step_ok c min_weight s s' Hst Hok) as [Hok' [Hc Hv]].
  destruct Hcl as [V|(b & E & Hb & U)]; [left; by eapply lookup_weaken|]. right. destruct (Hc _ _ E Hb) as [E' Hb'].
  exists b. split; [done|]. split; [done|]. intros h' Hq.
  destruct (step_votes s s' _ _ Hst Hok Hq) as [Hq'|(b' & Eb' & Hr')]; [by apply U|].
  apply (same_root_same_block c min_weight s' h' b' h b); [apply Hok'|done..|]. by rewrite Hr', (Hr _ _ E').
Qed.

Lemma verified_claimed s candidates verified s' root hash :
  verify_votes c no_refresh s candidates true = (verified, s') -> ledger_ok c min_weight s -> rooted s ->
  (root, hash) ∈ verified -> claimed s' hash.
Proof.
  intros E Hok Hr Hin. left. cbn in E. revert s E Hok Hr Hin. revert verified.
  induction candidates as [|[r h] l IH]; intros verified s E Hok Hr Hin; cbn [verify_final] in E.
  { injection E as <- <-. by apply elem_of_nil in Hin. }
  cbn [no_refresh default from_option id] in E. pose proof (should_vote_final_spec c s r h) as Hs.
  destruct (should_vote_final c s r h) as [ok s2] eqn:E2. destruct Hs as (_ & Ho & Hclaim).
  assert (Hok2 : ledger_ok c min_weight s2).
  { unfold only_votes in Ho. rewrite Ho. destruct Hok as [? ? ?]. split; [by apply ledger_inv_votes|done|done]. }
  assert (Hr2 : rooted s2) by (unfold only_votes in Ho; by rewrite Ho).
  destruct (verify_final c no_refresh s2 l) as [ver s3] eqn:E3. injection E as E <-.
  destruct ok; subst verified; [apply elem_of_cons in Hin as [[= -> ->]|Hin]|]; [|by eapply IH..].
  destruct (Hclaim eq_refl) as (b & Hb & _ & Hv). unfold any_get_block, block_get in Hb. destruct (u256_is_zero h); [done|].
  rewrite <- (Hr _ _ Hb). pose proof (verify_final_spec c no_refresh ltac:(done) s2 l) as Hsp. rewrite E3 in Hsp.
  destruct Hsp as [Hkept _]. by eapply lookup_weaken.
Qed.

Lemma search_found s hash root (b : SavedBlock) :
  blocks_ok (st_block s) -> search_for_block s hash root = Some b -> st_block s !! block_hash b = Some b.
Proof.
  intros Hb. assert (Hget : forall x, any_get_block s x = Some b -> st_block s !! block_hash b = Some b).
  { intros x. unfold any_get_block, block_get. destruct (u256_is_zero x); [done|]. intros E.
    by rewrite (proj1 (bk_key _ Hb _ _ E)). }
  unfold search_for_block. repeat case_match; eauto; try done. intros [= <-]. eauto.
Qed.

(** The aggregator asks for final votes only where they are claimed. *)
Lemma aggregated_claimed s requests (b : SavedBlock) :
  ledger_ok c min_weight s -> rooted s -> b ∈ aggregate s requests -> claimed s (block_hash b).
Proof.
  intros [Hinv _ _] Hr ([hash root] & _ & Ea)%list_elem_of_omap.
  destruct (search_for_block s hash root) as [b'|] eqn:Es; [|done]. cbn in Ea.
  destruct (should_generate_final_vote s b') eqn:Ef; [|done]. injection Ea as ->.
  pose proof (search_found _ _ _ _ (li_blocks _ _ _ Hinv) Es) as Eb. unfold should_generate_final_vote in Ef.
  rewrite (Hr _ _ Eb) in Ef. destruct (st_final_vote s !! root_of (block_hash b)) as [fh|] eqn:Ev.
  - left. rewrite Ev. f_equal. lia.
  - right. exists b. split; [done|]. split; [|by rewrite Ev].
    unfold confirmed_block_exists, confirmed_get_block, block_get, conf_height_get in Ef. apply bool_decide_eq_true in Ef.
    destruct (u256_is_zero _); [by destruct Ef|]. rewrite Eb in Ef. cbn in Ef. unfold confirmed.
    destruct (st_confirmation_height s !! sv_account b) as [ci|]; [|by destruct Ef]. cbn in Ef |- *.
    destruct (Z.leb_spec (sv_height b) (ch_height ci)); [done|by destruct Ef].
Qed.
End claims.

(** ** The system *)

(** [nv_past] has every state the ledger had, in order: a read transaction
    sees one of them. [nv_verified] and [nv_aggregated] are the results of the
    verifying and of the answering threads that the generator does not have
    yet. *)
Record NodeVotes := mkNodeVotes {
  nv_ledger : LmdbStore;
  nv_past : list LmdbStore;
  nv_verified : list (list (Root * BlockHash));
  nv_aggregated : list (list SavedBlock * Z);
  nv_generator : VoteGenerator;
}.

Section system.
Context `{HL : HashOrderLaws} `{Crypto} `{LmdbEngine} (c : LedgerConstants) (min_weight : Amount).
Context (is_final : bool) (vote_generator_delay delay : Duration) (clock : nat -> Timestamp) (unix_now : nat -> UnixMillisTimestamp).

(** The state in which a node starts, with its ledger at the genesis block. *)
Definition votes_init (max_cache : nat) (now : Timestamp) : NodeVotes :=
  mkNodeVotes (genesis_store c) [genesis_store c] [] [] (generator_new delay max_cache now).

(** Whatever else is done with the history, which is shared with the other
    generator and which the roots of rolled back blocks are erased from. *)
Definition with_history (h : LocalVoteHistory) (g : VoteGenerator) : VoteGenerator :=
  mkVoteGenerator (vg_candidates g) (vg_requests g) (vg_next_broadcast g) (vg_spacing g) h (vg_readings g) (vg_made g).

(** A turn has at most [K] representatives and the clock is not read more than
    [READINGS_MAX] times. *)
Inductive vote_step : NodeVotes -> NodeVotes -> Prop :=
  | vs_ledger s past ver agg g s' :
      ledger_step c min_weight s s' ->
      vote_step (mkNodeVotes s past ver agg g) (mkNodeVotes s' (past ++ [s']) ver agg g)
  | vs_verify s past ver agg g candidates verified s' :
      verify_votes c no_refresh s candidates is_final = (verified, s') ->
      vote_step (mkNodeVotes s past ver agg g) (mkNodeVotes s' (past ++ [s']) (verified :: ver) agg g)
  | vs_submit s past ver1 verified ver2 agg g :
      vote_step (mkNodeVotes s past (ver1 ++ verified :: ver2) agg g)
        (mkNodeVotes s past (ver1 ++ ver2) agg (generator_process_batch verified g))
  | vs_aggregate s past ver agg g s0 requests channel :
      s0 ∈ past -> is_final = true ->
      vote_step (mkNodeVotes s past ver agg g) (mkNodeVotes s past ver ((aggregate s0 requests, channel) :: agg) g)
  | vs_generate s past ver agg1 blocks channel agg2 g s0 :
      s0 ∈ past ->
      vote_step (mkNodeVotes s past ver (agg1 ++ (blocks, channel) :: agg2) g)
        (mkNodeVotes s past ver (agg1 ++ agg2) (generator_generate c s0 blocks channel g).2)
  | vs_turn s past ver agg g K instant instant' rep_keys reply_keys stopped g' :
      (length rep_keys <= K)%nat -> (forall i, length (reply_keys i) <= K)%nat -> Z.of_nat (vg_readings g + work K g) < READINGS_MAX ->
      run_turn is_final vote_generator_delay clock unix_now instant instant' rep_keys reply_keys stopped g = Finished g' ->
      vote_step (mkNodeVotes s past ver agg g) (mkNodeVotes s past ver agg g')
  | vs_history_add s past ver agg g root hash vote h' :
      history_add root hash vote (vg_history g) = Finished h' ->
      vote_step (mkNodeVotes s past ver agg g) (mkNodeVotes s past ver agg (with_history h' g))
  | vs_history_erase s past ver agg g root :
      vote_step (mkNodeVotes s past ver agg g) (mkNodeVotes s past ver agg (with_history (history_erase root (vg_history g)) g)).

Definition votes_reachable (n : NodeVotes) : Prop := exists max_cache now, rtc vote_step (votes_init max_cache now) n.

Hypothesis (clock_mono : forall i j, (i <= j)%nat -> clock i <= clock j).
Hypothesis (clock_range : forall i, 0 <= clock i < 2 ^ 63).
Hypothesis (delay_pos : 0 < delay).
Context (root_of : BlockHash -> QualifiedRoot).

(** What a final generator may vote for. *)
Definition may_vote (s : LmdbStore) (p : Root * BlockHash) : Prop := is_final = true -> claimed root_of s p.2.

Record votes_inv (n : NodeVotes) : Prop := {
  vi_current : nv_ledger n ∈ nv_past n;
  vi_past : forall s, s ∈ nv_past n -> ledger_ok c min_weight s /\ forall h, claimed root_of s h -> claimed root_of (nv_ledger n) h;
  vi_verified : Forall (Forall (may_vote (nv_ledger n))) (nv_verified n);
  vi_aggregated : Forall (fun a => Forall (fun b : SavedBlock => claimed root_of (nv_ledger n) (block_hash b)) a.1) (nv_aggregated n);
  vi_generator : exists m, gen_ok delay clock m (nv_generator n);
  vi_queues : queues_ok is_final (may_vote (nv_ledger n)) (nv_generator n);
}.

Lemma queues_impl (P Q : Root * BlockHash -> Prop) g :
  (forall p, P p -> Q p) -> queues_ok is_final P g -> queues_ok is_final Q g.
Proof using.
  intros Hi [H1 H2 H3]. split.
  - by eapply Forall_impl.
  - eapply Forall_impl; [done|]. intros r Hr. eapply Forall_impl; [exact Hr|done].
  - eapply Forall_impl; [done|]. intros v (V1 & V2 & V3 & V4). split; [done|]. split; [done|]. split; [done|]. eapply Forall_impl; [exact V4|done].
Qed.

(** A change of the ledger, whoever makes it. *)
Lemma votes_inv_ledger s past ver agg g s' :
  ledger_step c min_weight s s' -> rooted root_of s' -> votes_inv (mkNodeVotes s past ver agg g) ->
  votes_inv (mkNodeVotes s' (past ++ [s']) ver agg g).
Proof using.
  intros Hst Hr [H1 H2 H3 H4 H5 H6]. cbn in *. destruct (H2 _ H1) as [Hok _].
  assert (Hcl : forall h, claimed root_of s h -> claimed root_of s' h) by (intros h; by eapply claimed_step).
  assert (Hmv : forall p, may_vote s p -> may_vote s' p) by (intros p Hp Hf; by apply Hcl, Hp).
  split; cbn.
  - apply elem_of_app. right. by apply list_elem_of_singleton.
  - intros s0 [Hin| ->%list_elem_of_singleton]%elem_of_app.
    + destruct (H2 _ Hin) as [? Hh]. split; [done|]. intros h ?. by apply Hcl, Hh.
    + split; [|done]. by destruct (step_ok c min_weight s s' Hst Hok).
  - eapply Forall_impl; [done|]. intros l Hl. eapply Forall_impl; [exact Hl|done].
  - eapply Forall_impl; [done|]. intros a Ha. eapply Forall_impl; [exact Ha|]. intros b. apply Hcl.
  - done.
  - by eapply queues_impl.
Qed.

Lemma with_history_ok P m g h' :
  (forall added, history_ok added (vg_history g) -> exists added', history_ok added' h') ->
  gen_ok delay clock m g -> queues_ok is_final P g -> gen_ok delay clock m (with_history h' g) /\ queues_ok is_final P (with_history h' g).
Proof using.
  intros Hh [G1 G2 [added G3] G4 G5 G6] [Q1 Q2 Q3]. split; split; cbn; try done. by eapply Hh.
Qed.

Lemma added_ok root hash vote h h' added :
  history_add root hash vote h = Finished h' -> history_ok added h -> exists added', history_ok added' h'.
Proof using HL.
  intros E Hok. destruct (history_add_ok added root hash vote h Hok) as (h2 & E2 & Hok2 & _).
  assert (h2 = h') as -> by congruence. by eexists.
Qed.

Lemma erased_ok root h added : history_ok added h -> exists added', history_ok added' (history_erase root h).
Proof using HL. intros Hok. exists added. by apply history_erase_ok. Qed.

Lemma votes_inv_step n n' :
  vote_step n n' -> Forall (rooted root_of) (nv_past n') -> votes_inv n -> votes_inv n'.
Proof using HL clock_mono clock_range delay_pos.
  intros [s past ver agg g s' Hst|s past ver agg g cand verified s' E|s past v1 verified v2 agg g|s past ver agg g s0 reqs ch Hin Hf|
    s past ver a1 blocks ch a2 g s0 Hin|s past ver agg g K i i' keys rkeys stopped g' HK1 HK2 Hr E|
    s past ver agg g root hash vote h' E|s past ver agg g root] Hroot Hi; cbn in Hroot.
  - apply Forall_app in Hroot as [_ [Hroot _]%Forall_cons]. exact (votes_inv_ledger _ _ _ _ _ _ Hst Hroot Hi).
  - apply Forall_app in Hroot as [Hold [Hroot _]%Forall_cons].
    assert (Hst : ledger_step c min_weight s s') by (apply step_write; eapply write_vote; exact E). pose proof Hi as [H1 H2 _ _ _ _]. cbn in *.
    destruct (votes_inv_ledger _ _ _ _ _ _ Hst Hroot Hi) as [N1 N2 N3 N4 N5 N6]. split; try done. cbn in *. constructor; [|done].
    apply Forall_forall. intros [r h] Hin Hf. cbn. rewrite Hf in E. rewrite Forall_forall in Hold.
    eapply verified_claimed; [exact E|apply (H2 _ H1)|by apply Hold|exact Hin].
  - destruct Hi as [H1 H2 H3 H4 H5 [Q1 Q2 Q3]]. cbn in *. apply Forall_app in H3 as [H3 [H3' H3'']%Forall_cons].
    split; cbn; try done; [by apply Forall_app_2|by destruct H5 as [m []]; exists m|].
    split; cbn; [by apply Forall_app_2|done..].
  - destruct Hi as [H1 H2 H3 H4 H5 H6]. cbn in *. split; cbn; try done. constructor; [|done]. cbn. apply Forall_forall. intros b Hb.
    rewrite Forall_forall in Hroot. destruct (H2 _ Hin) as [Hok Hcl]. apply Hcl. eapply aggregated_claimed; [done|by apply Hroot|exact Hb].
  - destruct Hi as [H1 H2 H3 H4 H5 [Q1 Q2 Q3]]. cbn in *. apply Forall_app in H4 as [H4 [H4' H4'']%Forall_cons].
    split; cbn; try done; [by apply Forall_app_2|by destruct H5 as [m []]; exists m|].
    split; cbn; [done| |done]. apply Forall_drop, Forall_app_2; [done|]. constructor; [|constructor]. cbn.
    apply Forall_fmap, Forall_forall. intros b [_ Hb]%list_elem_of_filter _. cbn. rewrite Forall_forall in H4'. by apply H4'.
  - destruct Hi as [H1 H2 H3 H4 [m H5] H6]. cbn in *.
    destruct (run_turn_ok is_final vote_generator_delay delay clock unix_now clock_mono clock_range delay_pos
      (may_vote s) K i i' keys rkeys stopped g m H5 H6 HK1 HK2 Hr) as (g2 & m2 & E2 & Hg & Hq).
    assert (g2 = g') as -> by congruence. split; cbn; try done. by exists m2.
  - destruct Hi as [H1 H2 H3 H4 [m H5] H6]. cbn in *.
    destruct (with_history_ok _ m g h' (fun added => added_ok _ _ _ _ _ added E) H5 H6). split; cbn; eauto.
  - destruct Hi as [H1 H2 H3 H4 [m H5] H6]. cbn in *.
    destruct (with_history_ok _ m g _ (erased_ok root _) H5 H6). split; cbn; eauto.
Qed.

Lemma generator_new_ok max_cache now : gen_ok delay clock ∅ (generator_new delay max_cache now).
Proof using clock_range.
  split; cbn; try done.
  - apply (spacing_new_ok delay).
  - exists []. apply history_new_ok.
  - by intros ? ? ? ?%elem_of_nil.
Qed.

Lemma votes_inv_init max_cache now : genesis_wf c -> min_weight <= u128_max -> votes_inv (votes_init max_cache now).
Proof using clock_range.
  intros Hwf Hmin. split; cbn.
  - by apply list_elem_of_singleton.
  - intros s ->%list_elem_of_singleton. split; [by apply genesis_ledger_ok|done].
  - constructor.
  - constructor.
  - exists ∅. by apply generator_new_ok.
  - split; constructor.
Qed.

Lemma step_past n n' : vote_step n n' -> forall s, s ∈ nv_past n -> s ∈ nv_past n'.
Proof using. intros [] x Hin; cbn in *; try done; apply elem_of_app; by left. Qed.

Lemma votes_inv_reachable n :
  genesis_wf c -> min_weight <= u128_max -> votes_reachable n -> Forall (rooted root_of) (nv_past n) -> votes_inv n.
Proof using HL clock_mono clock_range delay_pos.
  intros Hwf Hmin (max_cache & now & Hr). revert n Hr.
  apply (rtc_ind_r (fun n => Forall (rooted root_of) (nv_past n) -> votes_inv n)); [intros _; by apply votes_inv_init|].
  intros n n' _ Hst IH Hroot. eapply votes_inv_step; [done|done|]. apply IH. rewrite Forall_forall in Hroot |- *.
  intros s Hs. eapply Hroot, step_past; done.
Qed.

(** What does not depend on the ledger. *)
Lemma generator_reachable n :
  votes_reachable n -> exists m, gen_ok delay clock m (nv_generator n) /\ queues_ok is_final (fun _ => True) (nv_generator n).
Proof using HL clock_mono clock_range delay_pos.
  intros (max_cache & now & Hr). revert n Hr.
  apply (rtc_ind_r (fun n => exists m, gen_ok delay clock m (nv_generator n) /\ queues_ok is_final (fun _ => True) (nv_generator n))).
  { exists ∅. split; [by apply generator_new_ok|]. split; constructor. }
  intros n n' _ Hst (m & Hg & Hq). destruct Hst as [| |s past v1 verified v2 agg g| |s past ver a1 blocks ch a2 g s0 Hin|
    s past ver agg g K i i' keys rkeys stopped g' HK1 HK2 Hr E|
    s past ver agg g root hash vote h' E|s past ver agg g root]; cbn in *; try by exists m.
  - exists m. split; [by destruct Hg|]. destruct Hq as [Q1 Q2 Q3]. split; cbn; [by apply Forall_true|done..].
  - exists m. split; [by destruct Hg|]. destruct Hq as [Q1 Q2 Q3]. split; cbn; [done| |done].
    apply Forall_true. intros r. by apply Forall_true.
  - destruct (run_turn_ok is_final vote_generator_delay delay clock unix_now clock_mono clock_range delay_pos
      _ K i i' keys rkeys stopped g m Hg Hq HK1 HK2 Hr) as (g2 & m2 & E2 & Hg2 & Hq2).
    assert (g2 = g') as -> by congruence. by exists m2.
  - exists m. eapply with_history_ok; [|done..]. intros added. by eapply added_ok.
  - exists m. eapply with_history_ok; [|done..]. apply erased_ok.
Qed.

Lemma made_hash n v h :
  votes_inv n -> v ∈ vg_made (nv_generator n) -> h ∈ vote_hashes (mv_vote v) -> is_final = true ->
  claimed root_of (nv_ledger n) h /\ vote_is_final (mv_vote v) = true.
Proof using.
  intros [_ _ _ _ _ [_ _ H3]] Hv Hh Hf. rewrite Forall_forall in H3. destruct (H3 _ Hv) as (E & _ & V & P).
  rewrite E in Hh. apply list_elem_of_fmap in Hh as ([r h'] & -> & Hp). rewrite Forall_forall in P. split; [by apply (P _ Hp)|by apply V].
Qed.
End system.

(** C9. Whatever the threads of a node do and in whatever order, and however
    the ledger changes in between (by [ledger_step]: admissible batches,
    rollbacks, cementing, votes), two hashes in votes the generator of final
    votes has handed out are the same if they have the same root, and all
    these votes are final: a node does not vote finally for two forks, also
    for a vote that is asked for after the block was confirmed, and also when
    the ledger that was asked is older. *)
Theorem no_conflicting_final_votes `{HL : HashOrderLaws} `{Crypto} `{LmdbEngine} (c : LedgerConstants) (min_weight : Amount)
    (vote_generator_delay delay : Duration) (clock : nat -> Timestamp) (unix_now : nat -> UnixMillisTimestamp)
    (root_of : BlockHash -> QualifiedRoot) (n : NodeVotes) :
  genesis_wf c -> min_weight <= u128_max ->
  (forall i j, (i <= j)%nat -> clock i <= clock j) -> (forall i, 0 <= clock i < 2 ^ 63) -> 0 < delay ->
  votes_reachable c min_weight true vote_generator_delay delay clock unix_now n -> Forall (rooted root_of) (nv_past n) ->
  forall v1 v2 h1 h2, v1 ∈ vg_made (nv_generator n) -> v2 ∈ vg_made (nv_generator n) ->
    h1 ∈ vote_hashes (mv_vote v1) -> h2 ∈ vote_hashes (mv_vote v2) ->
    vote_is_final (mv_vote v1) = true /\ (root_of h1 = root_of h2 -> h1 = h2).
Proof.
  intros Hwf Hmin Hm Hr Hd Hre Hroot v1 v2 h1 h2 Hv1 Hv2 Hh1 Hh2.
  pose proof (votes_inv_reachable c min_weight true vote_generator_delay delay clock unix_now Hm Hr Hd root_of n Hwf Hmin Hre Hroot) as Hi.
  destruct (made_hash _ _ _ _ _ _ n v1 h1 Hi Hv1 Hh1 eq_refl) as [C1 F1]. destruct (made_hash _ _ _ _ _ _ n v2 h2 Hi Hv2 Hh2 eq_refl) as [C2 _].
  split; [done|]. destruct Hi as [H1 H2 _ _ _ _]. rewrite Forall_forall in Hroot.
  apply (claimed_unique c min_weight root_of (nv_ledger n)); [apply (H2 _ H1)|by apply Hroot|done|done].
Qed.

(** C23. Votes of a generator, final or not, for different blocks of one root are
    at least the voting delay apart, a vote has at most 255 hashes, the
    history of local votes answers without a panic, and a turn of the generator
    neither panics nor runs forever, whatever is in its queues. *)
Theorem votes_spaced `{HL : HashOrderLaws} `{Crypto} `{LmdbEngine} (c : LedgerConstants) (min_weight : Amount) (is_final : bool)
    (vote_generator_delay delay : Duration) (clock : nat -> Timestamp) (unix_now : nat -> UnixMillisTimestamp) (n : NodeVotes) :
  (forall i j, (i <= j)%nat -> clock i <= clock j) -> (forall i, 0 <= clock i < 2 ^ 63) -> 0 < delay ->
  votes_reachable c min_weight is_final vote_generator_delay delay clock unix_now n ->
  spaced delay (voted (vg_made (nv_generator n))) /\
  (forall v, v ∈ vg_made (nv_generator n) -> vote_hashes (mv_vote v) = (mv_pairs v).*2 /\ (length (vote_hashes (mv_vote v)) <= 255)%nat) /\
  (forall root hash, exists votes, history_votes root hash is_final (vg_history (nv_generator n)) = Some votes /\
     Forall (fun vote => is_final = true -> vote_is_final vote = true) votes) /\
  (forall K instant instant' rep_keys reply_keys stopped,
     (length rep_keys <= K)%nat -> (forall i, length (reply_keys i) <= K)%nat ->
     Z.of_nat (vg_readings (nv_generator n) + work K (nv_generator n)) < READINGS_MAX ->
     exists g', run_turn is_final vote_generator_delay clock unix_now instant instant' rep_keys reply_keys stopped (nv_generator n) = Finished g').
Proof.
  intros Hm Hr Hd Hre.
  destruct (generator_reachable c min_weight is_final vote_generator_delay delay clock unix_now Hm Hr Hd n Hre) as (m & Hg & Hq). split; [by destruct Hg|]. split.
  - intros v Hv. destruct Hq as [_ _ H3]. rewrite Forall_forall in H3. destruct (H3 _ Hv) as (E & L & _). split; [done|]. by rewrite E, length_fmap.
  - split; [|intros K i i' keys rkeys stopped HK1 HK2 HK3].
    { intros r h. destruct Hg as [_ _ [added Hh] _ _ _]. destruct (history_votes_ok added r h is_final _ Hh) as (votes & E & Hv).
      exists votes. split; [done|]. apply Forall_forall. intros v Hin. by apply Hv. }
    
    destruct (run_turn_ok is_final vote_generator_delay delay clock unix_now Hm Hr Hd _ K i i' keys rkeys stopped _ m Hg Hq HK1 HK2 HK3)
      as (g' & _ & E & _). by exists g'.
Qed.

#[local] Existing Instance trie_order.
#[local] Existing Instance trie_order_laws.

(** ** A run

    A send is processed and verified, and the generator broadcasts a final vote
    of the representative 100 for it; then the confirmed genesis block is asked
    for and answered. *)

Definition run_voted : list (Root * BlockHash) * LmdbStore :=
  Eval vm_compute in verify_votes sample_constants no_refresh send_ledger [(genesis_head, block_hash sample_send)] true.

Definition sample_clock (n : nat) : Timestamp := 5.
Definition sample_roots (h : BlockHash) : QualifiedRoot :=
  from_option (fun b : SavedBlock => qualified_root b) (qualified_root sample_genesis_block) (st_block send_ledger !! h).

Definition sample_turn (g : VoteGenerator) : run VoteGenerator :=
  run_turn true 100 sample_clock (fun _ => 7) 1 2 [100] (fun _ => [100]) (fun _ => false) g.
Definition result_or (g : VoteGenerator) (r : run VoteGenerator) : VoteGenerator := match r with Finished g' => g' | _ => g end.

Definition sample_generator : VoteGenerator := generator_new 15 10 0.
Definition broadcast_generator : VoteGenerator :=
  Eval vm_compute in result_or sample_generator (sample_turn (generator_process_batch run_voted.1 sample_generator)).
Definition asked_generator : VoteGenerator :=
  Eval vm_compute in (generator_generate sample_constants run_voted.2 (aggregate sample_ledger [(genesis_head, 100)]) 3 broadcast_generator).2.
Definition answered_generator : VoteGenerator := Eval vm_compute in result_or sample_generator (sample_turn asked_generator).

Definition sample_node : NodeVotes :=
  mkNodeVotes run_voted.2 [sample_ledger; send_ledger; run_voted.2] [] [] answered_generator.

Lemma sample_node_reachable :
  votes_reachable sample_constants 0 true 100 15 sample_clock (fun _ => 7) sample_node.
Proof.
  exists 10%nat, 0.
  eapply rtc_l; [apply (vs_ledger _ _ _ _ _ _ sample_ledger [sample_ledger] [] [] _ send_ledger), send_step|].
  eapply rtc_l; [apply (vs_verify _ _ _ _ _ _ send_ledger _ [] [] _ [(genesis_head, block_hash sample_send)] run_voted.1 run_voted.2); vm_compute; reflexivity|].
  eapply rtc_l; [apply (vs_submit _ _ _ _ _ _ run_voted.2 _ [] run_voted.1 [] [])|].
  eapply rtc_l; [apply (vs_turn _ _ _ _ _ _ run_voted.2 _ _ _ _ 1 1 2 [100] (fun _ => [100]) (fun _ => false) broadcast_generator);
    [cbn; lia|intros; cbn; lia|by vm_compute|vm_compute; reflexivity]|].
  eapply rtc_l; [apply (vs_aggregate _ _ _ _ _ _ run_voted.2 _ _ _ _ sample_ledger [(genesis_head, 100)] 3); [by apply list_elem_of_here|done]|].
  eapply rtc_l; [apply (vs_generate _ _ _ _ _ _ run_voted.2 _ _ [] _ 3 [] _ run_voted.2); apply elem_of_app; right; by apply list_elem_of_singleton|].
  eapply rtc_l; [apply (vs_turn _ _ _ _ _ _ run_voted.2 _ _ _ _ 1 1 2 [100] (fun _ => [100]) (fun _ => false) answered_generator);
    [cbn; lia|intros; cbn; lia|by vm_compute|vm_compute; reflexivity]|].
  apply rtc_refl.
Qed.

Lemma rooted_check root_of s :
  forallb (fun p : BlockHash * SavedBlock => bool_decide (qualified_root p.2 = root_of p.1)) (map_to_list (st_block s)) = true ->
  rooted root_of s.
Proof.
  rewrite forallb_forall. intros Hs h b Hb%elem_of_map_to_list%list_elem_of_In. specialize (Hs _ Hb).
  by apply bool_decide_eq_true in Hs.
Qed.

Lemma sample_rooted : Forall (rooted sample_roots) (nv_past sample_node).
Proof. repeat apply Forall_cons_2; try apply Forall_nil_2; apply rooted_check; vm_compute; reflexivity. Qed.

Lemma no_conflicting_final_votes_witness :
  (vote_hashes ∘ mv_vote <$> vg_made (nv_generator sample_node)) = [[block_hash sample_send]; [genesis_head]] /\
  forall v1 v2 h1 h2, v1 ∈ vg_made (nv_generator sample_node) -> v2 ∈ vg_made (nv_generator sample_node) ->
    h1 ∈ vote_hashes (mv_vote v1) -> h2 ∈ vote_hashes (mv_vote v2) ->
    vote_is_final (mv_vote v1) = true /\ (sample_roots h1 = sample_roots h2 -> h1 = h2).
Proof.
  split; [vm_compute; reflexivity|].
  apply (no_conflicting_final_votes sample_constants 0 100 15 sample_clock (fun _ => 7) sample_roots sample_node);
    [apply sample_genesis_wf|by vm_compute|done|by unfold sample_clock|done|apply sample_node_reachable|apply sample_rooted].
Defined.

Lemma votes_spaced_witness :
  length (voted (vg_made (nv_generator sample_node))) = 2%nat /\ spaced 15 (voted (vg_made (nv_generator sample_node))).
Proof.
  split; [vm_compute; reflexivity|].
  apply (votes_spaced sample_constants 0 true 100 15 sample_clock (fun _ => 7) sample_node);
    [done|by unfold sample_clock|done|apply sample_node_reachable].
Defined.
