(* ===== verification/Bootstrap.v ===== *)
(** * The state of bootstrapping
    (node/src/bootstrap: state, block_inspector.rs, cleanup.rs,
    requesters/query_sender.rs, requesters/priority/query_factory.rs)

    What a node knows about the accounts it is pulling from its peers: the
    queries that run, the answers that wait to be processed, the ranges of
    accounts that are scanned, and the candidate accounts of Candidates.v. A
    channel is its id. What the random number generator, the block processor's
    queue and the message sender answer are arguments. Statistics are left
    out. *)

From S2P Require Import Prelude Types Blocks Store Sets Validation Election Collections Messages.
From S2P Require Import Floats Candidates OnlineReps.

(** ** mod.rs, running_query.rs *)

Record AscPullQuerySpec := mkAscPullQuerySpec {
  qs_query_id : Z;
  qs_channel : Z;
  qs_req_type : AscPullReqType;
  qs_account : Account;
  qs_hash : BlockHash;
  qs_cooldown_account : bool;
}.

Inductive QueryType := QueryInvalid | BlocksByHash | BlocksByAccount | AccountInfoByHash | QueryFrontiers.
Inductive QuerySource := SourcePriority | SourceDependencies | SourceFrontiers.

#[global] Instance QueryType_eq_dec : EqDecision QueryType.
Proof. solve_decision. Defined.
#[global] Instance QuerySource_eq_dec : EqDecision QuerySource.
Proof. solve_decision. Defined.

Record RunningQuery := mkRunningQuery {
  rq_id : Z;
  rq_source : QuerySource;
  rq_query_type : QueryType;
  rq_start : u256;
  rq_account : Account;
  rq_hash : BlockHash;
  rq_count : Z;
  rq_sent : Timestamp;
  rq_response_cutoff : Timestamp;
}.

Definition query_from_spec (id : Z) (spec : AscPullQuerySpec) (now : Timestamp) (timeout : Duration) : RunningQuery :=
  let '(source, query_type, start, count) :=
    match qs_req_type spec with
    | ReqFrontiers f => (SourceFrontiers, QueryFrontiers, frq_start f, frq_count f)
    | ReqBlocks b =>
        match brq_start_type b with
        | HashAccount => (SourcePriority, BlocksByAccount, brq_start b, brq_count b)
        | HashBlock => (SourcePriority, BlocksByHash, brq_start b, brq_count b)
        end
    | ReqAccountInfo i => (SourceDependencies, AccountInfoByHash, arq_target i, 0)
    end in
  mkRunningQuery id source query_type start (qs_account spec) (qs_hash spec) count now (now + timeout * 4).

Definition is_valid_response_type (response : AscPullAck) (q : RunningQuery) : bool :=
  match apa_pull_type response with
  | AckBlocks _ => match rq_query_type q with BlocksByHash | BlocksByAccount => true | _ => false end
  | AckAccountInfo _ => bool_decide (rq_query_type q = AccountInfoByHash)
  | AckFrontiers _ => bool_decide (rq_query_type q = QueryFrontiers)
  end.

Inductive VerifyResult := VerifyOk | VerifyNothingNew | VerifyInvalid.

Fixpoint ascending_from (previous : Account) (frontiers : list Frontier) : bool :=
  match frontiers with
  | [] => true
  | f :: frontiers => if frontier_account f <=? previous then false else ascending_from (frontier_account f) frontiers
  end.

Definition are_accounts_in_ascending_order (frontiers : list Frontier) : bool := ascending_from 0 frontiers.

Definition verify_frontiers (frontiers : list Frontier) (q : RunningQuery) : VerifyResult :=
  if negb (bool_decide (rq_query_type q = QueryFrontiers)) then VerifyInvalid
  else
    match frontiers with
    | [] => VerifyNothingNew
    | first :: _ =>
        if negb (are_accounts_in_ascending_order frontiers) then VerifyInvalid
        else if frontier_account first <? rq_start q then VerifyInvalid
        else VerifyOk
    end.

Fixpoint blocks_chain (previous_hash : BlockHash) (blocks : list Block) : bool :=
  match blocks with
  | [] => true
  | block :: blocks => if negb (previous block =? previous_hash) then false else blocks_chain (block_hash block) blocks
  end.

Definition verify_blocks (response : BlocksAckPayload) (q : RunningQuery) : VerifyResult :=
  let check (by_account : bool) :=
    let blocks := bap_blocks response in
    if rq_count q <? Z.of_nat (length blocks) then VerifyInvalid
    else
      match blocks with
      | [] => VerifyNothingNew
      | first :: rest =>
          let chain := if blocks_chain (block_hash first) rest then VerifyOk else VerifyInvalid in
          if by_account then if negb (default 0 (account_field first) =? rq_start q) then VerifyInvalid else chain
          else if negb (block_hash first =? rq_start q) then VerifyInvalid
          else if (length blocks =? 1)%nat then VerifyNothingNew
          else chain
      end in
  match rq_query_type q with
  | BlocksByAccount => check true
  | BlocksByHash => check false
  | _ => VerifyInvalid
  end.

(** ** running_query_container.rs *)

Record RunningQueryContainer := mkRunningQueryContainer {
  rqc_by_id : gmap Z RunningQuery;
  rqc_by_account : gmap Account (list Z);
  rqc_by_hash : gmap BlockHash (list Z);
  rqc_sequenced : list Z;
}.

Definition rqc_default : RunningQueryContainer := mkRunningQueryContainer ∅ ∅ ∅ [].
Definition rqc_len (c : RunningQueryContainer) : nat := length (rqc_sequenced c).

(** [iter_ids]: an id without query panics. *)
Definition iter_ids (ids : option (list Z)) (c : RunningQueryContainer) : option (list RunningQuery) :=
  mapM (fun id => rqc_by_id c !! id) (default [] ids).
Definition iter_hash (hash : BlockHash) (c : RunningQueryContainer) : option (list RunningQuery) :=
  iter_ids (rqc_by_hash c !! hash) c.
Definition iter_account (account : Account) (c : RunningQueryContainer) : option (list RunningQuery) :=
  iter_ids (rqc_by_account c !! account) c.

Definition count_source (source : QuerySource) (queries : list RunningQuery) : nat :=
  length (filter (fun q => rq_source q = source) queries).
Definition count_by_account (account : Account) (source : QuerySource) (c : RunningQueryContainer) : option nat :=
  count_source source <$> iter_account account c.

(** [remove_by_account] and [remove_by_hash]; [None] is [unreachable!]. *)
Definition remove_internal (id : Z) (account : Account) (hash : BlockHash) (by_id : gmap Z RunningQuery) (c : RunningQueryContainer)
    : option RunningQueryContainer :=
  by_account ← index_take account id (rqc_by_account c);
  by_hash ← index_take hash id (rqc_by_hash c);
  Some (mkRunningQueryContainer by_id by_account by_hash (filter (fun i => i <> id) (rqc_sequenced c))).

Definition rqc_remove (id : Z) (c : RunningQueryContainer) : option (option RunningQuery * RunningQueryContainer) :=
  match rqc_by_id c !! id with
  | Some q =>
      c ← remove_internal id (rq_account q) (rq_hash q) (delete id (rqc_by_id c)) c;
      Some (Some q, c)
  | None => Some (None, c)
  end.

Definition rqc_front (c : RunningQueryContainer) : option (option RunningQuery) :=
  match rqc_sequenced c with
  | [] => Some None
  | id :: _ => q ← rqc_by_id c !! id; Some (Some q)
  end.

Definition rqc_pop_front (c : RunningQueryContainer) : option (option RunningQuery * RunningQueryContainer) :=
  match rqc_sequenced c with
  | [] => Some (None, c)
  | id :: sequenced =>
      q ← rqc_by_id c !! id;
      by_account ← index_take (rq_account q) id (rqc_by_account c);
      by_hash ← index_take (rq_hash q) id (rqc_by_hash c);
      Some (Some q, mkRunningQueryContainer (delete id (rqc_by_id c)) by_account by_hash sequenced)
  end.

Definition rqc_insert (q : RunningQuery) (c : RunningQueryContainer) : option RunningQueryContainer :=
  let id := rq_id q in
  let by_id := <[id := q]> (rqc_by_id c) in
  c ← match rqc_by_id c !! id with
      | Some old => remove_internal (rq_id old) (rq_account old) (rq_hash old) by_id c
      | None => Some (mkRunningQueryContainer by_id (rqc_by_account c) (rqc_by_hash c) (rqc_sequenced c))
      end;
  Some (mkRunningQueryContainer (rqc_by_id c) (index_push (rq_account q) id (rqc_by_account c))
          (index_push (rq_hash q) id (rqc_by_hash c)) (rqc_sequenced c ++ [id])).

(** ** block_queue.rs *)

Record AccountBlocks := mkAccountBlocks {
  abk_account : Account;
  abk_query_id : Z;
  abk_blocks : list Block;
}.

Record BlockQueue := mkBlockQueue {
  bq_max_accounts : nat;
  bq_accounts : gmap Account AccountBlocks;
  bq_waiting : gmap BlockHash Account;
  bq_in_block_processor : gmap BlockHash Account;
  bq_blocks : Z;
}.

Definition DEFAULT_MAX_ACCOUNTS : nat := 1024 * 64.
Definition block_queue_new (max_accounts : nat) : BlockQueue := mkBlockQueue max_accounts ∅ ∅ ∅ 0.

Definition front_hash (data : AccountBlocks) : option BlockHash := block_hash <$> head (abk_blocks data).

Definition bq_insert (data : AccountBlocks) (q : BlockQueue) : bool * BlockQueue :=
  if (bq_max_accounts q <=? size (bq_accounts q))%nat then (false, q)
  else
    match front_hash data with
    | None => (false, q)
    | Some first_hash =>
        let account := abk_account data in
        let blocks := wrap 64 (bq_blocks q + Z.of_nat (length (abk_blocks data))) in
        let q :=
          match bq_accounts q !! account with
          | Some old =>
              let del m := from_option (fun h => delete h m) m (front_hash old) in
              mkBlockQueue (bq_max_accounts q) (<[account := data]> (bq_accounts q)) (del (bq_waiting q))
                (del (bq_in_block_processor q)) (wrap 64 (blocks - Z.of_nat (length (abk_blocks old))))
          | None =>
              mkBlockQueue (bq_max_accounts q) (<[account := data]> (bq_accounts q)) (bq_waiting q) (bq_in_block_processor q) blocks
          end in
        (true, mkBlockQueue (bq_max_accounts q) (bq_accounts q) (<[first_hash := account]> (bq_waiting q))
                 (bq_in_block_processor q) (bq_blocks q))
    end.

Definition contains_account (account : Account) (q : BlockQueue) : bool := bool_decide (is_Some (bq_accounts q !! account)).

(** Whichever waiting block the hash map has first; [None] inside is the end,
    outside a panic. *)
Definition next_to_process `{HashOrder} (q : BlockQueue) : option (option (Block * Z)) :=
  match hash_iter (bq_waiting q) with
  | [] => Some None
  | (_, account) :: _ =>
      data ← bq_accounts q !! account;
      block ← head (abk_blocks data);
      Some (Some (block, abk_query_id data))
  end.

(** The [debug_assert!] that no other account waits for the block is not part
    of a release build; it does not always hold. *)
Definition enqueued_for_processing (hash : BlockHash) (q : BlockQueue) : BlockQueue :=
  match bq_waiting q !! hash with
  | Some account =>
      mkBlockQueue (bq_max_accounts q) (bq_accounts q) (delete hash (bq_waiting q))
        (<[hash := account]> (bq_in_block_processor q)) (bq_blocks q)
  | None => q
  end.

Record BlockInfo := mkBlockInfo { bi_account : option Account; bi_was_last : bool }.

Definition bq_processed (hash : BlockHash) (q : BlockQueue) : option (BlockInfo * BlockQueue) :=
  match bq_in_block_processor q !! hash with
  | None => Some (mkBlockInfo None false, q)
  | Some account =>
      let in_block_processor := delete hash (bq_in_block_processor q) in
      data ← bq_accounts q !! account;
      match abk_blocks data with
      | [] => None
      | _ :: blocks =>
          let count := wrap 64 (bq_blocks q - 1) in
          let data := mkAccountBlocks (abk_account data) (abk_query_id data) blocks in
          Some (match blocks with
                | next :: _ =>
                    (mkBlockInfo (Some account) false,
                     mkBlockQueue (bq_max_accounts q) (<[account := data]> (bq_accounts q))
                       (<[block_hash next := account]> (bq_waiting q)) in_block_processor count)
                | [] =>
                    (mkBlockInfo (Some account) true,
                     mkBlockQueue (bq_max_accounts q) (delete account (bq_accounts q)) (bq_waiting q) in_block_processor count)
                end)
      end
  end.

Definition processing_failed (hash : BlockHash) (q : BlockQueue) : option (bool * BlockQueue) :=
  match bq_in_block_processor q !! hash with
  | None => Some (false, q)
  | Some account =>
      data ← bq_accounts q !! account;
      Some (true, mkBlockQueue (bq_max_accounts q) (delete account (bq_accounts q)) (bq_waiting q)
                    (delete hash (bq_in_block_processor q)) (wrap 64 (bq_blocks q - Z.of_nat (length (abk_blocks data)))))
  end.

(** ** peer_scoring *)

Record PeerScore := mkPeerScore {
  psc_channel_id : Z;
  psc_running_queries : nat;
  psc_request_count_total : nat;
  psc_response_count_total : nat;
}.

Definition peer_score_new (channel_id : Z) : PeerScore := mkPeerScore channel_id 1 1 0.
Definition peer_score_decay (s : PeerScore) : PeerScore :=
  if (0 <? psc_running_queries s)%nat
  then mkPeerScore (psc_channel_id s) (psc_running_queries s - 1) (psc_request_count_total s) (psc_response_count_total s)
  else s.

Record PeerScoring := mkPeerScoring {
  psg_scoring : gmap Z PeerScore;
  psg_channel_limit : nat;
}.

Definition received_message (channel_id : Z) (p : PeerScoring) : PeerScoring :=
  mkPeerScoring
    (alter (fun i => if (1 <? psc_running_queries i)%nat
                     then mkPeerScore (psc_channel_id i) (psc_running_queries i - 1) (psc_request_count_total i)
                            (S (psc_response_count_total i))
                     else i) channel_id (psg_scoring p))
    (psg_channel_limit p).

Definition try_send_message (channel_id : Z) (p : PeerScoring) : bool * PeerScoring :=
  match psg_scoring p !! channel_id with
  | Some i =>
      if (psc_running_queries i <? psg_channel_limit p)%nat then
        (true, mkPeerScoring (<[channel_id := mkPeerScore (psc_channel_id i) (S (psc_running_queries i))
                                  (S (psc_request_count_total i)) (psc_response_count_total i)]> (psg_scoring p))
                 (psg_channel_limit p))
      else (false, p)
  | None => (true, mkPeerScoring (<[channel_id := peer_score_new channel_id]> (psg_scoring p)) (psg_channel_limit p))
  end.

(** [channel], on the candidates in the order of the shuffle *)
Fixpoint scoring_channel (shuffled : list Z) (p : PeerScoring) : option Z * PeerScoring :=
  match shuffled with
  | [] => (None, p)
  | channel_id :: shuffled =>
      let '(success, p) := try_send_message channel_id p in
      if success : bool then (Some channel_id, p) else scoring_channel shuffled p
  end.

Definition scoring_decay (p : PeerScoring) : PeerScoring :=
  mkPeerScoring (peer_score_decay <$> psg_scoring p) (psg_channel_limit p).
Definition scoring_clean_up_dead_channels (dead_channel_ids : list Z) (p : PeerScoring) : PeerScoring :=
  mkPeerScoring (foldl (fun m id => delete id m) (psg_scoring p) dead_channel_ids) (psg_channel_limit p).

(** ** frontier_scan *)

Record FrontierScanConfig := mkFrontierScanConfig {
  fsc_parallelism : nat;
  fsc_consideration_count : nat;
  fsc_candidates : nat;
  fsc_cooldown : Duration;
}.

Definition frontier_scan_config_default : FrontierScanConfig := mkFrontierScanConfig 128 4 1000 (secs 5).

(** The [BTreeSet] of candidates is a map to the unit type. *)
Record FrontierHead := mkFrontierHead {
  fh_start : Account;
  fh_end : Account;
  fh_next : Account;
  fh_candidates : gmap Account ();
  fh_requests_sent : nat;
  fh_requests_completed : nat;
  fh_last_request_sent : Timestamp;
  fh_accounts_processed : nat;
  fh_config : FrontierScanConfig;
}.

Definition frontier_head_new (start stop : Account) (config : FrontierScanConfig) : FrontierHead :=
  mkFrontierHead start stop start ∅ 0 0 0 0 config.

Definition can_send_request (now : Timestamp) (h : FrontierHead) : bool :=
  let cutoff := now - fsc_cooldown (fh_config h) in
  (fh_requests_sent h <? fsc_consideration_count (fh_config h))%nat || (fh_last_request_sent h <? cutoff).

Definition head_request_sent (now : Timestamp) (h : FrontierHead) : FrontierHead :=
  mkFrontierHead (fh_start h) (fh_end h) (fh_next h) (fh_candidates h) (S (fh_requests_sent h)) (fh_requests_completed h) now
    (fh_accounts_processed h) (fh_config h).

Definition fh_with_candidates (candidates : gmap Account ()) (h : FrontierHead) : FrontierHead :=
  mkFrontierHead (fh_start h) (fh_end h) (fh_next h) candidates (fh_requests_sent h) (fh_requests_completed h)
    (fh_last_request_sent h) (fh_accounts_processed h) (fh_config h).

Definition insert_candidates (response : list Frontier) (h : FrontierHead) : FrontierHead :=
  fh_with_candidates
    (foldl (fun m f => if fh_next h <? frontier_account f then <[frontier_account f := ()]> m else m) (fh_candidates h) response) h.

Fixpoint trim_last (fuel : nat) (max : nat) (m : gmap Account ()) : run (gmap Account ()) :=
  match fuel with
  | O => Running
  | S fuel =>
      if (max <? size m)%nat
      then trim_last fuel max (from_option (fun e => delete e.1 m) m (btm_last Z.compare m))
      else Finished m
  end.

Definition trim_candidates (h : FrontierHead) : run FrontierHead :=
  m ← trim_last (S (size (fh_candidates h))) (fsc_candidates (fh_config h)) (fh_candidates h);
  Finished (fh_with_candidates m h).

Definition wrap_around_if_no_candidates_found (h : FrontierHead) : FrontierHead :=
  if (fsc_consideration_count (fh_config h) * 2 <=? fh_requests_completed h)%nat && bool_decide (fh_candidates h = ∅)
  then fh_with_candidates {[fh_end h := ()]} h
  else h.

Definition should_advance (h : FrontierHead) : bool :=
  (fsc_consideration_count (fh_config h) <=? fh_requests_completed h)%nat && negb (bool_decide (fh_candidates h = ∅)).

Definition next_start_account (h : FrontierHead) : Account :=
  let last := from_option fst (fh_next h) (btm_last Z.compare (fh_candidates h)) in
  if fh_end h <=? last then fh_start h else last.

Definition advance (h : FrontierHead) : FrontierHead :=
  mkFrontierHead (fh_start h) (fh_end h) (next_start_account h) ∅ 0 0 0
    (fh_accounts_processed h + size (fh_candidates h)) (fh_config h).

Definition head_process (response : list Frontier) (h : FrontierHead) : run (bool * FrontierHead) :=
  let h := mkFrontierHead (fh_start h) (fh_end h) (fh_next h) (fh_candidates h) (fh_requests_sent h)
             (S (fh_requests_completed h)) (fh_last_request_sent h) (fh_accounts_processed h) (fh_config h) in
  h ← trim_candidates (insert_candidates response h);
  let h := wrap_around_if_no_candidates_found h in
  Finished (if should_advance h then (true, advance h) else (false, h)).

Record HeadsContainer := mkHeadsContainer {
  hc_sequenced : list Account;
  hc_by_start : gmap Account FrontierHead;
  hc_by_timestamp : gmap Timestamp (list Account);
}.

Definition heads_default : HeadsContainer := mkHeadsContainer [] ∅ ∅.

Definition ACCOUNT_MAX : Account := 2 ^ 256 - 1.

Definition create_head `{U256Arith} (config : FrontierScanConfig) (index : nat) : FrontierHead :=
  if (fsc_parallelism config =? 1)%nat then frontier_head_new 1 ACCOUNT_MAX config
  else
    let range_size := u256_add (u256_div ACCOUNT_MAX (Z.of_nat (fsc_parallelism config))) 1 in
    let start := u256_mul range_size (Z.of_nat index) in
    let stop := if (index =? fsc_parallelism config - 1)%nat then ACCOUNT_MAX else u256_add start range_size in
    frontier_head_new (if (index =? 0)%nat then 1 else start) stop config.

Definition heads_push_back (head : FrontierHead) (c : HeadsContainer) : HeadsContainer :=
  match hc_by_start c !! fh_start head with
  | Some _ => c
  | None =>
      mkHeadsContainer (hc_sequenced c ++ [fh_start head]) (<[fh_start head := head]> (hc_by_start c))
        (index_push (fh_last_request_sent head) (fh_start head) (hc_by_timestamp c))
  end.

Definition heads_with_heads `{U256Arith} (config : FrontierScanConfig) : HeadsContainer :=
  foldl (fun c i => heads_push_back (create_head config i) c) heads_default (seq 0 (fsc_parallelism config)).

(** [FrontierScan::new]. [!] is the bitwise negation of a [usize], so the
    assertion [!config.parallelism > 0] fails for [usize::MAX] only. *)
Definition frontier_scan_new `{U256Arith} (config : FrontierScanConfig) : option HeadsContainer :=
  if 0 <? 2 ^ 64 - 1 - Z.of_nat (fsc_parallelism config) then Some (heads_with_heads config) else None.

Definition ordered_by_timestamp (c : HeadsContainer) : list Account := mjoin (btm_entries Z.compare (hc_by_timestamp c)).*2.

(** [modify]: the index by time follows the head. *)
Definition heads_update (start : Account) (old new : FrontierHead) (c : HeadsContainer) : option HeadsContainer :=
  by_timestamp ←
    (if fh_last_request_sent new =? fh_last_request_sent old then Some (hc_by_timestamp c)
     else
       m ← index_take (fh_last_request_sent old) start (hc_by_timestamp c);
       Some (index_push (fh_last_request_sent new) start m));
  Some (mkHeadsContainer (hc_sequenced c) (<[start := new]> (hc_by_start c)) by_timestamp).

(** The last entry of the range up to the account. *)
Definition find_first_less_than_or_equal_to (account : Account) (c : HeadsContainer) : option Account :=
  last (filter (fun start => start <= account) (btm_entries Z.compare (hc_by_start c)).*1).

(** [next_account]: the first head that can be asked for. *)
Fixpoint next_account (now : Timestamp) (starts : list Account) (c : HeadsContainer) : option (option FrontierHead) :=
  match starts with
  | [] => Some None
  | start :: starts =>
      head ← hc_by_start c !! start;
      if can_send_request now head then Some (Some head) else next_account now starts c
  end.

(** [FrontierScan::next] *)
Definition scan_next (now : Timestamp) (c : HeadsContainer) : option (Account * HeadsContainer) :=
  head ← next_account now (ordered_by_timestamp c) c;
  match head with
  | None => Some (0, c)
  | Some head =>
      if fh_next head =? 0 then Some (0, c)
      else
        old ← hc_by_start c !! fh_start head;
        c ← heads_update (fh_start head) old (head_request_sent now old) c;
        Some (fh_next head, c)
  end.

(** [FrontierScan::process] *)
Definition scan_process (start : Account) (response : list Frontier) (c : HeadsContainer) : run (bool * HeadsContainer) :=
  range_start ← unwrap (find_first_less_than_or_equal_to start c);
  head ← unwrap (hc_by_start c !! range_start);
  '(done, head') ← head_process response head;
  c ← unwrap (heads_update range_start head head' c);
  Finished (done : bool, c).

(** ** frontiers_processor.rs *)

Record FrontiersProcessor := mkFrontiersProcessor {
  fp_frontier_scan : HeadsContainer;
  fp_frontiers_to_check : list (list Frontier);
  fp_frontier_checker_overfill : bool;
  fp_last_outdated_accounts : list Account;
}.

Record OutdatedAccounts := mkOutdatedAccounts {
  oa_accounts : list Account;
  oa_outdated : nat;
  oa_pending : nat;
  oa_frontiers_received : nat;
}.

Definition fp_process (q : RunningQuery) (frontiers : list Frontier) (p : FrontiersProcessor) : run (bool * FrontiersProcessor) :=
  match verify_frontiers frontiers q with
  | VerifyOk =>
      '(_, scan) ← scan_process (rq_start q) frontiers (fp_frontier_scan p);
      Finished (true, mkFrontiersProcessor scan (fp_frontiers_to_check p ++ [frontiers]) (fp_frontier_checker_overfill p)
                        (fp_last_outdated_accounts p))
  | VerifyNothingNew => Finished (true, p)
  | VerifyInvalid => Finished (false, p)
  end.

(** [pop_frontiers_to_check] until the queue is empty, and the answer of the
    thread pool ([enqueue_frontiers]) *)
Definition enqueue_frontiers (overfill : bool) (p : FrontiersProcessor) : list (list Frontier) * FrontiersProcessor :=
  (fp_frontiers_to_check p,
   mkFrontiersProcessor (fp_frontier_scan p) [] overfill (fp_last_outdated_accounts p)).

Section bootstrap.
Context `{Crypto} `{HashOrder} `{OrderedFloat} `{U256Arith}.

(** The loop of [frontiers_processed]. *)
Fixpoint prioritize_outdated (accounts : list Account) (last : list Account) (c : CandidateAccounts)
    : run (list Account * CandidateAccounts) :=
  match accounts with
  | [] => Finished (last, c)
  | account :: accounts =>
      '(_, c) ← priority_up account c;
      let last := last ++ [account] in
      prioritize_outdated accounts (if (20 <? length last)%nat then tail last else last) c
  end.

(** ** bootstrap_logic.rs *)

Record BootstrapLogic := mkBootstrapLogic {
  bsl_candidate_accounts : CandidateAccounts;
  bsl_scoring : PeerScoring;
  bsl_running_queries : RunningQueryContainer;
  bsl_frontiers_processor : FrontiersProcessor;
  bsl_block_queue : BlockQueue;
}.

Definition bootstrap_new (candidates : CandidateAccountsConfig) (scan : FrontierScanConfig) (channel_limit max_accounts : nat)
    : option BootstrapLogic :=
  heads ← frontier_scan_new scan;
  Some (mkBootstrapLogic (candidates_new candidates) (mkPeerScoring ∅ channel_limit) rqc_default
          (mkFrontiersProcessor heads [] false []) (block_queue_new max_accounts)).

Definition with_candidates (c : CandidateAccounts) (l : BootstrapLogic) : BootstrapLogic :=
  mkBootstrapLogic c (bsl_scoring l) (bsl_running_queries l) (bsl_frontiers_processor l) (bsl_block_queue l).
Definition with_scoring (p : PeerScoring) (l : BootstrapLogic) : BootstrapLogic :=
  mkBootstrapLogic (bsl_candidate_accounts l) p (bsl_running_queries l) (bsl_frontiers_processor l) (bsl_block_queue l).
Definition with_running_queries (c : RunningQueryContainer) (l : BootstrapLogic) : BootstrapLogic :=
  mkBootstrapLogic (bsl_candidate_accounts l) (bsl_scoring l) c (bsl_frontiers_processor l) (bsl_block_queue l).
Definition with_frontiers (p : FrontiersProcessor) (l : BootstrapLogic) : BootstrapLogic :=
  mkBootstrapLogic (bsl_candidate_accounts l) (bsl_scoring l) (bsl_running_queries l) p (bsl_block_queue l).
Definition with_block_queue (q : BlockQueue) (l : BootstrapLogic) : BootstrapLogic :=
  mkBootstrapLogic (bsl_candidate_accounts l) (bsl_scoring l) (bsl_running_queries l) (bsl_frontiers_processor l) q.

(** [contains_account] and [count_by_account]: an account that is neither in
    the queue nor asked for. *)
Definition not_busy (l : BootstrapLogic) (account : Account) : bool :=
  negb (contains_account account (bsl_block_queue l)) &&
  bool_decide (count_by_account account SourcePriority (bsl_running_queries l) = Some O).

Definition next_priority (now : Timestamp) (l : BootstrapLogic) : option PriorityResult :=
  candidates_next_priority now (not_busy l) (bsl_candidate_accounts l).

Definition not_asked (l : BootstrapLogic) (hash : BlockHash) : bool :=
  bool_decide (count_source SourceDependencies <$> iter_hash hash (bsl_running_queries l) = Some O).

Definition next_blocking (l : BootstrapLogic) : option BlockHash :=
  candidates_next_blocking (not_asked l) (bsl_candidate_accounts l).

Definition next_blocking_query (query_id channel : Z) (l : BootstrapLogic) : option (option AscPullQuerySpec) :=
  next ← next_blocking l;
  Some (if next =? 0 then None
        else Some (mkAscPullQuerySpec query_id channel (ReqAccountInfo (mkAccountInfoReqPayload next HashBlock)) 0 next false)).

(** block_ack_processor.rs *)
Definition process_valid_blocks (q : RunningQuery) (response : BlocksAckPayload) (l : BootstrapLogic) : option BootstrapLogic :=
  match bap_blocks response with
  | [] => None
  | first :: rest =>
      let blocks := if block_hash first =? rq_start q then rest else first :: rest in
      Some (with_block_queue (bq_insert (mkAccountBlocks (rq_account q) (rq_id q) blocks) (bsl_block_queue l)).2 l)
  end.

Definition process_empty_response (q : RunningQuery) (l : BootstrapLogic) : run BootstrapLogic :=
  '(_, c) ← priority_down (rq_account q) (bsl_candidate_accounts l);
  Finished (with_candidates (reset_last_request (rq_account q) c) l).

Definition process_blocks_ack (q : RunningQuery) (response : BlocksAckPayload) (l : BootstrapLogic) : run (bool * BootstrapLogic) :=
  match verify_blocks response q with
  | VerifyOk => l ← unwrap (process_valid_blocks q response l); Finished (true, l)
  | VerifyNothingNew => l ← process_empty_response q l; Finished (true, l)
  | VerifyInvalid => Finished (false, l)
  end.

(** account_ack_processor.rs *)
Definition process_account_ack (q : RunningQuery) (response : AccountInfoAckPayload) (l : BootstrapLogic) : run (bool * BootstrapLogic) :=
  if aip_account response =? 0 then Finished (true, l)
  else
    '(_, c) ← dependency_update (rq_hash q) (aip_account response) (bsl_candidate_accounts l);
    '(_, c) ← priority_up (aip_account response) c;
    Finished (true, with_candidates c l).

Inductive ProcessError := NoRunningQueryFound | InvalidResponseType | InvalidResponse.

Definition process_response_for_query (q : RunningQuery) (response : AscPullAck) (l : BootstrapLogic)
    : run (bool * BootstrapLogic) :=
  match apa_pull_type response with
  | AckBlocks blocks => process_blocks_ack q blocks l
  | AckAccountInfo info => process_account_ack q info l
  | AckFrontiers frontiers =>
      '(ok, p) ← fp_process q frontiers (bsl_frontiers_processor l);
      Finished (ok : bool, with_frontiers p l)
  end.

(** The query is taken even if the response turns out to be of another type. *)
Definition process_response (response : AscPullAck) (channel_id : Z) (l : BootstrapLogic)
    : run (result ProcessError RunningQuery * BootstrapLogic) :=
  '(query, c) ← unwrap (rqc_remove (apa_id response) (bsl_running_queries l));
  let l := with_running_queries c l in
  match query with
  | None => Finished (Err NoRunningQueryFound, l)
  | Some q =>
      if negb (is_valid_response_type response q) then Finished (Err InvalidResponseType, l)
      else
        '(ok, l) ← process_response_for_query q response (with_scoring (received_message channel_id (bsl_scoring l)) l);
        Finished (if ok : bool then Ok q else Err InvalidResponse, l)
  end.

Definition frontiers_processed (outdated : OutdatedAccounts) (l : BootstrapLogic) : run BootstrapLogic :=
  let p := bsl_frontiers_processor l in
  '(last, c) ← prioritize_outdated (oa_accounts outdated) (fp_last_outdated_accounts p) (bsl_candidate_accounts l);
  Finished (with_candidates c (with_frontiers
    (mkFrontiersProcessor (fp_frontier_scan p) (fp_frontiers_to_check p) (fp_frontier_checker_overfill p) last) l)).

(** ** requesters *)

(** [QuerySender::send] of a message that was sent *)
Definition query_sent (id : Z) (now : Timestamp) (request_timeout : Duration) (spec : AscPullQuerySpec) (l : BootstrapLogic)
    : option BootstrapLogic :=
  let q := query_from_spec id spec now request_timeout in
  let q := mkRunningQuery (rq_id q) (rq_source q) (rq_query_type q) (rq_start q) (rq_account q) (rq_hash q) (rq_count q) (rq_sent q)
             (now + request_timeout) in
  c ← rqc_insert q (bsl_running_queries l);
  let l := with_running_queries c l in
  Some (if qs_cooldown_account spec
        then with_candidates (set_last_request (qs_account spec) now (bsl_candidate_accounts l)) l
        else l).

Inductive PullType := Optimistic | Safe.

Record PullStart := mkPullStart {
  ps_start : u256;
  ps_start_type : HashType;
  ps_hash : BlockHash;
}.

Definition pull_start_account (account : Account) : PullStart := mkPullStart account HashAccount 0.
Definition pull_start_block (start : BlockHash) : PullStart := mkPullStart start HashBlock start.

Definition pull_start_new (pull_type : PullType) (account : Account) (head confirmed_frontier : BlockHash) : PullStart :=
  if head =? 0 then pull_start_account account
  else match pull_type with
       | Optimistic => pull_start_block head
       | Safe => if confirmed_frontier =? 0 then pull_start_account account else pull_start_block confirmed_frontier
       end.

Definition pull_account_info (s : LmdbStore) (account : Account) : BlockHash * BlockHash :=
  (default 0 (ai_head <$> any_get_account s account),
   default 0 (ch_frontier <$> confirmed_get_conf_info s account)).

(** [as u8]: truncates and saturates. *)
Definition f64_as_u8 (f : Priority) : Z := Z.min 255 (f64_as_usize f).

(** [f64::from(priority) as u8], at least 2, at most [MAX_BLOCKS] *)
Definition pull_count (max_pull_count : Z) (priority : Priority) : Z :=
  Z.min (Z.max 2 (Z.min (f64_as_u8 priority) (Z.of_nat MAX_BLOCKS))) max_pull_count.

Definition next_priority_query (s : LmdbStore) (pull_type : PullType) (max_pull_count query_id channel : Z) (now : Timestamp)
    (l : BootstrapLogic) : option (option AscPullQuerySpec) :=
  next ← next_priority now l;
  Some (if prr_account next =? 0 then None
        else
          let '(head, confirmed_frontier) := pull_account_info s (prr_account next) in
          let start := pull_start_new pull_type (prr_account next) head confirmed_frontier in
          Some (mkAscPullQuerySpec query_id channel
                  (ReqBlocks (mkBlocksReqPayload (ps_start_type start) (ps_start start) (pull_count max_pull_count (prr_priority next))))
                  (prr_account next) (ps_hash start) (prr_fails next =? 0)%nat)).

(** The request of the frontier scan *)
Definition frontier_query (query_id channel : Z) (start : Account) : AscPullQuerySpec :=
  mkAscPullQuerySpec query_id channel (ReqFrontiers (mkFrontiersReqPayload start (Z.of_nat MAX_FRONTIERS))) 0 0 false.

(** [QuerySender::send]; [id] is the random number, [sent] says if the channel
    took the message *)
Definition send_query (sent : bool) (id : Z) (now : Timestamp) (request_timeout : Duration) (spec : AscPullQuerySpec) (l : BootstrapLogic)
    : option BootstrapLogic :=
  if sent then query_sent id now request_timeout spec l else Some l.

(** [SendQueriesPromise::poll] with the requester that made the query under the
    same lock; [None] is [PollResult::Wait]. *)
Definition send_queries (query : option (option AscPullQuerySpec)) (sent : bool) (id : Z) (now : Timestamp) (request_timeout : Duration)
    (l : BootstrapLogic) : option BootstrapLogic :=
  query ← query;
  match query with
  | Some spec => send_query sent id now request_timeout spec l
  | None => Some l
  end.

(** [FrontierRequester::poll] once it has a channel *)
Definition next_frontier_query (query_id channel : Z) (now : Timestamp) (l : BootstrapLogic) : option (option AscPullQuerySpec * BootstrapLogic) :=
  let p := bsl_frontiers_processor l in
  '(start, scan) ← scan_next now (fp_frontier_scan p);
  let l := with_frontiers (mkFrontiersProcessor scan (fp_frontiers_to_check p) (fp_frontier_checker_overfill p)
                             (fp_last_outdated_accounts p)) l in
  Some (if start =? 0 then None else Some (frontier_query query_id channel start), l).

(** [ChannelWaiter::poll] once the limits allow a request *)
Definition wait_channel (shuffled : list Z) (l : BootstrapLogic) : option Z * BootstrapLogic :=
  let '(channel, p) := scoring_channel shuffled (bsl_scoring l) in (channel, with_scoring p l).

(** ** bootstrapper.rs *)

Definition bootstrap_initialize (genesis_account : Account) (l : BootstrapLogic) : run BootstrapLogic :=
  '(_, c) ← priority_up genesis_account (bsl_candidate_accounts l);
  Finished (with_candidates c l).

Fixpoint unblock_batch (accounts : list Account) (l : BootstrapLogic) : run BootstrapLogic :=
  match accounts with
  | [] => Finished l
  | account :: accounts =>
      '(_, c) ← candidates_unblock account None (bsl_candidate_accounts l);
      unblock_batch accounts (with_candidates c l)
  end.

Definition bootstrap_clean_up_dead_channels (dead_channel_ids : list Z) (l : BootstrapLogic) : BootstrapLogic :=
  with_scoring (scoring_clean_up_dead_channels dead_channel_ids (bsl_scoring l)) l.

(** ** cleanup.rs *)

Fixpoint erase_timed_out_requests (fuel : nat) (now : Timestamp) (c : RunningQueryContainer) : run RunningQueryContainer :=
  match fuel with
  | O => Running
  | S fuel =>
      front ← unwrap (rqc_front c);
      match front with
      | None => Finished c
      | Some q =>
          if rq_response_cutoff q <? now then
            '(_, c) ← unwrap (rqc_pop_front c);
            erase_timed_out_requests fuel now c
          else Finished c
      end
  end.

Definition bootstrap_cleanup (now : Timestamp) (l : BootstrapLogic) : run BootstrapLogic :=
  let l := with_scoring (scoring_decay (bsl_scoring l)) l in
  '(_, c) ← decay_blocking now (bsl_candidate_accounts l);
  queries ← erase_timed_out_requests (S (rqc_len (bsl_running_queries l))) now (bsl_running_queries l);
  '(_, c) ← sync_dependencies c;
  Finished (with_running_queries queries (with_candidates c l)).

(** ** block_inspector.rs, response_processor.rs *)

Inductive BlockSource :=
  | SrcUnknown | SrcLive | SrcLiveOriginator | SrcBootstrap | SrcBootstrapLegacy | SrcUnchecked | SrcLocal | SrcForced | SrcElection.

#[global] Instance BlockSource_eq_dec : EqDecision BlockSource.
Proof using. solve_decision. Defined.

Record ProcessedResult := mkProcessedResult {
  pcr_block : Block;
  pcr_source : BlockSource;
  pcr_status : result BlockError ();
  pcr_saved_block : option SavedBlock;
}.

(** Blocks are handed to the block processor until its queue is full: [room n]
    is the answer to the [n]th push. *)
Fixpoint enqueue_next_blocks (fuel : nat) (room : nat -> bool) (n : nat) (q : BlockQueue) : run (list Block * BlockQueue) :=
  match fuel with
  | O => Running
  | S fuel =>
      next ← unwrap (next_to_process q);
      match next with
      | None => Finished ([], q)
      | Some (block, _) =>
          if room n then
            '(blocks, q) ← enqueue_next_blocks fuel room (S n) (enqueued_for_processing (block_hash block) q);
            Finished (block :: blocks, q)
          else Finished ([], q)
      end
  end.

Definition enqueue_blocks (room : nat -> bool) (l : BootstrapLogic) : run (list Block * BootstrapLogic) :=
  '(blocks, q) ← enqueue_next_blocks (S (size (bq_waiting (bsl_block_queue l)))) room 0 (bsl_block_queue l);
  Finished (blocks, with_block_queue q l).

(** [get_account], on the ledger that [any] reads *)
Definition inspected_account (s : LmdbStore) (r : ProcessedResult) : Account :=
  match pcr_saved_block r with
  | Some b => sv_account b
  | None =>
      match account_field (pcr_block r) with
      | Some account => account
      | None => default 0 (block_account s (previous (pcr_block r)))
      end
  end.

(** A block that was accepted, but not from live traffic *)
Definition inspect_progress (hash : BlockHash) (saved_block : SavedBlock) (c : CandidateAccounts) : run CandidateAccounts :=
  let account := sv_account saved_block in
  '(_, c) ← candidates_unblock account None c;
  '(_, c) ← priority_up account c;
  if sv_is_send saved_block then
    destination ← unwrap (sv_destination saved_block);
    '(unblocked, c) ← candidates_unblock destination (Some hash) c;
    if unblocked : bool then Finished c else '(_, c) ← priority_up destination c; Finished c
  else Finished c.

Definition inspect_ok (r : ProcessedResult) (l : BootstrapLogic) : run BootstrapLogic :=
  c ← (if bool_decide (pcr_source r = SrcLive) then Finished (bsl_candidate_accounts l)
       else saved_block ← unwrap (pcr_saved_block r); inspect_progress (block_hash (pcr_block r)) saved_block (bsl_candidate_accounts l));
  '(info, q) ← unwrap (bq_processed (block_hash (pcr_block r)) (bsl_block_queue l));
  Finished (with_block_queue q (with_candidates
    (match bi_account info with
     | Some account => if bi_was_last info then reset_last_request account c else c
     | None => c
     end) l)).

Definition inspect_error (error : BlockError) (r : ProcessedResult) (account : Account) (now : Timestamp) (l : BootstrapLogic)
    : run BootstrapLogic :=
  '(_, q) ← unwrap (processing_failed (block_hash (pcr_block r)) (bsl_block_queue l));
  let c := bsl_candidate_accounts l in
  c ← match error with
      | GapSource =>
          let source := source_or_link (pcr_block r) in
          if bool_decide (pcr_source r = SrcBootstrap) && negb (account =? 0) && negb (source =? 0)
          then '(_, c) ← candidates_block account source now c; Finished c
          else Finished c
      | GapPrevious =>
          if bool_decide (pcr_source r = SrcLive) && negb (priority_half_full c) && negb (blocked_half_full c) then
            match pcr_block r with
            | State _ => account ← unwrap (account_field (pcr_block r)); '(_, c) ← priority_up account c; Finished c
            | _ => Finished c
            end
          else Finished c
      | GapEpochOpenPending => '(_, c) ← priority_erase account c; Finished c
      | _ => Finished c
      end;
  Finished (with_block_queue q (with_candidates c l)).

Definition inspect_block (r : ProcessedResult) (account : Account) (now : Timestamp) (l : BootstrapLogic) : run BootstrapLogic :=
  match pcr_status r with
  | Ok _ => inspect_ok r l
  | Err error => inspect_error error r account now l
  end.

Fixpoint inspect_batch (s : LmdbStore) (now : nat -> Timestamp) (i : nat) (batch : list ProcessedResult) (l : BootstrapLogic)
    : run BootstrapLogic :=
  match batch with
  | [] => Finished l
  | r :: batch => l ← inspect_block r (inspected_account s r) (now i) l; inspect_batch s now (S i) batch l
  end.

Definition inspect (s : LmdbStore) (now : nat -> Timestamp) (room : nat -> bool) (batch : list ProcessedResult) (l : BootstrapLogic)
    : run (list Block * BootstrapLogic) :=
  l ← inspect_batch s now 0 batch l;
  enqueue_blocks room l.

(** [ResponseProcessor::process]: the blocks for the block processor and the
    frontiers for the thread pool. *)
Definition response_process (room : nat -> bool) (overfill : bool) (response : AscPullAck) (channel_id : Z) (l : BootstrapLogic)
    : run (result ProcessError RunningQuery * list Block * list (list Frontier) * BootstrapLogic) :=
  '(answer, l) ← process_response response channel_id l;
  match answer with
  | Err e => Finished (Err e, [], [], l)
  | Ok q =>
      '(blocks, l) ← enqueue_blocks room l;
      let '(frontiers, p) := enqueue_frontiers overfill (bsl_frontiers_processor l) in
      Finished (Ok q, blocks, frontiers, with_frontiers p l)
  end.
End bootstrap.
