(* ===== verification/BootstrapServer.v ===== *)
(** * What bootstrapping reads from the ledger
    (node/src/bootstrap: bootstrap_server.rs, response_processor)

    The server answers requests for blocks, account infos and frontiers from
    its ledger. The frontier checker compares the frontiers of a peer with the
    node's own ledger; it reads the tables in key order and takes up to ten
    steps before it looks up a key again. *)

From S2P Require Import Prelude Types Blocks Store Sets Election Collections Messages Bootstrap.

(** ** Tables in key order *)

Definition accounts_range (s : LmdbStore) (start : Account) : list (Account * AccountInfo) :=
  filter (fun e => start <= e.1) (btm_entries Z.compare (st_account s)).

(** ** bootstrap_server.rs *)

Definition verify_request (message : AscPullReq) : bool :=
  match apr_req_type message with
  | ReqBlocks i => (0 <? brq_count i) && (brq_count i <=? Z.of_nat MAX_BLOCKS)
  | ReqAccountInfo i => negb (u256_is_zero (arq_target i))
  | ReqFrontiers i => (0 <? frq_count i) && (frq_count i <=? Z.of_nat MAX_FRONTIERS)
  end.

(** The loop of [prepare_blocks] *)
Fixpoint prepare_loop (fuel : nat) (s : LmdbStore) (count : nat) (current : option SavedBlock) (blocks : list Block)
    : run (list Block) :=
  match fuel with
  | O => Running
  | S fuel =>
      match current with
      | None => Finished blocks
      | Some c =>
          let successor := default 0 (block_successor s (block_hash c)) in
          let blocks := blocks ++ [sv_block c] in
          if (length blocks =? count)%nat then Finished blocks
          else prepare_loop fuel s count (any_get_block s successor) blocks
      end
  end.

Definition prepare_blocks (s : LmdbStore) (start_block : BlockHash) (count : nat) : run (list Block) :=
  if u256_is_zero start_block then Finished []
  else prepare_loop (S (S (size (st_block s)))) s count (any_get_block s start_block) [].

Definition server_prepare_response (s : LmdbStore) (id : Z) (start_block : BlockHash) (count : nat) : run AscPullAck :=
  blocks ← prepare_blocks s start_block count;
  payload ← unwrap (blocks_ack_new blocks);
  Finished (mkAscPullAck id (AckBlocks payload)).

Definition prepare_empty_blocks_response (id : Z) : AscPullAck := mkAscPullAck id (AckBlocks (mkBlocksAckPayload [])).

Definition process_blocks (s : LmdbStore) (id : Z) (request : BlocksReqPayload) : run AscPullAck :=
  let count := Z.to_nat (Z.min (brq_count request) (Z.of_nat MAX_BLOCKS)) in
  match brq_start_type request with
  | HashAccount =>
      match any_get_account s (brq_start request) with
      | Some info => server_prepare_response s id (ai_open_block info) count
      | None => Finished (prepare_empty_blocks_response id)
      end
  | HashBlock =>
      if any_block_exists s (brq_start request) then server_prepare_response s id (brq_start request) count
      else Finished (prepare_empty_blocks_response id)
  end.

Definition process_account (s : LmdbStore) (id : Z) (request : AccountInfoReqPayload) : AscPullAck :=
  let target :=
    match arq_target_type request with
    | HashAccount => arq_target request
    | HashBlock => default 0 (block_account s (arq_target request))
    end in
  mkAscPullAck id (AckAccountInfo
    match any_get_account s target with
    | Some info =>
        let conf_info := default (mkConfirmationHeightInfo 0 0) (confirmed_get_conf_info s target) in
        mkAccountInfoAckPayload target (ai_open_block info) (ai_head info) (ai_block_count info) (ch_frontier conf_info)
          (ch_height conf_info)
    | None => mkAccountInfoAckPayload target 0 0 0 0 0
    end).

Definition process_frontiers (s : LmdbStore) (id : Z) (request : FrontiersReqPayload) : AscPullAck :=
  mkAscPullAck id (AckFrontiers
    (take (Z.to_nat (frq_count request))
       ((fun '(account, info) => mkFrontier account (ai_head info)) <$> accounts_range s (frq_start request)))).

(** [BootstrapResponderImpl::process] *)
Definition server_process (s : LmdbStore) (message : AscPullReq) : run AscPullAck :=
  match apr_req_type message with
  | ReqBlocks blocks => process_blocks s (apr_id message) blocks
  | ReqAccountInfo account => Finished (process_account s (apr_id message) account)
  | ReqFrontiers frontiers => Finished (process_frontiers s (apr_id message) frontiers)
  end.

(** ** database_crawler.rs *)

Definition SEQUENTIAL_ATTEMPTS : nat := 10.

Section crawler.
Context {V : Type} (source : Account -> list (Account * V)).

(** The iterator is the entries it has not yielded yet. *)
Record DatabaseCrawler := mkDatabaseCrawler {
  cr_it : option (list (Account * V));
  cr_current : option (Account * V);
}.

Definition crawler_new : DatabaseCrawler := mkDatabaseCrawler None None.

Definition crawler_seek (target : Account) : DatabaseCrawler :=
  match source target with
  | [] => mkDatabaseCrawler None None
  | e :: it => mkDatabaseCrawler (Some it) (Some e)
  end.

Definition target_reached (target : Account) (current : option (Account * V)) : bool :=
  match current with
  | Some (account, _) => target <=? account
  | None => false
  end.

(** [advance_sequentially], with the attempts that are left *)
Fixpoint advance_sequentially (attempts : nat) (target : Account) (it : list (Account * V)) (current : option (Account * V))
    : bool * DatabaseCrawler :=
  match attempts with
  | O => (false, mkDatabaseCrawler (Some it) current)
  | S attempts =>
      match it with
      | [] => (true, mkDatabaseCrawler None None)
      | e :: it =>
          if target_reached target (Some e) then (true, mkDatabaseCrawler (Some it) (Some e))
          else advance_sequentially attempts target it (Some e)
      end
  end.

Definition crawler_advance_to (target : Account) (c : DatabaseCrawler) : DatabaseCrawler :=
  if target_reached target (cr_current c) then c
  else
    match cr_it c with
    | None => crawler_seek target
    | Some it =>
        let '(success, c) := advance_sequentially SEQUENTIAL_ATTEMPTS target it (cr_current c) in
        if success : bool then c else crawler_seek target
    end.
End crawler.

Arguments DatabaseCrawler : clear implicits.

(** [PendingCrawlSource] *)
Definition pending_source (s : LmdbStore) (start : Account) : list (Account * PendingInfo) :=
  (fun '(k, v) => (pk_receiving_account k, v)) <$> pending_range s (mkPendingKey start 0).

(** ** frontier_checker.rs *)

Inductive FrontierCheckResult := UnknownAccount | UpToDate | Outdated | HasPending.

Record FrontierChecker := mkFrontierChecker {
  fc_account_crawler : DatabaseCrawler AccountInfo;
  fc_pending_crawler : DatabaseCrawler PendingInfo;
}.

Definition check_frontier (s : LmdbStore) (f : Frontier) (c : FrontierChecker) : FrontierCheckResult * FrontierChecker :=
  let c := mkFrontierChecker (crawler_advance_to (accounts_range s) (frontier_account f) (fc_account_crawler c))
             (crawler_advance_to (pending_source s) (frontier_account f) (fc_pending_crawler c)) in
  let pending :=
    match cr_current (fc_pending_crawler c) with
    | Some (account, _) => if account =? frontier_account f then HasPending else UnknownAccount
    | None => UnknownAccount
    end in
  (match cr_current (fc_account_crawler c) with
   | Some (account, info) =>
       if account =? frontier_account f then
         if negb (ai_head info =? frontier_hash f) && negb (any_block_exists s (frontier_hash f)) then Outdated else UpToDate
       else pending
   | None => pending
   end, c).

Fixpoint check_frontiers (s : LmdbStore) (frontiers : list Frontier) (c : FrontierChecker) (o : OutdatedAccounts) : OutdatedAccounts :=
  match frontiers with
  | [] => o
  | f :: frontiers =>
      let '(r, c) := check_frontier s f c in
      check_frontiers s frontiers c
        (match r with
         | Outdated => mkOutdatedAccounts (oa_accounts o ++ [frontier_account f]) (S (oa_outdated o)) (oa_pending o) (oa_frontiers_received o)
         | HasPending => mkOutdatedAccounts (oa_accounts o ++ [frontier_account f]) (oa_outdated o) (S (oa_pending o)) (oa_frontiers_received o)
         | UnknownAccount | UpToDate => o
         end)
  end.

Definition get_outdated_accounts (s : LmdbStore) (frontiers : list Frontier) : OutdatedAccounts :=
  match frontiers with
  | [] => mkOutdatedAccounts [] 0 0 0
  | first :: _ =>
      check_frontiers s frontiers
        (mkFrontierChecker (crawler_seek (accounts_range s) (frontier_account first)) (crawler_seek (pending_source s) (frontier_account first)))
        (mkOutdatedAccounts [] 0 0 (length frontiers))
  end.
