(* ===== verification/BootstrapTheorems.v ===== *)
(** * The state of bootstrapping is consistent

    Invariants of the containers of Bootstrap.v: the running queries with
    their indexes, the queue of blocks, and the ranges of the frontier scan. *)

From S2P Require Import Prelude Types Blocks Store Sets Validation Election Collections Messages.
From S2P Require Import Floats Candidates OnlineReps Bootstrap.

(** ** Running queries *)

Record queries_ok (c : RunningQueryContainer) : Prop := {
  qk_account : index_ok rq_account (rqc_by_id c) (rqc_by_account c);
  qk_hash : index_ok rq_hash (rqc_by_id c) (rqc_by_hash c);
  qk_nodup : NoDup (rqc_sequenced c);
  qk_sequenced : forall id, id ∈ rqc_sequenced c <-> is_Some (rqc_by_id c !! id);
  qk_id : forall id q, rqc_by_id c !! id = Some q -> rq_id q = id;
}.

Lemma queries_default_ok : queries_ok rqc_default.
Proof.
  split; cbn; [apply index_empty_ok|apply index_empty_ok|constructor| |done].
  intros id. rewrite lookup_empty, elem_of_nil. split; [done|by intros []].
Qed.

(** The indexes without a query. *)
Lemma queries_take c id q :
  queries_ok c -> rqc_by_id c !! id = Some q ->
  exists by_account by_hash, index_take (rq_account q) id (rqc_by_account c) = Some by_account /\
    index_take (rq_hash q) id (rqc_by_hash c) = Some by_hash /\
    forall sequenced, NoDup sequenced -> (forall i, i ∈ sequenced <-> i ∈ rqc_sequenced c /\ i <> id) ->
      queries_ok (mkRunningQueryContainer (delete id (rqc_by_id c)) by_account by_hash sequenced).
Proof.
  intros [H1 H2 H3 H4 H5] E. destruct (index_take_ok rq_account _ _ _ _ H1 E) as (ba & Ea & Ha).
  destruct (index_take_ok rq_hash _ _ _ _ H2 E) as (bh & Eh & Hh). exists ba, bh. split; [done|]. split; [done|].
  intros seq Hnd Hs. split; cbn; try done.
  - intros i. rewrite Hs, H4, lookup_delete_is_Some. naive_solver.
  - intros i q' [_ Ei]%lookup_delete_Some. by apply H5.
Qed.

Lemma filtered_sequence c id :
  queries_ok c -> NoDup (filter (fun i => i <> id) (rqc_sequenced c)) /\
  forall i, i ∈ filter (fun i => i <> id) (rqc_sequenced c) <-> i ∈ rqc_sequenced c /\ i <> id.
Proof.
  intros Hok. split; [by apply NoDup_filter, Hok|]. intros i. rewrite list_elem_of_filter. tauto.
Qed.

Lemma rqc_remove_ok c id :
  queries_ok c -> exists c', rqc_remove id c = Some (rqc_by_id c !! id, c') /\ queries_ok c' /\ rqc_by_id c' = delete id (rqc_by_id c).
Proof.
  intros Hok. unfold rqc_remove, remove_internal. destruct (rqc_by_id c !! id) as [q|] eqn:E.
  - destruct (queries_take c id q Hok E) as (ba & bh & -> & -> & Hc). destruct (filtered_sequence c id Hok) as [F1 F2]. cbn.
    eexists. split; [done|]. split; [by apply Hc|done].
  - exists c. split; [done|]. split; [done|]. by rewrite delete_id.
Qed.

Lemma rqc_insert_ok c q :
  queries_ok c -> exists c', rqc_insert q c = Some c' /\ queries_ok c' /\ rqc_by_id c' = <[rq_id q := q]> (rqc_by_id c) /\
    (rqc_len c' <= S (rqc_len c))%nat.
Proof.
  intros Hok. set (id := rq_id q).
  assert (Hbase : exists c1, queries_ok c1 /\ rqc_by_id c1 = delete id (rqc_by_id c) /\ (rqc_len c1 <= rqc_len c)%nat /\
    rqc_insert q c = Some (mkRunningQueryContainer (<[id := q]> (rqc_by_id c)) (index_push (rq_account q) id (rqc_by_account c1))
          (index_push (rq_hash q) id (rqc_by_hash c1)) (rqc_sequenced c1 ++ [id]))).
  { unfold rqc_insert, remove_internal. fold id. destruct (rqc_by_id c !! id) as [old|] eqn:E.
    - rewrite (qk_id _ Hok _ _ E). destruct (queries_take c id old Hok E) as (ba & bh & -> & -> & Hc).
      destruct (filtered_sequence c id Hok) as [F1 F2]. eexists. split; [by apply Hc|]. split; [done|]. cbn. split; [|done].
      apply length_filter.
    - exists c. split; [done|]. split; [by rewrite delete_id|]. done. }
  destruct Hbase as (c1 & [H1 H2 H3 H4 H5] & Eb & Hl & ->). eexists. split; [done|]. cbn. split; [|split; [done|]].
  - assert (Hn : rqc_by_id c1 !! id = None) by (rewrite Eb; apply lookup_delete_eq).
    assert (Hi : <[id := q]> (rqc_by_id c) = <[id := q]> (rqc_by_id c1)) by (by rewrite Eb, insert_delete_eq). rewrite Hi.
    split; cbn; [by apply (index_push_ok rq_account)|by apply (index_push_ok rq_hash)| | |].
    + apply NoDup_app. split; [done|]. split; [|apply NoDup_singleton]. intros x Hx ->%list_elem_of_singleton.
      apply H4 in Hx as [y Hy]. congruence.
    + intros i. rewrite elem_of_app, list_elem_of_singleton, H4, lookup_insert_is_Some. destruct (decide (id = i)) as [->|]; [tauto|].
      split; [intros [?| ->]; tauto|tauto].
    + intros i q' [[<- <-]|[_ Ei]]%lookup_insert_Some; [done|by apply H5].
  - unfold rqc_len in *. cbn. rewrite length_app. cbn. lia.
Qed.

Lemma rqc_front_ok c : queries_ok c -> exists r, rqc_front c = Some r /\ (r = None <-> rqc_sequenced c = []).
Proof.
  intros [H1 H2 H3 H4 H5]. unfold rqc_front. destruct (rqc_sequenced c) as [|id l] eqn:E; [by exists None|].
  destruct (proj1 (H4 id) ltac:(by left)) as [q ->]. by exists (Some q).
Qed.

Lemma rqc_pop_front_ok c :
  queries_ok c -> rqc_sequenced c <> [] ->
  exists q c', rqc_pop_front c = Some (Some q, c') /\ queries_ok c' /\ rqc_by_id c' ⊆ rqc_by_id c /\ rqc_len c = S (rqc_len c').
Proof.
  intros Hok Hne. unfold rqc_pop_front, rqc_len. destruct (rqc_sequenced c) as [|id l] eqn:E; [done|].
  destruct (proj1 (qk_sequenced _ Hok id)) as [q Eq]; [rewrite E; by left|]. rewrite Eq. cbn [mbind option_bind].
  destruct (queries_take c id q Hok Eq) as (ba & bh & -> & -> & Hc). exists q. eexists. split; [done|].
  pose proof (qk_nodup _ Hok) as Hnd. rewrite E in Hnd. apply NoDup_cons in Hnd as [Hn Hnd]. split; [|split; [|done]].
  - apply Hc; [done|]. intros i. rewrite E, elem_of_cons. split; [|tauto]. intros Hi. split; [by right|]. by intros ->.
  - apply delete_subseteq.
Qed.

Lemma erase_timed_out_ok now fuel c :
  queries_ok c -> (rqc_len c < fuel)%nat ->
  exists c', erase_timed_out_requests fuel now c = Finished c' /\ queries_ok c' /\ rqc_by_id c' ⊆ rqc_by_id c.
Proof.
  revert c. induction fuel as [|fuel IH]; intros c Hok Hf; [lia|]. cbn [erase_timed_out_requests].
  destruct (rqc_front_ok c Hok) as (r & -> & Hr). cbn [unwrap mbind run_bind]. destruct r as [q|]; [|by exists c].
  destruct (rq_response_cutoff q <? now); [|by exists c].
  destruct (rqc_pop_front_ok c Hok) as (q' & c1 & -> & Hok1 & Hs & Hl); [intros E; by apply Hr in E|]. cbn [unwrap mbind run_bind].
  destruct (IH c1 Hok1 ltac:(lia)) as (c' & E & Hok' & Hs'). exists c'. split; [done|]. split; [done|]. by etrans.
Qed.

(** Counting the queries of an account or a hash never panics. *)
Lemma iter_ids_ok {K} `{Countable K} (key : RunningQuery -> K) c (idx : gmap K (list Z)) k :
  index_ok key (rqc_by_id c) idx -> exists l, iter_ids (idx !! k) c = Some l /\
    forall q, q ∈ l <-> exists id, rqc_by_id c !! id = Some q /\ key q = k.
Proof.
  intros Hi. destruct (Hi k) as (_ & _ & Hk). unfold iter_ids.
  destruct (mapM_is_Some_2 (fun id => rqc_by_id c !! id) (default [] (idx !! k))) as [l E].
  { apply Forall_forall. intros id (q & Eq & _)%Hk. by exists q. }
  exists l. split; [done|]. apply mapM_Some_1 in E. intros q. split.
  - intros (i & Ei)%list_elem_of_lookup. destruct (Forall2_lookup_r _ _ _ _ _ E Ei) as (id & Ed & Eq).
    apply list_elem_of_lookup_2, Hk in Ed as (q' & Eq' & Hq). exists id. assert (q' = q) as -> by congruence. done.
  - intros (id & Eq & Hq). assert (Hin : id ∈ default [] (idx !! k)) by (apply Hk; eauto).
    apply list_elem_of_lookup in Hin as (i & Ei). destruct (Forall2_lookup_l _ _ _ _ _ E Ei) as (q' & Ei' & Eq').
    assert (q' = q) as -> by congruence. by eapply list_elem_of_lookup_2.
Qed.

Lemma count_source_zero source l : count_source source l = O <-> forall q, q ∈ l -> rq_source q <> source.
Proof.
  unfold count_source. rewrite length_zero_iff_nil. split.
  - intros E q Hq Hs. assert (q ∈ filter (fun q => rq_source q = source) l) as Hf by (by apply list_elem_of_filter).
    rewrite E in Hf. by apply elem_of_nil in Hf.
  - intros Hn. destruct (filter _ l) as [|q l'] eqn:E; [done|]. exfalso.
    assert (q ∈ filter (fun q => rq_source q = source) l) as [Hs Hq]%list_elem_of_filter by (rewrite E; by left). by apply (Hn q).
Qed.

(** What the two filters of the requesters mean. *)
Lemma not_busy_ok l a :
  queries_ok (bsl_running_queries l) ->
  not_busy l a = true <-> bq_accounts (bsl_block_queue l) !! a = None /\
    forall id q, rqc_by_id (bsl_running_queries l) !! id = Some q -> rq_account q = a -> rq_source q <> SourcePriority.
Proof.
  intros Hok. unfold not_busy, contains_account, count_by_account, iter_account.
  destruct (iter_ids_ok rq_account _ _ a (qk_account _ Hok)) as (qs & -> & Hq). cbn.
  rewrite andb_true_iff, negb_true_iff, bool_decide_eq_false, bool_decide_eq_true, <- eq_None_not_Some.
  assert (Some (count_source SourcePriority qs) = Some O <-> forall q, q ∈ qs -> rq_source q <> SourcePriority) as ->.
  { rewrite <- count_source_zero. split; congruence. }
  setoid_rewrite Hq. naive_solver.
Qed.

Lemma not_asked_ok l h :
  queries_ok (bsl_running_queries l) ->
  not_asked l h = true <-> forall id q, rqc_by_id (bsl_running_queries l) !! id = Some q -> rq_hash q = h -> rq_source q <> SourceDependencies.
Proof.
  intros Hok. unfold not_asked, iter_hash. destruct (iter_ids_ok rq_hash _ _ h (qk_hash _ Hok)) as (qs & -> & Hq). cbn.
  rewrite bool_decide_eq_true.
  assert (Some (count_source SourceDependencies qs) = Some O <-> forall q, q ∈ qs -> rq_source q <> SourceDependencies) as ->.
  { rewrite <- count_source_zero. split; congruence. }
  setoid_rewrite Hq. naive_solver.
Qed.

(** ** The queue of blocks *)

Definition chained (blocks : list Block) : Prop :=
  match blocks with
  | [] => False
  | b :: rest => blocks_chain (block_hash b) rest = true
  end.

Lemma chained_tail b b' blocks : chained (b :: b' :: blocks) -> previous b' = block_hash b /\ chained (b' :: blocks).
Proof. cbn. destruct (Z.eqb_spec (previous b') (block_hash b)); done. Qed.

(** An account whose front block is the hash. *)
Definition fronts (accounts : gmap Account AccountBlocks) (m : gmap BlockHash Account) : Prop :=
  forall h a, m !! h = Some a -> exists d, accounts !! a = Some d /\ front_hash d = Some h.

Definition total_blocks (accounts : gmap Account AccountBlocks) : Z := map_sum (fun d => Z.of_nat (length (abk_blocks d))) accounts.

Record queue_ok (q : BlockQueue) : Prop := {
  bo_accounts : forall a d, bq_accounts q !! a = Some d -> abk_account d = a /\ chained (abk_blocks d);
  bo_waiting : fronts (bq_accounts q) (bq_waiting q);
  bo_processor : fronts (bq_accounts q) (bq_in_block_processor q);
  bo_apart : forall h a, bq_waiting q !! h = Some a -> bq_in_block_processor q !! h <> Some a;
  bo_blocks : bq_blocks q = wrap 64 (total_blocks (bq_accounts q));
  bo_size : (size (bq_accounts q) <= bq_max_accounts q)%nat;
}.

Lemma queue_new_ok max : queue_ok (block_queue_new max).
Proof.
  split; cbn; try done. rewrite map_size_empty. lia.
Qed.

(** Entries of other accounts, when one account changes. *)
Lemma fronts_other accounts m a x :
  fronts accounts m -> (forall h, m !! h <> Some a) -> fronts (partial_alter (fun _ => x) a accounts) m.
Proof.
  intros Hf Hn h b E. destruct (Hf h b E) as (d & Ed & Hd). exists d. split; [|done].
  rewrite lookup_partial_alter_ne; [done|]. intros ->. by apply (Hn h).
Qed.

Lemma fronts_sub accounts m m' : fronts accounts m -> m' ⊆ m -> fronts accounts m'.
Proof. intros Hf Hs h a E. apply Hf. by eapply lookup_weaken. Qed.

(** Without its front block an account is not in the map. *)
Lemma fronts_gone accounts m a d h0 :
  fronts accounts m -> accounts !! a = Some d -> front_hash d = Some h0 -> m !! h0 <> Some a -> forall h, m !! h <> Some a.
Proof.
  intros Hf Ed Hh Hn h E. destruct (Hf h a E) as (d' & Ed' & Hh'). assert (d' = d) as -> by congruence.
  assert (h = h0) as -> by congruence. done.
Qed.

Lemma wrap_sub_l w a b : wrap w (wrap w a - b) = wrap w (a - b).
Proof. unfold wrap. by rewrite Zminus_mod_idemp_l. Qed.

Lemma wrap_add_sub w a b d : wrap w (wrap w a + b - d) = wrap w (a + b - d).
Proof. unfold wrap. by rewrite <- Z.add_sub_assoc, Zplus_mod_idemp_l, Z.add_sub_assoc. Qed.

Lemma total_blocks_insert accounts a d :
  total_blocks (<[a := d]> accounts) =
    total_blocks accounts - default 0 ((fun d => Z.of_nat (length (abk_blocks d))) <$> accounts !! a) + Z.of_nat (length (abk_blocks d)).
Proof. unfold total_blocks. by rewrite map_sum_insert. Qed.

Lemma total_blocks_delete accounts a d :
  accounts !! a = Some d -> total_blocks (delete a accounts) = total_blocks accounts - Z.of_nat (length (abk_blocks d)).
Proof. intros E. unfold total_blocks. rewrite (map_sum_delete _ _ _ _ E). lia. Qed.

(** The front of an account leaves both maps when its blocks are replaced. *)
Lemma front_removed q a old m :
  queue_ok q -> bq_accounts q !! a = Some old -> m = bq_waiting q \/ m = bq_in_block_processor q ->
  forall h, from_option (fun h => delete h m) m (front_hash old) !! h <> Some a.
Proof.
  intros Hok E Hm. assert (Hf : fronts (bq_accounts q) m) by (destruct Hm as [-> | ->]; apply Hok).
  destruct (front_hash old) as [h0|] eqn:Eh; cbn.
  - apply (fronts_gone (bq_accounts q) _ a old h0); [|done..|by rewrite lookup_delete_eq].
    eapply fronts_sub; [done|apply delete_subseteq].
  - intros h Ha. destruct (Hf h a Ha) as (d & Ed & Hd). congruence.
Qed.

Lemma front_map_sub (m : gmap BlockHash Account) o : from_option (fun h => delete h m) m o ⊆ m.
Proof. destruct o; cbn; [apply delete_subseteq|done]. Qed.

Lemma bq_insert_ok q d :
  queue_ok q -> chained (abk_blocks d) -> queue_ok (bq_insert d q).2.
Proof.
  intros Hok Hc. unfold bq_insert. destruct (Nat.leb_spec (bq_max_accounts q) (size (bq_accounts q))) as [|Hs]; [done|].
  assert (exists h, front_hash d = Some h) as [first Ef] by (unfold front_hash; destruct (abk_blocks d); [done|by eexists]). rewrite Ef.
  cbn [snd]. set (a := abk_account d) in *. pose proof Hok as [H1 H2 H3 H4 H5 H6].
  assert (Hgen : forall waiting processor, waiting ⊆ bq_waiting q -> processor ⊆ bq_in_block_processor q ->
    (forall h, waiting !! h <> Some a) -> (forall h, processor !! h <> Some a) -> (size (<[a := d]> (bq_accounts q)) <= bq_max_accounts q)%nat ->
    forall count, count = wrap 64 (total_blocks (<[a := d]> (bq_accounts q))) ->
    queue_ok (mkBlockQueue (bq_max_accounts q) (<[a := d]> (bq_accounts q)) (<[first := a]> waiting) processor count)).
  { intros waiting processor Hw Hp Nw Np Hsz count Hcnt. split; cbn; try done.
    - intros b e [[<- <-]|[_ E]]%lookup_insert_Some; [done|by apply H1].
    - intros h b [[<- <-]|[_ E]]%lookup_insert_Some; [exists d; by rewrite lookup_insert_eq|].
      apply (fronts_other _ waiting a (Some d)); [exact (fronts_sub _ _ _ H2 Hw)|done|done].
    - apply fronts_other; [exact (fronts_sub _ _ _ H3 Hp)|done].
    - intros h b [[<- <-]|[_ E]]%lookup_insert_Some; [apply Np|]. intros E'. apply (H4 h b); [exact (lookup_weaken _ _ _ _ E Hw)|exact (lookup_weaken _ _ _ _ E' Hp)]. }
  destruct (bq_accounts q !! a) as [old|] eqn:Ea; cbn [bq_max_accounts bq_accounts bq_waiting bq_in_block_processor bq_blocks].
  - apply Hgen; try apply front_map_sub; try (eapply front_removed; [exact Hok|done|tauto]).
    + rewrite map_size_insert_Some by (by eexists). lia.
    + rewrite total_blocks_insert, Ea, H5, wrap_sub_l. cbn. rewrite wrap_add_sub. f_equal. lia.
  - assert (Hno : forall m, fronts (bq_accounts q) m -> forall h, m !! h <> Some a) by (intros m Hf h Eh; destruct (Hf h a Eh) as (e & Ee & _); congruence).
    apply Hgen; try done; [by apply Hno|by apply Hno|by rewrite map_size_insert_None; [lia|]|].
    rewrite total_blocks_insert, Ea, H5, wrap_add_l by lia. cbn. f_equal. lia.
Qed.

Lemma enqueued_ok q h : queue_ok q -> queue_ok (enqueued_for_processing h q).
Proof.
  intros [H1 H2 H3 H4 H5 H6]. unfold enqueued_for_processing. destruct (bq_waiting q !! h) as [a|] eqn:E; [|done].
  split; cbn; try done.
  - eapply fronts_sub; [exact H2|apply delete_subseteq].
  - intros h' b [[<- <-]|[_ E']]%lookup_insert_Some; [by apply H2|by apply H3].
  - intros h' b [Hne E']%lookup_delete_Some. rewrite lookup_insert_ne by done. by apply H4.
Qed.

Lemma in_processor q h a :
  queue_ok q -> bq_in_block_processor q !! h = Some a ->
  (forall h', bq_waiting q !! h' <> Some a) /\ (forall h', delete h (bq_in_block_processor q) !! h' <> Some a) /\
  exists d b blocks, bq_accounts q !! a = Some d /\ abk_blocks d = b :: blocks /\ block_hash b = h /\ chained (abk_blocks d).
Proof.
  intros [H1 H2 H3 H4 H5 H6] E. destruct (H3 h a E) as (d & Ed & Hd). split; [|split].
  - apply (fronts_gone (bq_accounts q) _ a d h); [done..|]. intros E'. by apply (H4 h a).
  - apply (fronts_gone (bq_accounts q) _ a d h); [|done..|by rewrite lookup_delete_eq]. eapply fronts_sub; [exact H3|apply delete_subseteq].
  - destruct (H1 _ _ Ed) as [_ Hc]. exists d. unfold front_hash in Hd. destruct (abk_blocks d) as [|b blocks]; [done|].
    exists b, blocks. injection Hd as <-. done.
Qed.

Lemma bq_processed_ok q h :
  queue_ok q -> exists info q', bq_processed h q = Some (info, q') /\ queue_ok q' /\ bq_max_accounts q' = bq_max_accounts q.
Proof.
  intros Hok. unfold bq_processed. destruct (bq_in_block_processor q !! h) as [a|] eqn:E; [|by eexists _, q].
  destruct (in_processor q h a Hok E) as (Nw & Np & d & b & blocks & Ed & Eb & Hh & Hc). pose proof Hok as [H1 H2 H3 H4 H5 H6].
  rewrite Ed. cbn [mbind option_bind]. rewrite Eb in *. destruct (H1 _ _ Ed) as [Ha _].
  assert (Hsub : fronts (bq_accounts q) (delete h (bq_in_block_processor q))) by (eapply fronts_sub; [exact H3|apply delete_subseteq]).
  destruct blocks as [|next blocks].
  - eexists _, _. split; [done|]. split; [|done]. split; cbn; try done.
    + intros a' d' [_ E']%lookup_delete_Some. by apply H1.
    + by apply (fronts_other _ _ a None).
    + by apply (fronts_other _ _ a None).
    + intros h' a' E' [_ E'']%lookup_delete_Some. by apply (H4 h' a').
    + rewrite H5, (total_blocks_delete _ _ _ Ed), wrap_sub_l, Eb. done.
    + rewrite map_size_delete_Some by (by eexists). lia.
  - destruct (chained_tail _ _ _ Hc) as [_ Hc']. eexists _, _. split; [done|]. split; [|done]. split; cbn; try done.
    + intros a' d' [[<- <-]|[_ E']]%lookup_insert_Some; [done|by apply H1].
    + intros h' a' [[<- <-]|[_ E']]%lookup_insert_Some; [eexists; by rewrite lookup_insert_eq|].
      by apply (fronts_other _ (bq_waiting q) a (Some _)).
    + by apply fronts_other.
    + intros h' a' [[<- <-]|[_ E']]%lookup_insert_Some; [apply Np|]. intros [_ E'']%lookup_delete_Some. by apply (H4 h' a').
    + rewrite H5, total_blocks_insert, Ed, wrap_sub_l. cbn [fmap option_fmap option_map default from_option id abk_blocks].
      rewrite Eb. f_equal. cbn [length]. lia.
    + rewrite map_size_insert_Some by (by eexists). lia.
Qed.

Lemma processing_failed_ok q h :
  queue_ok q -> exists r q', processing_failed h q = Some (r, q') /\ queue_ok q' /\ bq_max_accounts q' = bq_max_accounts q.
Proof.
  intros Hok. unfold processing_failed. destruct (bq_in_block_processor q !! h) as [a|] eqn:E; [|by exists false, q].
  destruct (in_processor q h a Hok E) as (Nw & Np & d & b & blocks & Ed & Eb & Hh & Hc). pose proof Hok as [H1 H2 H3 H4 H5 H6].
  rewrite Ed. cbn [mbind option_bind]. eexists _, _. split; [done|]. split; [|done]. split; cbn; try done.
  - intros a' d' [_ E']%lookup_delete_Some. by apply H1.
  - by apply (fronts_other _ _ a None).
  - apply (fronts_other _ _ a None); [|done]. eapply fronts_sub; [exact H3|apply delete_subseteq].
  - intros h' a' E' [_ E'']%lookup_delete_Some. by apply (H4 h' a').
  - by rewrite H5, (total_blocks_delete _ _ _ Ed), wrap_sub_l.
  - rewrite map_size_delete_Some by (by eexists). lia.
Qed.

(** An account whose blocks nobody will ever process: neither map knows it. *)
Definition stuck (q : BlockQueue) (a : Account) : Prop :=
  is_Some (bq_accounts q !! a) /\ (forall h, bq_waiting q !! h <> Some a) /\ (forall h, bq_in_block_processor q !! h <> Some a).

(** A queue that took no new account. *)
Record shrunk (q q' : BlockQueue) : Prop := {
  sh_max : bq_max_accounts q' = bq_max_accounts q;
  sh_none : forall a, bq_accounts q !! a = None -> bq_accounts q' !! a = None;
  sh_stuck : forall a, stuck q a -> stuck q' a;
}.

Lemma shrunk_refl q : shrunk q q.
Proof. done. Qed.

Lemma shrunk_trans q1 q2 q3 : shrunk q1 q2 -> shrunk q2 q3 -> shrunk q1 q3.
Proof. intros [A1 A2 A3] [B1 B2 B3]. split; [congruence|auto|auto]. Qed.

Lemma bq_processed_shrunk q h info q' : bq_processed h q = Some (info, q') -> shrunk q q'.
Proof.
  unfold bq_processed. destruct (_ !! h) as [a|] eqn:Ep; [|by intros [= _ <-]]. destruct (bq_accounts q !! a) as [d|] eqn:Ed; [|done]. cbn.
  destruct (abk_blocks d) as [|b [|next rest]]; [done|..]; intros [= _ <-]; split; try done; cbn; intros x Hx.
  - by apply lookup_delete_None; right.
  - destruct Hx as (H1 & H2 & H3). assert (a <> x) by (intros ->; by apply (H3 h)). split; cbn; [by rewrite lookup_delete_ne|].
    split; [done|]. intros h' [_ E']%lookup_delete_Some. by apply (H3 h').
  - rewrite lookup_insert_ne; [done|congruence].
  - destruct Hx as (H1 & H2 & H3). assert (a <> x) by (intros ->; by apply (H3 h)). split; cbn; [by rewrite lookup_insert_ne|].
    split; [|intros h' [_ E']%lookup_delete_Some; by apply (H3 h')]. intros h' [[_ ?]|[_ E']]%lookup_insert_Some; [done|by apply (H2 h')].
Qed.

Lemma processing_failed_shrunk q h r q' : processing_failed h q = Some (r, q') -> shrunk q q'.
Proof.
  unfold processing_failed. destruct (_ !! h) as [a|] eqn:Ep; [|by intros [= _ <-]]. destruct (bq_accounts q !! a) as [d|] eqn:Ed; [|done]. cbn.
  intros [= _ <-]. split; [done|..]; cbn; intros x Hx; [by apply lookup_delete_None; right|].
  destruct Hx as (H1 & H2 & H3). assert (a <> x) by (intros ->; by apply (H3 h)). split; cbn; [by rewrite lookup_delete_ne|].
  split; [done|]. intros h' [_ E']%lookup_delete_Some. by apply (H3 h').
Qed.

Lemma enqueued_shrunk q h : shrunk q (enqueued_for_processing h q).
Proof.
  unfold enqueued_for_processing. destruct (bq_waiting q !! h) as [a|] eqn:E; [|apply shrunk_refl]. split; [done|done|].
  intros x (H1 & H2 & H3). split; [done|]. cbn. split.
  - intros h' [_ E']%lookup_delete_Some. by apply (H2 h').
  - intros h' [[_ ->]|[_ E']]%lookup_insert_Some; [by apply (H2 h)|by apply (H3 h')].
Qed.

(** The blocks of an account that had none. *)
Lemma bq_insert_new d q :
  bq_accounts q !! abk_account d = None ->
  bq_max_accounts (bq_insert d q).2 = bq_max_accounts q /\
  (forall a, a <> abk_account d -> bq_accounts q !! a = None -> bq_accounts (bq_insert d q).2 !! a = None) /\
  forall a, stuck q a -> stuck (bq_insert d q).2 a.
Proof.
  intros En. unfold bq_insert. destruct (_ <=? _)%nat; [done|]. destruct (front_hash d); [|done]. rewrite En. cbn. split; [done|].
  split; [intros x Hx E; by rewrite lookup_insert_ne|]. intros x ([e E] & H2 & H3). assert (abk_account d <> x) by congruence.
  split; cbn; [rewrite lookup_insert_ne by done; by eexists|]. split; [|done].
  intros h [[_ ?]|[_ E']]%lookup_insert_Some; [done|by apply (H2 h)].
Qed.

Section processing.
Context `{HL : HashOrderLaws}.

Lemma next_to_process_ok q :
  queue_ok q -> (next_to_process q = Some None /\ bq_waiting q = ∅) \/
    exists b id a d, next_to_process q = Some (Some (b, id)) /\ bq_waiting q !! block_hash b = Some a /\ bq_accounts q !! a = Some d /\
      head (abk_blocks d) = Some b.
Proof using HL.
  intros [H1 H2 H3 H4 H5 H6]. unfold next_to_process. pose proof (hash_iter_perm (bq_waiting q)) as Hp.
  destruct (hash_iter (bq_waiting q)) as [|[h a] l] eqn:E.
  - left. split; [done|]. apply map_to_list_empty_iff. by apply Permutation_nil.
  - assert (Ew : bq_waiting q !! h = Some a) by (apply elem_of_map_to_list; rewrite <- Hp; by left).
    destruct (H2 h a Ew) as (d & Ed & Hd). right. rewrite Ed. cbn. unfold front_hash in Hd. destruct (abk_blocks d) as [|b blocks] eqn:Eb; [done|].
    injection Hd as <-. exists b, (abk_query_id d), a, d. cbn. by rewrite Eb.
Qed.

Lemma enqueued_union q h :
  bq_waiting (enqueued_for_processing h q) ∪ bq_in_block_processor (enqueued_for_processing h q)
  = bq_waiting q ∪ bq_in_block_processor q.
Proof using.
  unfold enqueued_for_processing. destruct (bq_waiting q !! h) as [a|] eqn:E; [|done]. cbn. apply map_eq. intros k.
  rewrite !lookup_union. destruct (decide (k = h)) as [->|Hne].
  - rewrite lookup_delete_eq, lookup_insert_eq, E. by destruct (bq_in_block_processor q !! h).
  - by rewrite lookup_delete_ne, lookup_insert_ne.
Qed.

(** The blocks handed over are fronts of accounts; only as many as fit. *)
Lemma enqueue_next_blocks_ok fuel room n q :
  queue_ok q -> (size (bq_waiting q) < fuel)%nat ->
  exists blocks q', enqueue_next_blocks fuel room n q = Finished (blocks, q') /\ queue_ok q' /\ bq_accounts q' = bq_accounts q /\
    shrunk q q' /\
    ((forall i, room i = true) -> bq_waiting q' = ∅ /\ bq_in_block_processor q' = bq_waiting q ∪ bq_in_block_processor q) /\
    (forall b, b ∈ blocks -> exists a d, bq_accounts q !! a = Some d /\ head (abk_blocks d) = Some b).
Proof using HL.
  revert n q. induction fuel as [|fuel IH]; intros n q Hok Hf; [lia|]. cbn [enqueue_next_blocks].
  destruct (next_to_process_ok q Hok) as [[-> Ew]|(b & id & a & d & -> & Ew & Ed & Hb)]; cbn [unwrap mbind run_bind].
  - exists [], q. split; [done|]. split; [done|]. split; [done|]. split; [done|].
    split; [intros _; split; [done|by rewrite Ew, (left_id_L ∅ (∪))]|]. by intros b ?%elem_of_nil.
  - destruct (room n) eqn:Er.
    + pose proof (enqueued_ok q (block_hash b) Hok) as Hok1.
      assert (Ea : bq_accounts (enqueued_for_processing (block_hash b) q) = bq_accounts q) by (unfold enqueued_for_processing; by rewrite Ew).
      destruct (IH (S n) _ Hok1) as (blocks & q' & -> & Hok' & Eq & Em & Hr & Hin).
      { assert (size (bq_waiting q) <> 0%nat) by (intros E0%map_size_empty_iff; by rewrite E0 in Ew).
        unfold enqueued_for_processing. rewrite Ew. cbn. rewrite map_size_delete_Some by (by eexists). lia. }
      cbn [mbind run_bind]. exists (b :: blocks), q'. split; [done|]. split; [done|]. split; [congruence|].
      split; [exact (shrunk_trans _ _ _ (enqueued_shrunk q (block_hash b)) Em)|].
      split; [intros Hall; destruct (Hr Hall) as [? ->]; split; [done|]; by apply enqueued_union|].
      intros b' [->|Hb']%elem_of_cons; [by exists a, d|]. destruct (Hin b' Hb') as (a' & d' & ? & ?). exists a', d'. by rewrite <- Ea.
    + exists [], q. split; [done|]. split; [done|]. split; [done|]. split; [done|]. split; [|by intros b' ?%elem_of_nil].
      intros Hr. congruence.
Qed.
End processing.

(** ** The frontier scan

    The heads divide the accounts into ranges; each head stays in its range
    and only moves forward, or back to its start. *)

Record head_ok (h : FrontierHead) : Prop := {
  hk_start : 1 <= fh_start h;
  hk_next : fh_start h <= fh_next h < fh_end h;
  hk_candidates : map_Forall (fun a _ => fh_next h < a) (fh_candidates h);
}.

(** The range of a head never changes. *)
Definition same_range (h h' : FrontierHead) : Prop :=
  fh_start h' = fh_start h /\ fh_end h' = fh_end h /\ fh_config h' = fh_config h.

Lemma trim_last_ok fuel max (m : gmap Account ()) :
  (size m < fuel)%nat -> exists m', trim_last fuel max m = Finished m' /\ m' ⊆ m /\ (size m' <= max)%nat.
Proof.
  revert m. induction fuel as [|fuel IH]; intros m Hf; [lia|]. cbn [trim_last].
  destruct (Nat.ltb_spec max (size m)) as [Hl|Hl]; [|by exists m].
  destruct (btm_last Z.compare m) as [[k u]|] eqn:E.
  2:{ apply btm_last_None in E. rewrite E, map_size_empty in Hl. lia. }
  cbn. destruct (IH (delete k m)) as (m' & E' & Hs & Hm).
  - rewrite map_size_delete_Some by (eexists; by eapply btm_last_lookup). lia.
  - exists m'. split; [done|]. split; [|done]. etrans; [done|apply delete_subseteq].
Qed.

Lemma inserted_candidates next (response : list Frontier) (m : gmap Account ()) :
  map_Forall (fun a _ => next < a) m ->
  map_Forall (fun a _ => next < a) (foldl (fun m f => if next <? frontier_account f then <[frontier_account f := ()]> m else m) m response).
Proof.
  revert m. induction response as [|f l IH]; intros m Hm; [done|]. cbn. apply IH.
  destruct (Z.ltb_spec next (frontier_account f)); [|done]. by apply map_Forall_insert_2.
Qed.

Lemma last_candidate_ok h : head_ok h -> fh_candidates h <> ∅ ->
  fh_start h <= next_start_account h < fh_end h /\ (next_start_account h = fh_start h \/ fh_next h < next_start_account h).
Proof.
  intros [H1 H2 H3] Hne. unfold next_start_account. destruct (btm_last Z.compare (fh_candidates h)) as [[k u]|] eqn:E.
  - pose proof (H3 _ _ (btm_last_lookup _ _ _ _ E)) as Hk. cbn in *. destruct (Z.leb_spec (fh_end h) k); [|lia]. split; [lia|by left].
  - by apply btm_last_None in E.
Qed.

Lemma head_process_ok response h :
  head_ok h -> exists done h', head_process response h = Finished (done, h') /\ head_ok h' /\ same_range h h' /\
    (fh_next h' = fh_next h \/ fh_next h' = fh_start h \/ fh_next h < fh_next h').
Proof.
  intros [H1 H2 H3]. unfold head_process, trim_candidates. cbn [insert_candidates fh_with_candidates fh_candidates fh_config fh_next].
  set (m := foldl _ _ _). assert (Hm : map_Forall (fun a _ => fh_next h < a) m) by (by apply inserted_candidates).
  destruct (trim_last_ok (S (size m)) (fsc_candidates (fh_config h)) m ltac:(lia)) as (m' & -> & Hs & _). cbn [mbind run_bind].
  set (h1 := mkFrontierHead (fh_start h) (fh_end h) (fh_next h) m' (fh_requests_sent h) (S (fh_requests_completed h))
    (fh_last_request_sent h) (fh_accounts_processed h) (fh_config h)).
  assert (Hh1 : head_ok h1) by (split; cbn; [done|done|]; intros a u E; apply (Hm a u); by eapply lookup_weaken).
  change (fh_with_candidates m' _) with h1. set (h2 := wrap_around_if_no_candidates_found h1).
  assert (Hh2 : head_ok h2 /\ same_range h h2 /\ fh_next h2 = fh_next h).
  { unfold h2, wrap_around_if_no_candidates_found. destruct (_ && _); [|done]. split; [|done]. destruct Hh1 as [A1 A2 A3].
    split; cbn; [done|done|]. intros a u [<- _]%lookup_singleton_Some. cbn in A2. lia. }
  destruct Hh2 as (Hh2 & (R1 & R2 & R3) & Hn). unfold should_advance.
  destruct (_ && _) eqn:Ea; [|exists false, h2; split; [done|]; split; [done|]; split; [done|by left]].
  apply andb_true_iff in Ea as [_ Hne%negb_true_iff%bool_decide_eq_false].
  destruct (last_candidate_ok h2 Hh2 Hne) as [L1 L2]. exists true, (advance h2). split; [done|].
  split; [split; cbn; [by apply Hh2|done|apply map_Forall_empty]|]. split; [done|]. cbn. right. rewrite <- R1, <- Hn. tauto.
Qed.

(** ** All heads *)

Record scan_ok (c : HeadsContainer) : Prop := {
  so_heads : forall a h, hc_by_start c !! a = Some h -> fh_start h = a /\ head_ok h;
  so_index : index_ok fh_last_request_sent (hc_by_start c) (hc_by_timestamp c);
  so_apart : forall a h a' h', hc_by_start c !! a = Some h -> hc_by_start c !! a' = Some h' -> a < a' -> fh_end h <= a';
}.

(** Heads with the same ranges. *)
Definition same_ranges (c c' : HeadsContainer) : Prop :=
  forall a, (hc_by_start c !! a = None /\ hc_by_start c' !! a = None) \/
    exists h h', hc_by_start c !! a = Some h /\ hc_by_start c' !! a = Some h' /\ same_range h h'.

Lemma same_ranges_refl c : same_ranges c c.
Proof. intros a. destruct (hc_by_start c !! a) as [h|]; [right; by exists h, h|by left]. Qed.

Lemma heads_update_ok a old new c :
  scan_ok c -> hc_by_start c !! a = Some old -> head_ok new -> same_range old new ->
  exists c', heads_update a old new c = Some c' /\ scan_ok c' /\ same_ranges c c' /\ hc_by_start c' = <[a := new]> (hc_by_start c).
Proof.
  intros [H1 H2 H3] E Hn (R1 & R2 & R3).
  assert (Hok : forall by_timestamp, index_ok fh_last_request_sent (<[a := new]> (hc_by_start c)) by_timestamp ->
    let c' := mkHeadsContainer (hc_sequenced c) (<[a := new]> (hc_by_start c)) by_timestamp in scan_ok c' /\ same_ranges c c').
  { intros bt Hbt. split; [split; cbn|].
    - intros a' h [[<- <-]|[_ E']]%lookup_insert_Some; [|by apply H1]. destruct (H1 _ _ E) as [<- _]. done.
    - done.
    - assert (Hend : forall x h, <[a := new]> (hc_by_start c) !! x = Some h -> exists h0, hc_by_start c !! x = Some h0 /\ fh_end h0 = fh_end h).
      { intros x h [[<- <-]|[_ E']]%lookup_insert_Some; eauto. }
      intros x h x' h' (h0 & E0 & <-)%Hend (h0' & E0' & _)%Hend. by apply (H3 x h0 x' h0').
    - intros x. cbn. destruct (decide (a = x)) as [<-|Hx]; [right; exists old, new; by rewrite lookup_insert_eq|].
      rewrite lookup_insert_ne by done. apply same_ranges_refl. }
  unfold heads_update. destruct (Z.eqb_spec (fh_last_request_sent new) (fh_last_request_sent old)) as [Et|Et].
  - cbn. destruct (Hok (hc_by_timestamp c)) as [Hc Hs]; [by eapply index_update|]. by eexists.
  - destruct (index_move_ok fh_last_request_sent _ _ _ _ new H2 E) as (bt & -> & Hbt). cbn.
    destruct (Hok _ Hbt) as [Hc Hs]. by eexists.
Qed.

Lemma next_account_ok now starts c :
  Forall (fun a => is_Some (hc_by_start c !! a)) starts ->
  exists r, next_account now starts c = Some r /\ forall h, r = Some h -> exists a, hc_by_start c !! a = Some h /\ can_send_request now h = true.
Proof.
  induction 1 as [|a l [h E] _ IH]; [by exists None|]. cbn. rewrite E. cbn. destruct (can_send_request now h) eqn:Ec; [|done].
  exists (Some h). split; [done|]. intros h' [= <-]. by exists a.
Qed.

Lemma scan_next_ok now c :
  scan_ok c -> exists a c', scan_next now c = Some (a, c') /\ scan_ok c' /\ same_ranges c c' /\
    (a = 0 \/ exists x h, hc_by_start c !! x = Some h /\ fh_next h = a /\ 1 <= x <= a /\ can_send_request now h = true).
Proof.
  intros Hok. pose proof Hok as [H1 H2 H3]. unfold scan_next.
  destruct (next_account_ok now (ordered_by_timestamp c) c) as (r & -> & Hr).
  { apply Forall_forall. intros a (l & Hl & Ha)%list_elem_of_join. apply list_elem_of_fmap in Ha as ([t l'] & -> & Ht%elem_of_btm_entries).
    cbn in *. destruct (H2 t) as (_ & _ & Hi). rewrite Ht in Hi. cbn in Hi. apply Hi in Hl as (h & E & _). by exists h. }
  cbn. destruct r as [h|]; [|exists 0, c; split; [done|]; split; [done|]; split; [apply same_ranges_refl|by left]].
  destruct (Hr h eq_refl) as (a & E & Hc). destruct (H1 _ _ E) as [Hs Hh]. pose proof Hh as [A1 A2 A3].
  destruct (Z.eqb_spec (fh_next h) 0); [lia|]. rewrite Hs, E. cbn.
  destruct (heads_update_ok a h (head_request_sent now h) c Hok E) as (c' & -> & Hok' & Hr' & _); [by split|done|].
  exists (fh_next h), c'. split; [done|]. split; [done|]. split; [done|]. right. exists a, h. split; [done|]. split; [done|]. split; [lia|done].
Qed.

(** ** Answers *)

Lemma sorted_keys {V} (es : list (Z * V)) : StronglySorted (key_le Z.compare) es -> StronglySorted Z.le es.*1.
Proof.
  induction 1 as [|e es _ IH Hall]; [constructor|]. cbn. constructor; [exact IH|]. apply Forall_fmap.
  eapply Forall_impl; [exact Hall|]. intros e' He. unfold key_le in He. rewrite Z.compare_ngt_iff in He. cbn. lia.
Qed.

Lemma find_first_ok x c :
  match find_first_less_than_or_equal_to x c with
  | Some a => is_Some (hc_by_start c !! a) /\ a <= x /\ forall a', is_Some (hc_by_start c !! a') -> a' <= x -> a' <= a
  | None => forall a, is_Some (hc_by_start c !! a) -> x < a
  end.
Proof.
  unfold find_first_less_than_or_equal_to. set (l := (btm_entries Z.compare (hc_by_start c)).*1).
  assert (Hin : forall a, a ∈ l <-> is_Some (hc_by_start c !! a)).
  { intros a. unfold l. rewrite list_elem_of_fmap. split.
    - intros ([k h] & -> & Hk%elem_of_btm_entries). by exists h.
    - intros [h Hh]. exists (a, h). split; [done|]. by apply elem_of_btm_entries. }
  assert (Hsort : StronglySorted Z.le l).
  { apply sorted_keys, btm_entries_sorted, Z_key_order. }
  clearbody l. destruct (last (filter (fun a => a <= x) l)) as [a|] eqn:E.
  - apply last_Some in E as (l' & E). assert (Ha : a ∈ filter (fun a => a <= x) l) by (rewrite E; apply elem_of_app; right; by left).
    apply list_elem_of_filter in Ha as [Hle Ha]. split; [by apply Hin|]. split; [done|]. intros a' Ha'%Hin Hle'.
    assert (Hf : a' ∈ filter (fun a => a <= x) l) by (by apply list_elem_of_filter). rewrite E in Hf.
    apply elem_of_app in Hf as [Hf|Hf%list_elem_of_singleton]; [|lia].
    assert (Hs : StronglySorted Z.le (filter (fun a => a <= x) l)) by (by apply sorted_filter).
    rewrite E in Hs. apply (StronglySorted_app_1_elem_of _ _ _ a' a Hs Hf). by left.
  - apply last_None in E. intros a Ha%Hin. destruct (Z.le_gt_cases a x); [|lia].
    assert (Hf : a ∈ filter (fun a => a <= x) l) by (by apply list_elem_of_filter). rewrite E in Hf. by apply elem_of_nil in Hf.
Qed.

(** An answer is for the head that was asked, if it started in its range. *)
Lemma scan_process_ok x response c :
  scan_ok c -> (exists a, is_Some (hc_by_start c !! a) /\ a <= x) ->
  exists d c', scan_process x response c = Finished (d, c') /\ scan_ok c' /\ same_ranges c c' /\
    exists a h h', a <= x /\ hc_by_start c !! a = Some h /\ hc_by_start c' = <[a := h']> (hc_by_start c) /\
      (fh_next h' = fh_next h \/ fh_next h' = fh_start h \/ fh_next h < fh_next h') /\
      (forall b hb, hc_by_start c !! b = Some hb -> b <= x < fh_end hb -> a = b).
Proof.
  intros Hok (a0 & Ha0 & Hle0). pose proof (find_first_ok x c) as Hf. unfold scan_process.
  destruct (find_first_less_than_or_equal_to x c) as [a|]; [|exfalso; specialize (Hf a0 Ha0); lia].
  destruct Hf as ([h Eh] & Hle & Hmax). pose proof Hok as [H1 H2 H3]. cbn [unwrap mbind run_bind]. rewrite Eh. cbn [unwrap mbind run_bind].
  destruct (H1 _ _ Eh) as [Hs Hh]. destruct (head_process_ok response h Hh) as (d & h' & -> & Hh' & Hr & Hn). cbn [mbind run_bind].
  destruct (heads_update_ok a h h' c Hok Eh Hh' Hr) as (c' & -> & Hok' & Hr' & Eb). cbn [unwrap mbind run_bind].
  exists d, c'. split; [done|]. split; [done|]. split; [done|]. exists a, h, h'. split; [done|]. split; [done|]. split; [done|].
  split; [done|]. intros b hb Eb' [Hb1 Hb2]. destruct (Z.lt_trichotomy a b) as [Hlt|[?|Hlt]]; [|done|].
  - specialize (Hmax b ltac:(by exists hb) Hb1). lia.
  - pose proof (H3 _ _ _ _ Eb' Eh Hlt). lia.
Qed.

(** ** The initial ranges *)

Lemma range_size_bounds p : 1 <= p < 2 ^ 64 -> 2 ^ 64 <= ACCOUNT_MAX / p /\ ACCOUNT_MAX / p * p <= ACCOUNT_MAX < ACCOUNT_MAX / p * p + p.
Proof.
  intros Hp. assert (HM : ACCOUNT_MAX = 2 ^ 256 - 1) by done. split.
  - apply Z.div_le_lower_bound; [lia|]. rewrite HM. nia.
  - pose proof (Z.div_mod ACCOUNT_MAX p ltac:(lia)). pose proof (Z.mod_pos_bound ACCOUNT_MAX p ltac:(lia)). lia.
Qed.

Section ranges.
Context `{UL : U256Laws} (config : FrontierScanConfig).
Hypothesis (parallelism_range : Z.of_nat (fsc_parallelism config) < 2 ^ 64).

(** Where the [i]th range starts; the last one ends with the last account. *)
Definition range_start (i : nat) : Account :=
  let p := Z.of_nat (fsc_parallelism config) in
  if (i =? 0)%nat then 1 else if (i <? fsc_parallelism config)%nat then (ACCOUNT_MAX / p + 1) * Z.of_nat i else ACCOUNT_MAX.

Lemma range_start_eq i :
  (0 < i < fsc_parallelism config)%nat -> range_start i = (ACCOUNT_MAX / Z.of_nat (fsc_parallelism config) + 1) * Z.of_nat i.
Proof using.
  intros Hi. unfold range_start. destruct (Nat.eqb_spec i 0); [lia|]. destruct (Nat.ltb_spec i (fsc_parallelism config)); [done|lia].
Qed.

Lemma range_start_end i : (1 <= fsc_parallelism config <= i)%nat -> range_start i = ACCOUNT_MAX.
Proof using.
  intros Hi. unfold range_start. destruct (Nat.eqb_spec i 0); [lia|]. destruct (Nat.ltb_spec i (fsc_parallelism config)); [lia|done].
Qed.

Lemma range_start_mono i j : (i < j <= fsc_parallelism config)%nat -> range_start i < range_start j.
Proof using parallelism_range.
  intros Hij. assert (Hp : 1 <= Z.of_nat (fsc_parallelism config) < 2 ^ 64) by lia.
  destruct (range_size_bounds _ Hp) as [B1 B2]. set (p := Z.of_nat (fsc_parallelism config)) in *.
  assert (Hj : range_start j = if decide (j = fsc_parallelism config) then ACCOUNT_MAX else (ACCOUNT_MAX / p + 1) * Z.of_nat j).
  { destruct (decide (j = _)); [apply range_start_end; lia|apply range_start_eq; lia]. }
  assert (Hi : range_start i = if decide (i = 0%nat) then 1 else (ACCOUNT_MAX / p + 1) * Z.of_nat i).
  { destruct (decide (i = 0%nat)) as [->|]; [done|apply range_start_eq; lia]. }
  rewrite Hi, Hj. clear Hi Hj. assert (Hij' : Z.of_nat i + 1 <= Z.of_nat j <= p) by lia. clear Hij.
  generalize dependent (Z.of_nat j). intros zj. generalize dependent (ACCOUNT_MAX / p). intros q B1 B2 Hz.
  destruct (decide (i = 0%nat)), (decide (j = _)); unfold ACCOUNT_MAX in *; nia.
Qed.

Lemma create_head_eq i :
  (i < fsc_parallelism config)%nat -> create_head config i = frontier_head_new (range_start i) (range_start (S i)) config.
Proof using UL parallelism_range.
  intros Hi. unfold create_head. destruct (Nat.eqb_spec (fsc_parallelism config) 1) as [E1|Hne].
  { assert (i = 0%nat) as -> by lia. rewrite (range_start_end 1) by lia. done. }
  assert (Hp : 1 <= Z.of_nat (fsc_parallelism config) < 2 ^ 64) by lia. destruct (range_size_bounds _ Hp) as [B1 B2].
  assert (Hs : range_start i = if (i =? 0)%nat then 1 else (ACCOUNT_MAX / Z.of_nat (fsc_parallelism config) + 1) * Z.of_nat i).
  { destruct (Nat.eqb_spec i 0) as [->|]; [done|]. apply range_start_eq. lia. }
  assert (He : range_start (S i) = if (i =? fsc_parallelism config - 1)%nat then ACCOUNT_MAX
    else (ACCOUNT_MAX / Z.of_nat (fsc_parallelism config) + 1) * Z.of_nat i + (ACCOUNT_MAX / Z.of_nat (fsc_parallelism config) + 1)).
  { destruct (Nat.eqb_spec i (fsc_parallelism config - 1)); [apply range_start_end; lia|]. rewrite range_start_eq by lia. by rewrite Nat2Z.inj_succ, Z.mul_succ_r. }
  rewrite Hs, He. clear Hs He. assert (HM : ACCOUNT_MAX = 2 ^ 256 - 1) by done.
  rewrite u256_div_spec by (unfold in_u; lia). assert (Hz : 0 <= Z.of_nat i <= Z.of_nat (fsc_parallelism config) - 1) by lia.
  assert (Hl : i <> (fsc_parallelism config - 1)%nat -> Z.of_nat i <= Z.of_nat (fsc_parallelism config) - 2) by lia.
  assert (H2 : 2 <= Z.of_nat (fsc_parallelism config)) by lia.
  remember (Z.of_nat (fsc_parallelism config)) as p eqn:Ep. clear Ep. remember (ACCOUNT_MAX / p) as q eqn:Eq. clear Eq.
  remember (Z.of_nat i) as zi eqn:Ei. clear Ei. rewrite HM in *.
  assert (Ht : (q + 1) * (p - 1) = q * p - q + p - 1) by ring. assert (Hq : q * 2 <= q * p) by (apply Z.mul_le_mono_nonneg_l; lia).
  assert (Hm : 0 <= (q + 1) * zi <= (q + 1) * (p - 1)) by (split; [apply Z.mul_nonneg_nonneg; lia|apply Z.mul_le_mono_nonneg_l; lia]).
  rewrite (u256_add_spec q 1) by (unfold in_u; lia). rewrite (u256_mul_spec (q + 1) zi) by (unfold in_u; lia). f_equal.
  destruct (Nat.eqb_spec i (fsc_parallelism config - 1)) as [|Hx]; [done|]. specialize (Hl Hx).
  assert (Hm' : (q + 1) * (zi + 1) <= (q + 1) * (p - 1)) by (apply Z.mul_le_mono_nonneg_l; lia).
  by rewrite u256_add_spec by (unfold in_u; lia).
Qed.

(** The heads made so far. *)
Lemma with_heads_ok n :
  (n <= fsc_parallelism config)%nat ->
  let c := foldl (fun c i => heads_push_back (create_head config i) c) heads_default (seq 0 n) in
  scan_ok c /\ forall a h, hc_by_start c !! a = Some h <-> exists i, (i < n)%nat /\ a = range_start i /\ h = frontier_head_new a (range_start (S i)) config.
Proof using UL parallelism_range.
  induction n as [|n IH]; intros Hn.
  { cbn. split; [split; cbn; [done|apply index_empty_ok|done]|]. intros a h. rewrite lookup_empty. split; [done|]. intros (i & ? & _). lia. }
  specialize (IH ltac:(lia)). cbn zeta in *. rewrite seq_S, foldl_app. set (c := foldl _ heads_default (seq 0 n)) in *. destruct IH as [[H1 H2 H3] Hc].
  cbn [foldl Nat.add]. unfold heads_push_back. rewrite create_head_eq by lia. cbn [fh_start frontier_head_new fh_last_request_sent].
  assert (Hlow : forall a h, hc_by_start c !! a = Some h -> a < range_start n /\ fh_end h <= range_start n).
  { intros a h (i & Hi & -> & ->)%Hc. split; [apply range_start_mono; lia|]. cbn [fh_end frontier_head_new]. destruct (decide (S i = n)) as [->|]; [lia|].
    pose proof (range_start_mono (S i) n ltac:(lia)). lia. }
  destruct (hc_by_start c !! range_start n) as [h0|] eqn:E; [destruct (Hlow _ _ E); lia|].
  pose proof (range_start_mono n (S n) ltac:(lia)) as Hm. split; [split; cbn [hc_by_start hc_by_timestamp]|].
  - intros a h [[<- <-]|[_ E']]%lookup_insert_Some; [|by apply H1]. split; [done|]. split; cbn [fh_start fh_next fh_end fh_candidates frontier_head_new]; [|lia|apply map_Forall_empty].
    destruct n as [|n]; [done|]. pose proof (range_start_mono 0 (S n) ltac:(lia)). change (range_start 0) with 1 in *. lia.
  - by apply (index_push_ok fh_last_request_sent _ _ _ (frontier_head_new (range_start n) (range_start (S n)) config)).
  - intros a h a' h' [[<- <-]|[_ Ea]]%lookup_insert_Some [[<- <-]|[_ Ea']]%lookup_insert_Some Hlt; [lia| |by apply (Hlow a h)|by apply (H3 a h a' h')].
    destruct (Hlow _ _ Ea'). lia.
  - intros a h. cbn [hc_by_start]. rewrite lookup_insert_Some, Hc. split.
    + intros [[<- <-]|[_ (i & Hi & -> & ->)]]; [exists n|exists i]; (split; [lia|done]).
    + intros (i & Hi & -> & ->). destruct (decide (i = n)) as [->|]; [by left|]. right. split; [|exists i; split; [lia|done]].
      pose proof (range_start_mono i n ltac:(lia)). lia.
Qed.

Lemma heads_with_heads_ok : scan_ok (heads_with_heads config).
Proof using UL parallelism_range. apply with_heads_ok. lia. Qed.

(** Every account but the first and the last one is in the range of a head. *)
Lemma ranges_cover x :
  (1 <= fsc_parallelism config)%nat -> 1 <= x < ACCOUNT_MAX ->
  exists a h, hc_by_start (heads_with_heads config) !! a = Some h /\ fh_start h <= x < fh_end h.
Proof using UL parallelism_range.
  intros Hp Hx. destruct (with_heads_ok (fsc_parallelism config) ltac:(lia)) as [_ Hc].
  assert (Hind : forall n, (n <= fsc_parallelism config)%nat -> range_start n <= x \/ exists i, (i < n)%nat /\ range_start i <= x < range_start (S i)).
  { induction n as [|n IH]; intros Hn; [left; by destruct Hx|]. destruct (IH ltac:(lia)) as [Hl|(i & Hi & Hl)]; [|right; exists i; split; [lia|done]].
    destruct (Z.lt_ge_cases x (range_start (S n))); [right; exists n; split; [lia|done]|by left]. }
  destruct (Hind (fsc_parallelism config) ltac:(lia)) as [Hl|(i & Hi & Hl)].
  - rewrite range_start_end in Hl by lia. lia.
  - exists (range_start i), (frontier_head_new (range_start i) (range_start (S i)) config). split; [|done]. apply Hc. by exists i.
Qed.
End ranges.
