(* ===== verification/BootstrapSafety.v ===== *)
(** * Bootstrapping never panics and asks for nothing twice

    All operations on the shared state of bootstrapping, in any order: sending
    queries, answers of peers, results of the block processor, timeouts. *)

From S2P Require Import Prelude Types Blocks Store Sets Validation Election Collections Messages.
From S2P Require Import Floats Candidates CandidatesTheorems.
From S2P Require Import OnlineReps Bootstrap BootstrapTheorems Sample.

(** ** The invariant *)

(** A range that a query for frontiers can be answered for. *)
Definition scannable (c : HeadsContainer) (x : Account) : Prop := exists a, is_Some (hc_by_start c !! a) /\ a <= x.

Lemma same_ranges_scannable c c' x : same_ranges c c' -> scannable c x -> scannable c' x.
Proof.
  intros Hr (a & [h E] & Hle). exists a. split; [|done]. destruct (Hr a) as [[E1 _]|(h1 & h2 & _ & E2 & _)]; [congruence|by exists h2].
Qed.

Record logic_ok (config : CandidateAccountsConfig) (max : nat) (lost : Account -> Prop) (l : BootstrapLogic) : Prop := {
  bs_candidates : candidates_ok config (bsl_candidate_accounts l);
  bs_queries : queries_ok (bsl_running_queries l);
  bs_queue : queue_ok (bsl_block_queue l);
  bs_scan : scan_ok (fp_frontier_scan (bsl_frontiers_processor l));
  bs_frontiers : forall id q, rqc_by_id (bsl_running_queries l) !! id = Some q -> rq_query_type q = QueryFrontiers ->
    scannable (fp_frontier_scan (bsl_frontiers_processor l)) (rq_start q);
  bs_one_priority : forall i j q r, rqc_by_id (bsl_running_queries l) !! i = Some q -> rqc_by_id (bsl_running_queries l) !! j = Some r ->
    rq_source q = SourcePriority -> rq_source r = SourcePriority -> rq_account q = rq_account r -> i = j;
  bs_one_dependency : forall i j q r, rqc_by_id (bsl_running_queries l) !! i = Some q -> rqc_by_id (bsl_running_queries l) !! j = Some r ->
    rq_source q = SourceDependencies -> rq_source r = SourceDependencies -> rq_hash q = rq_hash r -> i = j;
  bs_source : forall id q, rqc_by_id (bsl_running_queries l) !! id = Some q ->
    rq_query_type q = BlocksByHash \/ rq_query_type q = BlocksByAccount -> rq_source q = SourcePriority;
  bs_free : forall id q, rqc_by_id (bsl_running_queries l) !! id = Some q -> rq_source q = SourcePriority ->
    bq_accounts (bsl_block_queue l) !! rq_account q = None;
  bs_cover : forall x, 1 <= x < ACCOUNT_MAX ->
    exists a h, hc_by_start (fp_frontier_scan (bsl_frontiers_processor l)) !! a = Some h /\ fh_start h <= x < fh_end h;
  bs_max : bq_max_accounts (bsl_block_queue l) = max;
  bs_stuck : forall a, lost a -> stuck (bsl_block_queue l) a;
  bs_outdated : (length (fp_last_outdated_accounts (bsl_frontiers_processor l)) <= 20)%nat;
}.

(** Queries that end. *)
Lemma queries_fewer config max lost l queries :
  logic_ok config max lost l -> queries_ok queries -> rqc_by_id queries ⊆ rqc_by_id (bsl_running_queries l) ->
  logic_ok config max lost (with_running_queries queries l).
Proof.
  intros [H1 H2 H3 H4 H5 H6 H7 H8 H9 H10 H11 H12 H13] Hq Hs. split; cbn; try done.
  - intros id q E. apply (H5 id q). by eapply lookup_weaken.
  - intros i j q r Ei Ej. apply (H6 i j q r); by eapply lookup_weaken.
  - intros i j q r Ei Ej. apply (H7 i j q r); by eapply lookup_weaken.
  - intros id q E. apply (H8 id q). by eapply lookup_weaken.
  - intros id q E. apply (H9 id q). by eapply lookup_weaken.
Qed.

Lemma with_candidates_ok config max lost l c : logic_ok config max lost l -> candidates_ok config c -> logic_ok config max lost (with_candidates c l).
Proof. intros [] ?. by split. Qed.

Lemma with_scoring_ok config max lost l p : logic_ok config max lost l -> logic_ok config max lost (with_scoring p l).
Proof. intros []. by split. Qed.

Lemma with_block_queue_ok config max lost l q : logic_ok config max lost l -> queue_ok q -> shrunk (bsl_block_queue l) q -> logic_ok config max lost (with_block_queue q l).
Proof.
  intros [H1 H2 H3 H4 H5 H6 H7 H8 H9 H10 H11 H12 H13] Hq [Hm Ha Hs]. split; cbn; try done; [|congruence|auto].
  intros id r E Hr. apply Ha. by apply (H9 id r).
Qed.

Lemma with_frontiers_ok config max lost l p :
  logic_ok config max lost l -> scan_ok (fp_frontier_scan p) -> same_ranges (fp_frontier_scan (bsl_frontiers_processor l)) (fp_frontier_scan p) ->
  (length (fp_last_outdated_accounts p) <= 20)%nat -> logic_ok config max lost (with_frontiers p l).
Proof.
  intros [H1 H2 H3 H4 H5 H6 H7 H8 H9 H10 H11 H12 H13] Hs Hr Hl. split; cbn; try done.
  - intros id q E Hq. eapply same_ranges_scannable; [done|]. by apply (H5 id q).
  - intros x Hx. destruct (H10 x Hx) as (a & h & E & Hh). destruct (Hr a) as [[E1 _]|(h1 & h2 & E1 & E2 & (R1 & R2 & _))]; [congruence|].
    exists a, h2. assert (h1 = h) as -> by congruence. by rewrite R1, R2.
Qed.

Section operations.
Context `{Crypto} `{HL : HashOrderLaws} `{OL : OrderedFloatLaws} (config : CandidateAccountsConfig) (max : nat) (lost : Account -> Prop).

(** ** Queries *)

(** A query that may be sent: nobody else asks for it. *)
Definition fresh_spec (spec : AscPullQuerySpec) (l : BootstrapLogic) : Prop :=
  match qs_req_type spec with
  | ReqBlocks _ => not_busy l (qs_account spec) = true
  | ReqAccountInfo _ => not_asked l (qs_hash spec) = true
  | ReqFrontiers f => scannable (fp_frontier_scan (bsl_frontiers_processor l)) (frq_start f)
  end.

Lemma query_sent_ok id now timeout spec l :
  logic_ok config max lost l -> fresh_spec spec l -> exists l', query_sent id now timeout spec l = Some l' /\ logic_ok config max lost l'.
Proof using.
  intros Hok Hf. pose proof Hok as [H1 H2 H3 H4 H5 H6 H7 H8 H9 H10 H11 H12 H13]. unfold query_sent. set (q := mkRunningQuery _ _ _ _ _ _ _ _ _).
  destruct (rqc_insert_ok (bsl_running_queries l) q H2) as (c & -> & Hc & Ec & _). cbn [mbind option_bind].
  assert (Hl : logic_ok config max lost (with_running_queries c l)).
  { assert (Hid : rq_id q = id) by (unfold q, query_from_spec; by repeat case_match).
    rewrite Hid in Ec.
    assert (Hsrc : rq_account q = qs_account spec /\ rq_hash q = qs_hash spec /\
      (rq_source q = SourcePriority -> exists b, qs_req_type spec = ReqBlocks b) /\
      (rq_source q = SourceDependencies -> exists i, qs_req_type spec = ReqAccountInfo i) /\
      (rq_query_type q = BlocksByHash \/ rq_query_type q = BlocksByAccount -> rq_source q = SourcePriority) /\
      (rq_query_type q = QueryFrontiers -> exists f, qs_req_type spec = ReqFrontiers f /\ rq_start q = frq_start f)).
    { unfold q, query_from_spec. destruct (qs_req_type spec) as [b|i|f]; [destruct (brq_start_type b)|..]; cbn;
        (split; [done|]; split; [done|]; split; [|split; [|split]]; try done; try (by intros [?|?]); intros _; by eexists). }
    destruct Hsrc as (Ea & Eh & Sp & Sd & St & Sf). unfold fresh_spec in Hf. split; cbn; try done; rewrite Ec.
    - intros i q' [[<- <-]|[_ E]]%lookup_insert_Some Ht; [|by apply (H5 i q')]. destruct (Sf Ht) as (f & Er & ->). by rewrite Er in Hf.
    - intros i j q1 q2 [[<- <-]|[Hi E1]]%lookup_insert_Some [[<- <-]|[Hj E2]]%lookup_insert_Some S1 S2 Hacc; [done| | |by apply (H6 i j q1 q2)].
      + destruct (Sp S1) as [b Er]. rewrite Er in Hf. apply not_busy_ok in Hf as [_ Hf]; [|done]. exfalso. apply (Hf j q2); [done|congruence|done].
      + destruct (Sp S2) as [b Er]. rewrite Er in Hf. apply not_busy_ok in Hf as [_ Hf]; [|done]. exfalso. apply (Hf i q1); [done|congruence|done].
    - intros i j q1 q2 [[<- <-]|[Hi E1]]%lookup_insert_Some [[<- <-]|[Hj E2]]%lookup_insert_Some S1 S2 Hacc; [done| | |by apply (H7 i j q1 q2)].
      + destruct (Sd S1) as [b Er]. rewrite Er in Hf. rewrite not_asked_ok in Hf by done. exfalso. apply (Hf j q2); [done|congruence|done].
      + destruct (Sd S2) as [b Er]. rewrite Er in Hf. rewrite not_asked_ok in Hf by done. exfalso. apply (Hf i q1); [done|congruence|done].
    - intros i q' [[<- <-]|[_ E]]%lookup_insert_Some Ht; [by apply St|by apply (H8 i q')].
    - intros i q' [[<- <-]|[_ E]]%lookup_insert_Some Ht; [|by apply (H9 i q')]. destruct (Sp Ht) as [b Er]. rewrite Er in Hf.
      apply not_busy_ok in Hf as [Hf _]; [|done]. by rewrite Ea. }
  destruct (qs_cooldown_account spec); eexists; (split; [done|]); [|done]. apply with_candidates_ok; [done|]. by apply set_last_request_ok.
Qed.

Lemma next_priority_filter now f c :
  candidates_ok config c -> exists r, candidates_next_priority now f c = Some r /\ (prr_account r <> 0 -> f (prr_account r) = true).
Proof using HL OL.
  intros Hc. pose proof (ca_untrimmed _ _ Hc) as [Hcf Hp Hb Hd]. unfold candidates_next_priority.
  destruct (pc_is_empty (cn_priorities c)); [by exists priority_result_default|].
  destruct (pc_next_priority_ok (now - cac_cooldown (cn_config c)) f _ Hp) as (r & -> & Hr). cbn [mbind option_bind].
  destruct r as [e|]; eexists; (split; [done|]); [|done]. intros _. destruct Hr as (_ & Hc' & _). unfold cooled_down in Hc'. cbn.
  by repeat case_match.
Qed.

Lemma next_priority_query_ok s pull_type count query_id channel now l :
  logic_ok config max lost l -> exists o, next_priority_query s pull_type count query_id channel now l = Some o /\
    forall spec, o = Some spec -> fresh_spec spec l.
Proof using HL OL.
  intros Hok. unfold next_priority_query, next_priority.
  destruct (next_priority_filter now (not_busy l) _ (bs_candidates _ _ _ _ Hok)) as (r & -> & Hr). cbn [mbind option_bind].
  destruct (Z.eqb_spec (prr_account r) 0) as [|Hne]; [by exists None|]. cbn [pull_account_info].
  eexists. split; [done|]. intros spec [= <-]. unfold fresh_spec. cbn. by apply Hr.
Qed.

Lemma next_blocking_query_ok query_id channel l :
  logic_ok config max lost l -> exists o, next_blocking_query query_id channel l = Some o /\ forall spec, o = Some spec -> fresh_spec spec l.
Proof using.
  intros Hok. unfold next_blocking_query, next_blocking. pose proof (ca_untrimmed _ _ (bs_candidates _ _ _ _ Hok)) as [_ _ Hb _].
  destruct (next_blocking_ok (not_asked l) _ Hb) as (h & -> & Hh). cbn [mbind option_bind].
  destruct (Z.eqb_spec h 0) as [|Hne]; [by exists None|]. eexists. split; [done|]. intros spec [= <-]. unfold fresh_spec. cbn.
  by destruct (Hh Hne) as (a & e & _ & _ & _ & ?).
Qed.

(** ** Answers *)

Lemma verified_chain response q : verify_blocks response q = VerifyOk -> chained (bap_blocks response).
Proof using.
  unfold verify_blocks. destruct (rq_query_type q); try done; (destruct (_ <? _); [done|]); destruct (bap_blocks response) as [|b rest]; try done; cbn.
  - destruct (_ =? _); [|done]. cbn. destruct (length rest =? 0)%nat; [done|]. by destruct (blocks_chain _ rest).
  - destruct (_ =? _); [|done]. cbn. by destruct (blocks_chain _ rest).
Qed.

(** No other running query is a priority query of the account. *)
Definition account_free (a : Account) (l : BootstrapLogic) : Prop :=
  bq_accounts (bsl_block_queue l) !! a = None /\
  forall id r, rqc_by_id (bsl_running_queries l) !! id = Some r -> rq_source r = SourcePriority -> rq_account r <> a.

Lemma blocks_inserted_ok d l :
  logic_ok config max lost l -> account_free (abk_account d) l -> chained (abk_blocks d) ->
  logic_ok config max lost (with_block_queue (bq_insert d (bsl_block_queue l)).2 l).
Proof using.
  intros [H1 H2 H3 H4 H5 H6 H7 H8 H9 H10 H11 H12 H13] [Hn Hf] Hc. destruct (bq_insert_new d (bsl_block_queue l) Hn) as (Em & Ea & Es).
  split; cbn; try done.
  - by apply bq_insert_ok.
  - intros id q E Hq. apply Ea; [by apply (Hf id)|by apply (H9 id)].
  - congruence.
  - auto.
Qed.

Definition block_query (q : RunningQuery) : Prop := rq_query_type q = BlocksByHash \/ rq_query_type q = BlocksByAccount.

Lemma verified_block_query response q : verify_blocks response q <> VerifyInvalid -> block_query q.
Proof using. unfold verify_blocks, block_query. destruct (rq_query_type q); intros Hv; (by left) || (by right) || by destruct Hv. Qed.

Lemma process_blocks_ack_ok q response l :
  logic_ok config max lost l -> (block_query q -> account_free (rq_account q) l) -> exists ok l', process_blocks_ack q response l = Finished (ok, l') /\ logic_ok config max lost l'.
Proof using HL OL.
  intros Hok Hf. unfold process_blocks_ack. destruct (verify_blocks response q) eqn:Ev; [| |by exists false, l].
  - specialize (Hf (verified_block_query response q ltac:(congruence))). apply verified_chain in Ev. unfold process_valid_blocks.
    destruct (bap_blocks response) as [|first rest]; [done|]. cbn [unwrap mbind run_bind].
    eexists _, _. split; [done|]. destruct (block_hash first =? rq_start q); [|by apply blocks_inserted_ok]. destruct rest as [|b rest].
    + unfold bq_insert. destruct l as [? ? ? ? bq]. by destruct (_ <=? _)%nat.
    + apply blocks_inserted_ok; [done|done|]. by destruct (chained_tail _ _ _ Ev).
  - unfold process_empty_response. destruct (priority_down_ok config (rq_account q) _ (bs_candidates _ _ _ _ Hok)) as (r & c & -> & Hc). cbn [mbind run_bind].
    eexists _, _. split; [done|]. apply with_candidates_ok; [done|]. by apply set_last_request_ok.
Qed.

Lemma process_account_ack_ok q response l :
  logic_ok config max lost l -> exists ok l', process_account_ack q response l = Finished (ok, l') /\ logic_ok config max lost l'.
Proof using HL OL.
  intros Hok. unfold process_account_ack. destruct (_ =? _); [by exists true, l|].
  destruct (dependency_update_ok config (rq_hash q) (aip_account response) _ (bs_candidates _ _ _ _ Hok)) as (n & c & -> & Hc). cbn [mbind run_bind].
  destruct (priority_up_ok config (aip_account response) c Hc) as (r & c' & -> & Hc'). cbn [mbind run_bind].
  eexists _, _. split; [done|]. by apply with_candidates_ok.
Qed.

Lemma fp_process_ok q frontiers l :
  logic_ok config max lost l -> (rq_query_type q = QueryFrontiers -> scannable (fp_frontier_scan (bsl_frontiers_processor l)) (rq_start q)) ->
  exists ok p, fp_process q frontiers (bsl_frontiers_processor l) = Finished (ok, p) /\ logic_ok config max lost (with_frontiers p l).
Proof using.
  intros Hok Hs. set (p := bsl_frontiers_processor l) in *. assert (Hp : logic_ok config max lost (with_frontiers p l)) by (by destruct l).
  unfold fp_process. destruct (verify_frontiers frontiers q) eqn:Ev; [|by exists true, p|by exists false, p].
  assert (Hq : rq_query_type q = QueryFrontiers).
  { unfold verify_frontiers in Ev. destruct (bool_decide_reflect (rq_query_type q = QueryFrontiers)); done. }
  destruct (scan_process_ok (rq_start q) frontiers (fp_frontier_scan p) (bs_scan _ _ _ _ Hok) (Hs Hq)) as (d & c & -> & Hc & Hr & _). cbn [mbind run_bind].
  eexists _, _. split; [done|]. apply with_frontiers_ok; [done|done|done|apply (bs_outdated _ _ _ _ Hok)].
Qed.

(** An answer is used only if it has the id of a running query and the type it
    asked for; otherwise nothing but the query changes. *)
Lemma process_response_ok response channel l :
  logic_ok config max lost l -> exists answer l', process_response response channel l = Finished (answer, l') /\ logic_ok config max lost l' /\
    rqc_by_id (bsl_running_queries l') = delete (apa_id response) (rqc_by_id (bsl_running_queries l)) /\
    match rqc_by_id (bsl_running_queries l) !! apa_id response with
    | None => answer = Err NoRunningQueryFound
    | Some q => if is_valid_response_type response q then answer = Ok q \/ answer = Err InvalidResponse else answer = Err InvalidResponseType
    end.
Proof using HL OL.
  intros Hok. unfold process_response.
  destruct (rqc_remove_ok (bsl_running_queries l) (apa_id response) (bs_queries _ _ _ _ Hok)) as (c & -> & Hc & Ec). cbn [unwrap mbind run_bind].
  assert (Hl : logic_ok config max lost (with_running_queries c l)) by (apply queries_fewer; [done|done|rewrite Ec; apply delete_subseteq]).
  destruct (rqc_by_id (bsl_running_queries l) !! apa_id response) as [q|] eqn:E; [|by exists (Err NoRunningQueryFound), (with_running_queries c l)].
  destruct (is_valid_response_type response q) eqn:Et; [|by eexists _, _]. cbn [negb].
  set (l1 := with_scoring _ _). assert (Hl1 : logic_ok config max lost l1) by (by apply with_scoring_ok).
  assert (Hp : exists ok l', process_response_for_query q response l1 = Finished (ok, l') /\ logic_ok config max lost l' /\
    bsl_running_queries l' = c).
  { unfold process_response_for_query. destruct (apa_pull_type response) as [b|i|f].
    - destruct (process_blocks_ack_ok q b l1 Hl1) as (ok & l' & E' & Hl').
      { intros Hq. pose proof (bs_source _ _ _ _ Hok (apa_id response) q E Hq) as Hs. split; [by apply (bs_free _ _ _ _ Hok (apa_id response))|].
        intros id r Er Hr Ha. cbn in Er. rewrite Ec in Er. apply lookup_delete_Some in Er as [Hne Er]. apply Hne.
        apply (bs_one_priority _ _ _ _ Hok (apa_id response) id q r); done. }
      exists ok, l'. split; [done|]. split; [done|].
      unfold process_blocks_ack in E'. destruct (verify_blocks b q); [| |by injection E' as _ <-].
      + unfold process_valid_blocks in E'. destruct (bap_blocks b); [done|]. by injection E' as _ <-.
      + unfold process_empty_response in E'. destruct (priority_down _ _) as [[r c']| |]; [|done..]. by injection E' as _ <-.
    - destruct (process_account_ack_ok q i l1 Hl1) as (ok & l' & E' & Hl'). exists ok, l'. split; [done|]. split; [done|].
      unfold process_account_ack in E'. destruct (_ =? _); [by injection E' as _ <-|].
      destruct (dependency_update _ _ _) as [[r c']| |]; [|done..]. cbn [mbind run_bind] in E'.
      destruct (priority_up _ _) as [[r2 c2]| |]; [|done..]. by injection E' as _ <-.
    - destruct (fp_process_ok q f l1 Hl1) as (ok & p & -> & Hl'); [|by eexists _, _].
      intros Hq. by apply (bs_frontiers _ _ _ _ Hok (apa_id response) q). }
  destruct Hp as (ok & l' & -> & Hl' & El'). cbn [mbind run_bind]. eexists _, l'. split; [done|]. split; [done|]. split; [by rewrite El'|].
  destruct ok; [by left|by right].
Qed.

Lemma invalid_type_unused response channel q l l' :
  rqc_by_id (bsl_running_queries l) !! apa_id response = Some q -> is_valid_response_type response q = false ->
  process_response response channel l = Finished (Err InvalidResponseType, l') ->
  bsl_block_queue l' = bsl_block_queue l /\ bsl_candidate_accounts l' = bsl_candidate_accounts l.
Proof using.
  intros Eq Et. unfold process_response. destruct (rqc_remove _ _) as [[o c]|] eqn:Er; [|done]. cbn [unwrap mbind run_bind].
  destruct o as [q'|]; [|done]. assert (q' = q) as ->.
  { unfold rqc_remove in Er. rewrite Eq in Er. cbn in Er. destruct (remove_internal _ _ _ _ _); by simplify_option_eq. }
  rewrite Et. by intros [= <-].
Qed.

(** ** Blocks *)

Lemma enqueue_blocks_ok room l :
  logic_ok config max lost l -> exists blocks l', enqueue_blocks room l = Finished (blocks, l') /\ logic_ok config max lost l' /\
    bsl_running_queries l' = bsl_running_queries l /\
    (forall b, b ∈ blocks -> exists a d, bq_accounts (bsl_block_queue l) !! a = Some d /\ head (abk_blocks d) = Some b).
Proof using HL.
  intros Hok. unfold enqueue_blocks.
  destruct (enqueue_next_blocks_ok (S (size (bq_waiting (bsl_block_queue l)))) room 0 _ (bs_queue _ _ _ _ Hok) ltac:(lia))
    as (blocks & q & -> & Hq & Ea & Em & _ & Hb). cbn [mbind run_bind].
  eexists _, _. split; [done|]. split; [|done]. by apply with_block_queue_ok.
Qed.

Lemma inspect_progress_ok h b c : candidates_ok config c -> exists c', inspect_progress h b c = Finished c' /\ candidates_ok config c'.
Proof using HL OL.
  intros Hc. unfold inspect_progress.
  destruct (candidates_unblock_ok config (sv_account b) None c Hc) as (r & c1 & -> & Hc1). cbn [mbind run_bind].
  destruct (priority_up_ok config (sv_account b) c1 Hc1) as (r1 & c2 & -> & Hc2). cbn [mbind run_bind].
  destruct (sv_is_send b) eqn:Es; [|by exists c2].
  assert (exists d, sv_destination b = Some d) as [d ->].
  { unfold sv_is_send, sv_destination in *. destruct (sv_block b); try done; [by eexists|]. rewrite Es. by eexists. }
  cbn [unwrap mbind run_bind]. destruct (candidates_unblock_ok config d (Some h) c2 Hc2) as (u & c3 & -> & Hc3). cbn [mbind run_bind].
  destruct u; [by exists c3|]. destruct (priority_up_ok config d c3 Hc3) as (r2 & c4 & -> & Hc4). by exists c4.
Qed.

(** What the block processor reports: an accepted block was saved. *)
Definition result_ok (r : ProcessedResult) : Prop := pcr_status r = Ok () -> is_Some (pcr_saved_block r).

Lemma inspect_block_ok r account now l :
  logic_ok config max lost l -> result_ok r -> exists l', inspect_block r account now l = Finished l' /\ logic_ok config max lost l'.
Proof using HL OL.
  intros Hok Hr. pose proof (bs_candidates _ _ _ _ Hok) as Hc. unfold inspect_block. destruct (pcr_status r) as [[]|error] eqn:Es.
  - unfold inspect_ok.
    assert (Hprog : exists c, (if bool_decide (pcr_source r = SrcLive) then Finished (bsl_candidate_accounts l)
       else saved_block ← unwrap (pcr_saved_block r); inspect_progress (block_hash (pcr_block r)) saved_block (bsl_candidate_accounts l)) = Finished c /\ candidates_ok config c).
    { destruct (bool_decide _); [by eexists|]. destruct (Hr Es) as [b ->]. by apply inspect_progress_ok. }
    destruct Hprog as (c & -> & Hc'). cbn [mbind run_bind].
    destruct (bq_processed_ok _ (block_hash (pcr_block r)) (bs_queue _ _ _ _ Hok)) as (info & q & Eq & Hq & _). rewrite Eq. cbn [unwrap mbind run_bind].
    eexists. split; [done|]. apply with_block_queue_ok; [|done|exact (bq_processed_shrunk _ _ _ _ Eq)]. apply with_candidates_ok; [done|].
    destruct (bi_account info); [|done]. destruct (bi_was_last info); [by apply set_last_request_ok|done].
  - unfold inspect_error. destruct (processing_failed_ok _ (block_hash (pcr_block r)) (bs_queue _ _ _ _ Hok)) as (f & q & Eq & Hq & _). rewrite Eq. cbn [unwrap mbind run_bind].
    set (m := match error with GapSource => _ | _ => _ end).
    assert (Hm : exists c, m = Finished c /\ candidates_ok config c).
    { unfold m. destruct error; try by eexists.
      - destruct (_ && _ && _); [|by eexists]. destruct (pcr_block r) as [| | | |b]; try by eexists.
        change (account_field (State b)) with (Some (stateh_account (state_hashables b))). cbn [unwrap mbind run_bind].
        destruct (priority_up_ok config (stateh_account (state_hashables b)) _ Hc) as (r1 & c1 & -> & Hc1). by exists c1.
      - destruct (_ && _ && _); [|by eexists].
        destruct (candidates_block_ok config account (source_or_link (pcr_block r)) now _ Hc) as (r1 & c1 & -> & Hc1). by exists c1.
      - destruct (priority_erase_ok config account _ Hc) as (r1 & c1 & -> & Hc1). by exists c1. }
    destruct Hm as (c & -> & Hc'). cbn [mbind run_bind]. eexists. split; [done|]. apply with_block_queue_ok; [|done|exact (processing_failed_shrunk _ _ _ _ Eq)]. by apply with_candidates_ok.
Qed.

Lemma inspect_batch_ok s now batch i l :
  logic_ok config max lost l -> Forall result_ok batch -> exists l', inspect_batch s now i batch l = Finished l' /\ logic_ok config max lost l'.
Proof using HL OL.
  revert i l. induction batch as [|r batch IH]; intros i l Hok Hb; cbn [inspect_batch]; [by exists l|]. apply Forall_cons in Hb as [Hr Hb].
  destruct (inspect_block_ok r (inspected_account s r) (now i) l Hok Hr) as (l1 & -> & Hl1). by apply IH.
Qed.

(** ** Everything else *)

Lemma prioritize_outdated_ok accounts last c :
  candidates_ok config c -> (length last <= 20)%nat ->
  exists last' c', prioritize_outdated accounts last c = Finished (last', c') /\ candidates_ok config c' /\ (length last' <= 20)%nat.
Proof using HL OL.
  revert last c. induction accounts as [|a accounts IH]; intros last c Hc Hl; cbn [prioritize_outdated]; [by exists last, c|].
  destruct (priority_up_ok config a c Hc) as (r & c1 & -> & Hc1). cbn [mbind run_bind]. apply IH; [done|].
  pose proof (length_app last [a]) as Ha. destruct (Nat.ltb_spec 20 (length (last ++ [a]))); [|lia]. destruct (last ++ [a]); cbn in *; lia.
Qed.

Lemma frontiers_processed_ok outdated l :
  logic_ok config max lost l -> exists l', frontiers_processed outdated l = Finished l' /\ logic_ok config max lost l'.
Proof using HL OL.
  intros Hok. unfold frontiers_processed.
  destruct (prioritize_outdated_ok (oa_accounts outdated) _ _ (bs_candidates _ _ _ _ Hok) (bs_outdated _ _ _ _ Hok)) as (last & c & -> & Hc & Hl).
  cbn [mbind run_bind]. eexists. split; [done|]. apply with_candidates_ok; [|done].
  apply with_frontiers_ok; [done|apply (bs_scan _ _ _ _ Hok)|apply same_ranges_refl|done].
Qed.

Lemma bootstrap_cleanup_ok now l :
  logic_ok config max lost l -> exists l', bootstrap_cleanup now l = Finished l' /\ logic_ok config max lost l'.
Proof using HL OL.
  intros Hok. unfold bootstrap_cleanup. cbn [with_scoring bsl_candidate_accounts bsl_running_queries].
  destruct (decay_blocking_ok config now _ (bs_candidates _ _ _ _ Hok)) as (n & c & -> & Hc & _). cbn [mbind run_bind].
  destruct (erase_timed_out_ok now _ _ (bs_queries _ _ _ _ Hok) (Nat.lt_succ_diag_r _)) as (queries & -> & Hq & Hs). cbn [mbind run_bind].
  destruct (sync_dependencies_ok config c Hc) as (m & c' & -> & Hc'). cbn [mbind run_bind].
  eexists. split; [done|]. apply queries_fewer; [|done|done]. apply with_candidates_ok; [|done]. by apply with_scoring_ok.
Qed.

Lemma response_process_ok room overfill response channel l :
  logic_ok config max lost l -> exists r, response_process room overfill response channel l = Finished r /\ logic_ok config max lost r.2.
Proof using HL OL.
  intros Hok. unfold response_process.
  destruct (process_response_ok response channel l Hok) as (answer & l1 & -> & Hl1 & _). cbn [mbind run_bind].
  destruct answer as [q|e]; [|by eexists].
  destruct (enqueue_blocks_ok room l1 Hl1) as (blocks & l2 & -> & Hl2 & _). cbn [mbind run_bind].
  eexists. split; [done|]. apply with_frontiers_ok; [done|apply (bs_scan _ _ _ _ Hl2)|apply same_ranges_refl|apply (bs_outdated _ _ _ _ Hl2)].
Qed.

Lemma unblock_batch_ok accounts l :
  logic_ok config max lost l -> exists l', unblock_batch accounts l = Finished l' /\ logic_ok config max lost l'.
Proof using HL OL.
  revert l. induction accounts as [|a accounts IH]; intros l Hok; cbn [unblock_batch]; [by exists l|].
  destruct (candidates_unblock_ok config a None _ (bs_candidates _ _ _ _ Hok)) as (r & c & -> & Hc). cbn [mbind run_bind].
  apply IH. by apply with_candidates_ok.
Qed.

Lemma send_queries_ok query sent id now timeout l :
  logic_ok config max lost l -> (exists o, query = Some o /\ forall spec, o = Some spec -> fresh_spec spec l) ->
  exists l', send_queries query sent id now timeout l = Some l' /\ logic_ok config max lost l'.
Proof using.
  intros Hok (o & -> & Hf). unfold send_queries, send_query. cbn [mbind option_bind]. destruct o as [spec|]; [|by exists l].
  destruct sent; [|by exists l]. apply query_sent_ok; [done|by apply Hf].
Qed.

Lemma next_frontier_query_ok query_id channel now l :
  logic_ok config max lost l -> exists o l', next_frontier_query query_id channel now l = Some (o, l') /\ logic_ok config max lost l' /\
    forall spec, o = Some spec -> fresh_spec spec l'.
Proof using.
  intros Hok. unfold next_frontier_query. destruct (scan_next_ok now _ (bs_scan _ _ _ _ Hok)) as (start & c & -> & Hc & Hr & Hs). cbn [mbind option_bind].
  eexists _, _. split; [done|]. split; [apply with_frontiers_ok; [done|done|done|apply (bs_outdated _ _ _ _ Hok)]|].
  intros spec. destruct (Z.eqb_spec start 0); [done|]. intros [= <-]. unfold fresh_spec. cbn. destruct Hs as [->|(x & h & E & _ & Hx & _)]; [done|].
  eapply same_ranges_scannable; [done|]. exists x. split; [by eexists|lia].
Qed.
End operations.

(** ** Runs *)

Section runs.
Context `{Crypto} `{HL : HashOrderLaws} `{OL : OrderedFloatLaws} `{UL : U256Laws}.

(** How a query is sent: the answer of the channel, the random id, the time and
    the timeout. *)
Record Sending := mkSending { sd_sent : bool; sd_id : Z; sd_now : Timestamp; sd_timeout : Duration }.

(** What is done under the lock of the state: by the requesters, by the threads
    for messages, blocks and frontiers, and by the timer. *)
Inductive BootstrapOp :=
  | BsInitialize (genesis_account : Account)
  | BsUnblock (accounts : list Account)
  | BsChannel (shuffled : list Z)
  | BsPriority (s : LmdbStore) (pull_type : PullType) (max_pull_count query_id channel : Z) (now : Timestamp) (sending : Sending)
  | BsDependency (query_id channel : Z) (sending : Sending)
  | BsFrontiers (query_id channel : Z) (now : Timestamp) (sending : Sending)
  | BsResponse (room : nat -> bool) (overfill : bool) (response : AscPullAck) (channel : Z)
  | BsFrontiersChecked (outdated : OutdatedAccounts)
  | BsInspect (s : LmdbStore) (now : nat -> Timestamp) (room : nat -> bool) (batch : list ProcessedResult)
  | BsCleanup (now : Timestamp)
  | BsDeadChannels (dead_channel_ids : list Z).

Definition bs_send (query : option (option AscPullQuerySpec)) (sd : Sending) (l : BootstrapLogic) : run BootstrapLogic :=
  unwrap (send_queries query (sd_sent sd) (sd_id sd) (sd_now sd) (sd_timeout sd) l).

Definition bootstrap_step (op : BootstrapOp) (l : BootstrapLogic) : run BootstrapLogic :=
  match op with
  | BsInitialize genesis => bootstrap_initialize genesis l
  | BsUnblock accounts => unblock_batch accounts l
  | BsChannel shuffled => Finished (wait_channel shuffled l).2
  | BsPriority s pull_type max_pull_count query_id channel now sd =>
      bs_send (next_priority_query s pull_type max_pull_count query_id channel now l) sd l
  | BsDependency query_id channel sd => bs_send (next_blocking_query query_id channel l) sd l
  | BsFrontiers query_id channel now sd =>
      '(query, l) ← unwrap (next_frontier_query query_id channel now l);
      bs_send (Some query) sd l
  | BsResponse room overfill response channel => r ← response_process room overfill response channel l; Finished r.2
  | BsFrontiersChecked outdated => frontiers_processed outdated l
  | BsInspect s now room batch => '(_, l) ← inspect s now room batch l; Finished l
  | BsCleanup now => bootstrap_cleanup now l
  | BsDeadChannels ids => Finished (bootstrap_clean_up_dead_channels ids l)
  end.

Fixpoint bootstrap_run (ops : list BootstrapOp) (l : BootstrapLogic) : run BootstrapLogic :=
  match ops with [] => Finished l | op :: ops => l ← bootstrap_step op l; bootstrap_run ops l end.

Definition op_ok (op : BootstrapOp) : Prop := if op is BsInspect _ _ _ batch then Forall result_ok batch else True.

Lemma bootstrap_new_ok config scan channel_limit max :
  (1 <= fsc_parallelism scan)%nat -> Z.of_nat (fsc_parallelism scan) < 2 ^ 64 - 1 ->
  exists l, bootstrap_new config scan channel_limit max = Some l /\ logic_ok config max (fun _ => False) l.
Proof using UL.
  intros H1 H2. unfold bootstrap_new, frontier_scan_new. rewrite (proj2 (Z.ltb_lt _ _)) by lia. cbn [mbind option_bind].
  eexists. split; [done|]. split; cbn; try done.
  - apply candidates_empty_ok.
  - apply queries_default_ok.
  - apply queue_new_ok.
  - apply heads_with_heads_ok; lia.
  - intros x Hx. apply ranges_cover; lia.
  - lia.
Qed.

Lemma bs_send_ok config max lost query sd l :
  logic_ok config max lost l -> (exists o, query = Some o /\ forall spec, o = Some spec -> fresh_spec spec l) ->
  exists l', bs_send query sd l = Finished l' /\ logic_ok config max lost l'.
Proof using.
  intros Hok Hq. unfold bs_send. destruct (send_queries_ok config max lost query (sd_sent sd) (sd_id sd) (sd_now sd) (sd_timeout sd) l Hok Hq) as (l' & -> & Hl').
  by exists l'.
Qed.

Lemma bootstrap_step_ok config max lost op l :
  logic_ok config max lost l -> op_ok op -> exists l', bootstrap_step op l = Finished l' /\ logic_ok config max lost l'.
Proof using HL OL.
  intros Hok Hop. destruct op as [a|as_|sh|s pt mpc qid ch now sd|qid ch sd|qid ch now sd|room ov resp ch|out|s now room batch|now|ids]; cbn [bootstrap_step].
  - unfold bootstrap_initialize. destruct (priority_up_ok config a _ (bs_candidates _ _ _ _ Hok)) as (r & c & -> & Hc). cbn [mbind run_bind].
    eexists. split; [done|]. by apply with_candidates_ok.
  - by apply unblock_batch_ok.
  - eexists. split; [done|]. unfold wait_channel. destruct (scoring_channel _ _). by apply with_scoring_ok.
  - apply bs_send_ok; [done|]. by apply (next_priority_query_ok config max lost).
  - apply bs_send_ok; [done|]. by apply (next_blocking_query_ok config max lost).
  - destruct (next_frontier_query_ok config max lost qid ch now l Hok) as (o & l1 & -> & Hl1 & Hf). cbn [unwrap mbind run_bind].
    apply bs_send_ok; [done|]. by exists o.
  - destruct (response_process_ok config max lost room ov resp ch l Hok) as (r & -> & Hr). by eexists.
  - by apply frontiers_processed_ok.
  - unfold inspect. destruct (inspect_batch_ok config max lost s now batch 0 l Hok Hop) as (l1 & -> & Hl1). cbn [mbind run_bind].
    destruct (enqueue_blocks_ok config max lost room l1 Hl1) as (blocks & l2 & -> & Hl2 & _). by eexists.
  - by apply bootstrap_cleanup_ok.
  - eexists. split; [done|]. by apply with_scoring_ok.
Qed.

Lemma bootstrap_run_ok config max lost ops l :
  logic_ok config max lost l -> Forall op_ok ops -> exists l', bootstrap_run ops l = Finished l' /\ logic_ok config max lost l'.
Proof using HL OL.
  revert l. induction ops as [|op ops IH]; intros l Hok Hops; cbn [bootstrap_run]; [by exists l|]. apply Forall_cons in Hops as [Hop Hops].
  destruct (bootstrap_step_ok config max lost op l Hok Hop) as (l1 & -> & Hl1). by apply IH.
Qed.

(** C29. With a parallelism of the scan from 1 to 2^64 - 2, and a block
    processor that returns the saved block with every accepted one: whatever
    peers answer and in whatever order the threads take the lock, bootstrapping
    (in a release build, without debug assertions) never panics and all its
    loops end. At most one running query asks for the blocks of an account, none while blocks of the account wait to
    be processed, and at most one asks for a dependency. The blocks that wait
    for an account form a chain, the number of accounts and of blocks is the
    one that is reported, and there are at most [max] accounts. Every account
    between the first and the last one belongs to a head of the frontier scan,
    which asks inside its range. An answer is used only if a query with its id
    is running and asked for that type of answer, and ends that query; every
    other answer only ends the query with its id. *)
Theorem bootstrap_correct config scan channel_limit max ops :
  (1 <= fsc_parallelism scan)%nat -> Z.of_nat (fsc_parallelism scan) < 2 ^ 64 - 1 -> Forall op_ok ops ->
  exists l0 l, bootstrap_new config scan channel_limit max = Some l0 /\ bootstrap_run ops l0 = Finished l /\
    (forall i j q r, rqc_by_id (bsl_running_queries l) !! i = Some q -> rqc_by_id (bsl_running_queries l) !! j = Some r ->
       rq_source q = rq_source r ->
       rq_source q = SourcePriority /\ rq_account q = rq_account r \/ rq_source q = SourceDependencies /\ rq_hash q = rq_hash r -> i = j) /\
    (forall i q, rqc_by_id (bsl_running_queries l) !! i = Some q -> rq_source q = SourcePriority ->
       contains_account (rq_account q) (bsl_block_queue l) = false) /\
    (forall a d, bq_accounts (bsl_block_queue l) !! a = Some d -> abk_account d = a /\ chained (abk_blocks d)) /\
    (size (bq_accounts (bsl_block_queue l)) <= max)%nat /\
    bq_blocks (bsl_block_queue l) = wrap 64 (total_blocks (bq_accounts (bsl_block_queue l))) /\
    (forall x, 1 <= x < ACCOUNT_MAX -> exists a h, hc_by_start (fp_frontier_scan (bsl_frontiers_processor l)) !! a = Some h /\
       fh_start h <= x < fh_end h /\ fh_start h <= fh_next h < fh_end h) /\
    (forall response channel, exists answer l', process_response response channel l = Finished (answer, l') /\
       rqc_by_id (bsl_running_queries l') = delete (apa_id response) (rqc_by_id (bsl_running_queries l)) /\
       match rqc_by_id (bsl_running_queries l) !! apa_id response with
       | None => answer = Err NoRunningQueryFound
       | Some q => if is_valid_response_type response q then answer = Ok q \/ answer = Err InvalidResponse
                   else answer = Err InvalidResponseType /\ bsl_block_queue l' = bsl_block_queue l /\
                        bsl_candidate_accounts l' = bsl_candidate_accounts l
       end).
Proof using HL OL UL.
  intros H1 H2 Hops. destruct (bootstrap_new_ok config scan channel_limit max H1 H2) as (l0 & E0 & Hl0).
  destruct (bootstrap_run_ok config max _ ops _ Hl0 Hops) as (l & E & Hl). exists l0, l. pose proof Hl as [A1 A2 [Q1 Q2 Q3 Q4 Q5 Q6] A4 A5 A6 A7 A8 A9 A10 A11 A12 A13]. split_and!; try done.
  - intros i j q r Ei Ej Hs [[Hq Ha]|[Hq Ha]]; [by apply (A6 i j q r); try congruence|by apply (A7 i j q r); try congruence].
  - intros i q Ei Hq. apply bool_decide_false. rewrite (A9 i q Ei Hq). by intros [??].
  - by rewrite <- A11.
  - intros x Hx. destruct (A10 x Hx) as (a & h & Ea & Hh). exists a, h. split; [done|]. split; [done|].
    destruct (so_heads _ A4 a h Ea) as [_ Hok]. apply Hok.
  - intros response channel. destruct (process_response_ok config max _ response channel l Hl) as (answer & l' & Er & _ & Ed & Hr).
    exists answer, l'. split; [done|]. split; [done|]. destruct (_ !! apa_id response) as [q|] eqn:Eq; [|done].
    destruct (is_valid_response_type response q) eqn:Et; [done|]. subst answer. split; [done|]. by apply (invalid_type_unused response channel q).
Qed.
(** ** Two accounts that wait for one block *)



Definition block_answer (id : Z) (response : BlocksAckPayload) : AscPullAck := mkAscPullAck id (AckBlocks response).




End runs.

(** ** Example *)

#[local] Existing Instance trie_order.
#[local] Existing Instance trie_order_laws.
#[local] Existing Instance model_ordered_float.
#[local] Existing Instance model_ordered_float_laws.
#[local] Existing Instance model_u256.
#[local] Existing Instance model_u256_laws.

Definition sample_scan : FrontierScanConfig := mkFrontierScanConfig 4 4 8 (secs 5).
Definition sample_bootstrap : BootstrapLogic :=
  mkBootstrapLogic (candidates_new sample_candidates_config) (mkPeerScoring ∅ 16) rqc_default
    (mkFrontiersProcessor (heads_with_heads sample_scan) [] false []) (block_queue_new 64).



Definition sending (id : Z) : Sending := mkSending true id (secs 10) (secs 15).

(** Accounts 100 and 300 are asked for: the first one from its head on, the
    second one from its first block on. *)
Definition asking_ops : list BootstrapOp :=
  [BsInitialize 100; BsPriority sample_ledger Optimistic 128 1 7 (secs 10) (sending 11);
   BsFrontiersChecked (mkOutdatedAccounts [300] 1 0 1); BsPriority sample_ledger Optimistic 128 2 7 (secs 10) (sending 12)].

(** The first query is answered, and the block is accepted. *)
Definition bootstrap_ops : list BootstrapOp :=
  asking_ops ++
  [BsResponse (fun _ => true) false (block_answer 11 (mkBlocksAckPayload [sv_block sample_genesis_block; sample_send])) 7;
   BsInspect sample_ledger (fun _ => secs 11) (fun _ => true)
     [mkProcessedResult sample_send SrcBootstrap (Ok ()) (Some (mkSavedBlock sample_send (genesis_sideband 100)))];
   BsCleanup (secs 60)].

Lemma asking_ops_ok : Forall op_ok asking_ops.
Proof. repeat apply Forall_cons_2; try apply Forall_nil_2; done. Qed.

Lemma bootstrap_ops_ok : Forall op_ok bootstrap_ops.
Proof.
  apply Forall_app. split; [apply asking_ops_ok|]. repeat apply Forall_cons_2; try apply Forall_nil_2; try done.
  intros _. by eexists.
Qed.

Lemma bootstrap_correct_witness :
  (l ← bootstrap_run asking_ops sample_bootstrap; Finished (rqc_sequenced (bsl_running_queries l))) = Finished [11; 12] /\
  exists l0 l, bootstrap_new sample_candidates_config sample_scan 16 64 = Some l0 /\ bootstrap_run bootstrap_ops l0 = Finished l /\
    (size (bq_accounts (bsl_block_queue l)) <= 64)%nat.
Proof.
  split; [vm_compute; reflexivity|].
  destruct (bootstrap_correct sample_candidates_config sample_scan 16 64 bootstrap_ops ltac:(cbn; lia) ltac:(cbn; lia) bootstrap_ops_ok)
    as (l0 & l & E0 & E & _ & _ & _ & Hs & _). exact (ex_intro _ l0 (ex_intro _ l (conj E0 (conj E Hs)))).
Defined.


