(* ===== verification/BootstrapServerTheorems.v ===== *)
(** * Honest answers are accepted, and frontiers are compared exactly *)

From S2P Require Import Prelude Types Blocks Codec Work Store RepWeights Sets Chains Money.
From S2P Require Import LedgerInv Startup.
From S2P Require Import Election Collections Messages ViewTheorems Bootstrap BootstrapServer Sample.
From S2P Require Import CementSafe System Scenario.

(** ** Crawling equals looking up *)

Section crawler.
Context {V : Type} (entries : list (Account * V)).
Hypothesis (entries_sorted : StronglySorted (fun a b => a.1 <= b.1) entries).

Definition from_key (start : Account) : list (Account * V) := filter (fun e => start <= e.1) entries.

(** What is left of sorted entries when the first one is far enough. *)
Lemma filter_from_all (l : list (Account * V)) t :
  StronglySorted (fun a b => a.1 <= b.1) l -> match l with [] => True | e :: _ => t <= e.1 end -> filter (fun e => t <= e.1) l = l.
Proof using.
  induction 1 as [|e l Hs IH Hall]; intros Ht; [done|]. rewrite filter_cons, decide_True by done. f_equal. apply IH.
  destruct l as [|e' l]; [done|]. apply Forall_cons in Hall as [? _]. lia.
Qed.

Lemma from_key_sorted t : StronglySorted (fun a b => a.1 <= b.1) (from_key t).
Proof using entries_sorted. by apply sorted_filter. Qed.

Lemma from_key_from t0 t : t0 <= t -> from_key t = filter (fun e => t <= e.1) (from_key t0).
Proof using.
  intros Hle. unfold from_key. rewrite list_filter_filter. apply list_filter_iff. intros e. lia.
Qed.

Lemma advance_sequentially_ok attempts t (l : list (Account * V)) current :
  StronglySorted (fun a b => a.1 <= b.1) l ->
  let '(success, c) := advance_sequentially attempts t l current in
  success = true -> c = match filter (fun e => t <= e.1) l with [] => mkDatabaseCrawler None None | e :: it => mkDatabaseCrawler (Some it) (Some e) end.
Proof using.
  revert l current. induction attempts as [|n IH]; intros l current Hs; [done|]. destruct l as [|[a v] l]; [done|].
  apply StronglySorted_inv in Hs as [Hs Hall]. rewrite filter_cons. cbn [advance_sequentially target_reached fst]. destruct (Z.leb_spec t a) as [Hle|Hlt].
  - rewrite decide_True by done. intros _. rewrite filter_from_all; [done|done|]. destruct l as [|e l]; [done|].
    apply Forall_cons in Hall as [? _]. cbn in *. lia.
  - rewrite decide_False by lia. by apply IH.
Qed.

(** Moving an iterator forward finds what a new search finds. *)
Lemma advance_to_seek t0 t :
  t0 <= t -> crawler_advance_to from_key t (crawler_seek from_key t0) = crawler_seek from_key t.
Proof using entries_sorted.
  intros Hle. unfold crawler_advance_to. pose proof (from_key_sorted t0) as Hs. pose proof (from_key_from t0 t Hle) as Ht.
  assert (E : crawler_seek from_key t0 =
    match from_key t0 with [] => mkDatabaseCrawler None None | e :: it => mkDatabaseCrawler (Some it) (Some e) end) by done.
  rewrite E. clear E. destruct (from_key t0) as [|[a v] it] eqn:E0; cbn [cr_current cr_it target_reached]; [done|].
  destruct (Z.leb_spec t a) as [Ha|Ha].
  - unfold crawler_seek. by rewrite Ht, filter_from_all.
  - apply StronglySorted_inv in Hs as [Hs _]. pose proof (advance_sequentially_ok SEQUENTIAL_ATTEMPTS t it (Some (a, v)) Hs) as Hadv.
    destruct (advance_sequentially _ t it _) as [success c]. destruct success; [|done]. rewrite Hadv by done.
    unfold crawler_seek. rewrite Ht, filter_cons, decide_False by (cbn; lia). done.
Qed.

Lemma seek_current t : cr_current (crawler_seek from_key t) = head (from_key t).
Proof using. unfold crawler_seek. by destruct (from_key t). Qed.

(** The first entry from a key on is one for the key if there is one. *)
Lemma head_from_key t :
  match head (from_key t) with
  | Some (a, v) => (a, v) ∈ entries /\ t <= a /\ (a <> t -> forall v', (t, v') ∉ entries)
  | None => forall v', (t, v') ∉ entries
  end.
Proof using entries_sorted.
  pose proof (from_key_sorted t) as Hs.
  assert (Hin : forall e, e ∈ from_key t <-> t <= e.1 /\ e ∈ entries) by (intros e; unfold from_key; by rewrite list_elem_of_filter).
  destruct (from_key t) as [|[a v] l]; cbn.
  - intros v' Hv. assert ((t, v') ∈ (@nil (Account * V))) as Hn; [|by apply elem_of_nil in Hn]. apply Hin. split; [done|]. done.
  - destruct (proj1 (Hin (a, v)) ltac:(by left)) as [Hle He]. split; [done|]. split; [done|]. intros Hne v' Hv.
    assert (Ht : (t, v') ∈ (a, v) :: l) by (apply Hin; split; [done|done]). apply elem_of_cons in Ht as [[= -> _]|Ht]; [done|].
    apply StronglySorted_inv in Hs as [_ Hall]. rewrite Forall_forall in Hall. specialize (Hall _ Ht). cbn in *. lia.
Qed.
End crawler.

(** ** The frontier checker *)

(** What the result should be, by direct lookups. *)
Definition has_pending (s : LmdbStore) (a : Account) : bool :=
  existsb (fun e : PendingKey * PendingInfo => pk_receiving_account e.1 =? a) (map_to_list (st_pending s)).

Definition classify (s : LmdbStore) (f : Frontier) : FrontierCheckResult :=
  match st_account s !! frontier_account f with
  | Some info => if negb (ai_head info =? frontier_hash f) && negb (any_block_exists s (frontier_hash f)) then Outdated else UpToDate
  | None => if has_pending s (frontier_account f) then HasPending else UnknownAccount
  end.

#[global] Instance FrontierCheckResult_eq_dec : EqDecision FrontierCheckResult.
Proof. solve_decision. Defined.

Section checker.
Context (s : LmdbStore).
Hypothesis (pending_hashes : map_Forall (fun k _ => 0 <= pk_send_block_hash k) (st_pending s)).

Definition account_entries : list (Account * AccountInfo) := btm_entries Z.compare (st_account s).
Definition pending_entries : list (Account * PendingInfo) := (fun '(k, v) => (pk_receiving_account k, v)) <$> pending_sorted s.

Lemma account_entries_sorted : StronglySorted (fun a b => a.1 <= b.1) account_entries.
Proof using.
  unfold account_entries. pose proof (btm_entries_sorted Z.compare (st_account s) Z_key_order) as Hs.
  induction Hs as [|e l _ IH Hall]; constructor; [exact IH|]. eapply Forall_impl; [exact Hall|]. intros e' Hle. unfold key_le in Hle. cbn in *.
  rewrite Z.compare_ngt_iff in Hle. lia.
Qed.

Lemma pending_entries_sorted : StronglySorted (fun a b => a.1 <= b.1) pending_entries.
Proof using.
  unfold pending_entries, pending_sorted.
  assert (Hs : StronglySorted pending_entry_le (merge_sort pending_entry_le (map_to_list (st_pending s)))) by (apply StronglySorted_merge_sort; apply _).
  induction Hs as [|[k v] l _ IH Hall]; [constructor|]. cbn. constructor; [exact IH|]. apply Forall_fmap. eapply Forall_impl; [exact Hall|].
  intros [k' v'] Hle. unfold pending_entry_le, pending_key_ltb in Hle. cbn in *. lia.
Qed.

Lemma pending_source_eq t : pending_source s t = from_key pending_entries t.
Proof using pending_hashes.
  unfold pending_source, pending_range, from_key, pending_entries.
  assert (Hall : Forall (fun e : PendingKey * PendingInfo => 0 <= pk_send_block_hash e.1) (pending_sorted s)).
  { unfold pending_sorted. rewrite merge_sort_Permutation. apply Forall_forall. intros [k v] E%elem_of_map_to_list. by apply (pending_hashes k v). }
  induction Hall as [|[k v] l Hk _ IH]; [done|]. cbn [fmap list_fmap]. rewrite !filter_cons, <- IH. cbn in Hk.
  unfold pending_key_ltb at 1. cbn.
  destruct (decide ((pk_receiving_account k <? t) || (pk_receiving_account k =? t) && (pk_send_block_hash k <? 0) = false)) as [Hd|Hd].
  - rewrite decide_True by (cbn; lia). done.
  - rewrite decide_False by (cbn; lia). done.
Qed.

Lemma elem_of_account_entries a i : (a, i) ∈ account_entries <-> st_account s !! a = Some i.
Proof using. apply elem_of_btm_entries. Qed.

Lemma has_pending_spec a : has_pending s a = true <-> exists v, (a, v) ∈ pending_entries.
Proof using.
  unfold has_pending, pending_entries, pending_sorted. rewrite existsb_exists. split.
  - intros ([k v] & Hin%list_elem_of_In & Hk). cbn in Hk. exists v. apply list_elem_of_fmap. exists (k, v).
    split; [f_equal; lia|]. by rewrite merge_sort_Permutation.
  - intros (v & ([k v'] & [= -> ->] & Hin)%list_elem_of_fmap). exists (k, v'). split; [|cbn; lia].
    apply list_elem_of_In. by rewrite merge_sort_Permutation in Hin.
Qed.

Lemma check_frontier_exact f t0 :
  t0 <= frontier_account f ->
  check_frontier s f (mkFrontierChecker (crawler_seek (accounts_range s) t0) (crawler_seek (pending_source s) t0)) =
    (classify s f, mkFrontierChecker (crawler_seek (accounts_range s) (frontier_account f)) (crawler_seek (pending_source s) (frontier_account f))).
Proof using pending_hashes.
  intros Hle. unfold check_frontier. cbn [fc_account_crawler fc_pending_crawler].
  assert (Ea : crawler_advance_to (accounts_range s) (frontier_account f) (crawler_seek (accounts_range s) t0) = crawler_seek (accounts_range s) (frontier_account f))
    by exact (advance_to_seek account_entries account_entries_sorted t0 (frontier_account f) Hle).
  assert (Ep : crawler_advance_to (pending_source s) (frontier_account f) (crawler_seek (pending_source s) t0) = crawler_seek (pending_source s) (frontier_account f)).
  { pose proof (advance_to_seek pending_entries pending_entries_sorted t0 (frontier_account f) Hle) as E.
    unfold crawler_advance_to, crawler_seek in *. by rewrite !pending_source_eq. }
  rewrite Ea, Ep. f_equal. unfold classify.
  pose proof (head_from_key account_entries account_entries_sorted (frontier_account f)) as Ha.
  pose proof (head_from_key pending_entries pending_entries_sorted (frontier_account f)) as Hp.
  assert (Hc : cr_current (crawler_seek (accounts_range s) (frontier_account f)) = head (from_key account_entries (frontier_account f)))
    by exact (seek_current account_entries (frontier_account f)).
  assert (Hd : cr_current (crawler_seek (pending_source s) (frontier_account f)) = head (from_key pending_entries (frontier_account f))).
  { unfold crawler_seek. rewrite pending_source_eq. by destruct (from_key pending_entries _). }
  cbn [fc_account_crawler fc_pending_crawler]. rewrite Hc, Hd.
  assert (Hpend : match head (from_key pending_entries (frontier_account f)) with
    | Some (account, _) => if account =? frontier_account f then HasPending else UnknownAccount
    | None => UnknownAccount end = if has_pending s (frontier_account f) then HasPending else UnknownAccount).
  { destruct (has_pending s (frontier_account f)) eqn:Eh.
    - apply has_pending_spec in Eh as [v Hv]. destruct (head (from_key pending_entries (frontier_account f))) as [[a w]|]; [|by destruct (Hp v)].
      destruct (Z.eqb_spec a (frontier_account f)) as [|Hne]; [done|]. destruct Hp as (_ & _ & Hp). by destruct (Hp Hne v).
    - destruct (head (from_key pending_entries (frontier_account f))) as [[a w]|]; [|done]. destruct (Z.eqb_spec a (frontier_account f)) as [->|]; [|done].
      destruct Hp as (Hp & _). assert (has_pending s (frontier_account f) = true) by (apply has_pending_spec; by eexists). congruence. }
  rewrite Hpend. destruct (st_account s !! frontier_account f) as [info|] eqn:E.
  - apply elem_of_account_entries in E. destruct (head (from_key account_entries (frontier_account f))) as [[a i]|]; [|by destruct (Ha info)].
    destruct Ha as (Hin & _ & Hne). destruct (Z.eqb_spec a (frontier_account f)) as [->|Hn]; [|by destruct (Hne Hn info)].
    apply elem_of_account_entries in Hin, E. assert (i = info) as -> by congruence. done.
  - destruct (head (from_key account_entries (frontier_account f))) as [[a i]|]; [|done].
    destruct Ha as (Hin & _). destruct (Z.eqb_spec a (frontier_account f)) as [->|]; [|done]. apply elem_of_account_entries in Hin. congruence.
Qed.
End checker.

Lemma ascending_first p fs : ascending_from p fs = true -> Forall (fun f => p < frontier_account f) fs.
Proof.
  revert p. induction fs as [|f fs IH]; intros p; cbn; [constructor|]. destruct (Z.leb_spec (frontier_account f) p); [done|].
  intros Ha. constructor; [done|]. eapply Forall_impl; [by apply IH|]. cbn. intros. lia.
Qed.

(** The frontiers the ledger lacks, in the order they came. *)
Definition lacking (s : LmdbStore) (fs : list Frontier) : list Frontier :=
  filter (fun f => classify s f = Outdated \/ classify s f = HasPending) fs.

Lemma check_frontiers_exact s fs t0 o :
  map_Forall (fun k _ => 0 <= pk_send_block_hash k) (st_pending s) -> Forall (fun f => t0 <= frontier_account f) fs ->
  (exists p, ascending_from p fs = true) ->
  check_frontiers s fs (mkFrontierChecker (crawler_seek (accounts_range s) t0) (crawler_seek (pending_source s) t0)) o =
    mkOutdatedAccounts (oa_accounts o ++ (frontier_account <$> lacking s fs))
      (oa_outdated o + length (filter (fun f => classify s f = Outdated) fs))
      (oa_pending o + length (filter (fun f => classify s f = HasPending) fs)) (oa_frontiers_received o).
Proof.
  intros Hp Hall [p Ha]. revert t0 o p Hall Ha. induction fs as [|f fs IH]; intros t0 o p Hall Ha.
  { cbn. rewrite app_nil_r, !Nat.add_0_r. by destruct o. }
  apply Forall_cons in Hall as [Hf _]. cbn [check_frontiers]. rewrite (check_frontier_exact s Hp f t0 Hf).
  cbn in Ha. destruct (frontier_account f <=? p); [done|]. pose proof (ascending_first _ _ Ha) as Hnext.
  rewrite (IH (frontier_account f) _ (frontier_account f)); [|eapply Forall_impl; [exact Hnext|]; cbn; lia|done].
  unfold lacking. rewrite !filter_cons.
  destruct (classify s f); cbn [oa_accounts oa_outdated oa_pending oa_frontiers_received];
    repeat (first [rewrite decide_True by tauto|rewrite decide_False by (intuition congruence)]); cbn; rewrite ?Nat.add_succ_r, <- ?app_assoc; done.
Qed.

(** C32. Comparing the frontiers of a peer with the ledger by two iterators that
    move forward, with up to ten steps between lookups, gives exactly what
    looking up every account would give: the accounts whose head differs from
    the frontier that is not known, and the accounts without blocks for which
    something is pending, in order and counted. *)
Theorem frontier_check_exact (s : LmdbStore) (fs : list Frontier) :
  map_Forall (fun k _ => 0 <= pk_send_block_hash k) (st_pending s) -> are_accounts_in_ascending_order fs = true ->
  get_outdated_accounts s fs =
    mkOutdatedAccounts (frontier_account <$> lacking s fs) (length (filter (fun f => classify s f = Outdated) fs))
      (length (filter (fun f => classify s f = HasPending) fs)) (length fs).
Proof.
  intros Hp Ha. destruct fs as [|f fs]; [done|]. unfold get_outdated_accounts.
  rewrite check_frontiers_exact; [done|done| |by exists 0].
  unfold are_accounts_in_ascending_order in Ha. cbn in Ha. destruct (frontier_account f <=? 0); [done|].
  constructor; [done|]. eapply Forall_impl; [by apply ascending_first|]. cbn. lia.
Qed.

(** ** Chains *)

Section chains.
Context (c : LedgerConstants) (min_weight : Amount) (s : LmdbStore).
Hypothesis (Hinv : ledger_inv c min_weight s).

(** Consecutive blocks of an account, from a height on. *)
Definition segment (a : Account) (height : Z) (blocks : list Block) : Prop :=
  forall i x, blocks !! i = Some x ->
    exists b, st_block s !! block_hash x = Some b /\ sv_block b = x /\ sv_account b = a /\ sv_height b = height + Z.of_nat i.

Lemma every_height a info k :
  st_account s !! a = Some info -> 1 <= k <= ai_block_count info ->
  exists h b, st_block s !! h = Some b /\ sv_account b = a /\ sv_height b = k.
Proof using Hinv.
  intros Ei Hk. destruct (ac_head _ _ (li_accounts _ _ _ Hinv) _ _ Ei) as (hb & Eh & Ha & Hc & _).
  assert (Hdown : forall n, Z.of_nat n <= ai_block_count info - 1 ->
    exists h b, st_block s !! h = Some b /\ sv_account b = a /\ sv_height b = ai_block_count info - Z.of_nat n).
  { induction n as [|n IH]; intros Hn; [exists (ai_head info), hb; split; [done|]; split; [done|lia]|].
    destruct (IH ltac:(lia)) as (h & b & Eb & Hb & Hh). destruct (decide (previous b = 0)) as [H0|H0].
    - destruct (bk_open _ (li_blocks _ _ _ Hinv) _ _ Eb H0). lia.
    - destruct (bk_prev _ (li_blocks _ _ _ Hinv) _ _ Eb H0) as (p & Ep & Hp & Hph). exists (previous b), p. split; [done|]. split; [congruence|lia]. }
  destruct (Hdown (Z.to_nat (ai_block_count info - k)) ltac:(lia)) as (h & b & ? & ? & ?). exists h, b. split; [done|]. split; [done|lia].
Qed.

(** The block at the next height follows. *)
Lemma follows h1 (b1 : SavedBlock) h2 (b2 : SavedBlock) :
  st_block s !! h1 = Some b1 -> st_block s !! h2 = Some b2 -> sv_account b2 = sv_account b1 -> sv_height b2 = sv_height b1 + 1 ->
  previous b2 = h1.
Proof using Hinv.
  intros E1 E2 Ha Hh. pose proof (li_blocks _ _ _ Hinv) as Hb. pose proof (bk_height _ Hb _ _ E1). destruct (decide (previous b2 = 0)) as [H0|H0].
  - destruct (bk_open _ Hb _ _ E2 H0). lia.
  - destruct (bk_prev _ Hb _ _ E2 H0) as (p & Ep & Hp & Hph). apply (bk_unique _ Hb _ _ _ _ Ep E1); [congruence|lia].
Qed.

Lemma block_successor_ok h (b : SavedBlock) info :
  st_block s !! h = Some b -> st_account s !! sv_account b = Some info ->
  match block_successor s h with
  | Some h' => exists b' : SavedBlock, h' <> 0 /\ st_block s !! h' = Some b' /\ sv_account b' = sv_account b /\ sv_height b' = sv_height b + 1
  | None => sv_height b = ai_block_count info
  end.
Proof using Hinv.
  intros Eb Ei. pose proof (li_blocks _ _ _ Hinv) as Hb. destruct (bk_key _ Hb _ _ Eb) as [Hk Hh0].
  unfold block_successor, block_successor_by_qualified_root, successor_get. cbn [qr_previous qr_root].
  destruct (u256_is_zero_spec h); [done|]. cbn [negb]. destruct (st_successors s !! h) as [h'|] eqn:Es.
  - apply (li_succ _ _ _ Hinv) in Es as (_ & b' & Eb' & Hp). exists b'. destruct (bk_key _ Hb _ _ Eb') as [_ ?]. split; [done|]. split; [done|].
    destruct (bk_prev _ Hb _ _ Eb' ltac:(congruence)) as (p & Ep & Ha & Hh). assert (p = b) as -> by congruence. split; [done|lia].
  - destruct (ac_block _ _ (li_accounts _ _ _ Hinv) _ _ Eb) as (i & Ei' & Hle). assert (i = info) as -> by congruence.
    destruct (decide (sv_height b = ai_block_count info)) as [|Hne]; [done|]. pose proof (bk_height _ Hb _ _ Eb).
    destruct (every_height (sv_account b) info (sv_height b + 1) Ei ltac:(lia)) as (h' & b' & Eb' & Ha & Hh).
    assert (st_successors s !! h = Some h'); [|congruence]. apply (li_succ _ _ _ Hinv). split; [done|]. exists b'. split; [done|]. by eapply follows.
Qed.

Lemma segment_chain a h x l : segment a h (x :: l) -> blocks_chain (block_hash x) l = true.
Proof using Hinv.
  revert h x. induction l as [|y l IH]; intros h x Hs; [done|]. cbn.
  destruct (Hs 0%nat x eq_refl) as (bx & Ex & Hx & Hax & Hhx). destruct (Hs 1%nat y eq_refl) as (b' & Ey & Hy & Hay & Hhy).
  assert (Hprev : previous b' = block_hash x) by (eapply (follows _ bx _ b'); [done|done|congruence|lia]). rewrite Hy in Hprev.
  rewrite Hprev, Z.eqb_refl. cbn. apply (IH (h + 1) y). intros i z Ez. destruct (Hs (S i) z Ez) as (bz & ? & ? & ? & ?).
  exists bz. split; [done|]. split; [done|]. split; [done|lia].
Qed.

(** The server sends as much of the chain as there is room for. *)
Lemma prepare_loop_ok fuel count h (b : SavedBlock) info blocks :
  st_block s !! h = Some b -> st_account s !! sv_account b = Some info -> (length blocks < count)%nat ->
  ai_block_count info - sv_height b + 1 < Z.of_nat fuel ->
  exists l, prepare_loop fuel s count (Some b) blocks = Finished (blocks ++ l) /\ segment (sv_account b) (sv_height b) l /\
    head l = Some (sv_block b) /\
    Z.of_nat (length l) = Z.min (Z.of_nat count - Z.of_nat (length blocks)) (ai_block_count info - sv_height b + 1).
Proof using Hinv.
  revert h b blocks. induction fuel as [|fuel IH]; intros h b blocks Eb Ei Hl Hf.
  { destruct (ac_block _ _ (li_accounts _ _ _ Hinv) _ _ Eb) as (i & Ei' & Hle). assert (i = info) as -> by congruence. lia. }
  destruct (bk_key _ (li_blocks _ _ _ Hinv) _ _ Eb) as [Hk Hh0]. cbn [prepare_loop].
  destruct (ac_block _ _ (li_accounts _ _ _ Hinv) _ _ Eb) as (i & Ei' & Hle). assert (i = info) as -> by congruence.
  assert (Hone : segment (sv_account b) (sv_height b) [sv_block b]).
  { intros [|i] x Ex; [|done]. injection Ex as <-. exists b. split; [by rewrite Hk|]. split; [done|]. split; [done|lia]. }
  rewrite length_app. cbn [length]. destruct (Nat.eqb_spec (length blocks + 1) count) as [Hc|Hc].
  { exists [sv_block b]. split; [done|]. split; [done|]. split; [done|]. cbn. lia. }
  pose proof (block_successor_ok h b info Eb Ei) as Hs. rewrite Hk. destruct (block_successor s h) as [h'|]; cbn [default from_option id].
  - destruct Hs as (b' & Hh' & Eb' & Ha & Hh). unfold any_get_block, block_get. destruct (u256_is_zero_spec h'); [done|]. rewrite Eb'.
    destruct (IH h' b' (blocks ++ [sv_block b]) Eb') as (l & -> & Hseg & _ & Hlen); [by rewrite Ha|rewrite length_app; cbn; lia|lia|].
    exists (sv_block b :: l). rewrite <- app_assoc. split; [done|]. split; [|split; [done|rewrite length_app in Hlen; cbn in *; lia]].
    intros [|i] x Ex; [by apply Hone|]. destruct (Hseg i x Ex) as (bx & ? & ? & ? & ?). exists bx. split; [done|]. split; [done|]. split; [congruence|lia].
  - exists [sv_block b]. destruct fuel; [lia|]. cbn. split; [done|]. split; [done|]. split; [done|]. lia.
Qed.

Lemma block_count_le a info : st_account s !! a = Some info -> ai_block_count info <= Z.of_nat (size (st_block s)).
Proof using Hinv.
  intros Ei. rewrite <- (block_count_sum _ _ (li_blocks _ _ _ Hinv) (li_accounts _ _ _ Hinv)).
  apply (map_sum_lookup_le ai_block_count _ a); [|done]. intros a' i' Ei'.
  destruct (ac_head _ _ (li_accounts _ _ _ Hinv) _ _ Ei') as (hb & Eh & _ & Hc & _). pose proof (bk_height _ (li_blocks _ _ _ Hinv) _ _ Eh). lia.
Qed.

Lemma server_prepare_response_ok id h (b : SavedBlock) info count :
  st_block s !! h = Some b -> st_account s !! sv_account b = Some info -> (1 <= count <= MAX_BLOCKS)%nat ->
  exists l, server_prepare_response s id h count = Finished (mkAscPullAck id (AckBlocks (mkBlocksAckPayload l))) /\
    segment (sv_account b) (sv_height b) l /\ head l = Some (sv_block b) /\
    Z.of_nat (length l) = Z.min (Z.of_nat count) (ai_block_count info - sv_height b + 1).
Proof using Hinv.
  intros Eb Ei Hc. destruct (bk_key _ (li_blocks _ _ _ Hinv) _ _ Eb) as [Hk Hh0]. unfold server_prepare_response, prepare_blocks.
  destruct (u256_is_zero_spec h); [done|]. unfold any_get_block, block_get. destruct (u256_is_zero_spec h); [done|]. rewrite Eb.
  pose proof (block_count_le _ _ Ei). pose proof (bk_height _ (li_blocks _ _ _ Hinv) _ _ Eb).
  destruct (prepare_loop_ok (S (S (size (st_block s)))) count h b info [] Eb Ei) as (l & -> & Hs & Hh & Hl); [cbn; lia|lia|].
  cbn [mbind run_bind app]. exists l. unfold blocks_ack_new. cbn in Hl. destruct (Nat.ltb_spec MAX_BLOCKS (length l)); [lia|]. cbn.
  split; [done|]. split; [done|]. split; [done|]. lia.
Qed.
End chains.

(** ** Requests for blocks *)

Section answers.
Context (c : LedgerConstants) (min_weight : Amount) (s : LmdbStore).
Hypothesis (Hinv : ledger_inv c min_weight s).

(** The block an answer has to begin with. *)
Definition answer_start (r : BlocksReqPayload) : option SavedBlock :=
  match brq_start_type r with
  | HashAccount => info ← st_account s !! brq_start r; st_block s !! ai_open_block info
  | HashBlock => st_block s !! brq_start r
  end.

Lemma process_blocks_ok id r :
  1 <= brq_count r <= Z.of_nat MAX_BLOCKS ->
  exists l, process_blocks s id r = Finished (mkAscPullAck id (AckBlocks (mkBlocksAckPayload l))) /\
    match answer_start r with
    | None => l = []
    | Some b => exists info, st_account s !! sv_account b = Some info /\ segment s (sv_account b) (sv_height b) l /\ head l = Some (sv_block b) /\
        Z.of_nat (length l) = Z.min (brq_count r) (ai_block_count info - sv_height b + 1) /\
        match brq_start_type r with
        | HashAccount => sv_account b = brq_start r /\ sv_height b = 1
        | HashBlock => block_hash b = brq_start r
        end
    end.
Proof using Hinv.
  intros Hc. unfold process_blocks, answer_start, any_get_account, account_get. set (count := Z.to_nat _).
  assert (Hn : (1 <= count <= MAX_BLOCKS)%nat) by lia. assert (Hz : Z.of_nat count = brq_count r) by lia.
  destruct (brq_start_type r).
  - destruct (st_account s !! brq_start r) as [info|] eqn:Ei; [|by exists []]. cbn [mbind option_bind].
    destruct (ac_open _ _ (li_accounts _ _ _ Hinv) _ _ Ei) as (ob & Eo & Ha & Hh). rewrite Eo.
    destruct (server_prepare_response_ok c min_weight s Hinv id _ ob info count Eo ltac:(by rewrite Ha) Hn) as (l & -> & Hs & Hd & Hl).
    exists l. split; [done|]. exists info. rewrite Ha in *. by rewrite Hz in Hl.
  - rewrite (any_block_exists_eq c min_weight s Hinv). destruct (st_block s !! brq_start r) as [b|] eqn:Eb.
    + rewrite bool_decide_true by (by eexists). destruct (ac_block _ _ (li_accounts _ _ _ Hinv) _ _ Eb) as (info & Ei & _).
      destruct (server_prepare_response_ok c min_weight s Hinv id _ b info count Eb Ei Hn) as (l & -> & Hs & Hd & Hl).
      exists l. split; [done|]. exists info. rewrite Hz in Hl. split; [done|]. split; [done|]. split; [done|]. split; [done|].
      by destruct (bk_key _ (li_blocks _ _ _ Hinv) _ _ Eb).
    + rewrite bool_decide_false by (by intros [??]). by exists [].
Qed.

Lemma open_account_field h (b : SavedBlock) : st_block s !! h = Some b -> sv_height b = 1 -> account_field b = Some (sv_account b).
Proof using Hinv.
  intros Eb Hh. pose proof (li_blocks _ _ _ Hinv) as Hb. destruct (decide (previous b = 0)) as [H0|H0].
  - destruct (bk_open _ Hb _ _ Eb H0) as [_ Ho]. unfold sv_account. destruct (account_field b) eqn:E; [done|]. by destruct (sv_block b).
  - destruct (bk_prev _ Hb _ _ Eb H0) as (p & Ep & _ & Hph). pose proof (bk_height _ Hb _ _ Ep). lia.
Qed.

(** Verification accepts the answer. *)
Lemma segment_verified r (b : SavedBlock) info l id spec_account hash sent cutoff :
  answer_start r = Some b -> segment s (sv_account b) (sv_height b) l -> head l = Some (sv_block b) ->
  Z.of_nat (length l) = Z.min (brq_count r) (ai_block_count info - sv_height b + 1) ->
  match brq_start_type r with
  | HashAccount => sv_account b = brq_start r /\ sv_height b = 1
  | HashBlock => block_hash b = brq_start r
  end ->
  verify_blocks (mkBlocksAckPayload l)
    (mkRunningQuery id SourcePriority (match brq_start_type r with HashAccount => BlocksByAccount | HashBlock => BlocksByHash end)
       (brq_start r) spec_account hash (brq_count r) sent cutoff) =
    match brq_start_type r, l with HashBlock, [_] => VerifyNothingNew | _, _ => VerifyOk end.
Proof using Hinv.
  intros Es Hs Hd Hn Ht. destruct l as [|x l]; [done|]. injection Hd as ->.
  pose proof (segment_chain c min_weight s Hinv _ _ _ _ Hs) as Hc. unfold verify_blocks. cbn [rq_query_type bap_blocks rq_count rq_start].
  unfold answer_start in Es. destruct (brq_start_type r) eqn:Et; (destruct (Z.ltb_spec (brq_count r) (Z.of_nat (length (sv_block b :: l)))); [lia|]);
    cbn [negb]; rewrite Hc.
  - destruct Ht as [Ha Hh]. destruct (st_account s !! brq_start r) as [i|]; [|done]. cbn in Es. rewrite (open_account_field _ _ Es Hh). cbn.
    by rewrite Ha, Z.eqb_refl.
  - rewrite Ht, Z.eqb_refl. by destruct l.
Qed.

(** ** Requests for frontiers *)

Lemma ascending_take n p fs : ascending_from p fs = true -> ascending_from p (take n fs) = true.
Proof using.
  revert n p. induction fs as [|f fs IH]; intros [|n] p; cbn; try done. destruct (_ <=? _); [done|]. apply IH.
Qed.

Definition frontiers_from (start : Account) : list Frontier := (fun '(account, info) => mkFrontier account (ai_head info)) <$> accounts_range s start.

Lemma elem_of_frontiers_from start f :
  f ∈ frontiers_from start <-> start <= frontier_account f /\ exists info, st_account s !! frontier_account f = Some info /\ ai_head info = frontier_hash f.
Proof using.
  unfold frontiers_from, accounts_range. rewrite list_elem_of_fmap. split.
  - intros ([a info] & -> & [Hle Hin%elem_of_btm_entries]%list_elem_of_filter). cbn in *. split; [done|]. by exists info.
  - intros (Hle & info & Ei & Hh). exists (frontier_account f, info). split; [destruct f; cbn in *; by subst|].
    apply list_elem_of_filter. split; [done|]. by apply elem_of_btm_entries.
Qed.

Lemma frontiers_from_ascending start : 1 <= start -> ascending_from 0 (frontiers_from start) = true.
Proof using.
  intros H1. unfold frontiers_from, accounts_range.
  assert (Hs : StronglySorted (fun a b : Account * AccountInfo => a.1 <= b.1) (filter (fun e => start <= e.1) (btm_entries Z.compare (st_account s))))
    by (apply (from_key_sorted (account_entries s)), account_entries_sorted).
  assert (Hn : NoDup (filter (fun e => start <= e.1) (btm_entries Z.compare (st_account s))).*1).
  { apply (sublist_NoDup _ (btm_entries Z.compare (st_account s)).*1); [rewrite btm_entries_perm; apply NoDup_fst_map_to_list|].
    apply fmap_sublist, sublist_filter. }
  assert (Hp : Forall (fun e : Account * AccountInfo => 0 < e.1) (filter (fun e => start <= e.1) (btm_entries Z.compare (st_account s)))).
  { apply Forall_forall. intros e [He _]%list_elem_of_filter. lia. }
  generalize dependent (filter (fun e : Account * AccountInfo => start <= e.1) (btm_entries Z.compare (st_account s))). clear H1. generalize 0.
  intros p es. revert p. induction es as [|[a i] es IH]; intros p Hs Hn Hp; [done|]. cbn. apply Forall_cons in Hp as [Hp _]. cbn in Hp.
  destruct (Z.leb_spec a p); [lia|]. apply StronglySorted_inv in Hs as [Hs Hall]. apply NoDup_cons in Hn as [Ha Hn]. apply IH; [done|done|].
  rewrite Forall_forall in *. intros e He. specialize (Hall e He). cbn in *. assert (a <> e.1); [|lia].
  intros ->. apply Ha. by apply list_elem_of_fmap_2.
Qed.

Lemma ascending_before p fs i f :
  ascending_from p fs = true -> fs !! i = Some f -> Forall (fun g => frontier_account g < frontier_account f) (take i fs).
Proof using.
  revert p i. induction fs as [|g fs IH]; intros p [|i]; cbn; try constructor; destruct (frontier_account g <=? p); try done.
  - pose proof (ascending_first _ _ H) as Hall. rewrite Forall_forall in Hall. apply Hall. by eapply list_elem_of_lookup_2.
  - by eapply IH.
Qed.

(** An account of the ledger that is missing comes after all that were sent, and
    as many as possible were sent. *)
Lemma frontiers_complete n start a info :
  1 <= start <= a -> st_account s !! a = Some info ->
  (exists f, f ∈ take n (frontiers_from start) /\ frontier_account f = a) \/
  length (take n (frontiers_from start)) = n /\ Forall (fun f => frontier_account f < a) (take n (frontiers_from start)).
Proof using.
  intros Hle Ei. assert (Hin : mkFrontier a (ai_head info) ∈ frontiers_from start).
  { apply elem_of_frontiers_from. split; [cbn; lia|]. by exists info. }
  apply list_elem_of_lookup in Hin as (i & Hi). destruct (Nat.lt_ge_cases i n) as [Hlt|Hge].
  - left. exists (mkFrontier a (ai_head info)). split; [|done]. apply list_elem_of_lookup. exists i. by rewrite lookup_take_lt.
  - right. pose proof (lookup_lt_Some _ _ _ Hi). split; [rewrite length_take; lia|].
    pose proof (ascending_before 0 _ i _ (frontiers_from_ascending start ltac:(lia)) Hi) as Hall.
    apply Forall_forall. rewrite Forall_forall in Hall. intros f Hf. apply Hall. apply list_elem_of_lookup in Hf as (j & Hj).
    apply lookup_take_Some in Hj as [Hj Hjn]. apply list_elem_of_lookup. exists j. apply lookup_take_Some. split; [done|lia].
Qed.
End answers.

(** C30. An honest node answers every request it accepts, and the node that asked
    accepts the answer. A request for blocks gets consecutive blocks of one
    account, from the opening block or the given block on, as many as were
    asked for or exist; it counts as nothing new exactly if the start is
    unknown or the given block is the last one. A request for frontiers, from
    the first account on, gets accounts of the ledger with their heads in
    ascending order, and leaves out none but accounts after the last one sent.
    A request for the account of a block gets it. *)
Theorem honest_answer_accepted (c : LedgerConstants) (min_weight : Amount) (s : LmdbStore) (spec : AscPullQuerySpec) (id : Z) (now : Timestamp)
    (timeout : Duration) :
  ledger_inv c min_weight s -> verify_request (mkAscPullReq id (qs_req_type spec)) = true ->
  match qs_req_type spec with ReqFrontiers r => 1 <= frq_start r | _ => True end ->
  exists ack, server_process s (mkAscPullReq id (qs_req_type spec)) = Finished ack /\ apa_id ack = id /\
    let q := query_from_spec id spec now timeout in
    is_valid_response_type ack q = true /\
    match qs_req_type spec, apa_pull_type ack with
    | ReqBlocks r, AckBlocks l =>
        match answer_start s r with
        | None => bap_blocks l = [] /\ verify_blocks l q = VerifyNothingNew
        | Some b => exists info, st_account s !! sv_account b = Some info /\
            segment s (sv_account b) (sv_height b) (bap_blocks l) /\ head (bap_blocks l) = Some (sv_block b) /\
            Z.of_nat (length (bap_blocks l)) = Z.min (brq_count r) (ai_block_count info - sv_height b + 1) /\
            verify_blocks l q =
              match brq_start_type r, bap_blocks l with HashBlock, [_] => VerifyNothingNew | _, _ => VerifyOk end
        end
    | ReqAccountInfo r, AckAccountInfo i =>
        aip_account i = match arq_target_type r with
                        | HashAccount => arq_target r
                        | HashBlock => default 0 (sv_account <$> st_block s !! arq_target r)
                        end
    | ReqFrontiers r, AckFrontiers fs =>
        verify_frontiers fs q = (if bool_decide (fs = []) then VerifyNothingNew else VerifyOk) /\
        (forall f, f ∈ fs -> frq_start r <= frontier_account f /\
           exists info, st_account s !! frontier_account f = Some info /\ ai_head info = frontier_hash f) /\
        forall a info, st_account s !! a = Some info -> frq_start r <= a ->
          (exists f, f ∈ fs /\ frontier_account f = a) \/
          length fs = Z.to_nat (frq_count r) /\ Forall (fun f => frontier_account f < a) fs
    | _, _ => False
    end.
Proof.
  intros Hinv Hv Hf. destruct (qs_req_type spec) as [r|r|r] eqn:Er.
  - apply andb_true_iff in Hv as [H1 H2]. destruct (process_blocks_ok c min_weight s Hinv id r ltac:(lia)) as (l & El & Hl).
    eexists. split; [exact El|]. split; [done|]. cbn zeta. unfold query_from_spec. rewrite Er. split; [by destruct (brq_start_type r)|]. cbn.
    destruct (answer_start s r) as [b|] eqn:Es.
    + destruct Hl as (info & Ei & Hs & Hd & Hn & Ht). exists info. split; [done|]. split; [done|]. split; [done|]. split; [done|].
      pose proof (segment_verified c min_weight s Hinv r b info l id (qs_account spec) (qs_hash spec) now (now + timeout * 4) Es Hs Hd Hn Ht) as Hok.
      by destruct (brq_start_type r).
    + subst l. split; [done|]. unfold verify_blocks. destruct (brq_start_type r); cbn [rq_query_type rq_count bap_blocks]; (destruct (Z.ltb_spec (brq_count r) (Z.of_nat (length (@nil Block)))); [cbn in *; lia|done]).
  - eexists. split; [done|]. split; [done|]. cbn zeta. unfold query_from_spec. rewrite Er. split; [done|]. cbn.
    unfold block_account. rewrite (any_get_block_eq c min_weight s Hinv). by destruct (any_get_account s _).
  - eexists. split; [done|]. split; [done|]. cbn zeta. unfold query_from_spec. rewrite Er. split; [done|].
    cbn [apa_pull_type process_frontiers]. fold (frontiers_from s (frq_start r)). split; [|split].
    + unfold verify_frontiers. cbn [rq_query_type negb]. rewrite bool_decide_true by done. cbn [negb].
      pose proof (ascending_take (Z.to_nat (frq_count r)) 0 _ (frontiers_from_ascending s (frq_start r) Hf)) as Ha.
      destruct (take _ _) as [|f fs] eqn:Et; [done|]. rewrite bool_decide_false by done. unfold are_accounts_in_ascending_order. rewrite Ha. cbn [negb].
      assert (Hin : f ∈ take (Z.to_nat (frq_count r)) (frontiers_from s (frq_start r))) by (rewrite Et; by left).
      apply elem_of_take in Hin as (i & Hi & _). apply list_elem_of_lookup_2, elem_of_frontiers_from in Hi as [Hle _]. cbn.
      by destruct (Z.ltb_spec (frontier_account f) (frq_start r)); [lia|].
    + intros f (i & Hi & _)%elem_of_take. by apply list_elem_of_lookup_2, elem_of_frontiers_from in Hi.
    + intros a info Ei Hle. by apply (frontiers_complete s _ _ a info).
Qed.

(** ** Example *)

(** The genesis account (100) is up to date, account 150 is unknown, account 200
    has another head. *)
Definition peer_frontiers : list Frontier := [mkFrontier 100 (block_hash sample_send); mkFrontier 150 1; mkFrontier 200 5].

Lemma frontier_check_exact_witness :
  get_outdated_accounts open_ledger peer_frontiers = mkOutdatedAccounts [200] 1 0 3.
Proof.
  rewrite (frontier_check_exact open_ledger peer_frontiers); [vm_compute; reflexivity| |by vm_compute].
  by vm_compute.
Defined.

(** A query for the blocks of the genesis account. *)
Definition sample_query : AscPullQuerySpec :=
  mkAscPullQuerySpec 1 7 (ReqBlocks (mkBlocksReqPayload HashAccount 100 10)) 100 0 true.

Lemma honest_answer_accepted_witness :
  exists ack, server_process open_ledger (mkAscPullReq 5 (qs_req_type sample_query)) = Finished ack /\
    is_valid_response_type ack (query_from_spec 5 sample_query 0 1) = true.
Proof.
  destruct (honest_answer_accepted sample_constants 0 open_ledger sample_query 5 0 1 (lo_inv _ _ _ open_ok) ltac:(by vm_compute) I) as (ack & E & _ & Hv & _).
  exact (ex_intro _ ack (conj E Hv)).
Defined.
